(* ===== verification/_CoqProject ===== *)
-Q . S2P
Prelude.v
PyTime.v
Redis.v
Postgres.v
Tables.v
World.v
Database.v
Sha256.v
Partitions.v
Json.v
Mutex.v
JobStore.v
Queue.v
BulkQueue.v
FinalizeQueue.v
TileQueue.v
SideQueues.v
BulkActivity.v
Staging.v
FinalizeWorker.v
CopyFormat.v
Subdivide.v
CopyIngest.v
BulkStorage.v
BulkWorker.v
ReadOnly.v
Reconcile.v
Watchdog.v
JobDisplay.v
Jobs.v
FinalizeMain.v
WorkerMain.v
LoadGate.v
SingleFlight.v
Session.v
Permissions.v
Shares.v
Styles.v
Collections.v
Maps.v
MapPublishing.v
Accounts.v
UserPages.v
Access.v
ApiSafety.v
PropertyFilters.v
FeatureRows.v
DynamicCache.v
Features.v
FeatureDemo.v
FeaturePaging.v
FeatureWrites.v
UploadSessions.v
CompositeItems.v
ItemParams.v
Items.v
ItemAccess.v
ItemPages.v
