(* ===== verification/Prelude.v ===== *)
(** * Verification of the GeoFastMap server: root file

    GeoFastMap (src/app) is a FastAPI server for geographic features stored in
    PostgreSQL.  Its core is the pipeline that loads a file into a collection:
    an API process stores the upload and queues a job on Redis; an import worker
    pops the job, takes the mutex of the collection, copies the features to a
    staging table of the job and queues a promotion; a promotion worker swaps the
    staging table in as the partition of the collection (replace) or inserts its
    rows (append), refreshes the cached columns and completes the job.  Around it
    a watchdog and a reconciler repair what dead workers leave behind, and the job
    endpoints show and cancel jobs.  The other core of the server is its access
    control: users, collections, maps, mosaics and styles with owners,
    visibilities and shares, which every endpoint checks.  The third is what the
    clients read and write: the features of a collection, in pages, as downloads
    and one by one.  This development models these three.

    ** How the program is modelled

    A process is a computation of the monad [World.M]: it reads and writes a
    [world] (Redis keyspace, process memory, clock, database, files) and returns a
    value or raises an exception of [World.exn].  Python's [try] is [try_except],
    [try_pass] and [finally]; a [with engine.begin()] block is
    [Database.transaction], which commits or rolls back as a whole.  Other
    processes and faults are the two schedules of the world: each Redis command
    and each transaction takes one tick, in which time passes, other processes
    act, and the command may be lost before or after the server ran it.  A
    theorem that asks for [quiet] or [db_quiet] worlds takes empty schedules; the
    others hold under every schedule.  The tables of the API (users, collections,
    shares, styles, maps) are a part of the world of their own, [World.s_tables];
    a request that only works on them is a computation of [Session.DB].

    Code that is not in the repository is a parameter: the Redis server
    ([RedisServer], documented laws [RedisLaws]), PostgreSQL ([PostgresServer],
    [PostgresLaws]; [Collation] for ORDER BY), bcrypt ([Bcrypt]), random identifiers ([Entropy], [EntropyLaws]), Shapely
    ([Shapely], [ShapelyLaws], [GeometryOps]), the functions of PostGIS ([PostGIS],
    [PostGISLaws]) and the statements on features ([FeatureServer], [FeatureLaws]:
    the documented result where SQL determines it), the importers a job can choose ([Importers],
    [StagingImporter]), and functions of third-party libraries as arguments.
    Redis.v and Postgres.v hold reference interpreters that satisfy the laws, on
    which the witnesses run.  Of what the servers do by themselves the model has what
    the code depends on: keys that expire, the glob patterns of SCAN, the primary key of
    a staging table (a COPY that repeats a key raises, [CopyIngest.repeated_id_aborts]),
    the line ends of COPY data, statements of a transaction that fails undone.

    ** The files

    Base: Prelude.v (strings, lists, tactics), Tables.v (app/models), PyTime.v (datetime), Json.v
    (json.dumps, json.loads), Sha256.v (hashlib), Redis.v, Postgres.v, World.v
    (settings, exceptions, effects; services/redis_resilience.py), Database.v
    (transactions), ReadOnly.v (computations that write nothing).

    Stores and queues, one file per module of src/app/services: JobStore.v
    (job_store.py), Mutex.v and BulkActivity.v (bulk_collection_activity.py),
    Queue.v (the class of payload codecs), BulkQueue.v (bulk_queue.py),
    FinalizeQueue.v (bulk_finalize_queue.py), TileQueue.v (tile_build_queue.py),
    SideQueues.v (process_queue.py, property_index_queue.py,
    storage_delete_queue.py), BulkStorage.v (bulk_storage.py).

    The import: Subdivide.v (utils/feature_subdivide.py, utils/geometry_limits.py),
    CopyFormat.v and CopyIngest.v (bulk_copy_ingest.py), BulkWorker.v
    (bulk_worker.py), WorkerMain.v (worker_main.py).

    The promotion: Partitions.v (db/features_partitions.py), Staging.v
    (bulk_staging.py, bulk_staging_recovery.py), FinalizeWorker.v
    (bulk_finalize_worker.py, bulk_triggers.py), FinalizeMain.v
    (finalize_worker_main.py).

    Load: LoadGate.v (db_load_gate.py, titiler_gate.py), SingleFlight.v
    (titiler_inflight.py, search_result_cache.py).

    Repair and supervision: Watchdog.v (bulk_watchdog.py), Reconcile.v
    (bulk_finalize_reconcile.py), JobDisplay.v (utils/job_display.py) and Jobs.v
    (api/routes/jobs.py).

    Access: Session.v (core/auth.py, api/deps.py, crud/user.py), Permissions.v
    (core/permissions.py, models/resource_share.py), Shares.v
    (crud/resource_share.py and the share endpoints), Styles.v (crud/styles.py,
    crud/raster_styles.py and their routes), Collections.v (crud/collections.py,
    api/routes/collections.py), Maps.v and MapPublishing.v (crud/maps.py,
    api/routes/maps.py), Accounts.v and UserPages.v (api/routes/auth.py), Access.v
    (the requests that write, what each leaves alone), ApiSafety.v (sequences of
    requests).

    Features: PropertyFilters.v (utils/property_filters.py, utils/property_filter.py,
    db/feature_property_filters.py), FeatureRows.v (the rows of features and the
    statements on them), DynamicCache.v (dynamic_tile_cache.py), Features.v
    (crud/features.py), FeatureDemo.v (a small server for the witnesses),
    FeaturePaging.v (lists and downloads), FeatureWrites.v (writes),
    UploadSessions.v (bulk_upload_sessions.py, bulk_import_params.py,
    collection_type_guard.py and the endpoints that take an upload in parts),
    CompositeItems.v (composite_items.py), ItemParams.v (utils/datetime_parse.py,
    items_query_guards.py and the parameters of a list), Items.v (the other endpoints of
    api/routes/items.py), ItemAccess.v (who may send them and what a write does),
    ItemPages.v (following the pages of a list).

    Definitions keep the names of the source without a leading underscore; an
    inner [_run] of a retried block is [<name>_run]; a part of a long function is
    a definition of its own, named after what it does.

    ** What the theorems show

    - The pipeline end to end: [BulkWorker.upload_published] (a queued upload is
      visible to readers after one worker job and one promotion),
      [bulk_job_queues_promotion], [CopyIngest.import_stages_then_publishes],
      [Staging.promote_publishes], [Partitions.swap_publishes_staging],
      [FinalizeWorker.finalize_completes].
    - Exclusion: the mutex refines an abstract lock ([Mutex.mutex_refines_lock]),
      has one owner over time ([mutex_exclusive]), is reclaimed only when its
      holder cannot be importing ([BulkActivity.reclaim_iff_reclaimable]), and a
      busy collection defers the next import ([BulkWorker.busy_collection_waits]).
    - Recovery: a promotion outlives any number of database failures
      ([FinalizeMain.promotion_outlives_failures]); the rows a dead worker staged
      reach the readers ([Watchdog.dead_worker_recovered]); so does a promotion
      that was lost ([Reconcile.stuck_promotion_recovered]); the reconciler spares
      running imports and its dry run writes nothing.
    - Cancelling: what a cancel removes and what it leaves alone, for queued and
      finalizing jobs, and that a caller only reaches its own jobs (Jobs.v).
    - The worker process: it never ends by an error, never runs more jobs than it
      has slots, and claims in order (WorkerMain.v).
    - Data: COPY text and payload round trips, the bounded copier, equality of the
      serial and the parallel loader, coverage of subdivided geometries; an import
      that is cancelled leaves no table behind ([CopyIngest.cancelled_import_cleans_up]).
    - Caches: what a change of a collection deletes, with the patterns of SCAN as the
      server reads them ([DynamicCache.invalidation_exact]).
    - Logins: the eighth failure within a minute blocks an address
      ([Accounts.eight_failures_block]).
    - Access: whatever requests arrive, the tables keep their invariant
      ([ApiSafety.api_stays_ok]) and nobody gains a right on a collection through
      callers who have none ([rights_not_gained]); a list shows exactly what the
      caller may open ([listing_is_what_one_sees]); who changes a style may do so
      ([Styles.style_change_allowed]); a collection has one default style; a
      map that is public shows nothing its publisher could not publish
      ([MapPublishing.publishing_checked]).
    - Features: the pages of a list ordered by id are the slices of one list
      without repetition, each feature with all its parts ([FeaturePaging.page_is_slice]), a download gives every
      part or feature once and ends ([download_complete], [box_download_complete]),
      a write changes one feature and the count ([FeatureWrites.feature_writes_refine]),
      [name=value*] matches what a glob matches
      ([FeatureRows.filter_value_reads_as_glob]).
    - Requests on features: they are checked before anything is read or written
      ([ItemAccess.items_access_checked]), a replacement or deletion changes that feature
      and empties the tile caches ([item_write_refines]), the next links of a list lead
      to every feature once ([ItemPages.next_links_give_all]), and so do the pages of a
      composite collection ([CompositeItems.composite_page_is_slice]); the ids of its
      items are read back ([composite_id_roundtrip]).
    - Uploads: an upload sent in parts, in any order and with parts sent again,
      leaves the bytes an upload in one piece would have left
      ([UploadSessions.resumable_upload]), and its records keep their types
      ([session_keeps_type]).
    - Load: the gates count their slots exactly and do not idle while calls wait
      (LoadGate.v); one fetch serves all callers of a tile (SingleFlight.v).
    - Bounds and ends: retries, lock waits, idle waits and reads end.
    - Defects: theorems that run the code on a concrete world and exhibit what
      goes wrong; they are listed as findings.

    ** Bounds and fuel

    Redis retries and database retries carry the number of attempts the settings
    give.  The wait for a partition lock carries a fuel computed from the maximal
    wait and the smallest pause; [Partitions.swap_terminates] shows that it is
    never used up.  The wait for an idle collection takes its number of polls as an
    argument and returns [None] when they are used up;
    [BulkActivity.wait_until_idle_terminates] bounds the polls it needs.  Parsers
    take the length of their input.  Recursion over geometries takes the stack
    frames left, and raises [RecursionError] when there is none.  A download takes
    a number of batches, and [None] says that they are used up: one more than there
    are parts is enough ([FeaturePaging.download_complete]).  Integers are
    unbounded, as Python's are; SHA-256 words are taken modulo 2^32.

    ** Not modelled

    The HTTP layer (routing, request parsing, HTML pages, links of the answers),
    tile and raster serving, the mosaic planner,
    geoprocesses, the row-by-row importer, the worker of storage deletes, the
    self-heal of the storage, observability, migrations and deployment files.
    Printed logs are left out everywhere.  Connection objects (engines, clients)
    are not values: creating one does not fail and changes nothing. *)

From stdpp Require Export base tactics option list gmap strings.
From stdpp Require Import pretty.
From Stdlib Require Export Ascii.
From Stdlib Require Export ZArith Lia.

#[export] Set Default Goal Selector "!".
#[global] Open Scope string_scope.
#[global] Open Scope Z_scope.

(** ** Python truthiness of the types the sources test *)

(** [x or d] on a string. *)
Definition str_or (x d : string) : string := if decide (x = "") then d else x.

(** [x or d] on a number. *)
Definition int_or (x d : Z) : Z := if decide (x = 0) then d else x.

(** [x or ""] on an optional string. *)
Definition opt_str (x : option string) : string := default "" x.

(** Truth value of an optional string: [None] and [""] are false. *)
Definition truthy (x : option string) : bool :=
  match x with Some s => negb (bool_decide (s = "")) | None => false end.

(** ** Python [str] methods

    A Python string is represented by its UTF-8 bytes.  Case mapping is the
    ASCII one: the literals the sources compare against are ASCII. *)

Definition lower_ascii (c : Ascii.ascii) : Ascii.ascii :=
  let n := Ascii.nat_of_ascii c in
  if (65 <=? n)%nat && (n <=? 90)%nat then Ascii.ascii_of_nat (n + 32) else c.

Fixpoint lower (s : string) : string :=
  match s with
  | EmptyString => EmptyString
  | String c s' => String (lower_ascii c) (lower s')
  end.

Fixpoint startswith (p s : string) : bool :=
  match p, s with
  | EmptyString, _ => true
  | String a p', String b s' => bool_decide (a = b) && startswith p' s'
  | String _ _, EmptyString => false
  end.

(** [sub in s] *)
Fixpoint contains (sub s : string) : bool :=
  startswith sub s ||
  match s with EmptyString => false | String _ s' => contains sub s' end.

(** [s[n:]] where [n] counts bytes of an ASCII prefix. *)
Fixpoint str_drop (n : nat) (s : string) : string :=
  match n, s with
  | S n', String _ s' => str_drop n' s'
  | _, _ => s
  end.

(** A UTF-8 continuation byte does not start a character. *)
Definition is_cont (c : Ascii.ascii) : bool :=
  let n := Ascii.nat_of_ascii c in (128 <=? n)%nat && (n <? 192)%nat.

(** [s[:n]], counting characters. *)
Fixpoint str_take (n : nat) (s : string) : string :=
  match s with
  | EmptyString => EmptyString
  | String c s' =>
      if is_cont c then String c (str_take n s')
      else match n with O => EmptyString | S n' => String c (str_take n' s') end
  end.

(** Python's ASCII white space. *)
Definition py_space (c : Ascii.ascii) : bool :=
  let n := Ascii.nat_of_ascii c in
  ((9 <=? n)%nat && (n <=? 13)%nat) || ((28 <=? n)%nat && (n <=? 32)%nat).

Fixpoint lstrip (s : string) : string :=
  match s with
  | EmptyString => EmptyString
  | String c s' => if py_space c then lstrip s' else s
  end.

Fixpoint rstrip (s : string) : string :=
  match s with
  | EmptyString => EmptyString
  | String c s' =>
      match rstrip s' with
      | EmptyString => if py_space c then EmptyString else String c EmptyString
      | r => String c r
      end
  end.

Definition strip (s : string) : string := rstrip (lstrip s).

(** [s.split(sep)] for a one-character separator. *)
Fixpoint split_go (sep : Ascii.ascii) (cur s : string) : list string :=
  match s with
  | EmptyString => [String.rev cur]
  | String c s' =>
      if decide (c = sep) then String.rev cur :: split_go sep "" s'
      else split_go sep (String c cur) s'
  end.
Definition split (sep : Ascii.ascii) (s : string) : list string := split_go sep "" s.

(** [s.split(sep, n)]: at most [n] splits. *)
Fixpoint splitn_go (sep : Ascii.ascii) (n : nat) (cur s : string) : list string :=
  match s with
  | EmptyString => [String.rev cur]
  | String c s' =>
      match n with
      | O => [String.app (String.rev cur) s]
      | S n' =>
          if decide (c = sep) then String.rev cur :: splitn_go sep n' "" s'
          else splitn_go sep n (String c cur) s'
      end
  end.
Definition splitn (sep : Ascii.ascii) (n : nat) (s : string) : list string :=
  splitn_go sep n "" s.

(** [sep.join(l)] *)
Fixpoint join (sep : string) (l : list string) : string :=
  match l with
  | [] => ""
  | [x] => x
  | x :: l' => x +:+ sep +:+ join sep l'
  end.

(** ** Decimal integers: [str(n)] and [int(s)] *)

Definition digit_val (c : Ascii.ascii) : option Z :=
  let n := Z.of_nat (Ascii.nat_of_ascii c) in
  if (48 <=? n) && (n <=? 57) then Some (n - 48) else None.

Definition is_digit (c : Ascii.ascii) : bool := bool_decide (is_Some (digit_val c)).

(** Digits, with the single underscores Python allows between them. *)
Fixpoint digits_go (acc : Z) (after_digit : bool) (s : string) : option Z :=
  match s with
  | EmptyString => if after_digit then Some acc else None
  | String c s' =>
      match digit_val c with
      | Some d => digits_go (10 * acc + d) true s'
      | None =>
          if after_digit && bool_decide (c = "_"%char) then digits_go acc false s'
          else None
      end
  end.

Definition parse_nat_digits (s : string) : option Z := digits_go 0 false s.

(** [int(s)]; [None] is [ValueError]. *)
Definition py_int (s : string) : option Z :=
  match strip s with
  | String "-" s' => Z.opp <$> parse_nat_digits s'
  | String "+" s' => parse_nat_digits s'
  | s' => parse_nat_digits s'
  end.

(** [str(n)] *)
Definition str_of_Z (z : Z) : string := pretty z.

(** [s.isdigit()] on ASCII strings. *)
Fixpoint all_digits (s : string) : bool :=
  match s with
  | EmptyString => true
  | String c s' => is_digit c && all_digits s'
  end.
Definition isdigit (s : string) : bool := negb (bool_decide (s = "")) && all_digits s.

(** [f"{n:,}"]: thousands separators. *)
Definition group_digits (s : string) : string :=
  (fix go (i : nat) (s acc : string) : string :=
     match s with
     | EmptyString => acc
     | String c s' =>
         if (i =? 3)%nat then go 1%nat s' (String c (String "," acc))
         else go (S i) s' (String c acc)
     end) O (String.rev s) "".
Definition comma (z : Z) : string :=
  if z <? 0 then "-" +:+ group_digits (str_of_Z (- z)) else group_digits (str_of_Z z).

Example comma_ex : comma 1234567 = "1,234,567" /\ comma 999 = "999" /\ comma 1000 = "1,000".
Proof. by vm_compute. Qed.

(** ** Python slices: negative bounds count from the end *)

Definition slice_bound (n : nat) (i : Z) : nat :=
  Z.to_nat (if i <? 0 then Z.max 0 (Z.of_nat n + i) else i).

(** [l\[a:b\]] and [l\[:b\]] *)
Definition py_slice {A} (l : list A) (a b : Z) : list A :=
  let a := slice_bound (length l) a in
  let b := slice_bound (length l) b in
  take (b - a) (drop a l).
Definition py_upto {A} (l : list A) (b : Z) : list A := take (slice_bound (length l) b) l.

(** ** Generic lemmas *)

(** *** String concatenation and key prefixes *)

Lemma app_str_cons c s t : String c s +:+ t = String c (s +:+ t).
Proof. reflexivity. Qed.

Lemma app_str_nil_l s : "" +:+ s = s.
Proof. reflexivity. Qed.

Lemma app_str_nil_r s : s +:+ "" = s.
Proof. induction s as [|c s IH]; [done|]. by rewrite app_str_cons, IH. Qed.

Lemma app_str_assoc s1 s2 s3 : (s1 +:+ s2) +:+ s3 = s1 +:+ (s2 +:+ s3).
Proof. induction s1 as [|c s IH]; [done|]. by rewrite !app_str_cons, IH. Qed.

Lemma str_length_app s t :
  String.length (s +:+ t) = (String.length s + String.length t)%nat.
Proof. induction s as [|c s IH]; [done|]. rewrite app_str_cons. simpl. by rewrite IH. Qed.

Lemma startswith_app p s : startswith p (p +:+ s) = true.
Proof.
  induction p as [|c p IH]; [done|]. rewrite app_str_cons. simpl.
  by rewrite bool_decide_eq_true_2, IH.
Qed.

Lemma startswith_split p s : startswith p s = true -> exists t, s = p +:+ t.
Proof.
  revert s. induction p as [|c p IH]; intros s Hs; [by exists s|].
  destruct s as [|c' s]; [done|]. simpl in Hs.
  apply andb_true_iff in Hs as [->%bool_decide_eq_true_1 Hs].
  destruct (IH _ Hs) as [t ->]. by exists t.
Qed.

Lemma str_drop_app p s : str_drop (String.length p) (p +:+ s) = s.
Proof.
  induction p as [|c p IH]; [by destruct s|]. rewrite app_str_cons. apply IH.
Qed.

Lemma lower_app s t : lower (s +:+ t) = lower s +:+ lower t.
Proof. induction s as [|c s IH]; [done|]. rewrite !app_str_cons. simpl. by rewrite IH. Qed.

Lemma lower_idem s : lower (lower s) = lower s.
Proof.
  induction s as [|c s IH]; [done|]. simpl. f_equal; [|done].
  by destruct c as [[] [] [] [] [] [] [] []]; vm_compute.
Qed.

Lemma contains_app_r sub s t : contains sub t = true -> contains sub (s +:+ t) = true.
Proof.
  intros Ht. induction s as [|c s IH]; [done|].
  rewrite app_str_cons. simpl. by rewrite IH, orb_true_r.
Qed.

(** *** Decimal round trip *)

Lemma digit_val_pretty_N_char (n : N) :
  (n < 10)%N -> digit_val (pretty_N_char n) = Some (Z.of_N n).
Proof.
  intros Hn. destruct n as [|p]; [done|].
  do 4 (try destruct p as [p|p|]); by (vm_compute || lia).
Qed.

Lemma digits_go_pretty_N_go (x : N) b s :
  (0 < x)%N -> digits_go 0 b (pretty_N_go x s) = digits_go (Z.of_N x) true s.
Proof.
  revert b s. induction (N.lt_wf_0 x) as [x _ IH]; intros b s Hx.
  rewrite pretty_N_go_step by lia.
  assert (digit_val (pretty_N_char (x `mod` 10)) = Some (Z.of_N (x `mod` 10))) as Hd.
  { apply digit_val_pretty_N_char. apply N.mod_lt. lia. }
  destruct (decide (x `div` 10 = 0)%N) as [H0|H0].
  - rewrite H0, pretty_N_go_0. cbn [digits_go]. rewrite Hd.
    pose proof (N.div_mod' x 10). f_equal. lia.
  - rewrite IH; [|apply N.div_lt; lia|apply N.neq_0_lt_0, H0].
    cbn [digits_go]. rewrite Hd. pose proof (N.div_mod' x 10). f_equal. lia.
Qed.

Lemma parse_nat_digits_pretty_N (x : N) : parse_nat_digits (pretty x) = Some (Z.of_N x).
Proof.
  unfold parse_nat_digits, pretty, pretty_N.
  case_decide as H0; [by subst x|].
  rewrite digits_go_pretty_N_go by lia. done.
Qed.

(** Strings of digits are not changed by [strip]. *)
Lemma py_space_digit c : is_digit c = true -> py_space c = false.
Proof. by destruct c as [[] [] [] [] [] [] [] []]. Qed.

Lemma all_digits_pretty_N_go (x : N) s :
  all_digits s = true -> all_digits (pretty_N_go x s) = true.
Proof.
  revert s. induction (N.lt_wf_0 x) as [x _ IH]; intros s Hs.
  destruct (decide (x = 0)%N) as [->|Hx]; [by rewrite pretty_N_go_0|].
  rewrite pretty_N_go_step by lia. apply IH; [apply N.div_lt; lia|].
  simpl. rewrite Hs, andb_true_r. unfold is_digit.
  rewrite digit_val_pretty_N_char by (apply N.mod_lt; lia).
  by rewrite bool_decide_eq_true_2 by eauto.
Qed.

Lemma all_digits_pretty_N (x : N) : all_digits (pretty x) = true.
Proof.
  unfold pretty, pretty_N. case_decide; [done|]. by apply all_digits_pretty_N_go.
Qed.

Lemma lstrip_digits s : all_digits s = true -> lstrip s = s.
Proof.
  destruct s as [|c s]; [done|]. simpl. intros [Hc _]%andb_true_iff.
  by rewrite py_space_digit.
Qed.

Lemma rstrip_digits s : all_digits s = true -> rstrip s = s.
Proof.
  induction s as [|c s IH]; [done|]. simpl. intros [Hc Hs]%andb_true_iff.
  rewrite IH by done. destruct s as [|c' s]; [|done]. by rewrite py_space_digit.
Qed.

Lemma strip_digits s : all_digits s = true -> strip s = s.
Proof. intros Hs. unfold strip. by rewrite lstrip_digits, rstrip_digits. Qed.

Lemma strip_minus_digits s : all_digits s = true -> strip ("-" +:+ s) = "-" +:+ s.
Proof.
  intros Hs. unfold strip. simpl lstrip.
  rewrite app_str_cons, app_str_nil_l. simpl. rewrite rstrip_digits by done.
  by destruct s.
Qed.

Lemma parse_nat_digits_no_sign s :
  all_digits s = true -> py_int s = parse_nat_digits s.
Proof.
  intros Hs. unfold py_int. rewrite strip_digits by done.
  destruct s as [|c s]; [done|]. simpl in Hs. apply andb_true_iff in Hs as [Hc _].
  by destruct c as [[] [] [] [] [] [] [] []].
Qed.

(** [int(str(n)) == n] *)
Lemma py_int_str_of_Z z : py_int (str_of_Z z) = Some z.
Proof.
  unfold str_of_Z, pretty, pretty_Z. destruct z as [|p|p]; [done| |].
  - rewrite parse_nat_digits_no_sign by apply all_digits_pretty_N.
    apply (parse_nat_digits_pretty_N (N.pos p)).
  - unfold py_int. rewrite strip_minus_digits by apply all_digits_pretty_N.
    rewrite app_str_cons, app_str_nil_l. cbn beta iota.
    change (Z.opp <$> parse_nat_digits (pretty (N.pos p)) = Some (Z.neg p)).
    by rewrite parse_nat_digits_pretty_N.
Qed.

Lemma str_of_Z_inj z1 z2 : str_of_Z z1 = str_of_Z z2 -> z1 = z2.
Proof.
  intros H. apply (f_equal py_int) in H. rewrite !py_int_str_of_Z in H. congruence.
Qed.

Lemma str_of_Z_nonempty z : str_of_Z z <> "".
Proof.
  intros H. pose proof (py_int_str_of_Z z) as Hz. rewrite H in Hz. done.
Qed.

(** *** Lists *)

Lemma sublist_Forall {A} (P : A -> Prop) k l : sublist k l -> Forall P l -> Forall P k.
Proof.
  induction 1 as [|x k l _ IH|x k l _ IH]; intros Hl; [done| |];
    apply Forall_cons in Hl as [??]; [constructor|]; auto.
Qed.

Lemma sublist_elem {A} (x : A) k l : sublist k l -> x ∈ k -> x ∈ l.
Proof.
  induction 1 as [|y k l _ IH|y k l _ IH]; intros Hx; [done| |by apply list_elem_of_further, IH].
  apply elem_of_cons in Hx as [->|Hx]; [apply list_elem_of_here|by apply list_elem_of_further, IH].
Qed.

(** ** Proof automation

    [key_neq] separates Redis keys built with different literal prefixes;
    [key_eq] compares keys with the same prefix. *)

Ltac key_neq :=
  let H := fresh in
  intros H; cbv [String.app] in H; cbn [String.append] in H; simplify_eq/=; try done.

Create HintDb geofast discriminated.
Create Rewrite HintDb geofast.
#[export] Hint Rewrite app_str_nil_r py_int_str_of_Z lower_idem : geofast.
