(* ===== verification/PyTime.v ===== *)
(** * Dates and times of the Python standard library

    The part of [datetime] the sources use: the proleptic Gregorian calendar
    of [date] ([toordinal], [fromordinal], [isoformat]) and naive or aware
    [datetime] values with [utcnow], [now(timezone.utc)], [isoformat] and
    [fromisoformat].  A [datetime] is its wall-clock reading in microseconds
    since 1970-01-01T00:00:00 and its UTC offset, [None] when naive.
    [fromisoformat] is modelled on the extended forms the program itself
    writes and on their [Z] and [+HH:MM] suffixes. *)

From S2P Require Import Prelude.

(** ** Calendar *)

Definition is_leap (y : Z) : bool :=
  (y mod 4 =? 0) && (negb (y mod 100 =? 0) || (y mod 400 =? 0)).

Definition days_before_year (y : Z) : Z :=
  let y' := y - 1 in y' * 365 + y' / 4 - y' / 100 + y' / 400.

Definition days_in_month (y m : Z) : Z :=
  if m =? 2 then (if is_leap y then 29 else 28)
  else if (m =? 4) || (m =? 6) || (m =? 9) || (m =? 11) then 30 else 31.

(** The table [_DAYS_BEFORE_MONTH] of a common year. *)
Definition days_before_month_tbl (m : Z) : Z :=
  match m with
  | 1 => 0 | 2 => 31 | 3 => 59 | 4 => 90 | 5 => 120 | 6 => 151 | 7 => 181
  | 8 => 212 | 9 => 243 | 10 => 273 | 11 => 304 | 12 => 334 | _ => 0
  end.

Definition days_before_month (y m : Z) : Z :=
  days_before_month_tbl m + (if (2 <? m) && is_leap y then 1 else 0).

Record date := Date { year : Z; month : Z; day : Z }.

#[export] Instance date_eq_dec : EqDecision date.
Proof. solve_decision. Defined.

Definition date_valid (d : date) : bool :=
  (1 <=? year d) && (year d <=? 9999) && (1 <=? month d) && (month d <=? 12)
  && (1 <=? day d) && (day d <=? days_in_month (year d) (month d)).

(** [date.toordinal] *)
Definition toordinal (d : date) : Z :=
  days_before_year (year d) + days_before_month (year d) (month d) + day d.

(** [_ord2ymd] of the standard library, step by step. *)
Definition ord2ymd (n : Z) : date :=
  let n := n - 1 in
  let n400 := n / 146097 in let n := n mod 146097 in
  let n100 := n / 36524 in let n := n mod 36524 in
  let n4 := n / 1461 in let n := n mod 1461 in
  let n1 := n / 365 in let n := n mod 365 in
  let y := n400 * 400 + 1 + n100 * 100 + n4 * 4 + n1 in
  if (n1 =? 4) || (n100 =? 4) then Date (y - 1) 12 31
  else
    let leap := (n1 =? 3) && (negb (n4 =? 24) || (n100 =? 3)) in
    let m := Z.shiftr (n + 50) 5 in
    let before k := days_before_month_tbl k + (if (2 <? k) && leap then 1 else 0) in
    let m' := if n <? before m then m - 1 else m in
    Date y m' (n - before m' + 1).

(** [f] holds of the [n] integers from [i]. *)
Fixpoint forall_from (f : Z -> bool) (i : Z) (n : nat) : bool :=
  match n with
  | O => true
  | S n' => f i && forall_from f (i + 1) n'
  end.

Lemma forall_from_spec f i n j :
  forall_from f i n = true -> i <= j < i + Z.of_nat n -> f j = true.
Proof.
  revert i. induction n as [|n IH]; intros i; simpl; [lia|].
  intros [Hf Hn]%andb_true_iff Hj.
  destruct (decide (j = i)) as [->|]; [done|]. apply (IH (i + 1)); [done|lia].
Qed.

(** The year [400a + 100b + 4c + d + 1] within its 400-year cycle. *)
Section cycle.
Context (a b c d : Z) (Hb : 0 <= b <= 3) (Hc : 0 <= c <= 24) (Hd : 0 <= d <= 3).
Let y : Z := a * 400 + 1 + b * 100 + c * 4 + d.

Lemma days_before_year_cycle :
  days_before_year y = a * 146097 + b * 36524 + c * 1461 + d * 365.
Proof.
  unfold days_before_year, y. cbv zeta. Z.to_euclidean_division_equations. lia.
Qed.

Lemma is_leap_cycle : is_leap y = (d =? 3) && (negb (c =? 24) || (b =? 3)).
Proof.
  assert (y mod 4 = (d + 1) mod 4) as H4.
  { unfold y. Z.to_euclidean_division_equations. lia. }
  assert (y mod 100 = (4 * c + d + 1) mod 100) as H100.
  { unfold y. Z.to_euclidean_division_equations. lia. }
  assert (y mod 400 = (100 * b + 4 * c + d + 1) mod 400) as H400.
  { unfold y. Z.to_euclidean_division_equations. lia. }
  unfold is_leap. rewrite H4, H100, H400.
  apply eq_true_iff_eq.
  rewrite !andb_true_iff, !orb_true_iff, !negb_true_iff, !Z.eqb_eq, !Z.eqb_neq.
  Z.to_euclidean_division_equations. lia.
Qed.
End cycle.

(** Names the quotients and remainders of [ord2ymd] with their equations. *)
Ltac decompose_ordinal n :=
  unfold ord2ymd;
  set (r := (n - 1) mod 146097); set (a := (n - 1) / 146097);
  set (b := r / 36524); set (r1 := r mod 36524);
  set (c := r1 / 1461); set (r2 := r1 mod 1461);
  set (d := r2 / 365); set (r3 := r2 mod 365);
  assert (n - 1 = 146097 * a + r /\ 0 <= r < 146097) as [? ?]
    by (unfold a, r; Z.to_euclidean_division_equations; lia);
  assert (r = 36524 * b + r1 /\ 0 <= r1 < 36524) as [? ?]
    by (unfold b, r1; Z.to_euclidean_division_equations; lia);
  assert (r1 = 1461 * c + r2 /\ 0 <= r2 < 1461) as [? ?]
    by (unfold c, r2; Z.to_euclidean_division_equations; lia);
  assert (r2 = 365 * d + r3 /\ 0 <= r3 < 365) as [? ?]
    by (unfold d, r3; Z.to_euclidean_division_equations; lia);
  clearbody r a b r1 c r2 d r3.

(** [date.fromordinal] is a right inverse of [date.toordinal]. *)
Lemma toordinal_ord2ymd n : toordinal (ord2ymd n) = n.
Proof.
  decompose_ordinal n.
  destruct ((d =? 4) || (b =? 4)) eqn:Hend.
  - (* the last day of a leap cycle *)
    unfold toordinal, days_before_month. cbn [year month day].
    apply orb_true_iff in Hend as [Hd4%Z.eqb_eq|Hb4%Z.eqb_eq]; subst.
    + replace (a * 400 + 1 + b * 100 + c * 4 + 4 - 1)
        with (a * 400 + 1 + b * 100 + c * 4 + 3) by lia.
      rewrite days_before_year_cycle, is_leap_cycle by lia.
      replace (c =? 24) with false by (symmetry; apply Z.eqb_neq; lia). simpl. lia.
    + assert (c = 0 /\ d = 0) as [-> ->] by lia.
      replace (a * 400 + 1 + 4 * 100 + 0 * 4 + 0 - 1)
        with (a * 400 + 1 + 3 * 100 + 24 * 4 + 3) by lia.
      rewrite days_before_year_cycle, is_leap_cycle by lia. simpl. lia.
  - apply orb_false_iff in Hend as [?%Z.eqb_neq ?%Z.eqb_neq].
    unfold toordinal, days_before_month. cbn [year month day].
    rewrite days_before_year_cycle, is_leap_cycle by lia. lia.
Qed.

(** The month search of [_ord2ymd] over one year, common or leap. *)
Definition doy_month (leap : bool) (n : Z) : Z :=
  let before k := days_before_month_tbl k + (if (2 <? k) && leap then 1 else 0) in
  let m := Z.shiftr (n + 50) 5 in if n <? before m then m - 1 else m.

Definition doy_ok (leap : bool) (n : Z) : bool :=
  let m := doy_month leap n in
  let d := n - (days_before_month_tbl m + (if (2 <? m) && leap then 1 else 0)) + 1 in
  (1 <=? m) && (m <=? 12) && (1 <=? d)
  && (d <=? (if m =? 2 then (if leap then 29 else 28)
             else if (m =? 4) || (m =? 6) || (m =? 9) || (m =? 11) then 30 else 31)).

Lemma doy_ok_all : forall_from (doy_ok false) 0 365 = true /\ forall_from (doy_ok true) 0 366 = true.
Proof. by vm_compute. Qed.

Lemma doy_ok_common n : 0 <= n < 365 -> doy_ok false n = true.
Proof. intros Hn. apply (forall_from_spec _ 0 365); [apply doy_ok_all|lia]. Qed.

Lemma doy_ok_leap n : 0 <= n < 366 -> doy_ok true n = true.
Proof. intros Hn. apply (forall_from_spec _ 0 366); [apply doy_ok_all|lia]. Qed.

Lemma doy_ok_365 leap n : 0 <= n < 365 -> doy_ok leap n = true.
Proof. intros Hn. destruct leap; [apply doy_ok_leap|apply doy_ok_common]; lia. Qed.

Lemma ord2ymd_fields n :
  1 <= n <= 3652059 ->
  1 <= year (ord2ymd n) <= 9999 /\ 1 <= month (ord2ymd n) <= 12
  /\ 1 <= day (ord2ymd n) <= 31.
Proof.
  intros Hn. decompose_ordinal n.
  destruct ((d =? 4) || (b =? 4)) eqn:Hend; cbn [year month day].
  - apply orb_true_iff in Hend as [?%Z.eqb_eq|?%Z.eqb_eq]; lia.
  - apply orb_false_iff in Hend as [?%Z.eqb_neq ?%Z.eqb_neq].
    split; [lia|].
    pose proof (doy_ok_365 ((d =? 3) && (negb (c =? 24) || (b =? 3))) r3) as Hok.
    unfold doy_ok, doy_month in Hok. specialize (Hok ltac:(lia)).
    repeat (apply andb_true_iff in Hok as [Hok ?]).
    repeat match goal with H : (_ <=? _) = true |- _ => apply Z.leb_le in H end.
    split; [split; assumption|]. split; [assumption|].
    etrans; [eassumption|]. repeat case_match; lia.
Qed.

(** ** Fixed-width decimal fields *)

(** The digit character of [0 <= d <= 9]. *)
Definition digit_char (d : Z) : Ascii.ascii := Ascii.ascii_of_nat (Z.to_nat (48 + d)).

(** [f"{z:0nd}"] in front of [s]: the [n] low decimal digits of [z]. *)
Fixpoint pad (n : nat) (z : Z) (s : string) : string :=
  match n with
  | O => s
  | S n' => pad n' (z / 10) (String (digit_char (z mod 10)) s)
  end.

(** Reads exactly [n] digits. *)
Fixpoint read_digits (n : nat) (acc : Z) (s : string) : option (Z * string) :=
  match n with
  | O => Some (acc, s)
  | S n' =>
      match s with
      | String c s' => d ← digit_val c; read_digits n' (10 * acc + d) s'
      | EmptyString => None
      end
  end.

(** Reads one given character. *)
Definition read_char (c : Ascii.ascii) (s : string) : option string :=
  match s with
  | String c' s' => if decide (c = c') then Some s' else None
  | EmptyString => None
  end.

Lemma digit_val_digit_char d : 0 <= d < 10 -> digit_val (digit_char d) = Some d.
Proof.
  intros Hd. assert (d = 0 \/ d = 1 \/ d = 2 \/ d = 3 \/ d = 4 \/ d = 5 \/ d = 6 \/ d = 7
                     \/ d = 8 \/ d = 9) as Hc by lia.
  by destruct_or! Hc; subst d; vm_compute.
Qed.

Lemma read_digits_snoc n acc s :
  read_digits (S n) acc s =
  '(z, s') ← read_digits n acc s;
  match s' with
  | String c s'' => d ← digit_val c; Some (10 * z + d, s'')
  | EmptyString => None
  end.
Proof.
  revert acc s. induction n as [|n IH]; intros acc s; [done|].
  change (read_digits (S (S n)) acc s) with
    (match s with
     | String c s' => d ← digit_val c; read_digits (S n) (10 * acc + d) s'
     | EmptyString => None
     end).
  destruct s as [|c s]; [done|].
  cbn [read_digits]. destruct (digit_val c) as [d|]; [|done]. simpl. apply IH.
Qed.

Lemma read_digits_pad n acc z s :
  0 <= z < 10 ^ Z.of_nat n ->
  read_digits n acc (pad n z s) = Some (acc * 10 ^ Z.of_nat n + z, s).
Proof.
  revert z s. induction n as [|n IH]; intros z s Hz.
  { simpl in *. do 2 f_equal. lia. }
  rewrite Nat2Z.inj_succ, Z.pow_succ_r in * by lia.
  rewrite read_digits_snoc. cbn [pad].
  rewrite IH.
  2: { split; [apply Z.div_pos; lia|]. apply Z.div_lt_upper_bound; lia. }
  simpl. rewrite digit_val_digit_char by (apply Z.mod_pos_bound; lia).
  simpl. do 2 f_equal. pose proof (Z.div_mod z 10). lia.
Qed.

(** ** Date strings *)

Definition date_isoformat (d : date) : string :=
  pad 4 (year d) (String "-" (pad 2 (month d) (String "-" (pad 2 (day d) "")))).

Definition read_date (s : string) : option (date * string) :=
  '(y, s) ← read_digits 4 0 s; s ← read_char "-" s;
  '(m, s) ← read_digits 2 0 s; s ← read_char "-" s;
  '(d, s) ← read_digits 2 0 s;
  if date_valid (Date y m d) then Some (Date y m d, s) else None.

(** ** Aware and naive datetimes *)

Record datetime := DT { dt_us : Z; dt_tz : option Z }.

#[export] Instance datetime_eq_dec : EqDecision datetime.
Proof. solve_decision. Defined.

Definition epoch_ord : Z := 719163.
Definition us_per_day : Z := 86400000000.

(** [dt.date()] *)
Definition dt_date (d : datetime) : date := ord2ymd (dt_us d / us_per_day + epoch_ord).

(** [datetime.utcnow()] and [datetime.now(timezone.utc)] at clock reading [t]. *)
Definition utcnow (t : Z) : datetime := DT t None.
Definition now_utc (t : Z) : datetime := DT t (Some 0).

(** [dt.replace(tzinfo=timezone.utc)] *)
Definition as_utc (d : datetime) : datetime := DT (dt_us d) (Some 0).

(** [ts if ts.tzinfo else ts.replace(tzinfo=timezone.utc)] *)
Definition default_utc (d : datetime) : datetime :=
  match dt_tz d with None => as_utc d | Some _ => d end.

(** The instant of an aware datetime; a naive one is read as UTC. *)
Definition dt_instant (d : datetime) : Z := dt_us d - default 0 (dt_tz d).

Definition tz_isoformat (tz : option Z) : string :=
  match tz with
  | None => ""
  | Some off =>
      let m := Z.abs off / 60000000 in
      String (if off <? 0 then "-"%char else "+"%char)
        (pad 2 (m / 60) (String ":" (pad 2 (m mod 60) "")))
  end.

(** The wall-clock part of [isoformat], in front of [tail]. *)
Definition iso_body (us : Z) (tail : string) : string :=
  let dd := ord2ymd (us / us_per_day + epoch_ord) in
  let t := us mod us_per_day in
  let sec := t / 1000000 in
  let frac := t mod 1000000 in
  pad 4 (year dd) (String "-" (pad 2 (month dd) (String "-" (pad 2 (day dd) (String "T"
    (pad 2 (sec / 3600) (String ":" (pad 2 (sec / 60 mod 60) (String ":" (pad 2 (sec mod 60)
       (if frac =? 0 then tail else String "." (pad 6 frac tail)))))))))))).

(** [dt.isoformat()] followed by [s]. *)
Definition isoformat_then (d : datetime) (s : string) : string :=
  iso_body (dt_us d) (tz_isoformat (dt_tz d) +:+ s).

Definition isoformat (d : datetime) : string := isoformat_then d "".

(** [dt.isoformat() + "Z"] *)
Definition isoformat_z (d : datetime) : string := isoformat_then d "Z".

Definition read_tz (s : string) : option (option Z) :=
  match s with
  | EmptyString => Some None
  | String c s' =>
      if decide (c = "Z"%char) then (if decide (s' = "") then Some (Some 0) else None)
      else
        sgn ← (if decide (c = "+"%char) then Some 1 else if decide (c = "-"%char) then Some (-1) else None);
        '(h, s) ← read_digits 2 0 s'; s ← read_char ":" s;
        '(m, s) ← read_digits 2 0 s;
        if decide (s = "" /\ h < 24 /\ m < 60) then Some (Some (sgn * (h * 60 + m) * 60000000)) else None
  end.

(** An optional fraction of six digits. *)
Definition read_frac (s : string) : option (Z * string) :=
  match read_char "." s with
  | Some s' => read_digits 6 0 s'
  | None => Some (0, s)
  end.

(** [datetime.fromisoformat(s)] on the texts [isoformat] writes: date, ["T"],
    time with seconds, an optional fraction of six digits, an optional offset;
    [None] is [ValueError].  The shorter ISO 8601 forms Python also accepts are
    not written by the sources and are [None] here. *)
Definition fromisoformat (s : string) : option datetime :=
  '(d, s) ← read_date s; s ← read_char "T" s;
  '(hh, s) ← read_digits 2 0 s; s ← read_char ":" s;
  '(mm, s) ← read_digits 2 0 s; s ← read_char ":" s;
  '(ss, s) ← read_digits 2 0 s;
  '(us, s) ← read_frac s;
  tz ← read_tz s;
  if (hh <? 24) && (mm <? 60) && (ss <? 60) then
    Some (DT ((toordinal d - epoch_ord) * us_per_day
              + ((hh * 60 + mm) * 60 + ss) * 1000000 + us) tz)
  else None.

(** [s.replace("Z", "+00:00")] *)
Fixpoint replace_z (s : string) : string :=
  match s with
  | EmptyString => EmptyString
  | String c s' => if decide (c = "Z"%char) then "+00:00" +:+ replace_z s' else String c (replace_z s')
  end.

(** The years [datetime] represents. *)
Definition dt_range (d : datetime) : Prop :=
  -62135596800000000 <= dt_us d < 253402300800000000.

Example isoformat_ex :
  isoformat_z (utcnow 1700000000123456) = "2023-11-14T22:13:20.123456Z"
  /\ isoformat_z (utcnow 1700000000000000) = "2023-11-14T22:13:20Z"
  /\ fromisoformat (replace_z "2023-11-14T22:13:20.123456Z") = Some (now_utc 1700000000123456)
  /\ fromisoformat "2023-02-29T00:00:00" = None.
Proof. by vm_compute. Qed.

(** *** Round trip *)

Lemma digit_char_not_Z z : 0 <= z < 10 -> digit_char z <> "Z"%char.
Proof.
  intros Hz H. pose proof (digit_val_digit_char z Hz) as Hd. rewrite H in Hd. done.
Qed.

Lemma replace_z_pad n z s : replace_z (pad n z s) = pad n z (replace_z s).
Proof.
  revert z s. induction n as [|n IH]; intros z s; [done|]. cbn [pad]. rewrite IH.
  f_equal. cbn [replace_z]. rewrite decide_False; [done|].
  apply digit_char_not_Z. apply Z.mod_pos_bound. lia.
Qed.

Lemma replace_z_cons c s : c <> "Z"%char -> replace_z (String c s) = String c (replace_z s).
Proof. intros Hc. cbn [replace_z]. by rewrite decide_False. Qed.

Lemma replace_z_iso_body us tail : replace_z (iso_body us tail) = iso_body us (replace_z tail).
Proof.
  unfold iso_body. cbv zeta.
  repeat (rewrite replace_z_pad || (rewrite replace_z_cons by done)).
  case_match; [done|]. rewrite replace_z_cons by done. by rewrite replace_z_pad.
Qed.

Lemma month_day_in n : 1 <= n -> day (ord2ymd n) <= days_in_month (year (ord2ymd n)) (month (ord2ymd n)).
Proof.
  intros Hn. decompose_ordinal n.
  destruct ((d =? 4) || (b =? 4)) eqn:Hend; cbn [year month day]; [done|].
  apply orb_false_iff in Hend as [?%Z.eqb_neq ?%Z.eqb_neq].
  unfold days_in_month. rewrite is_leap_cycle by lia.
  pose proof (doy_ok_365 ((d =? 3) && (negb (c =? 24) || (b =? 3))) r3) as Hok.
  unfold doy_ok, doy_month in Hok. specialize (Hok ltac:(lia)).
  apply andb_true_iff in Hok as [_ Hok]. by apply Z.leb_le in Hok.
Qed.

Lemma ord2ymd_valid n : 1 <= n <= 3652059 -> date_valid (ord2ymd n) = true.
Proof.
  intros Hn. destruct (ord2ymd_fields n Hn) as (?&?&?).
  pose proof (month_day_in n). unfold date_valid.
  rewrite !andb_true_iff, !Z.leb_le. lia.
Qed.

Lemma read_char_cons c s : read_char c (String c s) = Some s.
Proof. simpl. by rewrite decide_True. Qed.

Lemma read_frac_spec frac tail :
  0 <= frac < 1000000 -> (forall t, tail <> String "." t) ->
  read_frac (if frac =? 0 then tail else String "." (pad 6 frac tail)) = Some (frac, tail).
Proof.
  intros Hfrac Hdot. unfold read_frac. destruct (Z.eqb_spec frac 0) as [->|].
  - destruct tail as [|x tl]; [done|]. simpl. rewrite decide_False; [done|].
    intros <-. by destruct (Hdot tl).
  - rewrite read_char_cons. by rewrite read_digits_pad by lia.
Qed.

Lemma fromisoformat_iso_body us tail :
  -62135596800000000 <= us < 253402300800000000 ->
  (forall t, tail <> String "." t) ->
  fromisoformat (iso_body us tail) = DT us <$> read_tz tail.
Proof.
  intros Hus Hdot. unfold fromisoformat, iso_body. cbv zeta.
  set (q := us / us_per_day). set (t := us mod us_per_day).
  assert (us = us_per_day * q + t /\ 0 <= t < us_per_day) as [Heq Ht].
  { unfold q, t, us_per_day. Z.to_euclidean_division_equations. lia. }
  unfold us_per_day in Heq, Ht. clearbody q t.
  assert (1 <= q + epoch_ord <= 3652059) as Hord by (unfold epoch_ord; lia).
  pose proof (ord2ymd_fields _ Hord) as (Hy & Hm & Hd).
  pose proof (ord2ymd_valid _ Hord) as Hval.
  pose proof (toordinal_ord2ymd (q + epoch_ord)) as Hto.
  set (dd := ord2ymd (q + epoch_ord)) in *. clearbody dd.
  destruct dd as [yy mo dy]. cbn [year month day] in *.
  set (sec := t / 1000000). set (frac := t mod 1000000).
  assert (t = 1000000 * sec + frac /\ 0 <= frac < 1000000 /\ 0 <= sec < 86400) as (Hts & Hfrac & Hsec).
  { unfold sec, frac. Z.to_euclidean_division_equations. lia. }
  clearbody sec frac.
  assert (0 <= sec / 3600 < 24 /\ 0 <= sec / 60 mod 60 < 60 /\ 0 <= sec mod 60 < 60
          /\ sec = (sec / 3600 * 60 + sec / 60 mod 60) * 60 + sec mod 60) as (Hh & Hmi & Hs & Hsum).
  { Z.to_euclidean_division_equations. lia. }
  set (hh := sec / 3600) in *. set (mi := sec / 60 mod 60) in *. set (ss := sec mod 60) in *.
  clearbody hh mi ss.
  pose proof (read_frac_spec frac tail Hfrac Hdot) as Hread.
  unfold read_date.
  repeat (rewrite read_digits_pad by lia; cbn [mbind option_bind];
          try rewrite read_char_cons; cbn [mbind option_bind]).
  rewrite !Z.mul_0_l, !Z.add_0_l, Hval. cbn [mbind option_bind].
  rewrite read_char_cons. cbn [mbind option_bind].
  repeat (rewrite read_digits_pad by lia; cbn [mbind option_bind];
          try rewrite read_char_cons; cbn [mbind option_bind]).
  rewrite Hread. cbn [mbind option_bind].
  destruct (read_tz tail) as [tz|]; [|done]. cbn [mbind option_bind fmap option_fmap option_map].
  rewrite !Z.mul_0_l, !Z.add_0_l. rewrite (proj2 (Z.ltb_lt hh 24)), (proj2 (Z.ltb_lt mi 60)), (proj2 (Z.ltb_lt ss 60)) by lia.
  cbn [andb]. rewrite Hto. do 2 f_equal. unfold us_per_day. lia.
Qed.

(** A timestamp written as [utcnow().isoformat() + "Z"] is read back, by
    [fromisoformat(raw.replace("Z", "+00:00"))], as the same instant in UTC. *)
Lemma fromisoformat_isoformat_z (t : Z) :
  dt_range (utcnow t) ->
  fromisoformat (replace_z (isoformat_z (utcnow t))) = Some (now_utc t).
Proof.
  intros Ht. unfold isoformat_z, isoformat_then. rewrite replace_z_iso_body.
  by rewrite fromisoformat_iso_body.
Qed.

(** An aware UTC datetime written with a further ["Z"] suffix cannot be read back. *)
Lemma fromisoformat_aware_z_fails (t : Z) :
  dt_range (now_utc t) -> fromisoformat (replace_z (isoformat_z (now_utc t))) = None.
Proof.
  intros Ht. unfold isoformat_z, isoformat_then. rewrite replace_z_iso_body.
  by rewrite fromisoformat_iso_body.
Qed.
