(* ===== verification/Redis.v ===== *)
(** * The Redis server as the sources use it

    Redis is a separate service: its command interpreter is the parameter
    [exec] of the class [RedisServer].  What the program relies on is the
    documented effect of each command, stated one law per command in the class
    [RedisLaws] over the server's data model: a finite map from keys to typed
    values with an optional expiry.  [reference_server] is a concrete
    interpreter that satisfies the laws; witnesses run on it. *)

From S2P Require Import Prelude.

(** ** Data model *)

Inductive rval :=
  | VStr (s : string)
  | VList (l : list string)
  | VHash (h : gmap string string).

#[export] Instance rval_eq_dec : EqDecision rval.
Proof. solve_decision. Defined.

(** A value and the time, in microseconds, at which its key expires. *)
Record entry := Entry { e_val : rval; e_exp : option Z }.

#[export] Instance entry_eq_dec : EqDecision entry.
Proof. solve_decision. Defined.

Abbreviation keyspace := (gmap string entry).

Definition live (now : Z) (e : entry) : bool :=
  match e_exp e with None => true | Some x => now <? x end.

(** The entry a command issued at [now] sees under a key. *)
Definition peek (now : Z) (ks : keyspace) (k : string) : option entry :=
  e ← ks !! k; if live now e then Some e else None.

Definition peek_val (now : Z) (ks : keyspace) (k : string) : option rval :=
  e_val <$> peek now ks k.

(** [ResponseError] of a command applied to a value of the wrong type, or of
    an increment of a string that is not an integer. *)
Inductive response_error := WrongType | NotInteger.

Definition reply (A : Type) : Type := response_error + A.

(** ** Commands

    [Brpop] and [Blpop] answer [None] when their timeout passes with nothing to
    pop; [Blpop] waits on one key. *)

(** Write commands a [MULTI] pipeline may hold; their replies are not read. *)
Inductive wcmd :=
  | WHincrby (k f : string) (n : Z)
  | WHset (k : string) (m : list (string * string))
  | WLpush (k v : string)
  | WLtrim (k : string) (a b : Z).

Inductive cmd : Type -> Type :=
  | Get (k : string) : cmd (option string)
  | SetEx (k v : string) (ex : option Z) (nx : bool) : cmd bool
  | Del (ks : list string) : cmd unit
  | Exists (k : string) : cmd bool
  | IncrBy (k : string) (n : Z) : cmd Z
  | Expire (k : string) (secs : Z) : cmd unit
  | Hset (k : string) (m : list (string * string)) : cmd unit
  | Hget (k f : string) : cmd (option string)
  | Hgetall (k : string) : cmd (gmap string string)
  | Lpush (k v : string) : cmd unit
  | Rpush (k v : string) : cmd unit
  | Brpop (ks : list string) : cmd (option (string * string))
  | Blpop (k : string) : cmd (option string)
  | Lrange (k : string) (a b : Z) : cmd (list string)
  | Lrem1 (k v : string) : cmd Z
  | Ltrim (k : string) (a b : Z) : cmd unit
  | Llen (k : string) : cmd Z
  | Ttl (k : string) : cmd Z
  | Scan (pattern : string) : cmd (list string)      (* MATCH pattern, all cursors *)
  | Multi (l : list wcmd) : cmd unit.

(** ** Patterns

    The glob patterns of [SCAN]'s [MATCH]: [*] is any bytes, [?] one byte,
    [[abc]], [[a-c]] and [[^abc]] one byte in or out of a class, and a backslash
    takes the next byte literally, also in a class.  A class that is not closed
    ends with the pattern. *)
Inductive glob_item :=
  | AnyBytes
  | OneByte (outside : bool) (ranges : list (Ascii.ascii * Ascii.ascii)).

Definition exactly_byte (a : Ascii.ascii) : glob_item := OneByte false [(a, a)].

Definition backslash : Ascii.ascii := "\"%char.

Definition class_cons (r : Ascii.ascii * Ascii.ascii)
    (x : list (Ascii.ascii * Ascii.ascii) * string) : list (Ascii.ascii * Ascii.ascii) * string :=
  (r :: x.1, x.2).

(** A class from behind its [[] or [[^]: its ranges and what follows its end. *)
Fixpoint glob_class (p : string) : list (Ascii.ascii * Ascii.ascii) * string :=
  match p with
  | EmptyString => ([], "")
  | String a p' =>
      if bool_decide (a = "]"%char) then ([], p')
      else
        match p' with
        | String b p'' =>
            if bool_decide (a = backslash) then class_cons (b, b) (glob_class p'')
            else
              match p'' with
              | String c p3 =>
                  if bool_decide (b = "-"%char) then class_cons (a, c) (glob_class p3)
                  else class_cons (a, a) (glob_class p')
              | EmptyString => class_cons (a, a) (glob_class p')
              end
        | EmptyString => ([(a, a)], "")
        end
  end.

(** A pattern of at most [fuel] bytes. *)
Fixpoint glob_items (fuel : nat) (p : string) : list glob_item :=
  match fuel, p with
  | S n, String a p' =>
      if bool_decide (a = "*"%char) then AnyBytes :: glob_items n p'
      else if bool_decide (a = "?"%char) then OneByte true [] :: glob_items n p'
      else if bool_decide (a = "["%char) then
        match p' with
        | String b p'' =>
            if bool_decide (b = "^"%char) then
              let '(rs, rest) := glob_class p'' in OneByte true rs :: glob_items n rest
            else let '(rs, rest) := glob_class p' in OneByte false rs :: glob_items n rest
        | EmptyString => [OneByte false []]
        end
      else if bool_decide (a = backslash) then
        match p' with
        | String b p'' => exactly_byte b :: glob_items n p''
        | EmptyString => [exactly_byte a]
        end
      else exactly_byte a :: glob_items n p'
  | _, _ => []
  end.

Definition in_range (a : Ascii.ascii) (r : Ascii.ascii * Ascii.ascii) : bool :=
  let n := Ascii.nat_of_ascii a in
  let x := Ascii.nat_of_ascii r.1 in
  let y := Ascii.nat_of_ascii r.2 in
  (Nat.min x y <=? n)%nat && (n <=? Nat.max x y)%nat.

Fixpoint items_match (l : list glob_item) (s : string) : bool :=
  match l with
  | [] => bool_decide (s = "")
  | AnyBytes :: l' =>
      (fix any (s : string) : bool :=
         items_match l' s || match s with EmptyString => false | String _ s' => any s' end) s
  | OneByte outside rs :: l' =>
      match s with
      | EmptyString => false
      | String a s' => xorb outside (existsb (in_range a) rs) && items_match l' s'
      end
  end.

Definition glob_match (pattern k : string) : bool :=
  items_match (glob_items (String.length pattern) pattern) k.

(** The bytes a pattern gives a meaning to. *)
Definition glob_special (a : Ascii.ascii) : bool :=
  bool_decide (a ∈ ["*"%char; "?"%char; "["%char; backslash]).

Fixpoint plain_pattern (s : string) : bool :=
  match s with
  | EmptyString => true
  | String a s' => negb (glob_special a) && plain_pattern s'
  end.

Lemma plain_pattern_app s t : plain_pattern (s +:+ t) = plain_pattern s && plain_pattern t.
Proof. induction s as [|a s IH]; [done|]. rewrite app_str_cons. simpl. by rewrite IH, andb_assoc. Qed.

Lemma in_range_exactly a b : in_range b (a, a) = bool_decide (a = b).
Proof.
  unfold in_range. cbn [fst snd]. rewrite Nat.min_id, Nat.max_id. apply eq_true_iff_eq.
  rewrite andb_true_iff, !Nat.leb_le, bool_decide_eq_true. split; [|by intros ->].
  intros [H1 H2]. rewrite <-(Ascii.ascii_nat_embedding a), <-(Ascii.ascii_nat_embedding b). f_equal. lia.
Qed.

Lemma items_match_any s : items_match [AnyBytes] s = true.
Proof. induction s as [|a s IH]; [done|]. cbn [items_match] in *. by rewrite IH, orb_true_r. Qed.

(** A beginning without special bytes is matched literally. *)
Lemma glob_items_plain p r : plain_pattern p = true -> forall n k,
  items_match (glob_items (String.length p + n) (p +:+ r)) k
  = startswith p k && items_match (glob_items n r) (str_drop (String.length p) k).
Proof.
  induction p as [|a p IH]; intros Hp n k; [by destruct k|].
  simpl in Hp. apply andb_true_iff in Hp as [Ha Hp]. apply negb_true_iff, bool_decide_eq_false in Ha.
  rewrite app_str_cons. cbn [String.length Nat.add glob_items].
  rewrite !bool_decide_eq_false_2 by set_solver. cbn [items_match exactly_byte].
  destruct k as [|b k]; [done|]. cbn [existsb startswith str_drop].
  by rewrite in_range_exactly, orb_false_r, xorb_false_l, (IH Hp), andb_assoc.
Qed.

Lemma glob_match_plain p r k : plain_pattern p = true ->
  glob_match (p +:+ r) k = startswith p k && glob_match r (str_drop (String.length p) k).
Proof. intros Hp. unfold glob_match. rewrite str_length_app. by apply glob_items_plain. Qed.

Lemma glob_prefix p k : plain_pattern p = true -> glob_match (p +:+ "*") k = startswith p k.
Proof. intros Hp. rewrite glob_match_plain by done. unfold glob_match. by rewrite items_match_any, andb_true_r. Qed.

(** ** Documented effects *)

Definition us (secs : Z) : Z := secs * 1000000.

Definition put (ks : keyspace) (k : string) (v : rval) (x : option Z) : keyspace :=
  <[k := Entry v x]> ks.

(** Replaces the value of a key and keeps its expiry. *)
Definition put_keep (now : Z) (ks : keyspace) (k : string) (v : rval) : keyspace :=
  put ks k v (peek now ks k ≫= e_exp).

(** The hash, list or string under a key; a missing key reads as empty. *)
Definition as_hash (now : Z) (ks : keyspace) (k : string) : reply (gmap string string) :=
  match peek_val now ks k with
  | None => inr ∅ | Some (VHash h) => inr h | Some _ => inl WrongType
  end.

Definition as_list (now : Z) (ks : keyspace) (k : string) : reply (list string) :=
  match peek_val now ks k with
  | None => inr [] | Some (VList l) => inr l | Some _ => inl WrongType
  end.

Definition as_str (now : Z) (ks : keyspace) (k : string) : reply (option string) :=
  match peek_val now ks k with
  | None => inr None | Some (VStr s) => inr (Some s) | Some _ => inl WrongType
  end.

Definition hset_all (h : gmap string string) (m : list (string * string)) : gmap string string :=
  foldl (fun h '(f, v) => <[f := v]> h) h m.

(** The indices [a..b] of [LRANGE] and [LTRIM], negative ones from the end. *)
Definition list_slice (l : list string) (a b : Z) : list string :=
  let n := Z.of_nat (length l) in
  let a := Z.max 0 (if a <? 0 then n + a else a) in
  let b := Z.min (n - 1) (if b <? 0 then n + b else b) in
  if b <? a then [] else take (Z.to_nat (b - a + 1)) (drop (Z.to_nat a) l).

(** A list key without elements does not exist. *)
Definition put_list (now : Z) (ks : keyspace) (k : string) (l : list string) : keyspace :=
  match l with [] => delete k ks | _ => put_keep now ks k (VList l) end.

(** [TTL]: the seconds left, rounded; -2 without the key, -1 without an expiry. *)
Definition ttl_of (now : Z) (e : option entry) : Z :=
  match e with
  | None => -2
  | Some e => match e_exp e with None => -1 | Some x => (x - now + 500000) / 1000000 end
  end.

Fixpoint remove_first (v : string) (l : list string) : option (list string) :=
  match l with
  | [] => None
  | x :: l' => if decide (x = v) then Some l' else (x ::.) <$> remove_first v l'
  end.

Definition with_reply {A B} (r : reply A) (ks : keyspace) (f : A -> reply B * keyspace) :
  reply B * keyspace :=
  match r with inl e => (inl e, ks) | inr a => f a end.

(** The integer [INCRBY] and [HINCRBY] read from a stored string. *)
Definition incr_read (v : option string) : reply Z :=
  match v with
  | None => inr 0
  | Some s => match py_int s with Some z => inr z | None => inl NotInteger end
  end.

(** [BRPOP]: the last element of the first list that has one, with its key. *)
Fixpoint pop_first (now : Z) (ks : keyspace) (keys : list string) :
  reply (option (string * string)) * keyspace :=
  match keys with
  | [] => (inr None, ks)
  | k :: keys' =>
      with_reply (as_list now ks k) ks (fun l =>
        match last l with
        | Some v => (inr (Some (k, v)), put_list now ks k (removelast l))
        | None => pop_first now ks keys'
        end)
  end.

(** One command of a pipeline: its error reply, if any, and its effect. *)
Definition wexec (now : Z) (ks : keyspace) (c : wcmd) : option response_error * keyspace :=
  match c with
  | WHincrby k f n =>
      match as_hash now ks k with
      | inr h =>
          match incr_read (h !! f) with
          | inr z => (None, put_keep now ks k (VHash (<[f := str_of_Z (z + n)]> h)))
          | inl e => (Some e, ks)
          end
      | inl e => (Some e, ks)
      end
  | WHset k m =>
      match as_hash now ks k with
      | inr h => (None, put_keep now ks k (VHash (hset_all h m)))
      | inl e => (Some e, ks)
      end
  | WLpush k v =>
      match as_list now ks k with
      | inr l => (None, put_keep now ks k (VList (v :: l)))
      | inl e => (Some e, ks)
      end
  | WLtrim k a b =>
      match as_list now ks k with
      | inr l => (None, put_list now ks k (list_slice l a b))
      | inl e => (Some e, ks)
      end
  end.

(** A pipeline runs all its commands; the client raises the first error reply. *)
Fixpoint multi_exec (now : Z) (ks : keyspace) (l : list wcmd) : reply unit * keyspace :=
  match l with
  | [] => (inr tt, ks)
  | c :: l' =>
      let (e, ks') := wexec now ks c in
      let (r, ks'') := multi_exec now ks' l' in
      (match e with Some err => inl err | None => r end, ks'')
  end.

(** ** The server interface *)

Class RedisServer := exec : forall {A}, cmd A -> Z -> keyspace -> reply A * keyspace.

Class RedisLaws `{RedisServer} : Prop := {
  exec_get k now ks : exec (Get k) now ks = (as_str now ks k, ks);
  exec_set k v ex nx now ks :
    exec (SetEx k v ex nx) now ks =
    if nx && bool_decide (is_Some (peek now ks k)) then (inr false, ks)
    else (inr true, put ks k (VStr v) ((fun s => now + us s) <$> ex));
  exec_del l now ks : exec (Del l) now ks = (inr tt, foldr delete ks l);
  exec_exists k now ks :
    exec (Exists k) now ks = (inr (bool_decide (is_Some (peek now ks k))), ks);
  exec_incrby k n now ks :
    exec (IncrBy k n) now ks =
    with_reply (as_str now ks k) ks (fun v =>
      with_reply (incr_read v) ks (fun z =>
        (inr (z + n), put_keep now ks k (VStr (str_of_Z (z + n))))));
  exec_expire k secs now ks :
    exec (Expire k secs) now ks =
    (inr tt, match peek now ks k with
             | None => ks
             | Some e => if secs <=? 0 then delete k ks
                         else put ks k (e_val e) (Some (now + us secs))
             end);
  exec_hset k m now ks :
    exec (Hset k m) now ks =
    with_reply (as_hash now ks k) ks (fun h => (inr tt, put_keep now ks k (VHash (hset_all h m))));
  exec_hget k f now ks :
    exec (Hget k f) now ks = with_reply (as_hash now ks k) ks (fun h => (inr (h !! f), ks));
  exec_hgetall k now ks : exec (Hgetall k) now ks = (as_hash now ks k, ks);
  exec_lpush k v now ks :
    exec (Lpush k v) now ks =
    with_reply (as_list now ks k) ks (fun l => (inr tt, put_keep now ks k (VList (v :: l))));
  exec_rpush k v now ks :
    exec (Rpush k v) now ks =
    with_reply (as_list now ks k) ks (fun l =>
      (inr tt, put_keep now ks k (VList (l ++ [v])%list)));
  exec_brpop l now ks : exec (Brpop l) now ks = pop_first now ks l;
  exec_blpop k now ks :
    exec (Blpop k) now ks =
    with_reply (as_list now ks k) ks (fun l =>
      match l with [] => (inr None, ks) | v :: l' => (inr (Some v), put_list now ks k l') end);
  exec_lrange k a b now ks :
    exec (Lrange k a b) now ks =
    with_reply (as_list now ks k) ks (fun l => (inr (list_slice l a b), ks));
  exec_lrem1 k v now ks :
    exec (Lrem1 k v) now ks =
    with_reply (as_list now ks k) ks (fun l =>
      match remove_first v l with
      | None => (inr 0, ks)
      | Some l' => (inr 1, put_list now ks k l')
      end);
  exec_ltrim k a b now ks :
    exec (Ltrim k a b) now ks =
    with_reply (as_list now ks k) ks (fun l => (inr tt, put_list now ks k (list_slice l a b)));
  exec_llen k now ks :
    exec (Llen k) now ks =
    with_reply (as_list now ks k) ks (fun l => (inr (Z.of_nat (length l)), ks));
  exec_ttl k now ks : exec (Ttl k) now ks = (inr (ttl_of now (peek now ks k)), ks);
  exec_scan p now ks :
    exists l, exec (Scan p) now ks = (inr l, ks)
      /\ forall k, k ∈ l <-> glob_match p k = true /\ is_Some (peek now ks k);
  exec_multi l now ks : exec (Multi l) now ks = multi_exec now ks l
}.

(** ** A reference server *)

Definition scan_keys (p : string) (now : Z) (ks : keyspace) : list string :=
  (map_to_list ks).*1 ≫= fun k =>
    if glob_match p k && bool_decide (is_Some (peek now ks k)) then [k] else [].

Definition reference_exec {A} (c : cmd A) (now : Z) (ks : keyspace) : reply A * keyspace :=
  match c with
  | Get k => (as_str now ks k, ks)
  | SetEx k v ex nx =>
      if nx && bool_decide (is_Some (peek now ks k)) then (inr false, ks)
      else (inr true, put ks k (VStr v) ((fun s => now + us s) <$> ex))
  | Del l => (inr tt, foldr delete ks l)
  | Exists k => (inr (bool_decide (is_Some (peek now ks k))), ks)
  | IncrBy k n =>
      with_reply (as_str now ks k) ks (fun v =>
        with_reply (incr_read v) ks (fun z =>
          (inr (z + n), put_keep now ks k (VStr (str_of_Z (z + n))))))
  | Expire k secs =>
      (inr tt, match peek now ks k with
               | None => ks
               | Some e => if secs <=? 0 then delete k ks
                           else put ks k (e_val e) (Some (now + us secs))
               end)
  | Hset k m =>
      with_reply (as_hash now ks k) ks (fun h => (inr tt, put_keep now ks k (VHash (hset_all h m))))
  | Hget k f => with_reply (as_hash now ks k) ks (fun h => (inr (h !! f), ks))
  | Hgetall k => (as_hash now ks k, ks)
  | Lpush k v =>
      with_reply (as_list now ks k) ks (fun l => (inr tt, put_keep now ks k (VList (v :: l))))
  | Rpush k v =>
      with_reply (as_list now ks k) ks (fun l =>
        (inr tt, put_keep now ks k (VList (l ++ [v])%list)))
  | Brpop l => pop_first now ks l
  | Blpop k =>
      with_reply (as_list now ks k) ks (fun l =>
        match l with [] => (inr None, ks) | v :: l' => (inr (Some v), put_list now ks k l') end)
  | Lrange k a b => with_reply (as_list now ks k) ks (fun l => (inr (list_slice l a b), ks))
  | Lrem1 k v =>
      with_reply (as_list now ks k) ks (fun l =>
        match remove_first v l with
        | None => (inr 0, ks)
        | Some l' => (inr 1, put_list now ks k l')
        end)
  | Ltrim k a b =>
      with_reply (as_list now ks k) ks (fun l => (inr tt, put_list now ks k (list_slice l a b)))
  | Llen k => with_reply (as_list now ks k) ks (fun l => (inr (Z.of_nat (length l)), ks))
  | Ttl k => (inr (ttl_of now (peek now ks k)), ks)
  | Scan p => (inr (scan_keys p now ks), ks)
  | Multi l => multi_exec now ks l
  end.

Definition reference_server : RedisServer := @reference_exec.

Lemma elem_of_scan_keys p now ks k :
  k ∈ scan_keys p now ks <-> glob_match p k = true /\ is_Some (peek now ks k).
Proof.
  unfold scan_keys. rewrite list_elem_of_bind. split.
  - intros (k' & Hk & Hk'). destruct (glob_match p k') eqn:Hp; simpl in Hk; [|set_solver].
    case_bool_decide; [|set_solver]. apply list_elem_of_singleton in Hk as ->. done.
  - intros [Hp Hl]. exists k. rewrite Hp, bool_decide_eq_true_2 by done. split; [set_solver|].
    destruct Hl as [e He]. unfold peek in He. destruct (ks !! k) as [e'|] eqn:Hk; [|done].
    apply list_elem_of_fmap. exists (k, e'). split; [done|]. by apply elem_of_map_to_list.
Qed.

#[export] Instance reference_laws : @RedisLaws reference_server.
Proof.
  split; intros; try reflexivity.
  exists (scan_keys p now ks). split; [done|].
  intros k. apply elem_of_scan_keys.
Qed.

(** ** Lemmas on the observable state *)

Lemma peek_put_eq now ks k v x :
  peek now (put ks k v x) k = if live now (Entry v x) then Some (Entry v x) else None.
Proof. unfold peek, put. by rewrite lookup_insert_eq. Qed.

Lemma peek_put_ne now ks k k' v x : k <> k' -> peek now (put ks k v x) k' = peek now ks k'.
Proof. intros Hk. unfold peek, put. by rewrite lookup_insert_ne. Qed.

Lemma peek_delete_eq now ks k : peek now (delete k ks) k = None.
Proof. unfold peek. by rewrite lookup_delete_eq. Qed.

Lemma peek_delete_ne now ks k k' : k <> k' -> peek now (delete k ks) k' = peek now ks k'.
Proof. intros Hk. unfold peek. by rewrite lookup_delete_ne. Qed.

Lemma peek_val_put_eq now ks k v x :
  peek_val now (put ks k v x) k = if live now (Entry v x) then Some v else None.
Proof. unfold peek_val. rewrite peek_put_eq. by case_match. Qed.

Lemma peek_val_put_ne now ks k k' v x :
  k <> k' -> peek_val now (put ks k v x) k' = peek_val now ks k'.
Proof. intros Hk. unfold peek_val. by rewrite peek_put_ne. Qed.

Lemma peek_put_keep_eq now ks k v :
  peek now (put_keep now ks k v) k = Some (Entry v (peek now ks k ≫= e_exp)).
Proof.
  unfold put_keep. rewrite peek_put_eq. unfold live. cbn [e_exp].
  unfold peek. destruct (ks !! k) as [e|]; [|done]. cbn [mbind option_bind].
  destruct (live now e) eqn:Hl; [|done]. cbn [mbind option_bind].
  unfold live in Hl. destruct (e_exp e) as [x|]; [|done]. by rewrite Hl.
Qed.

Lemma peek_put_keep_ne now ks k k' v :
  k <> k' -> peek now (put_keep now ks k v) k' = peek now ks k'.
Proof. intros Hk. by apply peek_put_ne. Qed.

Lemma peek_val_put_keep_eq now ks k v : peek_val now (put_keep now ks k v) k = Some v.
Proof. unfold peek_val. by rewrite peek_put_keep_eq. Qed.

Lemma peek_val_put_keep_ne now ks k k' v :
  k <> k' -> peek_val now (put_keep now ks k v) k' = peek_val now ks k'.
Proof. intros Hk. unfold peek_val. by rewrite peek_put_keep_ne. Qed.

Lemma peek_val_delete_eq now ks k : peek_val now (delete k ks) k = None.
Proof. unfold peek_val. by rewrite peek_delete_eq. Qed.

Lemma peek_val_delete_ne now ks k k' :
  k <> k' -> peek_val now (delete k ks) k' = peek_val now ks k'.
Proof. intros Hk. unfold peek_val. by rewrite peek_delete_ne. Qed.

(** A typed read depends on the observed value only. *)
Lemma as_str_peek now now' ks ks' k :
  peek_val now ks k = peek_val now' ks' k -> as_str now ks k = as_str now' ks' k.
Proof. unfold as_str. by intros ->. Qed.

Lemma as_hash_peek now now' ks ks' k :
  peek_val now ks k = peek_val now' ks' k -> as_hash now ks k = as_hash now' ks' k.
Proof. unfold as_hash. by intros ->. Qed.

Lemma as_list_peek now now' ks ks' k :
  peek_val now ks k = peek_val now' ks' k -> as_list now ks k = as_list now' ks' k.
Proof. unfold as_list. by intros ->. Qed.

Lemma is_Some_peek_val now ks k : is_Some (peek now ks k) <-> is_Some (peek_val now ks k).
Proof. unfold peek_val. by rewrite fmap_is_Some. Qed.

Create Rewrite HintDb redis_exec.
#[export] Hint Rewrite @exec_get @exec_set @exec_del @exec_exists @exec_incrby @exec_expire
  @exec_hset @exec_hget @exec_hgetall @exec_lpush @exec_rpush @exec_brpop @exec_blpop @exec_lrange @exec_lrem1 @exec_ltrim
  @exec_llen @exec_ttl @exec_multi using (exact _) : redis_exec.

Lemma exec_expire_live `{RedisLaws} now ks k v x secs :
  peek now ks k = Some (Entry v x) -> 0 < secs ->
  exec (Expire k secs) now ks = (inr tt, put ks k v (Some (now + us secs))).
Proof. intros Hp Hs. rewrite exec_expire, Hp. by rewrite (proj2 (Z.leb_gt _ _)) by lia. Qed.
