(* ===== verification/Postgres.v ===== *)
(** * The PostgreSQL server as the sources use it

    PostgreSQL is a separate service: its statement interpreter is the
    parameter [sql_exec] of the class [PostgresServer].  The statements are the
    SQL texts of app/db/features_partitions.py, app/services/bulk_staging.py,
    app/services/bulk_staging_recovery.py, app/services/bulk_triggers.py and
    [_update_feature_count_sync] of app/services/bulk_import.py, one constructor
    per text.  [sql_run] is their documented effect on the data the program
    keeps: the tables of the schema, which of them are attached to the
    partitioned table [features] and for which collection, the rows of
    [features_default] and the cached columns of [collections].  The order in
    which catalogue queries list rows is not specified by the laws. *)

From S2P Require Import Prelude.

(** ** Data model *)

(** A row of [features] or of a staging table; [r_rest] stands for geometry,
    properties and the other columns the statements copy as they are. *)
Record frow := Row {
  r_id : string;
  r_collection : string;
  r_part : Z;
  r_updated : Z;
  r_rest : string
}.

#[export] Instance frow_eq_dec : EqDecision frow.
Proof. solve_decision. Defined.

(** The primary key [(id, collection_id, part_index)]. *)
Definition row_key (r : frow) : string * string * Z := (r_id r, r_collection r, r_part r).

(** Rows are in physical ([ctid]) order. *)
Record table := Table {
  t_rows : list frow;
  t_logged : bool;
  t_checks : list string
}.

Record collection_row := CollRow {
  feature_count : Z;
  features_last_updated_at : option Z
}.

(** [db_parts] maps a collection to the partition of [features] attached for
    it: PostgreSQL refuses two partitions with overlapping bounds. *)
Record database := Db {
  db_tables : gmap string table;
  db_parts : gmap string string;
  db_default : list frow;
  db_collections : gmap string collection_row
}.

Definition empty_db : database := Db ∅ ∅ [] ∅.

Definition is_attached (db : database) (name : string) : bool :=
  bool_decide (name ∈ (map_to_list (db_parts db)).*2).

Definition has_table (db : database) (name : string) : bool :=
  bool_decide (is_Some (db_tables db !! name)).

Definition of_coll (c : string) (l : list frow) : list frow :=
  List.filter (fun r => bool_decide (r_collection r = c)) l.
Definition not_of_coll (c : string) (l : list frow) : list frow :=
  List.filter (fun r => negb (bool_decide (r_collection r = c))) l.

Definition rows_of (db : database) (name : string) : list frow :=
  match db_tables db !! name with Some t => t_rows t | None => [] end.

(** [SELECT ... FROM features WHERE collection_id = c] *)
Definition live_rows (db : database) (c : string) : list frow :=
  match db_parts db !! c with
  | Some name => of_coll c (rows_of db name)
  | None => of_coll c (db_default db)
  end.

Definition keys_unique (l : list frow) : bool := bool_decide (NoDup (map row_key l)).

Definition set_rows (db : database) (name : string) (l : list frow) : database :=
  match db_tables db !! name with
  | Some t => Db (<[name := Table l (t_logged t) (t_checks t)]> (db_tables db)) (db_parts db)
                (db_default db) (db_collections db)
  | None => db
  end.
Definition set_default (db : database) (l : list frow) : database :=
  Db (db_tables db) (db_parts db) l (db_collections db).
Definition set_tables (db : database) (t : gmap string table) : database :=
  Db t (db_parts db) (db_default db) (db_collections db).
Definition set_parts (db : database) (p : gmap string string) : database :=
  Db (db_tables db) p (db_default db) (db_collections db).
Definition set_collections (db : database) (c : gmap string collection_row) : database :=
  Db (db_tables db) (db_parts db) (db_default db) c.

(** Detaching a table removes the entries of [db_parts] with its name. *)
Definition detach (db : database) (name : string) : database :=
  set_parts db (filter (fun kv => kv.2 <> name) (db_parts db)).

Definition drop_table (db : database) (name : string) : database :=
  detach (set_tables db (delete name (db_tables db))) name.

(** ** Errors *)

Inductive sql_error :=
  | UniqueViolation (constraint : string)
  | UndefinedTable (name : string)
  | UndefinedColumn (name : string)
  | DuplicateTable (name : string)
  | CheckViolation (msg : string)
  | LockTimeout
  | ServerGone.

Definition dq : string := String "034"%char "".

(** The text SQLAlchemy gives to the exception. *)
Definition sql_error_text (e : sql_error) : string :=
  match e with
  | UniqueViolation c =>
      "(psycopg2.errors.UniqueViolation) duplicate key value violates unique constraint "
      +:+ dq +:+ c +:+ dq
  | UndefinedTable n =>
      "(psycopg2.errors.UndefinedTable) relation " +:+ dq +:+ n +:+ dq +:+ " does not exist"
  | UndefinedColumn n =>
      "(psycopg2.errors.UndefinedColumn) column " +:+ dq +:+ n +:+ dq +:+ " does not exist"
  | DuplicateTable n =>
      "(psycopg2.errors.DuplicateTable) relation " +:+ dq +:+ n +:+ dq +:+ " already exists"
  | CheckViolation m => m
  | LockTimeout => "(psycopg2.errors.LockNotAvailable) canceling statement due to lock timeout"
  | ServerGone => "(psycopg2.OperationalError) server closed the connection unexpectedly"
  end.

(** ** Statements *)

Inductive sql : Type -> Type :=
  | TableExists (name : string) : sql bool            (* pg_class by relname *)
  | CountRows (name : string) : sql Z
  | CountDefault (c : string) : sql Z
  | DropTable (name : string) (if_exists : bool) : sql unit
  | CreateStaging (name : string) : sql unit
  | CopyIn (name : string) (l : list frow) : sql unit (* COPY name FROM STDIN *)
  | ListPartitions : sql (list (string * string))     (* relname, bound expression *)
  | IsAttached (name : string) : sql bool
  | DetachPartition (name : string) : sql unit
  | AttachPartition (name c : string) : sql unit
  | CreatePartition (name c : string) : sql unit
  | DeleteDefault (c : string) : sql unit
  | SelectDefault (c : string) : sql (list frow)      (* CREATE TEMP TABLE ... AS SELECT *)
  | InsertRows (l : list frow) : sql unit             (* INSERT INTO features SELECT FROM temp *)
  | InsertFrom (name : string) : sql unit             (* INSERT INTO features SELECT FROM staging *)
  | InsertDefault (c : string) : sql unit             (* INSERT INTO features SELECT FROM default *)
  | DuplicateCount (name : string) : sql Z
  | DeleteDuplicates (name : string) : sql unit
  | IsUnlogged (name : string) : sql bool
  | SetLogged (name : string) : sql unit
  | HasConstraint (name con : string) : sql bool
  | AddCheck (name con c : string) : sql unit
  | ListTablesLike (pat : string) : sql (list string)
  | CountDistinct (c : string) : sql Z
  | SetFeatureCount (c : string) (n : Z) : sql unit
  | SetLastUpdated (c : string) : sql unit
  | Session (text : string) : sql unit.               (* SET LOCAL, RESET, advisory locks *)

(** ** Documented effects *)

(** [pg_get_expr] of a list bound with one string without backslashes. *)
Fixpoint escape_quotes (s : string) : string :=
  match s with
  | EmptyString => EmptyString
  | String c s' =>
      if decide (c = "'"%char) then String c (String c (escape_quotes s'))
      else String c (escape_quotes s')
  end.
Definition bound_text (c : string) : string :=
  "FOR VALUES IN ('" +:+ escape_quotes c +:+ "')".

Definition partition_list (db : database) : list (string * string) :=
  map (fun kv => (kv.2, bound_text kv.1)) (map_to_list (db_parts db)).

(** [LIKE]: [%] matches any text and [_] any one character. *)
Fixpoint like (p s : string) : bool :=
  match p with
  | EmptyString => match s with EmptyString => true | _ => false end
  | String a p' =>
      if decide (a = "%"%char) then
        (fix any (s : string) : bool :=
           like p' s || match s with EmptyString => false | String _ s' => any s' end) s
      else
        match s with
        | EmptyString => false
        | String b s' => (bool_decide (a = "_"%char) || bool_decide (a = b)) && like p' s'
        end
  end.

(** [ROW_NUMBER() OVER (PARTITION BY key ORDER BY updated_at DESC, ctid DESC)]:
    [rank_gt_1 before r after] says that [r], between the physically earlier
    rows [before] and the later rows [after], is not the first of its key. *)
Definition same_key (r s : frow) : bool := bool_decide (row_key r = row_key s).
Definition rank_gt_1 (before : list frow) (r : frow) (after : list frow) : bool :=
  existsb (fun s => same_key r s && (r_updated r <? r_updated s)) before
  || existsb (fun s => same_key r s && (r_updated r <=? r_updated s)) after.

Fixpoint first_ranked (before after : list frow) : list frow :=
  match after with
  | [] => []
  | r :: after' =>
      if rank_gt_1 before r after' then first_ranked (r :: before) after'
      else r :: first_ranked (r :: before) after'
  end.
Definition dedupe (l : list frow) : list frow := first_ranked [] l.

Definition pkey (name : string) : string := name +:+ "_pkey".

(** Routes a row to its partition and inserts it. *)
Definition insert_row (db : database) (r : frow) : sql_error + database :=
  match db_parts db !! r_collection r with
  | Some name =>
      let l := rows_of db name in
      if bool_decide (row_key r ∈ map row_key l) then inl (UniqueViolation (pkey name))
      else inr (set_rows db name (l ++ [r])%list)
  | None =>
      if bool_decide (row_key r ∈ map row_key (db_default db))
      then inl (UniqueViolation (pkey "features_default"))
      else inr (set_default db (db_default db ++ [r])%list)
  end.

Fixpoint insert_rows (db : database) (l : list frow) : sql_error + database :=
  match l with
  | [] => inr db
  | r :: l' => match insert_row db r with inl e => inl e | inr db' => insert_rows db' l' end
  end.

Definition run_unit (db : database) (r : sql_error + database) : (sql_error + unit) * database :=
  match r with inl e => (inl e, db) | inr db' => (inr tt, db') end.

(** Checks of [ATTACH PARTITION], in the order PostgreSQL makes them. *)
Definition attach (db : database) (name c : string) : sql_error + database :=
  match db_tables db !! name with
  | None => inl (UndefinedTable name)
  | Some t =>
      if is_attached db name then
        inl (CheckViolation (dq +:+ name +:+ dq +:+ " is already a partition"))
      else if bool_decide (is_Some (db_parts db !! c)) then
        inl (CheckViolation ("partition " +:+ dq +:+ name +:+ dq +:+ " would overlap partition"))
      else if negb (keys_unique (t_rows t)) then inl (UniqueViolation (pkey name))
      else if negb (forallb (fun r => bool_decide (r_collection r = c)) (t_rows t)) then
        inl (CheckViolation ("partition constraint of relation " +:+ dq +:+ name +:+ dq
                             +:+ " is violated by some row"))
      else if negb (bool_decide (of_coll c (db_default db) = [])) then
        inl (CheckViolation ("updated partition constraint for default partition "
                             +:+ dq +:+ "features_default" +:+ dq
                             +:+ " would be violated by some row"))
      else inr (set_parts db (<[c := name]> (db_parts db)))
  end.

Definition create_partition (db : database) (name c : string) : sql_error + database :=
  if has_table db name then inl (DuplicateTable name)
  else attach (set_tables db (<[name := Table [] true []]> (db_tables db))) name c.

Definition with_table {A} (db : database) (name : string)
    (f : table -> (sql_error + A) * database) : (sql_error + A) * database :=
  match db_tables db !! name with Some t => f t | None => (inl (UndefinedTable name), db) end.

Definition set_table (db : database) (name : string) (t : table) : database :=
  set_tables db (<[name := t]> (db_tables db)).

Definition max_updated (l : list frow) : option Z :=
  foldr (fun r m => Some (match m with None => r_updated r | Some z => Z.max (r_updated r) z end))
    None l.

Definition sql_run {A} (c : sql A) (db : database) : (sql_error + A) * database :=
  match c with
  | TableExists n => (inr (has_table db n), db)
  | CountRows n => with_table db n (fun t => (inr (Z.of_nat (length (t_rows t))), db))
  | CountDefault cid => (inr (Z.of_nat (length (of_coll cid (db_default db)))), db)
  | DropTable n if_exists =>
      if has_table db n then (inr tt, drop_table db n)
      else (if if_exists then inr tt else inl (UndefinedTable n), db)
  | CreateStaging n =>
      if has_table db n then (inl (DuplicateTable n), db)
      else (inr tt, set_table db n (Table [] false []))
  | CopyIn n l =>
      with_table db n (fun t =>
        if keys_unique (t_rows t ++ l) then (inr tt, set_rows db n (t_rows t ++ l)%list)
        else (inl (UniqueViolation (pkey n)), db))
  | ListPartitions => (inr (partition_list db), db)
  | IsAttached n => (inr (is_attached db n), db)
  | DetachPartition n =>
      if is_attached db n then (inr tt, detach db n)
      else (inl (UndefinedTable n), db)
  | AttachPartition n cid => run_unit db (attach db n cid)
  | CreatePartition n cid => run_unit db (create_partition db n cid)
  | DeleteDefault cid => (inr tt, set_default db (not_of_coll cid (db_default db)))
  | SelectDefault cid => (inr (of_coll cid (db_default db)), db)
  | InsertRows l => run_unit db (insert_rows db l)
  | InsertFrom n => with_table db n (fun t => run_unit db (insert_rows db (t_rows t)))
  | InsertDefault cid => run_unit db (insert_rows db (of_coll cid (db_default db)))
  | DuplicateCount n =>
      with_table db n (fun t =>
        (inr (Z.of_nat (length (t_rows t)) - Z.of_nat (length (dedupe (t_rows t)))), db))
  | DeleteDuplicates n =>
      with_table db n (fun t => (inr tt, set_rows db n (dedupe (t_rows t))))
  | IsUnlogged n =>
      (inr (match db_tables db !! n with Some t => negb (t_logged t) | None => false end), db)
  | SetLogged n =>
      with_table db n (fun t => (inr tt, set_table db n (Table (t_rows t) true (t_checks t))))
  | HasConstraint n con =>
      (inr (match db_tables db !! n with
            | Some t => bool_decide (con ∈ t_checks t) | None => false end), db)
  | AddCheck n con cid =>
      with_table db n (fun t =>
        if forallb (fun r => bool_decide (r_collection r = cid)) (t_rows t)
        then (inr tt, set_table db n (Table (t_rows t) (t_logged t) (con :: t_checks t)))
        else (inl (CheckViolation ("check constraint " +:+ dq +:+ con +:+ dq +:+ " of relation "
                     +:+ dq +:+ n +:+ dq +:+ " is violated by some row")), db))
  | ListTablesLike p => (inr (List.filter (like p) (map_to_list (db_tables db)).*1), db)
  | CountDistinct cid =>
      (inr (Z.of_nat (length (remove_dups (map r_id (live_rows db cid))))), db)
  | SetFeatureCount cid n =>
      (inr tt, set_collections db
         (alter (fun r => CollRow n (features_last_updated_at r)) cid (db_collections db)))
  | SetLastUpdated cid =>
      (inr tt, set_collections db
         (alter (fun r => CollRow (feature_count r) (max_updated (live_rows db cid))) cid
            (db_collections db)))
  | Session _ => (inr tt, db)
  end.

(** ** The server interface *)

(** Statements whose result the standard determines up to order only. *)
Definition unordered {A} (c : sql A) : bool :=
  match c with ListPartitions | ListTablesLike _ => true | _ => false end.

Class PostgresServer := sql_exec : forall {A}, sql A -> database -> (sql_error + A) * database.

Class PostgresLaws `{PostgresServer} : Prop := {
  sql_exec_run {A} (c : sql A) db : unordered c = false -> sql_exec c db = sql_run c db;
  sql_exec_partitions db :
    exists l, sql_exec ListPartitions db = (inr l, db) /\ l ≡ₚ partition_list db;
  sql_exec_like p db :
    exists l, sql_exec (ListTablesLike p) db = (inr l, db)
      /\ l ≡ₚ List.filter (like p) (map_to_list (db_tables db)).*1
}.

Definition reference_postgres : PostgresServer := @sql_run.

#[export] Instance reference_postgres_laws : @PostgresLaws reference_postgres.
Proof.
  split; [done| |]; intros; eexists; (split; [reflexivity|]); done.
Qed.

(** ** Well-formed databases

    What PostgreSQL's constraints maintain: a table is attached for at most one
    collection, a partition exists and holds rows of its collection under unique
    keys, and [features_default] holds no row a partition is attached for. *)

Record db_wf (db : database) : Prop := {
  wf_inj c c' n : db_parts db !! c = Some n -> db_parts db !! c' = Some n -> c = c';
  wf_part c n : db_parts db !! c = Some n ->
    exists t, db_tables db !! n = Some t /\ keys_unique (t_rows t) = true
      /\ Forall (fun r => r_collection r = c) (t_rows t);
  wf_default c n : db_parts db !! c = Some n -> of_coll c (db_default db) = [];
  wf_default_keys : keys_unique (db_default db) = true
}.

Lemma is_attached_spec db n :
  is_attached db n = true <-> exists c, db_parts db !! c = Some n.
Proof.
  unfold is_attached. rewrite bool_decide_eq_true, list_elem_of_fmap. split.
  - intros ([c n'] & -> & Hc). exists c. by apply elem_of_map_to_list.
  - intros [c Hc]. exists (c, n). split; [done|]. by apply elem_of_map_to_list.
Qed.

Lemma not_attached_spec db n : is_attached db n = false <-> forall c, db_parts db !! c <> Some n.
Proof.
  rewrite <-not_true_iff_false, is_attached_spec. split; [intros Hn c Hc; by eauto|by intros Hn [c Hc]; eapply Hn].
Qed.

Lemma detach_lookup db n c :
  db_parts (detach db n) !! c = if decide (db_parts db !! c = Some n) then None else db_parts db !! c.
Proof.
  unfold detach, set_parts. cbn [db_parts]. rewrite map_lookup_filter.
  destruct (db_parts db !! c) as [n'|]; [|done]. cbn [mbind option_bind].
  destruct (decide (n' = n)) as [->|Hn].
  - rewrite decide_True by done. by rewrite option_guard_False by auto.
  - rewrite decide_False by congruence. by rewrite option_guard_True.
Qed.

Lemma drop_table_parts db n : db_parts (drop_table db n) = db_parts (detach db n).
Proof. done. Qed.

Lemma drop_table_tables db n : db_tables (drop_table db n) = delete n (db_tables db).
Proof. done. Qed.

Lemma detach_unattached db n : is_attached db n = false -> detach db n = db.
Proof.
  rewrite not_attached_spec. intros Hn. destruct db as [t p d cs]. unfold detach, set_parts. simpl in *.
  f_equal. apply map_eq. intros c. rewrite map_lookup_filter.
  destruct (p !! c) as [n'|] eqn:Hc; [|done]. simpl. rewrite option_guard_True; [done|].
  intros ->. by eapply Hn.
Qed.

Lemma drop_unattached_parts db n :
  is_attached db n = false -> db_parts (drop_table db n) = db_parts db.
Proof. intros Hn. rewrite drop_table_parts. by rewrite detach_unattached. Qed.

Lemma of_coll_all c l : Forall (fun r => r_collection r = c) l -> of_coll c l = l.
Proof.
  induction 1 as [|r l Hr _ IH]; [done|]. unfold of_coll in *. simpl.
  rewrite bool_decide_eq_true_2 by done. by rewrite IH.
Qed.

Lemma of_coll_not_of_coll c l : of_coll c (not_of_coll c l) = [].
Proof.
  induction l as [|r l IH]; [done|]. unfold of_coll, not_of_coll in *. simpl.
  destruct (bool_decide (r_collection r = c)) eqn:Hr; simpl; [done|]. by rewrite Hr.
Qed.

Lemma of_coll_other c c' l : c <> c' -> of_coll c' (not_of_coll c l) = of_coll c' l.
Proof.
  intros Hc. induction l as [|r l IH]; [done|]. unfold of_coll, not_of_coll in *. simpl.
  destruct (decide (r_collection r = c)) as [Hr|Hr].
  - rewrite (bool_decide_eq_true_2 _ Hr). simpl. rewrite bool_decide_eq_false_2 by congruence. done.
  - rewrite (bool_decide_eq_false_2 _ Hr). simpl. by rewrite IH.
Qed.

Lemma keys_unique_sublist k l : sublist k l -> keys_unique l = true -> keys_unique k = true.
Proof.
  intros Hs. unfold keys_unique. rewrite !bool_decide_eq_true. intros Hl.
  apply (sublist_NoDup _ _ Hl). clear Hl. induction Hs; simpl; by constructor.
Qed.

Lemma not_of_coll_sublist c l : sublist (not_of_coll c l) l.
Proof.
  induction l as [|r l IH]; [constructor|]. unfold not_of_coll in *. simpl.
  case_match; by constructor.
Qed.

Lemma of_coll_sublist c l : sublist (of_coll c l) l.
Proof.
  induction l as [|r l IH]; [constructor|]. unfold of_coll in *. simpl. case_match; by constructor.
Qed.

Lemma of_coll_idem c l : of_coll c (of_coll c l) = of_coll c l.
Proof.
  apply of_coll_all, List.Forall_forall. by intros r [_ Hr%bool_decide_eq_true_1]%filter_In.
Qed.

Lemma not_of_coll_id c l : of_coll c l = [] -> not_of_coll c l = l.
Proof.
  induction l as [|r l IH]; [done|]. unfold of_coll, not_of_coll in *. simpl.
  case_match; simpl; [done|]. intros Hl. by rewrite IH.
Qed.

(** The rows of a collection depend on its own partition only. *)
Lemma live_rows_frame db db' c :
  db_parts db' !! c = db_parts db !! c ->
  (forall n, db_parts db !! c = Some n -> db_tables db' !! n = db_tables db !! n) ->
  of_coll c (db_default db') = of_coll c (db_default db) ->
  live_rows db' c = live_rows db c.
Proof.
  intros Hp Ht Hd. unfold live_rows, rows_of. rewrite Hp.
  destruct (db_parts db !! c) as [n|]; [|done]. by rewrite (Ht n).
Qed.

Lemma wf_drop_unattached db n : db_wf db -> is_attached db n = false -> db_wf (drop_table db n).
Proof.
  intros Hw Hn. pose proof (proj1 (not_attached_spec db n) Hn) as Hn'.
  split; rewrite ?drop_unattached_parts by done.
  - apply Hw.
  - intros c n' Hc. rewrite drop_table_tables, lookup_delete_ne by congruence. by apply Hw.
  - intros c n' Hc. by eapply (wf_default db Hw).
  - apply Hw.
Qed.
