(* ===== verification/Tables.v ===== *)
(** * The rows of the API's own tables
    (app/models: user.py, collection.py, resource_share.py, style.py,
    raster_style.py, raster_view.py, map.py, stac_public_tile_grant.py,
    collection_tiles.py)

    The tables the request handlers read and write through SQLAlchemy.  A table is
    a map by primary key; the unique constraint of [resource_shares] makes that
    table a map from resource and user name to the role.  The features, their
    partitions and the counters of a collection are in Postgres.v.  Time stamps
    are kept where the code reads them. *)

From S2P Require Import Prelude.

(** A JSON column, and every other JSON value of the program (Json.v). *)
#[warnings="-register-all"]
Inductive json :=
  | JNull
  | JBool (b : bool)
  | JInt (z : Z)
  | JFloat (lexeme : string)
  | JStr (s : string)
  | JList (l : list json)
  | JObj (m : list (string * json)).

Record User := mkUser {
  user_id : Z;
  username : string;
  is_admin : bool;
  password_hash : string;
  must_change_password : bool;
  nickname : option string
}.

Record Collection := mkCollection {
  c_id : string;
  c_title : option string;
  c_description : option string;
  c_extent : option json;
  c_stac_source : option json;
  c_raster_settings : option json;
  c_owner_id : option Z;
  c_visibility : string;
  c_viewer_can_edit : bool;
  c_type : string;
  c_composite_members : option json;
  c_index_fields : option (list string);
  c_created_at : Z
}.

(** [Style] and [RasterStyle] have the same columns. *)
Record Style := mkStyle {
  st_collection_id : string;
  st_id : string;
  st_title : option string;
  st_is_default : bool;
  st_spec : json;
  st_owner_id : option Z;
  st_visibility : string
}.

Record RasterView := mkView {
  rv_id : string;
  rv_title : string;
  rv_owner_id : option Z;
  rv_visibility : string;
  rv_json_path : string;
  rv_bbox : option (list json);
  rv_definition : option json;
  rv_allow_public_maps : bool;
  rv_updated_at : Z
}.

Record Map := mkMap {
  m_id : string;
  m_name : string;
  m_description : option string;
  m_thumbnail : option string;
  m_thumbnail_data : option string;
  m_definition : json;
  m_owner_id : option Z;
  m_visibility : string;
  m_viewer_can_edit : bool;
  m_updated_at : Z
}.

Record tables := Tables {
  tb_users : gmap Z User;
  tb_next_user : Z;                                   (* the sequence of users.id *)
  tb_collections : gmap string Collection;
  tb_shares : gmap (string * string * string) string; (* type, resource, user name *)
  tb_styles : gmap (string * string) Style;           (* collection, id *)
  tb_raster_styles : gmap (string * string) Style;
  tb_views : gmap string RasterView;
  tb_maps : gmap string Map;
  tb_grants : gset (string * string * string);        (* catalogue, collection, item *)
  tb_tiles : gmap string (option string)              (* collection_tiles: pmtiles_path *)
}.

Definition no_tables : tables := Tables ∅ 1 ∅ ∅ ∅ ∅ ∅ ∅ ∅ ∅.

Definition with_tiles (t : tables) (x : gmap string (option string)) : tables :=
  Tables (tb_users t) (tb_next_user t) (tb_collections t) (tb_shares t) (tb_styles t)
    (tb_raster_styles t) (tb_views t) (tb_maps t) (tb_grants t) x.
Definition with_users (t : tables) (n : Z) (x : gmap Z User) : tables :=
  Tables x n (tb_collections t) (tb_shares t) (tb_styles t) (tb_raster_styles t) (tb_views t)
    (tb_maps t) (tb_grants t) (tb_tiles t).
Definition with_collections (t : tables) (x : gmap string Collection) : tables :=
  Tables (tb_users t) (tb_next_user t) x (tb_shares t) (tb_styles t) (tb_raster_styles t)
    (tb_views t) (tb_maps t) (tb_grants t) (tb_tiles t).
Definition with_shares (t : tables) (x : gmap (string * string * string) string) : tables :=
  Tables (tb_users t) (tb_next_user t) (tb_collections t) x (tb_styles t) (tb_raster_styles t)
    (tb_views t) (tb_maps t) (tb_grants t) (tb_tiles t).
Definition with_styles (t : tables) (x : gmap (string * string) Style) : tables :=
  Tables (tb_users t) (tb_next_user t) (tb_collections t) (tb_shares t) x (tb_raster_styles t)
    (tb_views t) (tb_maps t) (tb_grants t) (tb_tiles t).
Definition with_raster_styles (t : tables) (x : gmap (string * string) Style) : tables :=
  Tables (tb_users t) (tb_next_user t) (tb_collections t) (tb_shares t) (tb_styles t) x
    (tb_views t) (tb_maps t) (tb_grants t) (tb_tiles t).
Definition with_views (t : tables) (x : gmap string RasterView) : tables :=
  Tables (tb_users t) (tb_next_user t) (tb_collections t) (tb_shares t) (tb_styles t)
    (tb_raster_styles t) x (tb_maps t) (tb_grants t) (tb_tiles t).
Definition with_maps (t : tables) (x : gmap string Map) : tables :=
  Tables (tb_users t) (tb_next_user t) (tb_collections t) (tb_shares t) (tb_styles t)
    (tb_raster_styles t) (tb_views t) x (tb_grants t) (tb_tiles t).
