(* ===== verification/World.v ===== *)
(** * The world of a process: settings, exceptions, effects, retries

    A process (API server or worker) is a computation of the monad [M]: it
    reads and writes a [world] and returns a value or raises an exception.  The
    world holds the Redis keyspace, the process's own memory (the in-memory
    back ends of the job store and of the bulk queue), the clock, and a
    schedule of ticks.  Every Redis command consumes one tick of the schedule:
    time passes, other processes act on the keyspace between two commands of
    this process, and the command may be lost before or after the server ran
    it.  An empty schedule is a quiet environment.

    [run_redis_retry] and [retry_wait_seconds] are
    app/services/redis_resilience.py; [Settings] is the part of
    app/core/config.py the modelled components read. *)

From S2P Require Import Prelude PyTime Redis Postgres.
From S2P Require Export Tables.

(** ** Settings (app/core/config.py)

    Durations the code reads as float seconds are in microseconds; durations
    it passes to Redis as integer seconds are in seconds. *)

Record Settings := {
  bulk_queue_type : string;
  process_queue_type : string;
  bulk_copy_ingest_enabled : bool;
  bulk_finalize_queue_enabled : bool;
  bulk_finalize_retry_base_seconds : Z;
  bulk_finalize_retry_max_seconds : Z;
  bulk_job_stale_seconds : Z;
  bulk_watchdog_fail_stale_running : option bool;
  bulk_finalize_stale_seconds : Z;
  bulk_finalize_duplicate_give_up_attempts : Z;
  bulk_running_recover_staging_seconds : Z;
  bulk_job_pending_stale_seconds : Z;
  bulk_collection_mutex_ttl_seconds : Z;
  bulk_auto_tile_build_collections : string;
  tile_build_bulk_wait_poll_seconds : Z;
  bulk_skip_features_touch_trigger : bool;
  bulk_extent_update_mode : string;
  bulk_swap_lock_timeout_seconds : Z;
  bulk_swap_lock_max_wait_seconds : Z;
  bulk_db_retry_max_attempts : Z;
  bulk_db_retry_base_seconds : Z;
  bulk_db_retry_max_seconds : Z;
  bulk_finalize_watchdog_interval_seconds : Z;
  bulk_watchdog_interval_seconds : Z;
  bulk_worker_max_concurrent : Z;
  bulk_worker_dispatch_cooldown_seconds : Z;
  bulk_copy_batch_rows : Z;
  bulk_copy_parse_batch_lines : Z;
  bulk_copy_parser_workers : Z;
  bulk_copy_max_inflight_batches : Z;
  bulk_progress_heartbeat_seconds : Z;
  storage_self_heal_interval_seconds : Z;
  features_subdivide_max_vertices : Z;
  features_max_geometry_bytes : Z;
  bulk_insert_parts_batch_size : Z;
  bulk_features_per_insert : Z;
  bulk_geojsonl_fast_path : bool;
  bulk_per_feature_savepoint : bool;
  bulk_replace_delete_batch_rows : Z;
  bulk_replace_shadow_import : bool;
  bulk_storage_type : string;
  bulk_storage_path : string;
  bulk_upload_session_ttl_seconds : Z;
  storage_self_heal_enabled : bool;
  storage_self_heal_bulk_grace_seconds : Z;
  storage_self_heal_tile_tmp_grace_seconds : Z;
  tiles_storage_path : string;
  tiles_dynamic_max_concurrent : Z;
  tiles_dynamic_gate_wait_seconds : Z;
  items_list_max_concurrent : Z;
  items_list_gate_wait_seconds : Z;
  titiler_upstream_max_concurrent : Z;
  titiler_retry_max_attempts : Z;
  titiler_retry_base_seconds : Z;
  titiler_retry_max_seconds : Z;
  tiles_dynamic_cache_ttl_seconds : Z;
  tiles_dynamic_cache_with_params : bool;
  tiles_dynamic_cache_params_ttl_seconds : Z;
  tiles_search_result_cache_ttl_seconds : Z;
  collections_items_cache_ttl_seconds : Z;
  tiles_dynamic_queue_max_jobs : Z;
  tiles_dynamic_queue_job_max_age_seconds : Z;
  titiler_tile_cache_ttl_seconds : Z;
  titiler_tile_cache_max_body_bytes : Z;
  composite_items_merge_cap : Z;
  items_max_limit : Z;
  raster_storage_path : string;
  items_default_limit : Z;
  bulk_import_batch_size : Z;
  bulk_upload_chunk_size_bytes : Z;
  items_list_lock_timeout_seconds : Z;
  items_list_statement_timeout_seconds : Z;
  items_list_during_bulk_statement_timeout_seconds : Z;
  raster_upload_max_bytes : Z;
  composite_tiles_cache_ttl_seconds : Z;
  property_index_worker_max_concurrent : Z;
  process_batch_max_bytes : Z;
  process_batch_max_rows : Z;
  process_insert_batch_size : Z;
  process_progress_update_seconds : Z;
  process_intersection_pair_chunk_size : Z;
  mosaic_queue_type : string;
  mosaic_worker_max_concurrent : Z;
  mosaic_job_heartbeat_seconds : Z;
  mosaic_job_stale_after_seconds : Z;
  mosaic_job_client_timeout_seconds : Z;
  mosaic_subjob_queue_enabled : bool;
  mosaic_subjob_worker_concurrency : Z;
  mosaic_subjob_max_retries : Z;
  mosaic_subjob_result_ttl_seconds : Z;
  mosaic_subjob_round_timeout_seconds : Z;
  mosaic_parent_fail_on_partial : bool;
  stac_search_cache_ttl_seconds : Z;
  stac_collections_cache_ttl_seconds : Z;
  stac_search_http_max_retries : Z;
  stac_search_http_retry_backoff_seconds : Z;
  stac_search_http_retry_backoff_max_seconds : Z;
  stac_search_http_max_pages : Z;
  titiler_mosaic_tile_cache_ttl_seconds : Z;
  storage_usage_snapshot_ttl_seconds : Z;
  tiles_mvt_max_features : Z;
  tiles_filter_max_features : Z;
  tippecanoe_minzoom : Z;
  tippecanoe_maxzoom : Z;
  redis_retry_base_seconds : Z;
  redis_retry_max_seconds : Z;
  redis_retry_enqueue_max_attempts : Z;
  redis_retry_read_max_attempts : Z
}.

(** The defaults, with the life times of kept lists and searches as arguments. *)
Definition settings_with_caches (items_ttl search_ttl : Z) : Settings := {|
  bulk_queue_type := "redis";
  process_queue_type := "redis";
  bulk_copy_ingest_enabled := true;
  bulk_finalize_queue_enabled := true;
  bulk_finalize_retry_base_seconds := us 2;
  bulk_finalize_retry_max_seconds := us 120;
  bulk_job_stale_seconds := us 14400;
  bulk_watchdog_fail_stale_running := None;
  bulk_finalize_stale_seconds := us 86400;
  bulk_finalize_duplicate_give_up_attempts := 3;
  bulk_running_recover_staging_seconds := us 600;
  bulk_job_pending_stale_seconds := us 600;
  bulk_collection_mutex_ttl_seconds := 86400 * 2;
  bulk_auto_tile_build_collections := "";
  tile_build_bulk_wait_poll_seconds := us 2;
  bulk_skip_features_touch_trigger := true;
  bulk_extent_update_mode := "deferred";
  bulk_swap_lock_timeout_seconds := us 5;
  bulk_swap_lock_max_wait_seconds := us 600;
  bulk_db_retry_max_attempts := 4;
  bulk_db_retry_base_seconds := us 1;
  bulk_db_retry_max_seconds := us 30;
  bulk_finalize_watchdog_interval_seconds := us 60;
  bulk_watchdog_interval_seconds := us 300;
  bulk_worker_max_concurrent := 1;
  bulk_worker_dispatch_cooldown_seconds := 500000;
  bulk_copy_batch_rows := 20000;
  bulk_copy_parse_batch_lines := 8000;
  bulk_copy_parser_workers := 0;
  bulk_copy_max_inflight_batches := 0;
  bulk_progress_heartbeat_seconds := us 5;
  storage_self_heal_interval_seconds := us 300;
  features_subdivide_max_vertices := 256;
  features_max_geometry_bytes := 50 * 1024 * 1024;
  bulk_insert_parts_batch_size := 200;
  bulk_features_per_insert := 32;
  bulk_geojsonl_fast_path := true;
  bulk_per_feature_savepoint := false;
  bulk_replace_delete_batch_rows := 25000;
  bulk_replace_shadow_import := false;
  bulk_storage_type := "filesystem";
  bulk_storage_path := "/data/bulk-uploads";
  bulk_upload_session_ttl_seconds := 86400;
  storage_self_heal_enabled := true;
  storage_self_heal_bulk_grace_seconds := us 86400;
  storage_self_heal_tile_tmp_grace_seconds := us 86400;
  tiles_storage_path := "/data/tiles";
  tiles_dynamic_max_concurrent := 8;
  tiles_dynamic_gate_wait_seconds := us 5;
  items_list_max_concurrent := 3;
  items_list_gate_wait_seconds := us 2;
  titiler_upstream_max_concurrent := 8;
  titiler_retry_max_attempts := 3;
  titiler_retry_base_seconds := 150000;
  titiler_retry_max_seconds := us 2;
  tiles_dynamic_cache_ttl_seconds := 60;
  tiles_dynamic_cache_with_params := true;
  tiles_dynamic_cache_params_ttl_seconds := 60;
  tiles_search_result_cache_ttl_seconds := search_ttl;
  collections_items_cache_ttl_seconds := items_ttl;
  tiles_dynamic_queue_max_jobs := 512;
  tiles_dynamic_queue_job_max_age_seconds := us 30;
  titiler_tile_cache_ttl_seconds := 3600;
  titiler_tile_cache_max_body_bytes := 4 * 1024 * 1024;
  composite_items_merge_cap := 5000;
  items_max_limit := 1000;
  raster_storage_path := "/data/rasters";
  items_default_limit := 100;
  bulk_import_batch_size := 3000;
  bulk_upload_chunk_size_bytes := 64 * 1024 * 1024;
  items_list_lock_timeout_seconds := us 3;
  items_list_statement_timeout_seconds := us 8;
  items_list_during_bulk_statement_timeout_seconds := us 5;
  raster_upload_max_bytes := 500 * 1024 * 1024;
  composite_tiles_cache_ttl_seconds := 3600;
  property_index_worker_max_concurrent := 2;
  process_batch_max_bytes := 256 * 1024;
  process_batch_max_rows := 0;
  process_insert_batch_size := 200;
  process_progress_update_seconds := us 2;
  process_intersection_pair_chunk_size := 400;
  mosaic_queue_type := "redis";
  mosaic_worker_max_concurrent := 1;
  mosaic_job_heartbeat_seconds := 10;
  mosaic_job_stale_after_seconds := 180;
  mosaic_job_client_timeout_seconds := 1800;
  mosaic_subjob_queue_enabled := false;
  mosaic_subjob_worker_concurrency := 2;
  mosaic_subjob_max_retries := 1;
  mosaic_subjob_result_ttl_seconds := 3600;
  mosaic_subjob_round_timeout_seconds := 180;
  mosaic_parent_fail_on_partial := false;
  stac_search_cache_ttl_seconds := 3600;
  stac_collections_cache_ttl_seconds := 604800;
  stac_search_http_max_retries := 8;
  stac_search_http_retry_backoff_seconds := us 2;
  stac_search_http_retry_backoff_max_seconds := us 300;
  stac_search_http_max_pages := 2;
  titiler_mosaic_tile_cache_ttl_seconds := 86400;
  storage_usage_snapshot_ttl_seconds := 86400 * 8;
  tiles_mvt_max_features := 50000;
  tiles_filter_max_features := 50000;
  tippecanoe_minzoom := 0;
  tippecanoe_maxzoom := 16;
  redis_retry_base_seconds := us 1;
  redis_retry_max_seconds := us 30;
  redis_retry_enqueue_max_attempts := 5;
  redis_retry_read_max_attempts := 20
|}.
Definition default_settings : Settings := settings_with_caches 600 60.

(** ** Exceptions *)

Inductive exn :=
  | ConnectionError                      (* redis-py: the command failed in transit *)
  | ResponseError (e : response_error)   (* redis-py: the server refused the command *)
  | ValueError (msg : string)
  | KeyError (key : string)
  | TypeError (msg : string)
  | AttributeError (msg : string)
  | OverflowError (msg : string)
  | RuntimeError (msg : string)
  | TimeoutError (msg : string)
  | FileNotFoundError (msg : string)
  | NotImplementedError (msg : string)
  | DBError (msg : string)               (* SQLAlchemy DBAPIError *)
  | IntegrityError (msg : string)        (* SQLAlchemy IntegrityError *)
  | MultipleResultsFound                 (* SQLAlchemy: one row at most was expected *)
  | BulkImportCancelled
  | StagingDuplicateUnrecoverableError (msg : string)
  | GeometryTooLargeError (msg : string)
  | CogPathOutsideStorageError (msg : string)
  | AssertionError
  | HTTPException (code : Z) (detail : json).

(** [str(e)] *)
Definition exn_str (e : exn) : string :=
  match e with
  | ConnectionError => "Connection closed by server."
  | ResponseError WrongType =>
      "WRONGTYPE Operation against a key holding the wrong kind of value"
  | ResponseError NotInteger => "value is not an integer or out of range"
  | KeyError k => "'" +:+ k +:+ "'"
  | ValueError m | TypeError m | AttributeError m | OverflowError m
  | RuntimeError m | TimeoutError m | FileNotFoundError m | NotImplementedError m | DBError m | IntegrityError m
  | StagingDuplicateUnrecoverableError m | GeometryTooLargeError m
  | CogPathOutsideStorageError m => m
  | BulkImportCancelled | AssertionError => ""
  | MultipleResultsFound => "Multiple rows were found when one or none was required"
  | HTTPException code detail =>        (* no text is made of a structured detail *)
      str_of_Z code +:+ ": " +:+ match detail with JStr s => s | _ => "" end
  end.

(** [type(e).__name__] *)
Definition exn_name (e : exn) : string :=
  match e with
  | ConnectionError => "ConnectionError"
  | ResponseError _ => "ResponseError"
  | ValueError _ => "ValueError"
  | KeyError _ => "KeyError"
  | TypeError _ => "TypeError"
  | AttributeError _ => "AttributeError"
  | OverflowError _ => "OverflowError"
  | RuntimeError _ => "RuntimeError"
  | TimeoutError _ => "TimeoutError"
  | FileNotFoundError _ => "FileNotFoundError"
  | NotImplementedError _ => "NotImplementedError"
  | DBError _ => "DBAPIError"
  | IntegrityError _ => "IntegrityError"
  | BulkImportCancelled => "BulkImportCancelled"
  | MultipleResultsFound => "MultipleResultsFound"
  | StagingDuplicateUnrecoverableError _ => "StagingDuplicateUnrecoverableError"
  | GeometryTooLargeError _ => "GeometryTooLargeError"
  | CogPathOutsideStorageError _ => "CogPathOutsideStorageError"
  | AssertionError => "AssertionError"
  | HTTPException _ _ => "HTTPException"
  end.

(** ** Jobs and bulk payloads held in process memory *)

(** [JobInfo] of app/services/job_store.py. *)
Record JobInfo := Job {
  job_id : string;
  collection_id : string;
  status : string;
  message : option string;
  items_in : Z;
  items_created : Z;
  items_failed : Z;
  created_at : datetime;
  updated_at : datetime;
  finished_at : option datetime;
  last_progress_at : option datetime;
  owner_id : option Z;
  job_label : option string
}.

(** [BulkJobPayload] of app/services/bulk_queue.py. *)
Record BulkJobPayload := BulkPayload {
  bp_job_id : string;
  bp_collection_id : string;
  bp_storage_key : string;
  bp_mode : string;
  bp_batch_size : Z;
  bp_owner_id : option Z;
  bp_queue_compute_tiles : bool;
  bp_zip_inner_shp_paths : option (list string);
  bp_job_kind : string;
  bp_parent_job_id : option string;
  bp_shard_index : option Z;
  bp_shard_total : option Z;
  bp_finalize_collection : bool;
  bp_replace_filters : option (list string)
}.

(** ** The environment of a Redis command *)

Inductive fault :=
  | Delivered        (* the server ran the command and the reply arrived *)
  | RequestLost      (* the server did not run the command *)
  | ReplyLost.       (* the server ran the command, the reply did not arrive *)

(** What happens around one command: time passes, then other processes act on
    the keyspace, then the command is delivered or lost. *)
Record tick := Tick {
  tk_wait : Z;
  tk_env : Z -> keyspace -> keyspace;
  tk_fault : fault
}.

Definition quiet_tick : tick := Tick 0 (fun _ ks => ks) Delivered.

(** The fate of one PostgreSQL transaction: it commits, it is rolled back with
    an error, or it commits and the acknowledgement is lost. *)
Inductive db_fate :=
  | Commits
  | Aborts (e : sql_error)
  | CommitLost.

(** What other sessions commit before a transaction of this process runs, and
    the fate of that transaction. *)
Record db_tick := DbTick {
  dt_env : database -> database;
  dt_fate : db_fate
}.

(** The services of the process besides Redis: PostgreSQL with its schedule,
    one tick per transaction, the shared volume (contents by path), and the
    tables of the API. *)
Record services := Services {
  s_db : database;
  s_db_sched : list db_tick;
  s_files : gmap string string;
  s_tables : tables
}.

Definition no_services : services := Services empty_db [] ∅ no_tables.

Record world := World {
  w_redis : keyspace;
  w_now : Z;
  w_sched : list tick;
  w_mem_jobs : list (string * JobInfo);      (* job_store._mem_jobs, insertion order *)
  w_mem_bulk : gmap string string;           (* bulk_queue._mem_bulk_storage *)
  w_mem_queue : list BulkJobPayload;         (* bulk_queue._memory_queue, oldest first *)
  w_uuids : nat;                             (* number of uuid4() values drawn *)
  w_jitters : nat;                           (* number of random.uniform() values drawn *)
  w_sleeps : list Z;                         (* time.sleep arguments, newest first *)
  w_services : services
}.

Abbreviation w_db w := (s_db (w_services w)).
Abbreviation w_files w := (s_files (w_services w)).
Abbreviation w_tables w := (s_tables (w_services w)).

Definition with_redis (w : world) (ks : keyspace) : world :=
  World ks (w_now w) (w_sched w) (w_mem_jobs w) (w_mem_bulk w) (w_mem_queue w)
    (w_uuids w) (w_jitters w) (w_sleeps w) (w_services w).
Definition with_mem_jobs (w : world) (j : list (string * JobInfo)) : world :=
  World (w_redis w) (w_now w) (w_sched w) j (w_mem_bulk w) (w_mem_queue w)
    (w_uuids w) (w_jitters w) (w_sleeps w) (w_services w).
Definition with_mem_bulk (w : world) (m : gmap string string) : world :=
  World (w_redis w) (w_now w) (w_sched w) (w_mem_jobs w) m (w_mem_queue w)
    (w_uuids w) (w_jitters w) (w_sleeps w) (w_services w).
Definition with_mem_queue (w : world) (q : list BulkJobPayload) : world :=
  World (w_redis w) (w_now w) (w_sched w) (w_mem_jobs w) (w_mem_bulk w) q
    (w_uuids w) (w_jitters w) (w_sleeps w) (w_services w).
Definition draw_uuid (w : world) : world :=
  World (w_redis w) (w_now w) (w_sched w) (w_mem_jobs w) (w_mem_bulk w) (w_mem_queue w)
    (S (w_uuids w)) (w_jitters w) (w_sleeps w) (w_services w).
Definition slept (w : world) (d : Z) : world :=
  World (w_redis w) (w_now w + d) (w_sched w) (w_mem_jobs w) (w_mem_bulk w) (w_mem_queue w)
    (w_uuids w) (S (w_jitters w)) (d :: w_sleeps w) (w_services w).

(** Consumes one tick: the world as the command finds it, and its fate. *)
Definition next_tick (w : world) : fault * world :=
  match w_sched w with
  | [] => (Delivered, w)
  | t :: ts =>
      let now := w_now w + Z.max 0 (tk_wait t) in
      (tk_fault t,
       World (tk_env t now (w_redis w)) now ts (w_mem_jobs w) (w_mem_bulk w) (w_mem_queue w)
         (w_uuids w) (w_jitters w) (w_sleeps w) (w_services w))
  end.

Definition with_services (w : world) (x : services) : world :=
  World (w_redis w) (w_now w) (w_sched w) (w_mem_jobs w) (w_mem_bulk w) (w_mem_queue w)
    (w_uuids w) (w_jitters w) (w_sleeps w) x.
Definition with_db (w : world) (db : database) : world :=
  with_services w (Services db (s_db_sched (w_services w)) (w_files w) (w_tables w)).
Definition with_files (w : world) (f : gmap string string) : world :=
  with_services w (Services (w_db w) (s_db_sched (w_services w)) f (w_tables w)).
Definition with_tables (w : world) (t : tables) : world :=
  with_services w (Services (w_db w) (s_db_sched (w_services w)) (w_files w) t).

Definition quiet (w : world) : Prop := w_sched w = [].
Definition db_quiet (w : world) : Prop := s_db_sched (w_services w) = [].

(** The world of a process that starts with empty stores in a quiet environment. *)
Definition empty_world : world := World ∅ 0 [] [] ∅ [] 0 0 [] no_services.

(** ** The monad *)

Definition M (A : Type) : Type := world -> (exn + A) * world.

#[export] Instance M_ret : MRet M := fun A a w => (inr a, w).
#[export] Instance M_bind : MBind M := fun A B f m w =>
  match m w with
  | (inr a, w') => f a w'
  | (inl e, w') => (inl e, w')
  end.
#[export] Instance M_fmap : FMap M := fun A B f m => m ≫= fun a => mret (f a).

Definition raise {A} (e : exn) : M A := fun w => (inl e, w).

(** [try: m except Exception as e: h e] *)
Definition try_except {A} (m : M A) (h : exn -> M A) : M A := fun w =>
  match m w with
  | (inr a, w') => (inr a, w')
  | (inl e, w') => h e w'
  end.

(** [try: m finally: f]; an exception of [f] replaces the outcome of [m]. *)
Definition try_finally {A} (m : M A) (f : M unit) : M A := fun w =>
  let (r, w') := m w in
  match f w' with
  | (inr _, w'') => (r, w'')
  | (inl e, w'') => (inl e, w'')
  end.

(** [try: m except Exception: pass] *)
Definition try_pass (m : M unit) : M unit := try_except m (fun _ => mret tt).

(** Results of the pure parts of a function that may raise. *)
Abbreviation res A := (sum exn A).
Definition res_bind {A B} (r : res A) (f : A -> res B) : res B :=
  match r with inl e => inl e | inr a => f a end.
Notation "'let!' x ':=' r 'in' k" := (res_bind r (fun x => k))
  (at level 10, x name, r at level 100, k at level 200, right associativity).

(** [int(s)] *)
Definition int_of (s : string) : res Z :=
  match py_int s with
  | Some z => inr z
  | None => inl (ValueError ("invalid literal for int() with base 10: '" +:+ s +:+ "'"))
  end.

(** Runs a pure result inside the monad. *)
Definition lift {A} (r : res A) : M A := fun w => (r, w).

Definition when (b : bool) (m : M unit) : M unit := if b then m else mret tt.

Definition get_now : M Z := fun w => (inr (w_now w), w).
Definition gets {A} (f : world -> A) : M A := fun w => (inr (f w), w).
Definition modify (f : world -> world) : M unit := fun w => (inr tt, f w).

(** [for x in l: f x] *)
Fixpoint for_each {A} (l : list A) (f : A -> M unit) : M unit :=
  match l with
  | [] => mret tt
  | x :: l' => f x ;; for_each l' f
  end.

(** [\[f x for x in l\]], and a loop that appends the [Some] results. *)
Fixpoint map_m {A B} (f : A -> M B) (l : list A) : M (list B) :=
  match l with
  | [] => mret []
  | x :: l' => y ← f x; ys ← map_m f l'; mret (y :: ys)
  end.

Fixpoint collect {A B} (f : A -> M (option B)) (l : list A) : M (list B) :=
  match l with
  | [] => mret []
  | x :: l' =>
      y ← f x; ys ← collect f l';
      mret (match y with Some b => b :: ys | None => ys end)
  end.

(** Randomness and identifiers drawn from the operating system. *)
Class Entropy := {
  uuid4_nth : nat -> string;    (* the n-th [str(uuid.uuid4())] *)
  jitter_nth : nat -> Z         (* the n-th [random.uniform(0.0, 0.15)], in 1e-6 *)
}.

(** Documented behaviour: UUIDs do not repeat and draws are in range. *)
Class EntropyLaws `{Entropy} : Prop := {
  uuid4_inj : Inj (=) (=) uuid4_nth;
  uuid4_nonempty n : uuid4_nth n <> "";
  jitter_range n : 0 <= jitter_nth n <= 150000
}.

Definition reference_entropy : Entropy :=
  {| uuid4_nth n := "job-" +:+ pretty.pretty n; jitter_nth _ := 0 |}.

Section effects.
Context `{RedisServer} `{Entropy} (cfg : Settings).

Definition uuid4 : M string := fun w => (inr (uuid4_nth (w_uuids w)), draw_uuid w).

(** One Redis command. *)
Definition redis {A} (c : cmd A) : M A := fun w =>
  let (f, w') := next_tick w in
  match f with
  | RequestLost => (inl ConnectionError, w')
  | Delivered =>
      let (r, ks) := exec c (w_now w') (w_redis w') in
      (match r with inr a => inr a | inl e => inl (ResponseError e) end, with_redis w' ks)
  | ReplyLost =>
      let (r, ks) := exec c (w_now w') (w_redis w') in
      (inl ConnectionError, with_redis w' ks)
  end.

(** ** app/services/redis_resilience.py *)

(** [retry_wait_seconds], in microseconds; [u] is the random draw. *)
Definition retry_wait_seconds (attempt_idx base max_seconds u : Z) : Z :=
  let raw := base * 2 ^ Z.max 0 (attempt_idx - 1) in
  let wait := Z.min max_seconds raw in
  wait + wait * u / 1000000.

Definition sleep_retry (attempt base max_backoff : Z) : M unit := fun w =>
  (inr tt, slept w (retry_wait_seconds attempt base max_backoff (jitter_nth (w_jitters w)))).

(** The loop of [run_redis_retry] from attempt number [attempt]: [fuel] is
    the number of attempts left before the limit. *)
Fixpoint retry_loop {A} (fuel : nat) (attempt base max_backoff : Z) (fn : M A) : M A :=
  try_except fn (fun e =>
    match fuel with
    | O => raise e
    | S fuel' =>
        sleep_retry attempt base max_backoff;;
        retry_loop fuel' (attempt + 1) base max_backoff fn
    end).

Definition retry_base : Z := Z.max 100000 (int_or (redis_retry_base_seconds cfg) (us 1)).
Definition retry_max_backoff : Z :=
  Z.max retry_base (int_or (redis_retry_max_seconds cfg) (us 30)).
Definition retry_limit (max_attempts : option Z) : Z :=
  match max_attempts with
  | Some n => n
  | None => Z.max 1 (int_or (redis_retry_enqueue_max_attempts cfg) 5)
  end.

(** [run_redis_retry(label, fn, max_attempts=...)] without [forever]: attempt
    [n] re-raises when [n >= limit]. *)
Definition run_redis_retry {A} (fn : M A) (max_attempts : option Z) : M A :=
  retry_loop (Z.to_nat (retry_limit max_attempts - 1)) 1 retry_base retry_max_backoff fn.

(** [max(1, int(settings.redis_retry_read_max_attempts or 15))] *)
Definition read_attempts : Z := Z.max 1 (int_or (redis_retry_read_max_attempts cfg) 15).

Definition is_redis : bool := bool_decide (bulk_queue_type cfg = "redis").
End effects.

(** ** Equations of the monad *)

Lemma bind_run {A B} (f : A -> M B) (m : M A) w :
  (m ≫= f) w = match m w with (inr a, w') => f a w' | (inl e, w') => (inl e, w') end.
Proof. reflexivity. Qed.

Lemma bind_ext {A B} (m : M A) (f g : A -> M B) w :
  (forall a w', f a w' = g a w') -> (m ≫= f) w = (m ≫= g) w.
Proof. intros Hfg. rewrite !bind_run. destruct (m w) as [[e|a] w']; [done|apply Hfg]. Qed.
Lemma bind_assoc {A B C} (m : M A) (f : A -> M B) (g : B -> M C) w :
  ((m ≫= f) ≫= g) w = (m ≫= (fun a => f a ≫= g)) w.
Proof. rewrite !bind_run. by destruct (m w) as [[e|a] w']. Qed.
Lemma fmap_run {A B} (f : A -> B) (m : M A) w :
  (f <$> m) w = match m w with (inr a, w') => (inr (f a), w') | (inl e, w') => (inl e, w') end.
Proof. reflexivity. Qed.

Lemma ret_run {A} (a : A) w : (mret a : M A) w = (inr a, w).
Proof. reflexivity. Qed.

Lemma gets_run {A} (f : world -> A) w : gets f w = (inr (f w), w).
Proof. reflexivity. Qed.

Lemma get_now_run w : get_now w = (inr (w_now w), w).
Proof. reflexivity. Qed.

Lemma modify_run f w : modify f w = (inr tt, f w).
Proof. reflexivity. Qed.

Lemma lift_run {A} (r : res A) w : lift r w = (r, w).
Proof. reflexivity. Qed.

Lemma try_except_ok {A} (m : M A) h w a w' : m w = (inr a, w') -> try_except m h w = (inr a, w').
Proof. unfold try_except. by intros ->. Qed.

Lemma try_except_err {A} (m : M A) h w e w' : m w = (inl e, w') -> try_except m h w = h e w'.
Proof. unfold try_except. by intros ->. Qed.

Lemma try_pass_run m w : try_pass m w = (inr tt, (m w).2).
Proof. unfold try_pass, try_except. by destruct (m w) as [[e|[]] w']. Qed.

(** A concrete run, from the value it returns. *)
Lemma run_fst {A} (m : M A) w r : (m w).1 = r -> m w = (r, (m w).2).
Proof. intros <-. by destruct (m w). Qed.

Lemma with_redis_redis w ks : w_redis (with_redis w ks) = ks.
Proof. reflexivity. Qed.
Lemma with_redis_now w ks : w_now (with_redis w ks) = w_now w.
Proof. reflexivity. Qed.
Lemma with_redis_twice w ks ks' : with_redis (with_redis w ks) ks' = with_redis w ks'.
Proof. reflexivity. Qed.
Lemma with_redis_same w : with_redis w (w_redis w) = w.
Proof. by destruct w. Qed.
Lemma quiet_with_redis w ks : quiet w -> quiet (with_redis w ks).
Proof. done. Qed.
Lemma quiet_with_mem_jobs w j : quiet w -> quiet (with_mem_jobs w j).
Proof. done. Qed.
Lemma quiet_draw_uuid w : quiet w -> quiet (draw_uuid w).
Proof. done. Qed.

Lemma quiet_with_db w db : quiet w -> quiet (with_db w db).
Proof. done. Qed.
Lemma db_quiet_with_redis w ks : db_quiet w -> db_quiet (with_redis w ks).
Proof. done. Qed.
Lemma db_quiet_with_db w db : db_quiet w -> db_quiet (with_db w db).
Proof. done. Qed.

#[export] Hint Resolve quiet_with_redis quiet_with_mem_jobs quiet_draw_uuid quiet_with_db
  db_quiet_with_redis db_quiet_with_db : geofast.

Create Rewrite HintDb run.
#[export] Hint Rewrite @bind_run @fmap_run @ret_run @gets_run get_now_run modify_run @lift_run try_pass_run
  with_redis_redis with_redis_now with_redis_twice : run.

Section effect_lemmas.
Context `{RedisLaws} `{Entropy} (cfg : Settings).

Lemma next_tick_quiet w : quiet w -> next_tick w = (Delivered, w).
Proof. unfold quiet, next_tick. by intros ->. Qed.

Definition of_reply {A} (r : reply A) : exn + A :=
  match r with inr a => inr a | inl e => inl (ResponseError e) end.

(** In a quiet world a command runs atomically on the current keyspace. *)
Lemma redis_quiet {A} (c : cmd A) w :
  quiet w ->
  redis c w = (of_reply (exec c (w_now w) (w_redis w)).1,
               with_redis w (exec c (w_now w) (w_redis w)).2).
Proof.
  intros Hq. unfold redis. rewrite next_tick_quiet by done.
  by destruct (exec c (w_now w) (w_redis w)) as [[] ks].
Qed.

Lemma redis_ok {A} (c : cmd A) w a ks :
  quiet w -> exec c (w_now w) (w_redis w) = (inr a, ks) -> redis c w = (inr a, with_redis w ks).
Proof. intros Hq Hx. by rewrite redis_quiet, Hx. Qed.

Lemma bind_redis {A B} (c : cmd A) (f : A -> M B) w a ks :
  quiet w -> exec c (w_now w) (w_redis w) = (inr a, ks) ->
  (redis c ≫= f) w = f a (with_redis w ks).
Proof. intros Hq Hx. by rewrite bind_run, (redis_ok _ _ _ _ Hq Hx). Qed.

Lemma retry_loop_ok {A} fuel k b m (fn : M A) w a w' :
  fn w = (inr a, w') -> retry_loop fuel k b m fn w = (inr a, w').
Proof. intros Hf. destruct fuel; simpl; by apply try_except_ok. Qed.

(** A call that succeeds at once is not retried. *)
Lemma run_redis_retry_ok {A} (fn : M A) n w a w' :
  fn w = (inr a, w') -> run_redis_retry cfg fn n w = (inr a, w').
Proof. apply retry_loop_ok. Qed.

(** [fn] fails [n] times from [w], each failure followed by the backoff of
    its attempt number, and [w'] is the world of the next attempt. *)
Inductive failing {A} (fn : M A) (b m : Z) : nat -> Z -> world -> world -> Prop :=
  | failing_O k w : failing fn b m O k w w
  | failing_S n k w e w1 w' :
      fn w = (inl e, w1) ->
      failing fn b m n (k + 1) (slept w1 (retry_wait_seconds k b m (jitter_nth (w_jitters w1)))) w' ->
      failing fn b m (S n) k w w'.

Lemma retry_loop_outcome {A} (fn : M A) b m fuel k w :
  (exists n w' a w'', (n <= fuel)%nat /\ failing fn b m n k w w' /\ fn w' = (inr a, w'')
                      /\ retry_loop fuel k b m fn w = (inr a, w''))
  \/ (exists w' e w'', failing fn b m fuel k w w' /\ fn w' = (inl e, w'')
                       /\ retry_loop fuel k b m fn w = (inl e, w'')).
Proof.
  revert k w. induction fuel as [|fuel IH]; intros k w; simpl.
  - destruct (fn w) as [[e|a] w1] eqn:Hf.
    + right. exists w, e, w1. split; [constructor|]. split; [done|].
      by rewrite (try_except_err _ _ _ _ _ Hf).
    + left. exists 0%nat, w, a, w1. split; [lia|]. split; [constructor|]. split; [done|].
      by apply try_except_ok.
  - destruct (fn w) as [[e|a] w1] eqn:Hf.
    + rewrite (try_except_err _ _ _ _ _ Hf). rewrite bind_run. simpl.
      destruct (IH (k + 1) (slept w1 (retry_wait_seconds k b m (jitter_nth (w_jitters w1)))))
        as [(n & w' & a & w'' & ? & ? & ? & ?) | (w' & e' & w'' & ? & ? & ?)].
      * left. exists (S n), w', a, w''. split; [lia|]. split; [by econstructor|]. done.
      * right. exists w', e', w''. split; [by econstructor|]. done.
    + left. exists 0%nat, w, a, w1. split; [lia|]. split; [constructor|]. split; [done|].
      by apply try_except_ok.
Qed.

Lemma retry_loop_last {A} (fn : M A) fuel k b m w a w' :
  retry_loop fuel k b m fn w = (inr a, w') -> exists w0, fn w0 = (inr a, w').
Proof.
  intros Hr. destruct (retry_loop_outcome fn b m fuel k w)
    as [(n & w0 & a' & w'' & _ & _ & Hf & Hl) | (w0 & e & w'' & _ & _ & Hl)].
  - exists w0. rewrite Hf. congruence.
  - congruence.
Qed.

(** The value a retried call returns is the value of its last attempt, in
    whatever world that attempt ran. *)
Lemma run_redis_retry_last {A} (fn : M A) n w a w' :
  run_redis_retry cfg fn n w = (inr a, w') -> exists w0, fn w0 = (inr a, w').
Proof. apply retry_loop_last. Qed.

(** What a command that returned a value did: it ran on some keyspace [ks]
    at the time of the resulting world. *)
Lemma redis_inv {A} (c : cmd A) w a w' :
  redis c w = (inr a, w') ->
  exists ks, exec c (w_now w') ks = (inr a, w_redis w').
Proof.
  unfold redis. intros Hr. destruct (next_tick w) as [f w1]. exists (w_redis w1).
  destruct f; try (destruct (exec c (w_now w1) (w_redis w1)) as [[] ks] eqn:Hx);
    by simplify_eq/=.
Qed.

Lemma retry_wait_bounds k b m u :
  0 <= b -> 0 <= m -> 0 <= u <= 150000 ->
  0 <= retry_wait_seconds k b m u <= m + m * 150000 / 1000000.
Proof.
  intros Hb Hm Hu. unfold retry_wait_seconds. cbv zeta.
  assert (0 <= b * 2 ^ Z.max 0 (k - 1)).
  { apply Z.mul_nonneg_nonneg; [done|]. apply Z.pow_nonneg. lia. }
  set (x := Z.min m _). assert (0 <= x <= m) as Hx by lia.
  assert (0 <= x * u <= m * 150000) by nia.
  split; [Z.to_euclidean_division_equations; lia|].
  pose proof (Z.div_le_mono (x * u) (m * 150000) 1000000). lia.
Qed.
End effect_lemmas.

(** ** Invariants of the keyspace

    [keeps I m]: whatever the schedule, as long as the other processes keep
    [I], running [m] keeps it too, also when commands are lost or [m] raises. *)

Definition env_ok (I : keyspace -> Prop) (w : world) : Prop :=
  Forall (fun t => forall now ks, I ks -> I (tk_env t now ks)) (w_sched w).

Definition keeps (I : keyspace -> Prop) {A} (m : M A) : Prop :=
  forall w, env_ok I w -> I (w_redis w) -> env_ok I (m w).2 /\ I (w_redis (m w).2).

Section keeps.
Context `{RedisServer} `{Entropy} (I : keyspace -> Prop).

Lemma keeps_ret {A} (a : A) : keeps I (mret a).
Proof. done. Qed.

Lemma keeps_raise {A} e : keeps I (raise e : M A).
Proof. done. Qed.

Lemma keeps_bind {A B} (m : M A) (f : A -> M B) :
  keeps I m -> (forall a, keeps I (f a)) -> keeps I (m ≫= f).
Proof.
  intros Hm Hf w Hw Hi. rewrite bind_run. specialize (Hm w Hw Hi).
  destruct (m w) as [[e|a] w']; destruct Hm; [done|]. by apply Hf.
Qed.

Lemma keeps_fmap {A B} (f : A -> B) (m : M A) : keeps I m -> keeps I (f <$> m).
Proof. intros Hm. apply keeps_bind; [done|]. intros a. apply keeps_ret. Qed.

Lemma keeps_try_except {A} (m : M A) h :
  keeps I m -> (forall e, keeps I (h e)) -> keeps I (try_except m h).
Proof.
  intros Hm Hh w Hw Hi. unfold try_except. specialize (Hm w Hw Hi).
  destruct (m w) as [[e|a] w']; destruct Hm; [by apply Hh|done].
Qed.

Lemma keeps_try_pass m : keeps I m -> keeps I (try_pass m).
Proof. intros Hm. apply keeps_try_except; [done|]. intros e. apply keeps_ret. Qed.

Lemma keeps_try_finally {A} (m : M A) f : keeps I m -> keeps I f -> keeps I (try_finally m f).
Proof.
  intros Hm Hf w Hw Hi. unfold try_finally. specialize (Hm w Hw Hi).
  destruct (m w) as [r w']. destruct Hm as [Hw' Hi']. specialize (Hf w' Hw' Hi').
  by destruct (f w') as [[] w''].
Qed.

Lemma keeps_when b m : keeps I m -> keeps I (when b m).
Proof. by destruct b. Qed.

Lemma keeps_if {A} (b : bool) (m1 m2 : M A) :
  keeps I m1 -> keeps I m2 -> keeps I (if b then m1 else m2).
Proof. by destruct b. Qed.

Lemma keeps_gets {A} (f : world -> A) : keeps I (gets f).
Proof. done. Qed.

Lemma keeps_get_now : keeps I get_now.
Proof. done. Qed.

Lemma keeps_lift {A} (r : res A) : keeps I (lift r).
Proof. done. Qed.

Lemma keeps_uuid4 : keeps I uuid4.
Proof. done. Qed.

Lemma keeps_for_each {A} (l : list A) f :
  (forall x, keeps I (f x)) -> keeps I (for_each l f).
Proof. intros Hf. induction l; [apply keeps_ret|]. by apply keeps_bind. Qed.

Lemma keeps_map_m {A B} (f : A -> M B) l :
  (forall x, keeps I (f x)) -> keeps I (map_m f l).
Proof.
  intros Hf. induction l; [apply keeps_ret|]. apply keeps_bind; [done|]. intros y.
  apply keeps_bind; [done|]. intros ys. apply keeps_ret.
Qed.

Lemma keeps_collect {A B} (f : A -> M (option B)) l :
  (forall x, keeps I (f x)) -> keeps I (collect f l).
Proof.
  intros Hf. induction l; [apply keeps_ret|]. apply keeps_bind; [done|]. intros y.
  apply keeps_bind; [done|]. intros ys. apply keeps_ret.
Qed.

(** A command keeps [I] when its effect on the keyspace does, at any time. *)
Lemma keeps_redis {A} (c : cmd A) :
  (forall now ks, I ks -> I (exec c now ks).2) -> keeps I (redis c).
Proof.
  intros Hc w Hw Hi. unfold redis, next_tick.
  destruct (w_sched w) as [|t ts] eqn:Hs.
  - specialize (Hc (w_now w) (w_redis w) Hi).
    destruct (exec c (w_now w) (w_redis w)) as [r ks]. split; [|done].
    unfold env_ok in *. simpl. by rewrite Hs.
  - unfold env_ok in Hw. rewrite Hs in Hw. apply Forall_cons in Hw as [Ht Hts].
    set (now := w_now w + Z.max 0 (tk_wait t)).
    specialize (Hc now _ (Ht now _ Hi)). cbn [w_now w_redis].
    destruct (tk_fault t); [| |]; try (destruct (exec c now _) as [r ks]); split; try done.
    by apply Ht.
Qed.

Lemma keeps_sleep_retry a b m : keeps I (sleep_retry a b m).
Proof. done. Qed.

Lemma keeps_retry {A} cfg (fn : M A) n : keeps I fn -> keeps I (run_redis_retry cfg fn n).
Proof.
  intros Hf. unfold run_redis_retry. generalize (Z.to_nat (retry_limit cfg n - 1)).
  generalize (retry_base cfg) (retry_max_backoff cfg). intros b m fuel.
  generalize 1. induction fuel as [|fuel IH]; intros k; simpl.
  - apply keeps_try_except; [done|]. intros e. apply keeps_raise.
  - apply keeps_try_except; [done|]. intros e. apply keeps_bind; [|done].
    apply keeps_sleep_retry.
Qed.
End keeps.

#[export] Hint Resolve keeps_ret keeps_raise keeps_bind keeps_fmap keeps_try_except keeps_try_pass
  keeps_try_finally keeps_when keeps_if keeps_gets keeps_get_now keeps_lift keeps_uuid4
  keeps_for_each keeps_map_m keeps_collect keeps_retry keeps_sleep_retry : geofast.

(** A delay of the process itself, [time.sleep] outside the retry loop. *)
Definition sleep (d : Z) : M unit := fun w =>
  (inr tt, World (w_redis w) (w_now w + d) (w_sched w) (w_mem_jobs w) (w_mem_bulk w)
             (w_mem_queue w) (w_uuids w) (w_jitters w) (d :: w_sleeps w) (w_services w)).

Lemma keeps_sleep I d : keeps I (sleep d).
Proof. done. Qed.
#[export] Hint Resolve keeps_sleep : geofast.

(** Runs one Redis command of the goal in a quiet world. *)
Ltac run_cmd :=
  rewrite ?bind_run; rewrite redis_quiet by eauto with geofast;
  autorewrite with redis_exec; simpl.
