(* ===== verification/Database.v ===== *)
(** * Transactions (SQLAlchemy engines of the sources)

    [TX] is the body of a [with engine.begin() as conn] or [with
    engine.connect() as conn] block: statements run in order on the database and
    the first error ends the block.  [transaction] runs a block atomically: it
    commits when the block ends normally and rolls back when it raises.  Each
    transaction takes one tick of the database schedule, in which other sessions
    commit their work first and the transaction may be aborted or its
    acknowledgement lost. *)

From S2P Require Import Prelude PyTime Redis Postgres World.

Definition TX (A : Type) : Type := database -> (exn + A) * database.

#[export] Instance TX_ret : MRet TX := fun A a db => (inr a, db).
#[export] Instance TX_bind : MBind TX := fun A B f m db =>
  match m db with
  | (inr a, db') => f a db'
  | (inl e, db') => (inl e, db')
  end.

#[export] Instance TX_fmap : FMap TX := fun A B f m => m ≫= fun a => mret (f a).

Definition exn_of_sql (e : sql_error) : exn :=
  match e with
  | UniqueViolation _ => IntegrityError (sql_error_text e)
  | _ => DBError (sql_error_text e)
  end.

Definition raise_tx {A} (e : exn) : TX A := fun db => (inl e, db).
Definition when_tx (b : bool) (m : TX unit) : TX unit := if b then m else mret tt.

(** [try: m except Exception as e: h e] around a statement: the failed
    statement has changed nothing. *)
Definition try_tx {A} (m : TX A) (h : exn -> TX A) : TX A := fun db =>
  match m db with
  | (inr a, db') => (inr a, db')
  | (inl e, _) => h e db
  end.

Section database.
Context `{PostgresServer}.

Definition stmt {A} (c : sql A) : TX A := fun db =>
  match sql_exec c db with
  | (inr a, db') => (inr a, db')
  | (inl e, db') => (inl (exn_of_sql e), db')
  end.

Definition next_db_tick (w : world) : db_fate * world :=
  match s_db_sched (w_services w) with
  | [] => (Commits, w)
  | t :: ts =>
      (dt_fate t, with_services w (Services (dt_env t (w_db w)) ts (w_files w) (w_tables w)))
  end.

Definition transaction {A} (t : TX A) : M A := fun w =>
  let (f, w') := next_db_tick w in
  match f with
  | Aborts e => (inl (exn_of_sql e), w')
  | Commits =>
      match t (w_db w') with
      | (inr a, db) => (inr a, with_db w' db)
      | (inl e, _) => (inl e, w')
      end
  | CommitLost =>
      match t (w_db w') with
      | (inr _, db) => (inl (exn_of_sql ServerGone), with_db w' db)
      | (inl e, _) => (inl e, w')
      end
  end.
End database.

(** ** Equations *)

Lemma tx_bind_run {A B} (f : A -> TX B) (m : TX A) db :
  (m ≫= f) db = match m db with (inr a, db') => f a db' | (inl e, db') => (inl e, db') end.
Proof. reflexivity. Qed.

Lemma tx_ret_run {A} (a : A) db : (mret a : TX A) db = (inr a, db).
Proof. reflexivity. Qed.

Lemma with_db_db w db : w_db (with_db w db) = db.
Proof. reflexivity. Qed.
Lemma with_db_redis w db : w_redis (with_db w db) = w_redis w.
Proof. reflexivity. Qed.
Lemma with_db_now w db : w_now (with_db w db) = w_now w.
Proof. reflexivity. Qed.
Lemma with_redis_db w ks : w_db (with_redis w ks) = w_db w.
Proof. reflexivity. Qed.
Lemma with_db_twice w db db' : with_db (with_db w db) db' = with_db w db'.
Proof. reflexivity. Qed.
Lemma with_db_same w : with_db w (w_db w) = w.
Proof. destruct w as [?????????[]]. reflexivity. Qed.
Lemma with_db_with_redis w db ks : with_db (with_redis w ks) db = with_redis (with_db w db) ks.
Proof. reflexivity. Qed.

Section database_lemmas.
Context `{PostgresLaws}.

Lemma stmt_ok {A} (c : sql A) db a db' :
  unordered c = false -> sql_run c db = (inr a, db') -> stmt c db = (inr a, db').
Proof. intros Hu Hr. unfold stmt. by rewrite sql_exec_run, Hr. Qed.

Lemma stmt_err {A} (c : sql A) db e db' :
  unordered c = false -> sql_run c db = (inl e, db') -> stmt c db = (inl (exn_of_sql e), db').
Proof. intros Hu Hr. unfold stmt. by rewrite sql_exec_run, Hr. Qed.

Lemma stmt_bind {A B} (c : sql A) (f : A -> TX B) db a db' :
  unordered c = false -> sql_run c db = (inr a, db') -> (stmt c ≫= f) db = f a db'.
Proof. intros Hu Hr. by rewrite tx_bind_run, (stmt_ok _ _ _ _ Hu Hr). Qed.

Lemma stmt_partitions db :
  exists l, stmt ListPartitions db = (inr l, db) /\ l ≡ₚ partition_list db.
Proof.
  destruct (sql_exec_partitions db) as (l & Hl & Hp). exists l.
  unfold stmt. by rewrite Hl.
Qed.

(** In a quiet environment a transaction runs atomically on the current
    database, and has no effect when it raises. *)
Lemma transaction_ok {A} (t : TX A) w a db :
  db_quiet w -> t (w_db w) = (inr a, db) -> transaction t w = (inr a, with_db w db).
Proof. unfold db_quiet, transaction, next_db_tick. intros -> Ht. by rewrite Ht. Qed.

Lemma transaction_err {A} (t : TX A) w e db :
  db_quiet w -> t (w_db w) = (inl e, db) -> transaction t w = (inl e, w).
Proof. unfold db_quiet, transaction, next_db_tick. intros -> Ht. by rewrite Ht. Qed.

(** A transaction never changes the keyspace, whatever its fate. *)
Lemma transaction_redis {A} (t : TX A) w : w_redis (transaction t w).2 = w_redis w.
Proof.
  unfold transaction, next_db_tick. destruct (s_db_sched (w_services w)) as [|tk ts].
  - by destruct (t (w_db w)) as [[] ?].
  - destruct (dt_fate tk); [| |]; try done; by destruct (t _) as [[] ?].
Qed.

Lemma keeps_transaction I {A} (t : TX A) : keeps I (transaction t).
Proof.
  intros w Hw Hi. split; [|by rewrite transaction_redis].
  unfold transaction, next_db_tick. destruct (s_db_sched (w_services w)) as [|tk ts].
  - by destruct (t (w_db w)) as [[] ?].
  - destruct (dt_fate tk); [| |]; try done; by destruct (t _) as [[] ?].
Qed.
End database_lemmas.

#[export] Hint Resolve keeps_transaction : geofast.

(** Runs the first statement of the goal's block. *)
Ltac run_stmt := erewrite stmt_bind; [|reflexivity|simpl; reflexivity]; cbv beta.
