(* ===== verification/Sha256.v ===== *)
(** * SHA-256 of Python's hashlib

    [sha256_hex s] is [hashlib.sha256(s.encode()).hexdigest()], used by
    app/db/features_partitions.py to name partitions.  Words are integers modulo
    2^32; the round constants are computed from the cube roots of the first
    sixty-four primes and the initial state from the square roots of the first
    eight, as the standard defines them. *)

From S2P Require Import Prelude.

Definition w32 (x : Z) : Z := Z.land x (2 ^ 32 - 1).
Definition rotr (n x : Z) : Z := w32 (Z.lor (Z.shiftr x n) (Z.shiftl x (32 - n))).

(** The largest [r] below [2 ^ bits] with [r ^ k <= n], bit by bit. *)
Fixpoint root_go (bits : nat) (k n r : Z) : Z :=
  match bits with
  | O => r
  | S b =>
      let r' := r + 2 ^ Z.of_nat b in
      root_go b k n (if r' ^ k <=? n then r' else r)
  end.

(** The first 32 bits of the fractional part of the [k]-th root of [p]. *)
Definition frac_root (k p : Z) : Z := w32 (root_go 40 k (p * 2 ^ (32 * k)) 0).

Definition is_prime (n : nat) : bool :=
  forallb (fun d => negb (Nat.eqb (Nat.modulo n d) 0)) (seq 2 (n - 2)).
Definition primes : list Z :=
  Eval vm_compute in map Z.of_nat (List.filter is_prime (seq 2 310)).

Definition round_constants : list Z := Eval vm_compute in map (frac_root 3) (firstn 64 primes).
Definition initial_state : list Z := Eval vm_compute in map (frac_root 2) (firstn 8 primes).

Definition bytes_of (s : string) : list Z :=
  map (fun c => Z.of_nat (Ascii.nat_of_ascii c)) (String.list_ascii_of_string s).

(** The message, a one bit, zeroes and the length in bits on eight bytes. *)
Definition pad (b : list Z) : list Z :=
  let n := Z.of_nat (length b) in
  (b ++ 128 :: repeat 0 (Z.to_nat ((55 - n) mod 64))
   ++ map (fun i => Z.land (Z.shiftr (8 * n) (8 * i)) 255) [7; 6; 5; 4; 3; 2; 1; 0])%list.

Fixpoint words_of (b : list Z) : list Z :=
  match b with
  | x :: y :: z :: t :: b' => (2 ^ 24 * x + 2 ^ 16 * y + 2 ^ 8 * z + t) :: words_of b'
  | _ => []
  end.

(** The message schedule, newest word first. *)
Fixpoint schedule (n : nat) (w : list Z) : list Z :=
  match n with
  | O => w
  | S n' =>
      let at_ i := nth i w 0 in
      let s0 := Z.lxor (Z.lxor (rotr 7 (at_ 14%nat)) (rotr 18 (at_ 14%nat))) (Z.shiftr (at_ 14%nat) 3) in
      let s1 := Z.lxor (Z.lxor (rotr 17 (at_ 1%nat)) (rotr 19 (at_ 1%nat))) (Z.shiftr (at_ 1%nat) 10) in
      schedule n' (w32 (at_ 15%nat + s0 + at_ 6%nat + s1) :: w)
  end.

Definition round (st : list Z) (kw : Z * Z) : list Z :=
  match st with
  | [a; b; c; d; e; f; g; h] =>
      let s1 := Z.lxor (Z.lxor (rotr 6 e) (rotr 11 e)) (rotr 25 e) in
      let ch := Z.lxor (Z.land e f) (Z.land (Z.lxor e (2 ^ 32 - 1)) g) in
      let t1 := h + s1 + ch + kw.1 + kw.2 in
      let s0 := Z.lxor (Z.lxor (rotr 2 a) (rotr 13 a)) (rotr 22 a) in
      let maj := Z.lxor (Z.lxor (Z.land a b) (Z.land a c)) (Z.land b c) in
      [w32 (t1 + s0 + maj); a; b; c; w32 (d + t1); e; f; g]
  | _ => st
  end.

Definition compress (st block : list Z) : list Z :=
  let w := rev (schedule 48 (rev block)) in
  map (fun p => w32 (p.1 + p.2)) (combine st (fold_left round (combine round_constants w) st)).

Fixpoint blocks (fuel : nat) (st words : list Z) : list Z :=
  match fuel, words with
  | S n, _ :: _ => blocks n (compress st (firstn 16 words)) (skipn 16 words)
  | _, _ => st
  end.

Definition hex_digit (z : Z) : Ascii.ascii :=
  Ascii.ascii_of_nat (Z.to_nat (if z <? 10 then 48 + z else 87 + z)).
Definition hex_word (w : Z) : string :=
  fold_right (fun i s => String (hex_digit (Z.land (Z.shiftr w (4 * i)) 15)) s) ""
    [7; 6; 5; 4; 3; 2; 1; 0].

(** One block consumes 64 bytes, so the length of the message is enough fuel. *)
Definition sha256_hex (s : string) : string :=
  fold_right (fun w acc => hex_word w +:+ acc) ""
    (blocks (S (String.length s)) initial_state (words_of (pad (bytes_of s)))).

Example sha256_abc : sha256_hex "abc" =
  "ba7816bf8f01cfea414140de5dae2223b00361a396177a9cb410ff61f20015ad".
Proof. by vm_compute. Qed.

Example sha256_two_blocks :
  sha256_hex "abcdbcdecdefdefgefghfghighijhijkijkljklmklmnlmnomnopnopq" =
  "248d6a61d20638b8e5c026930c3e6039a33ce45964ff2167f6ecedd419db06c1".
Proof. by vm_compute. Qed.
