(* ===== verification/Partitions.v ===== *)
(** * Partitions of the table features (app/db/features_partitions.py)

    Each collection owns one LIST partition of [features]; a replace import
    swaps its staging table in.  Blocks under [engine.begin()] are transactions
    of Database.v.  The advisory locks and [SET LOCAL] texts are sent as
    [Session] statements.  The retry loops on lock timeouts carry a fuel computed
    from the maximal wait; [lock_retry_terminates] shows it is never used up. *)

From S2P Require Import Prelude PyTime Redis Postgres World Database Sha256.

(** ** Names and bounds *)

(** [re.sub(r"\[^a-zA-Z0-9_\]", "_", s)]: one underscore per character. *)
Definition name_char (c : Ascii.ascii) : bool :=
  let n := Ascii.nat_of_ascii c in
  ((48 <=? n)%nat && (n <=? 57)%nat) || ((65 <=? n)%nat && (n <=? 90)%nat)
  || ((97 <=? n)%nat && (n <=? 122)%nat) || (n =? 95)%nat.

Fixpoint sub_name (s : string) : string :=
  match s with
  | EmptyString => EmptyString
  | String c s' =>
      if name_char c then String c (sub_name s')
      else if is_cont c then sub_name s' else String "_" (sub_name s')
  end.

(** [s.strip("_")] *)
Fixpoint lstrip_us (s : string) : string :=
  match s with
  | EmptyString => EmptyString
  | String c s' => if decide (c = "_"%char) then lstrip_us s' else s
  end.
Fixpoint rstrip_us (s : string) : string :=
  match s with
  | EmptyString => EmptyString
  | String c s' =>
      match rstrip_us s' with
      | EmptyString => if decide (c = "_"%char) then EmptyString else String c EmptyString
      | r => String c r
      end
  end.
Definition strip_us (s : string) : string := rstrip_us (lstrip_us s).

Definition safe_partition_name (c : string) : string :=
  let safe := str_or (strip_us (str_take 45 (sub_name c))) "default" in
  "features_" +:+ safe +:+ "_" +:+ str_take 8 (sha256_hex c).

(** [s.replace("'", "''")], [s.replace(" ", "")] and [s.replace("''", "'")] *)
Fixpoint double_quotes (s : string) : string :=
  match s with
  | EmptyString => EmptyString
  | String c s' =>
      if decide (c = "'"%char) then String "'" (String "'" (double_quotes s'))
      else String c (double_quotes s')
  end.
Fixpoint no_spaces (s : string) : string :=
  match s with
  | EmptyString => EmptyString
  | String c s' => if decide (c = " "%char) then no_spaces s' else String c (no_spaces s')
  end.
Fixpoint single_quotes (s : string) : string :=
  match s with
  | String "'" (String "'" s') => String "'" (single_quotes s')
  | String c s' => String c (single_quotes s')
  | EmptyString => EmptyString
  end.

Definition partition_bound_literal (c : string) : string :=
  no_spaces ("FOR VALUES IN ('" +:+ double_quotes c +:+ "')").

(** The regular expression of [_collection_id_from_bound], ignoring case: [IN],
    white space, an opening parenthesis and quote, text in which quotes are
    doubled, a closing quote and parenthesis.  [quoted_body] is the part after
    the opening quote; a lone quote ends the text, so there is one way to match. *)
Fixpoint quoted_body (s : string) : option string :=
  match s with
  | String "'" (String "'" s') => (fun b => String "'" (String "'" b)) <$> quoted_body s'
  | String "'" (String ")" _) => Some ""
  | String "'" _ => None
  | String c s' => String c <$> quoted_body s'
  | EmptyString => None
  end.

Definition match_in (s : string) : option string :=
  if startswith "in" (lower (str_take 2 s)) then
    match lstrip (str_drop 2 s) with
    | String "(" (String "'" s') => quoted_body s'
    | _ => None
    end
  else None.

Fixpoint search_in (s : string) : option string :=
  match match_in s with
  | Some b => Some b
  | None => match s with EmptyString => None | String _ s' => search_in s' end
  end.

Definition collection_id_from_bound (bound : string) : option string :=
  single_quotes <$> search_in bound.

(** [repr] of a string of printable characters, line feeds, returns and tabs. *)
Fixpoint repr_go (q : Ascii.ascii) (s : string) : string :=
  match s with
  | EmptyString => EmptyString
  | String c s' =>
      let r := repr_go q s' in
      if decide (c = q \/ c = "\"%char) then String "\" (String c r)
      else if decide (c = "010"%char) then "\n" +:+ r
      else if decide (c = "013"%char) then "\r" +:+ r
      else if decide (c = "009"%char) then "\t" +:+ r
      else String c r
  end.
Definition repr (s : string) : string :=
  let q := if contains "'" s && negb (contains dq s) then "034"%char else "'"%char in
  String q (repr_go q s +:+ String q "").

(** [f"{x:.0f}"] of a duration in microseconds: half to even. *)
Definition seconds0 (x : Z) : string :=
  let q := x / 1000000 in
  let r := x mod 1000000 in
  str_of_Z (if (500000 <? r) || ((r =? 500000) && Z.odd q) then q + 1 else q).

(** ** Statements of one connection *)

Section partitions.
Context `{PostgresServer} (cfg : Settings).

Fixpoint find_bound (target : string) (rows : list (string * string)) : option string :=
  match rows with
  | [] => None
  | (name, bound) :: rows' =>
      if decide (no_spaces bound = target)
      then (if decide (name = "") then None else Some name)
      else find_bound target rows'
  end.

Definition resolve_conn (c : string) : TX (option string) :=
  rows ← stmt ListPartitions;
  mret (find_bound (partition_bound_literal c) rows).

Definition partition_is_attached_conn (name : string) : TX bool := stmt (IsAttached name).
Definition table_exists_conn (name : string) : TX bool := stmt (TableExists name).

Definition drop_orphan_detached_partition_conn (staging canonical : string) : TX unit :=
  if decide (canonical = "" \/ canonical = staging) then mret tt
  else
    ex ← table_exists_conn canonical;
    if negb ex then mret tt
    else
      att ← partition_is_attached_conn canonical;
      if (att : bool) then mret tt else stmt (DropTable canonical true).

Definition migrate_default_rows (c : string) : TX unit :=
  stmt (InsertDefault c) ;; stmt (DeleteDefault c).

Definition create_partition_sync (c : string) : TX string :=
  let name := safe_partition_name c in
  stmt (CreatePartition name c) ;; mret name.

Definition advisory_lock_partition (c : string) : TX unit :=
  stmt (Session ("SELECT pg_advisory_xact_lock(hashtext('" +:+ c +:+ "')::bigint)")).

Definition swap_advisory_lock : TX unit :=
  stmt (Session ("SELECT pg_advisory_xact_lock(" +:+ str_of_Z 0xFEA70001 +:+ ")")).

(** ** Operations of the engine *)

Definition resolve_features_partition_relname_sync (c : string) : M (option string) :=
  transaction (resolve_conn c).

Definition partition_swap_already_complete_sync (c staging : string) : M bool :=
  transaction (
    att ← partition_is_attached_conn staging;
    if (att : bool) then mret true
    else live ← resolve_conn c; mret (bool_decide (live = Some staging))).

(** The nested [resolve] of the locked block reads on a second connection, before
    the block has written anything. *)
Definition ensure_locked (c : string) : TX string :=
  advisory_lock_partition c;;
  existing ← resolve_conn c;
  if truthy existing then migrate_default_rows c ;; mret (opt_str existing)
  else
    in_default ← stmt (CountDefault c);
    if 0 <? in_default then
      moved ← stmt (SelectDefault c);
      stmt (DeleteDefault c);;
      part ← create_partition_sync c;
      stmt (InsertRows moved);;
      mret part
    else
      try_tx (create_partition_sync c) (fun e =>
        let msg := lower (exn_str e) in
        if contains "already exists" msg || contains "duplicate" msg then
          again ← resolve_conn c;
          if truthy again then mret (opt_str again) else raise_tx e
        else raise_tx e).

Definition ensure_features_partition_sync (c : string) : M string :=
  existing ← resolve_features_partition_relname_sync c;
  if truthy existing then
    transaction (advisory_lock_partition c ;; migrate_default_rows c);;
    mret (opt_str existing)
  else transaction (ensure_locked c).

(** [_is_lock_timeout_error], of an exception the [except] clause catches. *)
Definition is_lock_timeout_error (e : exn) : bool :=
  let msg := lower (exn_str e) in
  contains "lock timeout" msg || contains "locknotavailable" msg || contains "55p03" msg.

Definition is_db_error (e : exn) : bool :=
  match e with DBError _ | IntegrityError _ => true | _ => false end.

(** The [while True] of the two callers; [None] says that the fuel is used up. *)
Fixpoint lock_retry {A} (fuel : nat) (attempt deadline : Z) (pause : Z -> Z) (timeout : Z -> exn)
    (body : M A) : M (option A) :=
  try_except (Some <$> body) (fun e =>
    if negb (is_db_error e && is_lock_timeout_error e) then raise e
    else
      now ← get_now;
      if deadline <=? now then raise (timeout attempt)
      else
        match fuel with
        | O => mret None
        | S fuel' =>
            sleep (pause attempt);;
            lock_retry fuel' (attempt + 1) deadline pause timeout body
        end).

(** One pause is at least a quarter of a second. *)
Definition lock_fuel (max_wait : Z) : nat := Z.to_nat (max_wait / 250000 + 1).

Definition until_locked {A} (max_wait : Z) (pause : Z -> Z) (timeout : Z -> exn) (body : M A) : M A :=
  now ← get_now;
  r ← lock_retry (lock_fuel max_wait) 1 (now + max_wait) pause timeout body;
  match r with Some a => mret a | None => raise (RuntimeError "fuel") end.

Definition lock_timeout_s : Z := Z.max (us 1) (int_or (bulk_swap_lock_timeout_seconds cfg) (us 5)).
Definition max_wait_s : Z :=
  Z.max lock_timeout_s (int_or (bulk_swap_lock_max_wait_seconds cfg) (us 600)).
Definition set_lock_timeout : TX unit :=
  stmt (Session ("SET LOCAL lock_timeout = " +:+ str_of_Z (lock_timeout_s / 1000))).
Definition skip_touch : TX unit :=
  when_tx (bulk_skip_features_touch_trigger cfg)
    (stmt (Session "SET LOCAL geofast.bulk_skip_features_touch = 'on'")).

(** The block of [drop_collection_features_data_sync]. *)
Definition drop_features_tx (c : string) : TX (option string) :=
  let canonical := safe_partition_name c in
  swap_advisory_lock;;
  advisory_lock_partition c;;
  set_lock_timeout;;
  skip_touch;;
  part ← resolve_conn c;
  (if truthy part
   then stmt (DetachPartition (opt_str part));; stmt (DropTable (opt_str part) true)
   else mret tt);;
  stmt (DeleteDefault c);;
  ex ← table_exists_conn canonical;
  orphan ← (if (ex : bool) then negb <$> partition_is_attached_conn canonical else mret false);
  if (orphan : bool) then
    stmt (DropTable canonical true);;
    mret (if truthy part then part else Some canonical)
  else mret part.

(** An aborted attempt leaves nothing: the name it may have stored in [dropped]
    before the lock timeout is not kept for the next one. *)
Definition drop_collection_features_data_sync (c : string) : M (option string) :=
  if bool_decide (c = "") || contains ".." c then raise (ValueError "invalid collection_id")
  else
    until_locked max_wait_s (fun attempt => Z.min (us 2) (250000 * attempt))
      (fun _ => TimeoutError ("Timed out dropping features partition for " +:+ repr c
                  +:+ " after " +:+ seconds0 max_wait_s +:+ "s (lock contention)"))
      (transaction (drop_features_tx c)).

Definition attached_of_row (row : string * string) : list (string * string) :=
  match collection_id_from_bound row.2 with
  | Some cid => if bool_decide (row.1 = "") || bool_decide (cid = "") then [] else [(row.1, cid)]
  | None => []
  end.

Definition list_attached_feature_partitions_sync : M (list (string * string)) :=
  transaction (rows ← stmt ListPartitions; mret (rows ≫= attached_of_row)).

(** The loop of [cleanup_detached_orphan_feature_partitions_sync]. *)
Fixpoint drop_orphans (rows : list (string * string)) : TX (list string) :=
  match rows with
  | [] => mret []
  | (attached, cid) :: rows' =>
      let canonical := safe_partition_name cid in
      if decide (canonical = attached) then drop_orphans rows'
      else
        ex ← table_exists_conn canonical;
        att ← (if (ex : bool) then partition_is_attached_conn canonical else mret true);
        if (att : bool) then drop_orphans rows'
        else
          stmt (DropTable canonical true);;
          dropped ← drop_orphans rows';
          mret (canonical :: dropped)
  end.

Definition cleanup_detached_orphan_feature_partitions_sync : M (list string) :=
  transaction (rows ← stmt ListPartitions; drop_orphans (rows ≫= attached_of_row)).

(** *** Swap *)

Definition check_name (staging : string) : string := str_take 63 ("chk_bound_" +:+ staging).

Definition prepare_staging_for_attach_sync (c staging : string) : M unit :=
  transaction (
    unlogged ← stmt (IsUnlogged staging);
    when_tx unlogged (stmt (SetLogged staging));;
    has_check ← stmt (HasConstraint staging (check_name staging));
    when_tx (negb has_check) (stmt (AddCheck staging (check_name staging) c))).

(** The block under the locks of [swap_staging_into_collection_partition_sync]. *)
Definition swap_tx (c staging : string) : TX unit :=
  let canonical_old := safe_partition_name c in
  swap_advisory_lock;;
  advisory_lock_partition c;;
  set_lock_timeout;;
  skip_touch;;
  stmt (DeleteDefault c);;
  att ← partition_is_attached_conn staging;
  if (att : bool) then drop_orphan_detached_partition_conn staging canonical_old
  else
    old_part ← resolve_conn c;
    if decide (old_part = Some staging)
    then drop_orphan_detached_partition_conn staging canonical_old
    else
      (if truthy old_part
       then stmt (DetachPartition (opt_str old_part));; stmt (DropTable (opt_str old_part) false)
       else mret tt);;
      drop_orphan_detached_partition_conn staging canonical_old;;
      stmt (AttachPartition staging c).

Definition swap_pause (attempt : Z) : Z := Z.min (us 5) (500000 * attempt).

Definition swap_timeout (c : string) (attempt : Z) : exn :=
  TimeoutError ("Partition swap for " +:+ repr c
    +:+ " could not acquire locks on `features` within " +:+ seconds0 max_wait_s +:+ "s ("
    +:+ str_of_Z attempt +:+ " attempts); busy readers kept the parent locked.").

Definition swap_staging_into_collection_partition_sync (c staging : string) : M unit :=
  prepare_staging_for_attach_sync c staging;;
  until_locked max_wait_s swap_pause (swap_timeout c) (transaction (swap_tx c staging)).

(** *** The asynchronous variant of the API *)

Definition partition_exists_for (c : string) : TX bool :=
  rows ← stmt ListPartitions;
  mret (existsb (fun row => bool_decide (no_spaces row.2 = partition_bound_literal c)) rows).

(** One session, committed at the end. *)
Definition ensure_features_partition (c : string) : M unit :=
  transaction (
    exists_ ← partition_exists_for c;
    when_tx (negb exists_) (stmt (CreatePartition (safe_partition_name c) c));;
    stmt (InsertDefault c);;
    stmt (DeleteDefault c)).
End partitions.

(** ** Names and bounds: lemmas *)

Lemma double_quotes_escape c : double_quotes c = escape_quotes c.
Proof. induction c as [|a c IH]; [done|]. simpl. case_decide; [subst|]; by rewrite IH. Qed.

Lemma no_spaces_app s t : no_spaces (s +:+ t) = no_spaces s +:+ no_spaces t.
Proof.
  induction s as [|a s IH]; [done|]. rewrite app_str_cons. simpl.
  case_decide; [done|]. by rewrite IH.
Qed.

Lemma no_spaces_quotes c : no_spaces (double_quotes c) = double_quotes (no_spaces c).
Proof.
  induction c as [|a c IH]; [done|]. simpl. repeat (case_decide; subst; simpl); try done; by rewrite IH.
Qed.

Lemma double_quotes_inj c c' : double_quotes c = double_quotes c' -> c = c'.
Proof.
  revert c'. induction c as [|a c IH]; intros [|a' c']; simpl; try done;
    repeat case_decide; subst; intros Hq; simplify_eq/=; try done; f_equal; by apply IH.
Qed.

Lemma app_str_inj_r s s' t : s +:+ t = s' +:+ t -> s = s'.
Proof.
  revert s'. induction s as [|a s IH]; intros [|a' s']; rewrite ?app_str_cons, ?app_str_nil_l; try done.
  - intros Hs. apply (f_equal String.length) in Hs. simpl in Hs. rewrite str_length_app in Hs. lia.
  - intros Hs. apply (f_equal String.length) in Hs. simpl in Hs. rewrite str_length_app in Hs. lia.
  - intros Hs. simplify_eq. f_equal. by apply IH.
Qed.

(** Two bounds look the same to the sources exactly when the collections differ
    in spaces only. *)
Lemma bound_literal_match c c' :
  no_spaces (bound_text c') = partition_bound_literal c <-> no_spaces c' = no_spaces c.
Proof.
  unfold partition_bound_literal, bound_text. rewrite <-double_quotes_escape.
  rewrite !no_spaces_app, !no_spaces_quotes. split; [|by intros ->].
  intros Hb. apply (inj (String.append _)) in Hb. apply app_str_inj_r in Hb.
  by apply double_quotes_inj.
Qed.

Lemma quoted_body_escape c s : quoted_body (escape_quotes c +:+ "')" +:+ s) = Some (escape_quotes c).
Proof.
  induction c as [|a c IH]; [done|]. simpl escape_quotes.
  destruct (decide (a = "'"%char)) as [->|Ha].
  - change (quoted_body (String "'" (String "'" (escape_quotes c +:+ "')" +:+ s)))
            = Some (String "'" (String "'" (escape_quotes c)))).
    cbn [quoted_body]. by rewrite IH.
  - change (quoted_body (String a (escape_quotes c +:+ "')" +:+ s))
            = Some (String a (escape_quotes c))).
    transitivity (String a <$> quoted_body (escape_quotes c +:+ "')" +:+ s)).
    + destruct a as [[] [] [] [] [] [] [] []]; try done.
    + by rewrite IH.
Qed.

Lemma single_quotes_escape c : single_quotes (escape_quotes c) = c.
Proof.
  induction c as [|a c IH]; [done|]. simpl escape_quotes.
  destruct (decide (a = "'"%char)) as [->|Ha].
  - cbn [single_quotes]. by rewrite IH.
  - transitivity (String a (single_quotes (escape_quotes c))); [|by rewrite IH].
    by destruct a as [[] [] [] [] [] [] [] []].
Qed.

Lemma search_in_skip a s :
  startswith "in" (lower (str_take 2 (String a s))) = false -> search_in (String a s) = search_in s.
Proof. intros Hs. cbn [search_in]. unfold match_in. by rewrite Hs. Qed.

Lemma search_in_bound t : search_in ("FOR VALUES IN ('" +:+ t) =
  match quoted_body t with Some b => Some b | None => search_in ("N ('" +:+ t) end.
Proof.
  rewrite !app_str_cons. do 11 (rewrite search_in_skip; [|reflexivity]). reflexivity.
Qed.

Lemma bound_text_read c : collection_id_from_bound (bound_text c) = Some c.
Proof.
  unfold collection_id_from_bound, bound_text. rewrite search_in_bound.
  rewrite <-(app_str_nil_r "')"). rewrite quoted_body_escape. simpl. by rewrite single_quotes_escape.
Qed.

Lemma find_bound_spec target rows :
  (forall row, row ∈ rows -> row.1 <> "") ->
  match find_bound target rows with
  | Some n => exists b, (n, b) ∈ rows /\ no_spaces b = target
  | None => forall row, row ∈ rows -> no_spaces row.2 <> target
  end.
Proof.
  induction rows as [|[n b] rows IH]; intros Hn; simpl; [by intros row Hr%not_elem_of_nil|].
  destruct (decide (no_spaces b = target)) as [Hb|Hb].
  - rewrite decide_False by (apply (Hn (n, b)); set_solver). exists b. set_solver.
  - assert (forall row, row ∈ rows -> row.1 <> "") as Hn' by set_solver.
    specialize (IH Hn'). destruct (find_bound target rows) as [m|].
    + destruct IH as (b' & ? & ?). exists b'. set_solver.
    + intros row [->|Hr]%elem_of_cons; [done|]. by apply IH.
Qed.

(** Every attached collection has an identifier without spaces. *)
Definition plain_db (db : database) : Prop :=
  forall c n, db_parts db !! c = Some n -> no_spaces c = c /\ n <> "".

Section statements.
Context `{PostgresLaws} (cfg : Settings).

Lemma resolve_run db c :
  plain_db db -> no_spaces c = c -> resolve_conn c db = (inr (db_parts db !! c), db).
Proof.
  intros Hp Hc. unfold resolve_conn. destruct (stmt_partitions db) as (rows & Hrows & Hperm).
  rewrite tx_bind_run, Hrows. unfold mret, TX_ret. do 2 f_equal.
  assert (forall n b, (n, b) ∈ rows <-> exists c', b = bound_text c' /\ db_parts db !! c' = Some n) as Hel.
  { intros n b. rewrite Hperm. unfold partition_list. rewrite list_elem_of_fmap. split.
    - intros ([c' n'] & ? & Hc'%elem_of_map_to_list). simplify_eq/=. by eexists.
    - intros (c' & -> & Hc'). exists (c', n). split; [done|]. by apply elem_of_map_to_list. }
  assert (forall row, row ∈ rows -> row.1 <> "") as Hne.
  { intros [n b] (c' & _ & Hc')%Hel. by apply Hp in Hc' as []. }
  pose proof (find_bound_spec (partition_bound_literal c) rows Hne) as Hf.
  destruct (find_bound _ rows) as [n|].
  - destruct Hf as (b & (c' & -> & Hc')%Hel & Hb). rewrite bound_literal_match in Hb.
    destruct (Hp _ _ Hc') as [Hs _]. congruence.
  - destruct (db_parts db !! c) as [n|] eqn:Hn; [|done].
    destruct (Hf (n, bound_text c)); [apply Hel; by eexists|]. by apply (proj2 (bound_literal_match c c)).
Qed.

Lemma attached_run db n : partition_is_attached_conn n db = (inr (is_attached db n), db).
Proof. by apply stmt_ok. Qed.

Lemma exists_run db n : table_exists_conn n db = (inr (has_table db n), db).
Proof. by apply stmt_ok. Qed.

Lemma session_run text db : stmt (Session text) db = (inr tt, db).
Proof. by apply stmt_ok. Qed.

Lemma skip_touch_run db : skip_touch cfg db = (inr tt, db).
Proof. unfold skip_touch, when_tx. case_match; [apply session_run|done]. Qed.

(** The orphan is the canonical table when it exists, is not attached and is
    not the staging table itself. *)
Definition without_orphan (db : database) (staging canonical : string) : database :=
  if bool_decide (canonical <> staging) && has_table db canonical && negb (is_attached db canonical)
  then drop_table db canonical else db.

Lemma drop_orphan_run db staging canonical :
  canonical <> "" ->
  drop_orphan_detached_partition_conn staging canonical db =
  (inr tt, without_orphan db staging canonical).
Proof.
  intros Hc. unfold drop_orphan_detached_partition_conn, without_orphan.
  destruct (decide (canonical = staging)) as [->|Hn].
  - rewrite decide_True by auto. by rewrite bool_decide_eq_false_2 by auto.
  - rewrite decide_False by (by intros [?|?]). rewrite bool_decide_eq_true_2 by done.
    rewrite tx_bind_run, exists_run. destruct (has_table db canonical) eqn:Ht; [|done]. cbn [negb].
    rewrite tx_bind_run, attached_run. destruct (is_attached db canonical); [done|].
    apply stmt_ok; [done|]. simpl. by rewrite Ht.
Qed.
End statements.

(** ** The swap *)

(** The database without the partition of [c]. *)
Definition retired (db : database) (c : string) : database :=
  match db_parts db !! c with Some old => drop_table (detach db old) old | None => db end.

Definition swapped (db : database) (c staging : string) : database :=
  let db1 := set_default db (not_of_coll c (db_default db)) in
  let db2 := without_orphan (retired db1 c) staging (safe_partition_name c) in
  set_parts db2 (<[c := staging]> (db_parts db2)).

(** What the caller of the swap has arranged: a detached staging table with
    rows of the collection under unique keys. *)
Record staged_for (db : database) (c staging : string) (t : table) : Prop := {
  st_table : db_tables db !! staging = Some t;
  st_keys : keys_unique (t_rows t) = true;
  st_coll : Forall (fun r => r_collection r = c) (t_rows t);
  st_free : is_attached db staging = false
}.

Lemma without_orphan_parts db s canon : db_parts (without_orphan db s canon) = db_parts db.
Proof.
  unfold without_orphan. destruct (is_attached db canon) eqn:Ha; rewrite ?andb_false_r; [done|].
  case_match; [|done]. by apply drop_unattached_parts.
Qed.

Lemma without_orphan_default db s canon : db_default (without_orphan db s canon) = db_default db.
Proof. unfold without_orphan. by case_match. Qed.

Lemma without_orphan_table db s canon n :
  n = s \/ is_attached db n = true ->
  db_tables (without_orphan db s canon) !! n = db_tables db !! n.
Proof.
  intros Hn. unfold without_orphan. case_match eqn:Hc; [|done].
  apply andb_true_iff in Hc as [[Hs%bool_decide_eq_true_1 _]%andb_true_iff Ha%negb_true_iff].
  rewrite drop_table_tables, lookup_delete_ne; [done|]. intros ->. destruct Hn; congruence.
Qed.

Lemma wf_without_orphan db s canon : db_wf db -> db_wf (without_orphan db s canon).
Proof.
  intros Hw. unfold without_orphan. case_match eqn:Hc; [|done].
  apply andb_true_iff in Hc as [_ Ha%negb_true_iff]. by apply wf_drop_unattached.
Qed.

Lemma retired_parts db c c' :
  db_wf db -> db_parts (retired db c) !! c' = if decide (c' = c) then None else db_parts db !! c'.
Proof.
  intros Hw. unfold retired. destruct (db_parts db !! c) as [old|] eqn:Hc.
  - rewrite drop_table_parts, !detach_lookup. destruct (decide (c' = c)) as [->|Hn].
    + rewrite Hc. by rewrite (decide_True _ _ eq_refl).
    + destruct (decide (db_parts db !! c' = Some old)) as [Hc'|Hc'].
      * destruct Hn. by eapply (wf_inj db Hw).
      * by rewrite decide_False.
  - case_decide; [by subst|done].
Qed.

Lemma retired_default db c : db_default (retired db c) = db_default db.
Proof. unfold retired. by case_match. Qed.

Lemma retired_table db c n :
  db_parts db !! c <> Some n -> db_tables (retired db c) !! n = db_tables db !! n.
Proof.
  intros Hn. unfold retired. case_match; [|done].
  rewrite drop_table_tables. cbn [detach set_parts db_tables]. rewrite lookup_delete_ne; congruence.
Qed.

Lemma wf_retired db c : db_wf db -> db_wf (retired db c).
Proof.
  intros Hw. split; rewrite ?retired_default.
  - intros c1 c2 n. rewrite !retired_parts by done. repeat case_decide; try done. apply Hw.
  - intros c1 n. rewrite retired_parts by done. case_decide as Hc1; [done|]. intros Hn.
    rewrite retired_table; [by apply Hw|]. intros Hc. destruct Hc1. by eapply (wf_inj db Hw).
  - intros c1 n. rewrite retired_parts by done. case_decide; [done|]. apply Hw.
  - apply Hw.
Qed.

Lemma wf_delete_default db c :
  db_wf db -> db_wf (set_default db (not_of_coll c (db_default db))).
Proof.
  intros Hw. split; try apply Hw.
  - intros c1 n Hn. cbn [set_default db_default db_parts] in *.
    destruct (decide (c = c1)) as [->|Hc]; [apply of_coll_not_of_coll|].
    rewrite of_coll_other by done. by eapply (wf_default db Hw).
  - cbn [set_default db_default]. eapply keys_unique_sublist, (wf_default_keys db Hw).
    apply not_of_coll_sublist.
Qed.

(** [ATTACH PARTITION] of a table that passes the checks. *)
Lemma attach_ok db c n t :
  staged_for db c n t -> db_parts db !! c = None -> of_coll c (db_default db) = [] ->
  attach db n c = inr (set_parts db (<[c := n]> (db_parts db))).
Proof.
  intros [Ht Hk Hc Hf] Hp Hd. unfold attach. rewrite Ht, Hf, Hk, Hd.
  rewrite bool_decide_eq_false_2 by (rewrite Hp; by intros []). cbn [negb].
  replace (forallb _ (t_rows t)) with true.
  - by rewrite bool_decide_eq_true_2.
  - symmetry. apply forallb_forall. intros r Hr. apply bool_decide_eq_true_2.
    rewrite List.Forall_forall in Hc. by apply Hc.
Qed.

Lemma attach_refuses db c n t :
  staged_for db c n t -> db_parts db !! c = None -> of_coll c (db_default db) <> [] ->
  exists e, attach db n c = inl e.
Proof.
  intros [Ht Hk Hc Hf] Hp Hd. unfold attach. rewrite Ht, Hf, Hk, Hp.
  rewrite bool_decide_eq_false_2 by (by intros []). cbn [negb].
  destruct (negb (forallb _ _)); [by eexists|]. rewrite bool_decide_eq_false_2 by done. by eexists.
Qed.

Lemma wf_attach db c n t :
  db_wf db -> staged_for db c n t -> db_parts db !! c = None -> of_coll c (db_default db) = [] ->
  db_wf (set_parts db (<[c := n]> (db_parts db))).
Proof.
  intros Hw [Ht Hk Hc Hf] Hp Hd. rewrite not_attached_spec in Hf.
  split; cbn [set_parts db_parts db_tables db_default].
  - intros c1 c2 m. rewrite !lookup_insert. repeat case_decide; subst; try done; intros ??; simplify_eq.
    + by destruct (Hf c2).
    + by destruct (Hf c1).
    + by eapply (wf_inj db Hw).
  - intros c1 m. rewrite lookup_insert. case_decide; subst; intros ?; simplify_eq; [by eauto|].
    by apply Hw.
  - intros c1 m. rewrite lookup_insert. case_decide; subst; intros ?; simplify_eq; [done|].
    by eapply (wf_default db Hw).
  - apply Hw.
Qed.

Lemma safe_partition_name_nonempty c : safe_partition_name c <> "".
Proof. unfold safe_partition_name. by rewrite app_str_cons. Qed.

(** The database the attach statement finds. *)
Definition before_attach (db : database) (c staging : string) : database :=
  without_orphan (retired (set_default db (not_of_coll c (db_default db))) c) staging
    (safe_partition_name c).

Lemma before_attach_parts db c s c' :
  db_wf db -> db_parts (before_attach db c s) !! c' = if decide (c' = c) then None else db_parts db !! c'.
Proof.
  intros Hw. unfold before_attach. rewrite without_orphan_parts, retired_parts; [done|].
  by apply wf_delete_default.
Qed.

Lemma before_attach_default db c s :
  db_default (before_attach db c s) = not_of_coll c (db_default db).
Proof. unfold before_attach. by rewrite without_orphan_default, retired_default. Qed.

Lemma wf_before_attach db c s : db_wf db -> db_wf (before_attach db c s).
Proof. intros Hw. by apply wf_without_orphan, wf_retired, wf_delete_default. Qed.

Lemma staged_before_attach db c s t :
  db_wf db -> staged_for db c s t -> staged_for (before_attach db c s) c s t.
Proof.
  intros Hw [Ht Hk Hc Hf]. split; try done.
  - unfold before_attach. rewrite without_orphan_table by auto. rewrite retired_table; [done|].
    cbn [set_default db_parts]. rewrite not_attached_spec in Hf. apply Hf.
  - rewrite not_attached_spec in Hf |- *. intros c'. rewrite before_attach_parts by done.
    case_decide; [done|]. apply Hf.
Qed.

Lemma before_attach_collections db c s : db_collections (before_attach db c s) = db_collections db.
Proof. unfold before_attach, without_orphan, retired. by repeat case_match. Qed.

(** The tables of the other collections survive the swap. *)
Lemma before_attach_table db c s c' n :
  db_wf db -> c' <> c -> db_parts db !! c' = Some n ->
  db_tables (before_attach db c s) !! n = db_tables db !! n.
Proof.
  intros Hw Hc Hn. pose proof (wf_delete_default db c Hw) as Hw1.
  unfold before_attach. rewrite without_orphan_table.
  - rewrite retired_table; [done|]. cbn [set_default db_parts]. intros Hn'.
    destruct Hc. by eapply (wf_inj db Hw).
  - right. apply is_attached_spec. exists c'. rewrite retired_parts by done.
    by rewrite decide_False.
Qed.

Section swap.
Context `{PostgresLaws} (cfg : Settings).

Lemma retire_run db c :
  db_wf db -> plain_db db ->
  (if truthy (db_parts db !! c)
   then stmt (DetachPartition (opt_str (db_parts db !! c)));;
        stmt (DropTable (opt_str (db_parts db !! c)) false)
   else mret tt : TX unit) db = (inr tt, retired db c).
Proof.
  intros Hw Hp. unfold retired. destruct (db_parts db !! c) as [old|] eqn:Hc; [|done].
  destruct (Hp _ _ Hc) as [_ Hne]. destruct (wf_part db Hw _ _ Hc) as (t & Ht & _).
  cbn [truthy opt_str default]. rewrite bool_decide_eq_false_2 by done. cbn [negb].
  change (id old) with old.
  rewrite tx_bind_run, (stmt_ok (DetachPartition old) db tt (detach db old)); [|done|].
  - apply stmt_ok; [done|]. simpl. unfold has_table. cbn [detach set_parts db_tables].
    by rewrite bool_decide_eq_true_2 by (by rewrite Ht).
  - simpl. rewrite (proj2 (is_attached_spec db old)) by eauto. done.
Qed.

Lemma swap_tx_run db c s t :
  db_wf db -> plain_db db -> no_spaces c = c -> staged_for db c s t ->
  swap_tx cfg c s db = (inr tt, set_parts (before_attach db c s)
                                  (<[c := s]> (db_parts (before_attach db c s)))).
Proof.
  intros Hw Hp Hc Hs. unfold swap_tx, swap_advisory_lock, advisory_lock_partition, set_lock_timeout.
  do 3 rewrite tx_bind_run, session_run. rewrite tx_bind_run, skip_touch_run.
  set (db1 := set_default db (not_of_coll c (db_default db))).
  rewrite tx_bind_run, (stmt_ok (DeleteDefault c) db tt db1) by done.
  rewrite tx_bind_run, attached_run. change (is_attached db1 s) with (is_attached db s).
  rewrite (st_free _ _ _ _ Hs). rewrite tx_bind_run, resolve_run by done.
  rewrite decide_False.
  2: { pose proof (st_free _ _ _ _ Hs) as Hf. rewrite not_attached_spec in Hf. apply Hf. }
  rewrite tx_bind_run, (retire_run db1) by (done || by apply wf_delete_default).
  rewrite tx_bind_run, drop_orphan_run by apply safe_partition_name_nonempty.
  change (without_orphan _ _ _) with (before_attach db c s).
  apply stmt_ok; [done|]. cbn [sql_run]. rewrite (attach_ok _ _ _ t); [done| | |].
  - by apply staged_before_attach.
  - rewrite before_attach_parts by done. by rewrite decide_True.
  - rewrite before_attach_default. apply of_coll_not_of_coll.
Qed.

Lemma swap_tx_done db c s :
  is_attached db s = true ->
  swap_tx cfg c s db = (inr tt, without_orphan (set_default db (not_of_coll c (db_default db))) s
                                  (safe_partition_name c)).
Proof.
  intros Ha. unfold swap_tx, swap_advisory_lock, advisory_lock_partition, set_lock_timeout.
  do 3 rewrite tx_bind_run, session_run. rewrite tx_bind_run, skip_touch_run.
  rewrite tx_bind_run, (stmt_ok (DeleteDefault c) db tt (set_default db (not_of_coll c (db_default db)))) by done.
  rewrite tx_bind_run, attached_run. change (is_attached (set_default _ _) s) with (is_attached db s).
  rewrite Ha. apply drop_orphan_run, safe_partition_name_nonempty.
Qed.

Lemma until_locked_ok {A} mw p to (m : M A) w a w' :
  m w = (inr a, w') -> until_locked mw p to m w = (inr a, w').
Proof.
  intros Hm. unfold until_locked. rewrite bind_run, get_now_run, bind_run.
  assert (forall f k d, lock_retry f k d p to m w = (inr (Some a), w')) as Hl.
  { intros [|f] k d; cbn [lock_retry]; apply try_except_ok; by rewrite fmap_run, Hm. }
  by rewrite Hl.
Qed.
End swap.

(** Replacing a table by one with the same rows. *)
Lemma live_rows_same_rows db n t t' c :
  db_tables db !! n = Some t -> t_rows t' = t_rows t ->
  live_rows (set_table db n t') c = live_rows db c.
Proof.
  intros Ht Hr. unfold live_rows, rows_of, set_table. cbn [set_tables db_parts db_tables db_default].
  destruct (db_parts db !! c) as [m|]; [|done]. rewrite lookup_insert. case_decide; [|done].
  subst. by rewrite Ht, Hr.
Qed.

Lemma wf_same_rows db n t t' :
  db_wf db -> db_tables db !! n = Some t -> t_rows t' = t_rows t -> db_wf (set_table db n t').
Proof.
  intros Hw Ht Hr. split; try apply Hw. intros c m Hm. cbn [set_table set_tables db_tables].
  rewrite lookup_insert. case_decide; [|by apply Hw]. subst m.
  destruct (wf_part db Hw _ _ Hm) as (t0 & Ht0 & Hk & Hc). simplify_eq. exists t'. by rewrite Hr.
Qed.

Lemma live_rows_without_orphan db s canon c :
  live_rows (without_orphan db s canon) c = live_rows db c.
Proof.
  apply live_rows_frame.
  - by rewrite without_orphan_parts.
  - intros n Hn. apply without_orphan_table. right. apply is_attached_spec. eauto.
  - by rewrite without_orphan_default.
Qed.

(** A collection with a partition has no rows in the default one to lose. *)
Lemma live_rows_delete_default db c c' :
  is_Some (db_parts db !! c) ->
  live_rows (set_default db (not_of_coll c (db_default db))) c' = live_rows db c'.
Proof.
  intros [n Hn]. unfold live_rows. cbn [set_default db_parts db_default].
  destruct (decide (c = c')) as [<-|Hc]; [by rewrite Hn|]. by rewrite of_coll_other.
Qed.

Section swap_properties.
Context `{PostgresLaws} (cfg : Settings).

Lemma prepare_attach_run w c s t :
  db_quiet w -> db_tables (w_db w) !! s = Some t -> Forall (fun r => r_collection r = c) (t_rows t) ->
  exists t', prepare_staging_for_attach_sync c s w = (inr tt, with_db w (set_table (w_db w) s t'))
    /\ t_rows t' = t_rows t.
Proof.
  intros Hq Ht Hc. set (t1 := Table (t_rows t) true (t_checks t)).
  set (t2 := Table (t_rows t) true (check_name s :: t_checks t)).
  exists (if bool_decide (check_name s ∈ t_checks t) then t1 else t2).
  split; [|by case_match]. apply transaction_ok; [done|].
  rewrite tx_bind_run, (stmt_ok (IsUnlogged s) _ (negb (t_logged t)) (w_db w)) by (simpl; by rewrite ?Ht).
  assert (when_tx (negb (t_logged t)) (stmt (SetLogged s)) (w_db w) =
          (inr tt, set_table (w_db w) s t1)) as Hlog.
  { destruct t as [rows [] checks]; cbn [t_logged negb when_tx].
    - unfold mret, TX_ret. do 2 f_equal. unfold set_table, t1. simpl in *.
      rewrite insert_id by done. by destruct (w_db w).
    - apply stmt_ok; [done|]. simpl. unfold with_table. by rewrite Ht. }
  rewrite tx_bind_run, Hlog.
  rewrite tx_bind_run, (stmt_ok (HasConstraint s (check_name s)) _
    (bool_decide (check_name s ∈ t_checks t)) (set_table (w_db w) s t1));
    [|done|by simpl; rewrite lookup_insert_eq].
  case_bool_decide; cbn [negb when_tx]; [done|]. apply stmt_ok; [done|]. cbn [sql_run].
  unfold with_table. cbn [set_table set_tables db_tables]. rewrite lookup_insert_eq.
  cbn [t1 t_rows t_logged t_checks]. rewrite (proj2 (forallb_forall _ _)).
  - unfold set_table. cbn [set_tables db_tables]. by rewrite insert_insert_eq.
  - intros r Hr. apply bool_decide_eq_true_2. rewrite List.Forall_forall in Hc. by apply Hc.
Qed.

(** The database after a swap, up to the storage mode and constraints of the
    staging table. *)
Lemma swap_run w c s t :
  db_quiet w -> db_wf (w_db w) -> plain_db (w_db w) -> no_spaces c = c ->
  staged_for (w_db w) c s t ->
  exists t', t_rows t' = t_rows t
    /\ db_wf (set_table (w_db w) s t') /\ staged_for (set_table (w_db w) s t') c s t'
    /\ swap_staging_into_collection_partition_sync cfg c s w =
       (inr tt, with_db w (set_parts (before_attach (set_table (w_db w) s t') c s)
          (<[c := s]> (db_parts (before_attach (set_table (w_db w) s t') c s))))).
Proof.
  intros Hq Hw Hp Hc Hs. pose proof Hs as [Ht Hk Hco Hf].
  destruct (prepare_attach_run w c s t Hq Ht Hco) as (t' & Hrun & Hr). exists t'.
  split; [done|]. split; [by eapply wf_same_rows|].
  assert (staged_for (set_table (w_db w) s t') c s t') as Hs'.
  { split; [by apply lookup_insert_eq|by rewrite Hr|by rewrite Hr|done]. }
  split; [done|]. unfold swap_staging_into_collection_partition_sync. rewrite bind_run, Hrun.
  apply until_locked_ok. erewrite transaction_ok; [reflexivity|done|].
  rewrite with_db_db. eapply swap_tx_run; try done. by eapply wf_same_rows.
Qed.
End swap_properties.

Lemma staging_ready `{PostgresLaws} db c s t :
  db_wf db -> staged_for db c s t ->
  db_wf (set_parts (before_attach db c s) (<[c := s]> (db_parts (before_attach db c s)))).
Proof.
  intros Hw Hs. eapply wf_attach.
  - by apply wf_before_attach.
  - by apply staged_before_attach.
  - rewrite before_attach_parts by done. by rewrite decide_True.
  - rewrite before_attach_default. apply of_coll_not_of_coll.
Qed.

(** The rows of every collection after the attachment. *)
Lemma live_rows_swapped db c s t c' :
  db_wf db -> staged_for db c s t ->
  live_rows (set_parts (before_attach db c s) (<[c := s]> (db_parts (before_attach db c s)))) c' =
  if decide (c' = c) then t_rows t else live_rows db c'.
Proof.
  intros Hw Hs. case_decide as Hc.
  - subst c'. unfold live_rows, rows_of. cbn [set_parts db_parts db_tables]. rewrite lookup_insert_eq.
    rewrite (st_table _ _ _ _ (staged_before_attach _ _ _ _ Hw Hs)).
    apply of_coll_all, (st_coll _ _ _ _ Hs).
  - apply live_rows_frame; cbn [set_parts db_parts db_tables db_default].
    + rewrite lookup_insert_ne by done. rewrite before_attach_parts by done. by rewrite decide_False.
    + intros n Hn. by eapply before_attach_table.
    + rewrite before_attach_default. by apply of_coll_other.
Qed.

(** ** Creating a partition *)

Definition new_part (db : database) (c n : string) : database :=
  set_parts (set_table db n (Table [] true [])) (<[c := n]> (db_parts db)).

Lemma no_table_free db n : db_wf db -> has_table db n = false -> is_attached db n = false.
Proof.
  intros Hw Hn. apply not_attached_spec. intros c Hc.
  destruct (wf_part db Hw _ _ Hc) as (t & Ht & _). unfold has_table in Hn.
  apply bool_decide_eq_false_1 in Hn. apply Hn. by exists t.
Qed.

Lemma new_part_staged db c n :
  db_wf db -> has_table db n = false ->
  staged_for (set_table db n (Table [] true [])) c n (Table [] true []).
Proof.
  intros Hw Hn. split; [apply lookup_insert_eq|done|by apply Forall_nil|exact (no_table_free db n Hw Hn)].
Qed.

Lemma create_partition_ok db c n :
  db_wf db -> has_table db n = false -> db_parts db !! c = None -> of_coll c (db_default db) = [] ->
  create_partition db n c = inr (new_part db c n).
Proof.
  intros Hw Hn Hp Hd. unfold create_partition. rewrite Hn.
  by erewrite attach_ok by (by apply new_part_staged || done).
Qed.

Lemma wf_new_table db n t : db_wf db -> has_table db n = false -> db_wf (set_table db n t).
Proof.
  intros Hw Hn. split; try apply Hw. intros c m Hm. cbn [set_table set_tables db_tables].
  destruct (wf_part db Hw _ _ Hm) as (t0 & Ht0 & ?). exists t0. rewrite lookup_insert_ne; [done|].
  intros ->. unfold has_table in Hn. apply bool_decide_eq_false_1 in Hn. apply Hn. by exists t0.
Qed.

Lemma wf_new_part db c n :
  db_wf db -> has_table db n = false -> db_parts db !! c = None -> of_coll c (db_default db) = [] ->
  db_wf (new_part db c n).
Proof.
  intros Hw Hn Hp Hd.
  apply (wf_attach (set_table db n (Table [] true [])) c n (Table [] true [])); try done.
  - by apply wf_new_table.
  - by apply new_part_staged.
Qed.

Lemma live_rows_new_part db c n c' :
  db_wf db -> has_table db n = false ->
  live_rows (new_part db c n) c' = if decide (c' = c) then [] else live_rows db c'.
Proof.
  intros Hw Hn. case_decide as Hc.
  - subst. unfold live_rows, rows_of, new_part. cbn. rewrite lookup_insert_eq.
    by rewrite lookup_insert_eq.
  - apply live_rows_frame; [by apply lookup_insert_ne| |done].
    intros m Hm. apply lookup_insert_ne. intros ->.
    eapply not_attached_spec; [|exact Hm]. by apply no_table_free.
Qed.

(** Rows routed to one partition are appended to it in order. *)
Lemma insert_rows_part c n l : forall db t,
  db_parts db !! c = Some n -> db_tables db !! n = Some t ->
  Forall (fun r => r_collection r = c) l -> keys_unique (t_rows t ++ l)%list = true ->
  exists t', insert_rows db l = inr (set_table db n t') /\ t_rows t' = (t_rows t ++ l)%list.
Proof.
  induction l as [|r l IH]; intros db t Hp Ht Hc Hk.
  - exists t. rewrite app_nil_r. split; [|done]. simpl. f_equal. unfold set_table.
    rewrite insert_id by done. by destruct db.
  - apply Forall_cons in Hc as [Hr Hc]. cbn [insert_rows]. unfold insert_row. rewrite Hr, Hp.
    unfold rows_of. rewrite Ht. unfold keys_unique in Hk. rewrite bool_decide_eq_true in Hk.
    rewrite bool_decide_eq_false_2.
    2: { rewrite map_app in Hk. apply NoDup_app in Hk as (_ & Hk & _). intros Hin.
         by apply (Hk _ Hin), list_elem_of_here. }
    unfold set_rows. rewrite Ht. fold (set_tables db (<[n := Table (t_rows t ++ [r]) (t_logged t) (t_checks t)]> (db_tables db))).
    set (t1 := Table (t_rows t ++ [r])%list (t_logged t) (t_checks t)).
    change (set_tables db _) with (set_table db n t1).
    destruct (IH (set_table db n t1) t1) as (t' & Hi & Hr'); try done.
    + apply lookup_insert_eq.
    + cbn [t1 t_rows]. rewrite <-app_assoc. by apply bool_decide_eq_true_2.
    + exists t'. rewrite Hi. split; [|by rewrite Hr'; cbn [t1 t_rows]; rewrite <-app_assoc].
      unfold set_table. cbn [set_tables db_tables db_parts db_default db_collections].
      by rewrite insert_insert_eq.
Qed.

(** ** Properties *)

(** A replace import publishes exactly the staged rows: from a well-formed
    database the swap succeeds, afterwards the collection's live rows are the
    rows of the staging table, every other collection reads as before, the
    database is well formed again and Redis is untouched. *)
Theorem swap_publishes_staging `{PostgresLaws} (cfg : Settings) (w : world) (c s : string) (t : table) :
  db_quiet w -> db_wf (w_db w) -> plain_db (w_db w) -> no_spaces c = c ->
  staged_for (w_db w) c s t ->
  exists w', swap_staging_into_collection_partition_sync cfg c s w = (inr tt, w')
    /\ live_rows (w_db w') c = t_rows t
    /\ (forall c', c' <> c -> live_rows (w_db w') c' = live_rows (w_db w) c')
    /\ db_wf (w_db w') /\ w_redis w' = w_redis w.
Proof.
  intros Hq Hw Hp Hc Hs. destruct (swap_run cfg w c s t) as (t' & Hr & Hw' & Hs' & Hrun); try done.
  eexists. split; [exact Hrun|]. rewrite with_db_db. split; [|split; [|split]].
  - rewrite (live_rows_swapped _ _ _ t') by done. by rewrite decide_True.
  - intros c' Hc'. rewrite (live_rows_swapped _ _ _ t') by done. rewrite decide_False by done.
    eapply live_rows_same_rows; [apply (st_table _ _ _ _ Hs)|done].
  - by eapply staging_ready.
  - done.
Qed.

(** Promotion is safe to repeat: when the staging table is already attached
    the swap succeeds without changing the rows of any collection. *)
Theorem swap_idempotent `{PostgresLaws} (cfg : Settings) (w : world) (c s : string) :
  db_quiet w -> db_wf (w_db w) -> db_parts (w_db w) !! c = Some s ->
  exists w', swap_staging_into_collection_partition_sync cfg c s w = (inr tt, w')
    /\ (forall c', live_rows (w_db w') c' = live_rows (w_db w) c')
    /\ db_parts (w_db w') = db_parts (w_db w).
Proof.
  intros Hq Hw Hs. destruct (wf_part _ Hw _ _ Hs) as (t & Ht & _ & Hco).
  destruct (prepare_attach_run w c s t Hq Ht Hco) as (t' & Hrun & Hr).
  assert (is_attached (set_table (w_db w) s t') s = true) as Ha by (apply is_attached_spec; by exists c).
  eexists. split.
  - unfold swap_staging_into_collection_partition_sync. rewrite bind_run, Hrun. apply until_locked_ok.
    apply transaction_ok; [done|]. rewrite with_db_db. by apply swap_tx_done.
  - rewrite with_db_db. split; [|by rewrite without_orphan_parts]. intros c'.
    rewrite live_rows_without_orphan, live_rows_delete_default by (by eexists).
    by eapply live_rows_same_rows.
Qed.

(** *** The retry loop *)

Create HintDb db_only discriminated.

(** Blocks that raise errors of the database driver only. *)
Definition db_only {A} (t : TX A) : Prop :=
  forall db e db', t db = (inl e, db') -> is_db_error e = true.

Section db_only.
Context `{PostgresServer} (cfg : Settings).

Lemma db_only_ret {A} (a : A) : db_only (mret a).
Proof. by intros db e db'. Qed.

Lemma db_only_bind {A B} (m : TX A) (f : A -> TX B) :
  db_only m -> (forall a, db_only (f a)) -> db_only (m ≫= f).
Proof.
  intros Hm Hf db e db'. rewrite tx_bind_run. destruct (m db) as [[e1|a] db1] eqn:Hr.
  - intros Heq. simplify_eq. by eapply Hm.
  - apply Hf.
Qed.

Lemma db_only_stmt {A} (q : sql A) : db_only (stmt q).
Proof.
  intros db e db'. unfold stmt. destruct (sql_exec q db) as [[e1|a] db1]; [|done].
  intros Heq. simplify_eq. by destruct e1.
Qed.

Lemma db_only_when b (m : TX unit) : db_only m -> db_only (when_tx b m).
Proof. by destruct b. Qed.

#[local] Hint Resolve db_only_ret db_only_bind db_only_stmt db_only_when : db_only.

Lemma db_only_orphan s canon : db_only (drop_orphan_detached_partition_conn s canon).
Proof.
  unfold drop_orphan_detached_partition_conn. case_decide; [apply db_only_ret|].
  apply db_only_bind; [apply db_only_stmt|]. intros ex. case_match; [apply db_only_ret|].
  apply db_only_bind; [apply db_only_stmt|]. intros att. case_match; auto with db_only.
Qed.

Lemma db_only_resolve c : db_only (resolve_conn c).
Proof. apply db_only_bind; [apply db_only_stmt|]. intros rows. apply db_only_ret. Qed.

Lemma db_only_swap c s : db_only (swap_tx cfg c s).
Proof.
  unfold swap_tx, swap_advisory_lock, advisory_lock_partition, set_lock_timeout.
  do 3 (apply db_only_bind; [apply db_only_stmt|]; intros _).
  apply db_only_bind; [apply db_only_when, db_only_stmt|]. intros _.
  apply db_only_bind; [apply db_only_stmt|]. intros _.
  apply db_only_bind; [apply db_only_stmt|]. intros att. case_match; [apply db_only_orphan|].
  apply db_only_bind; [apply db_only_resolve|]. intros old.
  case_decide; [apply db_only_orphan|].
  apply db_only_bind; [case_match; auto with db_only|]. intros _.
  apply db_only_bind; [apply db_only_orphan|]. intros _. apply db_only_stmt.
Qed.

Lemma transaction_db_only {A} (t : TX A) w e w' :
  db_only t -> transaction t w = (inl e, w') -> is_db_error e = true.
Proof.
  intros Ht. unfold transaction. destruct (next_db_tick w) as [[|e'|] w1].
  - destruct (t (w_db w1)) as [[e1|a] db] eqn:Hr; [|done]. intros Heq. simplify_eq. by eapply Ht.
  - intros Heq. simplify_eq. by destruct e'.
  - destruct (t (w_db w1)) as [[e1|a] db] eqn:Hr; intros Heq; simplify_eq; [by eapply Ht|done].
Qed.

(** Transactions take no time of their own in the model. *)
Lemma transaction_now {A} (t : TX A) w : w_now (transaction t w).2 = w_now w.
Proof.
  unfold transaction, next_db_tick. destruct (s_db_sched (w_services w)) as [|tk ts].
  - by destruct (t (w_db w)) as [[] ?].
  - destruct (dt_fate tk); [| |]; try done; by destruct (t _) as [[] ?].
Qed.

(** The loop ends within the deadline and one last pause, with a value, an
    error of the driver or the timeout. *)
Lemma lock_retry_ends {A} (t : TX A) (pause : Z -> Z) (timeout : Z -> exn) (p : Z) deadline :
  db_only t -> (forall k, 1 <= k -> 250000 <= pause k <= p) ->
  forall fuel w k, 1 <= k -> deadline - w_now w <= Z.of_nat fuel * 250000 ->
  let out := lock_retry fuel k deadline pause timeout (transaction t) w in
  w_now out.2 <= Z.max (w_now w) (deadline + p)
  /\ match out.1 with
     | inr r => r <> None
     | inl e => is_db_error e = true \/ exists n, e = timeout n
     end.
Proof.
  intros Ht Hp. induction fuel as [|fuel IH]; intros w k Hk Hf; cbn [lock_retry];
    pose proof (transaction_now t w) as Hnow;
    (destruct (transaction t w) as [[e|a] w1] eqn:Hr;
     [rewrite (try_except_err _ _ _ e w1) by (by rewrite fmap_run, Hr)
     |rewrite (try_except_ok _ _ _ (Some a) w1) by (by rewrite fmap_run, Hr);
      simpl in *; split; [lia|done]]);
    pose proof (transaction_db_only _ _ _ _ Ht Hr) as He; rewrite He; cbn [andb]; simpl in Hnow;
    (destruct (is_lock_timeout_error e); cbn [negb]; [|simpl; split; [lia|by left]]);
    rewrite bind_run, get_now_run;
    (destruct (Z.leb_spec deadline (w_now w1)) as [Hd|Hd];
     [simpl; split; [lia|right; by eexists]|]).
  - simpl in Hf. lia.
  - rewrite bind_run. cbn [sleep]. set (w2 := World _ _ _ _ _ _ _ _ _ _).
    specialize (Hp k Hk). destruct (IH w2 (k + 1)) as [Hn Hr2]; [lia|simpl; lia|].
    split; [|exact Hr2]. simpl in Hn. lia.
Qed.
End db_only.

(** *** Ensuring a partition *)

Section ensure.
Context `{PostgresLaws} (cfg : Settings).

Lemma resolve_sync_run w c :
  db_quiet w -> plain_db (w_db w) -> no_spaces c = c ->
  resolve_features_partition_relname_sync c w = (inr (db_parts (w_db w) !! c), w).
Proof.
  intros Hq Hp Hc. unfold resolve_features_partition_relname_sync.
  rewrite (transaction_ok _ _ _ (w_db w) Hq (resolve_run _ c Hp Hc)). by rewrite with_db_same.
Qed.

(** With a partition there is nothing to migrate. *)
Lemma migrate_run db c n :
  db_wf db -> db_parts db !! c = Some n ->
  migrate_default_rows c db = (inr tt, set_default db (not_of_coll c (db_default db))).
Proof.
  intros Hw Hn. unfold migrate_default_rows. rewrite tx_bind_run, (stmt_ok (InsertDefault c) db tt db).
  - by apply stmt_ok.
  - done.
  - simpl. by rewrite (wf_default db Hw _ _ Hn).
Qed.

(** A first partition takes over the rows of the default one. *)
Lemma ensure_locked_run db c :
  db_wf db -> plain_db db -> no_spaces c = c -> db_parts db !! c = None ->
  has_table db (safe_partition_name c) = false ->
  exists t, t_rows t = of_coll c (db_default db)
    /\ ensure_locked c db =
       (inr (safe_partition_name c),
        set_table (new_part (set_default db (not_of_coll c (db_default db))) c (safe_partition_name c))
          (safe_partition_name c) t).
Proof.
  intros Hw Hp Hc Hn Ht. unfold ensure_locked, advisory_lock_partition.
  rewrite tx_bind_run, session_run, tx_bind_run, resolve_run, Hn by done. cbn [truthy].
  set (moved := of_coll c (db_default db)).
  rewrite tx_bind_run, (stmt_ok (CountDefault c) db (Z.of_nat (length moved)) db) by done.
  set (db1 := set_default db (not_of_coll c (db_default db))). set (n := safe_partition_name c).
  assert (create_partition_sync c db1 = (inr n, new_part db1 c n)) as Hcreate.
  { unfold create_partition_sync. rewrite tx_bind_run, (stmt_ok _ db1 tt (new_part db1 c n)); try done.
    cbn [sql_run]. rewrite create_partition_ok; try done; [by apply wf_delete_default|].
    apply of_coll_not_of_coll. }
  destruct (Z.ltb_spec 0 (Z.of_nat (length moved))) as [Hlen|Hlen].
  - rewrite tx_bind_run, (stmt_ok (SelectDefault c) db moved db) by done.
    rewrite tx_bind_run, (stmt_ok (DeleteDefault c) db tt db1) by done.
    rewrite tx_bind_run, Hcreate.
    destruct (insert_rows_part c n moved (new_part db1 c n) (Table [] true [])) as (t & Hi & Hr).
    + apply lookup_insert_eq.
    + apply lookup_insert_eq.
    + apply List.Forall_forall. intros r [_ Hr%bool_decide_eq_true_1]%filter_In. done.
    + eapply keys_unique_sublist, (wf_default_keys db Hw). apply of_coll_sublist.
    + exists t. split; [done|]. rewrite tx_bind_run, (stmt_ok (InsertRows moved) _ tt (set_table (new_part db1 c n) n t));
        [done|done|]. cbn [sql_run]. by rewrite Hi.
  - assert (moved = []) as Hmoved by (destruct moved; [done|simpl in Hlen; lia]).
    exists (Table [] true []). split; [by rewrite Hmoved|].
    assert (db1 = db) as Hdb1.
    { unfold db1. rewrite not_of_coll_id by done. by destruct db. }
    unfold try_tx. rewrite <-Hdb1 at 1. rewrite Hcreate. f_equal.
    unfold new_part, set_table, set_parts, set_tables. simpl. by rewrite insert_insert_eq.
Qed.
End ensure.

(** [ensure_features_partition_sync] gives a collection a partition and moves
    its rows there: it succeeds, the collection has a partition under the
    returned name, and every collection, this one included, has the same live
    rows as before.  It needs the canonical table name to be free when there is
    no partition yet. *)
Theorem ensure_partition_keeps_rows `{PostgresLaws} (w : world) (c : string) :
  db_quiet w -> db_wf (w_db w) -> plain_db (w_db w) -> no_spaces c = c ->
  (db_parts (w_db w) !! c = None -> has_table (w_db w) (safe_partition_name c) = false) ->
  exists name w', ensure_features_partition_sync c w = (inr name, w')
    /\ db_parts (w_db w') !! c = Some name
    /\ (forall c', live_rows (w_db w') c' = live_rows (w_db w) c').
Proof.
  intros Hq Hw Hp Hc Hfree. unfold ensure_features_partition_sync.
  rewrite bind_run, resolve_sync_run by done.
  destruct (db_parts (w_db w) !! c) as [n|] eqn:Hn.
  - destruct (Hp _ _ Hn) as [_ Hne]. cbn [truthy opt_str default].
    rewrite bool_decide_eq_false_2 by done. cbn [negb]. exists n. eexists. split.
    + rewrite bind_run. erewrite transaction_ok; [reflexivity|done|].
      unfold advisory_lock_partition. rewrite tx_bind_run, session_run. by eapply migrate_run.
    + rewrite with_db_db. split; [done|]. intros c'. apply live_rows_delete_default. by eexists.
  - cbn [truthy]. destruct (ensure_locked_run (w_db w) c) as (t & Hr & Hrun); try done; [by apply Hfree|].
    eexists _, _. split; [by apply transaction_ok|]. rewrite with_db_db.
    split; [apply lookup_insert_eq|]. intros c'. unfold live_rows, rows_of, new_part. cbn.
    destruct (decide (c = c')) as [<-|Hc'].
    + rewrite !lookup_insert_eq, Hr, Hn. apply of_coll_idem.
    + rewrite lookup_insert_ne by done.
      destruct (db_parts (w_db w) !! c') as [m|] eqn:Hm; [|by apply (of_coll_other c c')].
      assert (safe_partition_name c <> m) as Hne.
      { intros <-. eapply (proj1 (not_attached_spec (w_db w) _)); [|exact Hm].
        apply no_table_free; auto. }
      by rewrite !lookup_insert_ne by done.
Qed.

Lemma prepare_attach_ends `{PostgresServer} c s w :
  w_now (prepare_staging_for_attach_sync c s w).2 = w_now w
  /\ match (prepare_staging_for_attach_sync c s w).1 with
     | inl e => is_db_error e = true | inr _ => True
     end.
Proof.
  split; [apply transaction_now|].
  destruct (prepare_staging_for_attach_sync c s w) as [[e|[]] w1] eqn:Hprep; [|done].
  eapply transaction_db_only; [|exact Hprep].
  apply db_only_bind; [apply db_only_stmt|]. intros u.
  apply db_only_bind; [apply db_only_when, db_only_stmt|]. intros _.
  apply db_only_bind; [apply db_only_stmt|]. intros h. apply db_only_when, db_only_stmt.
Qed.

(** The swap never waits for ever: whatever other sessions do and whichever
    transactions fail, it ends no later than five seconds after the maximal
    wait, and either succeeds, raises an error of the database driver or
    raises the timeout (the bound on the loop's iterations is never hit). *)
Theorem swap_terminates `{PostgresServer} (cfg : Settings) (w : world) (c s : string) :
  let out := swap_staging_into_collection_partition_sync cfg c s w in
  w_now out.2 <= w_now w + max_wait_s cfg + us 5
  /\ match out.1 with
     | inr _ => True
     | inl (TimeoutError _) => True
     | inl e => is_db_error e = true
     end.
Proof.
  cbv zeta. unfold swap_staging_into_collection_partition_sync.
  assert (us 1 <= max_wait_s cfg) as Hmw by (unfold max_wait_s, lock_timeout_s; lia).
  unfold us in *. rewrite bind_run. destruct (prepare_attach_ends c s w) as [Hnow Hprep].
  destruct (prepare_staging_for_attach_sync c s w) as [[e|[]] w1]; simpl in Hnow, Hprep.
  - split; [simpl; lia|]. by destruct e.
  - unfold until_locked. rewrite bind_run, get_now_run, bind_run.
    destruct (lock_retry_ends (swap_tx cfg c s) swap_pause (swap_timeout cfg c) 5000000
      (w_now w1 + max_wait_s cfg) (db_only_swap cfg c s)) with
      (fuel := lock_fuel (max_wait_s cfg)) (w := w1) (k := 1) as [Hn Hr];
      [unfold swap_pause, us; lia|lia| |].
    { unfold lock_fuel. rewrite Z2Nat.id; [|apply Z.add_nonneg_nonneg; [apply Z.div_pos|]; lia].
      pose proof (Z.mul_succ_div_gt (max_wait_s cfg) 250000). lia. }
    destruct (lock_retry _ _ _ _ _ _ w1) as [[e|[a|]] w2]; simpl in *; (split; [lia|]); [|done|done].
    by destruct Hr as [He|[n ->]]; [destruct e|].
Qed.

(** The catalogue is read back exactly: the listing of attached partitions
    pairs a table with a collection if and only if the table is attached for
    that collection (quotes in identifiers included). *)
Theorem listing_reads_catalogue `{PostgresLaws} (w : world) :
  db_quiet w -> (forall c n, db_parts (w_db w) !! c = Some n -> c <> "" /\ n <> "") ->
  exists l, list_attached_feature_partitions_sync w = (inr l, w)
    /\ forall c n, (n, c) ∈ l <-> db_parts (w_db w) !! c = Some n.
Proof.
  intros Hq Hne. destruct (stmt_partitions (w_db w)) as (rows & Hrows & Hperm).
  exists (rows ≫= attached_of_row). split.
  - unfold list_attached_feature_partitions_sync. erewrite transaction_ok; [|done|].
    + by rewrite with_db_same.
    + by rewrite tx_bind_run, Hrows.
  - intros c n. rewrite list_elem_of_bind. split.
    + intros ([m b] & Hin & Hrow). rewrite Hperm in Hrow. unfold partition_list in Hrow.
      apply list_elem_of_fmap in Hrow as ([c' n'] & Heq & Hc'%elem_of_map_to_list). simplify_eq/=.
      unfold attached_of_row in Hin. cbn [fst snd] in Hin. rewrite bound_text_read in Hin.
      case_match; [by apply not_elem_of_nil in Hin|]. apply list_elem_of_singleton in Hin. by simplify_eq.
    + intros Hc. exists (n, bound_text c). destruct (Hne _ _ Hc). split.
      * unfold attached_of_row. cbn [fst snd]. rewrite bound_text_read.
        rewrite !bool_decide_eq_false_2 by done. by apply list_elem_of_singleton.
      * rewrite Hperm. apply list_elem_of_fmap. exists (c, n). split; [done|].
        by apply elem_of_map_to_list.
Qed.

(** A database with one attached collection. *)
Definition one_part (c n : string) (t : table) (rest : gmap string table) (def : list frow) : database :=
  Db (<[n := t]> rest) {[ c := n ]} def ∅.

Lemma one_part_wf c n t rest def :
  keys_unique (t_rows t) = true -> Forall (fun r => r_collection r = c) (t_rows t) ->
  of_coll c def = [] -> keys_unique def = true -> db_wf (one_part c n t rest def).
Proof.
  intros Hk Hc Hd Hu. split; unfold one_part; cbn [db_parts db_tables db_default]; [| | |done].
  - intros c1 c2 m [<- _]%lookup_singleton_Some [<- _]%lookup_singleton_Some. done.
  - intros c1 m [<- <-]%lookup_singleton_Some. exists t. by rewrite lookup_insert_eq.
  - by intros c1 m [<- <-]%lookup_singleton_Some.
Qed.

Lemma one_part_plain c n t rest def : no_spaces c = c -> n <> "" -> plain_db (one_part c n t rest def).
Proof. intros Hc Hn c1 m. cbn. by intros [<- <-]%lookup_singleton_Some. Qed.

Definition in_db (db : database) : world := with_db empty_world db.

(** Collections whose identifiers differ in spaces only share a partition
    in the eyes of the sources: deleting the features of ["ab"] detaches and
    drops the partition of ["a b"]. *)
Theorem drop_takes_other_collection :
  exists w w',
    w = in_db (one_part "a b" "features_a_b" (Table [Row "1" "a b" 0 0 ""] true []) ∅ [])
    /\ live_rows (w_db w) "a b" = [Row "1" "a b" 0 0 ""]
    /\ @drop_collection_features_data_sync reference_postgres default_settings "ab" w =
       (inr (Some "features_a_b"), w')
    /\ live_rows (w_db w') "a b" = [].
Proof.
  eexists _, _. split; [reflexivity|]. split; [by vm_compute|].
  split; [apply run_fst; vm_compute; reflexivity|]. vm_compute. reflexivity.
Qed.

Lemma exists_for_none `{PostgresLaws} db c :
  plain_db db -> no_spaces c = c -> db_parts db !! c = None ->
  partition_exists_for c db = (inr false, db).
Proof.
  intros Hp Hc Hn. destruct (stmt_partitions db) as (rows & Hrows & Hperm).
  unfold partition_exists_for. rewrite tx_bind_run, Hrows. unfold mret, TX_ret. do 2 f_equal.
  apply not_true_iff_false. rewrite existsb_exists. intros ([m b] & Hin & Hb%bool_decide_eq_true_1).
  apply list_elem_of_In in Hin. rewrite Hperm in Hin. unfold partition_list in Hin.
  apply list_elem_of_fmap in Hin as ([c' m'] & Heq & Hc'%elem_of_map_to_list). simplify_eq/=.
  apply bound_literal_match in Hb. destruct (Hp _ _ Hc'). congruence.
Qed.

(** The asynchronous [ensure_features_partition] does not do what it says
    for rows already in the default partition: instead of moving them it raises,
    because PostgreSQL refuses to create the partition while they are there. *)
Theorem async_ensure_fails_on_default_rows `{PostgresLaws} (w : world) (c : string) :
  db_quiet w -> db_wf (w_db w) -> plain_db (w_db w) -> no_spaces c = c ->
  db_parts (w_db w) !! c = None -> has_table (w_db w) (safe_partition_name c) = false ->
  of_coll c (db_default (w_db w)) <> [] ->
  exists e, ensure_features_partition c w = (inl e, w) /\ is_db_error e = true.
Proof.
  intros Hq Hw Hp Hc Hn Ht Hd. set (db := w_db w) in *. set (n := safe_partition_name c) in *.
  assert (exists e, create_partition db n c = inl e) as [e He].
  { unfold create_partition. rewrite Ht.
    by eapply attach_refuses; [by apply new_part_staged|done|]. }
  exists (exn_of_sql e). split; [|by destruct e].
  unfold ensure_features_partition. eapply transaction_err; [done|].
  rewrite tx_bind_run, exists_for_none by done. cbn [negb when_tx]. rewrite tx_bind_run.
  rewrite (stmt_err (CreatePartition n c) db e db); [done|done|]. cbn [sql_run]. by rewrite He.
Qed.

(** ** Witnesses *)

Definition old_roads : table := Table [Row "1" "roads" 0 1 "old"] true [].
Definition new_roads : table := Table [Row "1" "roads" 0 2 "new"; Row "2" "roads" 0 2 "new"] false [].
Definition staged_db : database :=
  one_part "roads" "features_roads" old_roads {[ "bulk_staging_j1" := new_roads ]} [].

Lemma staged_db_wf : db_wf staged_db.
Proof. apply one_part_wf; [by vm_compute|by repeat constructor|done|done]. Qed.
Lemma staged_db_plain : plain_db staged_db.
Proof. by apply one_part_plain. Qed.
Lemma staged_db_ready : staged_for staged_db "roads" "bulk_staging_j1" new_roads.
Proof. split; [by vm_compute|by vm_compute|by repeat constructor|by vm_compute]. Qed.

Lemma swap_publishes_staging_witness :
  exists w', @swap_staging_into_collection_partition_sync reference_postgres default_settings
      "roads" "bulk_staging_j1" (in_db staged_db) = (inr tt, w')
    /\ live_rows (w_db w') "roads" = t_rows new_roads
    /\ (forall c', c' <> "roads" -> live_rows (w_db w') c' = live_rows staged_db c')
    /\ db_wf (w_db w') /\ w_redis w' = ∅.
Proof.
  apply (@swap_publishes_staging reference_postgres reference_postgres_laws default_settings
    (in_db staged_db) "roads" "bulk_staging_j1" new_roads);
    [reflexivity|exact staged_db_wf|exact staged_db_plain|reflexivity|exact staged_db_ready].
Defined.

Lemma swap_idempotent_witness :
  exists w', @swap_staging_into_collection_partition_sync reference_postgres default_settings
      "roads" "features_roads" (in_db staged_db) = (inr tt, w')
    /\ (forall c', live_rows (w_db w') c' = live_rows staged_db c')
    /\ db_parts (w_db w') = db_parts staged_db.
Proof.
  apply (@swap_idempotent reference_postgres reference_postgres_laws default_settings
    (in_db staged_db) "roads" "features_roads"); [reflexivity|exact staged_db_wf|reflexivity].
Defined.

(** Rows of ["rivers"] still in the default partition. *)
Definition default_db : database :=
  one_part "roads" "features_roads" old_roads ∅ [Row "7" "rivers" 0 1 "x"; Row "8" "lakes" 0 1 "y"].

Lemma default_db_wf : db_wf default_db.
Proof. apply one_part_wf; [by vm_compute|by repeat constructor|done|by vm_compute]. Qed.

Lemma ensure_partition_keeps_rows_witness :
  exists name w', @ensure_features_partition_sync reference_postgres "rivers" (in_db default_db)
      = (inr name, w')
    /\ db_parts (w_db w') !! "rivers" = Some name
    /\ (forall c', live_rows (w_db w') c' = live_rows default_db c').
Proof.
  apply (@ensure_partition_keeps_rows reference_postgres reference_postgres_laws
    (in_db default_db) "rivers");
    [reflexivity|exact default_db_wf|by apply one_part_plain|reflexivity|intros _; by vm_compute].
Defined.

Lemma listing_reads_catalogue_witness :
  exists l, @list_attached_feature_partitions_sync reference_postgres (in_db staged_db)
      = (inr l, in_db staged_db)
    /\ forall c n, (n, c) ∈ l <-> db_parts staged_db !! c = Some n.
Proof.
  apply (@listing_reads_catalogue reference_postgres reference_postgres_laws (in_db staged_db));
    [reflexivity|]. intros c n. cbn. by intros [<- <-]%lookup_singleton_Some.
Defined.

Lemma async_ensure_fails_on_default_rows_witness :
  exists e, @ensure_features_partition reference_postgres "rivers" (in_db default_db)
      = (inl e, in_db default_db) /\ is_db_error e = true.
Proof.
  apply (@async_ensure_fails_on_default_rows reference_postgres reference_postgres_laws
    (in_db default_db) "rivers");
    [reflexivity|exact default_db_wf|by apply one_part_plain|reflexivity|reflexivity|by vm_compute|done].
Defined.
