(* ===== verification/Json.v ===== *)
(** * JSON texts: [json.dumps] and [json.loads] of the standard library

    Job payloads are stored in Redis as JSON texts.  [dumps] writes what
    [json.dumps] writes (default or given separators, [ensure_ascii]), [loads]
    accepts what [json.loads] accepts.  Strings are UTF-8 bytes; a number with a
    fraction or an exponent is kept as its lexeme, and [int] of it rounds it to
    binary64 first. *)

From stdpp Require Import pretty.
From S2P Require Import Prelude PyTime Redis Tables World.

(** ** Writing *)

Definition dq : Ascii.ascii := "034"%char.
Definition bs : Ascii.ascii := "092"%char.
Definition rbracket : Ascii.ascii := "]"%char.
Definition rbrace : Ascii.ascii := "}"%char.

Definition byte_of (c : Ascii.ascii) : Z := Z.of_nat (Ascii.nat_of_ascii c).
Definition char_of (n : Z) : Ascii.ascii := Ascii.ascii_of_nat (Z.to_nat n).

Definition hex_digit (n : Z) : Ascii.ascii := char_of (if n <? 10 then 48 + n else 87 + n).

(** [\uXXXX] *)
Definition u_escape (n : Z) (k : string) : string :=
  String bs (String "u" (String (hex_digit (n / 4096 mod 16)) (String (hex_digit (n / 256 mod 16))
    (String (hex_digit (n / 16 mod 16)) (String (hex_digit (n mod 16)) k))))).

(** The escape of a code point: a surrogate pair beyond the basic plane. *)
Definition cp_escape (n : Z) (k : string) : string :=
  if n <? 65536 then u_escape n k
  else u_escape (55296 + (n - 65536) / 1024) (u_escape (56320 + (n - 65536) mod 1024) k).

(** The escape of an ASCII byte that needs one. *)
Definition short_escape (n : Z) : option Ascii.ascii :=
  if n =? 34 then Some dq else if n =? 92 then Some bs
  else if n =? 10 then Some "n"%char else if n =? 13 then Some "r"%char
  else if n =? 9 then Some "t"%char else if n =? 12 then Some "f"%char
  else if n =? 8 then Some "b"%char else None.

Definition escape_char (ensure_ascii : bool) (c : Ascii.ascii) (k : string) : string :=
  match short_escape (byte_of c) with
  | Some e => String bs (String e k)
  | None =>
      if (byte_of c <? 32) || (ensure_ascii && (byte_of c =? 127)) then u_escape (byte_of c) k
      else String c k
  end.

(** With [ensure_ascii], the bytes of a multi-byte character collect into its
    code point [acc], [need] continuation bytes remaining. *)
Fixpoint escape_body (ensure_ascii : bool) (need : nat) (acc : Z) (s k : string) : string :=
  match s with
  | EmptyString => k
  | String c s' =>
      let n := byte_of c in
      if negb ensure_ascii || (n <? 128) then escape_char ensure_ascii c (escape_body ensure_ascii 0 0 s' k)
      else if n <? 192 then
        let acc := acc * 64 + (n - 128) in
        match need with
        | S O | O => cp_escape acc (escape_body ensure_ascii 0 0 s' k)
        | S need' => escape_body ensure_ascii need' acc s' k
        end
      else if n <? 224 then escape_body ensure_ascii 1 (n - 192) s' k
      else if n <? 240 then escape_body ensure_ascii 2 (n - 224) s' k
      else escape_body ensure_ascii 3 (n - 240) s' k
  end.

Definition dump_str (ensure_ascii : bool) (s k : string) : string :=
  String dq (escape_body ensure_ascii 0 0 s (String dq k)).

Section dumps.
Context (ensure_ascii : bool) (item_sep key_sep : string).

(** [json.dumps(j)], followed by [k]. *)
Fixpoint dump (j : json) (k : string) : string :=
  match j with
  | JNull => "null" +:+ k
  | JBool true => "true" +:+ k
  | JBool false => "false" +:+ k
  | JInt z => str_of_Z z +:+ k
  | JFloat x => x +:+ k
  | JStr s => dump_str ensure_ascii s k
  | JList l =>
      String "[" ((fix go (first : bool) (l : list json) : string :=
        match l with
        | [] => String rbracket k
        | x :: l' => (if first then "" else item_sep) +:+ dump x (go false l')
        end) true l)
  | JObj m =>
      String "{" ((fix go (first : bool) (m : list (string * json)) : string :=
        match m with
        | [] => String rbrace k
        | (f, x) :: m' =>
            (if first then "" else item_sep)
              +:+ dump_str ensure_ascii f (key_sep +:+ dump x (go false m'))
        end) true m)
  end.

Fixpoint dump_items (first : bool) (l : list json) (k : string) : string :=
  match l with
  | [] => String rbracket k
  | x :: l' => (if first then "" else item_sep) +:+ dump x (dump_items false l' k)
  end.

Fixpoint dump_fields (first : bool) (m : list (string * json)) (k : string) : string :=
  match m with
  | [] => String rbrace k
  | (f, x) :: m' =>
      (if first then "" else item_sep)
        +:+ dump_str ensure_ascii f (key_sep +:+ dump x (dump_fields false m' k))
  end.

Lemma dump_list l k : dump (JList l) k = String "[" (dump_items true l k).
Proof.
  simpl. f_equal. generalize true. induction l as [|x l IH]; intros b; [done|]. simpl.
  by rewrite IH.
Qed.

Lemma dump_obj m k : dump (JObj m) k = String "{" (dump_fields true m k).
Proof.
  simpl. f_equal. generalize true. induction m as [|[f x] m IH]; intros b; [done|]. simpl.
  by rewrite IH.
Qed.
End dumps.

(** [json.dumps(j)] and [json.dumps(j, separators=(",", ":"))] *)
Definition dumps (j : json) : string := dump true ", " ": " j "".
Definition dumps_compact (j : json) : string := dump true "," ":" j "".

(** ** Reading *)

Fixpoint skip_ws (s : string) : string :=
  match s with
  | String c s' =>
      let n := byte_of c in
      if (n =? 32) || (n =? 9) || (n =? 10) || (n =? 13) then skip_ws s' else s
  | EmptyString => s
  end.

Definition hex_val (c : Ascii.ascii) : option Z :=
  let n := byte_of c in
  if (48 <=? n) && (n <=? 57) then Some (n - 48)
  else if (97 <=? n) && (n <=? 102) then Some (n - 87)
  else if (65 <=? n) && (n <=? 70) then Some (n - 55)
  else None.

Fixpoint read_hex (n : nat) (acc : Z) (s : string) : option (Z * string) :=
  match n with
  | O => Some (acc, s)
  | S n' =>
      match s with
      | String c s' => d ← hex_val c; read_hex n' (16 * acc + d) s'
      | EmptyString => None
      end
  end.

(** The UTF-8 bytes of a code point. *)
Definition utf8 (n : Z) (k : string) : string :=
  if n <? 128 then String (char_of n) k
  else if n <? 2048 then String (char_of (192 + n / 64)) (String (char_of (128 + n mod 64)) k)
  else if n <? 65536 then
    String (char_of (224 + n / 4096)) (String (char_of (128 + n / 64 mod 64))
      (String (char_of (128 + n mod 64)) k))
  else
    String (char_of (240 + n / 262144)) (String (char_of (128 + n / 4096 mod 64))
      (String (char_of (128 + n / 64 mod 64)) (String (char_of (128 + n mod 64)) k))).

Definition unescape (c : Ascii.ascii) : option Ascii.ascii :=
  let n := byte_of c in
  if n =? 34 then Some dq else if n =? 92 then Some bs else if n =? 47 then Some "/"%char
  else if n =? 110 then Some "010"%char else if n =? 114 then Some "013"%char
  else if n =? 116 then Some "009"%char else if n =? 102 then Some "012"%char
  else if n =? 98 then Some "008"%char else None.

(** Consumes [c]. *)
Definition eat (c : Ascii.ascii) (s : string) : option string :=
  match s with
  | String c' s' => if decide (c' = c) then Some s' else None
  | EmptyString => None
  end.

(** The hexadecimal part of [\u], joined with a following low surrogate. *)
Definition read_u (s : string) : option (Z * string) :=
  '(n, s) ← read_hex 4 0 s;
  let low := (s1 ← eat bs s; s2 ← eat "u" s1; read_hex 4 0 s2) in
  match low with
  | Some (m, s3) =>
      if (55296 <=? n) && (n <=? 56319) && (56320 <=? m) && (m <=? 57343)
      then Some (65536 + (n - 55296) * 1024 + (m - 56320), s3)
      else Some (n, s)
  | None => Some (n, s)
  end.

(** The rest of a string after its opening quote. *)
Fixpoint read_str (fuel : nat) (s : string) : option (string * string) :=
  match fuel with
  | O => None
  | S fuel' =>
      match s with
      | EmptyString => None
      | String c s' =>
          if decide (c = dq) then Some ("", s')
          else if decide (c = bs) then
            match s' with
            | EmptyString => None
            | String e s'' =>
                if decide (e = "u"%char) then
                  '(n, r) ← read_u s''; '(t, r) ← read_str fuel' r; Some (utf8 n t, r)
                else
                  x ← unescape e; '(t, r) ← read_str fuel' s''; Some (String x t, r)
            end
          else if byte_of c <? 32 then None
          else '(t, r) ← read_str fuel' s'; Some (String c t, r)
      end
  end.

(** The longest prefix of digits. *)
Fixpoint take_digits (s : string) : string * string :=
  match s with
  | String c s' =>
      if is_digit c then let (d, r) := take_digits s' in (String c d, r) else ("", s)
  | EmptyString => ("", "")
  end.

(** [(\.\d+)?] *)
Definition read_fraction (s : string) : string * string :=
  match eat "." s with
  | Some s' =>
      let (d, r) := take_digits s' in
      if decide (d = "") then ("", s) else (String "." d, r)
  | None => ("", s)
  end.

(** [([eE][-+]?\d+)?] *)
Definition read_exponent (s : string) : string * string :=
  match s with
  | String e s' =>
      if decide (e = "e"%char \/ e = "E"%char) then
        let (sg, s'') :=
          match s' with
          | String g t => if decide (g = "-"%char \/ g = "+"%char) then (String g "", t) else ("", s')
          | EmptyString => ("", s')
          end in
        let (d, r) := take_digits s'' in
        if decide (d = "") then ("", s) else (String e (sg +:+ d), r)
      else ("", s)
  | EmptyString => ("", s)
  end.

(** An optional minus, [0] or digits without a leading zero, then a fraction and an exponent. *)
Definition read_number (s : string) : option (json * string) :=
  let (sg, s1) := match eat "-" s with Some t => ("-", t) | None => ("", s) end in
  match s1 with
  | EmptyString => None
  | String c s2 =>
      if is_digit c then
        let (d, r) := if decide (c = "0"%char) then ("", s2) else take_digits s2 in
        let int := sg +:+ String c d in
        let (f, r1) := read_fraction r in
        let (e, r2) := read_exponent r1 in
        if decide (f = "" /\ e = "") then z ← py_int int; Some (JInt z, r2)
        else Some (JFloat (int +:+ f +:+ e), r2)
      else None
  end.

(** A literal word. *)
Definition read_word (w : string) (j : json) (s : string) : option (json * string) :=
  if startswith w s then Some (j, str_drop (String.length w) s) else None.

(** A later duplicate key replaces the value at the first position. *)
Fixpoint dict_set {A} (f : string) (x : A) (m : list (string * A)) : list (string * A) :=
  match m with
  | [] => [(f, x)]
  | (g, y) :: m' => if decide (f = g) then (g, x) :: m' else (g, y) :: dict_set f x m'
  end.

Definition first_some {A} (x y : option A) : option A := match x with Some _ => x | None => y end.

(** A value at the head of [s]; [acc] is what the surrounding list or object
    holds so far. *)
Fixpoint read_value (fuel : nat) (s : string) : option (json * string) :=
  match fuel with
  | O => None
  | S fuel' =>
      match s with
      | EmptyString => None
      | String c s' =>
          if decide (c = dq) then '(t, r) ← read_str (S (String.length s')) s'; Some (JStr t, r)
          else if decide (c = "["%char) then
            match eat "]" (skip_ws s') with
            | Some r => Some (JList [], r)
            | None => '(l, r) ← read_items fuel' (skip_ws s'); Some (JList l, r)
            end
          else if decide (c = "{"%char) then
            match eat "}" (skip_ws s') with
            | Some r => Some (JObj [], r)
            | None => '(m, r) ← read_fields fuel' [] (skip_ws s'); Some (JObj m, r)
            end
          else
            first_some (read_number s)
              (first_some (read_word "null" JNull s)
                (first_some (read_word "true" (JBool true) s)
                  (first_some (read_word "false" (JBool false) s)
                    (first_some (read_word "NaN" (JFloat "NaN") s)
                      (first_some (read_word "Infinity" (JFloat "Infinity") s)
                        (read_word "-Infinity" (JFloat "-Infinity") s))))))
      end
  end
with read_items (fuel : nat) (s : string) : option (list json * string) :=
  match fuel with
  | O => None
  | S fuel' =>
      '(x, r) ← read_value fuel' s;
      match eat "," (skip_ws r) with
      | Some r' => '(l, r'') ← read_items fuel' (skip_ws r'); Some (x :: l, r'')
      | None => r' ← eat "]" (skip_ws r); Some ([x], r')
      end
  end
with read_fields (fuel : nat) (acc : list (string * json)) (s : string) :
    option (list (string * json) * string) :=
  match fuel with
  | O => None
  | S fuel' =>
      s' ← eat dq s;
      '(f, r) ← read_str (S (String.length s')) s';
      r ← eat ":" (skip_ws r);
      '(x, r) ← read_value fuel' (skip_ws r);
      match eat "," (skip_ws r) with
      | Some r' => read_fields fuel' (dict_set f x acc) (skip_ws r')
      | None => r' ← eat "}" (skip_ws r); Some (dict_set f x acc, r')
      end
  end.

(** [json.loads(s)]; [None] is [JSONDecodeError]. *)
Definition loads (s : string) : option json :=
  '(j, r) ← read_value (S (String.length s)) (skip_ws s);
  if decide (skip_ws r = "") then Some j else None.

Example loads_ex : loads (dumps (JObj [("a", JList [JInt (-12); JStr "x y"; JNull]); ("b", JBool true)]))
  = Some (JObj [("a", JList [JInt (-12); JStr "x y"; JNull]); ("b", JBool true)]).
Proof. by vm_compute. Qed.

(** ** Round trip *)

(** Induction over nested lists and objects. *)
Lemma json_ind' (P : json -> Prop) :
  P JNull -> (forall b, P (JBool b)) -> (forall z, P (JInt z)) -> (forall x, P (JFloat x)) ->
  (forall s, P (JStr s)) -> (forall l, Forall P l -> P (JList l)) ->
  (forall m, Forall (fun fx => P fx.2) m -> P (JObj m)) ->
  forall j, P j.
Proof.
  intros H0 Hb Hz Hf Hs Hl Hm.
  fix IH 1. intros [|b|z|x|s|l|m]; [done|apply Hb|apply Hz|apply Hf|apply Hs| |].
  - apply Hl. induction l as [|x l IHl]; constructor; [apply IH|apply IHl].
  - apply Hm. induction m as [|[f x] m IHm]; constructor; [apply IH|apply IHm].
Qed.

Fixpoint ascii_str (s : string) : bool :=
  match s with EmptyString => true | String c s' => (byte_of c <? 128) && ascii_str s' end.

(** ASCII strings, integers, and objects without duplicate keys. *)
Fixpoint jwf (j : json) : bool :=
  match j with
  | JNull | JBool _ | JInt _ => true
  | JFloat _ => false
  | JStr s => ascii_str s
  | JList l => forallb jwf l
  | JObj m =>
      bool_decide (NoDup (map fst m)) && forallb (fun '(f, x) => ascii_str f && jwf x) m
  end.

(** What may follow a number: nothing that would extend it. *)
Definition stops (k : string) : bool :=
  match k with
  | EmptyString => true
  | String c _ =>
      negb (is_digit c) && negb (bool_decide (c = "."%char)) && negb (bool_decide (c = "e"%char))
        && negb (bool_decide (c = "E"%char))
  end.

Fixpoint all_ws (s : string) : bool :=
  match s with
  | EmptyString => true
  | String c s' =>
      let n := byte_of c in
      ((n =? 32) || (n =? 9) || (n =? 10) || (n =? 13)) && all_ws s'
  end.

Lemma skip_ws_app w s : all_ws w = true -> skip_ws (w +:+ s) = skip_ws s.
Proof.
  induction w as [|c w IH]; [done|]. rewrite app_str_cons. simpl. intros [-> ?]%andb_true_iff.
  by apply IH.
Qed.

(** *** Strings *)

Lemma u_escape_read n k : 0 <= n < 128 -> read_u (str_drop 2 (u_escape n k)) = Some (n, k).
Proof.
  intros Hn. unfold read_u, u_escape. simpl str_drop.
  assert (read_hex 4 0 (String (hex_digit (n / 4096 mod 16)) (String (hex_digit (n / 256 mod 16))
    (String (hex_digit (n / 16 mod 16)) (String (hex_digit (n mod 16)) k)))) = Some (n, k)) as ->.
  { assert (forall d, 0 <= d < 16 -> hex_val (hex_digit d) = Some d) as Hd.
    { intros d Hd. destruct d as [|p|p]; [done| |lia].
      do 4 (try destruct p as [p|p|]); try lia; by vm_compute. }
    cbn [read_hex]. rewrite !Hd by (apply Z.mod_pos_bound; lia). simpl.
    do 2 f_equal. Z.to_euclidean_division_equations. lia. }
  cbn [mbind option_bind]. rewrite (proj2 (Z.leb_gt 55296 n)) by lia. simpl.
  by repeat case_match.
Qed.

Lemma read_str_escape_char f c k :
  (byte_of c <? 128) = true ->
  read_str (S f) (escape_char true c k) = ('(t, r) ← read_str f k; Some (String c t, r)).
Proof.
  intros Hc.
  destruct (decide ((byte_of c <? 32) || (byte_of c =? 127) = true /\ short_escape (byte_of c) = None))
    as [[Hu Hs]|Hn].
  - unfold escape_char. rewrite Hs, andb_true_l, Hu.
    assert (0 <= byte_of c < 128) as Hr by (unfold byte_of in *; lia).
    pose proof (u_escape_read (byte_of c) k Hr) as Hread.
    unfold u_escape in *. simpl str_drop in Hread.
    cbn [read_str]. rewrite !decide_False by done. rewrite decide_True by done.
    rewrite decide_True by done. rewrite Hread. cbn [mbind option_bind].
    destruct (read_str f k) as [[t r]|]; [|done]. simpl. unfold utf8.
    rewrite Hc. unfold char_of, byte_of. by rewrite Nat2Z.id, ascii_nat_embedding.
  - destruct c as [[] [] [] [] [] [] [] []]; try discriminate Hc; try (by exfalso; apply Hn);
      reflexivity.
Qed.

Lemma escape_body_cons c s k :
  (byte_of c <? 128) = true ->
  escape_body true 0 0 (String c s) k = escape_char true c (escape_body true 0 0 s k).
Proof. intros Hc. cbn [escape_body]. by rewrite Hc. Qed.

Lemma read_str_escape s f k :
  ascii_str s = true -> (String.length s < f)%nat ->
  read_str f (escape_body true 0 0 s (String dq k)) = Some (s, k).
Proof.
  revert f. induction s as [|c s IH]; intros [|f] Hs Hf; simpl in Hf; try lia; [done|].
  cbn [ascii_str] in Hs. apply andb_true_iff in Hs as [Hc Hs].
  rewrite escape_body_cons, read_str_escape_char by done. rewrite IH by (done || lia). done.
Qed.

Lemma escape_char_length b c k : (S (String.length k) <= String.length (escape_char b c k))%nat.
Proof. unfold escape_char, u_escape. repeat case_match; simpl; lia. Qed.

Lemma escape_body_length s k :
  ascii_str s = true ->
  (String.length s + String.length k <= String.length (escape_body true 0 0 s k))%nat.
Proof.
  induction s as [|c s IH]; [done|]. cbn [ascii_str]. intros [Hc Hs]%andb_true_iff.
  rewrite escape_body_cons by done. specialize (IH Hs).
  pose proof (escape_char_length true c (escape_body true 0 0 s k)). simpl. lia.
Qed.

Lemma read_dump_str s k :
  ascii_str s = true ->
  read_str (S (String.length (escape_body true 0 0 s (String dq k))))
    (escape_body true 0 0 s (String dq k)) = Some (s, k).
Proof.
  intros Hs. apply read_str_escape; [done|].
  pose proof (escape_body_length s (String dq k) Hs). lia.
Qed.

(** *** Numbers *)

Lemma take_digits_app d k :
  all_digits d = true -> stops k = true -> take_digits (d +:+ k) = (d, k).
Proof.
  intros Hd Hk. induction d as [|c d IH].
  - rewrite app_str_nil_l. destruct k as [|c k]; [done|]. simpl in *.
    destruct (is_digit c); [done|]. done.
  - rewrite app_str_cons. simpl in *. apply andb_true_iff in Hd as [-> Hd]. by rewrite IH.
Qed.

Lemma read_fraction_stops k : stops k = true -> read_fraction k = ("", k).
Proof.
  destruct k as [|c k]; [done|]. unfold stops, read_fraction, eat. intros Hc.
  rewrite decide_False; [done|]. intros ->. by vm_compute in Hc.
Qed.

Lemma read_exponent_stops k : stops k = true -> read_exponent k = ("", k).
Proof.
  destruct k as [|c k]; [done|]. unfold stops, read_exponent. intros Hc.
  rewrite decide_False; [done|]. intros [-> | ->]; by vm_compute in Hc.
Qed.

(** A positive numeral starts with a digit other than zero. *)
Lemma pretty_N_go_head (x : N) s :
  (0 < x)%N -> exists c d, pretty_N_go x s = String c (d +:+ s) /\ is_digit c = true
    /\ c <> "0"%char /\ all_digits d = true.
Proof.
  revert s. induction (N.lt_wf_0 x) as [x _ IH]; intros s Hx.
  rewrite pretty_N_go_step by lia.
  assert (forall n, (n < 10)%N -> is_digit (pretty_N_char n) = true
                    /\ (n <> 0 -> pretty_N_char n <> "0"%char)%N) as Hdig.
  { intros n Hn. unfold is_digit. rewrite digit_val_pretty_N_char by done.
    split; [by rewrite bool_decide_eq_true_2 by eauto|].
    intros Hn0 Hc. pose proof (digit_val_pretty_N_char n Hn) as Hv. rewrite Hc in Hv.
    injection Hv as Hv. change (0 = Z.of_N n) in Hv. lia. }
  destruct (decide (x `div` 10 = 0)%N) as [H0|H0].
  - rewrite H0, pretty_N_go_0. eexists _, "". split; [by rewrite app_str_nil_l|].
    destruct (Hdig (x `mod` 10)%N) as [Hd Hc]; [by apply N.mod_lt|]. split; [done|].
    split; [|done]. apply Hc. intros Hm. pose proof (N.div_mod' x 10). lia.
  - destruct (IH (x `div` 10)%N) with (s := String (pretty_N_char (x `mod` 10)) s)
      as (c & d & -> & ? & ? & Hall); [apply N.div_lt; lia|by apply N.neq_0_lt_0|].
    exists c, (d +:+ String (pretty_N_char (x `mod` 10)) ""). split.
    { by rewrite app_str_assoc, app_str_cons, app_str_nil_l. }
    split; [done|]. split; [done|]. destruct (Hdig (x `mod` 10)%N) as [Hd _]; [by apply N.mod_lt|].
    clear -Hall Hd. induction d as [|c d IH]; [by rewrite app_str_nil_l; simpl; rewrite Hd|].
    rewrite app_str_cons. simpl in *. apply andb_true_iff in Hall as [-> ?]. by apply IH.
Qed.

Lemma pretty_N_head (x : N) :
  exists c d, pretty x = String c d /\ is_digit c = true /\ all_digits d = true
    /\ (c = "0"%char -> d = "").
Proof.
  unfold pretty, pretty_N. case_decide as Hx.
  - exists "0"%char, "". done.
  - destruct (pretty_N_go_head x "") as (c & d & -> & ? & ? & ?); [lia|].
    exists c, d. rewrite app_str_nil_r. done.
Qed.

Lemma is_digit_cases c :
  is_digit c = true -> c <> "-"%char /\ c <> dq /\ c <> "["%char /\ c <> "{"%char
    /\ byte_of c <> 32 /\ byte_of c <> 9 /\ byte_of c <> 10 /\ byte_of c <> 13
    /\ c <> rbracket /\ c <> rbrace.
Proof. by destruct c as [[] [] [] [] [] [] [] []]. Qed.

Lemma read_number_digits (sg : string) c d k :
  is_digit c = true -> all_digits d = true -> (c = "0"%char -> d = "") -> stops k = true ->
  let (d', r) := if decide (c = "0"%char) then ("", d +:+ k) else take_digits (d +:+ k) in
  d' = d /\ r = k.
Proof.
  intros Hc Hd H0 Hk. case_decide as Hz.
  - rewrite (H0 Hz). by rewrite app_str_nil_l.
  - by rewrite take_digits_app.
Qed.

Lemma str_of_Z_shape z :
  exists sg c d, str_of_Z z = sg +:+ String c d /\ (sg = "" \/ sg = "-")
    /\ is_digit c = true /\ all_digits d = true /\ (c = "0"%char -> d = "").
Proof.
  unfold str_of_Z, pretty, pretty_Z. destruct z as [|p|p].
  - exists "", "0"%char, "". repeat split; auto.
  - destruct (pretty_N_head (N.pos p)) as (c & d & Hp & ? & ? & ?).
    exists "", c, d. split; [exact Hp|]. auto.
  - destruct (pretty_N_head (N.pos p)) as (c & d & Hp & ? & ? & ?).
    exists "-", c, d. split; [|auto]. rewrite <-Hp. reflexivity.
Qed.

Lemma read_number_int z k :
  stops k = true -> read_number (str_of_Z z +:+ k) = Some (JInt z, k).
Proof.
  intros Hk. pose proof (py_int_str_of_Z z) as Hint.
  destruct (str_of_Z_shape z) as (sg & c & d & Hz & Hsg & Hc & Hd & H0).
  rewrite Hz in *. pose proof (is_digit_cases c Hc) as (Hm & _).
  pose proof (read_number_digits sg c d k Hc Hd H0 Hk) as Hread.
  unfold read_number. destruct Hsg as [-> | ->].
  - rewrite app_str_nil_l, app_str_cons. unfold eat at 1. rewrite decide_False by done.
    rewrite Hc. destruct (if decide _ then _ else _) as [d' r]. destruct Hread as [-> ->].
    rewrite read_fraction_stops, read_exponent_stops by done. rewrite decide_True by done.
    rewrite app_str_nil_l in *. by rewrite Hint.
  - rewrite app_str_assoc, app_str_cons, app_str_nil_l, app_str_cons. unfold eat at 1.
    rewrite decide_True by done.
    rewrite Hc. destruct (if decide _ then _ else _) as [d' r]. destruct Hread as [-> ->].
    rewrite read_fraction_stops, read_exponent_stops by done. rewrite decide_True by done.
    by rewrite Hint.
Qed.

(** *** Values *)

(** The nesting and item count a text needs as fuel. *)
Fixpoint need (j : json) : nat :=
  match j with
  | JList l => S (list_sum (map (fun x => S (need x)) l))
  | JObj m => S (list_sum (map (fun fx => S (need fx.2)) m))
  | _ => 1
  end.

Lemma dict_set_fresh {A} f (x : A) m : f ∉ map fst m -> dict_set f x m = (m ++ [(f, x)])%list.
Proof.
  induction m as [|[g y] m IH]; [done|]. simpl. intros Hf. apply not_elem_of_cons in Hf as [Hg Hf].
  rewrite decide_False by done. by rewrite IH.
Qed.

Lemma first_some_Some {A} (x : A) y : first_some (Some x) y = Some x.
Proof. done. Qed.

Section round_trip.
Context (item_ws key_ws : string).
Context (Hiw : all_ws item_ws = true) (Hkw : all_ws key_ws = true).

Abbreviation dmp := (dump true (String "," item_ws) (String ":" key_ws)).
Abbreviation dmp_items := (dump_items true (String "," item_ws) (String ":" key_ws)).
Abbreviation dmp_fields := (dump_fields true (String "," item_ws) (String ":" key_ws)).

(** The first character of a dumped value. *)
Lemma dump_head j k :
  jwf j = true ->
  exists c t, dmp j k = String c t /\ skip_ws (String c t) = String c t
    /\ c <> rbracket.
Proof.
  intros Hj. destruct j as [|[]|z|x|s|l|m]; try done.
  1-3: by eexists _, _.
  - simpl. destruct (str_of_Z_shape z) as (sg & c & d & -> & Hsg & Hc & _).
    destruct Hsg as [-> | ->]; rewrite ?app_str_nil_l, !app_str_cons; [|by eexists _, _].
    eexists _, _. split; [done|].
    destruct (is_digit_cases c Hc) as (? & ? & ? & ? & ?%Z.eqb_neq & ?%Z.eqb_neq & ?%Z.eqb_neq
      & ?%Z.eqb_neq & ? & ?).
    simpl. repeat match goal with H : (_ =? _) = false |- _ => rewrite H; clear H end. done.
  - simpl. unfold dump_str. by eexists _, _.
  - rewrite dump_list. by eexists _, _.
  - rewrite dump_obj. by eexists _, _.
Qed.

Lemma stops_after_item k l : stops k = true -> stops (dmp_items false l k) = true.
Proof. by destruct l. Qed.

(** What [read_value] does on the dump of [j]. *)
Definition reads (j : json) : Prop :=
  forall k fuel, stops k = true -> (need j <= fuel)%nat -> read_value fuel (dmp j k) = Some (j, k).

Lemma reads_items l k fuel x :
  Forall reads (x :: l) -> forallb jwf (x :: l) = true ->
  (list_sum (map (fun x => S (need x)) (x :: l)) <= fuel)%nat ->
  read_items fuel (dmp_items true (x :: l) k) = Some (x :: l, k).
Proof.
  change (dmp_items true (x :: l) k) with ("" +:+ dmp x (dmp_items false l k)).
  rewrite app_str_nil_l. revert x fuel. induction l as [|y l IH]; intros x fuel Hr Hw Hf.
  - apply Forall_cons in Hr as [Hr _]. destruct fuel as [|fuel]; [simpl in Hf; lia|]. simpl in Hf.
    cbn [read_items]. rewrite (Hr _ fuel) by (done || lia). done.
  - apply Forall_cons in Hr as [Hr Hrs]. destruct fuel as [|fuel]; [simpl in Hf; lia|].
    cbn [forallb] in Hw. apply andb_true_iff in Hw as [Hw Hws].
    change (list_sum (map (fun x => S (need x)) (x :: y :: l))) with
      (S (need x) + list_sum (map (fun x => S (need x)) (y :: l)))%nat in Hf.
    cbn [read_items]. rewrite (Hr _ fuel) by (done || lia). cbn [mbind option_bind].
    change (dmp_items false (y :: l) k) with (String "," (item_ws +:+ dmp y (dmp_items false l k))).
    change (skip_ws (String "," ?t)) with (String "," t). cbn [eat].
    rewrite decide_True by done. rewrite skip_ws_app by done.
    destruct (dump_head y (dmp_items false l k)) as (c & t & Hd & Hs & _).
    { cbn [forallb] in Hws. by apply andb_true_iff in Hws as [? _]. }
    rewrite Hd, Hs, <-Hd. rewrite IH by (done || lia). done.
Qed.

Lemma reads_fields m k fuel acc f x :
  Forall (fun fx => reads fx.2) ((f, x) :: m) ->
  forallb (fun '(f, x) => ascii_str f && jwf x) ((f, x) :: m) = true ->
  NoDup (map fst acc ++ map fst ((f, x) :: m))%list ->
  (list_sum (map (fun fx => S (need fx.2)) ((f, x) :: m)) <= fuel)%nat ->
  read_fields fuel acc (dmp_fields true ((f, x) :: m) k) = Some ((acc ++ (f, x) :: m)%list, k).
Proof.
  change (dmp_fields true ((f, x) :: m) k) with
    ("" +:+ dump_str true f ((String ":" key_ws) +:+ dmp x (dmp_fields false m k))).
  rewrite app_str_nil_l. revert f x acc fuel.
  induction m as [|[g y] m IH]; intros f x acc fuel Hr Hw Hnd Hf;
    (destruct fuel as [|fuel]; [simpl in Hf; lia|]);
    cbn [forallb] in Hw; apply andb_true_iff in Hw as [[Hfa Hw]%andb_true_iff Hws];
    unfold dump_str; cbn [read_fields eat]; rewrite decide_True by done;
    cbn [mbind option_bind]; rewrite read_dump_str by done; cbn [mbind option_bind];
    rewrite app_str_cons; change (skip_ws (String ":" ?t)) with (String ":" t); cbn [eat];
    rewrite decide_True by done; cbn [mbind option_bind]; rewrite skip_ws_app by done;
    (match goal with |- context [skip_ws (dmp x ?r)] =>
       destruct (dump_head x r Hw) as (c & t & Hd & Hs & _); rewrite Hd, Hs, <-Hd; clear c t Hd Hs end).
  - apply Forall_cons in Hr as [Hr _]. simpl in Hf. rewrite (Hr _ fuel) by (done || simpl; lia).
    cbn [mbind option_bind dump_fields]. rewrite dict_set_fresh; [done|].
    simpl in Hnd. apply NoDup_app in Hnd as (_ & Hnd & _). intros Hin. by eapply Hnd; [|left].
  - apply Forall_cons in Hr as [Hr Hrs].
    change (list_sum (map (fun fx => S (need fx.2)) ((f, x) :: (g, y) :: m))) with
      (S (need x) + list_sum (map (fun fx => S (need fx.2)) ((g, y) :: m)))%nat in Hf.
    simpl in Hr. rewrite (Hr _ fuel) by (done || lia). cbn [mbind option_bind].
    change (dmp_fields false ((g, y) :: m) k) with
      (String "," (item_ws +:+ dump_str true g ((String ":" key_ws) +:+ dmp y (dmp_fields false m k)))).
    change (skip_ws (String "," ?t)) with (String "," t). cbn [eat].
    rewrite decide_True by done. rewrite skip_ws_app by done.
    change (skip_ws (dump_str true g ?r)) with (dump_str true g r).
    rewrite dict_set_fresh.
    + rewrite IH; [by rewrite <-app_assoc|done|done| |lia].
      rewrite map_app, <-app_assoc. done.
    + simpl in Hnd. apply NoDup_app in Hnd as (_ & Hnd & _). intros Hin. by eapply Hnd; [|left].
Qed.

Lemma reads_all j : jwf j = true -> reads j.
Proof.
  induction j as [|b|z|x|s|l IH|m IH] using json_ind'; intros Hj k [|fuel] Hk Hf;
    try (simpl in Hf; lia).
  - done.
  - by destruct b.
  - cbn [dump].
    destruct (dump_head (JInt z) k Hj) as (c & t & Hd & _). cbn [dump] in Hd.
    pose proof (read_number_int z k Hk) as Hn. rewrite Hd in *. cbn [read_value].
    assert (forall c', c' = dq \/ c' = "["%char \/ c' = "{"%char -> c <> c') as Hc.
    { intros c' Hc' ->. by destruct Hc' as [-> | [-> | ->]]; vm_compute in Hn. }
    rewrite !decide_False by (apply Hc; auto). by rewrite Hn.
  - done.
  - cbn [dump]. unfold dump_str. cbn [read_value]. rewrite decide_True by done.
    by rewrite read_dump_str.
  - rewrite dump_list. cbn [read_value]. rewrite decide_False, decide_True by done.
    destruct l as [|x l]; [done|]. cbn [jwf] in Hj. cbn [need] in Hf.
    destruct (dump_head x (dmp_items false l k)) as (c & t & Hd & Hs & Hc).
    { simpl in Hj. by apply andb_true_iff in Hj as [? _]. }
    change (dmp_items true (x :: l) k) with ("" +:+ dmp x (dmp_items false l k)).
    rewrite app_str_nil_l, Hd, Hs. cbn [eat]. rewrite decide_False by done.
    rewrite <-Hd. change (dmp x (dmp_items false l k)) with (dmp_items true (x :: l) k).
    rewrite reads_items; [done| |done|lia].
    clear -IH Hj. induction IH as [|y l' Hy _ IH]; [constructor|].
    simpl in Hj. apply andb_true_iff in Hj as [? ?]. constructor; auto.
  - rewrite dump_obj. cbn [read_value]. rewrite !decide_False, decide_True by done.
    destruct m as [|[f x] m]; [done|]. cbn [jwf] in Hj. cbn [need] in Hf.
    apply andb_true_iff in Hj as [Hnd%bool_decide_eq_true Hj].
    change (skip_ws (dmp_fields true ((f, x) :: m) k)) with (dmp_fields true ((f, x) :: m) k).
    change (eat "}" (dmp_fields true ((f, x) :: m) k)) with (@None string).
    rewrite reads_fields; [done| |done|done|lia].
    clear -IH Hj. induction IH as [|[g y] l' Hy _ IH]; [constructor|].
    simpl in Hj. apply andb_true_iff in Hj as [[_ ?]%andb_true_iff ?]. constructor; auto.
Qed.

Lemma need_length j k : jwf j = true -> (need j + String.length k <= String.length (dmp j k))%nat.
Proof.
  revert k. induction j as [|b|z|x|s|l IH|m IH] using json_ind'; intros k Hj.
  - simpl. rewrite app_str_nil_l. lia.
  - destruct b; simpl; rewrite app_str_nil_l; lia.
  - destruct (dump_head (JInt z) k Hj) as (c & t & Hd & _). cbn [dump] in *.
    rewrite str_length_app. pose proof (str_of_Z_nonempty z).
    destruct (str_of_Z z); [done|]. simpl. lia.
  - done.
  - cbn [dump jwf] in *. unfold dump_str. cbn [String.length need].
    pose proof (escape_body_length s (String dq k) Hj). simpl in *. lia.
  - rewrite dump_list. cbn [jwf need String.length] in *.
    enough (forall b : bool, list_sum (map (fun x => S (need x)) l) + String.length k + (if b then 0 else 1)
                      <= String.length (dmp_items b l k))%nat as Hn
      by (specialize (Hn true); cbn beta iota in Hn; lia).
    induction IH as [|x l Hx _ IH]; intros b; [destruct b; simpl; lia|].
    simpl in Hj. apply andb_true_iff in Hj as [Hjx Hj].
    specialize (IH Hj false). specialize (Hx (dmp_items false l k) Hjx).
    destruct b; cbn [dump_items]; rewrite ?app_str_nil_l, ?app_str_cons; cbn [String.length map];
      rewrite ?str_length_app; simpl in *; lia.
  - rewrite dump_obj. cbn [jwf need String.length] in *. apply andb_true_iff in Hj as [_ Hj].
    enough (forall b : bool, list_sum (map (fun fx => S (need fx.2)) m) + String.length k + (if b then 0 else 1)
                      <= String.length (dmp_fields b m k))%nat as Hn
      by (specialize (Hn true); cbn beta iota in Hn; lia).
    induction IH as [|[f x] m Hx _ IH]; intros b; [destruct b; simpl; lia|].
    simpl in Hj. apply andb_true_iff in Hj as [[Hf Hjx]%andb_true_iff Hj].
    specialize (IH Hj false). specialize (Hx (dmp_fields false m k) Hjx).
    pose proof (escape_body_length f
      (String dq ((String ":" key_ws) +:+ dmp x (dmp_fields false m k))) Hf) as Hl.
    cbn [String.length] in Hl. rewrite app_str_cons in Hl. cbn [String.length] in Hl.
    rewrite str_length_app in Hl. simpl in Hx.
    destruct b; cbn [dump_fields]; unfold dump_str; rewrite ?app_str_nil_l, ?app_str_cons;
      cbn [String.length map list_sum]; rewrite ?str_length_app; simpl in *; lia.
Qed.

Lemma loads_dump j : jwf j = true -> loads (dmp j "") = Some j.
Proof.
  intros Hj. unfold loads. destruct (dump_head j "" Hj) as (c & t & Hd & Hs & _).
  rewrite Hd at 2. rewrite Hs, <-Hd. rewrite reads_all; [done|done|done|].
  pose proof (need_length j "" Hj). simpl in *. lia.
Qed.
End round_trip.

Lemma loads_dumps j : jwf j = true -> loads (dumps j) = Some j.
Proof. by apply (loads_dump " " " "). Qed.

Lemma loads_dumps_compact j : jwf j = true -> loads (dumps_compact j) = Some j.
Proof. by apply (loads_dump "" ""). Qed.

(** ** Python operations on parsed values *)

(** [json.loads(s)] with its exception. *)
Definition json_loads (s : string) : res json :=
  match loads s with Some j => inr j | None => inl (ValueError "invalid JSON") end.

(** A value used as a dict; anything else has no [get]. *)
Definition as_dict (j : json) : res (list (string * json)) :=
  match j with JObj m => inr m | _ => inl (AttributeError "object has no attribute 'get'") end.

Fixpoint dict_get {A} (f : string) (m : list (string * A)) : option A :=
  match m with
  | [] => None
  | (g, x) :: m' => if decide (f = g) then Some x else dict_get f m'
  end.

(** [d\["f"\]] *)
Definition dict_item {A} (f : string) (m : list (string * A)) : res A :=
  match dict_get f m with Some x => inr x | None => inl (KeyError f) end.

Definition opt_json {A} (f : A -> json) (x : option A) : json :=
  match x with Some a => f a | None => JNull end.

(** One key of a dict, written when a condition holds. *)
Definition field_if (b : bool) (f : string) (x : json) : list (string * json) :=
  if b then [(f, x)] else [].

(** Keys of a dict written field by field. *)
Lemma dict_get_app {A} f (m1 m2 : list (string * A)) :
  dict_get f (m1 ++ m2)%list = first_some (dict_get f m1) (dict_get f m2).
Proof. induction m1 as [|[g x] m1 IH]; simpl; [done|]. by case_decide. Qed.

Lemma dict_get_field_eq b f x : dict_get f (field_if b f x) = if b then Some x else None.
Proof. destruct b; simpl; [by rewrite decide_True|done]. Qed.

Lemma dict_get_field_ne b f g x : f <> g -> dict_get f (field_if b g x) = None.
Proof. intros Hne. destruct b; simpl; [by rewrite decide_False|done]. Qed.

Lemma first_some_None {A} (x : option A) : first_some x None = x.
Proof. by destruct x. Qed.

Lemma dict_get_cons_eq {A} f (x : A) m : dict_get f ((f, x) :: m) = Some x.
Proof. simpl. by rewrite decide_True. Qed.

Lemma dict_get_cons_ne {A} f g (x : A) m : f <> g -> dict_get f ((g, x) :: m) = dict_get f m.
Proof. intros Hne. simpl. by rewrite decide_False. Qed.

Ltac dict_fields :=
  cbn [app];
  repeat first
    [ rewrite dict_get_cons_eq | rewrite dict_get_cons_ne by discriminate | rewrite dict_get_app | rewrite dict_get_field_eq | rewrite dict_get_field_ne by discriminate
    | rewrite first_some_None | progress cbn [first_some] ].

Lemma dict_get_None {A} f (m : list (string * A)) : dict_get f m = None -> f ∉ map fst m.
Proof.
  induction m as [|[g x] m IH]; simpl; [intros _; apply not_elem_of_nil|].
  case_decide; [done|]. intros Hm. apply not_elem_of_cons. auto.
Qed.

Lemma jwf_cons f x m :
  ascii_str f = true -> jwf x = true -> dict_get f m = None -> jwf (JObj m) = true ->
  jwf (JObj ((f, x) :: m)) = true.
Proof.
  intros Hf Hx Hg%dict_get_None. cbn [jwf map fst forallb]. rewrite Hf, Hx.
  intros [Hnd%bool_decide_eq_true ->]%andb_true_iff. rewrite bool_decide_eq_true_2; [done|].
  by constructor.
Qed.

Lemma jwf_field b f x m :
  ascii_str f = true -> (b = true -> jwf x = true) -> dict_get f m = None -> jwf (JObj m) = true ->
  jwf (JObj (field_if b f x ++ m)) = true.
Proof. intros Hf Hx Hg Hm. destruct b; simpl; [apply jwf_cons; auto|done]. Qed.

Lemma jwf_field_last b f x :
  ascii_str f = true -> (b = true -> jwf x = true) -> jwf (JObj (field_if b f x)) = true.
Proof. intros Hf Hx. rewrite <-(app_nil_r (field_if _ _ _)). by apply jwf_field. Qed.

(** Well-formedness of a dict written field by field. *)
Ltac jwf_dict :=
  repeat first
    [ apply jwf_cons; [reflexivity| |by dict_fields|]
    | apply jwf_field; [reflexivity| |by dict_fields|]
    | apply jwf_field_last; [reflexivity|] ].

Lemma jwf_strs (l : list string) : forallb ascii_str l = true -> jwf (JList (map JStr l)) = true.
Proof. induction l as [|s l IH]; simpl; [done|]. intros [-> ?]%andb_true_iff. by apply IH. Qed.

(** *** Numbers with a fraction or an exponent *)

(** The exact value of a lexeme as a signed ratio. *)
Definition float_ratio (x : string) : option (bool * Z * Z) :=
  let (neg, s) := match eat "-" x with Some t => (true, t) | None => (false, x) end in
  let (i, r) := take_digits s in
  let (f, r) := read_fraction r in
  let (e, _) := read_exponent r in
  let frac := str_drop 1 f in
  m ← parse_nat_digits (i +:+ frac);
  n ← (if decide (e = "") then Some 0 else py_int (str_drop 1 e));
  let p := n - Z.of_nat (String.length frac) in
  Some (if p <? 0 then (neg, m, 10 ^ (- p)) else (neg, m * 10 ^ p, 1)).

(** The nearest binary64 of a non-negative ratio, ties to even, as a mantissa
    and an exponent of two. *)
Definition binary64 (num den : Z) : Z * Z :=
  let quotient e := if e <? 0 then (num * 2 ^ (- e), den) else (num, den * 2 ^ e) in
  let e := Z.max (-1074) (Z.log2 num - Z.log2 den - 52) in
  let e := let (a, b) := quotient e in
           if (a / b <? 2 ^ 52) && (-1074 <? e) then e - 1 else e in
  let (a, b) := quotient e in
  let q := a / b in let r := a mod b in
  ((if (2 * r <? b) || ((2 * r =? b) && Z.even q) then q else q + 1), e).

Inductive float_val := FNan | FInf | FNum (neg : bool) (mantissa exponent : Z).

Definition float_of (x : string) : float_val :=
  match float_ratio x with
  | None => if decide (x = "NaN") then FNan else FInf
  | Some (neg, num, den) =>
      if decide (num = 0) then FNum neg 0 0
      else let (m, e) := binary64 num den in
           if 2 ^ 1024 <=? m * 2 ^ Z.max 0 e then FInf else FNum neg m e
  end.

(** [int(x)] of a float: truncation. *)
Definition float_int (x : string) : res Z :=
  match float_of x with
  | FNan => inl (ValueError "cannot convert float NaN to integer")
  | FInf => inl (OverflowError "cannot convert float infinity to integer")
  | FNum neg m e =>
      let z := if e <? 0 then m / 2 ^ (- e) else m * 2 ^ e in inr (if neg then - z else z)
  end.

(** [int(x)] *)
Definition json_int (j : json) : res Z :=
  match j with
  | JInt z => inr z
  | JBool b => inr (if b then 1 else 0)
  | JStr s => int_of s
  | JFloat x => float_int x
  | JNull | JList _ | JObj _ =>
      inl (TypeError "int() argument must be a string, a bytes-like object or a real number")
  end.

(** [bool(x)] *)
Definition json_truthy (j : json) : bool :=
  match j with
  | JNull => false
  | JBool b => b
  | JInt z => negb (z =? 0)
  | JFloat x => match float_of x with FNum _ 0 _ => false | _ => true end
  | JStr s => negb (bool_decide (s = ""))
  | JList l => match l with [] => false | _ => true end
  | JObj m => match m with [] => false | _ => true end
  end.

(** [str(x)]; of a float or a container, its JSON text. *)
Definition json_str (j : json) : string :=
  match j with
  | JNull => "None"
  | JBool b => if b then "True" else "False"
  | JInt z => str_of_Z z
  | JStr s => s
  | JFloat _ | JList _ | JObj _ => dumps j
  end.

(** [x or d] *)
Definition json_or (j d : json) : json := if json_truthy j then j else d.

(** A field the sources pass through unconverted must have its annotated type. *)
Definition expect_str (j : json) : res string :=
  match j with JStr s => inr s | _ => inl (TypeError "expected a string") end.
Definition expect_int (j : json) : res Z :=
  match j with JInt z => inr z | _ => inl (TypeError "expected an integer") end.
Definition expect_opt {A} (f : json -> res A) (j : option json) : res (option A) :=
  match j with
  | None | Some JNull => inr None
  | Some x => let! a := f x in inr (Some a)
  end.
Fixpoint expect_list {A} (f : json -> res A) (l : list json) : res (list A) :=
  match l with
  | [] => inr []
  | x :: l' => let! a := f x in let! r := expect_list f l' in inr (a :: r)
  end.

Definition expect_strs (j : json) : res (list string) :=
  match j with
  | JList l => expect_list expect_str l
  | _ => inl (TypeError "expected a list")
  end.

Definition expect_bool (j : json) : res bool :=
  match j with JBool b => inr b | _ => inl (TypeError "expected a boolean") end.

Definition JStrs (l : list string) : json := JList (map JStr l).

Lemma expect_list_str (l : list string) : expect_list expect_str (map JStr l) = inr l.
Proof. induction l as [|s l IH]; [done|]. simpl. by rewrite IH. Qed.

Lemma expect_strs_JStrs l : expect_strs (JStrs l) = inr l.
Proof. apply expect_list_str. Qed.

Lemma expect_opt_truthy (v : option string) :
  expect_opt expect_str (if truthy v then Some (JStr (opt_str v)) else None)
  = inr (if truthy v then v else None).
Proof. destruct v as [v|]; simpl; [|done]. by case_bool_decide. Qed.

Lemma default_if {A} (d x : A) (b : bool) :
  default d (if b then Some x else None) = if b then x else d.
Proof. by destruct b. Qed.

Example float_int_ex : float_int "2.5e3" = inr 2500 /\ float_int "-7.9" = inr (-7)
  /\ float_int "0.99999999999999999999" = inr 1.
Proof. by vm_compute. Qed.
