(* ===== verification/Mutex.v ===== *)
(** * Per-collection activity counters and mutex
    (app/services/bulk_collection_activity.py, the part below the job store)

    The mutex of a collection is the Redis string
    [geofastmap:bulk_collection_mutex:<collection>], whose value is the job id
    of its owner; activity counters are Redis integers.  Reclaiming stale
    mutexes needs the job store and is in BulkActivity.v. *)

From S2P Require Import Prelude PyTime Redis World.

Definition BULK_COLLECTION_INFLIGHT_PREFIX := "geofastmap:bulk_collection_inflight:".
Definition BULK_COLLECTION_DESTRUCTIVE_PREFIX := "geofastmap:bulk_collection_destructive:".
Definition BULK_COLLECTION_MUTEX_PREFIX := "geofastmap:bulk_collection_mutex:".
Definition DEFAULT_INFLIGHT_TTL_SECONDS : Z := 86400 * 2.
Definition DEFAULT_MUTEX_TTL_SECONDS : Z := 86400 * 2.

Definition TERMINAL_JOB_STATUSES : list string :=
  ["completed"; "failed"; "cancelled"; "error"; "success"; "done"; "succeeded"].

(** [(status or "").lower() in _TERMINAL_JOB_STATUSES] *)
Definition is_terminal_job_status (status : option string) : bool :=
  bool_decide (lower (opt_str status) ∈ TERMINAL_JOB_STATUSES).

Definition mutex_key (collection_id : string) : string :=
  BULK_COLLECTION_MUTEX_PREFIX +:+ collection_id.
Definition inflight_key (collection_id : string) : string :=
  BULK_COLLECTION_INFLIGHT_PREFIX +:+ collection_id.
Definition destructive_key (collection_id : string) : string :=
  BULK_COLLECTION_DESTRUCTIVE_PREFIX +:+ collection_id.

#[export] Instance mutex_key_inj : Inj (=) (=) mutex_key.
Proof. intros x y Hxy. by apply String.app_inj in Hxy. Qed.

Section mutex.
Context `{RedisServer} `{Entropy} (cfg : Settings).

(** ** Activity counters *)

(** The closure [_run] of the two [incr_*] functions. *)
Definition incr_run (key : string) : M unit :=
  redis (IncrBy key 1);;
  redis (Expire key DEFAULT_INFLIGHT_TTL_SECONDS).

(** The closure [_run] of the two [decr_*] functions. *)
Definition decr_run (key : string) : M unit :=
  n ← redis (IncrBy key (-1));
  when (n <=? 0) (redis (Del [key])).

Definition incr_collection_bulk_activity (collection_id : string) : M unit :=
  if negb (is_redis cfg) then mret tt
  else run_redis_retry cfg (incr_run (inflight_key collection_id)) None.

Definition decr_collection_bulk_activity (collection_id : string) : M unit :=
  if negb (is_redis cfg) then mret tt
  else run_redis_retry cfg (decr_run (inflight_key collection_id)) None.

Definition incr_collection_destructive_bulk_activity (collection_id : string) : M unit :=
  if negb (is_redis cfg) then mret tt
  else run_redis_retry cfg (incr_run (destructive_key collection_id)) None.

Definition decr_collection_destructive_bulk_activity (collection_id : string) : M unit :=
  if negb (is_redis cfg) then mret tt
  else run_redis_retry cfg (decr_run (destructive_key collection_id)) None.

(** [bool(v) and int(v) > 0] *)
Definition counter_positive (v : option string) : res bool :=
  if truthy v then (let! n := int_of (opt_str v) in inr (0 <? n)) else inr false.

Definition counter_read (key : string) : M bool :=
  v ← redis (Get key); lift (counter_positive v).

Definition collection_has_bulk_activity (collection_id : string) : M bool :=
  if negb (is_redis cfg) then mret false
  else run_redis_retry cfg (counter_read (inflight_key collection_id)) (Some (read_attempts cfg)).

Definition collection_has_destructive_bulk_activity (collection_id : string) : M bool :=
  if negb (is_redis cfg) then mret false
  else run_redis_retry cfg (counter_read (destructive_key collection_id))
         (Some (read_attempts cfg)).

(** ** Mutex *)

Definition mutex_ttl : Z :=
  Z.max 300 (int_or (bulk_collection_mutex_ttl_seconds cfg) DEFAULT_MUTEX_TTL_SECONDS).

Definition get_collection_bulk_mutex_holder (collection_id : string) : M (option string) :=
  if negb (is_redis cfg) then mret None
  else run_redis_retry cfg
         (v ← redis (Get (mutex_key collection_id));
          mret (if truthy v then v else None))
         (Some (read_attempts cfg)).

Definition holds_collection_bulk_mutex (collection_id owner_job_id : string) : M bool :=
  holder ← get_collection_bulk_mutex_holder collection_id;
  mret (bool_decide (holder = Some owner_job_id)).

(** The closure [_run] of [try_acquire_collection_bulk_mutex]. *)
Definition acquire_run (key owner_job_id : string) (ttl : Z) : M bool :=
  ok ← redis (SetEx key owner_job_id (Some ttl) true);
  if (ok : bool) then mret true
  else
    v ← redis (Get key);
    mret (bool_decide (opt_str v = owner_job_id)).

Definition try_acquire_collection_bulk_mutex (collection_id owner_job_id : string) : M bool :=
  if negb (is_redis cfg) then mret true
  else run_redis_retry cfg (acquire_run (mutex_key collection_id) owner_job_id mutex_ttl)
         (Some (read_attempts cfg)).

(** The closure [_run] of [release_collection_bulk_mutex]. *)
Definition release_run (key owner_job_id : string) : M unit :=
  v ← redis (Get key);
  when (bool_decide (v = Some owner_job_id)) (redis (Del [key])).

Definition release_collection_bulk_mutex (collection_id owner_job_id : string) : M unit :=
  if negb (is_redis cfg) then mret tt
  else run_redis_retry cfg (release_run (mutex_key collection_id) owner_job_id) None.

Definition release_bulk_mutex_for_job (collection_id job_id : string) : M unit :=
  release_collection_bulk_mutex collection_id job_id.

Definition refresh_collection_bulk_mutex (collection_id owner_job_id : string) : M unit :=
  if negb (is_redis cfg) then mret tt
  else run_redis_retry cfg
         (v ← redis (Get (mutex_key collection_id));
          when (bool_decide (v = Some owner_job_id))
            (redis (Expire (mutex_key collection_id) mutex_ttl)))
         None.
End mutex.

(** ** The lock of a collection, abstractly

    A lock is free, or leased to an owner until an expiry.  [lock_step] is what
    each operation promises; the lemmas below show that the Redis code does it
    when its commands are neither lost nor interleaved. *)

Definition lock := option (string * option Z).

Definition lock_of (now : Z) (ks : keyspace) (collection_id : string) : lock :=
  match peek now ks (mutex_key collection_id) with
  | Some (Entry (VStr o) x) => Some (o, x)
  | _ => None
  end.

Inductive lock_op := LAcquire (o : string) | LRelease (o : string) | LRefresh (o : string).

Definition lock_step (now ttl : Z) (op : lock_op) (l : lock) : bool * lock :=
  match op, l with
  | LAcquire o, None => (true, Some (o, Some (now + us ttl)))
  | LAcquire o, Some (h, x) => (bool_decide (h = o), l)
  | LRelease o, Some (h, x) => (true, if decide (h = o) then None else l)
  | LRefresh o, Some (h, x) =>
      (true, if decide (h = o) then Some (h, Some (now + us ttl)) else l)
  | _, None => (true, None)
  end.

(** The Redis operation of an abstract one. *)
Definition lock_run `{RedisServer} `{Entropy} (cfg : Settings) (c : string) (op : lock_op) :
  M bool :=
  match op with
  | LAcquire o => try_acquire_collection_bulk_mutex cfg c o
  | LRelease o => release_collection_bulk_mutex cfg c o ;; mret true
  | LRefresh o => refresh_collection_bulk_mutex cfg c o ;; mret true
  end.

(** A timed sequence of operations, each after a delay. *)
Fixpoint lock_trace `{RedisServer} `{Entropy} (cfg : Settings) (c : string)
    (l : list (Z * lock_op)) : M (list bool) :=
  match l with
  | [] => mret []
  | (d, op) :: l' => sleep d ;; b ← lock_run cfg c op; bs ← lock_trace cfg c l'; mret (b :: bs)
  end.

(** The lock key holds a string, or nothing. *)
Definition lock_typed (now : Z) (ks : keyspace) (c : string) : Prop :=
  forall v, peek_val now ks (mutex_key c) = Some v -> exists s, v = VStr s.

Section mutex_lemmas.
Context `{RedisLaws} `{Entropy} (cfg : Settings).
Context (Hredis : is_redis cfg = true).

Lemma mutex_ttl_pos : 300 <= mutex_ttl cfg.
Proof. unfold mutex_ttl. lia. Qed.

Lemma lock_typed_as_str now ks c :
  lock_typed now ks c -> as_str now ks (mutex_key c) = inr (fst <$> lock_of now ks c).
Proof.
  unfold lock_typed, as_str, peek_val, lock_of. intros Ht.
  destruct (peek now ks (mutex_key c)) as [[v x]|]; [|done]. simpl in *.
  by destruct (Ht v eq_refl) as [s ->].
Qed.

Lemma lock_typed_peek now ks c :
  lock_typed now ks c ->
  peek now ks (mutex_key c) = (fun '(o, x) => Entry (VStr o) x) <$> lock_of now ks c.
Proof.
  unfold lock_typed, peek_val, lock_of. intros Ht.
  destruct (peek now ks (mutex_key c)) as [[v x]|]; [|done]. simpl in *.
  by destruct (Ht v eq_refl) as [s ->].
Qed.

Lemma lock_typed_put now ks c o x : lock_typed now (put ks (mutex_key c) (VStr o) x) c.
Proof. intros v. rewrite peek_val_put_eq. case_match; [|done]. naive_solver. Qed.

Lemma lock_typed_delete now ks c : lock_typed now (delete (mutex_key c) ks) c.
Proof. intros v. by rewrite peek_val_delete_eq. Qed.

Lemma lock_of_put now ks c o x :
  lock_of now (put ks (mutex_key c) (VStr o) x) c =
  if live now (Entry (VStr o) x) then Some (o, x) else None.
Proof. unfold lock_of. rewrite peek_put_eq. by destruct (live now _). Qed.

Lemma lock_of_delete now ks c : lock_of now (delete (mutex_key c) ks) c = None.
Proof. unfold lock_of. by rewrite peek_delete_eq. Qed.

Lemma live_ttl now v : live now (Entry v (Some (now + us (mutex_ttl cfg)))) = true.
Proof. unfold live, us. simpl. pose proof mutex_ttl_pos. apply Z.ltb_lt. lia. Qed.

Lemma peek_lock_spec now ks c o x :
  lock_of now ks c = Some (o, x) -> live now (Entry (VStr o) x) = true.
Proof.
  unfold lock_of, peek. destruct (ks !! mutex_key c) as [[v y]|]; [|done]. simpl.
  destruct (live now (Entry v y)) eqn:Hl; [|done]. by destruct v; intros; simplify_eq/=.
Qed.

Lemma quiet_run w : with_redis w (w_redis w) = w.
Proof. apply with_redis_same. Qed.

Lemma holder_quiet w c :
  quiet w -> lock_typed (w_now w) (w_redis w) c ->
  get_collection_bulk_mutex_holder cfg c w =
  (inr (let v := fst <$> lock_of (w_now w) (w_redis w) c in if truthy v then v else None), w).
Proof.
  intros Hq Ht. unfold get_collection_bulk_mutex_holder. rewrite Hredis. simpl.
  apply run_redis_retry_ok. run_cmd. rewrite (lock_typed_as_str _ _ _ Ht).
  by rewrite with_redis_same.
Qed.

Lemma acquire_quiet w c o :
  quiet w -> lock_typed (w_now w) (w_redis w) c ->
  try_acquire_collection_bulk_mutex cfg c o w =
  match lock_of (w_now w) (w_redis w) c with
  | None => (inr true, with_redis w (put (w_redis w) (mutex_key c) (VStr o)
                                       (Some (w_now w + us (mutex_ttl cfg)))))
  | Some (h, _) => (inr (bool_decide (h = o)), w)
  end.
Proof.
  intros Hq Ht. pose proof (lock_typed_as_str _ _ _ Ht) as Hs.
  pose proof (lock_typed_peek _ _ _ Ht) as Hp.
  unfold try_acquire_collection_bulk_mutex. rewrite Hredis. simpl.
  destruct (lock_of (w_now w) (w_redis w) c) as [[h x]|]; apply run_redis_retry_ok;
    unfold acquire_run; run_cmd; rewrite Hp; simpl; [|done].
  rewrite with_redis_same. run_cmd. by rewrite Hs, with_redis_same.
Qed.

Lemma release_quiet w c o :
  quiet w -> lock_typed (w_now w) (w_redis w) c ->
  release_collection_bulk_mutex cfg c o w =
  (inr tt, if decide (fst <$> lock_of (w_now w) (w_redis w) c = Some o)
           then with_redis w (delete (mutex_key c) (w_redis w)) else w).
Proof.
  intros Hq Ht. unfold release_collection_bulk_mutex. rewrite Hredis. simpl.
  apply run_redis_retry_ok. unfold release_run. run_cmd.
  rewrite (lock_typed_as_str _ _ _ Ht), with_redis_same. simpl. rewrite bool_decide_decide.
  case_decide; simpl; [by run_cmd|done].
Qed.

Lemma refresh_quiet w c o :
  quiet w -> lock_typed (w_now w) (w_redis w) c ->
  refresh_collection_bulk_mutex cfg c o w =
  (inr tt, if decide (fst <$> lock_of (w_now w) (w_redis w) c = Some o)
           then with_redis w (put (w_redis w) (mutex_key c) (VStr o)
                                (Some (w_now w + us (mutex_ttl cfg)))) else w).
Proof.
  intros Hq Ht. pose proof (lock_typed_peek _ _ _ Ht) as Hp.
  unfold refresh_collection_bulk_mutex. rewrite Hredis. simpl.
  apply run_redis_retry_ok. run_cmd.
  rewrite (lock_typed_as_str _ _ _ Ht), with_redis_same. simpl. rewrite bool_decide_decide.
  case_decide as Hd; simpl; [|done]. run_cmd. rewrite Hp.
  destruct (lock_of (w_now w) (w_redis w) c) as [[h x]|]; simplify_eq/=.
  pose proof mutex_ttl_pos. by rewrite (proj2 (Z.leb_gt _ _)) by lia.
Qed.

(** Each operation does what [lock_step] says and touches no other key. *)
Lemma lock_run_quiet w c op :
  quiet w -> lock_typed (w_now w) (w_redis w) c ->
  exists ks', lock_run cfg c op w =
      (inr (lock_step (w_now w) (mutex_ttl cfg) op (lock_of (w_now w) (w_redis w) c)).1,
       with_redis w ks')
    /\ lock_typed (w_now w) ks' c
    /\ lock_of (w_now w) ks' c =
       (lock_step (w_now w) (mutex_ttl cfg) op (lock_of (w_now w) (w_redis w) c)).2
    /\ (forall k, k <> mutex_key c -> ks' !! k = w_redis w !! k).
Proof.
  intros Hq Ht.
  assert (forall o, exists ks', put (w_redis w) (mutex_key c) (VStr o)
     (Some (w_now w + us (mutex_ttl cfg))) = ks' /\ lock_typed (w_now w) ks' c
     /\ lock_of (w_now w) ks' c = Some (o, Some (w_now w + us (mutex_ttl cfg)))
     /\ (forall k, k <> mutex_key c -> ks' !! k = w_redis w !! k)) as Hput.
  { intros o. eexists. split; [done|]. rewrite lock_of_put, live_ttl.
    split; [apply lock_typed_put|]. split; [done|]. intros k Hk.
    unfold put. by rewrite lookup_insert_ne. }
  destruct op as [o|o|o]; simpl.
  - rewrite acquire_quiet by done.
    destruct (lock_of (w_now w) (w_redis w) c) as [[h x]|] eqn:Hl; simpl.
    + exists (w_redis w). by rewrite with_redis_same.
    + destruct (Hput o) as (ks' & -> & ? & ? & ?). by exists ks'.
  - rewrite bind_run, release_quiet by done.
    destruct (lock_of (w_now w) (w_redis w) c) as [[h x]|] eqn:Hl; simpl.
    + destruct (decide (h = o)) as [->|Hne].
      * rewrite decide_True by done. exists (delete (mutex_key c) (w_redis w)).
        rewrite lock_of_delete. split; [done|]. split; [apply lock_typed_delete|].
        split; [done|]. intros k Hk. by rewrite lookup_delete_ne.
      * rewrite decide_False by congruence. exists (w_redis w). by rewrite with_redis_same.
    + exists (w_redis w). by rewrite with_redis_same.
  - rewrite bind_run, refresh_quiet by done.
    destruct (lock_of (w_now w) (w_redis w) c) as [[h x]|] eqn:Hl; simpl.
    + destruct (decide (h = o)) as [->|Hne].
      * rewrite decide_True by done. destruct (Hput o) as (ks' & -> & ? & ? & ?). by exists ks'.
      * rewrite decide_False by congruence. exists (w_redis w). by rewrite with_redis_same.
    + exists (w_redis w). by rewrite with_redis_same.
Qed.

(** While [o] holds the lock and its lease lasts, nobody else gets it. *)
Lemma lock_step_leased now ttl o x op :
  op <> LRelease o ->
  exists y, (lock_step now ttl op (Some (o, Some x))).2 = Some (o, Some y)
            /\ (y = x \/ y = now + us ttl).
Proof.
  intros Hop. destruct op as [o'|o'|o']; simpl.
  - exists x. split; [done|]. by left.
  - rewrite decide_False by congruence. exists x. split; [done|]. by left.
  - case_decide; eexists; (split; [done|]); [by right|by left].
Qed.

Lemma lock_of_later now d ks c o x :
  0 <= d -> now + d < x -> lock_of now ks c = Some (o, Some x) ->
  lock_of (now + d) ks c = Some (o, Some x).
Proof.
  intros Hd Hx. unfold lock_of, peek. destruct (ks !! mutex_key c) as [[v y]|]; [|done]. simpl.
  destruct (live now _); [|done]. destruct v; [|done|done]. intros Hy. simplify_eq/=.
  unfold live. simpl. by rewrite (proj2 (Z.ltb_lt _ _)) by lia.
Qed.

Lemma lock_typed_later now d ks c :
  0 <= d -> lock_typed now ks c -> lock_typed (now + d) ks c.
Proof.
  intros Hd Ht v. unfold lock_typed, peek_val, peek in *.
  destruct (ks !! mutex_key c) as [[v' y]|]; [|done]. simpl in *.
  assert (live (now + d) (Entry v' y) = true -> live now (Entry v' y) = true) as Hl.
  { unfold live. simpl. destruct y as [y|]; [|done]. rewrite !Z.ltb_lt. lia. }
  destruct (live (now + d) _); [|done]. rewrite Hl in Ht by done. apply Ht.
Qed.

(** The delays of a trace are not negative and add up to less than [x]. *)
Fixpoint within (x : Z) (l : list (Z * lock_op)) : Prop :=
  match l with [] => 0 < x | (d, _) :: l' => 0 <= d /\ within (x - d) l' end.

Lemma within_pos x l : within x l -> 0 < x.
Proof. revert x. induction l as [|[d op] l IH]; intros x; simpl; [done|]. intros [? ?%IH]. lia. Qed.

Lemma within_mono x y l : x <= y -> within x l -> within y l.
Proof.
  revert x y. induction l as [|[d op] l IH]; intros x y Hxy; simpl; [lia|].
  intros [? ?]. split; [done|]. apply IH with (x := x - d); [lia|done].
Qed.

Lemma lock_trace_cons c d op l w :
  quiet w -> lock_typed (w_now w) (w_redis w) c -> 0 <= d ->
  exists w' b, quiet w' /\ lock_typed (w_now w') (w_redis w') c
    /\ w_now w' = w_now w + d
    /\ lock_of (w_now w') (w_redis w') c =
       (lock_step (w_now w + d) (mutex_ttl cfg) op (lock_of (w_now w + d) (w_redis w) c)).2
    /\ lock_trace cfg c ((d, op) :: l) w =
       (match lock_trace cfg c l w' with
        | (inr bs, w'') => (inr (b :: bs), w'') | (inl e, w'') => (inl e, w'') end).
Proof.
  intros Hq Ht Hd. cbn [lock_trace]. rewrite bind_run. cbn [sleep].
  set (w1 := World _ _ _ _ _ _ _ _ _ _).
  destruct (lock_run_quiet w1 c op) as (ks' & Hr & Ht' & Hl & _); [done|by apply lock_typed_later|].
  exists (with_redis w1 ks'). eexists. split; [done|]. split; [done|]. split; [done|].
  split; [done|]. rewrite bind_run, Hr, bind_run.
  by destruct (lock_trace cfg c l (with_redis w1 ks')) as [[e|bs] w''].
Qed.

Lemma lock_trace_leased c l o w x :
  quiet w -> lock_typed (w_now w) (w_redis w) c ->
  lock_of (w_now w) (w_redis w) c = Some (o, Some x) ->
  Forall (fun op => op.2 <> LRelease o) l -> within (x - w_now w) l ->
  within (us (mutex_ttl cfg)) l ->
  exists w' bs y, lock_trace cfg c l w = (inr bs, w') /\ quiet w'
    /\ lock_typed (w_now w') (w_redis w') c
    /\ lock_of (w_now w') (w_redis w') c = Some (o, Some y) /\ w_now w' < y.
Proof.
  revert w x. induction l as [|[d op] l IH]; intros w x Hq Ht Hl Hop Hx Httl.
  { exists w, [], x. simpl in Hx. split; [done|]. repeat split; [done..|]. lia. }
  apply Forall_cons in Hop as [Hop Hops]. simpl in Hx, Httl. destruct Hx as [Hd Hx], Httl as [_ Httl].
  pose proof (within_pos _ _ Hx). pose proof mutex_ttl_pos.
  destruct (lock_trace_cons c d op l w Hq Ht Hd) as (w1 & b & Hq1 & Ht1 & Hn1 & Hl1 & ->).
  rewrite (lock_of_later _ _ _ _ _ x) in Hl1 by (done || lia).
  destruct (lock_step_leased (w_now w + d) (mutex_ttl cfg) o x op)
    as (y & Hy & Hyx); [done|]. rewrite Hy in Hl1.
  destruct (IH w1 y Hq1 Ht1 Hl1 Hops) as (w' & bs & z & -> & ?).
  - rewrite Hn1. destruct Hyx as [->| ->]; [by replace (x - (w_now w + d)) with (x - w_now w - d) by lia|].
    eapply within_mono; [|exact Httl]. lia.
  - eapply within_mono; [|exact Httl]. lia.
  - by exists w', (b :: bs), z.
Qed.
End mutex_lemmas.

(** ** Activity counters, abstractly

    A counter is a natural number: a start adds one, an end subtracts one and
    never goes below zero, the key being deleted at zero. *)

Definition counter_of (now : Z) (ks : keyspace) (key : string) : Z :=
  match as_str now ks key with
  | inr (Some s) => default 0 (py_int s)
  | _ => 0
  end.

(** The key is absent or holds a positive integer in decimal. *)
Definition counter_ok (now : Z) (ks : keyspace) (key : string) : Prop :=
  match peek_val now ks key with
  | None => True
  | Some v => exists n, v = VStr (str_of_Z n) /\ 0 < n
  end.

Inductive activity_op := Started | Ended.

Definition activity_run `{RedisServer} `{Entropy} (cfg : Settings) (c : string)
    (op : activity_op) : M unit :=
  match op with
  | Started => incr_collection_bulk_activity cfg c
  | Ended => decr_collection_bulk_activity cfg c
  end.

Definition activity_step (n : Z) (op : activity_op) : Z :=
  match op with Started => n + 1 | Ended => Z.max 0 (n - 1) end.

Fixpoint activity_trace `{RedisServer} `{Entropy} (cfg : Settings) (c : string)
    (l : list activity_op) : M unit :=
  match l with [] => mret tt | op :: l' => activity_run cfg c op ;; activity_trace cfg c l' end.

Section counter_lemmas.
Context `{RedisLaws} `{Entropy} (cfg : Settings).
Context (Hredis : is_redis cfg = true).

Lemma counter_ok_cases now ks key :
  counter_ok now ks key ->
  as_str now ks key = inr None /\ counter_of now ks key = 0 \/
  exists n, 0 < n /\ as_str now ks key = inr (Some (str_of_Z n)) /\ counter_of now ks key = n.
Proof.
  unfold counter_ok, counter_of, as_str. destruct (peek_val now ks key) as [v|]; [|by left].
  intros (n & -> & Hn). right. exists n. split; [done|]. split; [done|].
  by rewrite py_int_str_of_Z.
Qed.

Lemma counter_of_put now ks key n x :
  0 < n -> live now (Entry (VStr (str_of_Z n)) x) = true ->
  counter_ok now (put ks key (VStr (str_of_Z n)) x) key
  /\ counter_of now (put ks key (VStr (str_of_Z n)) x) key = n.
Proof.
  intros Hn Hl. unfold counter_ok, counter_of, as_str. rewrite peek_val_put_eq, Hl.
  split; [by exists n|]. by rewrite py_int_str_of_Z.
Qed.

Lemma counter_of_put_keep now ks key n :
  0 < n ->
  counter_ok now (put_keep now ks key (VStr (str_of_Z n))) key
  /\ counter_of now (put_keep now ks key (VStr (str_of_Z n))) key = n.
Proof.
  intros Hn. unfold counter_ok, counter_of, as_str. rewrite peek_val_put_keep_eq.
  split; [by exists n|]. by rewrite py_int_str_of_Z.
Qed.

Lemma counter_of_delete now ks key :
  counter_ok now (delete key ks) key /\ counter_of now (delete key ks) key = 0.
Proof. unfold counter_ok, counter_of, as_str. by rewrite peek_val_delete_eq. Qed.

Lemma incrby_run w key n :
  quiet w -> counter_ok (w_now w) (w_redis w) key ->
  redis (IncrBy key n) w =
  (inr (counter_of (w_now w) (w_redis w) key + n),
   with_redis w (put_keep (w_now w) (w_redis w) key
                   (VStr (str_of_Z (counter_of (w_now w) (w_redis w) key + n))))).
Proof.
  intros Hq Hc. run_cmd. destruct (counter_ok_cases _ _ _ Hc) as [[-> ->]|(m & _ & -> & ->)]; [done|].
  simpl. by rewrite py_int_str_of_Z.
Qed.

Lemma incr_run_quiet w key :
  quiet w -> counter_ok (w_now w) (w_redis w) key ->
  exists ks', incr_run key w = (inr tt, with_redis w ks')
    /\ counter_ok (w_now w) ks' key
    /\ counter_of (w_now w) ks' key = counter_of (w_now w) (w_redis w) key + 1
    /\ (forall k, k <> key -> ks' !! k = w_redis w !! k).
Proof.
  intros Hq Hc. unfold incr_run. rewrite bind_run, incrby_run by done.
  set (n := counter_of _ _ _). assert (0 <= n) as Hn.
  { subst n. destruct (counter_ok_cases _ _ _ Hc) as [[_ ->]|(m & ? & _ & ->)]; lia. }
  eexists. run_cmd. rewrite peek_put_keep_eq. simpl. split; [done|]. apply and_assoc. split.
  - apply counter_of_put; [lia|]. unfold live, us, DEFAULT_INFLIGHT_TTL_SECONDS. simpl.
    apply Z.ltb_lt. lia.
  - intros k Hk. unfold put_keep, put. by rewrite !lookup_insert_ne.
Qed.

Lemma decr_run_quiet w key :
  quiet w -> counter_ok (w_now w) (w_redis w) key ->
  exists ks', decr_run key w = (inr tt, with_redis w ks')
    /\ counter_ok (w_now w) ks' key
    /\ counter_of (w_now w) ks' key = Z.max 0 (counter_of (w_now w) (w_redis w) key - 1)
    /\ (forall k, k <> key -> ks' !! k = w_redis w !! k).
Proof.
  intros Hq Hc. unfold decr_run. rewrite bind_run, incrby_run by done.
  set (n := counter_of _ _ _).
  destruct (Z.leb_spec (n + -1) 0) as [Hn|Hn]; simpl.
  - eexists. run_cmd. split; [done|]. rewrite Z.max_l by lia. apply and_assoc.
    split; [apply counter_of_delete|]. intros k Hk. unfold put_keep, put.
    by rewrite lookup_delete_ne, lookup_insert_ne.
  - eexists. split; [done|]. rewrite Z.max_r by lia. replace (n - 1) with (n + -1) by lia.
    apply and_assoc. split; [by apply counter_of_put_keep|].
    intros k Hk. unfold put_keep, put. by rewrite lookup_insert_ne.
Qed.

Lemma activity_run_quiet w c op :
  quiet w -> counter_ok (w_now w) (w_redis w) (inflight_key c) ->
  exists ks', activity_run cfg c op w = (inr tt, with_redis w ks')
    /\ counter_ok (w_now w) ks' (inflight_key c)
    /\ counter_of (w_now w) ks' (inflight_key c) =
       activity_step (counter_of (w_now w) (w_redis w) (inflight_key c)) op
    /\ (forall k, k <> inflight_key c -> ks' !! k = w_redis w !! k).
Proof.
  intros Hq Hc. destruct op; simpl.
  - destruct (incr_run_quiet w (inflight_key c)) as (ks' & Hr & ?); [done..|].
    exists ks'. split; [|done]. unfold incr_collection_bulk_activity. rewrite Hredis.
    by apply run_redis_retry_ok.
  - destruct (decr_run_quiet w (inflight_key c)) as (ks' & Hr & ?); [done..|].
    exists ks'. split; [|done]. unfold decr_collection_bulk_activity. rewrite Hredis.
    by apply run_redis_retry_ok.
Qed.

Lemma has_activity_quiet w c :
  quiet w -> counter_ok (w_now w) (w_redis w) (inflight_key c) ->
  collection_has_bulk_activity cfg c w =
  (inr (0 <? counter_of (w_now w) (w_redis w) (inflight_key c)), w).
Proof.
  intros Hq Hc. unfold collection_has_bulk_activity. rewrite Hredis. simpl.
  apply run_redis_retry_ok. unfold counter_read. run_cmd.
  destruct (counter_ok_cases _ _ _ Hc) as [[-> ->]|(m & _ & -> & ->)]; simpl.
  - by rewrite with_redis_same.
  - unfold counter_positive, truthy. rewrite bool_decide_eq_false_2 by apply str_of_Z_nonempty.
    simpl. unfold int_of. rewrite py_int_str_of_Z. simpl. by rewrite with_redis_same.
Qed.

Lemma activity_trace_quiet w c l :
  quiet w -> counter_ok (w_now w) (w_redis w) (inflight_key c) ->
  exists ks', activity_trace cfg c l w = (inr tt, with_redis w ks')
    /\ counter_ok (w_now w) ks' (inflight_key c)
    /\ counter_of (w_now w) ks' (inflight_key c) =
       foldl activity_step (counter_of (w_now w) (w_redis w) (inflight_key c)) l.
Proof.
  revert w. induction l as [|op l IH]; intros w Hq Hc; simpl.
  { exists (w_redis w). by rewrite with_redis_same. }
  destruct (activity_run_quiet w c op Hq Hc) as (ks1 & Hr & Hc1 & Hn1 & _).
  destruct (IH (with_redis w ks1)) as (ks2 & Hr2 & Hc2 & Hn2); [done|done|].
  exists ks2. rewrite bind_run, Hr, Hr2. split; [done|]. split; [done|].
  simpl in Hn2. by rewrite Hn2, Hn1.
Qed.
End counter_lemmas.

(** ** Properties *)

(** C12. The mutex operations implement the lock of [lock_step]: in a quiet
    world, acquiring, releasing or refreshing returns what the abstract lock
    returns, moves the collection's lock as the abstract lock moves, and leaves
    every other key as it was, so the locks of distinct collections are
    independent. *)
Theorem mutex_refines_lock `{RedisLaws} `{Entropy} (cfg : Settings) (w : world) (c : string)
    (op : lock_op) :
  is_redis cfg = true -> quiet w -> lock_typed (w_now w) (w_redis w) c ->
  exists ks', lock_run cfg c op w =
      (inr (lock_step (w_now w) (mutex_ttl cfg) op (lock_of (w_now w) (w_redis w) c)).1,
       with_redis w ks')
    /\ lock_of (w_now w) ks' c =
       (lock_step (w_now w) (mutex_ttl cfg) op (lock_of (w_now w) (w_redis w) c)).2
    /\ (forall k, k <> mutex_key c -> ks' !! k = w_redis w !! k).
Proof.
  intros Hr Hq Ht. destruct (lock_run_quiet cfg Hr w c op Hq Ht) as (ks' & ? & _ & ? & ?).
  by exists ks'.
Qed.

(** C6. Mutual exclusion over time: once [o] has acquired the free lock of a
    collection, then after any sequence of timed acquires and refreshes by
    anyone and releases by jobs other than [o], shorter in total than the
    lease, an acquire by another job [o'] returns [False]. *)
Theorem mutex_exclusive `{RedisLaws} `{Entropy} (cfg : Settings) (w : world) (c o o' : string)
    (l : list (Z * lock_op)) :
  is_redis cfg = true -> quiet w -> lock_typed (w_now w) (w_redis w) c ->
  lock_of (w_now w) (w_redis w) c = None -> o <> o' ->
  Forall (fun op => op.2 <> LRelease o) l -> within (us (mutex_ttl cfg)) l ->
  exists w1 bs w2,
    try_acquire_collection_bulk_mutex cfg c o w = (inr true, w1)
    /\ lock_trace cfg c l w1 = (inr bs, w2)
    /\ try_acquire_collection_bulk_mutex cfg c o' w2 = (inr false, w2).
Proof.
  intros Hr Hq Ht Hl Hne Hops Hw.
  destruct (lock_run_quiet cfg Hr w c (LAcquire o) Hq Ht) as (ks' & Ha & Ht1 & Hl1 & _).
  rewrite Hl in Ha, Hl1. simpl in Ha, Hl1.
  destruct (lock_trace_leased cfg Hr c l o (with_redis w ks') (w_now w + us (mutex_ttl cfg)))
    as (w2 & bs & y & Htr & Hq2 & Ht2 & Hl2 & _); [done|done|done|done| |done|].
  { eapply within_mono; [|done]. simpl. lia. }
  exists (with_redis w ks'), bs, w2. split; [done|]. split; [done|].
  rewrite acquire_quiet, Hl2 by done. by rewrite bool_decide_eq_false_2.
Qed.

(** Soundness of acquire under any schedule: whatever other processes do
    between the commands, however many commands are lost and retried, a job
    that is told it acquired the mutex does own it at the moment of the reply. *)
Theorem acquire_sound `{RedisLaws} `{Entropy} (cfg : Settings) (w w' : world) (c o : string) :
  is_redis cfg = true -> o <> "" ->
  try_acquire_collection_bulk_mutex cfg c o w = (inr true, w') ->
  peek_val (w_now w') (w_redis w') (mutex_key c) = Some (VStr o).
Proof.
  intros Hr Ho Ha. unfold try_acquire_collection_bulk_mutex in Ha.
  rewrite Hr in Ha. simpl in Ha. apply run_redis_retry_last in Ha as [w0 Ha].
  unfold acquire_run in Ha. rewrite bind_run in Ha.
  destruct (redis (SetEx (mutex_key c) o (Some (mutex_ttl cfg)) true) w0) as [[e|[]] w1] eqn:Hs;
    [done| |].
  - apply redis_inv in Hs as [ks Hs]. rewrite exec_set in Hs.
    rewrite ret_run in Ha. simplify_eq. simpl in Hs. case_match; [done|].
    injection Hs as <-. by rewrite peek_val_put_eq, live_ttl.
  - rewrite bind_run in Ha.
    destruct (redis (Get (mutex_key c)) w1) as [[e|v] w2] eqn:Hg; [done|].
    apply redis_inv in Hg as [ks Hg]. rewrite exec_get in Hg.
    rewrite ret_run in Ha. injection Ha as Hv%bool_decide_eq_true ->. unfold as_str in Hg.
    destruct v as [v|]; simpl in Hv; [|by subst]. subst v.
    injection Hg as Hg ->. by destruct (peek_val _ _ _) as [[]|]; simplify_eq.
Qed.

(** Release compares and deletes in two commands: if the owner's lease
    expires and another job acquires the mutex between them, the release of the
    first owner deletes the lock of the second. *)
Theorem release_deletes_other_owner :
  exists (w w' : world),
    lock_of (w_now w) (w_redis w) "roads" = Some ("A", Some (us 10))
    /\ @release_collection_bulk_mutex reference_server reference_entropy default_settings
         "roads" "A" w = (inr tt, w')
    /\ (forall now ks, peek now ks (mutex_key "roads") = None ->
          lock_of now ((tk_env (default quiet_tick (w_sched w !! 1%nat))) now ks) "roads"
          = Some ("B", Some (now + us 172800)))
    /\ lock_of (w_now w') (w_redis w') "roads" = None.
Proof.
  pose (env := fun (now : Z) (ks : keyspace) =>
    (@reference_exec bool (SetEx (mutex_key "roads") "B" (Some 172800) true) now ks).2).
  pose (w := World (put ∅ (mutex_key "roads") (VStr "A") (Some (us 10))) 0
               [quiet_tick; Tick (us 11) env Delivered] [] ∅ [] 0 0 [] no_services).
  exists w. eexists. split; [by vm_compute|].
  split; [apply run_fst; by vm_compute|]. split.
  - intros now ks Hp. unfold w, env. cbn. rewrite Hp. cbn. unfold lock_of. rewrite peek_put_eq.
    unfold live, us. simpl. by rewrite (proj2 (Z.ltb_lt _ _)) by lia.
  - by vm_compute.
Qed.

(** The activity counter counts: in a quiet world, after any sequence of
    starts and ends, [collection_has_bulk_activity] answers whether the count,
    which never goes below zero, is positive. *)
Theorem activity_counter_refines `{RedisLaws} `{Entropy} (cfg : Settings) (w : world) (c : string)
    (l : list activity_op) :
  is_redis cfg = true -> quiet w -> counter_ok (w_now w) (w_redis w) (inflight_key c) ->
  exists w', activity_trace cfg c l w = (inr tt, w')
    /\ collection_has_bulk_activity cfg c w' =
       (inr (0 <? foldl activity_step (counter_of (w_now w) (w_redis w) (inflight_key c)) l), w').
Proof.
  intros Hr Hq Hc. destruct (activity_trace_quiet cfg Hr w c l Hq Hc) as (ks' & Hrun & Hc' & Hn).
  exists (with_redis w ks'). split; [done|]. by rewrite has_activity_quiet, <-Hn.
Qed.

(** A start whose [EXPIRE] is lost is retried from its [INCR]: the counter
    counts it twice, and its single end leaves the collection busy. *)
Theorem incr_retry_counts_twice :
  exists (w w1 w2 : world),
    w_redis w = ∅
    /\ @incr_collection_bulk_activity reference_server reference_entropy default_settings
         "roads" w = (inr tt, w1)
    /\ @decr_collection_bulk_activity reference_server reference_entropy default_settings
         "roads" w1 = (inr tt, w2)
    /\ (@collection_has_bulk_activity reference_server reference_entropy default_settings
         "roads" w2).1 = inr true.
Proof.
  exists (World ∅ 0 [quiet_tick; Tick 0 (fun _ ks => ks) RequestLost] [] ∅ [] 0 0 [] no_services).
  eexists _, _. split; [done|]. split; [apply run_fst; by vm_compute|].
  split; [apply run_fst; by vm_compute|].
  by vm_compute.
Qed.

(** ** Witnesses *)

Lemma mutex_refines_lock_witness :
  exists ks', @lock_run reference_server reference_entropy default_settings "roads" (LAcquire "A")
                empty_world = (inr true, with_redis empty_world ks')
    /\ lock_of 0 ks' "roads" = Some ("A", Some (us 172800))
    /\ (forall k, k <> mutex_key "roads" -> ks' !! k = w_redis empty_world !! k).
Proof.
  apply (@mutex_refines_lock reference_server reference_laws reference_entropy
           default_settings empty_world "roads" (LAcquire "A")); [reflexivity|reflexivity|].
  intros v. by vm_compute.
Defined.

Lemma mutex_exclusive_witness :
  exists w1 bs w2,
    @try_acquire_collection_bulk_mutex reference_server reference_entropy default_settings
      "roads" "A" empty_world = (inr true, w1)
    /\ @lock_trace reference_server reference_entropy default_settings "roads"
         [(us 60, LAcquire "B"); (us 60, LRefresh "A"); (us 60, LRelease "B")] w1 = (inr bs, w2)
    /\ @try_acquire_collection_bulk_mutex reference_server reference_entropy default_settings
         "roads" "B" w2 = (inr false, w2).
Proof.
  apply (@mutex_exclusive reference_server reference_laws reference_entropy default_settings
           empty_world "roads" "A" "B"); [reflexivity|reflexivity| |reflexivity|done| |].
  - intros v. by vm_compute.
  - repeat constructor; done.
  - unfold us. simpl. vm_compute. done.
Defined.

Lemma acquire_sound_witness :
  peek_val 0 (w_redis (@try_acquire_collection_bulk_mutex reference_server reference_entropy
                         default_settings "roads" "A" empty_world).2) (mutex_key "roads")
  = Some (VStr "A").
Proof.
  apply (@acquire_sound reference_server reference_laws reference_entropy default_settings
           empty_world); [reflexivity|done|].
  apply run_fst. by vm_compute.
Defined.

Lemma activity_counter_refines_witness :
  exists w',
    @activity_trace reference_server reference_entropy default_settings "roads"
      [Started; Started; Ended] empty_world = (inr tt, w')
    /\ @collection_has_bulk_activity reference_server reference_entropy default_settings "roads" w'
       = (inr true, w').
Proof.
  apply (@activity_counter_refines reference_server reference_laws reference_entropy
           default_settings empty_world "roads" [Started; Started; Ended]);
    [reflexivity|reflexivity|].
  by vm_compute.
Defined.
