(* ===== verification/JobStore.v ===== *)
(** * Job status store (app/services/job_store.py)

    A job is a [JobInfo].  With the Redis back end it is the hash
    [geofastmap:job:<id>], listed in [geofastmap:jobs_by_collection:<collection>];
    with the memory back end it is an entry of [w_mem_jobs].  [apply_redis] and
    [apply_memory] say what an update means for the job; they differ in how an
    empty message, an empty update and the time zone of time stamps come out.

    Clock readings inside one function are taken at the time of the world; two
    calls of [utcnow] with no Redis command between them read the same time.
    Jobs of the memory back end are shared objects in the program; here an
    operation returns the value the object has when it returns. *)

From Stdlib Require Import Sorted.
From S2P Require Import Prelude PyTime Redis World Json Mutex.

Definition TERMINAL_STATUSES_FOR_FINISHED : list string :=
  ["completed"; "failed"; "cancelled"; "error"; "success"; "done"; "succeeded"].

Definition is_finishing (status : string) : bool :=
  bool_decide (lower status ∈ TERMINAL_STATUSES_FOR_FINISHED).

(** [JobInfo.to_dict] *)
Definition to_dict (j : JobInfo) : list (string * json) :=
  let opt_time (d : option datetime) :=
    match d with Some t => JStr (isoformat_z t) | None => JNull end in
  ([("job_id", JStr (job_id j)); ("collection_id", JStr (collection_id j));
    ("status", JStr (status j));
    ("message", match message j with Some m => JStr m | None => JNull end);
    ("items_in", JInt (items_in j)); ("items_created", JInt (items_created j));
    ("items_failed", JInt (items_failed j));
    ("created_at", JStr (isoformat_z (created_at j)));
    ("updated_at", JStr (isoformat_z (updated_at j)));
    ("finished_at", opt_time (finished_at j));
    ("last_progress_at", opt_time (last_progress_at j))]
   ++ match owner_id j with Some o => [("owner_id", JInt o)] | None => [] end
   ++ match job_label j with Some l => if decide (l = "") then [] else [("job_label", JStr l)]
                           | None => [] end)%list.

(** The keyword arguments of [update_job]. *)
Record JobUpdate := Update {
  u_status : option string;
  u_message : option string;
  u_items_in : option Z;
  u_items_created : option Z;
  u_items_failed : option Z;
  u_finished_at : option datetime
}.

(** The updates the callers make. *)
Definition up_message (m : string) : JobUpdate := Update None (Some m) None None None None.
Definition up_status (s : string) : JobUpdate := Update (Some s) None None None None None.
Definition up (s m : string) : JobUpdate := Update (Some s) (Some m) None None None None.
Definition up_counts (s m : option string) (i c f : option Z) : JobUpdate := Update s m i c f None.

Definition new_job (id coll : string) (owner : option Z) (label : option string) (now : Z) :
  JobInfo :=
  {| job_id := id; collection_id := coll; status := "pending"; message := None;
     items_in := 0; items_created := 0; items_failed := 0;
     created_at := utcnow now; updated_at := utcnow now; finished_at := None;
     last_progress_at := None; owner_id := owner; job_label := label |}.

Definition redis_key (job_id : string) : string := "geofastmap:job:" +:+ job_id.
Definition jobs_by_collection_key (collection_id : string) : string :=
  "geofastmap:jobs_by_collection:" +:+ collection_id.

(** The hash [_create_job_redis] writes. *)
Definition job_mapping (j : JobInfo) : list (string * string) :=
  ([("job_id", job_id j); ("collection_id", collection_id j); ("status", status j);
    ("message", opt_str (message j)); ("items_in", str_of_Z (items_in j));
    ("items_created", str_of_Z (items_created j)); ("items_failed", str_of_Z (items_failed j));
    ("created_at", isoformat_z (created_at j)); ("updated_at", isoformat_z (updated_at j))]
   ++ match finished_at j with Some t => [("finished_at", isoformat_z t)] | None => [] end
   ++ match last_progress_at j with Some t => [("last_progress_at", isoformat_z t)] | None => [] end
   ++ match owner_id j with Some o => [("owner_id", str_of_Z o)] | None => [] end
   ++ (if truthy (job_label j) then [("job_label", opt_str (job_label j))] else []))%list.

(** [datetime.fromisoformat(s.replace("Z", "+00:00"))] *)
Definition parse_time (s : string) : res datetime :=
  match fromisoformat (replace_z s) with
  | Some d => inr d
  | None => inl (ValueError ("Invalid isoformat string: '" +:+ s +:+ "'"))
  end.

(** [raw\["f"\]] and the parse of an optional time field. *)
Definition hash_item (raw : gmap string string) (f : string) : res string :=
  match raw !! f with Some v => inr v | None => inl (KeyError f) end.
Definition parse_opt_time (v : option string) : res (option datetime) :=
  if truthy v then (let! d := parse_time (opt_str v) in inr (Some d)) else inr None.

(** The construction of a [JobInfo] from a non-empty hash, in [_get_job_redis]. *)
Definition parse_job (raw : gmap string string) : res JobInfo :=
  let! fin := parse_opt_time (raw !! "finished_at") in
  let! prog := parse_opt_time (raw !! "last_progress_at") in
  let owner := if truthy (raw !! "owner_id") then py_int (opt_str (raw !! "owner_id")) else None in
  let! id := hash_item raw "job_id" in
  let! coll := hash_item raw "collection_id" in
  let! st := hash_item raw "status" in
  let msg := if truthy (raw !! "message") then raw !! "message" else None in
  let! n_in := int_of (default "0" (raw !! "items_in")) in
  let! n_created := int_of (default "0" (raw !! "items_created")) in
  let! n_failed := int_of (default "0" (raw !! "items_failed")) in
  let! c := hash_item raw "created_at" in let! c := parse_time c in
  let! u := hash_item raw "updated_at" in let! u := parse_time u in
  let label := if truthy (raw !! "job_label") then raw !! "job_label" else None in
  inr (Job id coll st msg n_in n_created n_failed c u fin prog owner label).

(** ** Sorting and selection of jobs *)

(** [jobs.sort(key=lambda j: j.updated_at, reverse=True)]: stable. *)
Fixpoint insert_job (x : JobInfo) (l : list JobInfo) : list JobInfo :=
  match l with
  | [] => [x]
  | y :: l' =>
      if dt_instant (updated_at y) <=? dt_instant (updated_at x) then x :: l
      else y :: insert_job x l'
  end.
Definition sort_desc (l : list JobInfo) : list JobInfo := foldr insert_job [] l.

(** Naive and aware datetimes do not compare. *)
Definition sort_jobs (l : list JobInfo) : res (list JobInfo) :=
  let naive j := bool_decide (dt_tz (updated_at j) = None) in
  if existsb naive l && negb (forallb naive l)
  then inl (TypeError "can't compare offset-naive and offset-aware datetimes")
  else inr (sort_desc l).

Definition of_owner (owner : option Z) (l : list JobInfo) : list JobInfo :=
  match owner with
  | None => l
  | Some o => List.filter (fun j => bool_decide (owner_id j = Some o)) l
  end.

Section job_store.
Context `{RedisServer} `{Entropy} (cfg : Settings).

Definition release_bulk_mutex_on_terminal (job_id : string) (collection_id status : option string) :
  M unit :=
  if negb (truthy collection_id) || negb (truthy status) then mret tt
  else if negb (is_finishing (opt_str status)) then mret tt
  else try_pass (release_bulk_mutex_for_job cfg (opt_str collection_id) job_id).

(** ** Memory back end *)

Definition create_job_memory (collection_id : string) (owner_id : option Z)
    (job_label : option string) : M JobInfo :=
  id ← uuid4;
  now ← get_now;
  let job := new_job id collection_id owner_id job_label now in
  modify (fun w => with_mem_jobs w (dict_set id job (w_mem_jobs w)));;
  mret job.

Definition get_job_memory (job_id : string) : M (option JobInfo) :=
  gets (fun w => dict_get job_id (w_mem_jobs w)).

(** The assignments of [_update_job_memory]. *)
Definition apply_memory (now : Z) (u : JobUpdate) (j : JobInfo) : JobInfo :=
  {| job_id := job_id j;
     collection_id := collection_id j;
     status := default (status j) (u_status u);
     message := match u_message u with Some m => Some m | None => message j end;
     items_in := default (items_in j) (u_items_in u);
     items_created := default (items_created j) (u_items_created u);
     items_failed := default (items_failed j) (u_items_failed u);
     created_at := created_at j;
     updated_at := utcnow now;
     finished_at :=
       match u_finished_at u with
       | Some d => Some d
       | None =>
           match u_status u, finished_at j with
           | Some s, None => if is_finishing s then Some (utcnow now) else None
           | _, f => f
           end
       end;
     last_progress_at :=
       match u_status u, u_items_created u, u_message u with
       | None, None, None => last_progress_at j
       | _, _, _ => Some (utcnow now)
       end;
     owner_id := owner_id j;
     job_label := job_label j |}.

Definition update_job_memory (job_id : string) (u : JobUpdate) : M (option JobInfo) :=
  found ← get_job_memory job_id;
  match found with
  | None => mret None
  | Some j =>
      now ← get_now;
      let j' := apply_memory now u j in
      modify (fun w => with_mem_jobs w (dict_set job_id j' (w_mem_jobs w)));;
      match u_status u with
      | Some s => release_bulk_mutex_on_terminal job_id (Some (collection_id j')) (Some s)
      | None => mret tt
      end;;
      mret (Some j')
  end.

(** ** Redis back end *)

(** The closure [_write] of [_create_job_redis]. *)
Definition write_job (j : JobInfo) : M unit :=
  redis (Hset (redis_key (job_id j)) (job_mapping j));;
  redis (Expire (redis_key (job_id j)) (86400 * 7));;
  redis (Lpush (jobs_by_collection_key (collection_id j)) (job_id j));;
  redis (Ltrim (jobs_by_collection_key (collection_id j)) 0 49);;
  redis (Expire (jobs_by_collection_key (collection_id j)) (86400 * 7)).

Definition create_job_redis (collection_id : string) (owner_id : option Z)
    (job_label : option string) : M JobInfo :=
  id ← uuid4;
  now ← get_now;
  let job := new_job id collection_id owner_id job_label now in
  run_redis_retry cfg (write_job job) None;;
  mret job.

Definition get_job_redis (job_id : string) : M (option JobInfo) :=
  raw ← run_redis_retry cfg (redis (Hgetall (redis_key job_id))) (Some (read_attempts cfg));
  if decide (raw = ∅) then mret None else Some <$> lift (parse_job raw).

(** The dict [updates] of [_update_job_redis], without the two time stamps. *)
Definition update_fields (now : string) (u : JobUpdate) (was_finished : bool) :
  list (string * string) :=
  let finished :=
    match u_finished_at u with
    | Some d => Some (isoformat_z d)
    | None =>
        match u_status u with
        | Some s => if is_finishing s && negb was_finished then Some now else None
        | None => None
        end
    end in
  let field (f : string) (v : option string) :=
    match v with Some x => [(f, x)] | None => [] end in
  (field "status" (u_status u) ++ field "finished_at" finished
   ++ field "message" (u_message u) ++ field "items_in" (str_of_Z <$> u_items_in u)
   ++ field "items_created" (str_of_Z <$> u_items_created u)
   ++ field "items_failed" (str_of_Z <$> u_items_failed u))%list.

Definition update_job_redis (job_id : string) (u : JobUpdate) : M (option JobInfo) :=
  let key := redis_key job_id in
  found ← run_redis_retry cfg (redis (Exists key)) None;
  if negb found then mret None
  else
    collection_id ← run_redis_retry cfg (redis (Hget key "collection_id")) None;
    now ← get_now;
    let now := isoformat_z (utcnow now) in
    was_finished ←
      match u_status u with
      | Some s => if is_finishing s then truthy <$> redis (Hget key "finished_at") else mret false
      | None => mret false
      end;
    let updates := update_fields now u was_finished in
    when (negb (bool_decide (updates = [])))
      (run_redis_retry cfg
         (redis (Hset key (updates ++ [("updated_at", now); ("last_progress_at", now)])%list)) None);;
    match u_status u with
    | Some s => release_bulk_mutex_on_terminal job_id collection_id (Some s)
    | None => mret tt
    end;;
    get_job_redis job_id.

(** ** Public operations *)

Definition create_job (collection_id : string) (owner_id : option Z) (job_label : option string) :
  M JobInfo :=
  if is_redis cfg then create_job_redis collection_id owner_id job_label
  else create_job_memory collection_id owner_id job_label.

Definition get_job (job_id : string) : M (option JobInfo) :=
  if is_redis cfg then get_job_redis job_id else get_job_memory job_id.

Definition update_job (job_id : string) (u : JobUpdate) : M (option JobInfo) :=
  if is_redis cfg then update_job_redis job_id u else update_job_memory job_id u.

Definition list_jobs_for_collection_memory (coll : string) (limit : Z) : M (list JobInfo) :=
  jobs ← gets (fun w =>
    List.filter (fun j => bool_decide (collection_id j = coll)) (map snd (w_mem_jobs w)));
  jobs ← lift (sort_jobs jobs);
  mret (py_upto jobs limit).

Definition list_jobs_for_collection_redis (coll : string) (limit : Z) : M (list JobInfo) :=
  job_ids ← redis (Lrange (jobs_by_collection_key coll) 0 (limit - 1));
  jobs ← collect get_job_redis job_ids;
  jobs ← lift (sort_jobs jobs);
  mret (py_upto jobs limit).

Definition list_jobs_for_collection (coll : string) (limit : Z) (owner : option Z) :
  M (list JobInfo) :=
  let n := match owner with Some _ => limit * 2 | None => limit end in
  raw ← (if is_redis cfg then list_jobs_for_collection_redis coll n
         else list_jobs_for_collection_memory coll n);
  mret (py_upto (of_owner owner raw) limit).

Definition list_all_jobs_memory (limit : Z) : M (list JobInfo) :=
  jobs ← gets (fun w => map snd (w_mem_jobs w));
  jobs ← lift (sort_jobs jobs);
  mret (py_upto jobs limit).

Definition list_all_jobs_redis (limit : Z) : M (list JobInfo) :=
  let prefix := "geofastmap:job:" in
  keys ← redis (Scan (prefix +:+ "*"));
  let job_ids := map (str_drop (String.length prefix))
    (List.filter (fun k => startswith prefix k && negb (bool_decide (k = prefix))) keys) in
  jobs ← collect get_job_redis job_ids;
  jobs ← lift (sort_jobs jobs);
  mret (py_upto jobs limit).

Definition list_all_jobs (limit : Z) (owner : option Z) (offset : Z) : M (list JobInfo) :=
  let fetch := Z.max (limit + offset) 1 in
  let fetch := match owner with
               | Some _ => Z.min (Z.max (fetch * 2) (fetch + 50)) 10000
               | None => Z.min fetch 10000
               end in
  raw ← (if is_redis cfg then list_all_jobs_redis fetch else list_all_jobs_memory fetch);
  mret (py_slice (of_owner owner raw) offset (offset + limit)).

Definition list_all_jobs_unpaginated (owner : option Z) (max_jobs : Z) : M (list JobInfo) :=
  let cap := Z.max 1 (Z.min max_jobs 10000) in
  raw ← (if is_redis cfg then list_all_jobs_redis cap else list_all_jobs_memory cap);
  mret (py_upto (of_owner owner raw) cap).
End job_store.

(** ** Specification of updates *)

(** The stored time [d] is read back as UTC. *)
Definition read_back (d : datetime) : datetime := as_utc d.

Definition no_update (u : JobUpdate) : bool :=
  match u with Update None None None None None None => true | _ => false end.

(** What [update_job] with the Redis back end makes of a job. *)
Definition apply_redis (now : Z) (u : JobUpdate) (j : JobInfo) : JobInfo :=
  {| job_id := job_id j;
     collection_id := collection_id j;
     status := default (status j) (u_status u);
     message := match u_message u with
                | Some m => if decide (m = "") then None else Some m
                | None => message j
                end;
     items_in := default (items_in j) (u_items_in u);
     items_created := default (items_created j) (u_items_created u);
     items_failed := default (items_failed j) (u_items_failed u);
     created_at := created_at j;
     updated_at := if no_update u then updated_at j else now_utc now;
     finished_at :=
       match u_finished_at u with
       | Some d => Some (read_back d)
       | None =>
           match u_status u, finished_at j with
           | Some s, None => if is_finishing s then Some (now_utc now) else None
           | _, f => f
           end
       end;
     last_progress_at := if no_update u then last_progress_at j else Some (now_utc now);
     owner_id := owner_id j;
     job_label := job_label j |}.

(** A job is stored when its hash parses to it. *)
Definition job_stored (now : Z) (ks : keyspace) (id : string) (j : JobInfo) : Prop :=
  exists h, as_hash now ks (redis_key id) = inr h /\ h <> ∅ /\ parse_job h = inr j.

(** Times an update may carry: naive, in the range of [datetime]. *)
Definition update_ok (u : JobUpdate) : Prop :=
  match u_finished_at u with Some d => dt_tz d = None /\ dt_range d | None => True end.

(** ** The parse of a job hash, field by field *)

Record job_hash (h : gmap string string) (j : JobInfo) : Prop := {
  jh_finished : parse_opt_time (h !! "finished_at") = inr (finished_at j);
  jh_progress : parse_opt_time (h !! "last_progress_at") = inr (last_progress_at j);
  jh_owner : (if truthy (h !! "owner_id") then py_int (opt_str (h !! "owner_id")) else None)
             = owner_id j;
  jh_id : h !! "job_id" = Some (job_id j);
  jh_coll : h !! "collection_id" = Some (collection_id j);
  jh_status : h !! "status" = Some (status j);
  jh_message : (if truthy (h !! "message") then h !! "message" else None) = message j;
  jh_in : int_of (default "0" (h !! "items_in")) = inr (items_in j);
  jh_created : int_of (default "0" (h !! "items_created")) = inr (items_created j);
  jh_failed : int_of (default "0" (h !! "items_failed")) = inr (items_failed j);
  jh_created_at : exists s, h !! "created_at" = Some s /\ parse_time s = inr (created_at j);
  jh_updated_at : exists s, h !! "updated_at" = Some s /\ parse_time s = inr (updated_at j);
  jh_label : (if truthy (h !! "job_label") then h !! "job_label" else None) = job_label j
}.

Lemma res_bind_inr {A B} (r : res A) (f : A -> res B) b :
  res_bind r f = inr b -> exists a, r = inr a /\ f a = inr b.
Proof. destruct r as [e|a]; [done|]. by exists a. Qed.

Lemma hash_item_inr h f v : hash_item h f = inr v -> h !! f = Some v.
Proof. unfold hash_item. destruct (h !! f); intros; by simplify_eq. Qed.

Lemma parse_job_hash h j : parse_job h = inr j -> job_hash h j.
Proof.
  unfold parse_job. cbv zeta. intros Hp.
  repeat (apply res_bind_inr in Hp as (? & ? & Hp)). injection Hp as <-.
  repeat match goal with H : hash_item _ _ = inr _ |- _ => apply hash_item_inr in H end.
  split; simpl; eauto.
Qed.

Lemma job_hash_parse h j : job_hash h j -> parse_job h = inr j.
Proof.
  intros []. destruct jh_created_at0 as (sc & Hsc & Hc), jh_updated_at0 as (su & Hsu & Hu).
  unfold parse_job, hash_item. rewrite jh_finished0, jh_progress0, jh_id0, jh_coll0, jh_status0,
    jh_in0, jh_created0, jh_failed0, Hsc, Hsu. simpl. rewrite Hc. simpl. rewrite Hu. simpl.
  rewrite jh_owner0, jh_message0, jh_label0. by destruct j.
Qed.

(** The effect of an optional field of a mapping. *)
Definition opt_insert (f : string) (v : option string) (h : gmap string string) :
  gmap string string :=
  match v with Some x => <[f := x]> h | None => h end.

Lemma lookup_opt_insert_eq f v h :
  opt_insert f v h !! f = match v with Some x => Some x | None => h !! f end.
Proof. destruct v; simpl; by simpl_map. Qed.

Lemma lookup_opt_insert_ne f g v h : f <> g -> opt_insert f v h !! g = h !! g.
Proof. intros Hne. destruct v; simpl; by simpl_map. Qed.

Lemma hset_all_app h l1 l2 : hset_all h (l1 ++ l2)%list = hset_all (hset_all h l1) l2.
Proof. apply foldl_app. Qed.

Lemma hset_all_opt h f (v : option string) :
  hset_all h (match v with Some x => [(f, x)] | None => [] end) = opt_insert f v h.
Proof. by destruct v. Qed.

Ltac lookup_fields :=
  repeat first
    [ rewrite lookup_insert_eq | rewrite lookup_insert_ne by discriminate
    | rewrite lookup_opt_insert_eq | rewrite lookup_opt_insert_ne by discriminate ].

Lemma parse_time_stamp d :
  dt_tz d = None -> dt_range d -> parse_time (isoformat_z d) = inr (read_back d).
Proof.
  destruct d as [t tz]. simpl. intros -> Hr. unfold parse_time.
  change (DT t None) with (utcnow t). by rewrite (fromisoformat_isoformat_z t Hr).
Qed.

Lemma isoformat_z_nonempty d : isoformat_z d <> "".
Proof. unfold isoformat_z, isoformat_then, iso_body. by cbv zeta. Qed.

Lemma parse_opt_time_stamp d :
  dt_tz d = None -> dt_range d -> parse_opt_time (Some (isoformat_z d)) = inr (Some (read_back d)).
Proof.
  intros Ht Hr. unfold parse_opt_time, truthy.
  rewrite bool_decide_eq_false_2 by apply isoformat_z_nonempty.
  change (opt_str (Some ?x)) with x. cbn [negb]. by rewrite parse_time_stamp.
Qed.

Lemma parse_opt_time_truthy v d : parse_opt_time v = inr d -> truthy v = bool_decide (is_Some d).
Proof.
  unfold parse_opt_time. destruct (truthy v); [|by intros [= <-]].
  intros (x & _ & [= <-])%res_bind_inr. done.
Qed.

Lemma int_of_str_of_Z z : int_of (str_of_Z z) = inr z.
Proof. unfold int_of. by rewrite py_int_str_of_Z. Qed.

Lemma int_of_update (h : gmap string string) f (v : option Z) n :
  int_of (default "0" (h !! f)) = inr n ->
  int_of (default "0" (match str_of_Z <$> v with Some x => Some x | None => h !! f end))
  = inr (default n v).
Proof. intros Hn. destruct v as [z|]; simpl; [apply int_of_str_of_Z|done]. Qed.

(** Writing the fields of an update changes the parsed job as [apply_redis] says. *)
Lemma update_hash now u h j :
  job_hash h j -> dt_range (utcnow now) -> update_ok u -> no_update u = false ->
  job_hash (hset_all h (update_fields (isoformat_z (utcnow now)) u
              (match u_status u with
               | Some s => if is_finishing s then truthy (h !! "finished_at") else false
               | None => false end)
            ++ [("updated_at", isoformat_z (utcnow now)); ("last_progress_at", isoformat_z (utcnow now))])%list)
           (apply_redis now u j).
Proof.
  intros Hj Hnow Hu Hn. unfold update_fields. cbv zeta.
  rewrite !hset_all_app, !hset_all_opt.
  change (hset_all ?h [(?f, ?x); (?g, ?y)]) with (<[g := y]> (<[f := x]> h)).
  destruct Hj as [Hfin Hprog Hown Hid Hcoll Hst Hmsg Hin Hcr Hfa Hca Hua Hlab].
  split; unfold apply_redis; cbn [finished_at last_progress_at owner_id job_id collection_id status
    message items_in items_created items_failed created_at updated_at job_label]; rewrite ?Hn;
    lookup_fields; try done.
  - unfold update_ok in Hu. destruct (u_finished_at u) as [d|].
    { destruct Hu. by apply parse_opt_time_stamp. }
    pose proof (parse_opt_time_truthy _ _ Hfin) as Ht.
    destruct (u_status u) as [s|]; [|by rewrite Hfin; destruct (finished_at j)].
    destruct (is_finishing s); simpl.
    + rewrite Ht. destruct (finished_at j) as [d|] eqn:Hf; simpl; [done|].
      by apply (parse_opt_time_stamp (utcnow now)).
    + rewrite Hfin. by destruct (finished_at j).
  - by apply (parse_opt_time_stamp (utcnow now)).
  - rewrite Hst. by destruct (u_status u).
  - destruct (u_message u) as [m|]; [|done]. simpl. rewrite bool_decide_decide. by case_decide.
  - by apply int_of_update.
  - by apply int_of_update.
  - by apply int_of_update.
  - eexists. split; [done|]. by apply (parse_time_stamp (utcnow now)).
Qed.

(** ** Operations in a quiet world *)

Lemma redis_key_mutex id c : redis_key id <> mutex_key c.
Proof. by key_neq. Qed.
Lemma redis_key_index id c : redis_key id <> jobs_by_collection_key c.
Proof. by key_neq. Qed.
#[export] Instance redis_key_inj : Inj (=) (=) redis_key.
Proof. intros x y Hxy. by apply String.app_inj in Hxy. Qed.

#[export] Hint Resolve redis_key_mutex redis_key_index : geofast.

Lemma job_stored_peek now ks id j :
  job_stored now ks id j -> is_Some (peek now ks (redis_key id)).
Proof.
  intros (h & Hh & Hne & _). apply is_Some_peek_val. unfold as_hash in Hh.
  destruct (peek_val now ks (redis_key id)); [done|]. congruence.
Qed.

(** The stored job depends on its own key only. *)
Lemma job_stored_frame now ks ks' id j :
  ks' !! redis_key id = ks !! redis_key id -> job_stored now ks id j -> job_stored now ks' id j.
Proof.
  intros Hk (h & Hh & ?). exists h. split; [|done]. rewrite <-Hh. apply as_hash_peek.
  unfold peek_val, peek. by rewrite Hk.
Qed.

Lemma job_stored_put_keep now ks id j h :
  h <> ∅ -> parse_job h = inr j -> job_stored now (put_keep now ks (redis_key id) (VHash h)) id j.
Proof. intros Hne Hp. exists h. unfold as_hash. by rewrite peek_val_put_keep_eq. Qed.

Lemma lock_frame now ks ks' c :
  ks' !! mutex_key c = ks !! mutex_key c ->
  lock_of now ks' c = lock_of now ks c /\ (lock_typed now ks c -> lock_typed now ks' c).
Proof. intros Hk. unfold lock_of, lock_typed, peek_val, peek. by rewrite Hk. Qed.

Section job_lemmas.
Context `{RedisLaws} `{Entropy} (cfg : Settings).
Context (Hredis : is_redis cfg = true).

Lemma get_job_quiet w id j :
  quiet w -> job_stored (w_now w) (w_redis w) id j -> get_job cfg id w = (inr (Some j), w).
Proof.
  intros Hq (h & Hh & Hne & Hp). unfold get_job. rewrite Hredis. unfold get_job_redis.
  rewrite bind_run.
  rewrite run_redis_retry_ok with (a := h) (w' := w).
  - rewrite decide_False by done. rewrite fmap_run, lift_run. by rewrite Hp.
  - rewrite redis_quiet by done. autorewrite with redis_exec. rewrite Hh. simpl.
    by rewrite with_redis_same.
Qed.

(** A missing job reads as [None]. *)
Lemma get_job_missing w id :
  quiet w -> peek (w_now w) (w_redis w) (redis_key id) = None -> get_job cfg id w = (inr None, w).
Proof.
  intros Hq Hp. unfold get_job. rewrite Hredis. unfold get_job_redis. rewrite bind_run.
  rewrite run_redis_retry_ok with (a := ∅) (w' := w); [done|].
  rewrite redis_quiet by done. autorewrite with redis_exec. unfold as_hash, peek_val. rewrite Hp.
  simpl. by rewrite with_redis_same.
Qed.

(** The keyspace after the release that follows a status update. *)
Definition after_release (now : Z) (ks : keyspace) (id c : string) (st : option string) : keyspace :=
  match st with
  | Some s =>
      if is_finishing s && negb (bool_decide (c = ""))
         && bool_decide (fst <$> lock_of now ks c = Some id)
      then delete (mutex_key c) ks else ks
  | None => ks
  end.

Lemma release_on_terminal_quiet w id c st :
  quiet w -> lock_typed (w_now w) (w_redis w) c ->
  match st with
  | Some s => release_bulk_mutex_on_terminal cfg id (Some c) (Some s)
  | None => mret tt
  end w = (inr tt, with_redis w (after_release (w_now w) (w_redis w) id c st)).
Proof.
  intros Hq Ht. destruct st as [s|]; simpl; [|by rewrite with_redis_same].
  unfold release_bulk_mutex_on_terminal. simpl.
  destruct (bool_decide (c = "")) eqn:Hc; simpl.
  { rewrite andb_false_r. simpl. by rewrite with_redis_same. }
  destruct (bool_decide (s = "")) eqn:Hs; simpl.
  { apply bool_decide_eq_true in Hs as ->. simpl. by rewrite with_redis_same. }
  destruct (is_finishing s); simpl; [|by rewrite with_redis_same].
  rewrite try_pass_run. unfold release_bulk_mutex_for_job. rewrite release_quiet by done.
  simpl.
  clear Hc Hs. case_decide as Hd.
  - rewrite bool_decide_eq_true_2 by exact Hd. done.
  - rewrite bool_decide_eq_false_2 by exact Hd. by rewrite with_redis_same.
Qed.

Lemma after_release_frame now ks id c st k :
  k <> mutex_key c -> after_release now ks id c st !! k = ks !! k.
Proof.
  intros Hk. unfold after_release. destruct st; [|done]. case_match; [|done].
  by rewrite lookup_delete_ne.
Qed.

(** The keyspace an update leaves. *)
Definition update_ks (now : Z) (ks : keyspace) (id : string) (u : JobUpdate) (c : string)
    (h : gmap string string) : keyspace :=
  after_release now (if no_update u then ks else put_keep now ks (redis_key id) (VHash h)) id c
    (u_status u).

(** A terminal status frees the mutex the job holds, and no other. *)
Lemma after_release_lock now ks id c s :
  is_finishing s = true -> c <> "" ->
  lock_of now (after_release now ks id c (Some s)) c =
  if bool_decide (fst <$> lock_of now ks c = Some id) then None else lock_of now ks c.
Proof.
  intros Hf Hc. unfold after_release. rewrite Hf, bool_decide_eq_false_2 by done. cbn [negb andb].
  case_bool_decide; [apply lock_of_delete|done].
Qed.

Lemma update_fields_nil now u b : update_fields now u b = [] <-> no_update u = true.
Proof.
  destruct u as [[|] [|] [|] [|] [|] [|]]; unfold update_fields; simpl; try done;
    by destruct (_ && _).
Qed.

Lemma apply_redis_nothing now u j : no_update u = true -> apply_redis now u j = j.
Proof.
  destruct u as [[|] [|] [|] [|] [|] [|]]; try done. intros _. destruct j. unfold apply_redis. simpl.
  done.
Qed.

(** The hash an update writes over [h]. *)
Definition updated_hash (now : Z) (u : JobUpdate) (h : gmap string string) : gmap string string :=
  hset_all h (update_fields (isoformat_z (utcnow now)) u
              (match u_status u with
               | Some s => if is_finishing s then truthy (h !! "finished_at") else false
               | None => false end)
            ++ [("updated_at", isoformat_z (utcnow now));
                ("last_progress_at", isoformat_z (utcnow now))])%list.

Lemma update_ks_stored now ks id u j h :
  as_hash now ks (redis_key id) = inr h -> h <> ∅ -> parse_job h = inr j ->
  dt_range (utcnow now) -> update_ok u ->
  job_stored now (update_ks now ks id u (collection_id j) (updated_hash now u h)) id
    (apply_redis now u j).
Proof.
  intros Hh Hne Hp Hnow Hu. pose proof (parse_job_hash _ _ Hp) as Hj. unfold update_ks.
  eapply job_stored_frame; [apply after_release_frame; auto with geofast|].
  destruct (no_update u) eqn:Hn.
  - exists h. by rewrite apply_redis_nothing.
  - pose proof (update_hash _ _ _ _ Hj Hnow Hu Hn) as Hj'. apply job_stored_put_keep.
    + intros He. pose proof (jh_id _ _ Hj') as Hid. unfold updated_hash in He.
      rewrite He in Hid. by rewrite lookup_empty in Hid.
    + by apply job_hash_parse.
Qed.

Lemma write_update_quiet w id u h :
  quiet w -> as_hash (w_now w) (w_redis w) (redis_key id) = inr h ->
  let now := isoformat_z (utcnow (w_now w)) in
  let fin := match u_status u with
             | Some s => if is_finishing s then truthy (h !! "finished_at") else false
             | None => false end in
  when (negb (bool_decide (update_fields now u fin = [])))
    (run_redis_retry cfg (redis (Hset (redis_key id)
       (update_fields now u fin ++ [("updated_at", now); ("last_progress_at", now)])%list)) None) w
  = (inr tt, with_redis w (if no_update u then w_redis w
       else put_keep (w_now w) (w_redis w) (redis_key id) (VHash (updated_hash (w_now w) u h)))).
Proof.
  intros Hq Hh now fin. destruct (no_update u) eqn:Hn; simpl.
  - rewrite bool_decide_eq_true_2 by (by apply update_fields_nil). simpl. by rewrite with_redis_same.
  - rewrite bool_decide_eq_false_2 by (rewrite update_fields_nil, Hn; done). simpl.
    apply run_redis_retry_ok. rewrite redis_quiet by done. autorewrite with redis_exec.
    by rewrite Hh.
Qed.

Lemma was_finished_quiet w id u h :
  quiet w -> as_hash (w_now w) (w_redis w) (redis_key id) = inr h ->
  (match u_status u with
   | Some s => if is_finishing s then truthy <$> redis (Hget (redis_key id) "finished_at")
               else mret false
   | None => mret false end : M bool) w
  = (inr (match u_status u with
          | Some s => if is_finishing s then truthy (h !! "finished_at") else false
          | None => false end), w).
Proof.
  intros Hq Hh. destruct (u_status u) as [s|]; [|done]. destruct (is_finishing s); [|done].
  rewrite fmap_run, redis_quiet by done. autorewrite with redis_exec. rewrite Hh. simpl.
  by rewrite with_redis_same.
Qed.

(** An update of a stored job, in a quiet world. *)
Lemma update_job_quiet w id u j h :
  quiet w -> as_hash (w_now w) (w_redis w) (redis_key id) = inr h -> h <> ∅ ->
  parse_job h = inr j -> lock_typed (w_now w) (w_redis w) (collection_id j) ->
  dt_range (utcnow (w_now w)) -> update_ok u ->
  update_job cfg id u w =
    (inr (Some (apply_redis (w_now w) u j)),
     with_redis w (update_ks (w_now w) (w_redis w) id u (collection_id j)
                     (updated_hash (w_now w) u h))).
Proof.
  intros Hq Hh Hne Hp Hlt Hnow Hu.
  pose proof (update_ks_stored _ _ _ _ _ _ Hh Hne Hp Hnow Hu) as Hst'.
  set (ks' := update_ks _ _ _ _ _ _) in *.
  assert (is_Some (peek (w_now w) (w_redis w) (redis_key id))) as Hpk
    by (eapply job_stored_peek; by exists h).
  unfold update_job. rewrite Hredis. unfold update_job_redis. rewrite bind_run.
  rewrite run_redis_retry_ok with (a := true) (w' := w).
  2: { rewrite redis_quiet by done. autorewrite with redis_exec.
       rewrite bool_decide_eq_true_2 by done. simpl. by rewrite with_redis_same. }
  cbn [negb]. rewrite bind_run.
  rewrite run_redis_retry_ok with (a := Some (collection_id j)) (w' := w).
  2: { rewrite redis_quiet by done. autorewrite with redis_exec. rewrite Hh. simpl.
       by rewrite with_redis_same, (jh_coll _ _ (parse_job_hash _ _ Hp)). }
  rewrite bind_run, get_now_run, bind_run, (was_finished_quiet _ _ _ h), bind_run by done.
  rewrite (write_update_quiet _ _ _ h), bind_run by done.
  rewrite release_on_terminal_quiet; [|done|].
  2: { apply (lock_frame (w_now w) (w_redis w)); [|done]. simpl. destruct (no_update u); [done|].
       unfold put_keep, put. rewrite lookup_insert_ne; auto with geofast. }
  pose proof (get_job_quiet (with_redis w ks') id _ Hq Hst') as Hget.
  unfold get_job in Hget. by rewrite Hredis in Hget.
Qed.

(** *** Creation *)

(** How a created job is read back: times become aware, an empty label is none. *)
Definition read_job (j : JobInfo) : JobInfo :=
  {| job_id := job_id j; collection_id := collection_id j; status := status j;
     message := message j; items_in := items_in j; items_created := items_created j;
     items_failed := items_failed j; created_at := read_back (created_at j);
     updated_at := read_back (updated_at j); finished_at := finished_at j;
     last_progress_at := last_progress_at j; owner_id := owner_id j;
     job_label := if truthy (job_label j) then job_label j else None |}.

Lemma new_job_hash id c owner label now :
  dt_range (utcnow now) ->
  job_hash (hset_all ∅ (job_mapping (new_job id c owner label now)))
    (read_job (new_job id c owner label now)).
Proof.
  intros Hnow. pose proof (parse_time_stamp (utcnow now) eq_refl Hnow) as Ht.
  unfold job_mapping, new_job. cbn [finished_at last_progress_at owner_id job_label job_id
    collection_id status message items_in items_created items_failed created_at updated_at app].
  assert (hset_all ∅ [("job_id", id); ("collection_id", c); ("status", "pending");
    ("message", opt_str None); ("items_in", str_of_Z 0); ("items_created", str_of_Z 0);
    ("items_failed", str_of_Z 0); ("created_at", isoformat_z (utcnow now));
    ("updated_at", isoformat_z (utcnow now))] = <["updated_at" := isoformat_z (utcnow now)]>
    (<["created_at" := isoformat_z (utcnow now)]> (<["items_failed" := "0"]>
    (<["items_created" := "0"]> (<["items_in" := "0"]> (<["message" := ""]>
    (<["status" := "pending"]> (<["collection_id" := c]> (<["job_id" := id]> ∅))))))))) as Hb
    by reflexivity.
  match goal with |- job_hash (hset_all ∅ ?l) _ =>
    change l with ([("job_id", id); ("collection_id", c); ("status", "pending");
      ("message", opt_str None); ("items_in", str_of_Z 0); ("items_created", str_of_Z 0);
      ("items_failed", str_of_Z 0); ("created_at", isoformat_z (utcnow now));
      ("updated_at", isoformat_z (utcnow now))] ++ (match owner with
        | Some o => [("owner_id", str_of_Z o)] | None => [] end
      ++ (if truthy label then [("job_label", opt_str label)] else [])))%list end.
  rewrite !hset_all_app, Hb. clear Hb.
  assert (forall h, hset_all h (match owner with Some o => [("owner_id", str_of_Z o)] | None => [] end)
    = opt_insert "owner_id" (str_of_Z <$> owner) h) as -> by (by destruct owner).
  assert (forall h, hset_all h (if truthy label then [("job_label", opt_str label)] else [])
    = opt_insert "job_label" (if truthy label then label else None) h) as ->.
  { intros h. destruct label as [l|]; simpl; [|done]. by case_bool_decide. }
  split; unfold read_job; cbn [finished_at last_progress_at owner_id job_label job_id
    collection_id status message items_in items_created items_failed created_at updated_at];
    lookup_fields; rewrite ?lookup_empty; try done.
  - destruct owner as [o|]; simpl; [|done].
    rewrite bool_decide_eq_false_2 by apply str_of_Z_nonempty. simpl. apply py_int_str_of_Z.
  - by exists (isoformat_z (utcnow now)).
  - by exists (isoformat_z (utcnow now)).
  - destruct label as [l|]; simpl; [|done]. case_bool_decide as Hl; simpl; [done|].
    by rewrite bool_decide_eq_false_2.
Qed.

Lemma list_slice_head50 (x : string) l : list_slice (x :: l) 0 49 = take 50 (x :: l).
Proof.
  unfold list_slice. cbv zeta. change (49 <? 0) with false. change (0 <? 0) with false. cbv iota.
  assert (1 <= Z.of_nat (length (x :: l))) by (simpl; lia).
  rewrite (proj2 (Z.ltb_ge _ _)) by lia. change (drop (Z.to_nat (Z.max 0 0)) (x :: l)) with (x :: l).
  replace (Z.to_nat (Z.min (Z.of_nat (length (x :: l)) - 1) 49 - Z.max 0 0 + 1))
    with (length (x :: l) `min` 50)%nat by lia.
  destruct (Nat.min_spec (length (x :: l)) 50) as [[Hlt ->]|[_ ->]]; [|done].
  by rewrite firstn_all, take_ge by lia.
Qed.

Lemma live_week now v : live now (Entry v (Some (now + us (86400 * 7)))) = true.
Proof. unfold live, us. simpl. apply Z.ltb_lt. lia. Qed.

(** The keyspace the write of a new job leaves. *)
Definition created_ks (now : Z) (ks : keyspace) (j : JobInfo) (l : list string) : keyspace :=
  let key := redis_key (job_id j) in let idx := jobs_by_collection_key (collection_id j) in
  let h := VHash (hset_all ∅ (job_mapping j)) in
  let x := Some (now + us (86400 * 7)) in
  let ks := put (put_keep now ks key h) key h x in
  put (put_keep now (put_keep now ks idx (VList (job_id j :: l))) idx
         (VList (take 50 (job_id j :: l)))) idx (VList (take 50 (job_id j :: l))) x.

Lemma write_job_quiet w j l :
  quiet w -> peek (w_now w) (w_redis w) (redis_key (job_id j)) = None ->
  as_list (w_now w) (w_redis w) (jobs_by_collection_key (collection_id j)) = inr l ->
  write_job j w = (inr tt, with_redis w (created_ks (w_now w) (w_redis w) j l)).
Proof.
  intros Hq Hfresh Hidx. unfold write_job, created_ks. cbv zeta.
  set (key := redis_key (job_id j)) in *. set (idx := jobs_by_collection_key (collection_id j)) in *.
  assert (key <> idx) as Hne by (unfold key, idx; auto with geofast).
  erewrite bind_redis; [|done|].
  2: { autorewrite with redis_exec. unfold as_hash, peek_val. rewrite Hfresh. reflexivity. }
  erewrite bind_redis; [|done|].
  2: { eapply exec_expire_live; [apply peek_put_keep_eq|lia]. }
  erewrite bind_redis; [|done|].
  2: { autorewrite with redis_exec. cbn [w_now w_redis with_redis].
       rewrite (as_list_peek _ (w_now w) _ (w_redis w)), Hidx; [reflexivity|].
       by rewrite peek_val_put_ne, peek_val_put_keep_ne. }
  erewrite bind_redis; [|done|].
  2: { autorewrite with redis_exec. cbn [w_now w_redis with_redis].
       unfold as_list at 1. rewrite peek_val_put_keep_eq.
       cbn [with_reply]. rewrite list_slice_head50. reflexivity. }
  erewrite redis_ok; [|done|].
  2: { eapply exec_expire_live; [apply peek_put_keep_eq|lia]. }
  reflexivity.
Qed.

Lemma create_job_quiet w c owner label l :
  let id := uuid4_nth (w_uuids w) in let j := new_job id c owner label (w_now w) in
  quiet w -> peek (w_now w) (w_redis w) (redis_key id) = None ->
  as_list (w_now w) (w_redis w) (jobs_by_collection_key c) = inr l -> dt_range (utcnow (w_now w)) ->
  exists ks', create_job cfg c owner label w = (inr j, with_redis (draw_uuid w) ks')
    /\ job_stored (w_now w) ks' id (read_job j)
    /\ as_list (w_now w) ks' (jobs_by_collection_key c) = inr (take 50 (id :: l))
    /\ (forall k, k <> redis_key id -> k <> jobs_by_collection_key c -> ks' !! k = w_redis w !! k).
Proof.
  intros id j Hq Hfresh Hidx Hnow. pose proof (new_job_hash id c owner label _ Hnow) as Hj.
  fold j in Hj. exists (created_ks (w_now w) (w_redis w) j l). split; [|split; [|split]].
  - unfold create_job. rewrite Hredis. unfold create_job_redis. rewrite bind_run.
    cbn [uuid4]. rewrite bind_run, get_now_run, bind_run.
    rewrite run_redis_retry_ok with (a := tt) (w' := with_redis (draw_uuid w)
      (created_ks (w_now w) (w_redis w) j l)); [done|].
    by apply (write_job_quiet (draw_uuid w)).
  - exists (hset_all ∅ (job_mapping j)). split; [|split].
    + unfold as_hash, created_ks. cbv zeta.
      rewrite peek_val_put_ne, !peek_val_put_keep_ne by (symmetry; auto with geofast).
      change (redis_key (job_id j)) with (redis_key id). rewrite peek_val_put_eq. by rewrite live_week.
    + intros He. pose proof (jh_id _ _ Hj) as Hid. rewrite He in Hid. by rewrite lookup_empty in Hid.
    + by apply job_hash_parse.
  - unfold as_list, created_ks. cbv zeta. change (collection_id j) with c.
    rewrite peek_val_put_eq. by rewrite live_week.
  - intros k Hk1 Hk2. unfold created_ks, put_keep, put. cbv zeta.
    change (redis_key (job_id j)) with (redis_key id). change (collection_id j) with c.
    by rewrite !lookup_insert_ne.
Qed.
End job_lemmas.

(** ** Listings *)

Definition newest_first (l : list JobInfo) : Prop :=
  StronglySorted (fun x y => dt_instant (updated_at y) <= dt_instant (updated_at x)) l.

Lemma insert_job_perm x l : insert_job x l ≡ₚ x :: l.
Proof.
  induction l as [|y l IH]; simpl; [done|]. destruct (_ <=? _); [done|].
  rewrite IH. apply Permutation_swap.
Qed.

Lemma insert_job_elem x y l : y ∈ insert_job x l -> y = x \/ y ∈ l.
Proof. rewrite insert_job_perm. by intros [?|?]%elem_of_cons; [left|right]. Qed.

Lemma insert_job_sorted x l : newest_first l -> newest_first (insert_job x l).
Proof.
  intros Hl. induction Hl as [|y l Hs IH Hy]; simpl; [by repeat constructor|].
  destruct (Z.leb_spec (dt_instant (updated_at y)) (dt_instant (updated_at x))) as [Hle|Hlt].
  - constructor; [by constructor|]. constructor; [done|].
    eapply Forall_impl; [exact Hy|]. simpl. intros z. lia.
  - constructor; [done|]. apply Forall_forall. intros z Hz%insert_job_elem.
    destruct Hz as [->|Hz]; [lia|]. rewrite Forall_forall in Hy. by apply Hy.
Qed.

Lemma sort_desc_sorted l : newest_first (sort_desc l).
Proof. induction l as [|x l IH]; [constructor|]. by apply insert_job_sorted. Qed.

Lemma sort_desc_perm l : sort_desc l ≡ₚ l.
Proof. induction l as [|x l IH]; simpl; [done|]. by rewrite insert_job_perm, IH. Qed.

Lemma newest_first_sublist l k : sublist k l -> newest_first l -> newest_first k.
Proof.
  intros Hk. induction Hk as [|x k l Hk IH|x k l Hk IH]; intros Hl; [done| |].
  - inversion_clear Hl as [|? ? Hs Hx]. constructor; [by apply IH|].
    by eapply sublist_Forall.
  - inversion_clear Hl as [|? ? Hs Hx]. by apply IH.
Qed.

Lemma py_upto_sublist {A} (l : list A) b : sublist (py_upto l b) l.
Proof. apply sublist_take. Qed.

Lemma py_slice_sublist {A} (l : list A) a b : sublist (py_slice l a b) l.
Proof.
  unfold py_slice. etrans; [apply sublist_take|apply sublist_drop].
Qed.

Lemma of_owner_sublist o l : sublist (of_owner o l) l.
Proof.
  destruct o as [o|]; [|done]. simpl. induction l as [|x l IH]; [done|]. simpl.
  case_match; by constructor.
Qed.

Lemma of_owner_owned o l : Forall (fun j => owner_id j = Some o) (of_owner (Some o) l).
Proof.
  simpl. induction l as [|x l IH]; [done|]. simpl. case_bool_decide; [|done]. by constructor.
Qed.

Lemma length_py_upto {A} (l : list A) b : 0 <= b -> Z.of_nat (length (py_upto l b)) <= b.
Proof.
  intros Hb. unfold py_upto, slice_bound. rewrite (proj2 (Z.ltb_ge _ _)) by lia.
  rewrite length_take. lia.
Qed.

Lemma length_py_slice {A} (l : list A) a b :
  0 <= a -> 0 <= b -> Z.of_nat (length (py_slice l a (a + b))) <= b.
Proof.
  intros Ha Hb. unfold py_slice, slice_bound. rewrite !(proj2 (Z.ltb_ge _ _)) by lia.
  rewrite length_take. lia.
Qed.

(** What a listing of [limit] jobs for [owner] returns. *)
Definition listing_ok (limit : Z) (owner : option Z) (l : list JobInfo) : Prop :=
  newest_first l /\ Z.of_nat (length l) <= limit
  /\ match owner with Some o => Forall (fun j => owner_id j = Some o) l | None => True end.

Lemma sort_jobs_sorted l k : sort_jobs l = inr k -> newest_first k.
Proof. unfold sort_jobs. case_match; intros; simplify_eq. apply sort_desc_sorted. Qed.

Lemma owned_sublist o l k :
  sublist k (of_owner o l) ->
  match o with Some o => Forall (fun j => owner_id j = Some o) k | None => True end.
Proof.
  intros Hk. destruct o as [o|]; [|done]. eapply sublist_Forall; [exact Hk|]. apply of_owner_owned.
Qed.

Section listing_lemmas.
Context `{RedisServer} `{Entropy} (cfg : Settings).

(** A tail [lift (sort_jobs ..)], [py_upto] of a listing sorts whatever was read. *)
Lemma sorted_tail w (jobs l : list JobInfo) n w' :
  (k ← lift (sort_jobs jobs); mret (py_upto k n) : M (list JobInfo)) w = (inr l, w') ->
  newest_first l.
Proof.
  rewrite bind_run, lift_run. destruct (sort_jobs jobs) as [e|k] eqn:Hs; [done|].
  rewrite ret_run. intros [= <- _]. eapply newest_first_sublist; [apply py_upto_sublist|].
  by eapply sort_jobs_sorted.
Qed.

Lemma bind_inv {A B} (m : M A) (f : A -> M B) w b w' :
  (m ≫= f) w = (inr b, w') -> exists a w1, m w = (inr a, w1) /\ f a w1 = (inr b, w').
Proof. rewrite bind_run. destruct (m w) as [[e|a] w1]; [done|]. by exists a, w1. Qed.

Lemma coll_listing_sorted c n w l w' :
  (if is_redis cfg then list_jobs_for_collection_redis cfg c n
   else list_jobs_for_collection_memory c n) w = (inr l, w') -> newest_first l.
Proof.
  destruct (is_redis cfg); intros Hl.
  - apply bind_inv in Hl as (? & ? & _ & Hl). apply bind_inv in Hl as (? & ? & _ & Hl).
    by eapply sorted_tail.
  - apply bind_inv in Hl as (? & ? & _ & Hl). by eapply sorted_tail.
Qed.

Lemma all_listing_sorted n w l w' :
  (if is_redis cfg then list_all_jobs_redis cfg n else list_all_jobs_memory n) w = (inr l, w') ->
  newest_first l.
Proof.
  destruct (is_redis cfg); intros Hl.
  - apply bind_inv in Hl as (? & ? & _ & Hl). apply bind_inv in Hl as (? & ? & _ & Hl).
    by eapply sorted_tail.
  - apply bind_inv in Hl as (? & ? & _ & Hl). by eapply sorted_tail.
Qed.
End listing_lemmas.

(** ** Properties *)

(** The update frees the mutex: its status is terminal and the job holds the mutex of
    its collection. *)
Definition frees_mutex (now : Z) (ks : keyspace) (id : string) (u : JobUpdate) (c : string) : bool :=
  match u_status u with Some s => is_finishing s | None => false end
  && negb (bool_decide (c = "")) && bool_decide (fst <$> lock_of now ks c = Some id).

Lemma update_ks_mutex now ks id u c h :
  update_ks now ks id u c h !! mutex_key c = if frees_mutex now ks id u c then None else ks !! mutex_key c.
Proof.
  set (ks1 := if no_update u then ks else put_keep now ks (redis_key id) (VHash h)).
  assert (ks1 !! mutex_key c = ks !! mutex_key c) as Hk.
  { unfold ks1. destruct (no_update u); [done|]. unfold put_keep, put.
    rewrite lookup_insert_ne; auto with geofast. }
  destruct (lock_frame now ks ks1 c Hk) as [Hl _].
  unfold update_ks, frees_mutex. fold ks1. unfold after_release. rewrite Hl.
  destruct (u_status u) as [s|]; [|done]. case_match; [by rewrite lookup_delete_eq|done].
Qed.

(** C14. Updating a stored job with the Redis back end, in a quiet world,
    returns the job [apply_redis] describes (status, message, counts, time
    stamps, [finished_at] set once when the status becomes terminal) and stores
    exactly that job.  The mutex of its collection is deleted when the new status is
    terminal and the job holds it, and is left as it was for every other update,
    holder or status; no other key changes. *)
Theorem update_job_refines `{RedisLaws} `{Entropy} (cfg : Settings) (w : world) (id : string)
    (u : JobUpdate) (j : JobInfo) :
  is_redis cfg = true -> quiet w -> job_stored (w_now w) (w_redis w) id j ->
  lock_typed (w_now w) (w_redis w) (collection_id j) ->
  dt_range (utcnow (w_now w)) -> update_ok u ->
  exists ks', update_job cfg id u w = (inr (Some (apply_redis (w_now w) u j)), with_redis w ks')
    /\ job_stored (w_now w) ks' id (apply_redis (w_now w) u j)
    /\ ks' !! mutex_key (collection_id j)
       = (if frees_mutex (w_now w) (w_redis w) id u (collection_id j) then None
          else w_redis w !! mutex_key (collection_id j))
    /\ (forall k, k <> redis_key id -> k <> mutex_key (collection_id j) -> ks' !! k = w_redis w !! k).
Proof.
  intros Hr Hq (h & Hh & Hne & Hp) Ht Hnow Hu. eexists.
  split; [by apply (update_job_quiet cfg Hr w id u j h)|].
  split; [by apply update_ks_stored|]. split; [apply update_ks_mutex|]. intros k Hk Hm. unfold update_ks.
  rewrite after_release_frame by done. destruct (no_update u); [done|].
  unfold put_keep, put. by rewrite lookup_insert_ne.
Qed.

(** A terminal status frees the collection: after [update_job] has set a
    job of collection [c] to a terminal status, that job does not hold the
    mutex of [c], and a lock held by another job is left alone. *)
Theorem terminal_update_releases `{RedisLaws} `{Entropy} (cfg : Settings) (w : world) (id s : string)
    (u : JobUpdate) (j : JobInfo) :
  is_redis cfg = true -> quiet w -> job_stored (w_now w) (w_redis w) id j ->
  lock_typed (w_now w) (w_redis w) (collection_id j) ->
  dt_range (utcnow (w_now w)) -> update_ok u ->
  u_status u = Some s -> is_finishing s = true -> collection_id j <> "" ->
  exists r w', update_job cfg id u w = (r, w')
    /\ lock_of (w_now w') (w_redis w') (collection_id j) =
       (lock_step (w_now w) 0 (LRelease id) (lock_of (w_now w) (w_redis w) (collection_id j))).2.
Proof.
  intros Hr Hq (h & Hh & Hne & Hp) Ht Hnow Hu Hs Hfin Hc. eexists _, _.
  split; [by apply (update_job_quiet cfg Hr w id u j h)|]. cbn [w_now w_redis with_redis].
  unfold update_ks. rewrite Hs, after_release_lock by done.
  assert (no_update u = false) as -> by (by destruct u as [[] ? ? ? ? ?]).
  destruct (lock_frame (w_now w) (w_redis w) (put_keep (w_now w) (w_redis w) (redis_key id)
    (VHash (updated_hash (w_now w) u h))) (collection_id j)) as [-> _].
  { unfold put_keep, put. rewrite lookup_insert_ne; auto with geofast. }
  destruct (lock_of (w_now w) (w_redis w) (collection_id j)) as [[o x]|] eqn:Ho; simpl; [|done].
  destruct (decide (o = id)) as [->|Hoi].
  - by rewrite bool_decide_eq_true_2.
  - rewrite bool_decide_eq_false_2 by congruence. done.
Qed.

(** A created job can be read back: in a quiet world with a fresh UUID,
    [create_job] followed by [get_job] returns the created job, with its times
    as aware UTC datetimes, and the collection's index starts with the job and
    keeps at most 50 ids. *)
Theorem create_then_get `{RedisLaws} `{Entropy} (cfg : Settings) (w : world) (c : string)
    (owner : option Z) (label : option string) (l : list string) :
  is_redis cfg = true -> quiet w ->
  peek (w_now w) (w_redis w) (redis_key (uuid4_nth (w_uuids w))) = None ->
  as_list (w_now w) (w_redis w) (jobs_by_collection_key c) = inr l ->
  dt_range (utcnow (w_now w)) ->
  exists w' j, create_job cfg c owner label w = (inr j, w')
    /\ j = new_job (uuid4_nth (w_uuids w)) c owner label (w_now w)
    /\ get_job cfg (job_id j) w' = (inr (Some (read_job j)), w')
    /\ as_list (w_now w') (w_redis w') (jobs_by_collection_key c) = inr (take 50 (job_id j :: l)).
Proof.
  intros Hr Hq Hf Hl Hnow.
  destruct (create_job_quiet cfg Hr w c owner label l) as (ks' & Hc & Hs & Hi & _); [done..|].
  eexists _, _. split; [exact Hc|]. split; [done|]. split; [|exact Hi].
  by apply get_job_quiet.
Qed.

(** Whatever the schedule and the contents of Redis, a listing that
    returns is sorted by [updated_at], newest first, holds at most [limit]
    jobs, and with an owner only jobs of that owner. *)
Theorem listings_sorted_and_owned `{RedisServer} `{Entropy} (cfg : Settings) (c : string)
    (limit offset : Z) (owner : option Z) (w w' : world) (l : list JobInfo) :
  0 <= limit -> 0 <= offset ->
  list_jobs_for_collection cfg c limit owner w = (inr l, w')
  \/ list_all_jobs cfg limit owner offset w = (inr l, w') ->
  listing_ok limit owner l.
Proof.
  intros Hlim Hoff [Hl|Hl]; apply bind_inv in Hl as (raw & w1 & Hraw & Hl);
    rewrite ret_run in Hl; injection Hl as <- _.
  - apply coll_listing_sorted in Hraw. split; [|split].
    + eapply newest_first_sublist; [|exact Hraw].
      etrans; [apply py_upto_sublist|apply of_owner_sublist].
    + by apply length_py_upto.
    + eapply owned_sublist. apply py_upto_sublist.
  - apply all_listing_sorted in Hraw. split; [|split].
    + eapply newest_first_sublist; [|exact Hraw].
      etrans; [apply py_slice_sublist|apply of_owner_sublist].
    + by apply length_py_slice.
    + eapply owned_sublist. apply py_slice_sublist.
Qed.

(** The time stamps [to_dict] writes for a job read from Redis are not
    ISO 8601: the job's times are aware, so they carry both an offset and a
    ["Z"], and [fromisoformat] of the text rejects them. *)
Theorem to_dict_of_read_job_malformed (id c : string) (owner : option Z) (label : option string)
    (now : Z) :
  dt_range (utcnow now) ->
  exists s, dict_get "updated_at" (to_dict (read_job (new_job id c owner label now))) = Some (JStr s)
    /\ fromisoformat (replace_z s) = None.
Proof.
  intros Hnow. exists (isoformat_z (now_utc now)). split; [done|].
  by apply fromisoformat_aware_z_fails.
Qed.

(** ** Witnesses *)

Definition demo_world : world :=
  World (put (put ∅ (redis_key "j1")
           (VHash (hset_all ∅ (job_mapping (new_job "j1" "roads" (Some 7) None 0)))) None)
         (mutex_key "roads") (VStr "j1") (Some (us 600))) (us 60) [] [] ∅ [] 0 0 [] no_services.

Lemma job_hash_nonempty h j : job_hash h j -> h <> ∅.
Proof. intros Hj ->. pose proof (jh_id _ _ Hj) as Hid. by rewrite lookup_empty in Hid. Qed.

Lemma put_job_stored now ks id c owner label t :
  dt_range (utcnow t) ->
  job_stored now (put ks (redis_key id) (VHash (hset_all ∅ (job_mapping (new_job id c owner label t)))) None)
    id (read_job (new_job id c owner label t)).
Proof.
  intros Hr. pose proof (new_job_hash id c owner label t Hr).
  exists (hset_all ∅ (job_mapping (new_job id c owner label t))).
  split; [|split; [by eapply job_hash_nonempty|by apply job_hash_parse]].
  unfold as_hash. by rewrite peek_val_put_eq.
Qed.

Lemma demo_stored :
  job_stored (us 60) (w_redis demo_world) "j1" (read_job (new_job "j1" "roads" (Some 7) None 0)).
Proof.
  eapply job_stored_frame; [|by apply (put_job_stored (us 60) ∅)].
  apply lookup_insert_ne, not_eq_sym, redis_key_mutex.
Qed.

Lemma demo_lock_typed : lock_typed (us 60) (w_redis demo_world) "roads".
Proof. intros v. vm_compute. intros [= <-]. by exists "j1". Qed.

Lemma update_job_refines_witness :
  exists ks', @update_job reference_server reference_entropy default_settings "j1"
      (up "completed" "done") demo_world =
      (inr (Some (apply_redis (us 60) (up "completed" "done")
                    (read_job (new_job "j1" "roads" (Some 7) None 0)))), with_redis demo_world ks')
    /\ job_stored (us 60) ks' "j1" (apply_redis (us 60) (up "completed" "done")
         (read_job (new_job "j1" "roads" (Some 7) None 0)))
    /\ ks' !! mutex_key "roads" = None
    /\ (forall k, k <> redis_key "j1" -> k <> mutex_key "roads" ->
          ks' !! k = w_redis demo_world !! k).
Proof.
  apply (@update_job_refines reference_server reference_laws reference_entropy default_settings
    demo_world "j1" (up "completed" "done") (read_job (new_job "j1" "roads" (Some 7) None 0)));
    [reflexivity|reflexivity|exact demo_stored|exact demo_lock_typed| |exact I].
  by vm_compute.
Defined.

Lemma terminal_update_releases_witness :
  exists r w', @update_job reference_server reference_entropy default_settings "j1"
      (up "failed" "boom") demo_world = (r, w')
    /\ lock_of (w_now w') (w_redis w') "roads" = None.
Proof.
  apply (@terminal_update_releases reference_server reference_laws reference_entropy
    default_settings demo_world "j1" "failed" (up "failed" "boom")
    (read_job (new_job "j1" "roads" (Some 7) None 0)));
    [reflexivity|reflexivity|exact demo_stored|exact demo_lock_typed| |exact I|reflexivity
    |reflexivity|done].
  by vm_compute.
Defined.

Lemma create_then_get_witness :
  exists w' j, @create_job reference_server reference_entropy default_settings "roads" (Some 7) None
      empty_world = (inr j, w')
    /\ j = new_job "job-0" "roads" (Some 7) None 0
    /\ @get_job reference_server reference_entropy default_settings (job_id j) w' =
       (inr (Some (read_job j)), w')
    /\ as_list (w_now w') (w_redis w') (jobs_by_collection_key "roads") =
       inr (take 50 [job_id j]).
Proof.
  apply (@create_then_get reference_server reference_laws reference_entropy default_settings
    empty_world "roads" (Some 7) None []); [reflexivity|reflexivity|reflexivity|reflexivity|].
  by vm_compute.
Defined.

Lemma listings_sorted_and_owned_witness :
  listing_ok 5 (Some 7) [read_job (new_job "job-0" "roads" (Some 7) None 0)].
Proof.
  eapply (@listings_sorted_and_owned reference_server reference_entropy default_settings
    "roads" 5 0 (Some 7)
    (@create_job reference_server reference_entropy default_settings "roads" (Some 7) None
       empty_world).2); [lia|lia|].
  left. apply run_fst. vm_compute. reflexivity.
Defined.

Lemma to_dict_of_read_job_malformed_witness :
  exists s, dict_get "updated_at" (to_dict (read_job (new_job "j1" "roads" None None 0))) =
      Some (JStr s) /\ fromisoformat (replace_z s) = None.
Proof. apply to_dict_of_read_job_malformed. by vm_compute. Defined.
