(* ===== verification/Queue.v ===== *)
(** * Work queues on Redis lists

    The producers of the program push JSON payloads on the left of a list
    (LPUSH), its workers pop from the right (BRPOP).  [Codec] is what a payload
    type promises to the queues: a text form that parses back.  The lemmas here
    are proved against that interface; each payload type supplies an instance. *)

From S2P Require Import Prelude PyTime Redis World.

Class Codec (A : Type) := {
  encode : A -> string;
  decode : string -> res A;
  valid : A -> bool;          (* the payloads the law speaks of *)
  normal : A -> A             (* what the reader makes of falsy fields *)
}.

Class CodecLaw (A : Type) `{Codec A} : Prop :=
  decode_encode (a : A) : valid a = true -> decode (encode a) = inr (normal a).

(** The list under a queue key, newest entry first. *)
Definition queue_at (key : string) (now : Z) (ks : keyspace) : reply (list string) :=
  as_list now ks key.

Lemma remove_first_fresh v l1 l2 : v ∉ l1 -> remove_first v (l1 ++ v :: l2)%list = Some (l1 ++ l2)%list.
Proof.
  induction l1 as [|x l1 IH]; simpl; [by rewrite decide_True|].
  intros [Hx Hl]%not_elem_of_cons. rewrite decide_False by done. by rewrite IH.
Qed.

(** [LRANGE key 0 -1] is the whole list. *)
Lemma list_slice_all l : list_slice l 0 (-1) = l.
Proof.
  unfold list_slice. cbv zeta. change (0 <? 0) with false. change (-1 <? 0) with true. cbv iota.
  destruct (_ <? _) eqn:Hlt.
  - apply Z.ltb_lt in Hlt. destruct l; [done|]. simpl in Hlt. lia.
  - change (drop (Z.to_nat (Z.max 0 0)) l) with l. apply take_ge. lia.
Qed.

Lemma queue_put_keep key now ks l : queue_at key now (put_keep now ks key (VList l)) = inr l.
Proof. unfold queue_at, as_list. by rewrite peek_val_put_keep_eq. Qed.

Lemma queue_put_list key now ks l : queue_at key now (put_list now ks key l) = inr l.
Proof.
  destruct l as [|x l]; [|apply queue_put_keep]. unfold queue_at, as_list. simpl.
  by rewrite peek_val_delete_eq.
Qed.

Lemma queue_frame key now ks ks' :
  ks' !! key = ks !! key -> queue_at key now ks' = queue_at key now ks.
Proof. intros Hk. apply as_list_peek. unfold peek_val, peek. by rewrite Hk. Qed.

Lemma put_list_frame key now ks l k : k <> key -> put_list now ks key l !! k = ks !! k.
Proof.
  intros Hk. unfold put_list, put_keep, put. destruct l; by rewrite ?lookup_delete_ne, ?lookup_insert_ne.
Qed.

Section queue.
Context `{RedisServer} {A : Type} `{Codec A} (key : string).

(** A worker pops and parses until the queue is empty. *)
Fixpoint drain (n : nat) : M (list (res A)) :=
  match n with
  | O => mret []
  | S n' =>
      x ← redis (Brpop [key]);
      match x with
      | None => mret []
      | Some (_, p) => ps ← drain n'; mret (decode p :: ps)
      end
  end.

End queue.

Section queue_lemmas.
Context `{RedisLaws} {A : Type} `{CodecLaw A} (key : string).

Lemma lpush_quiet w v l :
  quiet w -> queue_at key (w_now w) (w_redis w) = inr l ->
  redis (Lpush key v) w =
  (inr tt, with_redis w (put_keep (w_now w) (w_redis w) key (VList (v :: l)))).
Proof.
  intros Hq Hl. apply redis_ok; [done|]. autorewrite with redis_exec. unfold queue_at in Hl.
  by rewrite Hl.
Qed.

Lemma lrange_all_quiet w l :
  quiet w -> queue_at key (w_now w) (w_redis w) = inr l ->
  redis (Lrange key 0 (-1)) w = (inr l, w).
Proof.
  intros Hq Hl. erewrite redis_ok; [|done|].
  2: { autorewrite with redis_exec. unfold queue_at in Hl. rewrite Hl. cbn [with_reply].
       rewrite list_slice_all. reflexivity. }
  by rewrite with_redis_same.
Qed.

(** Removing a text that occurs after [l1] and not in it. *)
Lemma lrem1_quiet w v l1 l2 :
  quiet w -> queue_at key (w_now w) (w_redis w) = inr (l1 ++ v :: l2)%list -> v ∉ l1 ->
  redis (Lrem1 key v) w =
  (inr 1, with_redis w (put_list (w_now w) (w_redis w) key (l1 ++ l2)%list)).
Proof.
  intros Hq Hl Hv. apply redis_ok; [done|]. autorewrite with redis_exec. unfold queue_at in Hl.
  rewrite Hl. cbn [with_reply]. by rewrite remove_first_fresh.
Qed.

(** Pushing payloads one after the other. *)
Lemma push_all_quiet (push : A -> M unit) w ps l :
  (forall w p l, quiet w -> queue_at key (w_now w) (w_redis w) = inr l ->
     exists ks', push p w = (inr tt, with_redis w ks')
       /\ queue_at key (w_now w) ks' = inr (encode p :: l)) ->
  quiet w -> queue_at key (w_now w) (w_redis w) = inr l ->
  exists ks', for_each ps push w = (inr tt, with_redis w ks')
    /\ queue_at key (w_now w) ks' = inr (rev (map encode ps) ++ l)%list.
Proof.
  intros Hpush. revert w l. induction ps as [|p ps IH]; intros w l Hq Hl; cbn [for_each].
  { exists (w_redis w). by rewrite with_redis_same. }
  destruct (Hpush w p l Hq Hl) as (ks1 & Hp & Hl1). rewrite bind_run, Hp.
  destruct (IH (with_redis w ks1) (encode p :: l)) as (ks' & Hr & Hl'); [done|done|].
  exists ks'. split; [exact Hr|]. cbn [w_now with_redis] in Hl'. rewrite Hl'. simpl.
  by rewrite <-app_assoc.
Qed.

Lemma drain_quiet w qs n :
  quiet w -> queue_at key (w_now w) (w_redis w) = inr (rev qs) -> (length qs < n)%nat ->
  exists ks', drain key n w = (inr (map decode qs), with_redis w ks').
Proof.
  revert w n. induction qs as [|q qs IH]; intros w [|n] Hq Hl Hn; simpl in Hn; try lia;
    unfold queue_at in Hl; simpl in Hl.
  - exists (w_redis w). cbn [drain]. erewrite bind_redis; [|done|].
    2: { autorewrite with redis_exec. cbn [pop_first]. rewrite Hl. reflexivity. }
    done.
  - destruct (IH (with_redis w (put_list (w_now w) (w_redis w) key (rev qs))) n) as (ks' & Hd);
      [done|apply queue_put_list|lia|].
    exists ks'. cbn [drain]. erewrite bind_redis; [|done|].
    2: { autorewrite with redis_exec. cbn [pop_first]. rewrite Hl. cbn [with_reply].
         rewrite last_snoc, removelast_last. reflexivity. }
    cbn beta iota. rewrite bind_run, Hd. done.
Qed.

(** First in, first out. *)
Lemma fifo_quiet (push : A -> M unit) w ps :
  (forall w p l, quiet w -> queue_at key (w_now w) (w_redis w) = inr l ->
     exists ks', push p w = (inr tt, with_redis w ks')
       /\ queue_at key (w_now w) ks' = inr (encode p :: l)) ->
  quiet w -> queue_at key (w_now w) (w_redis w) = inr [] -> forallb valid ps = true ->
  exists w1 w2, for_each ps push w = (inr tt, w1)
    /\ drain key (S (length ps)) w1 = (inr (map (fun p => inr (normal p)) ps), w2).
Proof.
  intros Hpush Hq Hl Hps. destruct (push_all_quiet push w ps [] Hpush Hq Hl) as (ks1 & He & Hl1).
  rewrite app_nil_r in Hl1.
  destruct (drain_quiet (with_redis w ks1) (map encode ps) (S (length ps))) as (ks2 & Hd);
    [done|done|rewrite length_map; lia|].
  exists (with_redis w ks1), (with_redis w ks2). split; [done|]. rewrite Hd. do 2 f_equal.
  clear -H2 Hps. induction ps as [|p ps IH]; [done|]. cbn [forallb] in Hps.
  apply andb_true_iff in Hps as [Hp Hps]. cbn [map]. rewrite decode_encode by done.
  by rewrite IH.
Qed.
End queue_lemmas.
