(* ===== verification/BulkQueue.v ===== *)
(** * Bulk import queue (app/services/bulk_queue.py)

    Payloads travel as JSON texts on the Redis list [geofastmap:bulk_import_queue],
    pushed on the left and popped on the right; a parent's shard counters are a
    hash; the storage key of every bulk job is registered under
    [geofastmap:bulk_import_meta:<job>].  With the memory back end the queue and
    the registration live in the process. *)

From S2P Require Import Prelude PyTime Redis World Json Mutex JobStore Queue.

Definition QUEUE_KEY := "geofastmap:bulk_import_queue".
Definition BULK_IMPORT_REG_PREFIX := "geofastmap:bulk_import_meta:".
Definition BULK_PARENT_STATE_PREFIX := "geofastmap:bulk_parent_state:".

(** ** Payloads *)

Definition nonempty_list (l : option (list string)) : bool :=
  match l with Some (_ :: _) => true | _ => false end.

Definition payload_json (p : BulkJobPayload) : json :=
  JObj ([("job_id", JStr (bp_job_id p)); ("collection_id", JStr (bp_collection_id p));
         ("owner_id", opt_json JInt (bp_owner_id p)); ("storage_key", JStr (bp_storage_key p));
         ("mode", JStr (bp_mode p)); ("batch_size", JInt (bp_batch_size p));
         ("queue_compute_tiles", JBool (bp_queue_compute_tiles p))]
    ++ field_if (nonempty_list (bp_zip_inner_shp_paths p)) "zip_inner_shp_paths"
         (JList (map JStr (default [] (bp_zip_inner_shp_paths p))))
    ++ field_if (negb (bool_decide (bp_job_kind p = "single"))) "job_kind" (JStr (bp_job_kind p))
    ++ field_if (truthy (bp_parent_job_id p)) "parent_job_id" (JStr (opt_str (bp_parent_job_id p)))
    ++ field_if (bool_decide (is_Some (bp_shard_index p))) "shard_index"
         (opt_json JInt (bp_shard_index p))
    ++ field_if (bool_decide (is_Some (bp_shard_total p))) "shard_total"
         (opt_json JInt (bp_shard_total p))
    ++ field_if (negb (bp_finalize_collection p)) "finalize_collection" (JBool false)
    ++ field_if (nonempty_list (bp_replace_filters p)) "replace_filters"
         (JList (map JStr (default [] (bp_replace_filters p)))))%list.

(** [BulkJobPayload.to_json] *)
Definition to_json (p : BulkJobPayload) : string := dumps (payload_json p).

(** The flag of [from_json]: a bool as it is, anything else by its text. *)
Definition read_flag (j : json) : bool :=
  match j with
  | JBool b => b
  | _ => negb (bool_decide (lower (json_str j) ∈ ["false"; "0"; "no"; ""]))
  end.

Definition opt_int (j : option json) : res (option Z) :=
  match j with
  | None | Some JNull => inr None
  | Some x => let! z := json_int x in inr (Some z)
  end.

(** [BulkJobPayload.from_json]; fields it passes through unconverted must have
    their annotated types. *)
Definition from_json (s : string) : res BulkJobPayload :=
  let! j := json_loads s in
  let! d := as_dict j in
  let tiles := read_flag (default (JBool false) (dict_get "queue_compute_tiles" d)) in
  let zip := match dict_get "zip_inner_shp_paths" d with
             | Some (JList l) => Some (JList l)
             | _ => None
             end in
  let! id := dict_item "job_id" d in let! id := expect_str id in
  let! coll := dict_item "collection_id" d in let! coll := expect_str coll in
  let! owner := expect_opt expect_int (dict_get "owner_id" d) in
  let! key := dict_item "storage_key" d in let! key := expect_str key in
  let! mode := dict_item "mode" d in let! mode := expect_str mode in
  let! batch := dict_item "batch_size" d in let! batch := json_int batch in
  let! zip := expect_opt expect_strs zip in
  let kind := json_str (json_or (default JNull (dict_get "job_kind" d)) (JStr "single")) in
  let! parent := expect_opt expect_str (dict_get "parent_job_id" d) in
  let! index := opt_int (dict_get "shard_index" d) in
  let! total := opt_int (dict_get "shard_total" d) in
  let finalize := json_truthy (default (JBool true) (dict_get "finalize_collection" d)) in
  let! filters := expect_opt expect_strs (dict_get "replace_filters" d) in
  inr (BulkPayload id coll key mode batch owner tiles zip kind parent index total finalize filters).

(** ** Parent state *)

Definition parent_state_key (job_id : string) : string := BULK_PARENT_STATE_PREFIX +:+ job_id.
Definition reg_key (job_id : string) : string := BULK_IMPORT_REG_PREFIX +:+ job_id.

Definition newline : string := String "010" "".

Definition bool_flag (b : bool) : string := if b then "1" else "0".

Definition parent_mapping (parent coll : string) (expected : Z) (mode : string) (tiles : bool)
    (filters : option (list string)) (now : string) : list (string * string) :=
  ([("parent_job_id", parent); ("collection_id", coll); ("mode", mode);
    ("expected_shards", str_of_Z (Z.max 0 expected)); ("completed_shards", "0");
    ("failed_shards", "0"); ("items_created", "0"); ("items_failed", "0"); ("status", "running");
    ("created_at", now); ("updated_at", now); ("error_samples", "[]");
    ("queue_compute_tiles", bool_flag tiles)]
   ++ match filters with
      | Some (f :: fs) => [("replace_filters", join newline (f :: fs))]
      | _ => []
      end)%list.

Record ShardState := Shards {
  ss_expected : Z;
  ss_completed : Z;
  ss_failed : Z;
  ss_items_created : Z;
  ss_items_failed : Z
}.

(** [int(raw.get(f, 0) or 0)] *)
Definition hash_int (raw : gmap string string) (f : string) : res Z :=
  if truthy (raw !! f) then int_of (opt_str (raw !! f)) else inr 0.

Definition read_shards (raw : gmap string string) : res ShardState :=
  let! e := hash_int raw "expected_shards" in
  let! c := hash_int raw "completed_shards" in
  let! f := hash_int raw "failed_shards" in
  let! ic := hash_int raw "items_created" in
  let! fl := hash_int raw "items_failed" in
  inr (Shards e c f ic fl).

(** What [record_parent_shard_result] returns. *)
Record ShardResult := Result {
  sr_state : ShardState;
  sr_error_samples_json : string;
  sr_queue_compute_tiles : bool
}.

Definition read_result (raw : gmap string string) : res ShardResult :=
  let! st := read_shards raw in
  inr (Result st (default "[]" (raw !! "error_samples"))
         (negb (bool_decide (lower (default "0" (raw !! "queue_compute_tiles"))
                             ∈ ["0"; "false"; "no"; ""])))).

(** The sample list with one more sample, at most twelve kept. *)
Definition add_sample (samples : list json) (index : option Z) (msg : string) : list json :=
  if (length samples <? 12)%nat
  then (samples ++ [JObj [("shard_index", opt_json JInt index); ("error", JStr (str_take 500 msg))]])%list
  else samples.

(** The samples stored in the hash; anything unreadable counts as none. *)
Definition parse_samples (v : option string) : list json :=
  match loads (str_or (opt_str v) "[]") with Some (JList l) => l | _ => [] end.

Section bulk_queue.
Context `{RedisServer} `{Entropy} (cfg : Settings).

Definition init_parent_state (parent coll : string) (expected : Z) (mode : string) (tiles : bool)
    (filters : option (list string)) : M unit :=
  if negb (is_redis cfg) then mret tt
  else
    now ← get_now;
    run_redis_retry cfg
      (redis (Hset (parent_state_key parent)
         (parent_mapping parent coll expected mode tiles filters (isoformat_z (utcnow now))))) None.

Definition get_parent_shard_state (parent : string) : M (option ShardState) :=
  if negb (is_redis cfg) then mret None
  else run_redis_retry cfg
    (raw ← redis (Hgetall (parent_state_key parent));
     if decide (raw = ∅) then mret None else Some <$> lift (read_shards raw))
    (Some (read_attempts cfg)).

Definition get_parent_import_meta (parent : string) : M (gmap string string) :=
  if negb (is_redis cfg) then mret ∅
  else run_redis_retry cfg (redis (Hgetall (parent_state_key parent))) (Some (read_attempts cfg)).

(** The closure [_mutate] of [record_parent_shard_result]. *)
Definition shard_mutate (key : string) (created failed : Z) (shard_failed : bool)
    (index : option Z) (error_message : option string) : M bool :=
  found ← redis (Exists key);
  if negb found then mret false
  else
    now ← get_now;
    samples ←
      (if shard_failed && truthy error_message then
         v ← try_except (redis (Hget key "error_samples")) (fun _ => mret None);
         mret [("error_samples",
                dumps_compact (JList (add_sample (parse_samples v) index (opt_str error_message))))]
       else mret []);
    redis (Multi
      ([WHincrby key "completed_shards" 1; WHincrby key "items_created" created;
        WHincrby key "items_failed" failed]
       ++ (if shard_failed then [WHincrby key "failed_shards" 1] else [])
       ++ [WHset key (("updated_at", isoformat_z (utcnow now)) :: samples)])%list);;
    mret true.

Definition record_parent_shard_result (parent : string) (created failed : Z) (shard_failed : bool)
    (index : option Z) (error_message : option string) : M (option ShardResult) :=
  if negb (is_redis cfg) then mret None
  else
    let key := parent_state_key parent in
    ok ← run_redis_retry cfg (shard_mutate key created failed shard_failed index error_message)
           (Some (read_attempts cfg));
    if negb ok then mret None
    else run_redis_retry cfg
      (raw ← redis (Hgetall key); Some <$> lift (read_result raw)) (Some (read_attempts cfg)).

Definition clear_parent_state (parent : string) : M unit :=
  if negb (is_redis cfg) then mret tt
  else run_redis_retry cfg (redis (Del [parent_state_key parent])) None.

(** ** Registration *)

Definition register_bulk_import_job (job_id storage_key : string) : M unit :=
  if is_redis cfg then
    run_redis_retry cfg (redis (SetEx (reg_key job_id) storage_key (Some (86400 * 8)) false);; mret tt)
      None
  else modify (fun w => with_mem_bulk w (<[job_id := storage_key]> (w_mem_bulk w))).

Definition unregister_bulk_import_job (job_id : string) : M unit :=
  if is_redis cfg then try_pass (redis (Del [reg_key job_id]))
  else modify (fun w => with_mem_bulk w (delete job_id (w_mem_bulk w))).

Definition get_bulk_import_storage_key (job_id : string) : M (option string) :=
  if is_redis cfg then try_except (redis (Get (reg_key job_id))) (fun _ => mret None)
  else gets (fun w => w_mem_bulk w !! job_id).

Definition is_registered_bulk_import_job (job_id : string) : M bool :=
  v ← get_bulk_import_storage_key job_id; mret (bool_decide (v <> None)).

(** ** The queue *)

(** The [try] of the loop of [remove_bulk_job_from_redis_queue]: an entry that
    fails to parse, or whose removal fails, is passed over. *)
Definition try_remove (job_id p : string) : M (option Z) :=
  try_except
    (q ← lift (from_json p);
     if decide (bp_job_id q = job_id) then Some <$> redis (Lrem1 QUEUE_KEY p) else mret None)
    (fun _ => mret None).

Fixpoint remove_matching (job_id : string) (payloads : list string) : M Z :=
  match payloads with
  | [] => mret 0
  | p :: rest =>
      r ← try_remove job_id p;
      match r with Some n => mret n | None => remove_matching job_id rest end
  end.

Definition remove_bulk_job_from_redis_queue (job_id : string) : M Z :=
  if negb (is_redis cfg) then mret 0
  else payloads ← redis (Lrange QUEUE_KEY 0 (-1)); remove_matching job_id payloads.

Definition memory_queue_put (p : BulkJobPayload) : M unit :=
  modify (fun w => with_mem_queue w (w_mem_queue w ++ [p])%list).

(** A get with a timeout: [None] when the queue stays empty. *)
Definition memory_queue_get : M (option BulkJobPayload) := fun w =>
  match w_mem_queue w with
  | [] => (inr None, w)
  | p :: q => (inr (Some p), with_mem_queue w q)
  end.

Definition enqueue (p : BulkJobPayload) : M unit :=
  if is_redis cfg then
    try_except (run_redis_retry cfg (redis (Lpush QUEUE_KEY (to_json p))) None)
      (fun e => raise (RuntimeError ("Failed to enqueue bulk job after retries: " +:+ exn_str e)))
  else memory_queue_put p.

(** One turn of the consumer thread of [start_memory_consumer]. *)
Definition memory_consumer_turn (processor : BulkJobPayload -> M unit) : M unit :=
  p ← memory_queue_get;
  match p with Some q => try_pass (processor q) | None => mret tt end.
End bulk_queue.

(** ** Payload round trip *)

(** Payloads differ from what is read back only where the text drops a falsy value. *)
Definition drop_empty {A} (l : option (list A)) : option (list A) :=
  match l with Some [] => None | _ => l end.

Definition normal_payload (p : BulkJobPayload) : BulkJobPayload :=
  {| bp_job_id := bp_job_id p; bp_collection_id := bp_collection_id p;
     bp_storage_key := bp_storage_key p; bp_mode := bp_mode p; bp_batch_size := bp_batch_size p;
     bp_owner_id := bp_owner_id p; bp_queue_compute_tiles := bp_queue_compute_tiles p;
     bp_zip_inner_shp_paths := drop_empty (bp_zip_inner_shp_paths p);
     bp_job_kind := str_or (bp_job_kind p) "single";
     bp_parent_job_id := if truthy (bp_parent_job_id p) then bp_parent_job_id p else None;
     bp_shard_index := bp_shard_index p; bp_shard_total := bp_shard_total p;
     bp_finalize_collection := bp_finalize_collection p;
     bp_replace_filters := drop_empty (bp_replace_filters p) |}.

(** The strings of a payload are ASCII. *)
Definition ascii_payload (p : BulkJobPayload) : bool :=
  ascii_str (bp_job_id p) && ascii_str (bp_collection_id p) && ascii_str (bp_storage_key p)
  && ascii_str (bp_mode p) && ascii_str (bp_job_kind p) && ascii_str (opt_str (bp_parent_job_id p))
  && forallb ascii_str (default [] (bp_zip_inner_shp_paths p))
  && forallb ascii_str (default [] (bp_replace_filters p)).

Lemma nonempty_list_default (l : option (list string)) :
  (if nonempty_list l then Some (JList (map JStr (default [] l))) else None)
  = (fun l => JList (map JStr l)) <$> drop_empty l.
Proof. by destruct l as [[|x l]|]. Qed.

Lemma expect_strs_list (l : option (list string)) :
  expect_opt expect_strs ((fun l => JList (map JStr l)) <$> drop_empty l) = inr (drop_empty l).
Proof. destruct l as [[|x l]|]; [done| |done]. simpl. by rewrite expect_list_str. Qed.

Lemma payload_json_wf p : ascii_payload p = true -> jwf (payload_json p) = true.
Proof.
  intros Ha. unfold ascii_payload in Ha. repeat (apply andb_true_iff in Ha as [Ha ?]).
  unfold payload_json. cbn [app]. jwf_dict; try done; try (intros _; by apply jwf_strs).
  - by destruct (bp_owner_id p).
  - by destruct (bp_shard_index p).
  - by destruct (bp_shard_total p).
Qed.

Lemma expect_opt_int (x : option Z) : expect_opt expect_int (Some (opt_json JInt x)) = inr x.
Proof. by destruct x. Qed.

Lemma opt_int_field (x : option Z) :
  opt_int (if bool_decide (is_Some x) then Some (opt_json JInt x) else None) = inr x.
Proof. by destruct x. Qed.

Lemma job_kind_field (k : string) :
  json_str (json_or (default JNull (if negb (bool_decide (k = "single")) then Some (JStr k) else None))
    (JStr "single")) = str_or k "single".
Proof.
  unfold json_or, str_or. case_bool_decide as Hk; simpl; [by subst|].
  case_bool_decide; simpl; by case_decide.
Qed.

Lemma from_json_to_json p : ascii_payload p = true -> from_json (to_json p) = inr (normal_payload p).
Proof.
  intros Ha. unfold from_json, json_loads, to_json. rewrite loads_dumps by (by apply payload_json_wf).
  unfold payload_json. cbn [res_bind as_dict]. unfold dict_item. dict_fields.
  cbn [res_bind expect_str json_int default].
  rewrite !nonempty_list_default, !expect_strs_list, expect_opt_int, expect_opt_truthy,
    !opt_int_field, job_kind_field.
  assert (match (fun l => JList (map JStr l)) <$> drop_empty (bp_zip_inner_shp_paths p) with
          | Some (JList l) => Some (JList l) | _ => None end
          = (fun l => JList (map JStr l)) <$> drop_empty (bp_zip_inner_shp_paths p)) as ->
    by (by destruct (drop_empty _)).
  rewrite expect_strs_list. cbn [res_bind]. unfold normal_payload.
  by destruct (bp_finalize_collection p).
Qed.

(** ** Shard counters *)

(** The effect on one hash of a pipeline command that addresses it. *)
Definition hash_step (k : string) (h : gmap string string) (c : wcmd) :
  option (gmap string string) :=
  match c with
  | WHincrby k' f n =>
      if decide (k' = k) then
        match incr_read (h !! f) with
        | inr z => Some (<[f := str_of_Z (z + n)]> h)
        | inl _ => None
        end
      else None
  | WHset k' m => if decide (k' = k) then Some (hset_all h m) else None
  | _ => None
  end.

Fixpoint hash_steps (k : string) (h : gmap string string) (l : list wcmd) :
  option (gmap string string) :=
  match l with [] => Some h | c :: l' => h' ← hash_step k h c; hash_steps k h' l' end.

Lemma as_hash_put_keep now ks k h : as_hash now (put_keep now ks k (VHash h)) k = inr h.
Proof. unfold as_hash. by rewrite peek_val_put_keep_eq. Qed.

Lemma wexec_hash now ks k h h' c :
  as_hash now ks k = inr h -> hash_step k h c = Some h' ->
  wexec now ks c = (None, put_keep now ks k (VHash h')).
Proof.
  intros Hh. destruct c as [k' f n|k' m| |]; simpl; try done; case_decide; try done; subst k'.
  - rewrite Hh. destruct (incr_read (h !! f)); intros [= <-]. done.
  - rewrite Hh. by intros [= <-].
Qed.

Lemma multi_hash now ks k h h' l :
  as_hash now ks k = inr h -> hash_steps k h l = Some h' ->
  exists ks', multi_exec now ks l = (inr tt, ks') /\ as_hash now ks' k = inr h'
    /\ (forall k', k' <> k -> ks' !! k' = ks !! k').
Proof.
  revert ks h. induction l as [|c l IH]; intros ks h Hh Hs; simpl in Hs.
  { injection Hs as <-. by exists ks. }
  destruct (hash_step k h c) as [h1|] eqn:Hc; [|done]. simpl in Hs.
  destruct (IH (put_keep now ks k (VHash h1)) h1) as (ks' & Hm & Hh' & Hf);
    [apply as_hash_put_keep|done|].
  exists ks'. simpl. rewrite (wexec_hash _ _ _ _ _ _ Hh Hc), Hm. split; [done|]. split; [done|].
  intros k' Hk. rewrite Hf by done. unfold put_keep, put. by rewrite lookup_insert_ne.
Qed.

(** The counters of a parent hash, in decimal. *)
Record shard_hash (h : gmap string string) (st : ShardState) : Prop := {
  sh_expected : h !! "expected_shards" = Some (str_of_Z (ss_expected st));
  sh_completed : h !! "completed_shards" = Some (str_of_Z (ss_completed st));
  sh_failed : h !! "failed_shards" = Some (str_of_Z (ss_failed st));
  sh_items_created : h !! "items_created" = Some (str_of_Z (ss_items_created st));
  sh_items_failed : h !! "items_failed" = Some (str_of_Z (ss_items_failed st))
}.

Lemma hash_int_str h f z : h !! f = Some (str_of_Z z) -> hash_int h f = inr z.
Proof.
  intros Hf. unfold hash_int. rewrite Hf. unfold truthy.
  rewrite bool_decide_eq_false_2 by apply str_of_Z_nonempty. apply int_of_str_of_Z.
Qed.

Lemma read_shards_hash h st : shard_hash h st -> read_shards h = inr st.
Proof.
  intros []. unfold read_shards.
  rewrite (hash_int_str _ _ _ sh_expected0), (hash_int_str _ _ _ sh_completed0),
    (hash_int_str _ _ _ sh_failed0), (hash_int_str _ _ _ sh_items_created0),
    (hash_int_str _ _ _ sh_items_failed0). by destruct st.
Qed.

Record shard_report := Report {
  rp_created : Z; rp_failed : Z; rp_shard_failed : bool;
  rp_index : option Z; rp_error : option string
}.

Definition count_report (st : ShardState) (r : shard_report) : ShardState :=
  {| ss_expected := ss_expected st;
     ss_completed := ss_completed st + 1;
     ss_failed := ss_failed st + (if rp_shard_failed r then 1 else 0);
     ss_items_created := ss_items_created st + rp_created r;
     ss_items_failed := ss_items_failed st + rp_failed r |}.

Lemma incr_read_str z : incr_read (Some (str_of_Z z)) = inr z.
Proof. simpl. by rewrite py_int_str_of_Z. Qed.

Lemma hash_steps_incr k h f n z l :
  h !! f = Some (str_of_Z z) ->
  hash_steps k h (WHincrby k f n :: l) = hash_steps k (<[f := str_of_Z (z + n)]> h) l.
Proof. intros Hf. simpl. rewrite decide_True by done. by rewrite Hf, incr_read_str. Qed.

Lemma hash_steps_set k h m : hash_steps k h [WHset k m] = Some (hset_all h m).
Proof. simpl. by rewrite decide_True. Qed.

Lemma shard_hash_steps key h st r now samples :
  shard_hash h st -> (samples = [] \/ exists x, samples = [("error_samples", x)]) ->
  exists h', hash_steps key h
      ([WHincrby key "completed_shards" 1; WHincrby key "items_created" (rp_created r);
        WHincrby key "items_failed" (rp_failed r)]
       ++ (if rp_shard_failed r then [WHincrby key "failed_shards" 1] else [])
       ++ [WHset key (("updated_at", now) :: samples)])%list = Some h'
    /\ h' <> ∅ /\ shard_hash h' (count_report st r).
Proof.
  intros [He Hc Hf Hic Hif] Hsm.
  set (h3 := <["items_failed" := str_of_Z (ss_items_failed st + rp_failed r)]>
    (<["items_created" := str_of_Z (ss_items_created st + rp_created r)]>
    (<["completed_shards" := str_of_Z (ss_completed st + 1)]> h))).
  set (h4 := opt_insert "failed_shards"
    (if rp_shard_failed r then Some (str_of_Z (ss_failed st + 1)) else None) h3).
  exists (hset_all h4 (("updated_at", now) :: samples)). split.
  - cbn [app]. rewrite (hash_steps_incr _ _ _ _ (ss_completed st)) by done.
    rewrite (hash_steps_incr _ _ _ _ (ss_items_created st)) by (by lookup_fields).
    rewrite (hash_steps_incr _ _ _ _ (ss_items_failed st)) by (by lookup_fields). fold h3.
    unfold h4. destruct (rp_shard_failed r); cbn [app opt_insert];
      [rewrite (hash_steps_incr _ _ _ _ (ss_failed st)) by (unfold h3; by lookup_fields)|];
      apply hash_steps_set.
  - assert (shard_hash (hset_all h4 (("updated_at", now) :: samples)) (count_report st r)) as Hsh.
    { destruct Hsm as [-> | [x ->]]; unfold hset_all; cbn [foldl]; unfold h4, h3;
        split; unfold count_report; cbn [ss_expected ss_completed ss_failed ss_items_created
          ss_items_failed]; lookup_fields; try done;
        destruct (rp_shard_failed r); lookup_fields; rewrite ?Z.add_0_r; done. }
    split; [|done]. intros H0. pose proof (sh_expected _ _ Hsh) as Hx. rewrite H0 in Hx.
    by rewrite lookup_empty in Hx.
Qed.

(** The counters of a parent in the keyspace. *)
Definition shards_stored (now : Z) (ks : keyspace) (parent : string) (st : ShardState) : Prop :=
  exists h, as_hash now ks (parent_state_key parent) = inr h /\ h <> ∅ /\ shard_hash h st.

Section bulk_queue_lemmas.
Context `{RedisLaws} `{Entropy} (cfg : Settings).
Context (Hredis : is_redis cfg = true).

Lemma shards_stored_peek now ks parent st :
  shards_stored now ks parent st -> is_Some (peek now ks (parent_state_key parent)).
Proof.
  intros (h & Hh & Hne & _). apply is_Some_peek_val. unfold as_hash in Hh.
  destruct (peek_val now ks (parent_state_key parent)); [done|]. congruence.
Qed.

Lemma init_quiet w parent coll n mode tiles filters h :
  quiet w -> as_hash (w_now w) (w_redis w) (parent_state_key parent) = inr h ->
  exists ks', init_parent_state cfg parent coll n mode tiles filters w = (inr tt, with_redis w ks')
    /\ shards_stored (w_now w) ks' parent (Shards (Z.max 0 n) 0 0 0 0).
Proof.
  intros Hq Hh. eexists. split.
  - unfold init_parent_state. rewrite Hredis. cbn [negb]. rewrite bind_run, get_now_run.
    apply run_redis_retry_ok. apply redis_ok; [done|]. autorewrite with redis_exec.
    rewrite Hh. reflexivity.
  - eexists. split; [apply as_hash_put_keep|].
    match goal with |- ?h <> _ /\ shard_hash _ ?st => assert (shard_hash h st) as Hs end.
    + unfold parent_mapping. rewrite hset_all_app.
      assert (forall h, hset_all h (match filters with
          | Some (f :: fs) => [("replace_filters", join newline (f :: fs))] | _ => [] end)
        = opt_insert "replace_filters" (match filters with
          | Some (f :: fs) => Some (join newline (f :: fs)) | _ => None end) h) as ->
        by (by destruct filters as [[]|]).
      unfold hset_all. cbn [foldl]. split; by lookup_fields.
    + split; [|done]. intros He0. pose proof (sh_expected _ _ Hs) as Hx. rewrite He0 in Hx.
      by rewrite lookup_empty in Hx.
Qed.

Lemma shard_state_quiet w parent st :
  quiet w -> shards_stored (w_now w) (w_redis w) parent st ->
  get_parent_shard_state cfg parent w = (inr (Some st), w).
Proof.
  intros Hq (h & Hh & Hne & Hs). unfold get_parent_shard_state. rewrite Hredis. cbn [negb].
  apply run_redis_retry_ok. erewrite bind_redis; [|done|].
  2: { autorewrite with redis_exec. rewrite Hh. reflexivity. }
  rewrite with_redis_same, decide_False by done. rewrite fmap_run, lift_run.
  by rewrite (read_shards_hash _ _ Hs).
Qed.

Lemma shard_mutate_quiet w parent st r :
  quiet w -> shards_stored (w_now w) (w_redis w) parent st ->
  exists ks', shard_mutate (parent_state_key parent) (rp_created r) (rp_failed r)
      (rp_shard_failed r) (rp_index r) (rp_error r) w = (inr true, with_redis w ks')
    /\ shards_stored (w_now w) ks' parent (count_report st r).
Proof.
  intros Hq Hst. pose proof (shards_stored_peek _ _ _ _ Hst) as Hpk.
  destruct Hst as (h & Hh & Hne & Hs). set (key := parent_state_key parent) in *.
  set (samples := if rp_shard_failed r && truthy (rp_error r) then
    [("error_samples", dumps_compact (JList (add_sample (parse_samples (h !! "error_samples"))
       (rp_index r) (opt_str (rp_error r)))))] else []).
  destruct (shard_hash_steps key h st r (isoformat_z (utcnow (w_now w))) samples Hs)
    as (h' & Hsteps & Hne' & Hs').
  { unfold samples. destruct (_ && _); [right; by eexists|by left]. }
  destruct (multi_hash _ _ _ _ _ _ Hh Hsteps) as (ks' & Hm & Hh' & _).
  exists ks'. split; [|by exists h'].
  unfold shard_mutate. erewrite bind_redis; [|done|].
  2: { autorewrite with redis_exec. rewrite bool_decide_eq_true_2 by done. reflexivity. }
  rewrite with_redis_same. cbn [negb]. rewrite bind_run, get_now_run, bind_run.
  assert ((if rp_shard_failed r && truthy (rp_error r) then
      v ← try_except (redis (Hget key "error_samples")) (fun _ => mret None);
      mret [("error_samples", dumps_compact (JList (add_sample (parse_samples v) (rp_index r)
        (opt_str (rp_error r)))))] else mret []) w = (inr samples, w)) as Hv.
  { unfold samples. destruct (_ && _); [|done]. rewrite bind_run.
    erewrite try_except_ok; [reflexivity|].
    erewrite redis_ok; [by rewrite with_redis_same|done|].
    autorewrite with redis_exec. by rewrite Hh. }
  rewrite Hv. erewrite bind_redis; [done|done|]. autorewrite with redis_exec. exact Hm.
Qed.

(** All the reports of the shards of a parent, in order. *)
Fixpoint record_all (parent : string) (l : list shard_report) : M unit :=
  match l with
  | [] => mret tt
  | r :: l' =>
      record_parent_shard_result cfg parent (rp_created r) (rp_failed r) (rp_shard_failed r)
        (rp_index r) (rp_error r);;
      record_all parent l'
  end.

Lemma record_all_quiet w parent st l :
  quiet w -> shards_stored (w_now w) (w_redis w) parent st ->
  exists ks', record_all parent l w = (inr tt, with_redis w ks')
    /\ shards_stored (w_now w) ks' parent (foldl count_report st l).
Proof.
  revert w st. induction l as [|r l IH]; intros w st Hq Hst; cbn [record_all foldl].
  { exists (w_redis w). by rewrite with_redis_same. }
  destruct (shard_mutate_quiet w parent st r Hq Hst) as (ks1 & Hm & Hst1).
  destruct (IH (with_redis w ks1) (count_report st r) Hq Hst1) as (ks2 & Hr & Hst2).
  exists ks2. split; [|done]. rewrite bind_run. unfold record_parent_shard_result.
  rewrite Hredis. cbn [negb]. rewrite bind_run.
  rewrite (run_redis_retry_ok _ _ _ _ _ _ Hm). cbn [negb].
  destruct Hst1 as (h & Hh & _ & Hs).
  erewrite run_redis_retry_ok with (a := Some _) (w' := with_redis w ks1); [exact Hr|].
  erewrite bind_redis; [|done|].
  2: { autorewrite with redis_exec. cbn [w_now w_redis with_redis]. rewrite Hh. reflexivity. }
  rewrite fmap_run, lift_run. unfold read_result. rewrite (read_shards_hash _ _ Hs). reflexivity.
Qed.
End bulk_queue_lemmas.

(** ** The queue as a list of payloads *)

#[export] Instance payload_codec : Codec BulkJobPayload :=
  {| encode := to_json; decode := from_json; valid := ascii_payload; normal := normal_payload |}.

#[export] Instance payload_codec_law : CodecLaw BulkJobPayload.
Proof. exact from_json_to_json. Qed.

(** The bulk import queue, newest entry first. *)
Abbreviation queue_of := (queue_at QUEUE_KEY).

(** An entry that is a payload of [job_id]. *)
Definition entry_of (job_id : string) (p : string) : bool :=
  match from_json p with inr q => bool_decide (bp_job_id q = job_id) | inl _ => false end.

(** The list without its first entry of [job_id], if it has one. *)
Fixpoint without_job (job_id : string) (l : list string) : option (list string) :=
  match l with
  | [] => None
  | p :: l' => if entry_of job_id p then Some l' else (p ::.) <$> without_job job_id l'
  end.

Section queue_lemmas.
Context `{RedisLaws} `{Entropy} (cfg : Settings).
Context (Hredis : is_redis cfg = true).

Lemma try_remove_skip w id p : entry_of id p = false -> try_remove id p w = (inr None, w).
Proof.
  unfold entry_of, try_remove, try_except. rewrite bind_run, lift_run.
  destruct (from_json p) as [e|q]; [done|]. intros Hq%bool_decide_eq_false.
  by rewrite decide_False.
Qed.

Lemma try_remove_hit w id p l1 l2 :
  quiet w -> queue_of (w_now w) (w_redis w) = inr (l1 ++ p :: l2)%list ->
  Forall (fun p => entry_of id p = false) l1 -> entry_of id p = true ->
  try_remove id p w =
  (inr (Some 1), with_redis w (put_list (w_now w) (w_redis w) QUEUE_KEY (l1 ++ l2)%list)).
Proof.
  intros Hq Hl Hno He. pose proof He as Hp. unfold entry_of in Hp.
  apply try_except_ok. rewrite bind_run, lift_run. destruct (from_json p) as [e|q]; [done|].
  apply bool_decide_eq_true in Hp. rewrite decide_True by done. rewrite fmap_run.
  erewrite lrem1_quiet; [reflexivity|done|exact Hl|].
  intros Hin. rewrite Forall_forall in Hno. specialize (Hno _ Hin). congruence.
Qed.

Lemma remove_matching_quiet w id l1 l2 :
  quiet w -> queue_of (w_now w) (w_redis w) = inr (l1 ++ l2)%list ->
  Forall (fun p => entry_of id p = false) l1 ->
  remove_matching id l2 w =
  match without_job id l2 with
  | Some l' => (inr 1, with_redis w (put_list (w_now w) (w_redis w) QUEUE_KEY (l1 ++ l')%list))
  | None => (inr 0, w)
  end.
Proof.
  intros Hq. revert l1. induction l2 as [|p l2 IH]; intros l1 Hl Hno; [done|].
  cbn [remove_matching without_job]. rewrite bind_run. destruct (entry_of id p) eqn:He.
  - rewrite (try_remove_hit w id p l1 l2) by done. reflexivity.
  - rewrite try_remove_skip by done. rewrite (IH (l1 ++ [p])%list).
    + destruct (without_job id l2); simpl; [|done]. by rewrite <-app_assoc.
    + by rewrite <-app_assoc.
    + apply Forall_app. split; [done|]. by constructor.
Qed.

Lemma enqueue_quiet w p l :
  quiet w -> queue_of (w_now w) (w_redis w) = inr l ->
  enqueue cfg p w =
  (inr tt, with_redis w (put_keep (w_now w) (w_redis w) QUEUE_KEY (VList (to_json p :: l)))).
Proof.
  intros Hq Hl. unfold enqueue. rewrite Hredis. apply try_except_ok, run_redis_retry_ok.
  by apply lpush_quiet.
Qed.

Lemma enqueue_pushes w p l :
  quiet w -> queue_of (w_now w) (w_redis w) = inr l ->
  exists ks', enqueue cfg p w = (inr tt, with_redis w ks')
    /\ queue_of (w_now w) ks' = inr (encode p :: l).
Proof.
  intros Hq Hl. eexists. split; [by apply enqueue_quiet|]. apply queue_put_keep.
Qed.

Lemma remove_queued_run w id l :
  quiet w -> queue_of (w_now w) (w_redis w) = inr l ->
  exists ks', remove_bulk_job_from_redis_queue cfg id w =
      (inr (match without_job id l with Some _ => 1 | None => 0 end), with_redis w ks')
    /\ queue_of (w_now w) ks' = inr (default l (without_job id l))
    /\ (forall k, k <> QUEUE_KEY -> ks' !! k = w_redis w !! k).
Proof.
  intros Hq Hl. unfold remove_bulk_job_from_redis_queue. rewrite Hredis. cbn [negb].
  rewrite bind_run, (lrange_all_quiet _ _ l) by done.
  rewrite (remove_matching_quiet w id [] l) by done. cbn [app].
  destruct (without_job id l) as [l'|].
  - eexists. split; [reflexivity|]. split; [apply queue_put_list|].
    intros k Hk. by apply put_list_frame.
  - exists (w_redis w). by rewrite with_redis_same.
Qed.
End queue_lemmas.

(** ** Properties *)

(** Round trip: parsing the JSON text of a payload with ASCII strings gives
    the payload back, with an empty list, an empty parent id and an empty job
    kind replaced by the default the reader supplies. *)
Theorem payload_round_trip (p : BulkJobPayload) :
  ascii_payload p = true -> from_json (to_json p) = inr (normal_payload p).
Proof. apply from_json_to_json. Qed.

(** The queue is first in, first out: in a quiet world with an empty queue,
    payloads enqueued in order and then popped by a worker come out in that
    order, each parsed back to itself, and none is lost or repeated. *)
Theorem queue_fifo `{RedisLaws} `{Entropy} (cfg : Settings) (w : world) (ps : list BulkJobPayload) :
  is_redis cfg = true -> quiet w -> queue_of (w_now w) (w_redis w) = inr [] ->
  forallb ascii_payload ps = true ->
  exists w1 w2, for_each ps (enqueue cfg) w = (inr tt, w1)
    /\ drain QUEUE_KEY (S (length ps)) w1 = (inr (map (fun p => inr (normal_payload p)) ps), w2).
Proof.
  intros Hr Hq Hl Hps. exact (fifo_quiet QUEUE_KEY (enqueue cfg) w ps (enqueue_pushes cfg Hr) Hq Hl Hps).
Qed.

(** Cancelling a queued job removes exactly its first entry: the result is
    1 and the queue is the old one without that entry, in the same order, when
    the job is queued; otherwise the result is 0 and nothing changes.  Entries
    that do not parse are never removed. *)
Theorem remove_from_queue `{RedisLaws} `{Entropy} (cfg : Settings) (w : world) (id : string)
    (l : list string) :
  is_redis cfg = true -> quiet w -> queue_of (w_now w) (w_redis w) = inr l ->
  exists w', remove_bulk_job_from_redis_queue cfg id w =
      (inr (match without_job id l with Some _ => 1 | None => 0 end), w')
    /\ queue_of (w_now w') (w_redis w') = inr (default l (without_job id l))
    /\ (forall k, k <> QUEUE_KEY -> w_redis w' !! k = w_redis w !! k).
Proof.
  intros Hr Hq Hl. destruct (remove_queued_run cfg Hr w id l Hq Hl) as (ks' & Hrun & Hl' & Hf).
  by exists (with_redis w ks').
Qed.

(** Shard accounting: after a parent's state is initialised and every
    report of its shards recorded, in a quiet world, the aggregate state is the
    sum of the reports: shards completed and failed, items created and failed. *)
Theorem shard_reports_add_up `{RedisLaws} `{Entropy} (cfg : Settings) (w : world)
    (parent coll mode : string) (n : Z) (tiles : bool) (filters : option (list string))
    (h : gmap string string) (l : list shard_report) :
  is_redis cfg = true -> quiet w ->
  as_hash (w_now w) (w_redis w) (parent_state_key parent) = inr h ->
  exists w1 w2, init_parent_state cfg parent coll n mode tiles filters w = (inr tt, w1)
    /\ record_all cfg parent l w1 = (inr tt, w2)
    /\ get_parent_shard_state cfg parent w2 =
       (inr (Some (foldl count_report (Shards (Z.max 0 n) 0 0 0 0) l)), w2).
Proof.
  intros Hr Hq Hh.
  destruct (init_quiet cfg Hr w parent coll n mode tiles filters h Hq Hh) as (ks1 & Hi & Hs1).
  destruct (record_all_quiet cfg Hr (with_redis w ks1) parent _ l Hq Hs1) as (ks2 & Hrec & Hs2).
  exists (with_redis w ks1), (with_redis w ks2). split; [done|]. split; [done|].
  by apply (shard_state_quiet cfg Hr (with_redis w ks2)).
Qed.

(** A report whose reply is lost is recorded again by the retry: one shard
    is counted as two, so the parent reaches its expected number of completed
    shards before its shards have finished. *)
Theorem lost_reply_counts_shard_twice :
  exists (w w' : world) (r : option ShardResult),
    @record_parent_shard_result reference_server reference_entropy default_settings
      "p" 10 0 false None None w = (inr r, w')
    /\ (sr_state <$> r) = Some (Shards 2 2 0 20 0)
    /\ shards_stored (w_now w) (w_redis w) "p" (Shards 2 0 0 0 0).
Proof.
  set (h := hset_all ∅ (parent_mapping "p" "roads" 2 "replace" false None "t")).
  set (w := World (put ∅ (parent_state_key "p") (VHash h) None) 0
              [quiet_tick; Tick 0 (fun _ ks => ks) ReplyLost] [] ∅ [] 0 0 [] no_services).
  exists w. eexists _, _. split; [apply run_fst; vm_compute; reflexivity|].
  split; [reflexivity|]. exists h. split; [|split].
  - unfold as_hash, w. cbn [w_redis w_now]. by rewrite peek_val_put_eq.
  - intros He. assert (h !! "mode" = Some "replace") as Hm by reflexivity.
    rewrite He in Hm. by rewrite lookup_empty in Hm.
  - by split.
Qed.

(** ** Witnesses *)

Definition demo_payload : BulkJobPayload :=
  BulkPayload "j1" "roads" "up/a.geojson" "replace" 500 (Some 7) true None "single" None None
    (Some 3) true (Some ["kind eq 1"]).

Lemma payload_round_trip_witness : from_json (to_json demo_payload) = inr demo_payload.
Proof. apply (payload_round_trip demo_payload). reflexivity. Defined.

Lemma queue_fifo_witness :
  exists w1 w2, for_each [demo_payload; demo_payload]
      (@enqueue reference_server reference_entropy default_settings) empty_world = (inr tt, w1)
    /\ @drain reference_server _ _ QUEUE_KEY 3 w1 = (inr [inr demo_payload; inr demo_payload], w2).
Proof.
  apply (@queue_fifo reference_server reference_laws reference_entropy default_settings empty_world
    [demo_payload; demo_payload]); reflexivity.
Defined.

Lemma remove_from_queue_witness :
  exists w', @remove_bulk_job_from_redis_queue reference_server default_settings "j1"
      (with_redis empty_world (put ∅ QUEUE_KEY (VList ["junk"; to_json demo_payload]) None)) =
      (inr 1, w')
    /\ queue_of (w_now w') (w_redis w') = inr ["junk"]
    /\ (forall k, k <> QUEUE_KEY ->
         w_redis w' !! k = put ∅ QUEUE_KEY (VList ["junk"; to_json demo_payload]) None !! k).
Proof.
  apply (@remove_from_queue reference_server reference_laws reference_entropy default_settings
    (with_redis empty_world (put ∅ QUEUE_KEY (VList ["junk"; to_json demo_payload]) None)) "j1"
    ["junk"; to_json demo_payload]); reflexivity.
Defined.

Lemma shard_reports_add_up_witness :
  exists w1 w2, @init_parent_state reference_server reference_entropy default_settings
      "p" "roads" 2 "replace" false None empty_world = (inr tt, w1)
    /\ @record_all reference_server reference_entropy default_settings "p"
         [Report 10 1 false None None; Report 0 5 true (Some 1) (Some "bad")] w1 = (inr tt, w2)
    /\ @get_parent_shard_state reference_server reference_entropy default_settings "p" w2 =
       (inr (Some (Shards 2 2 1 10 6)), w2).
Proof.
  apply (@shard_reports_add_up reference_server reference_laws reference_entropy default_settings
    empty_world "p" "roads" "replace" 2 false None ∅
    [Report 10 1 false None None; Report 0 5 true (Some 1) (Some "bad")]); reflexivity.
Defined.
