(* ===== verification/FinalizeQueue.v ===== *)
(** * Finalize queue (app/services/bulk_finalize_queue.py)

    The promotion of a staging table is queued once per job: the key
    [geofastmap:bulk_finalize_pending:<job>] marks a queued promotion, the hash
    [geofastmap:bulk_finalize_state:<job>] keeps what is needed to queue it
    again. *)

From S2P Require Import Prelude PyTime Redis World Json Mutex JobStore Queue BulkQueue.

Definition FINALIZE_QUEUE_KEY := "geofastmap:bulk_finalize_queue".
Definition FINALIZE_DEDUPE_PREFIX := "geofastmap:bulk_finalize_pending:".
Definition FINALIZE_STATE_PREFIX := "geofastmap:bulk_finalize_state:".

Record BulkFinalizePayload := FinalizePayload {
  fp_job_id : string;
  fp_collection_id : string;
  fp_mode : string;
  fp_items_created : Z;
  fp_items_failed : Z;
  fp_owner_id : option Z;
  fp_queue_compute_tiles : bool;
  fp_attempt : Z
}.

Definition finalize_json (p : BulkFinalizePayload) : json :=
  JObj [("job_id", JStr (fp_job_id p)); ("collection_id", JStr (fp_collection_id p));
        ("mode", JStr (fp_mode p)); ("items_created", JInt (fp_items_created p));
        ("items_failed", JInt (fp_items_failed p)); ("owner_id", opt_json JInt (fp_owner_id p));
        ("queue_compute_tiles", JBool (fp_queue_compute_tiles p));
        ("attempt", JInt (fp_attempt p))].

(** [BulkFinalizePayload.to_json] *)
Definition finalize_to_json (p : BulkFinalizePayload) : string := dumps_compact (finalize_json p).

(** [int(d.get(f) or 0)] *)
Definition get_int0 (f : string) (d : list (string * json)) : res Z :=
  json_int (json_or (default JNull (dict_get f d)) (JInt 0)).

(** [BulkFinalizePayload.from_json] *)
Definition finalize_from_json (raw : string) : res BulkFinalizePayload :=
  let! j := json_loads raw in
  let! d := as_dict j in
  let! id := dict_item "job_id" d in let! id := expect_str id in
  let! coll := dict_item "collection_id" d in let! coll := expect_str coll in
  let mode := json_str (json_or (default JNull (dict_get "mode" d)) (JStr "append")) in
  let! created := get_int0 "items_created" d in
  let! failed := get_int0 "items_failed" d in
  let! owner := expect_opt expect_int (dict_get "owner_id" d) in
  let tiles := json_truthy (default JNull (dict_get "queue_compute_tiles" d)) in
  let! attempt := get_int0 "attempt" d in
  inr (FinalizePayload id coll mode created failed owner tiles attempt).

Definition dedupe_key (job_id : string) : string := FINALIZE_DEDUPE_PREFIX +:+ job_id.
Definition state_key (job_id : string) : string := FINALIZE_STATE_PREFIX +:+ job_id.

(** The mapping of [mark_finalize_pending]. *)
Definition finalize_mapping (p : BulkFinalizePayload) (now : string) : list (string * string) :=
  [("job_id", fp_job_id p); ("collection_id", fp_collection_id p); ("mode", fp_mode p);
   ("items_created", str_of_Z (fp_items_created p)); ("items_failed", str_of_Z (fp_items_failed p));
   ("owner_id", match fp_owner_id p with Some o => str_of_Z o | None => "" end);
   ("queue_compute_tiles", bool_flag (fp_queue_compute_tiles p)); ("updated_at", now)].

Section finalize_queue.
Context `{RedisServer} `{Entropy} (cfg : Settings).

Definition is_finalize_pending (job_id : string) : M bool :=
  if negb (is_redis cfg) then mret false
  else run_redis_retry cfg (redis (Exists (dedupe_key job_id))) (Some 5).

Definition mark_finalize_pending (p : BulkFinalizePayload) : M unit :=
  if negb (is_redis cfg) then mret tt
  else
    now ← get_now;
    run_redis_retry cfg
      (redis (SetEx (dedupe_key (fp_job_id p)) "1" (Some (86400 * 7)) false);;
       redis (Hset (state_key (fp_job_id p)) (finalize_mapping p (isoformat_z (utcnow now))));;
       redis (Expire (state_key (fp_job_id p)) (86400 * 7))) None.

Definition get_finalize_state (job_id : string) : M (gmap string string) :=
  if negb (is_redis cfg) then mret ∅
  else run_redis_retry cfg (redis (Hgetall (state_key job_id))) (Some 5).

Definition mark_finalize_pending_job (job_id : string) : M unit :=
  if negb (is_redis cfg) then mret tt
  else run_redis_retry cfg
    (redis (SetEx (dedupe_key job_id) "1" (Some (86400 * 7)) false);; mret tt) None.

Definition clear_finalize_pending (job_id : string) : M unit :=
  if negb (is_redis cfg) then mret tt
  else try_pass (redis (Del [dedupe_key job_id; state_key job_id])).

Definition record_finalize_error (job_id msg : string) (attempt : Z) : M unit :=
  if negb (is_redis cfg) then mret tt
  else
    now ← get_now;
    run_redis_retry cfg
      (redis (Hset (state_key job_id)
         [("job_id", job_id); ("attempt", str_of_Z attempt); ("error", str_take 2000 msg);
          ("updated_at", isoformat_z (utcnow now))])) None.

(** The closure [_enqueue] of [enqueue_finalize]. *)
Definition enqueue_finalize_run (p : BulkFinalizePayload) (force : bool) : M bool :=
  pending ← (if force then mret false else redis (Exists (dedupe_key (fp_job_id p))));
  if (pending : bool) then mret true
  else
    mark_finalize_pending p;;
    redis (Lpush FINALIZE_QUEUE_KEY (finalize_to_json p));;
    mret true.

Definition enqueue_finalize (p : BulkFinalizePayload) (force : bool) : M bool :=
  if negb (is_redis cfg) then mret false
  else run_redis_retry cfg (enqueue_finalize_run p force) None.

(** One entry of the loop of [remove_finalize_from_queue]. *)
Definition try_remove_finalize (job_id raw : string) : M Z :=
  try_except
    (p ← lift (finalize_from_json raw);
     if decide (fp_job_id p = job_id) then redis (Lrem1 FINALIZE_QUEUE_KEY raw) else mret 0)
    (fun _ => mret 0).

Fixpoint remove_finalize_entries (job_id : string) (l : list string) : M Z :=
  match l with
  | [] => mret 0
  | raw :: l' =>
      n ← try_remove_finalize job_id raw;
      m ← remove_finalize_entries job_id l';
      mret (n + m)
  end.

Definition remove_finalize_from_queue (job_id : string) : M Z :=
  if negb (is_redis cfg) then mret 0
  else l ← redis (Lrange FINALIZE_QUEUE_KEY 0 (-1)); remove_finalize_entries job_id l.

Definition finalize_queue_length : M Z :=
  if negb (is_redis cfg) then mret 0
  else try_except (redis (Llen FINALIZE_QUEUE_KEY)) (fun _ => mret 0).
End finalize_queue.

(** ** Payload round trip *)

Definition ascii_finalize (p : BulkFinalizePayload) : bool :=
  ascii_str (fp_job_id p) && ascii_str (fp_collection_id p) && ascii_str (fp_mode p).

Definition normal_finalize (p : BulkFinalizePayload) : BulkFinalizePayload :=
  {| fp_job_id := fp_job_id p; fp_collection_id := fp_collection_id p;
     fp_mode := str_or (fp_mode p) "append"; fp_items_created := fp_items_created p;
     fp_items_failed := fp_items_failed p; fp_owner_id := fp_owner_id p;
     fp_queue_compute_tiles := fp_queue_compute_tiles p; fp_attempt := fp_attempt p |}.

Lemma finalize_json_wf p : ascii_finalize p = true -> jwf (finalize_json p) = true.
Proof.
  intros Ha. unfold ascii_finalize in Ha. repeat (apply andb_true_iff in Ha as [Ha ?]).
  unfold finalize_json. jwf_dict; try done. by destruct (fp_owner_id p).
Qed.

Lemma int0_or z : json_int (json_or (JInt z) (JInt 0)) = inr z.
Proof. unfold json_or, json_truthy. by destruct (Z.eqb_spec z 0) as [->|]. Qed.

Lemma str_json_or (s d : string) : json_str (json_or (JStr s) (JStr d)) = str_or s d.
Proof. unfold json_or, str_or, json_truthy. case_bool_decide; simpl; by case_decide. Qed.

Lemma finalize_round_trip_aux p :
  ascii_finalize p = true -> finalize_from_json (finalize_to_json p) = inr (normal_finalize p).
Proof.
  intros Ha. unfold finalize_from_json, json_loads, finalize_to_json.
  rewrite loads_dumps_compact by (by apply finalize_json_wf). unfold finalize_json, get_int0.
  simpl. rewrite str_json_or, !int0_or. simpl. unfold normal_finalize.
  by destruct (fp_owner_id p).
Qed.

#[export] Instance finalize_codec : Codec BulkFinalizePayload :=
  {| encode := finalize_to_json; decode := finalize_from_json; valid := ascii_finalize;
     normal := normal_finalize |}.

#[export] Instance finalize_codec_law : CodecLaw BulkFinalizePayload.
Proof. exact finalize_round_trip_aux. Qed.

(** ** Operations in a quiet world *)

Abbreviation finalize_queue_of := (queue_at FINALIZE_QUEUE_KEY).

(** A promotion of the job is marked as queued. *)
Definition finalize_pending (now : Z) (ks : keyspace) (job_id : string) : bool :=
  bool_decide (is_Some (peek now ks (dedupe_key job_id))).

Lemma dedupe_state_ne id id' : dedupe_key id <> state_key id'.
Proof. by key_neq. Qed.
Lemma queue_dedupe_ne id : FINALIZE_QUEUE_KEY <> dedupe_key id.
Proof. by key_neq. Qed.
Lemma queue_state_ne id : FINALIZE_QUEUE_KEY <> state_key id.
Proof. by key_neq. Qed.
#[export] Hint Resolve dedupe_state_ne queue_dedupe_ne queue_state_ne : geofast.

(** An entry of the queue that belongs to [job_id]. *)
Definition finalize_entry_of (job_id raw : string) : bool :=
  match finalize_from_json raw with
  | inr p => bool_decide (fp_job_id p = job_id)
  | inl _ => false
  end.

Section finalize_lemmas.
Context `{RedisLaws} `{Entropy} (cfg : Settings).
Context (Hredis : is_redis cfg = true).

Lemma mark_pending_quiet w p h :
  quiet w -> as_hash (w_now w) (w_redis w) (state_key (fp_job_id p)) = inr h ->
  exists ks', mark_finalize_pending cfg p w = (inr tt, with_redis w ks')
    /\ finalize_pending (w_now w) ks' (fp_job_id p) = true
    /\ as_hash (w_now w) ks' (state_key (fp_job_id p)) =
       inr (hset_all h (finalize_mapping p (isoformat_z (utcnow (w_now w)))))
    /\ (forall k, k <> dedupe_key (fp_job_id p) -> k <> state_key (fp_job_id p) ->
          ks' !! k = w_redis w !! k).
Proof.
  intros Hq Hh. set (dk := dedupe_key (fp_job_id p)) in *. set (sk := state_key (fp_job_id p)) in *.
  assert (dk <> sk) as Hne by (unfold dk, sk; auto with geofast).
  set (m := finalize_mapping p (isoformat_z (utcnow (w_now w)))).
  eexists. split.
  - unfold mark_finalize_pending. rewrite Hredis. cbn [negb]. rewrite bind_run, get_now_run.
    apply run_redis_retry_ok. fold dk sk m.
    erewrite bind_redis; [|done|by autorewrite with redis_exec].
    erewrite bind_redis; [|done|].
    2: { autorewrite with redis_exec. cbn [w_now w_redis with_redis].
         rewrite (as_hash_peek _ (w_now w) _ (w_redis w)), Hh; [reflexivity|].
         by rewrite peek_val_put_ne. }
    erewrite redis_ok; [|done|eapply exec_expire_live; [apply peek_put_keep_eq|lia]].
    rewrite !with_redis_twice. reflexivity.
  - cbn [w_now w_redis with_redis].
    split; [|split].
    + unfold finalize_pending. fold dk. apply bool_decide_eq_true.
      rewrite peek_put_ne, peek_put_keep_ne, peek_put_eq by done. unfold live, us. cbn [e_exp fmap option_fmap option_map].
      rewrite (proj2 (Z.ltb_lt _ _)) by lia. by eexists.
    + unfold as_hash. rewrite peek_val_put_eq. by rewrite live_week.
    + intros k Hk1 Hk2. unfold put_keep, put. by rewrite !lookup_insert_ne.
Qed.

Lemma enqueue_finalize_pending w p :
  quiet w -> finalize_pending (w_now w) (w_redis w) (fp_job_id p) = true ->
  enqueue_finalize cfg p false w = (inr true, w).
Proof.
  intros Hq Hp. unfold enqueue_finalize. rewrite Hredis. apply run_redis_retry_ok.
  unfold enqueue_finalize_run. erewrite bind_redis; [|done|].
  2: { autorewrite with redis_exec. unfold finalize_pending in Hp. rewrite Hp. reflexivity. }
  by rewrite with_redis_same.
Qed.

Lemma enqueue_finalize_fresh w p h l :
  quiet w -> finalize_pending (w_now w) (w_redis w) (fp_job_id p) = false ->
  as_hash (w_now w) (w_redis w) (state_key (fp_job_id p)) = inr h ->
  finalize_queue_of (w_now w) (w_redis w) = inr l ->
  exists ks', enqueue_finalize cfg p false w = (inr true, with_redis w ks')
    /\ finalize_pending (w_now w) ks' (fp_job_id p) = true
    /\ finalize_queue_of (w_now w) ks' = inr (finalize_to_json p :: l)
    /\ (forall k, k <> dedupe_key (fp_job_id p) -> k <> state_key (fp_job_id p) ->
          k <> FINALIZE_QUEUE_KEY -> ks' !! k = w_redis w !! k).
Proof.
  intros Hq Hp Hh Hl.
  destruct (mark_pending_quiet w p h Hq Hh) as (ks1 & Hm & Hpend & _ & Hf).
  assert (finalize_queue_of (w_now w) ks1 = inr l) as Hl1.
  { rewrite <-Hl. apply queue_frame. apply Hf; auto with geofast. }
  eexists. split; [|split; [|split; [apply queue_put_keep|]]].
  - unfold enqueue_finalize. rewrite Hredis. apply run_redis_retry_ok.
    unfold enqueue_finalize_run. erewrite bind_redis; [|done|].
    2: { autorewrite with redis_exec. unfold finalize_pending in Hp. rewrite Hp. reflexivity. }
    rewrite with_redis_same, bind_run, Hm, bind_run.
    by rewrite (lpush_quiet FINALIZE_QUEUE_KEY (with_redis w ks1) _ l).
  - unfold finalize_pending in *. cbn [w_now w_redis with_redis].
    rewrite peek_put_keep_ne; auto with geofast.
  - intros k Hd Hs Hk. unfold put_keep, put. rewrite lookup_insert_ne by done. by apply Hf.
Qed.

Lemma enqueue_finalize_repeat w id ps :
  quiet w -> finalize_pending (w_now w) (w_redis w) id = true ->
  Forall (fun p => fp_job_id p = id) ps ->
  map_m (fun p => enqueue_finalize cfg p false) ps w = (inr (map (fun _ => true) ps), w).
Proof.
  intros Hq Hp. induction 1 as [|p ps Hid _ IH]; [done|]. cbn [map_m map].
  subst id. rewrite bind_run, enqueue_finalize_pending by done. by rewrite bind_run, IH.
Qed.

Lemma try_remove_finalize_quiet w id raw l1 l2 :
  quiet w -> finalize_queue_of (w_now w) (w_redis w) = inr (l1 ++ raw :: l2)%list ->
  Forall (fun p => finalize_entry_of id p = false) l1 ->
  try_remove_finalize id raw w =
  (if finalize_entry_of id raw
   then (inr 1, with_redis w (put_list (w_now w) (w_redis w) FINALIZE_QUEUE_KEY (l1 ++ l2)%list))
   else (inr 0, w)).
Proof.
  intros Hq Hl Hno. destruct (finalize_entry_of id raw) eqn:He.
  - pose proof He as Hp. unfold finalize_entry_of in Hp. apply try_except_ok.
    rewrite bind_run, lift_run. destruct (finalize_from_json raw) as [e|p]; [done|].
    apply bool_decide_eq_true in Hp. rewrite decide_True by done.
    apply lrem1_quiet; [done|done|]. intros Hin. rewrite Forall_forall in Hno.
    specialize (Hno _ Hin). congruence.
  - unfold finalize_entry_of in He. unfold try_remove_finalize, try_except.
    rewrite bind_run, lift_run. destruct (finalize_from_json raw) as [e|p]; [done|].
    apply bool_decide_eq_false in He. by rewrite decide_False.
Qed.

Lemma remove_finalize_quiet id l2 w l1 :
  quiet w -> finalize_queue_of (w_now w) (w_redis w) = inr (l1 ++ l2)%list ->
  Forall (fun p => finalize_entry_of id p = false) l1 ->
  exists ks', remove_finalize_entries id l2 w =
      (inr (Z.of_nat (length (List.filter (finalize_entry_of id) l2))), with_redis w ks')
    /\ finalize_queue_of (w_now w) ks' =
       inr (l1 ++ List.filter (fun p => negb (finalize_entry_of id p)) l2)%list
    /\ (forall k, k <> FINALIZE_QUEUE_KEY -> ks' !! k = w_redis w !! k).
Proof.
  revert w l1. induction l2 as [|raw l2 IH]; intros w l1 Hq Hl Hno; cbn [remove_finalize_entries].
  { exists (w_redis w). by rewrite with_redis_same. }
  rewrite bind_run, (try_remove_finalize_quiet w id raw l1 l2) by done. cbn [List.filter].
  destruct (finalize_entry_of id raw) eqn:He; cbn [negb].
  - set (ks1 := put_list _ _ _ _).
    destruct (IH (with_redis w ks1) l1) as (ks' & Hr & Hq' & Hf); [done|apply queue_put_list|done|].
    exists ks'. rewrite bind_run, Hr. split; [|split; [done|]].
    + rewrite ret_run. do 2 f_equal. cbn [length]. lia.
    + intros k Hk. rewrite Hf by done. by apply put_list_frame.
  - destruct (IH w (l1 ++ [raw])%list) as (ks' & Hr & Hq' & Hf); [done| | |].
    + by rewrite <-app_assoc.
    + apply Forall_app. split; [done|]. by constructor.
    + exists ks'. rewrite bind_run, Hr. split; [done|]. split; [|done].
      rewrite Hq', <-app_assoc. done.
Qed.

Lemma remove_finalize_run w id l :
  quiet w -> finalize_queue_of (w_now w) (w_redis w) = inr l ->
  exists ks', remove_finalize_from_queue cfg id w =
      (inr (Z.of_nat (length (List.filter (finalize_entry_of id) l))), with_redis w ks')
    /\ finalize_queue_of (w_now w) ks' = inr (List.filter (fun p => negb (finalize_entry_of id p)) l)
    /\ (forall k, k <> FINALIZE_QUEUE_KEY -> ks' !! k = w_redis w !! k).
Proof.
  intros Hq Hl. unfold remove_finalize_from_queue. rewrite Hredis. cbn [negb].
  rewrite bind_run, (lrange_all_quiet _ _ l) by done. by apply (remove_finalize_quiet id l w []).
Qed.
End finalize_lemmas.

(** ** Properties *)

(** Promotion requests are idempotent: in a quiet world, however many
    requests for one job arrive while none is pending at first, all answer
    [True] and exactly the first is on the queue. *)
Theorem finalize_enqueued_once `{RedisLaws} `{Entropy} (cfg : Settings) (w : world)
    (p : BulkFinalizePayload) (ps : list BulkFinalizePayload) (h : gmap string string)
    (l : list string) :
  is_redis cfg = true -> quiet w -> finalize_pending (w_now w) (w_redis w) (fp_job_id p) = false ->
  as_hash (w_now w) (w_redis w) (state_key (fp_job_id p)) = inr h ->
  finalize_queue_of (w_now w) (w_redis w) = inr l ->
  Forall (fun q => fp_job_id q = fp_job_id p) ps ->
  exists w', map_m (fun q => enqueue_finalize cfg q false) (p :: ps) w =
      (inr (map (fun _ => true) (p :: ps)), w')
    /\ finalize_queue_of (w_now w') (w_redis w') = inr (finalize_to_json p :: l).
Proof.
  intros Hr Hq Hp Hh Hl Hps.
  destruct (enqueue_finalize_fresh cfg Hr w p h l Hq Hp Hh Hl) as (ks' & He & Hp' & Hl' & _).
  exists (with_redis w ks'). split; [|done]. cbn [map_m]. rewrite bind_run, He, bind_run.
  by rewrite (enqueue_finalize_repeat cfg Hr (with_redis w ks') (fp_job_id p) ps).
Qed.

(** Removing a job from the finalize queue removes all its entries and no
    other, keeps the order of the rest, and returns how many were removed. *)
Theorem remove_finalize_all `{RedisLaws} `{Entropy} (cfg : Settings) (w : world) (id : string)
    (l : list string) :
  is_redis cfg = true -> quiet w -> finalize_queue_of (w_now w) (w_redis w) = inr l ->
  exists w', remove_finalize_from_queue cfg id w =
      (inr (Z.of_nat (length (List.filter (finalize_entry_of id) l))), w')
    /\ finalize_queue_of (w_now w') (w_redis w') =
       inr (List.filter (fun p => negb (finalize_entry_of id p)) l)
    /\ (forall k, k <> FINALIZE_QUEUE_KEY -> w_redis w' !! k = w_redis w !! k).
Proof.
  intros Hr Hq Hl. destruct (remove_finalize_run cfg Hr w id l Hq Hl) as (ks' & Hrun & Hl' & Hf).
  by exists (with_redis w ks').
Qed.

Definition demo_finalize : BulkFinalizePayload :=
  FinalizePayload "j1" "roads" "replace" 10 0 None false 0.

(** A promotion can be lost: when the [LPUSH] of [enqueue_finalize] is lost
    after the job was marked as pending, the retry finds the mark and answers
    [True] although nothing is on the queue. *)
Theorem finalize_lost_on_retry :
  exists (w w' : world),
    finalize_pending (w_now w) (w_redis w) "j1" = false
    /\ @enqueue_finalize reference_server reference_entropy default_settings demo_finalize false w
       = (inr true, w')
    /\ finalize_pending (w_now w') (w_redis w') "j1" = true
    /\ finalize_queue_of (w_now w') (w_redis w') = inr [].
Proof.
  set (lost := Tick 0 (fun _ ks => ks) RequestLost).
  exists (World ∅ 0 [quiet_tick; quiet_tick; quiet_tick; quiet_tick; lost] [] ∅ [] 0 0 [] no_services).
  eexists. split; [reflexivity|]. split; [apply run_fst; vm_compute; reflexivity|].
  split; vm_compute; reflexivity.
Qed.

(** ** Witnesses *)

Lemma finalize_enqueued_once_witness :
  exists w', map_m (fun q => @enqueue_finalize reference_server reference_entropy default_settings q false)
      [demo_finalize; demo_finalize] empty_world = (inr [true; true], w')
    /\ finalize_queue_of (w_now w') (w_redis w') = inr [finalize_to_json demo_finalize].
Proof.
  apply (@finalize_enqueued_once reference_server reference_laws reference_entropy default_settings
    empty_world demo_finalize [demo_finalize] ∅ []); [reflexivity..|].
  by repeat constructor.
Defined.

Lemma remove_finalize_all_witness :
  exists w', @remove_finalize_from_queue reference_server default_settings "j1"
      (with_redis empty_world (put ∅ FINALIZE_QUEUE_KEY
         (VList [finalize_to_json demo_finalize; "x"; finalize_to_json demo_finalize]) None)) =
      (inr 2, w')
    /\ finalize_queue_of (w_now w') (w_redis w') = inr ["x"]
    /\ (forall k, k <> FINALIZE_QUEUE_KEY -> w_redis w' !! k = put ∅ FINALIZE_QUEUE_KEY
         (VList [finalize_to_json demo_finalize; "x"; finalize_to_json demo_finalize]) None !! k).
Proof.
  apply (@remove_finalize_all reference_server reference_laws reference_entropy default_settings
    (with_redis empty_world (put ∅ FINALIZE_QUEUE_KEY
       (VList [finalize_to_json demo_finalize; "x"; finalize_to_json demo_finalize]) None)) "j1"
    [finalize_to_json demo_finalize; "x"; finalize_to_json demo_finalize]); reflexivity.
Defined.
