(* ===== verification/TileQueue.v ===== *)
(** * Tile build queue (app/services/tile_build_queue.py)

    A static tile build is queued at most once per collection: the string
    [geofastmap:tile_build_pending:<collection>] holds the job that is queued or
    building.  Its commands are not retried: a lost command raises. *)

From S2P Require Import Prelude PyTime Redis World Json Mutex JobStore Queue.

Definition TILE_BUILD_QUEUE_KEY := "geofastmap:tile_build_queue".
Definition TILE_BUILD_LATEST_PREFIX := "geofastmap:tile_build_latest:".
Definition TILE_BUILD_PENDING_PREFIX := "geofastmap:tile_build_pending:".
Definition TILE_BUILD_JOB_TTL : Z := 86400 * 7.
Definition TILE_BUILD_PENDING_TTL : Z := 12 * 3600.

Record TileBuildOptions := TileOptions {
  to_min_zoom : option Z;
  to_max_zoom : option Z;
  to_include_attributes : option (list string);
  to_exclude_attributes : option (list string);
  to_densest : option string;
  to_smallest : option string;
  to_no_line_simplification : option bool;
  to_simplify_only_low_zooms : option bool;
  to_no_shared_node_simplification : option bool;
  to_no_tiny_polygon_reduction : option bool;
  to_no_point_dropping : option bool
}.

Definition default_options : TileBuildOptions :=
  TileOptions None None None None None None None None None None None.

(** A key written when its value is not [None]. *)
Definition field_opt {A} (f : string) (g : A -> json) (x : option A) : list (string * json) :=
  field_if (bool_decide (is_Some x)) f (opt_json g x).

(** [TileBuildOptions.to_dict] *)
Definition options_to_dict (o : TileBuildOptions) : list (string * json) :=
  (field_opt "min_zoom" JInt (to_min_zoom o) ++ field_opt "max_zoom" JInt (to_max_zoom o)
   ++ field_opt "include_attributes" JStrs (to_include_attributes o)
   ++ field_opt "exclude_attributes" JStrs (to_exclude_attributes o)
   ++ field_opt "densest" JStr (to_densest o) ++ field_opt "smallest" JStr (to_smallest o)
   ++ field_opt "no_line_simplification" JBool (to_no_line_simplification o)
   ++ field_opt "simplify_only_low_zooms" JBool (to_simplify_only_low_zooms o)
   ++ field_opt "no_shared_node_simplification" JBool (to_no_shared_node_simplification o)
   ++ field_opt "no_tiny_polygon_reduction" JBool (to_no_tiny_polygon_reduction o)
   ++ field_opt "no_point_dropping" JBool (to_no_point_dropping o))%list.

(** [TileBuildOptions.from_dict] of a dict that is not empty. *)
Definition options_of_dict (d : list (string * json)) : res TileBuildOptions :=
  let! mn := expect_opt expect_int (dict_get "min_zoom" d) in
  let! mx := expect_opt expect_int (dict_get "max_zoom" d) in
  let! inc := expect_opt expect_strs (dict_get "include_attributes" d) in
  let! exc := expect_opt expect_strs (dict_get "exclude_attributes" d) in
  let! den := expect_opt expect_str (dict_get "densest" d) in
  let! sma := expect_opt expect_str (dict_get "smallest" d) in
  let! nls := expect_opt expect_bool (dict_get "no_line_simplification" d) in
  let! slz := expect_opt expect_bool (dict_get "simplify_only_low_zooms" d) in
  let! nsn := expect_opt expect_bool (dict_get "no_shared_node_simplification" d) in
  let! ntp := expect_opt expect_bool (dict_get "no_tiny_polygon_reduction" d) in
  let! npd := expect_opt expect_bool (dict_get "no_point_dropping" d) in
  inr (TileOptions mn mx inc exc den sma nls slz nsn ntp npd).

(** [TileBuildOptions.from_dict] *)
Definition options_from_dict (d : option json) : res TileBuildOptions :=
  match d with
  | None => inr default_options
  | Some j =>
      if negb (json_truthy j) then inr default_options
      else let! m := as_dict j in options_of_dict m
  end.

Record TileBuildPayload := TilePayload {
  tp_collection_id : string;
  tp_job_id : string;
  tp_options : TileBuildOptions;
  tp_is_composite : bool
}.

Definition tile_json (p : TileBuildPayload) : json :=
  let opts := options_to_dict (tp_options p) in
  JObj ([("collection_id", JStr (tp_collection_id p)); ("job_id", JStr (tp_job_id p));
         ("is_composite", JBool (tp_is_composite p))]
    ++ field_if (match opts with [] => false | _ => true end) "options" (JObj opts))%list.

(** [TileBuildPayload.to_json] *)
Definition tile_to_json (p : TileBuildPayload) : string := dumps (tile_json p).

(** [TileBuildPayload.from_json] *)
Definition tile_from_json (s : string) : res TileBuildPayload :=
  let! j := json_loads s in
  let! d := as_dict j in
  let! opts := options_from_dict (dict_get "options" d) in
  let! coll := dict_item "collection_id" d in let! coll := expect_str coll in
  let! id := dict_item "job_id" d in let! id := expect_str id in
  inr (TilePayload coll id opts (json_truthy (default JNull (dict_get "is_composite" d)))).

Definition latest_key (c : string) : string := TILE_BUILD_LATEST_PREFIX +:+ c.
Definition pending_key (c : string) : string := TILE_BUILD_PENDING_PREFIX +:+ c.

Section tile_queue.
Context `{RedisServer} `{Entropy} (cfg : Settings).

Definition create_tile_build_job (c : string) (owner : option Z) : M JobInfo :=
  job ← create_job cfg c owner None;
  redis (SetEx (latest_key c) (job_id job) (Some TILE_BUILD_JOB_TTL) false);;
  mret job.

Definition get_tile_build_job (id : string) : M (option JobInfo) := get_job cfg id.

Definition get_latest_tile_build_job (c : string) : M (option JobInfo) :=
  v ← redis (Get (latest_key c));
  if truthy v then get_tile_build_job (opt_str v) else mret None.

(** The status names of the tile worker in the job store's terms. *)
Definition tile_status (s : option string) : option string :=
  match s with
  | Some s =>
      Some (if decide (s = "building") then "running"
            else if decide (s = "queued") then "pending" else s)
  | None => None
  end.

Definition update_tile_build_job (id : string) (status msg : option string) : M (option JobInfo) :=
  update_job cfg id (Update (tile_status status) msg None None None None).

Definition get_pending_job_id (c : string) : M (option string) := redis (Get (pending_key c)).

Definition set_pending (c id : string) (ttl : option Z) : M unit :=
  redis (SetEx (pending_key c) id (Some (Z.max 60 (default TILE_BUILD_PENDING_TTL ttl))) false);;
  mret tt.

Definition refresh_pending (c id : string) (ttl : option Z) : M bool :=
  current ← redis (Get (pending_key c));
  if decide (current = Some id) then
    redis (SetEx (pending_key c) id (Some (Z.max 60 (default TILE_BUILD_PENDING_TTL ttl))) false);;
    mret true
  else mret false.

Definition clear_pending (c : string) : M unit := redis (Del [pending_key c]).

Definition enqueue_tile_build (c id : string) (options : option TileBuildOptions)
    (is_composite : bool) : M bool :=
  if negb (is_redis cfg) then mret false
  else
    v ← redis (Get (pending_key c));
    if truthy v then mret false
    else
      redis (SetEx (pending_key c) id (Some TILE_BUILD_PENDING_TTL) false);;
      redis (Lpush TILE_BUILD_QUEUE_KEY
        (tile_to_json (TilePayload c id (default default_options options) is_composite)));;
      mret true.
End tile_queue.

(** ** Payload round trip *)

Definition ascii_strs (l : option (list string)) : bool := forallb ascii_str (default [] l).

Definition ascii_tile (p : TileBuildPayload) : bool :=
  let o := tp_options p in
  ascii_str (tp_collection_id p) && ascii_str (tp_job_id p)
  && ascii_strs (to_include_attributes o) && ascii_strs (to_exclude_attributes o)
  && ascii_str (opt_str (to_densest o)) && ascii_str (opt_str (to_smallest o)).

Lemma dict_get_field_opt_eq {A} f (g : A -> json) x : dict_get f (field_opt f g x) = g <$> x.
Proof. unfold field_opt. rewrite dict_get_field_eq. by destruct x. Qed.

Lemma dict_get_field_opt_ne {A} f f' (g : A -> json) x :
  f <> f' -> dict_get f (field_opt f' g x) = None.
Proof. apply dict_get_field_ne. Qed.

Ltac opt_fields :=
  repeat first
    [ rewrite dict_get_app | rewrite dict_get_field_opt_eq
    | rewrite dict_get_field_opt_ne by discriminate
    | rewrite first_some_None | progress cbn [first_some] ].

Lemma expect_fmap {A} (g : A -> json) (f : json -> res A) (x : option A) :
  (forall a, f (g a) = inr a) -> (forall a, g a <> JNull) ->
  expect_opt f (g <$> x) = inr x.
Proof.
  intros Hf Hg. destruct x as [a|]; [|done]. simpl. specialize (Hg a). specialize (Hf a).
  destruct (g a); [done|..]; by rewrite Hf.
Qed.

(** Reads the next option of the goal back. *)
Ltac read_option :=
  match goal with
  | |- context [dict_get ?f (options_to_dict ?o)] =>
      let H := fresh in
      eassert (dict_get f (options_to_dict o) = _) as H
        by (unfold options_to_dict; opt_fields; reflexivity);
      rewrite H, expect_fmap by (done || apply expect_strs_JStrs); clear H
  end.

Lemma options_round_trip o : options_of_dict (options_to_dict o) = inr o.
Proof. unfold options_of_dict. do 11 (read_option; cbn [res_bind]). by destruct o. Qed.

Lemma jwf_field_opt {A} f (g : A -> json) x m :
  ascii_str f = true -> (forall a, x = Some a -> jwf (g a) = true) -> dict_get f m = None ->
  jwf (JObj m) = true -> jwf (JObj (field_opt f g x ++ m)) = true.
Proof. intros Hf Hg. apply jwf_field; [done|]. destruct x as [a|]; [|done]. intros _. by apply Hg. Qed.

Lemma options_wf p :
  ascii_tile p = true -> jwf (JObj (options_to_dict (tp_options p))) = true.
Proof.
  intros Ha. unfold ascii_tile in Ha. repeat (apply andb_true_iff in Ha as [Ha ?]).
  unfold options_to_dict. rewrite <-(app_nil_r (field_opt "no_point_dropping" _ _)).
  repeat first [done | apply jwf_field_opt; [reflexivity| |by opt_fields|]];
    intros a Hx; rewrite Hx in *; try done; by apply jwf_strs.
Qed.

Lemma tile_round_trip_aux p : ascii_tile p = true -> tile_from_json (tile_to_json p) = inr p.
Proof.
  intros Ha. pose proof (options_wf p Ha) as Hwf. pose proof (options_round_trip (tp_options p)) as Ho.
  unfold ascii_tile in Ha. repeat (apply andb_true_iff in Ha as [Ha ?]).
  unfold tile_from_json, json_loads, tile_to_json. rewrite loads_dumps.
  - unfold tile_json. cbv zeta.
    destruct (options_to_dict (tp_options p)) as [|fx m] eqn:Hd; simpl.
    + destruct p as [c i o b]. simpl in *. by injection Ho as <-.
    + rewrite Ho. simpl. by destruct p.
  - unfold tile_json. cbv zeta. jwf_dict; try done.
Qed.

#[export] Instance tile_codec : Codec TileBuildPayload :=
  {| encode := tile_to_json; decode := tile_from_json; valid := ascii_tile; normal := fun p => p |}.

#[export] Instance tile_codec_law : CodecLaw TileBuildPayload.
Proof. exact tile_round_trip_aux. Qed.

(** ** Operations in a quiet world *)

Abbreviation tile_queue_of := (queue_at TILE_BUILD_QUEUE_KEY).

(** The job that is queued or building for a collection. *)
Definition pending_job (now : Z) (ks : keyspace) (c : string) : reply (option string) :=
  as_str now ks (pending_key c).

Lemma pending_queue_ne c : pending_key c <> TILE_BUILD_QUEUE_KEY.
Proof. by key_neq. Qed.
#[export] Hint Resolve pending_queue_ne : geofast.

Section tile_lemmas.
Context `{RedisLaws} `{Entropy} (cfg : Settings).
Context (Hredis : is_redis cfg = true).

Lemma enqueue_tile_busy w c id o b v :
  quiet w -> pending_job (w_now w) (w_redis w) c = inr v -> truthy v = true ->
  enqueue_tile_build cfg c id o b w = (inr false, w).
Proof.
  intros Hq Hp Hv. unfold enqueue_tile_build. rewrite Hredis. cbn [negb].
  erewrite bind_redis; [|done|].
  2: { autorewrite with redis_exec. unfold pending_job in Hp. rewrite Hp. reflexivity. }
  by rewrite with_redis_same, Hv.
Qed.

Lemma enqueue_tile_free w c id o b v l :
  quiet w -> pending_job (w_now w) (w_redis w) c = inr v -> truthy v = false ->
  tile_queue_of (w_now w) (w_redis w) = inr l ->
  exists ks', enqueue_tile_build cfg c id o b w = (inr true, with_redis w ks')
    /\ pending_job (w_now w) ks' c = inr (Some id)
    /\ tile_queue_of (w_now w) ks' =
       inr (tile_to_json (TilePayload c id (default default_options o) b) :: l).
Proof.
  intros Hq Hp Hv Hl. unfold enqueue_tile_build. rewrite Hredis. cbn [negb].
  set (ks1 := put (w_redis w) (pending_key c) (VStr id)
    (Some (w_now w + us TILE_BUILD_PENDING_TTL))).
  eexists. split; [|split; [|apply queue_put_keep]].
  - erewrite bind_redis; [|done|].
    2: { autorewrite with redis_exec. unfold pending_job in Hp. rewrite Hp. reflexivity. }
    rewrite with_redis_same, Hv. erewrite bind_redis; [|done|].
    2: { autorewrite with redis_exec. reflexivity. }
    change (put _ _ _ _) with ks1. rewrite bind_run.
    erewrite (lpush_quiet TILE_BUILD_QUEUE_KEY (with_redis w ks1)); [reflexivity|done|].
    rewrite <-Hl. apply queue_frame. unfold ks1, put. cbn [w_redis with_redis].
    rewrite lookup_insert_ne; auto with geofast.
  - unfold pending_job, as_str. rewrite peek_val_put_keep_ne by (apply not_eq_sym; auto with geofast).
    unfold ks1. cbn [w_redis w_now with_redis]. rewrite peek_val_put_eq. unfold live, us. cbn [e_exp].
    rewrite (proj2 (Z.ltb_lt _ _)) by (unfold TILE_BUILD_PENDING_TTL; lia). done.
Qed.

Lemma enqueue_tile_repeat w c id0 ids o b :
  quiet w -> pending_job (w_now w) (w_redis w) c = inr (Some id0) -> id0 <> "" ->
  map_m (fun id => enqueue_tile_build cfg c id o b) ids w = (inr (map (fun _ => false) ids), w).
Proof.
  intros Hq Hp Hne. induction ids as [|id ids IH]; [done|]. cbn [map_m map].
  rewrite bind_run. erewrite enqueue_tile_busy; [|done|done|].
  2: { simpl. by rewrite bool_decide_eq_false_2. }
  by rewrite bind_run, IH.
Qed.
End tile_lemmas.

(** ** Properties *)

(** Round trip of tile build payloads: every option that is set, empty
    attribute lists included, survives the queue unchanged. *)
Theorem tile_payload_round_trip (p : TileBuildPayload) :
  ascii_tile p = true -> tile_from_json (tile_to_json p) = inr p.
Proof. apply tile_round_trip_aux. Qed.

(** At most one queued build per collection: in a quiet world, of any
    number of requests for a free collection the first is queued and answers
    [True]; the others answer [False], queue nothing, and leave the first as
    the pending job. *)
Theorem tile_build_deduplicated `{RedisLaws} `{Entropy} (cfg : Settings) (w : world) (c id : string)
    (ids : list string) (o : option TileBuildOptions) (b : bool) (v : option string)
    (l : list string) :
  is_redis cfg = true -> quiet w -> pending_job (w_now w) (w_redis w) c = inr v ->
  truthy v = false -> tile_queue_of (w_now w) (w_redis w) = inr l -> id <> "" ->
  exists w', map_m (fun id => enqueue_tile_build cfg c id o b) (id :: ids) w =
      (inr (true :: map (fun _ => false) ids), w')
    /\ pending_job (w_now w') (w_redis w') c = inr (Some id)
    /\ tile_queue_of (w_now w') (w_redis w') =
       inr (tile_to_json (TilePayload c id (default default_options o) b) :: l).
Proof.
  intros Hr Hq Hp Hv Hl Hne.
  destruct (enqueue_tile_free cfg Hr w c id o b v l Hq Hp Hv Hl) as (ks' & He & Hp' & Hl').
  exists (with_redis w ks'). split; [|done]. cbn [map_m]. rewrite bind_run, He, bind_run.
  by rewrite (enqueue_tile_repeat cfg Hr (with_redis w ks') c id ids).
Qed.

(** The check and the set of the pending key are two commands: when another
    process queues a build of the same collection between them, both requests
    answer [True] and the queue holds two builds of one collection. *)
Theorem tile_build_race :
  exists (w w' : world) (rival : world -> world),
    (forall v, (@enqueue_tile_build reference_server default_settings "roads" "B" None false v).2
               = rival v)
    /\ w_sched w = [quiet_tick; Tick 0 (fun now ks => w_redis (rival
         (World ks now [] [] ∅ [] 0 0 [] no_services))) Delivered]
    /\ @enqueue_tile_build reference_server default_settings "roads" "A" None false w
       = (inr true, w')
    /\ tile_queue_of (w_now w') (w_redis w') =
       inr (map (fun id => tile_to_json (TilePayload "roads" id default_options false)) ["A"; "B"]).
Proof.
  set (rival := fun v => (@enqueue_tile_build reference_server default_settings "roads" "B" None
    false v).2).
  exists (World ∅ 0 [quiet_tick; Tick 0 (fun now ks => w_redis (rival
    (World ks now [] [] ∅ [] 0 0 [] no_services))) Delivered] [] ∅ [] 0 0 [] no_services).
  eexists _, rival. split; [done|]. split; [done|].
  split; [apply run_fst; vm_compute; reflexivity|]. vm_compute. reflexivity.
Qed.

(** A lost push blocks the collection: when the [LPUSH] of
    [enqueue_tile_build] is lost, the call raises with the pending key already
    set, so nothing is queued and later requests answer [False] until the key
    expires after twelve hours. *)
Theorem tile_build_stuck :
  exists (w w' : world),
    w_redis w = ∅
    /\ @enqueue_tile_build reference_server default_settings "roads" "A" None false w =
       (inl ConnectionError, w')
    /\ tile_queue_of (w_now w') (w_redis w') = inr []
    /\ (@enqueue_tile_build reference_server default_settings "roads" "B" None false
          (slept w' (us (12 * 3600) - 1))).1 = inr false.
Proof.
  set (lost := Tick 0 (fun _ ks => ks) RequestLost).
  exists (World ∅ 0 [quiet_tick; quiet_tick; lost] [] ∅ [] 0 0 [] no_services). eexists. split; [done|].
  split; [apply run_fst; vm_compute; reflexivity|]. split; vm_compute; reflexivity.
Qed.

(** ** Witnesses *)

Definition demo_tile : TileBuildPayload :=
  TilePayload "roads" "t1"
    (TileOptions (Some 0) (Some 14) (Some []) None (Some "drop") None (Some true) None (Some false)
       None None) true.

Lemma tile_payload_round_trip_witness : tile_from_json (tile_to_json demo_tile) = inr demo_tile.
Proof. apply (tile_payload_round_trip demo_tile). reflexivity. Defined.

Lemma tile_build_deduplicated_witness :
  exists w', map_m (fun id => @enqueue_tile_build reference_server default_settings "roads" id None false)
      ["A"; "B"; "C"] empty_world = (inr [true; false; false], w')
    /\ pending_job (w_now w') (w_redis w') "roads" = inr (Some "A")
    /\ tile_queue_of (w_now w') (w_redis w') =
       inr [tile_to_json (TilePayload "roads" "A" default_options false)].
Proof.
  apply (@tile_build_deduplicated reference_server reference_laws reference_entropy default_settings
    empty_world "roads" "A" ["B"; "C"] None false None []); [reflexivity..|done].
Defined.
