(* ===== verification/SideQueues.v ===== *)
(** * Process, property-index and storage-delete queues
    (app/services/process_queue.py, property_index_queue.py, storage_delete_queue.py)

    Three more JSON queues.  Dict-valued payload fields ([feature_ref],
    [feature_geojson], [tile_build_options], composite members) are kept as JSON
    values, [JNull] standing for [None]. *)

From S2P Require Import Prelude PyTime Redis World Json Mutex JobStore Queue.

Module Process.

Definition PROCESS_QUEUE_KEY := "geofastmap:process_queue".
Definition PROCESS_JOB_IDS_KEY := "geofastmap:process_job_ids".
Definition PROCESS_JOB_META_PREFIX := "geofastmap:process_job_meta:".

Record ProcessJobPayload := Payload {
  pp_job_id : string;
  pp_process_id : string;
  pp_collection_id_a : string;
  pp_collection_id_b : string;
  pp_feature_ref : json;
  pp_feature_geojson : json;
  pp_collection_ids : list string;
  pp_feature_ids : list string;
  pp_buffer_distance_degrees : json;
  pp_group_by_property : option string;
  pp_measure_op : option string;
  pp_measure_unit : option string;
  pp_measure_field : option string;
  pp_queue_compute_tiles : bool;
  pp_tile_build_options : json;
  pp_result_collection_id : option string;
  pp_update_existing : bool
}.

Definition nonempty {A} (l : list A) : bool := match l with [] => false | _ => true end.

Definition is_null (j : json) : bool := match j with JNull => true | _ => false end.

Definition set_field (f : string) (x : option string) : list (string * json) :=
  field_if (bool_decide (is_Some x)) f (opt_json JStr x).

Definition to_dict (p : ProcessJobPayload) : list (string * json) :=
  ([("job_id", JStr (pp_job_id p)); ("process_id", JStr (pp_process_id p));
    ("collection_id_a", JStr (pp_collection_id_a p));
    ("collection_id_b", JStr (pp_collection_id_b p))]
   ++ field_if (nonempty (pp_collection_ids p)) "collection_ids" (JStrs (pp_collection_ids p))
   ++ field_if (nonempty (pp_collection_ids p) && json_truthy (pp_feature_ref p)) "feature_ref"
        (pp_feature_ref p)
   ++ field_if (nonempty (pp_collection_ids p) && json_truthy (pp_feature_geojson p))
        "feature_geojson" (pp_feature_geojson p)
   ++ field_if (nonempty (pp_feature_ids p)) "feature_ids" (JStrs (pp_feature_ids p))
   ++ field_if (negb (is_null (pp_buffer_distance_degrees p))) "buffer_distance_degrees"
        (pp_buffer_distance_degrees p)
   ++ set_field "group_by_property" (pp_group_by_property p)
   ++ set_field "measure_op" (pp_measure_op p)
   ++ set_field "measure_unit" (pp_measure_unit p)
   ++ set_field "measure_field" (pp_measure_field p)
   ++ field_if (negb (pp_queue_compute_tiles p)) "queue_compute_tiles" (JBool false)
   ++ field_if (json_truthy (pp_tile_build_options p)) "tile_build_options"
        (pp_tile_build_options p)
   ++ field_if (truthy (pp_result_collection_id p)) "result_collection_id"
        (JStr (opt_str (pp_result_collection_id p)))
   ++ field_if (pp_update_existing p) "update_existing" (JBool true))%list.

(** [ProcessJobPayload.to_json] *)
Definition to_json (p : ProcessJobPayload) : string := dumps (JObj (to_dict p)).

Definition get_or_null (f : string) (d : list (string * json)) : json :=
  default JNull (dict_get f d).

(** The construction of the payload in [from_json]. *)
Definition of_dict (d : list (string * json)) : res ProcessJobPayload :=
  let! id := dict_item "job_id" d in let! id := expect_str id in
  let! pid := dict_item "process_id" d in let! pid := expect_str pid in
  let! a := expect_str (default (JStr "") (dict_get "collection_id_a" d)) in
  let! b := expect_str (default (JStr "") (dict_get "collection_id_b" d)) in
  let! colls := expect_strs (json_or (get_or_null "collection_ids" d) (JList [])) in
  let! feats := expect_strs (json_or (get_or_null "feature_ids" d) (JList [])) in
  let! group := expect_opt expect_str (dict_get "group_by_property" d) in
  let! op := expect_opt expect_str (dict_get "measure_op" d) in
  let! un := expect_opt expect_str (dict_get "measure_unit" d) in
  let! fld := expect_opt expect_str (dict_get "measure_field" d) in
  let! tiles := expect_bool (default (JBool true) (dict_get "queue_compute_tiles" d)) in
  let! result := expect_opt expect_str (dict_get "result_collection_id" d) in
  let! upd := expect_bool (default (JBool false) (dict_get "update_existing" d)) in
  inr (Payload id pid a b (get_or_null "feature_ref" d) (get_or_null "feature_geojson" d) colls
         feats (get_or_null "buffer_distance_degrees" d) group op un fld tiles
         (get_or_null "tile_build_options" d) result upd).

(** [ProcessJobPayload.from_json] *)
Definition from_json (s : string) : res ProcessJobPayload :=
  let! j := json_loads s in let! d := as_dict j in of_dict d.

Definition is_feature_vs_layers (p : ProcessJobPayload) : bool :=
  nonempty (pp_collection_ids p)
  && (json_truthy (pp_feature_ref p) || json_truthy (pp_feature_geojson p)).

Definition meta_key (job_id : string) : string := PROCESS_JOB_META_PREFIX +:+ job_id.

(** The mapping of [store_process_job_meta]. *)
Definition meta_mapping (id pid a b : string) (colls : option (list string)) (source : string)
    (fid result : option string) (upd : bool) : list (string * string) :=
  ([("job_id", id); ("process_id", pid); ("collection_id_a", a); ("collection_id_b", b)]
   ++ match colls with Some l => [("collection_ids", dumps (JStrs l))] | None => [] end
   ++ (if decide (source = "") then [] else [("feature_source", str_take 500 source)])
   ++ (if truthy fid then [("feature_id", str_take 200 (opt_str fid))] else [])
   ++ (if truthy result then [("result_collection_id", str_take 200 (opt_str result))] else [])
   ++ (if upd then [("update_existing", "1")] else []))%list.

Section process.
Context `{RedisServer} `{Entropy} (cfg : Settings).

Definition process_redis : bool := bool_decide (process_queue_type cfg = "redis").

Definition store_process_job_meta (id pid a b : string) (colls : option (list string))
    (source : string) (fid result : option string) (upd : bool) : M unit :=
  if negb process_redis then mret tt
  else try_pass
    (redis (Hset (meta_key id) (meta_mapping id pid a b colls source fid result upd));;
     redis (Expire (meta_key id) (86400 * 7));;
     redis (Lpush PROCESS_JOB_IDS_KEY id);;
     redis (Ltrim PROCESS_JOB_IDS_KEY 0 99);;
     redis (Expire PROCESS_JOB_IDS_KEY (86400 * 7))).

(** Metadata as a dict: strings, except the parsed [collection_ids]. *)
Definition get_process_job_meta (id : string) : M (option (gmap string json)) :=
  if negb process_redis then mret None
  else try_except
    (raw ← redis (Hgetall (meta_key id));
     if decide (raw = ∅) then mret None
     else
       let out := JStr <$> raw in
       mret (Some (match raw !! "collection_ids" with
                   | Some s => <["collection_ids" := default (JList []) (loads s)]> out
                   | None => out
                   end)))
    (fun _ => mret None).

Definition set_process_job_result (id result : string) : M unit :=
  if negb process_redis then mret tt
  else try_pass (redis (Hset (meta_key id) [("result_collection_id", result)])).

Definition list_process_job_ids (limit : Z) : M (list string) :=
  if negb process_redis then mret []
  else try_except (redis (Lrange PROCESS_JOB_IDS_KEY 0 (limit - 1))) (fun _ => mret []).

(** The text and the id of the feature a job refers to. *)
Definition feature_source (ref : json) : res (string * option string) :=
  if json_truthy ref then
    let! d := as_dict ref in
    let! c := expect_str (default (JStr "") (dict_get "collection_id" d)) in
    let! f := expect_str (default (JStr "") (dict_get "feature_id" d)) in
    inr ("reference " +:+ c +:+ "/" +:+ f, match dict_get "feature_id" d with
                                          | Some _ => Some f | None => None end)
  else inr ("GeoJSON", None).

Definition enqueue_process_job (p : ProcessJobPayload) : M bool :=
  if negb process_redis then mret false
  else
    ok ← try_except
           (run_redis_retry cfg (redis (Lpush PROCESS_QUEUE_KEY (to_json p))) None;; mret true)
           (fun _ => mret false);
    if negb ok then mret false
    else
      (if is_feature_vs_layers p then
         '(src, fid) ← lift (feature_source (pp_feature_ref p));
         store_process_job_meta (pp_job_id p) (pp_process_id p) "" "" (Some (pp_collection_ids p))
           src fid (pp_result_collection_id p) (pp_update_existing p)
       else
         store_process_job_meta (pp_job_id p) (pp_process_id p) (pp_collection_id_a p)
           (pp_collection_id_b p) None "" None (pp_result_collection_id p) (pp_update_existing p));;
      mret true.
End process.

(** *** Round trip *)

Definition normal_process (p : ProcessJobPayload) : ProcessJobPayload :=
  let layers j := if nonempty (pp_collection_ids p) && json_truthy j then j else JNull in
  {| pp_job_id := pp_job_id p; pp_process_id := pp_process_id p;
     pp_collection_id_a := pp_collection_id_a p; pp_collection_id_b := pp_collection_id_b p;
     pp_feature_ref := layers (pp_feature_ref p);
     pp_feature_geojson := layers (pp_feature_geojson p);
     pp_collection_ids := pp_collection_ids p; pp_feature_ids := pp_feature_ids p;
     pp_buffer_distance_degrees := pp_buffer_distance_degrees p;
     pp_group_by_property := pp_group_by_property p; pp_measure_op := pp_measure_op p;
     pp_measure_unit := pp_measure_unit p; pp_measure_field := pp_measure_field p;
     pp_queue_compute_tiles := pp_queue_compute_tiles p;
     pp_tile_build_options :=
       if json_truthy (pp_tile_build_options p) then pp_tile_build_options p else JNull;
     pp_result_collection_id :=
       if truthy (pp_result_collection_id p) then pp_result_collection_id p else None;
     pp_update_existing := pp_update_existing p |}.

Definition wf_process (p : ProcessJobPayload) : bool :=
  ascii_str (pp_job_id p) && ascii_str (pp_process_id p) && ascii_str (pp_collection_id_a p)
  && ascii_str (pp_collection_id_b p) && jwf (pp_feature_ref p) && jwf (pp_feature_geojson p)
  && forallb ascii_str (pp_collection_ids p) && forallb ascii_str (pp_feature_ids p)
  && jwf (pp_buffer_distance_degrees p) && ascii_str (opt_str (pp_group_by_property p))
  && ascii_str (opt_str (pp_measure_op p)) && ascii_str (opt_str (pp_measure_unit p))
  && ascii_str (opt_str (pp_measure_field p)) && jwf (pp_tile_build_options p)
  && ascii_str (opt_str (pp_result_collection_id p)).

Lemma opt_json_wf (x : option string) : ascii_str (opt_str x) = true -> jwf (opt_json JStr x) = true.
Proof. by destruct x. Qed.

Lemma to_dict_wf p : wf_process p = true -> jwf (JObj (to_dict p)) = true.
Proof.
  intros Ha. unfold wf_process in Ha. repeat (apply andb_true_iff in Ha as [Ha ?]).
  unfold to_dict, set_field. cbn [app].
  jwf_dict; try done; try (intros _; by apply jwf_strs); try (intros _; by apply opt_json_wf).
Qed.

Ltac process_field :=
  unfold to_dict, set_field; dict_fields; reflexivity.

Lemma expect_opt_set (x : option string) :
  expect_opt expect_str (if bool_decide (is_Some x) then Some (opt_json JStr x) else None) = inr x.
Proof. by destruct x. Qed.

Lemma expect_strs_or (l : list string) :
  expect_strs (json_or (default JNull (if nonempty l then Some (JStrs l) else None)) (JList []))
  = inr l.
Proof. destruct l as [|x l]; [done|]. apply (expect_strs_JStrs (x :: l)). Qed.

Lemma of_dict_to_dict p : of_dict (to_dict p) = inr (normal_process p).
Proof.
  assert (dict_get "collection_ids" (to_dict p) = if nonempty (pp_collection_ids p)
    then Some (JStrs (pp_collection_ids p)) else None) as H1 by process_field.
  assert (dict_get "feature_ids" (to_dict p) = if nonempty (pp_feature_ids p)
    then Some (JStrs (pp_feature_ids p)) else None) as H2 by process_field.
  eassert (dict_get "group_by_property" (to_dict p) = _) as H3 by process_field.
  eassert (dict_get "measure_op" (to_dict p) = _) as H4 by process_field.
  eassert (dict_get "measure_unit" (to_dict p) = _) as H5 by process_field.
  eassert (dict_get "measure_field" (to_dict p) = _) as H6 by process_field.
  eassert (dict_get "queue_compute_tiles" (to_dict p) = _) as H7 by process_field.
  eassert (dict_get "result_collection_id" (to_dict p) = _) as H8 by process_field.
  eassert (dict_get "update_existing" (to_dict p) = _) as H9 by process_field.
  eassert (dict_get "feature_ref" (to_dict p) = _) as H10 by process_field.
  eassert (dict_get "feature_geojson" (to_dict p) = _) as H11 by process_field.
  eassert (dict_get "buffer_distance_degrees" (to_dict p) = _) as H12 by process_field.
  eassert (dict_get "tile_build_options" (to_dict p) = _) as H13 by process_field.
  assert (dict_get "collection_id_a" (to_dict p) = Some (JStr (pp_collection_id_a p))) as H14
    by reflexivity.
  assert (dict_get "collection_id_b" (to_dict p) = Some (JStr (pp_collection_id_b p))) as H15
    by reflexivity.
  unfold of_dict, dict_item, get_or_null.
  rewrite H1, H2, H3, H4, H5, H6, H7, H8, H9, H10, H11, H12, H13, H14, H15.
  assert (dict_get "job_id" (to_dict p) = Some (JStr (pp_job_id p))) as -> by reflexivity.
  assert (dict_get "process_id" (to_dict p) = Some (JStr (pp_process_id p))) as -> by reflexivity.
  cbn [res_bind expect_str default]. rewrite !expect_strs_or, !expect_opt_set.
  unfold normal_process.
  rewrite !default_if, expect_opt_truthy.
  assert (expect_bool (if negb (pp_queue_compute_tiles p) then JBool false else JBool true)
          = inr (pp_queue_compute_tiles p)) as -> by (by destruct (pp_queue_compute_tiles p)).
  assert (expect_bool (if pp_update_existing p then JBool true else JBool false)
          = inr (pp_update_existing p)) as -> by (by destruct (pp_update_existing p)).
  assert ((if negb (is_null (pp_buffer_distance_degrees p)) then pp_buffer_distance_degrees p
           else JNull) = pp_buffer_distance_degrees p) as ->
    by (by destruct (pp_buffer_distance_degrees p)).
  reflexivity.
Qed.

Lemma process_round_trip_aux p : wf_process p = true -> from_json (to_json p) = inr (normal_process p).
Proof.
  intros Hp. unfold from_json, json_loads, to_json. rewrite loads_dumps by (by apply to_dict_wf).
  apply of_dict_to_dict.
Qed.

#[export] Instance process_codec : Codec ProcessJobPayload :=
  {| encode := to_json; decode := from_json; valid := wf_process; normal := normal_process |}.

#[export] Instance process_codec_law : CodecLaw ProcessJobPayload.
Proof. exact process_round_trip_aux. Qed.

End Process.

Module PropertyIndex.

Definition PROPERTY_INDEX_QUEUE_KEY := "geofastmap:property_index_queue".
Definition PROPERTY_INDEX_JOB_LABEL := "property_index".

Record PropertyIndexPayload := Payload {
  xp_job_id : string;
  xp_collection_id : string;
  xp_old_fields : list string;
  xp_new_fields : list string;
  xp_is_composite : bool;
  xp_composite_members : option (list json)
}.

Definition to_dict (p : PropertyIndexPayload) : list (string * json) :=
  [("job_id", JStr (xp_job_id p)); ("collection_id", JStr (xp_collection_id p));
   ("old_fields", JStrs (xp_old_fields p)); ("new_fields", JStrs (xp_new_fields p));
   ("is_composite", JBool (xp_is_composite p));
   ("composite_members", JList (default [] (xp_composite_members p)))].

(** [PropertyIndexPayload.to_json] *)
Definition to_json (p : PropertyIndexPayload) : string := dumps (JObj (to_dict p)).

Fixpoint chars (s : string) : list json :=
  match s with EmptyString => [] | String c s' => JStr (String c "") :: chars s' end.

(** The values a [for] over a JSON value visits (the characters of an ASCII string). *)
Definition iter (j : json) : res (list json) :=
  match j with
  | JList l => inr l
  | JObj m => inr (map (fun fx => JStr fx.1) m)
  | JStr s => inr (chars s)
  | _ => inl (TypeError "object is not iterable")
  end.

(** [PropertyIndexPayload.from_json] *)
Definition from_json (s : string) : res PropertyIndexPayload :=
  let! j := json_loads s in
  let! d := as_dict j in
  let field f := json_or (default JNull (dict_get f d)) (JList []) in
  let members := match field "composite_members" with JList l => l | _ => [] end in
  let! id := dict_item "job_id" d in
  let! coll := dict_item "collection_id" d in
  let! old := iter (field "old_fields") in
  let! new := iter (field "new_fields") in
  let composite := json_truthy (default JNull (dict_get "is_composite" d)) in
  inr (Payload (json_str id) (json_str coll) (map json_str old) (map json_str new) composite
         (if composite then Some members else None)).

(** [parse_composite_members] and [member_collection_ids] of
    app/services/composite_collections.py. *)
Definition parse_composite_members (raw : json) : list string :=
  match raw with
  | JList l =>
      omap (fun item =>
        match item with
        | JObj m =>
            let v := default JNull (dict_get "collection_id" m) in
            if json_truthy v then Some (strip (json_str v)) else None
        | JStr s => if decide (strip s = "") then None else Some (strip s)
        | _ => None
        end) l
  | _ => []
  end.
Definition member_collection_ids (members : list string) : list string :=
  List.filter (fun m => negb (bool_decide (m = ""))) members.

Section property_index.
Context `{RedisServer} `{Entropy} (cfg : Settings).

Definition property_index_queue_enabled : bool :=
  bool_decide (lower (strip (process_queue_type cfg)) = "redis").

Definition property_index_queue_depth : M (option Z) :=
  if negb property_index_queue_enabled then mret None
  else try_except (Some <$> redis (Llen PROPERTY_INDEX_QUEUE_KEY)) (fun _ => mret None).

Definition enqueue_property_index_job (p : PropertyIndexPayload) : M bool :=
  if negb property_index_queue_enabled then mret false
  else redis (Lpush PROPERTY_INDEX_QUEUE_KEY (to_json p));; mret true.

(** [schedule_property_index_job]; the index worker it runs inline when the
    queue is off is the argument [run_inline]. *)
Definition schedule_property_index_job (run_inline : PropertyIndexPayload -> M unit)
    (c : string) (old new : list string) (is_composite : bool) (members : json)
    (owner : option Z) : M JobInfo :=
  let members_list :=
    if is_composite
    then Some (map (fun m => JObj [("collection_id", JStr m)])
                 (member_collection_ids (parse_composite_members members)))
    else None in
  job ← create_job cfg c owner (Some PROPERTY_INDEX_JOB_LABEL);
  update_job cfg (job_id job)
    (Update None (Some "Queued property index sync")
       (Some (Z.max (Z.of_nat (length new)) (Z.of_nat (length old)))) None None None);;
  let p := Payload (job_id job) c old new is_composite members_list in
  queued ← enqueue_property_index_job p;
  (if (queued : bool) then property_index_queue_depth ;; mret tt else run_inline p);;
  mret job.
End property_index.

(** *** Round trip *)

Definition wf_index (p : PropertyIndexPayload) : bool :=
  ascii_str (xp_job_id p) && ascii_str (xp_collection_id p) && forallb ascii_str (xp_old_fields p)
  && forallb ascii_str (xp_new_fields p) && forallb jwf (default [] (xp_composite_members p)).

Definition normal_index (p : PropertyIndexPayload) : PropertyIndexPayload :=
  {| xp_job_id := xp_job_id p; xp_collection_id := xp_collection_id p;
     xp_old_fields := xp_old_fields p; xp_new_fields := xp_new_fields p;
     xp_is_composite := xp_is_composite p;
     xp_composite_members :=
       if xp_is_composite p then Some (default [] (xp_composite_members p)) else None |}.

Lemma iter_or_strs (l : list string) :
  (let! x := iter (json_or (JStrs l) (JList [])) in inr (map json_str x) : res (list string)) = inr l.
Proof.
  destruct l as [|s l]; [done|]. simpl. f_equal. f_equal. induction l as [|t l IH]; [done|].
  simpl. by rewrite IH.
Qed.

Lemma iter_or_strs' (l : list string) :
  exists x, iter (json_or (JStrs l) (JList [])) = inr x /\ map json_str x = l.
Proof.
  pose proof (iter_or_strs l) as Hl. apply res_bind_inr in Hl as (x & Hx & Hm).
  exists x. by injection Hm.
Qed.

Lemma index_round_trip_aux p : wf_index p = true -> from_json (to_json p) = inr (normal_index p).
Proof.
  intros Ha. unfold wf_index in Ha. repeat (apply andb_true_iff in Ha as [Ha ?]).
  unfold from_json, json_loads, to_json. rewrite loads_dumps.
  - destruct (iter_or_strs' (xp_old_fields p)) as (xo & Ho & Hxo).
    destruct (iter_or_strs' (xp_new_fields p)) as (xn & Hn & Hxn).
    cbn [res_bind as_dict]. unfold dict_item, to_dict. dict_fields. cbn [res_bind default id].
    rewrite Ho, Hn. cbn [res_bind id json_str json_truthy]. rewrite Hxo, Hxn.
    unfold normal_index. do 2 f_equal. destruct (xp_is_composite p); [|done].
    by destruct (xp_composite_members p) as [[|m l]|].
  - unfold to_dict. jwf_dict; try done; by apply jwf_strs.
Qed.

#[export] Instance index_codec : Codec PropertyIndexPayload :=
  {| encode := to_json; decode := from_json; valid := wf_index; normal := normal_index |}.

#[export] Instance index_codec_law : CodecLaw PropertyIndexPayload.
Proof. exact index_round_trip_aux. Qed.

End PropertyIndex.

Module StorageDelete.

Definition STORAGE_DELETE_QUEUE_KEY := "geofastmap:storage_delete_queue".

Record StorageDeletePayload := Payload {
  sp_job_id : string;
  sp_action : string;
  sp_target_id : string;
  sp_owner_id : option Z;
  sp_orphan_kind : option string;
  sp_mosaic_json_path : option string
}.

Definition to_dict (p : StorageDeletePayload) : list (string * json) :=
  ([("job_id", JStr (sp_job_id p)); ("action", JStr (sp_action p));
    ("target_id", JStr (sp_target_id p))]
   ++ field_if (bool_decide (is_Some (sp_owner_id p))) "owner_id" (opt_json JInt (sp_owner_id p))
   ++ field_if (truthy (sp_orphan_kind p)) "orphan_kind" (JStr (opt_str (sp_orphan_kind p)))
   ++ field_if (truthy (sp_mosaic_json_path p)) "mosaic_json_path"
        (JStr (opt_str (sp_mosaic_json_path p))))%list.

(** [StorageDeletePayload.to_json] *)
Definition to_json (p : StorageDeletePayload) : string := dumps (JObj (to_dict p)).

(** [StorageDeletePayload.from_json] *)
Definition from_json (s : string) : res StorageDeletePayload :=
  let! j := json_loads s in
  let! d := as_dict j in
  let! id := dict_item "job_id" d in
  let! act := dict_item "action" d in
  let! tgt := dict_item "target_id" d in
  let! owner := expect_opt expect_int (dict_get "owner_id" d) in
  let! kind := expect_opt expect_str (dict_get "orphan_kind" d) in
  let! path := expect_opt expect_str (dict_get "mosaic_json_path" d) in
  inr (Payload (json_str id) (json_str act) (json_str tgt) owner kind path).

Definition enqueue_storage_delete `{RedisServer} `{Entropy} (cfg : Settings)
    (p : StorageDeletePayload) : M unit :=
  if negb (is_redis cfg) then
    raise (RuntimeError "Storage delete queue requires BULK_QUEUE_TYPE=redis")
  else run_redis_retry cfg (redis (Lpush STORAGE_DELETE_QUEUE_KEY (to_json p))) None.

Definition wf_delete (p : StorageDeletePayload) : bool :=
  ascii_str (sp_job_id p) && ascii_str (sp_action p) && ascii_str (sp_target_id p)
  && ascii_str (opt_str (sp_orphan_kind p)) && ascii_str (opt_str (sp_mosaic_json_path p)).

Definition normal_delete (p : StorageDeletePayload) : StorageDeletePayload :=
  {| sp_job_id := sp_job_id p; sp_action := sp_action p; sp_target_id := sp_target_id p;
     sp_owner_id := sp_owner_id p;
     sp_orphan_kind := if truthy (sp_orphan_kind p) then sp_orphan_kind p else None;
     sp_mosaic_json_path :=
       if truthy (sp_mosaic_json_path p) then sp_mosaic_json_path p else None |}.

Lemma delete_round_trip_aux p : wf_delete p = true -> from_json (to_json p) = inr (normal_delete p).
Proof.
  intros Ha. unfold wf_delete in Ha. repeat (apply andb_true_iff in Ha as [Ha ?]).
  unfold from_json, json_loads, to_json. rewrite loads_dumps.
  - cbn [res_bind as_dict]. unfold dict_item, to_dict. dict_fields. cbn [res_bind].
    rewrite !expect_opt_truthy.
    assert (expect_opt expect_int (if bool_decide (is_Some (sp_owner_id p))
      then Some (opt_json JInt (sp_owner_id p)) else None) = inr (sp_owner_id p)) as ->
      by (by destruct (sp_owner_id p)).
    reflexivity.
  - unfold to_dict. cbn [app]. jwf_dict; try done. by destruct (sp_owner_id p).
Qed.

#[export] Instance delete_codec : Codec StorageDeletePayload :=
  {| encode := to_json; decode := from_json; valid := wf_delete; normal := normal_delete |}.

#[export] Instance delete_codec_law : CodecLaw StorageDeletePayload.
Proof. exact delete_round_trip_aux. Qed.

End StorageDelete.

(** ** Properties *)

(** Round trip of process payloads: what the worker parses is the payload
    that was queued, except that a feature reference or GeoJSON is kept only
    with the layers it is compared to, and empty options and result ids are
    dropped. *)
Theorem process_payload_round_trip (p : Process.ProcessJobPayload) :
  Process.wf_process p = true ->
  Process.from_json (Process.to_json p) = inr (Process.normal_process p).
Proof. apply Process.process_round_trip_aux. Qed.

(** Round trips of the property-index and storage-delete payloads: the
    parsed payload is the queued one, composite members being kept only for
    composite collections and empty optional texts dropped. *)
Theorem index_and_delete_round_trip (p : PropertyIndex.PropertyIndexPayload)
    (q : StorageDelete.StorageDeletePayload) :
  PropertyIndex.wf_index p = true -> StorageDelete.wf_delete q = true ->
  PropertyIndex.from_json (PropertyIndex.to_json p) = inr (PropertyIndex.normal_index p)
  /\ StorageDelete.from_json (StorageDelete.to_json q) = inr (StorageDelete.normal_delete q).
Proof.
  intros Hp Hq. split; [by apply PropertyIndex.index_round_trip_aux|].
  by apply StorageDelete.delete_round_trip_aux.
Qed.

(** ** Witnesses *)

Definition demo_process : Process.ProcessJobPayload :=
  Process.Payload "p1" "intersection" "" "" (JObj [("collection_id", JStr "roads"); ("feature_id", JStr "7")])
    JNull ["lakes"; "parks"] [] JNull None (Some "area") None (Some "area_m2") false JNull (Some "out") true.

Lemma process_payload_round_trip_witness :
  Process.from_json (Process.to_json demo_process) = inr demo_process.
Proof. apply (process_payload_round_trip demo_process). reflexivity. Defined.

Lemma index_and_delete_round_trip_witness :
  PropertyIndex.from_json (PropertyIndex.to_json (PropertyIndex.Payload "x1" "roads" ["a"] [] false None))
    = inr (PropertyIndex.Payload "x1" "roads" ["a"] [] false None)
  /\ StorageDelete.from_json (StorageDelete.to_json
       (StorageDelete.Payload "d1" "delete_tiles" "roads" (Some 7) None (Some "m.json")))
    = inr (StorageDelete.Payload "d1" "delete_tiles" "roads" (Some 7) None (Some "m.json")).
Proof.
  apply (index_and_delete_round_trip (PropertyIndex.Payload "x1" "roads" ["a"] [] false None)
    (StorageDelete.Payload "d1" "delete_tiles" "roads" (Some 7) None (Some "m.json"))); reflexivity.
Defined.
