(* ===== verification/BulkActivity.v ===== *)
(** * Stale mutexes, active jobs and waiting for a collection to be idle
    (app/services/bulk_collection_activity.py, the part above the job store)

    A mutex whose holder is missing, finished or has been pending for too long
    is reclaimed.  [wait_until_collection_bulk_idle] polls; the polls it may make
    are bounded by a fuel, and [None] says that it is still waiting. *)

From S2P Require Import Prelude PyTime Redis World Json Mutex JobStore.

Section activity.
Context `{RedisServer} `{Entropy} (cfg : Settings).

Definition pending_stale_seconds : Z :=
  Z.max (us 120) (int_or (bulk_job_pending_stale_seconds cfg) (us 600)).

(** [_job_age_seconds]: [updated_at] is always set. *)
Definition job_age (job : JobInfo) (now : Z) : Z :=
  Z.max 0 (now - dt_instant (default_utc (updated_at job))).

Definition pending_mutex_holder_is_stale (job : JobInfo) (now : Z) : bool :=
  bool_decide (lower (status job) = "pending") && (pending_stale_seconds <=? job_age job now).

Definition reclaim_stale_collection_bulk_mutex (c : string) : M (option string) :=
  holder ← get_collection_bulk_mutex_holder cfg c;
  if negb (truthy holder) then mret None
  else
    let h := opt_str holder in
    job ← get_job cfg h;
    let finished :=
      match job with
      | None => true
      | Some j => is_terminal_job_status (Some (status j)) || bool_decide (is_Some (finished_at j))
      end in
    if finished then release_collection_bulk_mutex cfg c h;; mret (Some h)
    else
      now ← get_now;
      match job with
      | Some j =>
          if pending_mutex_holder_is_stale j now
          then release_collection_bulk_mutex cfg c h;; mret (Some h)
          else mret None
      | None => mret None
      end.

(** The loop of [reclaim_all_stale_bulk_mutexes] over the keys found. *)
Fixpoint reclaim_keys (keys : list string) : M (list (string * string)) :=
  match keys with
  | [] => mret []
  | k :: rest =>
      let c := str_drop (String.length BULK_COLLECTION_MUTEX_PREFIX) k in
      if decide (c = "") then reclaim_keys rest
      else
        holder ← reclaim_stale_collection_bulk_mutex c;
        l ← reclaim_keys rest;
        mret (if truthy holder then (c, opt_str holder) :: l else l)
  end.

Definition reclaim_all_stale_bulk_mutexes : M (list (string * string)) :=
  if negb (is_redis cfg) then mret []
  else
    keys ← try_except (run_redis_retry cfg (redis (Scan (BULK_COLLECTION_MUTEX_PREFIX +:+ "*"))) None)
             (fun _ => mret []);
    reclaim_keys keys.

(** ** Active jobs *)

(** [s.split(sep)\[0\]] *)
Fixpoint before (sep s : string) : string :=
  if startswith sep s then ""
  else match s with EmptyString => "" | String c s' => String c (before sep s') end.

Fixpoint insert_str (x : string) (l : list string) : list string :=
  match l with
  | [] => [x]
  | y :: l' => if decide (x = y) then l
               else if String.leb x y then x :: l else y :: insert_str x l'
  end.

(** [sorted(set)] *)
Definition sorted_set (l : list string) : list string := foldr insert_str [] l.

Definition active_statuses : list string :=
  ["pending"; "running"; "replacing"; "finalizing"; "cancelling"].

Definition is_active (j : JobInfo) : bool :=
  bool_decide (lower (status j) ∈ active_statuses) && negb (bool_decide (job_id j = "")).

Definition get_active_bulk_job_ids (c : string) : M (list string) :=
  holder ← get_collection_bulk_mutex_holder cfg c;
  jobs ← list_jobs_for_collection cfg c 20 None;
  mret (sorted_set
    ((if truthy holder then [opt_str holder] else [])
     ++ map (fun j => before ":shard:" (job_id j)) (List.filter is_active jobs))%list).

(** ** Waiting *)

Definition wait_poll (poll_seconds : option Z) : Z :=
  Z.max 500000
    (default (int_or (tile_build_bulk_wait_poll_seconds cfg) (us 2)) poll_seconds).

(** The [while] loop; [last_msg] is [None] before the first message. *)
Fixpoint wait_loop (fuel : nat) (poll : Z) (stop_check : option (M bool))
    (on_waiting : option (M unit)) (last_msg : option Z) (c : string) : M (option bool) :=
  busy ← collection_has_bulk_activity cfg c;
  if negb busy then mret (Some true)
  else
    match fuel with
    | O => mret None
    | S fuel' =>
        stop ← match stop_check with Some f => f | None => mret false end;
        if (stop : bool) then mret (Some false)
        else
          now ← get_now;
          last_msg' ←
            match on_waiting with
            | Some f =>
                if (match last_msg with None => true | Some t => us 30 <=? now - t end)
                then f;; mret (Some now) else mret last_msg
            | None => mret last_msg
            end;
          sleep poll;;
          wait_loop fuel' poll stop_check on_waiting last_msg' c
    end.

Definition wait_until_collection_bulk_idle (fuel : nat) (c : string) (stop_check : option (M bool))
    (poll_seconds : option Z) (on_waiting : option (M unit)) : M (option bool) :=
  if negb (is_redis cfg) then mret (Some true)
  else wait_loop fuel (wait_poll poll_seconds) stop_check on_waiting None c.
End activity.

(** ** Specification *)

(** When the mutex of a collection may be taken from its holder. *)
Definition reclaimable (cfg : Settings) (now : Z) (job : option JobInfo) : bool :=
  match job with
  | None => true
  | Some j =>
      is_terminal_job_status (Some (status j)) || bool_decide (is_Some (finished_at j))
      || pending_mutex_holder_is_stale cfg j now
  end.

(** The stored job of the holder, if any. *)
Definition job_at (now : Z) (ks : keyspace) (id : string) (job : option JobInfo) : Prop :=
  match job with
  | Some j => job_stored now ks id j
  | None => peek now ks (redis_key id) = None
  end.

Section activity_lemmas.
Context `{RedisLaws} `{Entropy} (cfg : Settings).
Context (Hredis : is_redis cfg = true).

Lemma get_job_at w id job :
  quiet w -> job_at (w_now w) (w_redis w) id job -> get_job cfg id w = (inr job, w).
Proof. destruct job; simpl; [by apply get_job_quiet|by apply get_job_missing]. Qed.

Lemma release_held_quiet w c h x :
  quiet w -> lock_typed (w_now w) (w_redis w) c -> lock_of (w_now w) (w_redis w) c = Some (h, x) ->
  release_collection_bulk_mutex cfg c h w =
  (inr tt, with_redis w (delete (mutex_key c) (w_redis w))).
Proof. intros Hq Ht Hl. rewrite release_quiet, Hl by done. by rewrite decide_True. Qed.

Lemma reclaim_quiet w c h x job :
  quiet w -> lock_typed (w_now w) (w_redis w) c ->
  lock_of (w_now w) (w_redis w) c = Some (h, x) -> h <> "" ->
  job_at (w_now w) (w_redis w) h job ->
  reclaim_stale_collection_bulk_mutex cfg c w =
  (if reclaimable cfg (w_now w) job
   then (inr (Some h), with_redis w (delete (mutex_key c) (w_redis w)))
   else (inr None, w)).
Proof.
  intros Hq Ht Hl Hne Hj. unfold reclaim_stale_collection_bulk_mutex.
  rewrite bind_run, holder_quiet, Hl by done. cbn [fmap option_fmap option_map fst truthy].
  rewrite bool_decide_eq_false_2 by done. cbn [negb truthy]. rewrite bool_decide_eq_false_2 by done.
  cbn [negb opt_str default]. change (id h) with h.
  rewrite bind_run, (get_job_at _ _ job) by done. unfold reclaimable.
  destruct job as [j|].
  - destruct (is_terminal_job_status _ || _) eqn:Hfin; cbn [orb].
    + by rewrite bind_run, (release_held_quiet _ _ _ x).
    + rewrite bind_run, get_now_run. destruct (pending_mutex_holder_is_stale cfg j (w_now w)); [|done].
      by rewrite bind_run, (release_held_quiet _ _ _ x).
  - by rewrite bind_run, (release_held_quiet _ _ _ x).
Qed.

(** The counter as seen later: the same until it expires. *)
Lemma counter_later now d ks key :
  0 <= d -> counter_ok now ks key ->
  counter_ok (now + d) ks key
  /\ (0 < counter_of (now + d) ks key -> is_Some (peek (now + d) ks key)).
Proof.
  intros Hd Hc. unfold counter_ok, counter_of, as_str, peek_val, peek in *.
  destruct (ks !! key) as [[v x]|]; [|done]. cbn [mbind option_bind] in *.
  assert (live (now + d) (Entry v x) = true -> live now (Entry v x) = true) as Hl.
  { unfold live. cbn [e_exp]. destruct x as [x|]; [|done]. rewrite !Z.ltb_lt. lia. }
  destruct (live (now + d) (Entry v x)); [|done]. rewrite Hl in Hc by done.
  cbn [fmap option_fmap option_map e_val] in *. split; [done|]. by eexists.
Qed.

(** Polling ends once the counter's key has expired. *)
Lemma wait_loop_ends w c fuel poll x v :
  quiet w -> counter_ok (w_now w) (w_redis w) (inflight_key c) ->
  w_redis w !! inflight_key c = Some (Entry v (Some x)) -> 0 < poll ->
  x - w_now w <= Z.of_nat fuel * poll ->
  exists w', wait_loop cfg fuel poll None None None c w = (inr (Some true), w')
    /\ w_now w' <= Z.max (w_now w) (x + poll).
Proof.
  revert w. induction fuel as [|fuel IH]; intros w Hq Hc Hk Hp Hx; cbn [wait_loop];
    rewrite bind_run, has_activity_quiet by done;
    (destruct (Z.ltb_spec 0 (counter_of (w_now w) (w_redis w) (inflight_key c))) as [Hpos|Hpos];
     cbn [negb]; [|exists w; split; [done|lia]]);
    destruct (counter_later (w_now w) 0 (w_redis w) (inflight_key c)) as [_ Hlive]; try done;
    rewrite Z.add_0_r in Hlive; specialize (Hlive Hpos);
    unfold peek in Hlive; rewrite Hk in Hlive; cbn [mbind option_bind] in Hlive;
    (destruct (live (w_now w) _) eqn:Hl; [|by destruct Hlive]);
    unfold live in Hl; cbn [e_exp] in Hl; apply Z.ltb_lt in Hl.
  - simpl in Hx. lia.
  - rewrite bind_run, ret_run, bind_run, get_now_run, bind_run, ret_run, bind_run. cbn [sleep].
    set (w1 := World _ _ _ _ _ _ _ _ _ _).
    destruct (IH w1) as (w' & Hw' & Hn); [done| |done|done| |].
    + by apply (counter_later (w_now w) poll); [lia|].
    + simpl. lia.
    + exists w'. split; [done|]. simpl in Hn. lia.
Qed.
End activity_lemmas.

(** ** Properties *)

(** A mutex is reclaimed exactly when its holder cannot be importing: in a
    quiet world the reclaim frees the mutex and names the holder if the
    holder's job is missing, terminal, finished or stale-pending, and otherwise
    answers [None] and changes nothing. *)
Theorem reclaim_iff_reclaimable `{RedisLaws} `{Entropy} (cfg : Settings) (w : world) (c h : string)
    (x : option Z) (job : option JobInfo) :
  is_redis cfg = true -> quiet w -> lock_typed (w_now w) (w_redis w) c ->
  lock_of (w_now w) (w_redis w) c = Some (h, x) -> h <> "" ->
  job_at (w_now w) (w_redis w) h job ->
  exists w', reclaim_stale_collection_bulk_mutex cfg c w =
      (inr (if reclaimable cfg (w_now w) job then Some h else None), w')
    /\ lock_of (w_now w') (w_redis w') c =
       (if reclaimable cfg (w_now w) job then None else Some (h, x))
    /\ (reclaimable cfg (w_now w) job = false -> w' = w).
Proof.
  intros Hr Hq Ht Hl Hne Hj. rewrite (reclaim_quiet cfg Hr w c h x job) by done.
  destruct (reclaimable cfg (w_now w) job); eexists; (split; [reflexivity|]); [|done].
  split; [apply lock_of_delete|done].
Qed.

(** Waiting ends: when the activity counter of a collection has an expiry
    (every start sets one) and no worker touches it again, the wait for the
    collection to be idle returns [True] after at most as many polls as fit
    until the expiry, and no later than one poll after it. *)
Theorem wait_until_idle_terminates `{RedisLaws} `{Entropy} (cfg : Settings) (w : world) (c : string)
    (fuel : nat) (poll : option Z) (x : Z) (v : rval) :
  is_redis cfg = true -> quiet w -> counter_ok (w_now w) (w_redis w) (inflight_key c) ->
  w_redis w !! inflight_key c = Some (Entry v (Some x)) ->
  x - w_now w <= Z.of_nat fuel * wait_poll cfg poll ->
  exists w', wait_until_collection_bulk_idle cfg fuel c None poll None w = (inr (Some true), w')
    /\ w_now w' <= Z.max (w_now w) (x + wait_poll cfg poll).
Proof.
  intros Hr Hq Hc Hk Hx. unfold wait_until_collection_bulk_idle. rewrite Hr. cbn [negb].
  eapply wait_loop_ends; try done. unfold wait_poll. lia.
Qed.

(** [finished_at] is never cleared, so mutual exclusion can be broken: a
    pending job that was failed and is then started by a worker (acquire, status
    ["running"]) runs with [finished_at] set, and a reclaim takes its mutex away
    while it runs, after which another job acquires it. *)
Theorem running_holder_reclaimed :
  exists (w w1 w2 w3 w4 : world) (j : JobInfo),
    w = demo_world
    /\ (@update_job reference_server reference_entropy default_settings "j1"
         (up "failed" "pending for too long") w).2 = w1
    /\ @try_acquire_collection_bulk_mutex reference_server reference_entropy default_settings
         "roads" "j1" w1 = (inr true, w2)
    /\ @update_job reference_server reference_entropy default_settings "j1"
         (up "running" "Starting bulk import") w2 = (inr (Some j), w3)
    /\ status j = "running"
    /\ @reclaim_stale_collection_bulk_mutex reference_server reference_entropy default_settings
         "roads" w3 = (inr (Some "j1"), w4)
    /\ (@try_acquire_collection_bulk_mutex reference_server reference_entropy default_settings
         "roads" "j2" w4).1 = inr true.
Proof.
  eexists _, _, _, _, _, _. split; [reflexivity|]. split; [reflexivity|].
  split; [apply run_fst; vm_compute; reflexivity|].
  split; [apply run_fst; vm_compute; reflexivity|]. split; [reflexivity|].
  split; [apply run_fst; vm_compute; reflexivity|]. vm_compute. reflexivity.
Qed.

(** ** Witnesses *)

Lemma reclaim_iff_reclaimable_witness :
  exists w', @reclaim_stale_collection_bulk_mutex reference_server reference_entropy
      default_settings "roads" demo_world = (inr None, w')
    /\ lock_of (w_now w') (w_redis w') "roads" = Some ("j1", Some (us 600))
    /\ (false = false -> w' = demo_world).
Proof.
  apply (@reclaim_iff_reclaimable reference_server reference_laws reference_entropy
    default_settings demo_world "roads" "j1" (Some (us 600))
    (Some (read_job (new_job "j1" "roads" (Some 7) None 0))));
    [reflexivity|reflexivity|exact demo_lock_typed|reflexivity|done|exact demo_stored].
Defined.

Lemma wait_until_idle_terminates_witness :
  exists w', @wait_until_collection_bulk_idle reference_server reference_entropy default_settings 3
      "roads" None None None
      (with_redis empty_world (put ∅ (inflight_key "roads") (VStr "1") (Some (us 5)))) =
      (inr (Some true), w')
    /\ w_now w' <= Z.max 0 (us 5 + us 2).
Proof.
  apply (@wait_until_idle_terminates reference_server reference_laws reference_entropy
    default_settings (with_redis empty_world (put ∅ (inflight_key "roads") (VStr "1") (Some (us 5))))
    "roads" 3 None (us 5) (VStr "1")); [reflexivity|reflexivity| |reflexivity|].
  - exists 1. split; [reflexivity|lia].
  - by vm_compute.
Defined.
