(* ===== verification/Staging.v ===== *)
(** * Staging tables and their recovery
    (app/services/bulk_staging.py, app/services/bulk_staging_recovery.py)

    A bulk job loads its rows into a staging table of its own; promotion swaps
    the table in (replace) or inserts its rows (append).  Duplicate keys are
    removed first, keeping the newest row, and promotion is retried once on a
    unique violation. *)

From S2P Require Import Prelude PyTime Redis Postgres World Database Json Mutex JobStore Queue.
From S2P Require Import BulkQueue FinalizeQueue Partitions.

Definition STAGING_TABLE_PREFIX : string := "bulk_staging_".

Definition staging_table_name (job_id : string) : string :=
  STAGING_TABLE_PREFIX +:+ str_or (strip_us (str_take 48 (sub_name job_id))) "job".

(** [is_staging_pk_duplicate_error] of a text in lower case. *)
Definition duplicate_text (msg : string) : bool :=
  (contains "uniqueviolation" msg || contains "duplicate key value" msg)
  && (contains "bulk_staging" msg || contains "_pkey" msg || contains "staging" msg).

Definition is_staging_pk_duplicate_message (msg : string) : bool := duplicate_text (lower msg).

(** Of an exception: an [IntegrityError] of the model is a unique violation, whose
    driver error carries the code 23505. *)
Definition is_staging_pk_duplicate_error (e : exn) : bool :=
  match e with
  | IntegrityError m => duplicate_text (lower m +:+ " uniqueviolation")
  | _ => duplicate_text (lower (exn_str e))
  end.

Section staging.
Context `{RedisServer} `{PostgresServer} `{Entropy} (cfg : Settings).

(** ** app/services/bulk_staging.py *)

Definition create_staging_table_sync (job_id : string) : TX string :=
  let name := staging_table_name job_id in
  stmt (DropTable name true);;
  stmt (CreateStaging name);;
  mret name.

Definition drop_staging_table_sync (job_id : string) : M unit :=
  transaction (stmt (DropTable (staging_table_name job_id) true)).

Definition staging_table_exists_sync (job_id : string) : M bool :=
  transaction (stmt (TableExists (staging_table_name job_id))).

Definition staging_row_count_sync (job_id : string) : M Z :=
  let name := staging_table_name job_id in
  transaction (
    ex ← stmt (TableExists name);
    if negb ex then mret 0 else stmt (CountRows name)).

Definition list_orphan_staging_tables_sync : M (list string) :=
  transaction (stmt (ListTablesLike (STAGING_TABLE_PREFIX +:+ "%"))).

(** The loop of [cleanup_orphan_staging_tables_sync]. *)
Fixpoint drop_inactive (active : list string) (names : list string) : M Z :=
  match names with
  | [] => mret 0
  | name :: names' =>
      if existsb (fun jid => bool_decide (staging_table_name jid = name)) active
      then drop_inactive active names'
      else
        transaction (stmt (DropTable name true));;
        n ← drop_inactive active names';
        mret (1 + n)
  end.

Definition cleanup_orphan_staging_tables_sync (active : list string) : M Z :=
  names ← list_orphan_staging_tables_sync;
  drop_inactive active names.

(** ** app/services/bulk_staging_recovery.py *)

Definition staging_duplicate_count_sync (job_id : string) : M Z :=
  let staging := staging_table_name job_id in
  transaction (
    ex ← table_exists_conn staging;
    if negb ex then mret 0 else stmt (DuplicateCount staging)).

Definition dedupe_staging_table_sync (job_id : string) : M Z :=
  let staging := staging_table_name job_id in
  transaction (
    ex ← table_exists_conn staging;
    if negb ex then mret 0
    else
      before ← stmt (CountRows staging);
      stmt (DeleteDuplicates staging);;
      after ← stmt (CountRows staging);
      mret (Z.max 0 (before - after))).

Definition prepare_staging_for_promote_sync (job_id : string) : M Z :=
  dupes ← staging_duplicate_count_sync job_id;
  if dupes <=? 0 then mret 0
  else
    removed ← dedupe_staging_table_sync job_id;
    remaining ← staging_duplicate_count_sync job_id;
    if 0 <? remaining then
      raise (StagingDuplicateUnrecoverableError
        ("Staging still has " +:+ str_of_Z remaining +:+ " duplicate primary-key rows after removing "
         +:+ str_of_Z removed +:+ "."))
    else mret removed.

Definition cleanup_failed_staging_import_sync (job_id c : string) : M unit :=
  let staging := staging_table_name job_id in
  transaction (
    ex ← table_exists_conn staging;
    when_tx ex (
      att ← partition_is_attached_conn staging;
      when_tx att (set_lock_timeout cfg ;; stmt (DetachPartition staging));;
      stmt (DropTable staging true)));;
  ensure_features_partition_sync c;;
  mret tt.

Definition abandon_staging_finalize_job (id c reason : string) (created failed : Z) : M unit :=
  cleanup_failed_staging_import_sync id c;;
  remove_finalize_from_queue cfg id;;
  clear_finalize_pending cfg id;;
  unregister_bulk_import_job cfg id;;
  update_job cfg id (Update (Some "failed")
    (Some (str_take 2000 ("Bulk import abandoned: " +:+ reason
       +:+ " Staging was removed — please re-import this file.")))
    None (Some created) (Some failed) None);;
  mret tt.

(** The second attempt converts a duplicate into the unrecoverable error. *)
Definition promote_again (e : exn) : M unit :=
  match e with
  | IntegrityError _ =>
      if is_staging_pk_duplicate_error e
      then raise (StagingDuplicateUnrecoverableError (str_take 500 (exn_str e)))
      else raise e
  | _ => raise e
  end.

Definition promote_with_staging_recovery (job_id : string) (promote_fn : M unit) : M unit :=
  prepare_staging_for_promote_sync job_id;;
  try_except promote_fn (fun e =>
    match e with
    | IntegrityError _ =>
        if negb (is_staging_pk_duplicate_error e) then raise e
        else
          prepare_staging_for_promote_sync job_id;;
          try_except promote_fn promote_again
    | _ => raise e
    end).

(** [_append_promote] *)
Definition append_promote (staging : string) : TX unit :=
  skip_touch cfg;;
  stmt (InsertFrom staging);;
  when_tx (bulk_skip_features_touch_trigger cfg)
    (stmt (Session "RESET geofast.bulk_skip_features_touch")).

Definition promote_staging_sync (c job_id mode : string) : M Z :=
  let staging := staging_table_name job_id in
  count ← transaction (stmt (CountRows staging));
  if decide (count = 0) then drop_staging_table_sync job_id;; mret 0
  else if decide (mode = "replace") then
    complete ← partition_swap_already_complete_sync c staging;
    if (complete : bool) then mret count
    else
      promote_with_staging_recovery job_id
        (swap_staging_into_collection_partition_sync cfg c staging);;
      mret count
  else
    ensure_features_partition_sync c;;
    promote_with_staging_recovery job_id (transaction (append_promote staging));;
    drop_staging_table_sync job_id;;
    mret count.
End staging.

(** ** Removing duplicates keeps the newest row of each key *)

Lemma same_key_spec r s : same_key r s = true <-> row_key r = row_key s.
Proof. unfold same_key. apply bool_decide_eq_true. Qed.

Lemma rank_gt_1_false before r after :
  rank_gt_1 before r after = false <->
  (forall x, x ∈ before -> row_key r = row_key x -> r_updated x <= r_updated r)
  /\ (forall x, x ∈ after -> row_key r = row_key x -> r_updated x < r_updated r).
Proof.
  unfold rank_gt_1. rewrite orb_false_iff, <-!not_true_iff_false, !existsb_exists. split.
  - intros [Hb Ha]. split; intros x Hx%list_elem_of_In Hk.
    + apply Z.nlt_ge. intros Hlt. apply Hb. exists x. split; [done|].
      by rewrite (proj2 (same_key_spec r x)), (proj2 (Z.ltb_lt _ _)).
    + apply Z.nle_gt. intros Hle. apply Ha. exists x. split; [done|].
      by rewrite (proj2 (same_key_spec r x)), (proj2 (Z.leb_le _ _)).
  - intros [Hb Ha]. split; intros (x & Hx%list_elem_of_In & [Hk%same_key_spec Hc]%andb_true_iff).
    + apply Z.ltb_lt in Hc. specialize (Hb x Hx Hk). lia.
    + apply Z.leb_le in Hc. specialize (Ha x Hx Hk). lia.
Qed.

Lemma first_ranked_sublist l before : sublist (first_ranked before l) l.
Proof.
  revert before. induction l as [|r l IH]; intros before; [constructor|]. cbn [first_ranked].
  case_match; by constructor.
Qed.

Lemma first_ranked_above l : forall before s x,
  s ∈ first_ranked before l -> x ∈ before -> row_key s = row_key x -> r_updated x <= r_updated s.
Proof.
  induction l as [|r l IH]; intros before s x Hs Hx Hk; [by apply not_elem_of_nil in Hs|].
  cbn [first_ranked] in Hs. destruct (rank_gt_1 before r l) eqn:Hr.
  - eapply IH; [done|by apply list_elem_of_further|done].
  - apply elem_of_cons in Hs as [->|Hs].
    + apply rank_gt_1_false in Hr as [Hb _]. by apply Hb.
    + eapply IH; [done|by apply list_elem_of_further|done].
Qed.

Lemma first_ranked_keys l before : NoDup (map row_key (first_ranked before l)).
Proof.
  revert before. induction l as [|r l IH]; intros before; [constructor|]. cbn [first_ranked].
  destruct (rank_gt_1 before r l) eqn:Hr; [apply IH|]. cbn [map]. constructor; [|apply IH].
  intros (s & Hk & Hs)%list_elem_of_fmap.
  pose proof (first_ranked_above l (r :: before) s r Hs (list_elem_of_here _ _) (eq_sym Hk)).
  apply rank_gt_1_false in Hr as [_ Ha].
  assert (s ∈ l) as Hin by (eapply sublist_elem; [apply first_ranked_sublist|done]).
  specialize (Ha s Hin Hk). lia.
Qed.

(** Every row is represented by a kept row that is at least as new, unless an
    earlier row outside the list is newer. *)
Lemma first_ranked_covers l : forall before r, r ∈ l ->
  (exists s, s ∈ first_ranked before l /\ row_key s = row_key r /\ r_updated r <= r_updated s)
  \/ (exists x, x ∈ before /\ row_key x = row_key r /\ r_updated r < r_updated x).
Proof.
  induction l as [|a l IH]; intros before r Hr; [by apply not_elem_of_nil in Hr|].
  assert ((exists s, s ∈ first_ranked before (a :: l) /\ row_key s = row_key a /\ r_updated a <= r_updated s)
          \/ (exists x, x ∈ before /\ row_key x = row_key a /\ r_updated a < r_updated x)) as Ha.
  { cbn [first_ranked]. destruct (rank_gt_1 before a l) eqn:Hrank.
    - unfold rank_gt_1 in Hrank. apply orb_true_iff in Hrank as [Hb|Hl].
      + apply existsb_exists in Hb as (x & Hx%list_elem_of_In & [Hk%same_key_spec Hc%Z.ltb_lt]%andb_true_iff).
        right. by exists x.
      + apply existsb_exists in Hl as (y & Hy%list_elem_of_In & [Hk%same_key_spec Hc%Z.leb_le]%andb_true_iff).
        destruct (IH (a :: before) y Hy) as [(s & Hs & Hks & Hu)|(x & [->|Hx]%elem_of_cons & Hkx & Hu)].
        * left. exists s. split; [done|]. split; [congruence|lia].
        * lia.
        * right. exists x. split; [done|]. split; [congruence|lia].
    - left. exists a. split; [apply list_elem_of_here|]. done. }
  apply elem_of_cons in Hr as [->|Hr]; [done|].
  destruct (IH (a :: before) r Hr) as [(s & Hs & Hks & Hu)|(x & [->|Hx]%elem_of_cons & Hkx & Hu)].
  - left. exists s. split; [|done]. cbn [first_ranked]. case_match; [done|]. by apply list_elem_of_further.
  - destruct Ha as [(s & ? & ? & ?)|(x & ? & ? & ?)];
      [left; exists s|right; exists x]; (split; [done|]); (split; [congruence|lia]).
  - right. by exists x.
Qed.

(** The rows kept: one per key, the newest. *)
Definition newest_of (l k : list frow) : Prop :=
  sublist k l /\ keys_unique k = true
  /\ forall r, r ∈ l -> exists s, s ∈ k /\ row_key s = row_key r /\ r_updated r <= r_updated s.

Lemma dedupe_newest l : newest_of l (dedupe l).
Proof.
  split; [apply first_ranked_sublist|]. split; [apply bool_decide_eq_true_2, first_ranked_keys|].
  intros r Hr. destruct (first_ranked_covers l [] r Hr) as [?|(x & Hx & _)]; [done|].
  by apply not_elem_of_nil in Hx.
Qed.

Lemma first_ranked_unique l before :
  NoDup (map row_key (before ++ l)) -> first_ranked before l = l.
Proof.
  revert before. induction l as [|r l IH]; intros before Hn; [done|]. cbn [first_ranked].
  assert (rank_gt_1 before r l = false) as ->.
  { apply rank_gt_1_false. rewrite map_app in Hn. apply NoDup_app in Hn as (_ & Hb & Hl).
    cbn [map] in *. apply NoDup_cons in Hl as [Hl _].
    split; intros x Hx Hk; exfalso.
    - apply (Hb (row_key x)); [by apply list_elem_of_fmap_2|rewrite <-Hk; apply list_elem_of_here].
    - apply Hl. rewrite Hk. by apply list_elem_of_fmap_2. }
  f_equal. apply IH. cbn [app]. by rewrite (Permutation_middle before l r).
Qed.

Lemma dedupe_unique l : keys_unique l = true -> dedupe l = l.
Proof. intros Hl. apply first_ranked_unique. by apply bool_decide_eq_true_1 in Hl. Qed.

(** ** Promotion *)

Section promotion.
Context `{RedisServer} `{PostgresLaws} `{Entropy} (cfg : Settings).

Lemma transaction_same {A} (t : TX A) w a :
  db_quiet w -> t (w_db w) = (inr a, w_db w) -> transaction t w = (inr a, w).
Proof. intros Hq Ht. rewrite (transaction_ok _ _ _ _ Hq Ht). by rewrite with_db_same. Qed.

Lemma has_table_true db n t : db_tables db !! n = Some t -> has_table db n = true.
Proof. intros Ht. unfold has_table. apply bool_decide_eq_true_2. by eexists. Qed.

Lemma duplicate_count_run w id t :
  db_quiet w -> db_tables (w_db w) !! staging_table_name id = Some t ->
  staging_duplicate_count_sync id w =
  (inr (Z.of_nat (length (t_rows t)) - Z.of_nat (length (dedupe (t_rows t)))), w).
Proof.
  intros Hq Ht. unfold staging_duplicate_count_sync. apply transaction_same; [done|].
  rewrite tx_bind_run, exists_run, (has_table_true _ _ _ Ht). cbn [negb].
  apply stmt_ok; [done|]. cbn [sql_run]. unfold with_table. by rewrite Ht.
Qed.

(** The staging table without its duplicates. *)
Definition deduped (t : table) : table := Table (dedupe (t_rows t)) (t_logged t) (t_checks t).

Lemma dedupe_run w id t :
  db_quiet w -> db_tables (w_db w) !! staging_table_name id = Some t ->
  dedupe_staging_table_sync id w =
  (inr (Z.max 0 (Z.of_nat (length (t_rows t)) - Z.of_nat (length (dedupe (t_rows t))))),
   with_db w (set_table (w_db w) (staging_table_name id) (deduped t))).
Proof.
  intros Hq Ht. unfold dedupe_staging_table_sync. apply transaction_ok; [done|].
  rewrite tx_bind_run, exists_run, (has_table_true _ _ _ Ht). cbn [negb]. set (n := staging_table_name id) in *.
  rewrite tx_bind_run, (stmt_ok (CountRows n) (w_db w) (Z.of_nat (length (t_rows t))) (w_db w));
    [|done|by cbn [sql_run]; unfold with_table; rewrite Ht].
  rewrite tx_bind_run, (stmt_ok (DeleteDuplicates n) (w_db w) tt (set_table (w_db w) n (deduped t)));
    [|done|by cbn [sql_run]; unfold with_table, set_rows; rewrite Ht].
  rewrite tx_bind_run, (stmt_ok (CountRows n) _ (Z.of_nat (length (dedupe (t_rows t))))
    (set_table (w_db w) n (deduped t))); [done|done|].
  cbn [sql_run]. unfold with_table, set_table. cbn [set_tables db_tables]. by rewrite lookup_insert_eq.
Qed.

Lemma dedupe_length l : (length (dedupe l) <= length l)%nat.
Proof. apply sublist_length. apply (dedupe_newest l). Qed.

Lemma sublist_same_length {A} (k l : list A) : sublist k l -> length k = length l -> k = l.
Proof.
  induction 1 as [|x k l _ IH|x k l Hs IH]; intros Hl; [done| |].
  - f_equal. apply IH. by injection Hl.
  - apply sublist_length in Hs. simpl in Hl. lia.
Qed.

(** [prepare_staging_for_promote_sync] leaves the newest row of each key. *)
Lemma prepare_run w id t :
  db_quiet w -> db_tables (w_db w) !! staging_table_name id = Some t ->
  prepare_staging_for_promote_sync id w =
  (inr (Z.of_nat (length (t_rows t)) - Z.of_nat (length (dedupe (t_rows t)))),
   with_db w (set_table (w_db w) (staging_table_name id) (deduped t))).
Proof.
  intros Hq Ht. unfold prepare_staging_for_promote_sync.
  rewrite bind_run, (duplicate_count_run _ _ _ Hq Ht). pose proof (dedupe_length (t_rows t)).
  destruct (Z.leb_spec (Z.of_nat (length (t_rows t)) - Z.of_nat (length (dedupe (t_rows t)))) 0) as [Hd|Hd].
  - assert (dedupe (t_rows t) = t_rows t) as Heq.
    { apply sublist_same_length; [apply (dedupe_newest (t_rows t))|lia]. }
    rewrite Heq, Z.sub_diag, ret_run. do 2 f_equal. unfold set_table, deduped. rewrite Heq.
    destruct t as [rows lg ck]. cbn [t_rows t_logged t_checks]. rewrite insert_id by done.
    destruct (w_db w) as [tb pt df cl] eqn:Hdb. unfold set_tables. cbn.
    change (Db tb pt df cl) with (Db tb pt df cl). rewrite <-Hdb. by rewrite with_db_same.
  - rewrite bind_run, (dedupe_run _ _ _ Hq Ht).
    rewrite bind_run, (duplicate_count_run _ _ (deduped t)); [|done|by apply lookup_insert_eq].
    cbn [deduped t_rows]. rewrite (dedupe_unique (dedupe (t_rows t))) by apply (dedupe_newest (t_rows t)).
    rewrite Z.sub_diag. cbn [Z.ltb Z.compare]. rewrite ret_run. do 2 f_equal. lia.
Qed.
End promotion.

(** What promotion makes of the live rows. *)
Definition promoted (mode : string) (live staged : list frow) : list frow :=
  if decide (mode = "replace") then staged else (live ++ staged)%list.

(** What the load phase has arranged when it ends: the collection has a
    partition and the staging table of the job holds rows for it. *)
Record promotable (db : database) (c id : string) (t : table) : Prop := {
  pr_wf : db_wf db;
  pr_plain : plain_db db;
  pr_id : no_spaces c = c;
  pr_part : exists n, db_parts db !! c = Some n;
  pr_staged : staged_for db c (staging_table_name id) t;
  pr_rows : t_rows t <> []
}.

Lemma live_rows_drop_unattached db s c :
  is_attached db s = false -> live_rows (drop_table db s) c = live_rows db c.
Proof.
  intros Hs. apply live_rows_frame; [by rewrite drop_unattached_parts| |done].
  intros n Hn. rewrite drop_table_tables. apply lookup_delete_ne. intros ->.
  by eapply not_attached_spec.
Qed.

Lemma live_rows_part db c n t :
  db_wf db -> db_parts db !! c = Some n -> db_tables db !! n = Some t -> live_rows db c = t_rows t.
Proof.
  intros Hw Hn Ht. unfold live_rows, rows_of. rewrite Hn, Ht.
  destruct (wf_part db Hw _ _ Hn) as (t0 & Ht0 & _ & Hc). simplify_eq. by apply of_coll_all.
Qed.

(** More rows in the partition of a collection. *)
Lemma wf_more_rows db c n t :
  db_wf db -> db_parts db !! c = Some n -> keys_unique (t_rows t) = true ->
  Forall (fun r => r_collection r = c) (t_rows t) -> db_wf (set_table db n t).
Proof.
  intros Hw Hn Hk Hc. split; try apply Hw. intros c' m Hm. cbn [set_table set_tables db_tables].
  rewrite lookup_insert. case_decide as Hnm; [|by apply Hw]. subst m.
  assert (c' = c) as -> by (eapply (wf_inj db Hw); done). by exists t.
Qed.

Lemma live_rows_more_rows db c n t c' :
  db_wf db -> db_parts db !! c = Some n -> Forall (fun r => r_collection r = c) (t_rows t) ->
  live_rows (set_table db n t) c' = if decide (c' = c) then t_rows t else live_rows db c'.
Proof.
  intros Hw Hn Hc. case_decide as Hcc.
  - subst. unfold live_rows, rows_of. cbn. rewrite Hn, lookup_insert_eq. by apply of_coll_all.
  - apply live_rows_frame; [done| |done]. intros m Hm. apply lookup_insert_ne. intros ->.
    destruct Hcc. by eapply (wf_inj db Hw).
Qed.

Section promotion_spec.
Context `{RedisServer} `{PostgresLaws} `{Entropy} (cfg : Settings).

Lemma prepare_unique w id t :
  db_quiet w -> db_tables (w_db w) !! staging_table_name id = Some t -> keys_unique (t_rows t) = true ->
  prepare_staging_for_promote_sync id w = (inr 0, w).
Proof.
  intros Hq Ht Hk. unfold prepare_staging_for_promote_sync.
  rewrite bind_run, (duplicate_count_run _ _ _ Hq Ht). rewrite dedupe_unique, Z.sub_diag by done. done.
Qed.

Lemma recovery_ok w id t (m : M unit) w' :
  db_quiet w -> db_tables (w_db w) !! staging_table_name id = Some t -> keys_unique (t_rows t) = true ->
  m w = (inr tt, w') -> promote_with_staging_recovery id m w = (inr tt, w').
Proof.
  intros Hq Ht Hk Hm. unfold promote_with_staging_recovery.
  rewrite bind_run, (prepare_unique _ _ _ Hq Ht Hk). by apply try_except_ok.
Qed.

Lemma swap_incomplete w c s n :
  db_quiet w -> plain_db (w_db w) -> no_spaces c = c -> is_attached (w_db w) s = false ->
  db_parts (w_db w) !! c = Some n -> partition_swap_already_complete_sync c s w = (inr false, w).
Proof.
  intros Hq Hp Hc Hf Hn. apply transaction_same; [done|].
  rewrite tx_bind_run, attached_run, Hf. rewrite tx_bind_run, resolve_run, Hn by done.
  rewrite bool_decide_eq_false_2; [done|]. intros ?. simplify_eq.
  by eapply (not_attached_spec (w_db w) s).
Qed.

Lemma ensure_run w c n :
  db_quiet w -> db_wf (w_db w) -> plain_db (w_db w) -> no_spaces c = c ->
  db_parts (w_db w) !! c = Some n -> ensure_features_partition_sync c w = (inr n, w).
Proof.
  intros Hq Hw Hp Hc Hn. unfold ensure_features_partition_sync.
  rewrite bind_run, resolve_sync_run, Hn by done. destruct (Hp _ _ Hn) as [_ Hne].
  cbn [truthy opt_str default]. rewrite bool_decide_eq_false_2 by done. cbn [negb].
  rewrite bind_run. erewrite transaction_ok; [|done|].
  2: { unfold advisory_lock_partition. rewrite tx_bind_run, session_run. by eapply migrate_run. }
  rewrite not_of_coll_id by (by eapply (wf_default _ Hw)).
  replace (set_default (w_db w) _) with (w_db w) by (by destruct (w_db w)).
  by rewrite with_db_same.
Qed.

Lemma append_run db c n s t tn :
  db_wf db -> db_parts db !! c = Some n -> db_tables db !! n = Some tn -> db_tables db !! s = Some t ->
  Forall (fun r => r_collection r = c) (t_rows t) -> keys_unique (t_rows tn ++ t_rows t)%list = true ->
  exists t', t_rows t' = (t_rows tn ++ t_rows t)%list
    /\ append_promote cfg s db = (inr tt, set_table db n t').
Proof.
  intros Hw Hn Htn Ht Hc Hk. destruct (insert_rows_part c n (t_rows t) db tn) as (t' & Hi & Hr); try done.
  exists t'. split; [done|]. unfold append_promote. rewrite tx_bind_run, skip_touch_run.
  rewrite tx_bind_run, (stmt_ok (InsertFrom s) db tt (set_table db n t')); [|done|].
  - unfold when_tx. case_match; [apply session_run|done].
  - cbn [sql_run]. unfold with_table. by rewrite Ht, Hi.
Qed.

Lemma count_run w s t :
  db_quiet w -> db_tables (w_db w) !! s = Some t ->
  transaction (stmt (CountRows s)) w = (inr (Z.of_nat (length (t_rows t))), w).
Proof.
  intros Hq Ht. apply transaction_same; [done|]. apply stmt_ok; [done|].
  cbn [sql_run]. unfold with_table. by rewrite Ht.
Qed.

Lemma drop_staging_run w id t :
  db_quiet w -> db_tables (w_db w) !! staging_table_name id = Some t ->
  drop_staging_table_sync id w = (inr tt, with_db w (drop_table (w_db w) (staging_table_name id))).
Proof.
  intros Hq Ht. apply transaction_ok; [done|]. apply stmt_ok; [done|].
  cbn [sql_run]. by rewrite (has_table_true _ _ _ Ht).
Qed.

(** The effect of a promotion on the rows. *)
Definition published (db db' : database) (c id mode : string) (rows : list frow) : Prop :=
  db_wf db' /\ live_rows db' c = promoted mode (live_rows db c) rows
  /\ (forall c', c' <> c -> live_rows db' c' = live_rows db c')
  /\ (mode <> "replace" -> db_tables db' !! staging_table_name id = None)
  /\ db_collections db' = db_collections db.

Lemma promote_replace_run w c id t :
  db_quiet w -> promotable (w_db w) c id t ->
  exists db', promote_staging_sync cfg c id "replace" w =
      (inr (Z.of_nat (length (t_rows t))), with_db w db')
    /\ published (w_db w) db' c id "replace" (t_rows t).
Proof.
  intros Hq [Hw Hp Hc [n Hn] Hs Hne]. pose proof Hs as [Ht Hk _ Hf].
  destruct (swap_run cfg w c _ t Hq Hw Hp Hc Hs) as (t' & Hr & Hw' & Hs' & Hrun).
  eexists. split.
  - unfold promote_staging_sync. rewrite bind_run, (count_run _ _ _ Hq Ht).
    rewrite decide_False by (destruct (t_rows t); [done|simpl; lia]). rewrite decide_True by done.
    rewrite bind_run, (swap_incomplete _ _ _ _ Hq Hp Hc Hf Hn).
    by rewrite bind_run, (recovery_ok _ _ _ _ _ Hq Ht Hk Hrun).
  - split; [by eapply staging_ready|]. split; [|split; [|split; [done|exact (before_attach_collections (set_table (w_db w) _ t') c _)]]].
    + rewrite (live_rows_swapped _ _ _ t') by done. by rewrite decide_True.
    + intros c' Hc'. rewrite (live_rows_swapped _ _ _ t') by done. rewrite decide_False by done.
      by eapply live_rows_same_rows.
Qed.

Lemma promote_append_run w c id mode t :
  mode <> "replace" -> db_quiet w -> promotable (w_db w) c id t ->
  keys_unique (live_rows (w_db w) c ++ t_rows t)%list = true ->
  exists db', promote_staging_sync cfg c id mode w =
      (inr (Z.of_nat (length (t_rows t))), with_db w db')
    /\ published (w_db w) db' c id mode (t_rows t).
Proof.
  intros Hm Hq [Hw Hp Hc [n Hn] Hs Hne] Hall. pose proof Hs as [Ht Hk Hco Hf].
  destruct (wf_part _ Hw _ _ Hn) as (tn & Htn & _ & Hcn). set (s := staging_table_name id) in *.
  rewrite (live_rows_part _ _ _ _ Hw Hn Htn) in Hall.
  destruct (append_run (w_db w) c n s t tn) as (t' & Hr & Hrun); try done.
  assert (Forall (fun r => r_collection r = c) (t_rows t')) as Hct by (rewrite Hr; by apply Forall_app_2).
  assert (s <> n) as Hsn by (intros ->; by eapply (not_attached_spec (w_db w) n)).
  eexists. split.
  - unfold promote_staging_sync. fold s. rewrite bind_run, (count_run _ _ _ Hq Ht).
    rewrite decide_False by (destruct (t_rows t); [done|simpl; lia]). rewrite decide_False by done.
    rewrite bind_run, (ensure_run _ _ _ Hq Hw Hp Hc Hn).
    erewrite bind_run, (recovery_ok _ _ _ _ _ Hq Ht Hk); [|by apply transaction_ok].
    rewrite bind_run, (drop_staging_run _ id t); [reflexivity|done|].
    rewrite with_db_db. cbn. by rewrite lookup_insert_ne.
  - rewrite with_db_db. set (db1 := set_table (w_db w) n t').
    assert (db_wf db1) as Hw1 by (eapply wf_more_rows; try done; by rewrite Hr).
    assert (is_attached db1 s = false) as Hf1 by done.
    split; [by apply wf_drop_unattached|]. split; [|split; [|split; [|done]]].
    + rewrite live_rows_drop_unattached by done. unfold promoted. rewrite decide_False by done.
      unfold db1. rewrite (live_rows_more_rows _ c) by done. rewrite decide_True by done.
      by rewrite Hr, (live_rows_part _ _ _ _ Hw Hn Htn).
    + intros c' Hc'. rewrite live_rows_drop_unattached by done. unfold db1.
      rewrite (live_rows_more_rows _ c) by done. by rewrite decide_False.
    + intros _. apply lookup_delete_eq.
Qed.

Lemma promote_run w c id mode t :
  db_quiet w -> promotable (w_db w) c id t ->
  keys_unique (promoted mode (live_rows (w_db w) c) (t_rows t)) = true ->
  exists db', promote_staging_sync cfg c id mode w =
      (inr (Z.of_nat (length (t_rows t))), with_db w db')
    /\ published (w_db w) db' c id mode (t_rows t).
Proof.
  intros Hq Hp Hk. destruct (decide (mode = "replace")) as [->|Hm].
  - by apply promote_replace_run.
  - apply promote_append_run; try done. unfold promoted in Hk. by rewrite decide_False in Hk.
Qed.
End promotion_spec.

(** ** Properties *)

(** C5. Promotion publishes the staged rows, in both modes: without database faults, from
    a well-formed database whose collection has a partition, and when no two of the rows
    to be published have the same primary key, [promote_staging_sync] returns the number
    of staged rows, the live rows of the collection become the staged ones (replace) or
    the old ones followed by the staged ones (append), no other collection changes, the
    database stays well formed, Redis is left alone, and an appended staging table is
    gone. *)
Theorem promote_publishes `{RedisServer} `{PostgresLaws} `{Entropy} (cfg : Settings) (w : world)
    (c id mode : string) (t : table) :
  db_quiet w -> promotable (w_db w) c id t ->
  keys_unique (promoted mode (live_rows (w_db w) c) (t_rows t)) = true ->
  exists w', promote_staging_sync cfg c id mode w = (inr (Z.of_nat (length (t_rows t))), w')
    /\ live_rows (w_db w') c = promoted mode (live_rows (w_db w) c) (t_rows t)
    /\ (forall c', c' <> c -> live_rows (w_db w') c' = live_rows (w_db w) c')
    /\ (mode <> "replace" -> db_tables (w_db w') !! staging_table_name id = None)
    /\ db_wf (w_db w') /\ w_redis w' = w_redis w.
Proof.
  intros Hq Hp Hk. destruct (promote_run cfg w c id mode t Hq Hp Hk) as (db' & Hrun & Hw & Hl & Ho & Ht & _).
  exists (with_db w db'). by rewrite with_db_db.
Qed.

(** Preparing a staging table removes duplicates and nothing else: it returns
    how many rows it removed, the rows left have unique keys, are rows of the
    table in order, and for every row of the table one with its key that is at
    least as new is left. *)
Theorem prepare_keeps_newest `{RedisServer} `{PostgresLaws} `{Entropy} (w : world) (id : string)
    (t : table) :
  db_quiet w -> db_tables (w_db w) !! staging_table_name id = Some t ->
  exists w' t', prepare_staging_for_promote_sync id w =
      (inr (Z.of_nat (length (t_rows t)) - Z.of_nat (length (t_rows t'))), w')
    /\ db_tables (w_db w') !! staging_table_name id = Some t'
    /\ newest_of (t_rows t) (t_rows t').
Proof.
  intros Hq Ht. eexists _, (deduped t). split; [by apply prepare_run|].
  rewrite with_db_db. split; [apply lookup_insert_eq|apply dedupe_newest].
Qed.

(** The cleanup of orphan staging tables drops live data: after a replace
    import the staging table is the collection's partition, its job is no longer
    active, and [cleanup_orphan_staging_tables_sync] drops it with its rows. *)
Theorem cleanup_drops_live_partition :
  exists w w1 w2,
    w = in_db staged_db
    /\ @promote_staging_sync reference_postgres default_settings "roads" "j1" "replace" w
       = (inr 2, w1)
    /\ live_rows (w_db w1) "roads" = t_rows new_roads
    /\ @cleanup_orphan_staging_tables_sync reference_postgres [] w1 = (inr 1, w2)
    /\ live_rows (w_db w2) "roads" = [].
Proof.
  eexists _, _, _. split; [reflexivity|].
  split; [apply run_fst; vm_compute; reflexivity|]. split; [vm_compute; reflexivity|].
  split; [apply run_fst; vm_compute; reflexivity|]. vm_compute. reflexivity.
Qed.

(** ** Witnesses *)

Lemma staged_db_promotable : promotable staged_db "roads" "j1" new_roads.
Proof.
  split; [exact staged_db_wf|exact staged_db_plain|done|by eexists|exact staged_db_ready|done].
Qed.

Lemma promote_publishes_witness :
  exists w', @promote_staging_sync reference_postgres default_settings "roads" "j1" "replace"
      (in_db staged_db) = (inr 2, w')
    /\ live_rows (w_db w') "roads" = t_rows new_roads
    /\ (forall c', c' <> "roads" -> live_rows (w_db w') c' = live_rows staged_db c')
    /\ ("replace" <> "replace" -> db_tables (w_db w') !! staging_table_name "j1" = None)
    /\ db_wf (w_db w') /\ w_redis w' = ∅.
Proof.
  apply (@promote_publishes reference_server reference_postgres reference_postgres_laws
    reference_entropy default_settings (in_db staged_db) "roads" "j1" "replace" new_roads);
    [reflexivity|exact staged_db_promotable|by vm_compute].
Defined.

Definition repeated : table :=
  Table [Row "1" "roads" 0 1 "a"; Row "1" "roads" 0 3 "b"; Row "2" "roads" 0 1 "c"] false [].

Lemma prepare_keeps_newest_witness :
  exists w' t', @prepare_staging_for_promote_sync reference_postgres "j1"
      (in_db (one_part "roads" "features_roads" old_roads {[ "bulk_staging_j1" := repeated ]} [])) =
      (inr (3 - Z.of_nat (length (t_rows t'))), w')
    /\ db_tables (w_db w') !! "bulk_staging_j1" = Some t'
    /\ newest_of (t_rows repeated) (t_rows t').
Proof.
  apply (@prepare_keeps_newest reference_server reference_postgres reference_postgres_laws
    reference_entropy (in_db (one_part "roads" "features_roads" old_roads
      {[ "bulk_staging_j1" := repeated ]} [])) "j1" repeated); reflexivity.
Defined.
