(* ===== verification/FinalizeWorker.v ===== *)
(** * Promotion jobs (app/services/bulk_finalize_worker.py)

    The single consumer of the finalize queue: it promotes the staging table of a
    job, refreshes the cached columns of the collection and closes the job, or
    records the error and queues another attempt.  The helpers it calls of
    app/services/bulk_import.py (database retries, feature count),
    app/services/bulk_triggers.py, app/services/bulk_copy_ingest.py
    ([_finalize_after_promote]) and app/services/bulk_worker.py
    ([_queue_tile_build_if_requested]) are here too.  The recomputation of the
    extent (PostGIS, app/crud/collections.py) is the argument
    [recompute_extent]. *)

From S2P Require Import Prelude PyTime Redis Postgres World Database Json Mutex JobStore Queue.
From S2P Require Import BulkQueue FinalizeQueue TileQueue Partitions Staging.

(** [_is_retryable_db_error] *)
Definition is_retryable_db_error (e : exn) : bool :=
  is_db_error e ||
  existsb (fun frag => contains frag (lower (exn_str e)))
    ["server closed the connection unexpectedly"; "connection reset"; "connection refused";
     "could not connect"; "network is unreachable"; "terminating connection";
     "connection is closed"; "ssl syscall error"; "deadlock detected"].

Section finalize_worker.
Context `{RedisServer} `{PostgresServer} `{Entropy} (cfg : Settings).
Context (recompute_extent : string -> M unit).

(** ** app/services/bulk_import.py *)

Definition db_max_attempts : Z := Z.max 1 (int_or (bulk_db_retry_max_attempts cfg) 4).
Definition db_base : Z := Z.max 100000 (int_or (bulk_db_retry_base_seconds cfg) (us 1)).
Definition db_max_backoff : Z := Z.max db_base (int_or (bulk_db_retry_max_seconds cfg) (us 30)).

(** The [for attempt] loop; [fuel] is the number of attempts after this one. *)
Fixpoint db_retry {A} (fuel : nat) (attempt : Z) (fn : M A) : M A :=
  try_except fn (fun e =>
    match fuel with
    | O => raise e
    | S fuel' =>
        if negb (is_retryable_db_error e) then raise e
        else sleep_retry attempt db_base db_max_backoff;; db_retry fuel' (attempt + 1) fn
    end).

Definition run_db_retry {A} (fn : M A) : M A := db_retry (Z.to_nat (db_max_attempts - 1)) 1 fn.

Definition update_feature_count_sync (c : string) : M unit :=
  run_db_retry (transaction (n ← stmt (CountDistinct c); stmt (SetFeatureCount c n))).

(** ** app/services/bulk_triggers.py *)

Definition refresh_collection_features_last_updated_sync (c : string) : M unit :=
  transaction (stmt (SetLastUpdated c)).

(** ** app/services/bulk_copy_ingest.py *)

Definition finalize_after_promote (c : string) : M unit :=
  update_feature_count_sync c;;
  let extent_mode := lower (str_or (bulk_extent_update_mode cfg) "deferred") in
  when (negb (bool_decide (extent_mode = "deferred")))
    (try_except (recompute_extent c) (fun e =>
       if decide (extent_mode = "immediate") then raise e else mret tt));;
  when (bulk_skip_features_touch_trigger cfg) (refresh_collection_features_last_updated_sync c).

(** ** app/services/bulk_worker.py *)

Definition tile_allowlist : list string :=
  List.filter (fun c => negb (bool_decide (c = "")))
    (map strip (split ","%char (strip (bulk_auto_tile_build_collections cfg)))).

Definition queue_tile_build_if_requested (c : string) (owner : option Z) (requested : bool) : M unit :=
  if negb requested || negb (is_redis cfg) then mret tt
  else if bool_decide (tile_allowlist = []) || negb (bool_decide (c ∈ tile_allowlist)) then mret tt
  else
    try_pass (
      job ← create_tile_build_job cfg c owner;
      update_tile_build_job cfg (job_id job) None (Some "Tile build");;
      enqueue_tile_build cfg c (job_id job) None false;;
      mret tt).

(** ** app/services/bulk_finalize_worker.py *)

Definition finalize_backoff_seconds (attempt u : Z) : Z :=
  let base := Z.max (us 1) (int_or (bulk_finalize_retry_base_seconds cfg) (us 2)) in
  let cap := Z.max base (int_or (bulk_finalize_retry_max_seconds cfg) (us 120)) in
  retry_wait_seconds (Z.max 1 attempt) base cap u.

Definition duplicate_give_up_attempts : Z :=
  Z.max 1 (int_or (bulk_finalize_duplicate_give_up_attempts cfg) 3).

Definition close_finalize (id : string) : M unit :=
  clear_finalize_pending cfg id;; unregister_bulk_import_job cfg id.

Definition up_finalize (s m : string) (created failed : Z) : JobUpdate :=
  Update (Some s) (Some m) None (Some created) (Some failed) None.

Definition abandon (p : BulkFinalizePayload) (reason : string) (created : Z) : M unit :=
  abandon_staging_finalize_job cfg (fp_job_id p) (fp_collection_id p) reason created (fp_items_failed p).

(** The part after the preparation of the staging table. *)
Definition finalize_promote (p : BulkFinalizePayload) (staged : Z) : M unit :=
  count ← promote_staging_sync cfg (fp_collection_id p) (fp_job_id p) (fp_mode p);
  finalize_after_promote (fp_collection_id p);;
  let n := int_or count (int_or (fp_items_created p) staged) in
  update_job cfg (fp_job_id p) (up_finalize "completed"
    ("Imported " +:+ comma n +:+ " features."
     +:+ (if fp_items_failed p =? 0 then "" else " " +:+ str_of_Z (fp_items_failed p) +:+ " failed."))
    n (fp_items_failed p));;
  close_finalize (fp_job_id p);;
  queue_tile_build_if_requested (fp_collection_id p) (fp_owner_id p) (fp_queue_compute_tiles p).

(** The body of the [try]. *)
Definition finalize_body (p : BulkFinalizePayload) : M unit :=
  staged ← staging_row_count_sync (fp_job_id p);
  if staged <=? 0 then
    update_job cfg (fp_job_id p) (up_finalize "completed"
      "Finalize skipped: staging table empty (already promoted?)."
      (fp_items_created p) (fp_items_failed p));;
    close_finalize (fp_job_id p)
  else
    update_job cfg (fp_job_id p) (up_finalize "finalizing"
      ("Swapping " +:+ comma staged +:+ " staged features into live partition…")
      (int_or (fp_items_created p) staged) (fp_items_failed p));;
    prepared ← try_except (inr <$> prepare_staging_for_promote_sync (fp_job_id p)) (fun e =>
      match e with
      | StagingDuplicateUnrecoverableError m => mret (inl m)
      | _ => raise e
      end);
    match prepared with
    | inl m => abandon p m (int_or (fp_items_created p) staged)
    | inr _ => finalize_promote p staged
    end.

Definition duplicates_persisted (p : BulkFinalizePayload) (err : string) : string :=
  "Duplicate staging primary keys persisted after " +:+ str_of_Z (fp_attempt p + 1)
  +:+ " finalize attempts. " +:+ str_take 200 err.

(** The last lines of the [except Exception] clause. *)
Definition finalize_failed (p : BulkFinalizePayload) (e : exn) (err : string) : M unit :=
  record_finalize_error cfg (fp_job_id p) err (fp_attempt p);;
  update_job cfg (fp_job_id p) (up_finalize "finalizing"
    ("Partition swap failed (attempt " +:+ str_of_Z (fp_attempt p + 1)
     +:+ "); will retry automatically. " +:+ str_take 300 err)
    (fp_items_created p) (fp_items_failed p));;
  raise e.

(** The [except] clauses. *)
Definition finalize_error (p : BulkFinalizePayload) (e : exn) : M unit :=
  match e with
  | BulkImportCancelled =>
      try_pass (drop_staging_table_sync (fp_job_id p));;
      close_finalize (fp_job_id p)
  | StagingDuplicateUnrecoverableError m => abandon p m (fp_items_created p)
  | _ =>
      let err := exn_name e +:+ ": " +:+ exn_str e in
      if is_staging_pk_duplicate_error e then
        prepared ← try_except (inr <$> prepare_staging_for_promote_sync (fp_job_id p)) (fun e' =>
          match e' with
          | StagingDuplicateUnrecoverableError m => mret (inl m)
          | _ => raise e'
          end);
        match prepared with
        | inl m => abandon p m (fp_items_created p)
        | inr _ =>
            if duplicate_give_up_attempts <=? fp_attempt p
            then abandon p (duplicates_persisted p err) (fp_items_created p)
            else finalize_failed p e err
        end
      else finalize_failed p e err
  end.

Definition is_cancelled (job : option JobInfo) : bool :=
  match job with Some j => bool_decide (status j = "cancelled") | None => false end.

Definition process_bulk_finalize_job (p : BulkFinalizePayload) : M unit :=
  job ← get_job cfg (fp_job_id p);
  if is_cancelled job then
    drop_staging_table_sync (fp_job_id p);;
    close_finalize (fp_job_id p)
  else try_except (finalize_body p) (finalize_error p).

Definition next_attempt (p : BulkFinalizePayload) : BulkFinalizePayload :=
  {| fp_job_id := fp_job_id p; fp_collection_id := fp_collection_id p; fp_mode := fp_mode p;
     fp_items_created := fp_items_created p; fp_items_failed := fp_items_failed p;
     fp_owner_id := fp_owner_id p; fp_queue_compute_tiles := fp_queue_compute_tiles p;
     fp_attempt := fp_attempt p + 1 |}.

Definition requeue_finalize_after_failure (p : BulkFinalizePayload) : M unit :=
  (fun w => (inr tt, slept w (finalize_backoff_seconds (fp_attempt p + 1) (jitter_nth (w_jitters w)))));;
  enqueue_finalize cfg (next_attempt p) true;;
  mret tt.
End finalize_worker.

(** ** Steps of a promotion in a quiet world *)

(** A key that has no time to live. *)
Definition never_expires (ks : keyspace) (key : string) : Prop :=
  match ks !! key with Some e => e_exp e = None | None => True end.

Lemma never_expires_frame ks ks' key :
  ks' !! key = ks !! key -> never_expires ks key -> never_expires ks' key.
Proof. unfold never_expires. by intros ->. Qed.

Lemma never_expires_put_keep now ks key v : never_expires ks key -> never_expires (put_keep now ks key v) key.
Proof.
  unfold never_expires, put_keep, put. rewrite lookup_insert_eq. cbn [e_exp]. unfold peek.
  destruct (ks !! key) as [e|]; [|done]. intros He. cbn. by destruct (live now e).
Qed.

Lemma never_expires_stored now d ks id j :
  never_expires ks (redis_key id) -> job_stored now ks id j -> job_stored (now + d) ks id j.
Proof.
  intros Hn (h & Hh & Hrest). exists h. split; [|done]. rewrite <-Hh. apply as_hash_peek.
  unfold peek_val, peek, never_expires in *. destruct (ks !! redis_key id) as [[v x]|]; [|done].
  cbn in *. by subst x.
Qed.

Section steps.
Context `{RedisLaws} `{PostgresLaws} `{Entropy} (cfg : Settings) (recompute_extent : string -> M unit).
Context (Hredis : is_redis cfg = true).

(** One update of a stored job: the job and the mutex of its collection are the
    only keys it may change. *)
Lemma update_step w id u j :
  quiet w -> job_stored (w_now w) (w_redis w) id j ->
  lock_typed (w_now w) (w_redis w) (collection_id j) -> dt_range (utcnow (w_now w)) -> update_ok u ->
  exists ks', update_job cfg id u w = (inr (Some (apply_redis (w_now w) u j)), with_redis w ks')
    /\ job_stored (w_now w) ks' id (apply_redis (w_now w) u j)
    /\ lock_typed (w_now w) ks' (collection_id j)
    /\ (forall k, k <> redis_key id -> k <> mutex_key (collection_id j) -> ks' !! k = w_redis w !! k)
    /\ (lock_of (w_now w) ks' (collection_id j) = lock_of (w_now w) (w_redis w) (collection_id j)
        \/ lock_of (w_now w) ks' (collection_id j) = None)
    /\ (forall s, u_status u = Some s -> is_finishing s = true -> collection_id j <> "" ->
          fst <$> lock_of (w_now w) ks' (collection_id j) <> Some id)
    /\ (never_expires (w_redis w) (redis_key id) -> never_expires ks' (redis_key id)).
Proof.
  intros Hq (h & Hh & Hne & Hp) Ht Hnow Hu. eexists.
  split; [by apply (update_job_quiet cfg Hredis w id u j h)|].
  split; [by apply update_ks_stored|]. unfold update_ks.
  set (ks1 := if no_update u then w_redis w else _).
  assert (forall k, k <> redis_key id -> ks1 !! k = w_redis w !! k) as Hk1.
  { intros k Hk. unfold ks1. destruct (no_update u); [done|]. unfold put_keep, put.
    by rewrite lookup_insert_ne. }
  destruct (lock_frame (w_now w) (w_redis w) ks1 (collection_id j)) as [Hl1 Ht1];
    [apply Hk1; auto with geofast|].
  split; [|split].
  - unfold after_release. destruct (u_status u) as [s|]; [case_match; [apply lock_typed_delete|]|];
      by apply Ht1.
  - intros k Hk Hm. rewrite after_release_frame by done. by apply Hk1.
  - split.
    + rewrite <-Hl1. unfold after_release. destruct (u_status u); [|by left].
      case_match; [right; apply lock_of_delete|by left].
    + split; [intros s Hs Hf Hc; rewrite Hs, after_release_lock by done; by case_bool_decide|].
      intros Hn. eapply never_expires_frame; [apply after_release_frame; auto with geofast|].
      unfold ks1. destruct (no_update u); [done|]. by apply never_expires_put_keep.
Qed.

(** A status that does not finish the job leaves the mutex alone too. *)
Lemma update_live w id u j s :
  quiet w -> job_stored (w_now w) (w_redis w) id j ->
  lock_typed (w_now w) (w_redis w) (collection_id j) -> dt_range (utcnow (w_now w)) -> update_ok u ->
  u_status u = Some s -> is_finishing s = false ->
  exists ks', update_job cfg id u w = (inr (Some (apply_redis (w_now w) u j)), with_redis w ks')
    /\ job_stored (w_now w) ks' id (apply_redis (w_now w) u j)
    /\ (forall k, k <> redis_key id -> ks' !! k = w_redis w !! k).
Proof.
  intros Hq (h & Hh & Hne & Hp) Ht Hnow Hu Hs Hf. eexists.
  split; [by apply (update_job_quiet cfg Hredis w id u j h)|].
  split; [by apply update_ks_stored|]. intros k Hk. unfold update_ks, after_release. rewrite Hs, Hf.
  cbn [andb]. destruct (no_update u); [done|]. unfold put_keep, put. by rewrite lookup_insert_ne.
Qed.

Lemma del_quiet w l : quiet w -> redis (Del l) w = (inr tt, with_redis w (foldr delete (w_redis w) l)).
Proof. intros Hq. apply redis_ok; [done|]. by autorewrite with redis_exec. Qed.

Lemma close_quiet w id :
  quiet w ->
  close_finalize cfg id w =
  (inr tt, with_redis w (delete (reg_key id) (delete (dedupe_key id) (delete (state_key id) (w_redis w))))).
Proof.
  intros Hq. unfold close_finalize, clear_finalize_pending, unregister_bulk_import_job.
  rewrite Hredis. cbn [negb]. rewrite bind_run, try_pass_run, del_quiet by done. cbn [snd].
  rewrite try_pass_run, del_quiet by done. done.
Qed.

Lemma row_count_run w id t :
  db_quiet w -> db_tables (w_db w) !! staging_table_name id = Some t ->
  staging_row_count_sync id w = (inr (Z.of_nat (length (t_rows t))), w).
Proof.
  intros Hq Ht. apply transaction_same; [done|].
  rewrite tx_bind_run, (stmt_ok (TableExists _) (w_db w) true (w_db w)); [|done|].
  - cbn [negb]. apply stmt_ok; [done|]. cbn [sql_run]. unfold with_table. by rewrite Ht.
  - cbn [sql_run]. by rewrite (has_table_true _ _ _ Ht).
Qed.

(** The cached columns of the collections. *)
Definition with_count (db : database) (c : string) : database :=
  set_collections db
    (alter (fun r => CollRow (Z.of_nat (length (remove_dups (map r_id (live_rows db c)))))
                      (features_last_updated_at r)) c (db_collections db)).
Definition with_last_updated (db : database) (c : string) : database :=
  set_collections db
    (alter (fun r => CollRow (feature_count r) (max_updated (live_rows db c))) c (db_collections db)).
Definition refreshed (db : database) (c : string) : database :=
  if bulk_skip_features_touch_trigger cfg then with_last_updated (with_count db c) c
  else with_count db c.

Lemma live_rows_refreshed db c c' : live_rows (refreshed db c) c' = live_rows db c'.
Proof. unfold refreshed. by case_match. Qed.

Lemma refreshed_count db c r :
  db_collections db !! c = Some r ->
  feature_count <$> db_collections (refreshed db c) !! c =
  Some (Z.of_nat (length (remove_dups (map r_id (live_rows db c))))).
Proof.
  intros Hr. unfold refreshed. case_match; cbn; rewrite !lookup_alter_eq, Hr; done.
Qed.

Lemma db_retry_ok {A} fuel k (fn : M A) w a w' :
  fn w = (inr a, w') -> db_retry cfg fuel k fn w = (inr a, w').
Proof. intros Hf. destruct fuel; cbn [db_retry]; by apply try_except_ok. Qed.

Lemma after_promote_quiet w c :
  db_quiet w -> bulk_extent_update_mode cfg = "deferred" ->
  finalize_after_promote cfg recompute_extent c w = (inr tt, with_db w (refreshed (w_db w) c)).
Proof.
  intros Hq Hm. unfold finalize_after_promote, update_feature_count_sync, run_db_retry.
  rewrite bind_run. rewrite (db_retry_ok _ _ _ _ tt (with_db w (with_count (w_db w) c))).
  2: { apply transaction_ok; [done|].
       rewrite tx_bind_run, (stmt_ok (CountDistinct c) (w_db w) _ (w_db w) eq_refl eq_refl).
       by apply stmt_ok. }
  rewrite Hm. change (lower (str_or "deferred" "deferred")) with "deferred".
  rewrite bind_run, bool_decide_eq_true_2 by done. cbn [negb when]. rewrite ret_run.
  unfold refreshed, when. case_match; [|done].
  unfold refresh_collection_features_last_updated_sync. erewrite transaction_ok; [reflexivity|done|]. by apply stmt_ok.
Qed.

(** What a completed promotion leaves. *)
Record promoted_ok (w w' : world) (p : BulkFinalizePayload) (t : table) : Prop := {
  po_live : live_rows (w_db w') (fp_collection_id p) =
            promoted (fp_mode p) (live_rows (w_db w) (fp_collection_id p)) (t_rows t);
  po_other c' : c' <> fp_collection_id p -> live_rows (w_db w') c' = live_rows (w_db w) c';
  po_job : exists j', job_stored (w_now w') (w_redis w') (fp_job_id p) j'
             /\ status j' = "completed" /\ items_created j' = Z.of_nat (length (t_rows t))
             /\ is_Some (finished_at j');
  po_pending : finalize_pending (w_now w') (w_redis w') (fp_job_id p) = false;
  po_reg : peek (w_now w') (w_redis w') (reg_key (fp_job_id p)) = None;
  po_count r : db_collections (w_db w) !! fp_collection_id p = Some r ->
    feature_count <$> db_collections (w_db w') !! fp_collection_id p =
    Some (Z.of_nat (length (remove_dups (map r_id (live_rows (w_db w') (fp_collection_id p))))))
}.

(** Publishing the staged rows and closing the job, whatever comes next. *)
Lemma promote_then {B} w p t j (u : Z -> JobUpdate) (k : M B) :
  let n := Z.of_nat (length (t_rows t)) in
  quiet w -> db_quiet w -> job_stored (w_now w) (w_redis w) (fp_job_id p) j ->
  lock_typed (w_now w) (w_redis w) (collection_id j) -> dt_range (utcnow (w_now w)) ->
  promotable (w_db w) (fp_collection_id p) (fp_job_id p) t ->
  keys_unique (promoted (fp_mode p) (live_rows (w_db w) (fp_collection_id p)) (t_rows t)) = true ->
  bulk_extent_update_mode cfg = "deferred" ->
  update_ok (u n) -> u_status (u n) = Some "completed" -> u_items_created (u n) = Some n ->
  exists w', (count ← promote_staging_sync cfg (fp_collection_id p) (fp_job_id p) (fp_mode p);
              finalize_after_promote cfg recompute_extent (fp_collection_id p);;
              update_job cfg (fp_job_id p) (u count);;
              close_finalize cfg (fp_job_id p);; k) w = k w'
    /\ promoted_ok w w' p t.
Proof.
  intros n Hq Hdq Hj Hl Hnow Hp Hk Hm Hu Hs Hi.
  destruct (promote_run cfg w _ _ _ _ Hdq Hp Hk) as (db' & Hrun & Hw & Hlive & Hother & _ & Hcol).
  set (w1 := with_db w (refreshed db' (fp_collection_id p))).
  rewrite bind_run, Hrun, bind_run, after_promote_quiet by done. rewrite with_db_db, with_db_twice. fold w1 n.
  assert (forall c', live_rows (w_db w1) c' = live_rows db' c') as Hlr by (intros; apply live_rows_refreshed).
  destruct (update_step w1 (fp_job_id p) (u n) j) as (ks' & Hup & Hj' & _ & _); try done.
  rewrite bind_run, Hup, bind_run, close_quiet by done.
  eexists. split; [reflexivity|]. split; cbn [with_redis w_now w_redis w_services].
  - by rewrite Hlr.
  - intros c' Hc'. rewrite Hlr. by apply Hother.
  - eexists. split; [eapply job_stored_frame; [|exact Hj']|].
    + rewrite !lookup_delete_ne; [done|by key_neq|by key_neq|by key_neq].
    + cbn [apply_redis status items_created finished_at]. rewrite Hs, Hi.
      split; [done|]. split; [done|]. destruct (u_finished_at (u n)); [by eexists|].
      destruct (finished_at j); by eexists.
  - unfold finalize_pending. apply bool_decide_eq_false_2.
    rewrite peek_delete_ne by by key_neq. rewrite peek_delete_eq. by intros [].
  - apply peek_delete_eq.
  - intros r Hr. rewrite Hlr. apply (refreshed_count _ _ r). by rewrite Hcol.
Qed.

(** The end of a promotion, after the update to ["finalizing"]. *)
Lemma finalize_promote_quiet w p t j :
  quiet w -> db_quiet w -> job_stored (w_now w) (w_redis w) (fp_job_id p) j ->
  lock_typed (w_now w) (w_redis w) (collection_id j) -> dt_range (utcnow (w_now w)) ->
  promotable (w_db w) (fp_collection_id p) (fp_job_id p) t ->
  keys_unique (promoted (fp_mode p) (live_rows (w_db w) (fp_collection_id p)) (t_rows t)) = true ->
  bulk_extent_update_mode cfg = "deferred" -> fp_queue_compute_tiles p = false ->
  exists w', finalize_promote cfg recompute_extent p (Z.of_nat (length (t_rows t))) w = (inr tt, w')
    /\ promoted_ok w w' p t.
Proof.
  intros Hq Hdq Hj Hl Hnow Hp Hk Hm Ht. set (n := Z.of_nat (length (t_rows t))).
  assert (n <> 0) as Hn0 by (unfold n; destruct (t_rows t) eqn:He; [by destruct (pr_rows _ _ _ _ Hp)|simpl; lia]).
  set (u := fun count => let m := int_or count (int_or (fp_items_created p) n) in up_finalize "completed"
    ("Imported " +:+ comma m +:+ " features."
     +:+ (if fp_items_failed p =? 0 then "" else " " +:+ str_of_Z (fp_items_failed p) +:+ " failed."))
    m (fp_items_failed p)).
  destruct (promote_then w p t j u (queue_tile_build_if_requested cfg (fp_collection_id p) (fp_owner_id p)
    (fp_queue_compute_tiles p)) Hq Hdq Hj Hl Hnow Hp Hk Hm) as (w' & Hrun & Hok); [done|done| |].
  { cbn. unfold int_or. by rewrite decide_False. }
  exists w'. split; [|done]. etransitivity; [exact Hrun|].
  unfold queue_tile_build_if_requested. by rewrite Ht.
Qed.

(** A whole promotion. *)
Lemma finalize_run w p t j :
  quiet w -> db_quiet w ->
  job_stored (w_now w) (w_redis w) (fp_job_id p) j -> status j <> "cancelled" ->
  lock_typed (w_now w) (w_redis w) (collection_id j) -> dt_range (utcnow (w_now w)) ->
  promotable (w_db w) (fp_collection_id p) (fp_job_id p) t ->
  keys_unique (promoted (fp_mode p) (live_rows (w_db w) (fp_collection_id p)) (t_rows t)) = true ->
  bulk_extent_update_mode cfg = "deferred" -> fp_queue_compute_tiles p = false ->
  exists w', process_bulk_finalize_job cfg recompute_extent p w = (inr tt, w')
    /\ promoted_ok w w' p t.
Proof.
  intros Hq Hdq Hj Hst Hl Hnow Hp Hk Hm Ht. pose proof (pr_staged _ _ _ _ Hp) as [Htab Hkt _ _].
  assert (0 < Z.of_nat (length (t_rows t))) as Hlen.
  { destruct (t_rows t) eqn:He; [by destruct (pr_rows _ _ _ _ Hp)|simpl; lia]. }
  unfold process_bulk_finalize_job. rewrite bind_run, (get_job_quiet cfg Hredis _ _ j) by done.
  cbn [is_cancelled]. rewrite bool_decide_eq_false_2 by done.
  destruct (update_step w (fp_job_id p) (up_finalize "finalizing"
      ("Swapping " +:+ comma (Z.of_nat (length (t_rows t))) +:+ " staged features into live partition…")
      (int_or (fp_items_created p) (Z.of_nat (length (t_rows t)))) (fp_items_failed p)) j)
    as (ks1 & Hu & Hj1 & Hl1 & _); try done.
  destruct (finalize_promote_quiet (with_redis w ks1) p t _ Hq Hdq Hj1 Hl1
    Hnow Hp Hk Hm Ht) as (w' & Hrun & Hok).
  exists w'. split; [|by destruct Hok; split].
  apply try_except_ok. unfold finalize_body. rewrite bind_run, (row_count_run _ _ t) by done.
  rewrite (proj2 (Z.leb_gt _ _) Hlen). rewrite bind_run, Hu. rewrite bind_run.
  rewrite (try_except_ok _ _ _ (inr 0) (with_redis w ks1)); [exact Hrun|].
  by rewrite fmap_run, (prepare_unique _ _ t).
Qed.

End steps.

(** ** A failed attempt *)

(** A queue that never expires, and a hash under a key, at any time. *)
Definition standing_queue (ks : keyspace) (key : string) (l : list string) : Prop :=
  match ks !! key with
  | None => l = []
  | Some (Entry (VList l') None) => l' = l
  | _ => False
  end.
Definition hash_typed (ks : keyspace) (key : string) : Prop :=
  match ks !! key with None => True | Some e => exists h, e_val e = VHash h end.

Lemma standing_queue_at ks key l now : standing_queue ks key l -> queue_at key now ks = inr l.
Proof.
  unfold standing_queue, queue_at, as_list, peek_val, peek.
  destruct (ks !! key) as [[[] []]|]; simpl; try done; by intros ->.
Qed.

Lemma hash_typed_at ks key now : hash_typed ks key -> exists h, as_hash now ks key = inr h.
Proof.
  unfold hash_typed, as_hash, peek_val, peek. destruct (ks !! key) as [[v x]|]; [|by eexists].
  simpl. intros [h ->]. destruct (live now _); simpl; by eexists.
Qed.

Lemma hash_typed_put now ks key h : hash_typed (put_keep now ks key (VHash h)) key.
Proof. unfold hash_typed, put_keep, put. rewrite lookup_insert_eq. by exists h. Qed.

Lemma hash_typed_as_hash now ks key h : as_hash now ks key = inr h -> h <> ∅ -> hash_typed ks key.
Proof.
  unfold hash_typed, as_hash, peek_val, peek. destruct (ks !! key) as [e|]; [|done]. cbn.
  destruct (live now e); cbn; [|by intros [= <-]]. destruct (e_val e); try done. by eexists.
Qed.

Lemma hash_typed_frame ks ks' key : ks' !! key = ks !! key -> hash_typed ks key -> hash_typed ks' key.
Proof. unfold hash_typed. by intros ->. Qed.
Lemma standing_queue_frame ks ks' key l :
  ks' !! key = ks !! key -> standing_queue ks key l -> standing_queue ks' key l.
Proof. unfold standing_queue. by intros ->. Qed.

Lemma standing_put_keep now ks key l l' :
  standing_queue ks key l -> standing_queue (put_keep now ks key (VList l')) key l'.
Proof.
  unfold standing_queue, put_keep, put. rewrite lookup_insert_eq. unfold peek.
  destruct (ks !! key) as [[v x]|]; [|done]. destruct v, x; try done.
Qed.

Lemma standing_put_list now ks key l l' :
  standing_queue ks key l -> standing_queue (put_list now ks key l') key l'.
Proof.
  intros Hl. unfold put_list. destruct l'; [|by eapply standing_put_keep].
  unfold standing_queue. by rewrite lookup_delete_eq.
Qed.

Section failure.
Context `{RedisLaws} `{PostgresLaws} `{Entropy} (cfg : Settings) (recompute_extent : string -> M unit).
Context (Hredis : is_redis cfg = true).

Lemma enqueue_forced w p l :
  quiet w -> hash_typed (w_redis w) (state_key (fp_job_id p)) ->
  standing_queue (w_redis w) FINALIZE_QUEUE_KEY l ->
  exists ks', enqueue_finalize cfg p true w = (inr true, with_redis w ks')
    /\ finalize_pending (w_now w) ks' (fp_job_id p) = true
    /\ standing_queue ks' FINALIZE_QUEUE_KEY (finalize_to_json p :: l)
    /\ hash_typed ks' (state_key (fp_job_id p))
    /\ (forall k, k <> dedupe_key (fp_job_id p) -> k <> state_key (fp_job_id p) ->
          k <> FINALIZE_QUEUE_KEY -> ks' !! k = w_redis w !! k).
Proof.
  intros Hq Hh Hl. destruct (hash_typed_at _ _ (w_now w) Hh) as [h Hh'].
  destruct (mark_pending_quiet cfg Hredis w p h Hq Hh') as (ks1 & Hm & Hpend & Hm1 & Hf).
  assert (standing_queue ks1 FINALIZE_QUEUE_KEY l) as Hl1.
  { eapply standing_queue_frame; [|exact Hl]. apply Hf; auto with geofast. }
  eexists. split; [|split; [|split; [by eapply standing_put_keep|split]]].
  - unfold enqueue_finalize. rewrite Hredis. apply run_redis_retry_ok.
    unfold enqueue_finalize_run. rewrite bind_run, ret_run, bind_run, Hm, bind_run.
    by rewrite (lpush_quiet FINALIZE_QUEUE_KEY (with_redis w ks1) _ l) by (try apply standing_queue_at; done).
  - unfold finalize_pending in *. cbn [w_now w_redis with_redis].
    rewrite peek_put_keep_ne; auto with geofast.
  - eapply hash_typed_frame; [apply lookup_insert_ne; by key_neq|].
    eapply hash_typed_as_hash; [exact Hm1|]. intros He.
    apply (f_equal (lookup "updated_at")) in He. rewrite lookup_empty in He.
    unfold hset_all, finalize_mapping in He. cbn [foldl] in He. by rewrite lookup_insert_eq in He.
  - intros k Hd Hs Hk. unfold put_keep, put. rewrite lookup_insert_ne by done. by apply Hf.
Qed.

Lemma record_error_quiet w id err n h :
  quiet w -> as_hash (w_now w) (w_redis w) (state_key id) = inr h ->
  exists h', record_finalize_error cfg id err n w =
    (inr tt, with_redis w (put_keep (w_now w) (w_redis w) (state_key id) (VHash h'))).
Proof.
  intros Hq Hh. eexists. unfold record_finalize_error. rewrite Hredis. cbn [negb].
  rewrite bind_run, get_now_run. apply run_redis_retry_ok.
  apply redis_ok; [done|]. autorewrite with redis_exec. by rewrite Hh.
Qed.

Lemma state_redis_key id id' : state_key id <> redis_key id'.
Proof. by key_neq. Qed.
Lemma state_mutex_key id c : state_key id <> mutex_key c.
Proof. by key_neq. Qed.
Lemma queue_redis_key id : FINALIZE_QUEUE_KEY <> redis_key id.
Proof. by key_neq. Qed.
Lemma queue_mutex_key c : FINALIZE_QUEUE_KEY <> mutex_key c.
Proof. by key_neq. Qed.
#[local] Hint Resolve state_redis_key state_mutex_key queue_redis_key queue_mutex_key : geofast.

(** The error is recorded, the job stays ["finalizing"] and the exception goes on. *)
Lemma finalize_failed_quiet w p e err j l :
  quiet w -> job_stored (w_now w) (w_redis w) (fp_job_id p) j ->
  lock_typed (w_now w) (w_redis w) (collection_id j) -> dt_range (utcnow (w_now w)) ->
  hash_typed (w_redis w) (state_key (fp_job_id p)) -> standing_queue (w_redis w) FINALIZE_QUEUE_KEY l ->
  exists ks', finalize_failed cfg p e err w = (inl e, with_redis w ks')
    /\ (exists j', job_stored (w_now w) ks' (fp_job_id p) j' /\ status j' = "finalizing"
                   /\ collection_id j' = collection_id j)
    /\ hash_typed ks' (state_key (fp_job_id p)) /\ standing_queue ks' FINALIZE_QUEUE_KEY l
    /\ lock_typed (w_now w) ks' (collection_id j)
    /\ (never_expires (w_redis w) (redis_key (fp_job_id p)) ->
        never_expires ks' (redis_key (fp_job_id p))).
Proof.
  intros Hq Hj Hl Hnow Hh Hs. destruct (hash_typed_at _ _ (w_now w) Hh) as [h Hh'].
  destruct (record_error_quiet w (fp_job_id p) err (fp_attempt p) h Hq Hh') as [h' Hrec].
  unfold finalize_failed. rewrite bind_run, Hrec.
  set (ks1 := put_keep (w_now w) (w_redis w) (state_key (fp_job_id p)) (VHash h')).
  assert (forall k, k <> state_key (fp_job_id p) -> ks1 !! k = w_redis w !! k) as Hk1.
  { intros k Hk. unfold ks1, put_keep, put. by rewrite lookup_insert_ne. }
  match goal with |- context [update_job cfg _ ?u] => set (u1 := u) end.
  destruct (update_step cfg Hredis (with_redis w ks1) (fp_job_id p) u1 j) 
    as (ks2 & Hu & Hj2 & Ht2 & Hk2 & _ & _ & Hn2); try done.
  { eapply job_stored_frame; [|exact Hj]. apply Hk1. apply not_eq_sym, state_redis_key. }
  { eapply (lock_frame (w_now w) (w_redis w)); [|done]. apply Hk1. apply not_eq_sym, state_mutex_key. }
  exists ks2. rewrite bind_run, Hu. split; [done|]. split; [by eexists|].
  cbn [with_redis w_redis] in Hk2. split; [|split; [|split; [done|]]].
  - unfold hash_typed. rewrite Hk2 by auto with geofast. apply (hash_typed_put (w_now w) (w_redis w)).
  - unfold standing_queue. rewrite Hk2 by auto with geofast. rewrite Hk1 by (by key_neq). exact Hs.
  - intros Hn. apply Hn2. eapply never_expires_frame; [|exact Hn]. apply Hk1. by key_neq.
Qed.

(** A transaction that fails at the head of the schedule. *)
Lemma transaction_aborts {A} (t : TX A) w e ts :
  s_db_sched (w_services w) = DbTick (fun db => db) (Aborts e) :: ts ->
  transaction t w =
  (inl (exn_of_sql e), with_services w (Services (w_db w) ts (w_files w) (w_tables w))).
Proof. intros Hs. unfold transaction, next_db_tick. by rewrite Hs. Qed.

(** A promotion whose payload a worker has taken, of a job of collection [c]:
    what an attempt needs of Redis, and leaves when it fails. *)
Record attempt_ready (w : world) (p : BulkFinalizePayload) (c : string) (l : list string) : Prop := {
  ar_quiet : quiet w;
  ar_job : exists j, job_stored (w_now w) (w_redis w) (fp_job_id p) j /\ status j <> "cancelled"
             /\ collection_id j = c;
  ar_lock : lock_typed (w_now w) (w_redis w) c;
  ar_state : hash_typed (w_redis w) (state_key (fp_job_id p));
  ar_queue : standing_queue (w_redis w) FINALIZE_QUEUE_KEY l
}.

(** The wait before attempt [attempt_number] in the world [w]. *)
Definition backoff_in (w : world) (p : BulkFinalizePayload) : Z :=
  finalize_backoff_seconds cfg (fp_attempt p + 1) (jitter_nth (w_jitters w)).

Lemma failed_attempt w p c l e ts :
  attempt_ready w p c l -> s_db_sched (w_services w) = DbTick (fun db => db) (Aborts e) :: ts ->
  is_staging_pk_duplicate_error (exn_of_sql e) = false -> dt_range (utcnow (w_now w)) ->
  exists w1 ks2, let w2 := with_redis (slept w1 (backoff_in w1 p)) ks2 in
    process_bulk_finalize_job cfg recompute_extent p w = (inl (exn_of_sql e), w1)
    /\ (exists j, job_stored (w_now w1) (w_redis w1) (fp_job_id p) j /\ status j = "finalizing")
    /\ w_services w1 = Services (w_db w) ts (w_files w) (w_tables w) /\ w_now w1 = w_now w
    /\ requeue_finalize_after_failure cfg p w1 = (inr tt, w2)
    /\ standing_queue ks2 FINALIZE_QUEUE_KEY (finalize_to_json (next_attempt p) :: l)
    /\ finalize_pending (w_now w2) ks2 (fp_job_id p) = true
    /\ (never_expires (w_redis w) (redis_key (fp_job_id p)) -> 0 <= backoff_in w1 p ->
        attempt_ready w2 (next_attempt p) c (finalize_to_json (next_attempt p) :: l)
        /\ never_expires ks2 (redis_key (fp_job_id p))).
Proof.
  intros [Hq (j & Hj & Hst & Hc) Hl Hh Hstand] Hs Hdup Hnow. subst c.
  set (w0 := with_services w (Services (w_db w) ts (w_files w) (w_tables w))).
  set (err := exn_name (exn_of_sql e) +:+ ": " +:+ exn_str (exn_of_sql e)).
  destruct (finalize_failed_quiet w0 p (exn_of_sql e) err j l)
    as (ks1 & Hrun & (j' & Hj' & Hs' & Hc') & Hh1 & Hs1 & Ht1 & Hn1); try done.
  set (w1 := with_redis w0 ks1) in *.
  destruct (enqueue_forced (slept w1 (backoff_in w1 p)) (next_attempt p) l)
    as (ks2 & Henq & Hpend & Hq2 & Hh2 & Hf2); try done.
  cbn [slept with_redis w_redis w_now w1] in Hf2.
  exists w1, ks2. split; [|split; [by exists j'|split; [done|split; [done|]]]].
  - unfold process_bulk_finalize_job. rewrite bind_run, (get_job_quiet cfg Hredis _ _ j) by done.
    cbn [is_cancelled]. rewrite bool_decide_eq_false_2 by done.
    rewrite (try_except_err _ _ _ (exn_of_sql e) w0).
    + unfold finalize_error. rewrite Hdup. destruct e; exact Hrun.
    + unfold finalize_body, staging_row_count_sync. by rewrite bind_run, (transaction_aborts _ _ e ts).
  - split.
    { unfold requeue_finalize_after_failure. rewrite bind_run. fold (backoff_in w1 p).
      by rewrite bind_run, Henq. }
    split; [done|]. split; [done|]. intros Hn Hd. specialize (Hn1 Hn).
    split; [|eapply never_expires_frame; [|exact Hn1]; apply Hf2; by key_neq].
    split; cbn [with_redis slept w_now w_redis]; try done.
    + exists j'. split; [|split; [by rewrite Hs'|done]].
      apply never_expires_stored; [eapply never_expires_frame; [|exact Hn1]; apply Hf2; by key_neq|].
      eapply job_stored_frame; [|exact Hj']. apply Hf2; by key_neq.
    + apply lock_typed_later; [done|]. eapply lock_frame; [apply Hf2; by key_neq|exact Ht1].
Qed.
End failure.

(** ** Properties *)

(** C15. A promotion job does all of its work: in a quiet world, for a stored job
    that is not cancelled and a loaded staging table, processing the job ends
    normally; the live rows of the collection are the promoted ones and no other
    collection changes, the stored job is completed with the number of rows and
    a finish time, nothing is pending or registered for it any more and the
    collection's feature count is the number of its distinct features. *)
Theorem finalize_completes `{RedisLaws} `{PostgresLaws} `{Entropy} (cfg : Settings)
    (recompute_extent : string -> M unit) (w : world) (p : BulkFinalizePayload) (t : table)
    (j : JobInfo) :
  is_redis cfg = true -> quiet w -> db_quiet w ->
  job_stored (w_now w) (w_redis w) (fp_job_id p) j -> status j <> "cancelled" ->
  lock_typed (w_now w) (w_redis w) (collection_id j) -> dt_range (utcnow (w_now w)) ->
  promotable (w_db w) (fp_collection_id p) (fp_job_id p) t ->
  keys_unique (promoted (fp_mode p) (live_rows (w_db w) (fp_collection_id p)) (t_rows t)) = true ->
  bulk_extent_update_mode cfg = "deferred" -> fp_queue_compute_tiles p = false ->
  exists w', process_bulk_finalize_job cfg recompute_extent p w = (inr tt, w')
    /\ promoted_ok w w' p t.
Proof. intros Hr. by apply finalize_run. Qed.

(** No promotion is lost to a failing database: when the first transaction
    of an attempt fails for a reason other than duplicate keys, the attempt
    raises that error with the rows of every collection unchanged and the stored
    job ["finalizing"], and the worker's requeue puts the next attempt on the
    finalize queue and marks it pending. *)
Theorem failed_promotion_requeued `{RedisLaws} `{PostgresLaws} `{Entropy} (cfg : Settings)
    (recompute_extent : string -> M unit) (w : world) (p : BulkFinalizePayload) (j : JobInfo)
    (e : sql_error) (l : list string) :
  is_redis cfg = true -> quiet w -> s_db_sched (w_services w) = [DbTick (fun db => db) (Aborts e)] ->
  is_staging_pk_duplicate_error (exn_of_sql e) = false ->
  job_stored (w_now w) (w_redis w) (fp_job_id p) j -> status j <> "cancelled" ->
  lock_typed (w_now w) (w_redis w) (collection_id j) -> dt_range (utcnow (w_now w)) ->
  hash_typed (w_redis w) (state_key (fp_job_id p)) -> standing_queue (w_redis w) FINALIZE_QUEUE_KEY l ->
  exists w1 w2,
    process_bulk_finalize_job cfg recompute_extent p w = (inl (exn_of_sql e), w1)
    /\ (exists j', job_stored (w_now w1) (w_redis w1) (fp_job_id p) j' /\ status j' = "finalizing")
    /\ requeue_finalize_after_failure cfg p w1 = (inr tt, w2)
    /\ finalize_queue_of (w_now w2) (w_redis w2) = inr (finalize_to_json (next_attempt p) :: l)
    /\ finalize_pending (w_now w2) (w_redis w2) (fp_job_id p) = true
    /\ w_db w2 = w_db w.
Proof.
  intros Hr Hq Hs Hdup Hj Hst Hl Hnow Hh Hstand.
  destruct (failed_attempt cfg recompute_extent Hr w p (collection_id j) l e [])
    as (w1 & ks2 & Hrun & Hj1 & Hsv & Hn1 & Hreq & Hq2 & Hp2 & _); try done.
  { split; try done. by exists j. }
  exists w1, (with_redis (slept w1 (backoff_in cfg w1 p)) ks2).
  split; [done|]. split; [done|]. split; [done|]. split; [by apply standing_queue_at|].
  split; [done|]. unfold w_db. cbn [with_redis slept w_services]. by rewrite Hsv.
Qed.

(** An append promotion of job ["j1"] in the demonstration world, where every
    transaction commits but the seventh, the insertion, whose acknowledgement
    is lost. *)
Definition demo_promotion : BulkFinalizePayload :=
  FinalizePayload "j1" "roads" "append" 2 0 None false 0.
Definition append_db : database :=
  one_part "roads" "features_roads" (Table [Row "0" "roads" 0 1 "old"] true [])
    {[ "bulk_staging_j1" := new_roads ]} [].
Definition lost_insert : world :=
  let ok := DbTick (fun db => db) Commits in
  with_services demo_world
    (Services append_db [ok; ok; ok; ok; ok; ok; DbTick (fun db => db) CommitLost] ∅ no_tables).

(** Promotion in append mode is not idempotent: when the acknowledgement of
    the insertion is lost the rows are live, but the retried attempt finds them
    as duplicates, gives the job up as failed and asks for the file again. *)
Theorem append_retry_abandons_live_import :
  exists w1 w2 w3 j,
    @process_bulk_finalize_job reference_server reference_postgres reference_entropy
      default_settings (fun _ => mret tt) demo_promotion lost_insert
    = (inl (exn_of_sql ServerGone), w1)
    /\ live_rows (w_db w1) "roads" = (live_rows append_db "roads" ++ t_rows new_roads)%list
    /\ @process_bulk_finalize_job reference_server reference_postgres reference_entropy
      default_settings (fun _ => mret tt) (next_attempt demo_promotion) w1 = (inr tt, w2)
    /\ live_rows (w_db w2) "roads" = (live_rows append_db "roads" ++ t_rows new_roads)%list
    /\ @get_job reference_server reference_entropy default_settings "j1" w2 = (inr (Some j), w3)
    /\ status j = "failed".
Proof.
  eexists _, _, _, _. split; [apply run_fst; vm_compute; reflexivity|].
  split; [vm_compute; reflexivity|]. split; [apply run_fst; vm_compute; reflexivity|].
  split; [vm_compute; reflexivity|]. split; [apply run_fst; vm_compute; reflexivity|]. reflexivity.
Qed.

(** ** Witnesses *)

Lemma append_db_promotable : promotable append_db "roads" "j1" new_roads.
Proof.
  split; [apply one_part_wf|by apply one_part_plain|done|by eexists| |done]; try done;
    try by repeat constructor.
Qed.

Lemma finalize_completes_witness :
  exists w', @process_bulk_finalize_job reference_server reference_postgres reference_entropy
      default_settings (fun _ => mret tt) demo_promotion (with_db demo_world append_db) = (inr tt, w')
    /\ promoted_ok (with_db demo_world append_db) w' demo_promotion new_roads.
Proof.
  apply (@finalize_completes reference_server reference_laws reference_postgres
    reference_postgres_laws reference_entropy default_settings (fun _ => mret tt)
    (with_db demo_world append_db) demo_promotion new_roads
    (read_job (new_job "j1" "roads" (Some 7) None 0)));
    [reflexivity|reflexivity|reflexivity|exact demo_stored|done|exact demo_lock_typed
    |by vm_compute|exact append_db_promotable|by vm_compute|reflexivity|reflexivity].
Defined.

Definition lock_busy : world :=
  with_services demo_world (Services append_db [DbTick (fun db => db) (Aborts LockTimeout)] ∅ no_tables).

Lemma failed_promotion_requeued_witness :
  exists w1 w2,
    @process_bulk_finalize_job reference_server reference_postgres reference_entropy
      default_settings (fun _ => mret tt) demo_promotion lock_busy
    = (inl (exn_of_sql LockTimeout), w1)
    /\ (exists j', job_stored (w_now w1) (w_redis w1) "j1" j' /\ status j' = "finalizing")
    /\ @requeue_finalize_after_failure reference_server reference_entropy default_settings
         demo_promotion w1 = (inr tt, w2)
    /\ finalize_queue_of (w_now w2) (w_redis w2) =
       inr [finalize_to_json (next_attempt demo_promotion)]
    /\ finalize_pending (w_now w2) (w_redis w2) "j1" = true
    /\ w_db w2 = append_db.
Proof.
  apply (@failed_promotion_requeued reference_server reference_laws reference_postgres
    reference_postgres_laws reference_entropy default_settings (fun _ => mret tt)
    lock_busy demo_promotion (read_job (new_job "j1" "roads" (Some 7) None 0)) LockTimeout []);
    [reflexivity|reflexivity|reflexivity|by vm_compute|exact demo_stored|done|exact demo_lock_typed
    |by vm_compute|exact I|reflexivity].
Defined.
