(* ===== verification/CopyFormat.v ===== *)
(** * COPY text and its reader (app/services/bulk_copy_ingest.py)

    Rows are encoded in the text format of PostgreSQL's COPY and handed to the
    driver through a text stream that encodes them on demand: [read] and
    [readline] of [_RowCopyReader] keep a carry buffer and the rows not yet
    encoded.  [copy_rows] is the documented decoding of the text format. *)

From S2P Require Import Prelude PyTime Redis World Json.

(** ** Rows *)

Inductive cell := CNone | CStr (s : string) | CInt (z : Z).

(** [str(val)] *)
Definition cell_text (c : cell) : option string :=
  match c with CNone => None | CStr s => Some s | CInt z => Some (str_of_Z z) end.

(** [s.replace(c, by)] for one character *)
Fixpoint replace_char (c : Ascii.ascii) (by_ : string) (s : string) : string :=
  match s with
  | EmptyString => EmptyString
  | String a s' =>
      if decide (a = c) then by_ +:+ replace_char c by_ s' else String a (replace_char c by_ s')
  end.

Definition tab : Ascii.ascii := "009"%char.
Definition lf : Ascii.ascii := "010"%char.
Definition cr : Ascii.ascii := "013"%char.

Definition escape_field (s : string) : string :=
  replace_char cr "\r" (replace_char lf "\n" (replace_char tab "\t" (replace_char bs "\\" s))).

(** [_encode_copy_row] *)
Definition encode_cell (c : cell) : string :=
  match cell_text c with None => "\N" | Some s => escape_field s end.
Definition encode_copy_row (row : list cell) : string :=
  join (String tab "") (map encode_cell row) +:+ String lf "".

(** ** The stream *)

(** [len(s)], [s\[n:\]], counting characters. *)
Fixpoint py_len (s : string) : nat :=
  match s with
  | EmptyString => O
  | String c s' => if is_cont c then py_len s' else S (py_len s')
  end.
Fixpoint str_skip (n : nat) (s : string) : string :=
  match s with
  | EmptyString => EmptyString
  | String c s' =>
      if is_cont c then str_skip n s'
      else match n with O => s | S n' => str_skip n' s' end
  end.

Record reader := Reader { rd_rows : list (list cell); rd_carry : string }.

Definition encode_all (rows : list (list cell)) : string :=
  foldr (fun r s => encode_copy_row r +:+ s) "" rows.

(** The [while have < size] loop. *)
Fixpoint fill (size : nat) (buf : string) (have : nat) (rows : list (list cell)) :
  string * list (list cell) :=
  match rows with
  | row :: rows' =>
      if (have <? size)%nat then
        let enc := encode_copy_row row in
        fill size (buf +:+ enc) (have + py_len enc) rows'
      else (buf, rows)
  | [] => (buf, [])
  end.

(** [read(size)]; [None] and negative sizes read everything. *)
Definition read (size : option Z) (r : reader) : string * reader :=
  match size with
  | Some n =>
      if n <? 0 then (rd_carry r +:+ encode_all (rd_rows r), Reader [] "")
      else
        let n := Z.to_nat n in
        let '(buf, rows) := fill n (rd_carry r) (py_len (rd_carry r)) (rd_rows r) in
        if (n <? py_len buf)%nat then (str_take n buf, Reader rows (str_skip n buf))
        else (buf, Reader rows "")
  | None => (rd_carry r +:+ encode_all (rd_rows r), Reader [] "")
  end.

(** The text up to and with the first line feed, and the rest. *)
Fixpoint cut_line (s : string) : option (string * string) :=
  match s with
  | EmptyString => None
  | String c s' =>
      if decide (c = lf) then Some (String c "", s')
      else match cut_line s' with
           | Some (l, rest) => Some (String c l, rest)
           | None => None
           end
  end.

Definition readline (r : reader) : string * reader :=
  match cut_line (rd_carry r) with
  | Some (line, rest) => (line, Reader (rd_rows r) rest)
  | None =>
      match rd_rows r with
      | [] => (rd_carry r, Reader [] "")
      | row :: rows => (rd_carry r +:+ encode_copy_row row, Reader rows "")
      end
  end.

(** What the stream still holds. *)
Definition pending (r : reader) : string := rd_carry r +:+ encode_all (rd_rows r).

(** The driver reads blocks of [size] characters until an empty one. *)
Fixpoint read_blocks (fuel : nat) (size : Z) (r : reader) : option (list string) :=
  match fuel with
  | O => None
  | S fuel' =>
      let '(b, r') := read (Some size) r in
      if decide (b = "") then Some [] else (b ::.) <$> read_blocks fuel' size r'
  end.

(** ** Decoding of the text format

    The documented reading of COPY data, without the octal and hexadecimal
    escapes: fields end with a tab, and a row with a line feed, a carriage return
    or both; a backslash protects the character after it, [\N] alone is null, and a
    row [\.] ends the data.  The server complains when the line ends are not all
    alike, and of a zero byte, which no text may hold. *)

Inductive line_end := Nl | Cr | CrNl.

#[export] Instance line_end_eq_dec : EqDecision line_end.
Proof. solve_decision. Defined.

Definition unescape_copy (c : Ascii.ascii) : Ascii.ascii :=
  if decide (c = "b"%char) then "008"%char else if decide (c = "f"%char) then "012"%char
  else if decide (c = "n"%char) then lf else if decide (c = "r"%char) then cr
  else if decide (c = "t"%char) then tab else if decide (c = "v"%char) then "011"%char else c.

(** A text put before the first field of a split row. *)
Definition before {A} (p : string) (x : list string * A) : list string * A :=
  match x with (f :: l, rest) => ((p +:+ f) :: l, rest) | ([], rest) => ([p], rest) end.

(** The raw fields of the first row, how it ends, and what follows it. *)
Fixpoint copy_fields (s : string) : list string * (option line_end * string) :=
  match s with
  | EmptyString => ([""], (None, ""))
  | String c s' =>
      if decide (c = tab) then let '(l, rest) := copy_fields s' in ("" :: l, rest)
      else if decide (c = lf) then ([""], (Some Nl, s'))
      else if decide (c = cr) then
        ([""], match s' with
               | String d s'' => if decide (d = lf) then (Some CrNl, s'') else (Some Cr, s')
               | EmptyString => (Some Cr, "")
               end)
      else if decide (c = bs) then
        match s' with
        | String d s'' => before (String c (String d "")) (copy_fields s'')
        | EmptyString => ([String c ""], (None, ""))
        end
      else before (String c "") (copy_fields s')
  end.

Fixpoint copy_text (s : string) : string :=
  match s with
  | EmptyString => EmptyString
  | String c s' =>
      if decide (c = bs) then
        match s' with
        | String d s'' => String (unescape_copy d) (copy_text s'')
        | EmptyString => String c EmptyString
        end
      else String c (copy_text s')
  end.

Definition copy_field (s : string) : option string :=
  if decide (s = "\N") then None else Some (copy_text s).

Fixpoint has_nul (s : string) : bool :=
  match s with EmptyString => false | String c s' => bool_decide (c = "000"%char) || has_nul s' end.

(** The line ends are alike so far; the last row may have none. *)
Definition alike (seen e : option line_end) : bool :=
  match seen, e with Some a, Some b => bool_decide (a = b) | _, _ => true end.

(** The rows of at most [fuel] lines; [None] when the server complains. *)
Fixpoint copy_rows (fuel : nat) (seen : option line_end) (s : string) :
  option (list (list (option string))) :=
  match fuel, s with
  | S fuel', String _ _ =>
      let '(fields, (e, rest)) := copy_fields s in
      if existsb has_nul fields || negb (alike seen e) then None
      else if decide (fields = ["\."]) then Some []
      else (map copy_field fields ::.) <$> copy_rows fuel' (match seen with Some _ => seen | None => e end) rest
  | _, _ => Some []
  end.

Example copy_ex :
  copy_rows 9 None (encode_all [[CStr "a	b\"; CNone; CInt 3]; [CStr "\."; CStr "\N"; CStr ""]])
  = Some [[Some "a	b\"; None; Some "3"]; [Some "\."; Some "\N"; Some ""]].
Proof. by vm_compute. Qed.

(** An unescaped carriage return ends the row, and the server complains of the
    line feed that follows. *)
Example copy_cr_ex : copy_rows 9 None ("a" +:+ String cr "b" +:+ String lf "") = None.
Proof. by vm_compute. Qed.

(** ** Lemmas: the encoding of one field *)

Definition escape_char (c : Ascii.ascii) : string :=
  if decide (c = bs) then "\\" else if decide (c = tab) then "\t"
  else if decide (c = lf) then "\n" else if decide (c = cr) then "\r" else String c "".

Lemma replace_char_app c b s t :
  replace_char c b (s +:+ t) = replace_char c b s +:+ replace_char c b t.
Proof.
  induction s as [|a s IH]; [done|]. rewrite app_str_cons. simpl.
  case_decide; rewrite IH; [by rewrite app_str_assoc|done].
Qed.

(** The four replacements, one after the other, escape each character once. *)
Lemma escape_field_cons c s : escape_field (String c s) = escape_char c +:+ escape_field s.
Proof.
  unfold escape_field. change (String c s) with (String c "" +:+ s).
  rewrite !replace_char_app. f_equal.
  by destruct c as [[] [] [] [] [] [] [] []]; vm_compute.
Qed.

Lemma before_app {A} p q (x : list string * A) : fst x <> [] -> before p (before q x) = before (p +:+ q) x.
Proof. destruct x as [[|f l] r]; [done|]. intros _. simpl. by rewrite app_str_assoc. Qed.

Lemma before_nonempty {A} p (x : list string * A) : fst (before p x) <> [].
Proof. by destruct x as [[|f l] r]. Qed.

Lemma copy_fields_nonempty s : fst (copy_fields s) <> [].
Proof.
  destruct s as [|c s]; [done|]. simpl. repeat case_decide; try done.
  - by destruct (copy_fields s).
  - destruct s; [done|]. apply before_nonempty.
  - apply before_nonempty.
Qed.

Lemma copy_fields_char c s :
  copy_fields (escape_char c +:+ s) = before (escape_char c) (copy_fields s).
Proof. unfold escape_char. repeat case_decide; simpl; repeat case_decide; done. Qed.

Lemma copy_fields_escaped s t :
  copy_fields (escape_field s +:+ t) = before (escape_field s) (copy_fields t).
Proof.
  induction s as [|c s IH].
  - change (copy_fields t = before "" (copy_fields t)).
    pose proof (copy_fields_nonempty t). by destruct (copy_fields t) as [[|f l] r].
  - rewrite escape_field_cons, app_str_assoc, copy_fields_char, IH.
    apply before_app, copy_fields_nonempty.
Qed.

Lemma copy_text_escaped s : copy_text (escape_field s) = s.
Proof.
  induction s as [|c s IH]; [done|]. rewrite escape_field_cons.
  transitivity (String c (copy_text (escape_field s))); [|by rewrite IH].
  by destruct c as [[] [] [] [] [] [] [] []].
Qed.

(** An encoded text is never the null marker, nor the end marker. *)
Lemma escape_not_marker s d : d <> bs -> d <> "t"%char -> d <> "n"%char -> d <> "r"%char ->
  escape_field s <> String bs (String d "").
Proof.
  intros ???? H. destruct s as [|c s]; [done|]. rewrite escape_field_cons in H.
  revert H. unfold escape_char. repeat case_decide; simpl; intros [=]; simplify_eq.
Qed.

Lemma copy_field_encoded c : copy_field (encode_cell c) = cell_text c.
Proof.
  unfold copy_field, encode_cell. destruct (cell_text c) as [s|]; [|done].
  rewrite decide_False by (by apply escape_not_marker). by rewrite copy_text_escaped.
Qed.

Lemma copy_fields_cell c t :
  copy_fields (encode_cell c +:+ t) = before (encode_cell c) (copy_fields t).
Proof. unfold encode_cell. destruct (cell_text c); [apply copy_fields_escaped|done]. Qed.

Lemma copy_fields_row c row t :
  copy_fields (encode_copy_row (c :: row) +:+ t) = (map encode_cell (c :: row), (Some Nl, t)).
Proof.
  unfold encode_copy_row. revert c. induction row as [|d row IH]; intros c.
  - cbn [map join]. rewrite app_str_assoc, copy_fields_cell. simpl. by rewrite app_str_nil_r.
  - change (join (String tab "") (map encode_cell (c :: d :: row)))
      with (encode_cell c +:+ String tab "" +:+ join (String tab "") (map encode_cell (d :: row))).
    rewrite !app_str_assoc, copy_fields_cell, app_str_cons, app_str_nil_l.
    cbn [copy_fields]. rewrite decide_True by done. rewrite <- app_str_assoc, IH.
    simpl. by rewrite app_str_nil_r.
Qed.

Lemma has_nul_app s t : has_nul (s +:+ t) = has_nul s || has_nul t.
Proof. induction s as [|c s IH]; [done|]. rewrite app_str_cons. simpl. by rewrite IH, orb_assoc. Qed.

Lemma has_nul_escaped s : has_nul (escape_field s) = has_nul s.
Proof.
  induction s as [|c s IH]; [done|]. rewrite escape_field_cons, has_nul_app, IH. simpl. f_equal.
  by destruct c as [[] [] [] [] [] [] [] []].
Qed.

(** A cell PostgreSQL can store as text. *)
Definition storable (c : cell) : Prop :=
  match cell_text c with Some s => has_nul s = false | None => True end.

Lemma storable_row row : Forall storable row -> existsb has_nul (map encode_cell row) = false.
Proof.
  induction 1 as [|c row Hc _ IH]; [done|]. cbn [map existsb]. rewrite IH, orb_false_r.
  unfold storable in Hc. unfold encode_cell. destruct (cell_text c); [by rewrite has_nul_escaped|done].
Qed.

(** ** The stream *)

Lemma str_take_skip n s : str_take n s +:+ str_skip n s = s.
Proof.
  revert n. induction s as [|c s IH]; intros n; [done|]. simpl.
  destruct (is_cont c); [by rewrite app_str_cons, IH|].
  destruct n; [done|]. by rewrite app_str_cons, IH.
Qed.

Lemma py_len_take n s : (py_len (str_take n s) <= n)%nat.
Proof.
  revert n. induction s as [|c s IH]; intros n; [simpl; lia|]. simpl.
  destruct (is_cont c) eqn:Hc; [simpl; rewrite Hc; apply IH|].
  destruct n; [simpl; lia|]. simpl. rewrite Hc. specialize (IH n). lia.
Qed.

Lemma str_take_nonempty n s : (n < py_len s)%nat -> (0 < n)%nat -> str_take n s <> "".
Proof. destruct s as [|c s]; simpl; [lia|]. destruct (is_cont c); [done|]. by destruct n; [lia|]. Qed.

Lemma py_len_app s t : py_len (s +:+ t) = (py_len s + py_len t)%nat.
Proof.
  induction s as [|c s IH]; [done|]. rewrite app_str_cons. simpl.
  destruct (is_cont c); [done|]. by rewrite IH.
Qed.

Lemma encode_copy_row_nonempty row : encode_copy_row row <> "".
Proof. unfold encode_copy_row. by destruct (join _ _). Qed.

Lemma fill_spec size buf have rows buf' rows' :
  fill size buf have rows = (buf', rows') -> have = py_len buf ->
  buf' +:+ encode_all rows' = buf +:+ encode_all rows
  /\ ((py_len buf' < size)%nat -> rows' = []).
Proof.
  revert buf have. induction rows as [|row rows IH]; intros buf have Hf ->; simpl in Hf.
  - by simplify_eq.
  - case_match eqn:Hlt.
    + apply IH in Hf as [-> ?]; [|by rewrite py_len_app]. by rewrite app_str_assoc.
    + simplify_eq. apply Nat.ltb_ge in Hlt. split; [done|lia].
Qed.

(** Each call hands out the next part of what is pending. *)
Lemma read_pending size r : fst (read size r) +:+ pending (snd (read size r)) = pending r.
Proof.
  unfold read, pending. destruct size as [n|]; [|simpl; by rewrite app_str_nil_r].
  case_match; [simpl; by rewrite app_str_nil_r|].
  destruct (fill _ _ _ _) as [buf rows] eqn:Hf. apply fill_spec in Hf as [Hf _]; [|done].
  case_match; simpl; rewrite <- Hf; [|done]. by rewrite <- app_str_assoc, str_take_skip.
Qed.

Lemma cut_line_app s line rest : cut_line s = Some (line, rest) -> s = line +:+ rest.
Proof.
  revert line. induction s as [|c s IH]; intros line H; [done|]. simpl in H.
  case_decide; [by simplify_eq|]. destruct (cut_line s) as [[l r]|]; [|done].
  simplify_eq. rewrite app_str_cons. f_equal. by apply IH.
Qed.

Lemma readline_pending r : fst (readline r) +:+ pending (snd (readline r)) = pending r.
Proof.
  unfold readline, pending. destruct (cut_line (rd_carry r)) as [[line rest]|] eqn:Hc; simpl.
  - apply cut_line_app in Hc. rewrite Hc. by rewrite app_str_assoc.
  - destruct (rd_rows r); simpl; [done|]. by rewrite app_str_assoc.
Qed.

Lemma read_bounded n r : 0 <= n -> (py_len (fst (read (Some n) r)) <= Z.to_nat n)%nat.
Proof.
  intros Hn. unfold read. rewrite (proj2 (Z.ltb_ge n 0)) by done.
  destruct (fill _ _ _ _) as [buf rows]. case_match eqn:Hl; simpl; [apply py_len_take|].
  by apply Nat.ltb_ge in Hl.
Qed.

(** A positive read returns nothing only at the end. *)
Lemma read_end n r : 0 < n -> fst (read (Some n) r) = "" -> pending r = "".
Proof.
  intros Hn. pose proof (read_pending (Some n) r) as Hp. revert Hp. unfold read.
  rewrite (proj2 (Z.ltb_ge n 0)) by lia.
  destruct (fill _ _ _ _) as [buf rows] eqn:Hf. apply fill_spec in Hf as [_ Hf]; [|done].
  case_match eqn:Hl; simpl; intros <- H.
  - apply Nat.ltb_lt in Hl. destruct (str_take_nonempty (Z.to_nat n) buf); [done|lia|done].
  - subst buf. rewrite Hf by (simpl; lia). done.
Qed.

(** All the texts handed out. *)
Definition texts (l : list string) : string := foldr String.append "" l.

(** The calls of a driver: any interleaving of reads and line reads. *)
Inductive read_call := CRead (size : option Z) | CReadline.

Definition run_call (c : read_call) (r : reader) : string * reader :=
  match c with CRead size => read size r | CReadline => readline r end.

Fixpoint run_calls (cs : list read_call) (r : reader) : list string * reader :=
  match cs with
  | [] => ([], r)
  | c :: cs' =>
      let '(s, r1) := run_call c r in
      let '(l, r2) := run_calls cs' r1 in (s :: l, r2)
  end.

(** ** Properties *)

(** C37. COPY reads back what is written: for rows with at least one column and
    without zero bytes, the server accepts the text that the stream encodes and
    decodes it to exactly these rows, cell by cell (nulls, tabs, line feeds,
    carriage returns, backslashes, and texts that look like the null or the end
    marker included). *)
Theorem copy_roundtrip rows fuel :
  Forall (fun row => row <> [] /\ Forall storable row) rows -> (length rows <= fuel)%nat ->
  copy_rows fuel None (encode_all rows) = Some (map (map cell_text) rows).
Proof.
  intros Hne. assert (forall seen, alike seen (Some Nl) = true -> (length rows <= fuel)%nat ->
    copy_rows fuel seen (encode_all rows) = Some (map (map cell_text) rows)) as Hall; [|by apply Hall].
  revert fuel. induction Hne as [|row rows [Hrow Hst] _ IH]; intros fuel seen Hseen Hf.
  - by destruct fuel.
  - destruct fuel as [|fuel]; [simpl in Hf; lia|]. destruct row as [|c row]; [done|].
    cbn [encode_all foldr]. fold (encode_all rows).
    pose proof (encode_copy_row_nonempty (c :: row)).
    destruct (encode_copy_row (c :: row) +:+ encode_all rows) as [|a s] eqn:Hs.
    { by destruct (encode_copy_row (c :: row)). }
    cbn [copy_rows]. rewrite <- Hs, copy_fields_row. rewrite storable_row, Hseen by done. rewrite decide_False.
    + cbn [orb negb]. rewrite IH; [|by destruct seen|simpl in Hf; lia]. cbn [fmap option_fmap option_map map].
      do 2 f_equal. change (map copy_field (map encode_cell (c :: row)) = map cell_text (c :: row)).
      rewrite map_map. apply map_ext, copy_field_encoded.
    + intros [= Hc _]. pose proof (copy_field_encoded c) as Hd. revert Hc. unfold encode_cell.
      destruct (cell_text c); [by apply escape_not_marker|done].
Qed.

Lemma copy_roundtrip_witness :
  copy_rows 2 None (encode_all [[CStr ("x	\N" +:+ String cr "y"); CNone]; [CStr "\."; CInt 5]])
  = Some [[Some ("x	\N" +:+ String cr "y"); None]; [Some "\."; Some "5"]].
Proof.
  apply (copy_roundtrip [[CStr ("x	\N" +:+ String cr "y"); CNone]; [CStr "\."; CInt 5]] 2);
    [repeat constructor; done|simpl; lia].
Defined.

(** The stream is the text of the rows, whatever the driver calls: after any
    sequence of reads and line reads, the texts handed out so far followed by
    what is still pending are the encoding of all the rows. *)
Theorem reader_streams_text cs rows :
  let '(out, r) := run_calls cs (Reader rows "") in
  texts out +:+ pending r = encode_all rows.
Proof.
  change (encode_all rows) with (pending (Reader rows "")). generalize (Reader rows "") as r0.
  induction cs as [|c cs IH]; intros r0; [done|]. simpl.
  destruct (run_call c r0) as [s r1] eqn:Hc. specialize (IH r1).
  destruct (run_calls cs r1) as [l r2]. simpl. rewrite app_str_assoc, IH.
  destruct c; simpl in Hc; [pose proof (read_pending size r0) as Hp|pose proof (readline_pending r0) as Hp];
    rewrite Hc in Hp; exact Hp.
Qed.

(** A driver that reads blocks of at most [size] characters until an empty
    one terminates, gets blocks of at most [size] characters, and their
    concatenation is the encoding of the rows: the carry loses and repeats nothing. *)
Theorem read_blocks_complete size rows fuel :
  0 < size -> (String.length (encode_all rows) < fuel)%nat ->
  exists blocks,
    read_blocks fuel size (Reader rows "") = Some blocks
    /\ texts blocks = encode_all rows
    /\ Forall (fun b => (py_len b <= Z.to_nat size)%nat) blocks.
Proof.
  intros Hs. change (encode_all rows) with (pending (Reader rows "")).
  generalize (Reader rows "") as r. induction fuel as [|fuel IH]; intros r Hf; [lia|].
  cbn [read_blocks].
  pose proof (read_pending (Some size) r) as Hp. pose proof (read_end size r Hs) as He.
  pose proof (read_bounded size r ltac:(lia)) as Hb.
  destruct (read (Some size) r) as [b r'] eqn:Hr. cbn [fst snd] in *. case_decide as Hd.
  - exists []. split; [done|]. split; [|done]. simpl. by rewrite He.
  - destruct (IH r') as (bl & -> & Hc & Hall).
    { rewrite <- Hp, str_length_app in Hf. destruct b; [done|]. simpl in Hf. lia. }
    exists (b :: bl). simpl. rewrite Hc. by repeat constructor.
Qed.

Lemma read_blocks_complete_witness :
  exists blocks, read_blocks 40 8 (Reader [[CStr "roads"; CInt 0]; [CStr "lakes"; CNone]] "") = Some blocks
    /\ texts blocks = encode_all [[CStr "roads"; CInt 0]; [CStr "lakes"; CNone]]
    /\ Forall (fun b => (py_len b <= Z.to_nat 8)%nat) blocks.
Proof.
  apply (read_blocks_complete 8 [[CStr "roads"; CInt 0]; [CStr "lakes"; CNone]] 40);
    [lia|vm_compute; lia].
Defined.
