(* ===== verification/Subdivide.v ===== *)
(** * Geometry handling of the importers

    app/utils/feature_subdivide.py, app/utils/geometry_limits.py and
    [_explode_to_simple_parts] of app/services/bulk_import.py.  Shapely is a
    third-party library: its objects and calls are the class [Shapely], and
    [ShapelyLaws] states the point-set meaning the subdivision relies on.

    Recursive functions take [depth], the stack frames the interpreter still
    allows; a call without a frame raises [RecursionError].  [None] is a raised
    exception. *)

From stdpp Require Import sorting.
From S2P Require Import Prelude PyTime Redis Postgres World Json.

(** ** Shapely *)

Inductive gkind :=
  Point | LineString | LinearRing | Polygon
  | MultiPoint | MultiLineString | MultiPolygon | GeometryCollection.

#[export] Instance gkind_eq_dec : EqDecision gkind.
Proof. solve_decision. Defined.

Record box (num : Type) := Box { minx : num; miny : num; maxx : num; maxy : num }.
Arguments Box {num}.
Arguments minx {num}.
Arguments miny {num}.
Arguments maxx {num}.
Arguments maxy {num}.

Class Shapely (geom num : Type) := {
  geom_type : geom -> gkind;
  is_empty : geom -> bool;
  is_valid : geom -> bool;
  make_valid : geom -> option geom;
  members : geom -> list geom;                  (* g.geoms *)
  coords : geom -> Z;                           (* len(g.coords) *)
  rings : geom -> list Z;                       (* of g.exterior and g.interiors *)
  bounds : geom -> box num;
  intersection : geom -> box num -> option geom;
  wkb : geom -> string;
  wkt : geom -> string;
  wkb_hex_4326 : geom -> string;                (* to_wkb(set_srid(g, 4326), hex=True, ...) *)
  shape : json -> option geom;                  (* shape(geom_dict) *)
  num_sub : num -> num -> num;
  num_mid : num -> num -> num;                  (* a + d * 0.5 *)
  num_le : num -> num -> bool;
  num_zero : num
}.

Definition zsum (l : list Z) : Z := foldr Z.add 0 l.

Definition MAX_COORDS_FOR_DB_SUBDIVIDE : Z := 35000.

Section geometry.
Context {geom num : Type} `{Shapely geom num} (cfg : Settings).

(** ** app/utils/geometry_limits.py

    [None] is Python's [None] geometry; [max_bytes] [None] is the default. *)

Definition null_geom (g : option geom) : bool :=
  match g with None => true | Some g => is_empty g end.

Definition geometry_wkb_byte_length (g : option geom) : Z :=
  match g with
  | Some g => if is_empty g then 0 else Z.of_nat (String.length (wkb g))
  | None => 0
  end.

Definition max_b (max_bytes : option Z) : Z := default (features_max_geometry_bytes cfg) max_bytes.

Definition geometry_exceeds_limit (g : option geom) (max_bytes : option Z) : bool :=
  if null_geom g then false
  else if max_b max_bytes <=? 0 then false
  else max_b max_bytes <? geometry_wkb_byte_length g.

(** [GeometryTooLargeError] carries the two lengths. *)
Definition check_geometry_size_limit (g : option geom) (max_bytes : option Z) : (Z * Z) + unit :=
  if null_geom g then inr tt
  else if max_b max_bytes <=? 0 then inr tt
  else let n := geometry_wkb_byte_length g in
       if max_b max_bytes <? n then inl (n, max_b max_bytes) else inr tt.

(** ** [_coord_count] *)

Fixpoint coord_count (depth : nat) (g : geom) : option Z :=
  match depth with
  | O => None
  | S d =>
      if is_empty g then Some 0
      else Some
        match geom_type g with
        | Polygon => zsum (rings g)
        | MultiPolygon | GeometryCollection =>
            match mapM (coord_count d) (members g) with Some l => zsum l | None => 0 end
        | LineString => coords g
        | MultiLineString | MultiPoint => zsum (map coords (members g))
        | Point => 1
        | LinearRing => 0
        end
  end.

(** ** [subdivide_geometry_by_vertices] *)

(** Appends the results for each geometry; [false] when a call raised. *)
Fixpoint extend_all (f : geom -> option (list geom)) (out : list geom) (gs : list geom) :
  list geom * bool :=
  match gs with
  | [] => (out, true)
  | g :: gs' =>
      if is_empty g then extend_all f out gs'
      else match f g with
           | Some l => extend_all f (out ++ l)%list gs'
           | None => (out, false)
           end
  end.

(** One half: the [try] block of the loop. *)
Definition cut_cell (f : geom -> option (list geom)) (g : geom) (cell : box num)
    (out : list geom) : list geom * bool :=
  match intersection g cell with
  | None => (out, false)
  | Some inter =>
      if is_empty inter then (out, true)
      else if decide (geom_type inter = GeometryCollection) then extend_all f out (members inter)
      else match f inter with Some l => ((out ++ l)%list, true) | None => (out, false) end
  end.

(** The loop over the halves, with its [except] branch. *)
Fixpoint cut_cells (f : geom -> option (list geom)) (g : geom) (cells : list (box num))
    (out : list geom) : list geom :=
  match cells with
  | [] => out
  | cell :: cells' =>
      let '(out', ok) := cut_cell f g cell out in
      if ok : bool then cut_cells f g cells' out' else (out' ++ [g])%list
  end.

(** The two halves along the longer axis. *)
Definition halves (b : box num) : list (box num) :=
  let dx := num_sub (maxx b) (minx b) in
  let dy := num_sub (maxy b) (miny b) in
  if num_le dy dx then
    let mid := num_mid (minx b) dx in
    [Box (minx b) (miny b) mid (maxy b); Box mid (miny b) (maxx b) (maxy b)]
  else
    let mid := num_mid (miny b) dy in
    [Box (minx b) (miny b) (maxx b) mid; Box (minx b) mid (maxx b) (maxy b)].

Definition degenerate (b : box num) : bool :=
  num_le (num_sub (maxx b) (minx b)) num_zero && num_le (num_sub (maxy b) (miny b)) num_zero.

Fixpoint subdivide_geometry_by_vertices (depth : nat) (g : geom) (max_vertices : Z) :
  option (list geom) :=
  match depth with
  | O => None
  | S d =>
      if is_empty g then Some []
      else
        let max_vertices := if max_vertices <=? 0 then 256 else max_vertices in
        match coord_count d g with
        | None => None
        | Some n =>
            if n <=? max_vertices then Some [g]
            else if degenerate (bounds g) then Some [g]
            else
              let out := cut_cells (fun h => subdivide_geometry_by_vertices d h max_vertices)
                           g (halves (bounds g)) [] in
              Some (if decide (out = []) then [g] else out)
        end
  end.

(** ** [_explode_to_simple_parts]

    Every class of shapely is one of the tested ones ([LinearRing] is a
    [LineString]), so the fallback for other objects has no case here. *)

Definition nonempty_members (g : geom) : list geom :=
  List.filter (fun m => negb (is_empty m)) (members g).

Fixpoint explode_to_simple_parts (depth : nat) (g : geom) : option (list geom) :=
  match depth with
  | O => None
  | S d =>
      if is_empty g then Some []
      else
        g ← (if is_valid g then Some g else make_valid g);
        if is_empty g then Some []
        else match geom_type g with
             | Point | LineString | LinearRing | Polygon => Some [g]
             | MultiPoint | MultiLineString | MultiPolygon => Some (nonempty_members g)
             | GeometryCollection => mjoin <$> mapM (explode_to_simple_parts d) (members g)
             end
  end.
End geometry.

(** ** INSERT statements of app/utils/feature_subdivide.py *)

Definition upper_ascii (c : Ascii.ascii) : Ascii.ascii :=
  let n := Ascii.nat_of_ascii c in
  if (97 <=? n)%nat && (n <=? 122)%nat then Ascii.ascii_of_nat (n - 32) else c.
Fixpoint upper (s : string) : string :=
  match s with EmptyString => EmptyString | String c s' => String (upper_ascii c) (upper s') end.

Definition endswith (p s : string) : bool := startswith (String.rev p) (String.rev s).

Definition is_empty_or_null_wkt (w : option string) : bool :=
  match w with
  | None => true
  | Some w =>
      bool_decide (w = "") || bool_decide (strip w = "")
      || (let u := upper (strip w) in bool_decide (u = "EMPTY") || endswith " EMPTY" u)
  end.

(** A bound parameter of a statement. *)
Inductive sql_param := PNone | PText (s : string) | PInt (z : Z) | PTime (t : datetime).
Definition opt_param (s : option string) : sql_param :=
  match s with Some s => PText s | None => PNone end.

(** [(sql, params)] *)
Definition statement : Type := string * list (string * sql_param).

(** [json.dumps(properties) if properties else None] *)
Definition props_param (properties : option (list (string * json))) : sql_param :=
  match properties with
  | Some ((_ :: _) as m) => PText (dumps (JObj m))
  | _ => PNone
  end.

Definition base_params (id c : string) (properties : option (list (string * json))) (now : datetime)
    (job : option string) : list (string * sql_param) :=
  [("id", PText id); ("cid", PText c); ("props", props_param properties); ("now", PTime now);
   ("bulk_jid", opt_param job)].

Definition insert_columns : string :=
  "INSERT INTO features (id, collection_id, part_index, geometry, properties, created_at, updated_at, bulk_import_job_id)".

Definition insert_feature_subdivided_sql (id c : string) (w : option string)
    (properties : option (list (string * json))) (now : datetime) (max_vertices : Z)
    (job : option string) : statement :=
  let params := base_params id c properties now job in
  if is_empty_or_null_wkt w then
    (insert_columns
       +:+ " VALUES (:id, :cid, 0, NULL, CAST(:props AS jsonb), :now, :now, :bulk_jid)", params)
  else
    (insert_columns
       +:+ " SELECT :id, :cid, (row_number() OVER ())::int - 1, g, CAST(:props AS jsonb), :now, :now, :bulk_jid"
       +:+ " FROM ST_Subdivide(ST_Force2D(ST_GeomFromText(:wkt, 4326)), :max_vertices) AS g",
     (params ++ [("wkt", opt_param w); ("max_vertices", PInt max_vertices)])%list).

(** The rows of one batch: [part_index], the parameter's number and its text. *)
Abbreviation part := (Z * nat * string)%type.

Fixpoint batch_values (start : Z) (i n : nat) (chunk : list string) : list part :=
  match chunk with
  | [] => []
  | w :: chunk' =>
      if bool_decide (w = "") || is_empty_or_null_wkt (Some w) then batch_values start (S i) n chunk'
      else (start + Z.of_nat n, i, w) :: batch_values start (S i) (S n) chunk'
  end.

Definition wkt_param (i : nat) : string := "wkt_" +:+ str_of_Z (Z.of_nat i).

Definition values_text (p : part) : string :=
  let '(idx, i, _) := p in
  "(:id, :cid, " +:+ str_of_Z idx +:+ ", ST_Force2D(ST_GeomFromText(:" +:+ wkt_param i
  +:+ ", 4326)), CAST(:props AS jsonb), :now, :now, :bulk_jid)".

(** [range(0, len(wkt_list), batch_size)] with the chunk of each start. *)
Fixpoint part_batches (fuel : nat) (start : Z) (batch_size : nat) (wkts : list string) :
  list (list part) :=
  match fuel, wkts with
  | S fuel', _ :: _ =>
      let values := batch_values start 0 0 (take batch_size wkts) in
      let rest := part_batches fuel' (start + Z.of_nat batch_size) batch_size (drop batch_size wkts) in
      if decide (values = []) then rest else values :: rest
  | _, _ => []
  end.

Definition batches (batch_size : nat) (wkts : list string) : list (list part) :=
  part_batches (length wkts) 0 batch_size wkts.

(** [batch_size] is positive at every call: a step of 0 raises. *)
Definition insert_feature_parts_batched (id c : string) (wkts : list string)
    (properties : option (list (string * json))) (now : datetime) (batch_size : nat)
    (job : option string) : list statement :=
  map (fun values =>
         (insert_columns +:+ " VALUES " +:+ join ", " (map values_text values),
          (base_params id c properties now job
           ++ map (fun p => let '(_, i, w) := p in (wkt_param i, PText w)) values)%list))
    (batches batch_size wkts).

(** ** [FeatureInsertBuffer] *)

Record PendingFeatureInsert := PendingFeature {
  pf_feature_id : string;
  pf_wkt : option string;
  pf_properties : option (list (string * json));
  pf_wkt_list : option (list string)
}.

Record FeatureInsertBuffer := InsertBuffer {
  fb_collection_id : string;
  fb_now : datetime;
  fb_max_vertices : Z;
  fb_bulk_import_job_id : option string;
  fb_insert_parts_batch_size : nat;
  fb_pending : list PendingFeatureInsert
}.

Definition with_pending (b : FeatureInsertBuffer) (l : list PendingFeatureInsert) :
  FeatureInsertBuffer :=
  InsertBuffer (fb_collection_id b) (fb_now b) (fb_max_vertices b) (fb_bulk_import_job_id b)
    (fb_insert_parts_batch_size b) l.

Definition buffer_add (b : FeatureInsertBuffer) (p : PendingFeatureInsert) : FeatureInsertBuffer :=
  with_pending b (fb_pending b ++ [p])%list.

Definition item_statements (b : FeatureInsertBuffer) (p : PendingFeatureInsert) : list statement :=
  match pf_wkt_list p with
  | Some ((_ :: _) as wkts) =>
      insert_feature_parts_batched (pf_feature_id p) (fb_collection_id b) wkts (pf_properties p)
        (fb_now b) (fb_insert_parts_batch_size b) (fb_bulk_import_job_id b)
  | _ =>
      [insert_feature_subdivided_sql (pf_feature_id p) (fb_collection_id b) (pf_wkt p)
         (pf_properties p) (fb_now b) (fb_max_vertices b) (fb_bulk_import_job_id b)]
  end.

(** [flush(session)]: the number of features and the emptied buffer. *)
Definition buffer_flush (execute : statement -> M unit) (b : FeatureInsertBuffer) :
  M (Z * FeatureInsertBuffer) :=
  if decide (fb_pending b = []) then mret (0, b)
  else
    for_each (mjoin (map (item_statements b) (fb_pending b))) execute;;
    mret (Z.of_nat (length (fb_pending b)), with_pending b []).

(** ** Lemmas *)

(** *** Part indexes *)

Definition part_idx (p : part) : Z := p.1.1.

Lemma batch_values_bounds start i n chunk :
  Forall (fun p => start + Z.of_nat n <= part_idx p < start + Z.of_nat (n + length chunk))
    (batch_values start i n chunk).
Proof.
  revert i n. induction chunk as [|w chunk IH]; intros i n; [constructor|]. cbn [batch_values].
  case_match.
  - eapply Forall_impl; [apply IH|]. simpl. intros p. lia.
  - constructor; [unfold part_idx; simpl; lia|]. eapply Forall_impl; [apply IH|]. simpl. intros p. lia.
Qed.

Lemma batch_values_sorted start i n chunk :
  StronglySorted Z.lt (map part_idx (batch_values start i n chunk)).
Proof.
  revert i n. induction chunk as [|w chunk IH]; intros i n; [constructor|]. cbn [batch_values].
  case_match; [apply IH|]. cbn [map]. constructor; [apply IH|]. apply Forall_map.
  eapply Forall_impl; [apply batch_values_bounds|]. unfold part_idx. simpl. intros p. lia.
Qed.

(** The texts a batch keeps. *)
Definition real_wkts (l : list string) : list string :=
  List.filter (fun w => negb (is_empty_or_null_wkt (Some w))) l.

Lemma batch_values_wkts start i n chunk :
  map snd (batch_values start i n chunk) = real_wkts chunk.
Proof.
  revert i n. induction chunk as [|w chunk IH]; intros i n; [done|]. cbn [batch_values].
  unfold real_wkts in *. cbn [List.filter].
  assert (bool_decide (w = "") || is_empty_or_null_wkt (Some w) = is_empty_or_null_wkt (Some w)) as ->.
  { simpl. by destruct (bool_decide (w = "")). }
  destruct (is_empty_or_null_wkt (Some w)); cbn [negb]; [apply IH|]. cbn [map]. by rewrite IH.
Qed.

Lemma real_wkts_app l k : real_wkts (l ++ k) = (real_wkts l ++ real_wkts k)%list.
Proof. apply List.filter_app. Qed.

Lemma StronglySorted_concat {A} (R : A -> A -> Prop) l k :
  StronglySorted R l -> StronglySorted R k -> (forall x y, x ∈ l -> y ∈ k -> R x y) ->
  StronglySorted R (l ++ k).
Proof.
  induction 1 as [|x l Hl IH Hx]; intros Hk Hr; [done|]. simpl. constructor.
  - apply IH; [done|]. intros y z Hy Hz. apply Hr; [by right|done].
  - apply Forall_app. split; [done|]. apply Forall_forall. intros y Hy. apply Hr; [by left|done].
Qed.

Lemma part_batches_spec fuel start bs wkts :
  (length wkts <= fuel)%nat -> (0 < bs)%nat ->
  map snd (mjoin (part_batches fuel start bs wkts)) = real_wkts wkts
  /\ StronglySorted Z.lt (map part_idx (mjoin (part_batches fuel start bs wkts)))
  /\ Forall (fun z => start <= z < start + Z.of_nat (length wkts))
       (map part_idx (mjoin (part_batches fuel start bs wkts)))
  /\ Forall (fun b => b <> [] /\ (length b <= bs)%nat) (part_batches fuel start bs wkts).
Proof.
  intros Hf Hbs. revert start wkts Hf. induction fuel as [|fuel IH]; intros start wkts Hf.
  { destruct wkts; [|simpl in Hf; lia]. repeat split; constructor. }
  destruct wkts as [|w0 wkts']; [repeat split; constructor|]. cbn [part_batches].
  set (wkts := w0 :: wkts') in *.
  assert (length (drop bs wkts) <= fuel)%nat as Hd by (rewrite length_drop; simpl in Hf |- *; lia).
  destruct (IH (start + Z.of_nat bs) (drop bs wkts) Hd) as (Hw & Hs & Hb & Ha). clear IH.
  set (rest := part_batches _ _ _ _) in *. set (values := batch_values start 0 0 (take bs wkts)).
  assert (map snd values = real_wkts (take bs wkts)) as Hvw by apply batch_values_wkts.
  pose proof (batch_values_sorted start 0 0 (take bs wkts)) as Hvs.
  pose proof (batch_values_bounds start 0 0 (take bs wkts)) as Hvb. fold values in Hvs, Hvb.
  assert (length values <= bs)%nat as Hvl.
  { pose proof (f_equal length Hvw) as Hl. rewrite List.length_map in Hl.
    etransitivity; [apply Nat.eq_le_incl, Hl|]. unfold real_wkts. etransitivity; [apply List.filter_length_le|]. rewrite length_take. lia. }
  assert (mjoin (if decide (values = []) then rest else values :: rest) = (values ++ mjoin rest)%list)
    as Hj by (case_decide as Hv; [by rewrite Hv|done]).
  rewrite Hj, !map_app. rewrite Forall_app. repeat split.
  - rewrite Hvw, Hw, <-real_wkts_app. by rewrite take_drop.
  - apply StronglySorted_concat; [done|done|]. intros x y Hx Hy.
    apply list_elem_of_fmap in Hx as (p & -> & Hp).
    eapply Forall_forall in Hp; [|exact Hvb]. eapply Forall_forall in Hy; [|exact Hb].
    rewrite length_take in Hp. simpl in Hp, Hy. lia.
  - apply Forall_map. eapply Forall_impl; [exact Hvb|]. simpl. intros p. rewrite length_take.
    unfold wkts. simpl. lia.
  - eapply Forall_impl; [exact Hb|]. intros z. cbv beta. rewrite length_drop.
    change (length wkts) with (S (length wkts')). lia.
  - case_decide; [done|]. by constructor.
Qed.

(** *** The point set of a geometry *)

Definition in_box {geom num : Type} `{Shapely geom num} (b : box num) (x y : num) : Prop :=
  num_le (minx b) x = true /\ num_le x (maxx b) = true
  /\ num_le (miny b) y = true /\ num_le y (maxy b) = true.

(** What shapely documents of its operations, for exact coordinates. *)
Class ShapelyLaws (geom num : Type) `{Shapely geom num} := {
  point : Type;
  covers : point -> geom -> Prop;
  px : point -> num;
  py : point -> num;
  num_le_total a b : num_le a b = true \/ num_le b a = true;
  empty_covers g p : is_empty g = true -> ~ covers p g;
  bounds_cover g p : covers p g -> in_box (bounds g) (px p) (py p);
  intersection_covers g b i p : intersection g b = Some i ->
    covers p i <-> covers p g /\ in_box b (px p) (py p);
  collection_covers g p : geom_type g = GeometryCollection ->
    covers p g <-> exists m, m ∈ members g /\ covers p m;
  multi_members g m : m ∈ members g ->
    match geom_type g with
    | MultiPoint => geom_type m = Point
    | MultiLineString => geom_type m = LineString
    | MultiPolygon => geom_type m = Polygon
    | _ => True
    end
}.

Section points.
Context {geom num : Type} `{ShapelyLaws geom num}.

Definition covered (p : point) (l : list geom) : Prop := exists q, q ∈ l /\ covers p q.

Lemma covered_app p l k : covered p (l ++ k)%list <-> covered p l \/ covered p k.
Proof.
  unfold covered. setoid_rewrite elem_of_app. split.
  - intros (q & [?|?] & ?); [left|right]; by exists q.
  - intros [(q & ? & ?)|(q & ? & ?)]; exists q; auto.
Qed.

Lemma covered_one p g : covered p [g] <-> covers p g.
Proof.
  unfold covered. setoid_rewrite list_elem_of_singleton. split; [by intros (q & -> & ?)|by exists g].
Qed.

(** [f] splits a geometry into nonempty pieces with the same points. *)
Definition splits (f : geom -> option (list geom)) : Prop := forall g l, f g = Some l ->
  Forall (fun q => is_empty q = false) l /\ forall p, covered p l <-> covers p g.

Lemma extend_all_spec f gs out out' ok : splits f -> extend_all f out gs = (out', ok) ->
  Forall (fun q => is_empty q = false) out ->
  Forall (fun q => is_empty q = false) out'
  /\ forall p, (covered p out -> covered p out')
     /\ (covered p out' -> covered p out \/ covered p gs)
     /\ (ok = true -> covered p gs -> covered p out').
Proof.
  intros Hf. revert out. induction gs as [|g gs IH]; intros out He Ho; simpl in He.
  - simplify_eq. split; [done|]. intros p. split_and!; [done|by left|]. intros _ (q & Hq & _). by apply elem_of_nil in Hq.
  - destruct (is_empty g) eqn:Hg; [|destruct (f g) as [l|] eqn:Hl].
    + destruct (IH _ He Ho) as [Hn Hp]. split; [done|]. intros p. destruct (Hp p) as (H1 & H2 & H3).
      change (g :: gs) with ([g] ++ gs)%list. rewrite covered_app, covered_one.
      split_and!; [done|tauto|]. intros Hok [Hc|Hc]; [by apply empty_covers in Hc|by apply H3].
    + destruct (Hf _ _ Hl) as [Hln Hlp].
      destruct (IH _ He) as [Hn Hp]; [by apply Forall_app|]. split; [done|]. intros p.
      destruct (Hp p) as (H1 & H2 & H3). rewrite covered_app, Hlp in H1, H2.
      change (g :: gs) with ([g] ++ gs)%list. rewrite covered_app, covered_one. tauto.
    + simplify_eq. split; [done|]. intros p. split_and!; [done|tauto|done].
Qed.

Lemma cut_cell_spec f g cell out out' ok : splits f -> cut_cell f g cell out = (out', ok) ->
  Forall (fun q => is_empty q = false) out ->
  Forall (fun q => is_empty q = false) out'
  /\ forall p, (covered p out -> covered p out')
     /\ (covered p out' -> covered p out \/ covers p g)
     /\ (ok = true -> covers p g -> in_box cell (px p) (py p) -> covered p out').
Proof.
  intros Hf He Ho. unfold cut_cell in He.
  destruct (intersection g cell) as [i|] eqn:Hi.
  2: { simplify_eq. split; [done|]. intros p. split_and!; [done|tauto|done]. }
  pose proof (fun p => intersection_covers g cell i p Hi) as Hc.
  destruct (is_empty i) eqn:Hie.
  { simplify_eq. split; [done|]. intros p. split_and!; [done|tauto|]. intros _ H1 H2.
    exfalso. by apply (empty_covers i p Hie), Hc. }
  case_decide as Hk.
  - destruct (extend_all_spec _ _ _ _ _ Hf He Ho) as [Hn Hp]. split; [done|]. intros p.
    destruct (Hp p) as (H1 & H2 & H3). pose proof (collection_covers i p Hk) as Hm.
    fold (covered p (members i)) in Hm. rewrite <-Hm, Hc in H2, H3. tauto.
  - destruct (f i) as [l|] eqn:Hl.
    + destruct (Hf _ _ Hl) as [Hln Hlp]. simplify_eq. split; [by apply Forall_app|].
      intros p. rewrite covered_app, Hlp, Hc. tauto.
    + simplify_eq. split; [done|]. intros p. split_and!; [done|tauto|done].
Qed.

Lemma cut_cells_spec f g cells out : splits f -> is_empty g = false ->
  Forall (fun q => is_empty q = false) out ->
  Forall (fun q => is_empty q = false) (cut_cells f g cells out)
  /\ forall p, (covered p out -> covered p (cut_cells f g cells out))
     /\ (covered p (cut_cells f g cells out) -> covered p out \/ covers p g)
     /\ (covers p g -> List.Exists (fun b => in_box b (px p) (py p)) cells ->
         covered p (cut_cells f g cells out)).
Proof.
  intros Hf Hg. revert out. induction cells as [|cell cells IH]; intros out Ho; simpl.
  - split; [done|]. intros p. split_and!; [done|tauto|]. by intros _ ?%Exists_nil.
  - destruct (cut_cell f g cell out) as [out' ok] eqn:He.
    destruct (cut_cell_spec _ _ _ _ _ _ Hf He Ho) as [Hn Hp]. destruct ok.
    + destruct (IH out' Hn) as [Hn' Hp']. split; [done|]. intros p.
      destruct (Hp p) as (H1 & H2 & H3), (Hp' p) as (H4 & H5 & H6).
      rewrite Exists_cons. split_and!; [tauto|tauto|]. intros Hc [Hb|Hb]; [by apply H4, H3|by apply H6].
    + split; [apply Forall_app; by repeat constructor|]. intros p. destruct (Hp p) as (H1 & H2 & H3).
      rewrite covered_app, covered_one. tauto.
Qed.

Lemma halves_cover b x y : in_box b x y -> List.Exists (fun h => in_box h x y) (halves b).
Proof.
  intros (H1 & H2 & H3 & H4). unfold halves. case_match.
  - destruct (num_le_total x (num_mid (minx b) (num_sub (maxx b) (minx b)))) as [Hm|Hm];
      [apply Exists_cons_hd|apply Exists_cons_tl, Exists_cons_hd]; by repeat split.
  - destruct (num_le_total y (num_mid (miny b) (num_sub (maxy b) (miny b)))) as [Hm|Hm];
      [apply Exists_cons_hd|apply Exists_cons_tl, Exists_cons_hd]; by repeat split.
Qed.

Lemma subdivide_splits depth max_vertices :
  splits (fun g => subdivide_geometry_by_vertices depth g max_vertices).
Proof.
  revert max_vertices. induction depth as [|d IH]; intros mv g l Hl; simpl in Hl; [done|].
  destruct (is_empty g) eqn:Hg.
  { simplify_eq. split; [constructor|]. intros p. split; [by intros (q & ?%elem_of_nil & _)|].
    intros Hc. by apply empty_covers in Hc. }
  assert (Forall (fun q => is_empty q = false) [g] /\ forall p, covered p [g] <-> covers p g) as Hone.
  { split; [by repeat constructor|]. intros p. apply covered_one. }
  destruct (coord_count d g) as [n|]; [|done].
  destruct (n <=? _); [by simplify_eq|]. destruct (degenerate (bounds g)); [by simplify_eq|].
  match type of Hl with context [cut_cells ?f g ?c []] =>
    destruct (cut_cells_spec f g c [] (IH _) Hg) as [Hn Hp]; [constructor|] end.
  simplify_eq. case_decide; [done|]. split; [done|]. intros p. destruct (Hp p) as (_ & Hp1 & Hp2).
  split; [|intros Hc; by apply Hp2, halves_cover, bounds_cover].
  intros Hc. destruct (Hp1 Hc) as [(q & ?%elem_of_nil & _)|?]; done.
Qed.
End points.

(** ** A concrete geometry: finite sets of integer points *)

Definition json_xy (j : json) : option (Z * Z) :=
  match j with JList [JInt x; JInt y] => Some (x, y) | _ => None end.

Definition xy_kind (g : list (Z * Z)) : gkind := match g with [_] => Point | _ => MultiPoint end.

Definition xy_inside (b : box Z) (p : Z * Z) : bool :=
  (minx b <=? p.1) && (p.1 <=? maxx b) && (miny b <=? p.2) && (p.2 <=? maxy b).

Definition xy_text (sep : string) (g : list (Z * Z)) : string :=
  join " " (map (fun p : Z * Z => str_of_Z p.1 +:+ sep +:+ str_of_Z p.2) g).

(** The array under ["coordinates"]. *)
Fixpoint json_points (m : list (string * json)) : option (list (Z * Z)) :=
  match m with
  | [] => None
  | (k, v) :: m' =>
      if decide (k = "coordinates") then match v with JList l => mapM json_xy l | _ => None end
      else json_points m'
  end.

(** [fails] says which intersections raise. *)
Definition xy_shapely (fails : box Z -> bool) : Shapely (list (Z * Z)) Z := {|
  geom_type := xy_kind;
  is_empty g := bool_decide (g = []);
  is_valid _ := true;
  make_valid g := Some g;
  members g := map (fun p => [p]) g;
  coords g := Z.of_nat (length g);
  rings _ := [];
  bounds g := Box (foldr Z.min 1000 (map fst g)) (foldr Z.min 1000 (map snd g))
                (foldr Z.max (-1000) (map fst g)) (foldr Z.max (-1000) (map snd g));
  intersection g b := if fails b then None else Some (List.filter (xy_inside b) g);
  wkb := xy_text ",";
  wkt g := "MULTIPOINT " +:+ xy_text " " g;
  wkb_hex_4326 := xy_text ",";
  shape j := match j with JObj m => json_points m | _ => None end;
  num_sub := Z.sub; num_mid a d := a + d / 2; num_le := Z.leb; num_zero := 0
|}.

#[export, refine] Instance xy_laws fails : @ShapelyLaws (list (Z * Z)) Z (xy_shapely fails) := {|
  point := Z * Z; covers p g := p ∈ g; px := fst; py := snd
|}.
Proof.
  - intros a b. simpl. rewrite !Z.leb_le. lia.
  - intros g p ->%bool_decide_eq_true_1. apply not_elem_of_nil.
  - intros g [x y] Hp. unfold in_box. simpl. rewrite !Z.leb_le.
    induction g as [|[x' y'] g IH]; [by apply elem_of_nil in Hp|]. simpl.
    apply elem_of_cons in Hp as [[= -> ->]|Hp]; [lia|]. specialize (IH Hp). lia.
  - intros g b i [x y]. simpl. destruct (fails b); [done|]. intros [= <-].
    rewrite !list_elem_of_In, filter_In. unfold in_box, xy_inside. simpl.
    rewrite !andb_true_iff. tauto.
  - intros g p. simpl. destruct g as [|? [|]]; done.
  - intros g m Hm. simpl in *. apply list_elem_of_fmap in Hm as (p & -> & _).
    by destruct g as [|? [|]].
Defined.

(** ** Properties *)

Lemma coord_count_total {geom num} `{Shapely geom num} d g : is_Some (coord_count (S d) g).
Proof. simpl. case_match; by eexists. Qed.

(** Subdivision always returns, and loses and adds no point: whatever
    intersections raise and however deep the recursion gets, the pieces are not
    empty and together cover exactly the points of the geometry. *)
Theorem subdivide_covers {geom num} `{ShapelyLaws geom num} (depth : nat) (g : geom) (max_vertices : Z) :
  (2 <= depth)%nat ->
  exists pieces, subdivide_geometry_by_vertices depth g max_vertices = Some pieces
    /\ Forall (fun q => is_empty q = false) pieces
    /\ forall p, (exists q, q ∈ pieces /\ covers p q) <-> covers p g.
Proof.
  intros Hd. destruct depth as [|[|d]]; [lia|lia|].
  assert (is_Some (subdivide_geometry_by_vertices (S (S d)) g max_vertices)) as [l Hl].
  { cbn [subdivide_geometry_by_vertices].
    destruct (is_empty g); [by eexists|].
    destruct (coord_count_total d g) as [n ->]. repeat case_match; by eexists. }
  exists l. split; [done|]. by apply (subdivide_splits (S (S d)) max_vertices g).
Qed.

Definition square : list (Z * Z) := [(0, 0); (0, 9); (9, 0); (9, 9); (4, 4)].

Lemma subdivide_covers_witness :
  exists pieces,
    @subdivide_geometry_by_vertices _ _ (xy_shapely (fun _ => false)) 9 square 2 = Some pieces
    /\ Forall (fun q => @is_empty _ _ (xy_shapely (fun _ => false)) q = false) pieces
    /\ forall p, (exists q, q ∈ pieces
         /\ @covers _ _ (xy_shapely (fun _ => false)) (xy_laws _) p q)
       <-> @covers _ _ (xy_shapely (fun _ => false)) (xy_laws _) p square.
Proof.
  apply (@subdivide_covers _ _ (xy_shapely (fun _ => false)) (xy_laws _) 9 square 2). lia.
Defined.

Example square_pieces :
  @subdivide_geometry_by_vertices _ _ (xy_shapely (fun _ => false)) 9 square 2
  = Some [[(0, 0); (4, 4)]; [(0, 9); (4, 4)]; [(9, 0); (4, 4)]; [(9, 9); (4, 4)]].
Proof. by vm_compute. Qed.

(** When the intersection with the second half raises, the pieces of the
    first half are kept and the whole geometry is appended to them: the same
    points are stored twice. *)
Theorem failed_cut_overlaps :
  exists fails,
    @subdivide_geometry_by_vertices _ _ (xy_shapely fails) 9 square 3
    = Some [[(0, 0); (0, 9); (4, 4)]; square].
Proof. exists (fun b => minx b =? 4). by vm_compute. Qed.

(** Every exploded part is a non-empty simple shape: a point, a line or a
    polygon, never a multi-part geometry or a collection. *)
Theorem explode_simple {geom num} `{ShapelyLaws geom num} (depth : nat) (g : geom) (parts : list geom) :
  explode_to_simple_parts depth g = Some parts ->
  Forall (fun q => is_empty q = false
    /\ geom_type q ∈ [Point; LineString; LinearRing; Polygon]) parts.
Proof.
  revert g parts. induction depth as [|d IH]; intros g parts Hp; simpl in Hp; [done|].
  destruct (is_empty g); [simplify_eq; constructor|].
  destruct (if is_valid g then Some g else make_valid g) as [g'|]; [|done]. simpl in Hp.
  destruct (is_empty g') eqn:He; [simplify_eq; constructor|].
  assert (geom_type g' ∈ [MultiPoint; MultiLineString; MultiPolygon] ->
    Forall (fun q => is_empty q = false
      /\ geom_type q ∈ [Point; LineString; LinearRing; Polygon]) (nonempty_members g')) as Hmulti.
  { intros Hk. apply List.Forall_forall. intros m [Hm%list_elem_of_In Hme]%filter_In.
    split; [by destruct (is_empty m)|]. pose proof (multi_members g' m Hm) as Hmt.
    rewrite !elem_of_cons in Hk. rewrite !elem_of_cons.
    destruct Hk as [Hk|[Hk|[Hk|[]%elem_of_nil]]]; rewrite Hk in Hmt; rewrite Hmt; auto. }
  destruct (geom_type g') eqn:Hk; simplify_eq;
    try (apply Hmulti; rewrite !elem_of_cons; auto; fail);
    try (constructor; [|constructor]; split; [done|]; rewrite Hk, !elem_of_cons; auto; fail).
  destruct (mapM _ (members g')) as [ls|] eqn:Hm; [|done]. simplify_eq/=.
  apply mapM_Some in Hm. clear Hmulti.
  induction Hm as [|m l ms ls Hml _ IHl]; [constructor|]. simpl. apply Forall_app.
  split; [by eapply IH|done].
Qed.

Lemma explode_simple_witness :
  Forall (fun q => @is_empty _ _ (xy_shapely (fun _ => false)) q = false
    /\ @geom_type _ _ (xy_shapely (fun _ => false)) q ∈ [Point; LineString; LinearRing; Polygon])
    [[(0, 0)]; [(0, 9)]; [(9, 0)]; [(9, 9)]; [(4, 4)]].
Proof.
  apply (@explode_simple _ _ (xy_shapely (fun _ => false)) (xy_laws _) 2 square). by vm_compute.
Defined.

(** A feature cut in Python is inserted completely under distinct part
    numbers: the batches hold exactly the texts that are not empty, in order, in
    non-empty statements of at most [batch_size] rows, and the part numbers
    increase strictly over all the batches and stay below the number of texts. *)
Theorem batched_parts_complete (wkts : list string) (batch_size : nat) :
  (0 < batch_size)%nat ->
  let parts := mjoin (batches batch_size wkts) in
  map snd parts = List.filter (fun w => negb (is_empty_or_null_wkt (Some w))) wkts
  /\ StronglySorted Z.lt (map part_idx parts)
  /\ Forall (fun z => 0 <= z < Z.of_nat (length wkts)) (map part_idx parts)
  /\ Forall (fun b => b <> [] /\ (length b <= batch_size)%nat) (batches batch_size wkts).
Proof. intros Hb. by apply part_batches_spec. Qed.

Lemma batched_parts_complete_witness :
  let parts := mjoin (batches 2 ["POINT (1 1)"; "POINT EMPTY"; "POINT (2 2)"; ""]) in
  map snd parts = ["POINT (1 1)"; "POINT (2 2)"]
  /\ StronglySorted Z.lt (map part_idx parts)
  /\ Forall (fun z => 0 <= z < 4) (map part_idx parts)
  /\ Forall (fun b => b <> [] /\ (length b <= 2)%nat)
       (batches 2 ["POINT (1 1)"; "POINT EMPTY"; "POINT (2 2)"; ""]).
Proof. apply (batched_parts_complete ["POINT (1 1)"; "POINT EMPTY"; "POINT (2 2)"; ""] 2). lia. Defined.
