(* ===== verification/CopyIngest.v ===== *)
(** * The COPY import (app/services/bulk_copy_ingest.py)

    Lines of a GeoJSON text sequence, or the features of a fiona source, become
    rows; the rows are copied to the staging table of the job in bounded
    batches; then the promotion is queued, or run at once.  The lines are parsed
    either one by one or in batches by a pool of worker processes, whose results
    are read in submission order.

    orjson, fiona, zipfile, uuid6 and shapely are third-party libraries and
    arguments here: [orjson_loads], [fiona_open], [zip_names], [uuid7] (the id
    drawn while line [i] is parsed) and [Shapely].  So are Python's [repr] of a
    value that is not a text or an integer, [dict()] of an array,
    [os.cpu_count()] and [os.path.abspath]. *)

From S2P Require Import Prelude PyTime Redis Postgres World Database Json Mutex JobStore Queue.
From S2P Require Import BulkQueue FinalizeQueue TileQueue Partitions Staging FinalizeWorker.
From S2P Require Import CopyFormat Subdivide.

Definition FINALIZE_QUEUED : string := "finalize_queued".

(** ** Rows *)

Record copy_row := CopyRow {
  cr_id : string;
  cr_collection : string;
  cr_part : Z;
  cr_wkb : string;
  cr_props : string;
  cr_job : option string;
  cr_time : datetime
}.

Definition opt_cell (s : option string) : cell := match s with Some s => CStr s | None => CNone end.

(** The tuple handed to COPY, in the order of [_COPY_SQL_TEMPLATE]. *)
Definition copy_cells (r : copy_row) : list cell :=
  [CStr (cr_id r); CStr (cr_collection r); CInt (cr_part r); CStr (cr_wkb r); CStr (cr_props r);
   opt_cell (cr_job r); CStr (isoformat (cr_time r)); CStr (isoformat (cr_time r))].

(** The row the server stores for it. *)
Definition stored_row (r : copy_row) : frow :=
  Row (cr_id r) (cr_collection r) (cr_part r) (dt_instant (cr_time r))
    (encode_copy_row [CStr (cr_wkb r); CStr (cr_props r); opt_cell (cr_job r);
                      CStr (isoformat (cr_time r))]).

(** ** Paths *)

(** [os.path.splitext(path)\[1\]]: the last component's extension; leading dots
    do not start one. *)
Definition skip_dots (s : string) : string :=
  (fix go (s : string) : string :=
     match s with String "." s' => go s' | _ => s end) s.
Definition basename (path : string) : string := default "" (last (split "/" path)).
Definition splitext (path : string) : string :=
  match split "." (skip_dots (basename path)) with
  | [] | [_] => ""
  | _ :: exts => "." +:+ default "" (last exts)
  end.

Definition geojson_seq_extensions : list string := [".geojsonl"; ".geojsonseq"; ".jsonl"].
Definition is_geojson_seq_path (path : string) : bool :=
  bool_decide (splitext (lower path) ∈ geojson_seq_extensions).

(** [_FIONA_DRIVERS] of app/services/bulk_import.py *)
Definition FIONA_DRIVERS : list (string * string) :=
  [(".kml", "KML"); (".gpkg", "GPKG"); (".geojson", "GeoJSON"); (".json", "GeoJSON");
   (".geojsonl", "GeoJSONSeq"); (".geojsonseq", "GeoJSONSeq"); (".jsonl", "GeoJSONSeq")].
Definition driver_for_path (path : string) : option string :=
  dict_get (lower (splitext path)) FIONA_DRIVERS.

(** ** Lines of a binary file *)

(** [bytes.strip()] leaves nothing. *)
Definition bytes_space (c : Ascii.ascii) : bool :=
  let n := Ascii.nat_of_ascii c in ((9 <=? n)%nat && (n <=? 13)%nat) || (n =? 32)%nat.
Fixpoint blank (s : string) : bool :=
  match s with EmptyString => true | String c s' => bytes_space c && blank s' end.

(** [for line in f]: lines keep their line feed. *)
Fixpoint file_lines_go (cur s : string) : list string :=
  match s with
  | EmptyString => if decide (cur = "") then [] else [String.rev cur]
  | String c s' =>
      if decide (c = lf) then String.rev (String c cur) :: file_lines_go "" s'
      else file_lines_go (String c cur) s'
  end.
Definition file_lines (s : string) : list string := file_lines_go "" s.

(** [try: m except Exception as e] with the outcome kept. *)
Definition attempt {A} (m : M A) : M (exn + A) := fun w => let (r, w') := m w in (inr r, w').

Definition RecursionError : exn := RuntimeError "maximum recursion depth exceeded".

Definition on_progress_t : Type := option (string -> Z -> option Z -> M unit).
Definition progress (f : on_progress_t) (status : string) (n : Z) (total : option Z) : M unit :=
  match f with Some f => f status n total | None => mret tt end.

(** The results of the submitted tasks, oldest first; [fut.result()] raises
    what the task raised. *)
Abbreviation futures := (list (res (list copy_row * Z))).

Section copy_ingest.
Context {geom num : Type} `{Shapely geom num}.
Context `{RedisServer} `{PostgresServer} `{Entropy} (cfg : Settings).
Context (depth : nat) (orjson_loads : string -> option json) (py_repr : json -> string)
  (dict_of_array : list json -> option (list (string * json))) (uuid7 : nat -> string)
  (cpu_count : Z) (abspath : string -> string)
  (zip_names : string -> option (list string))
  (fiona_open : gmap string string -> string -> string -> res (list (list (string * json)))).
Context (recompute_extent : string -> M unit).

(** ** Configuration *)

Definition parser_worker_count : Z :=
  let configured := bulk_copy_parser_workers cfg in
  if 0 <? configured then configured else Z.max 1 (int_or cpu_count 2 - 1).
Definition copy_batch_size : Z := Z.max 1000 (int_or (bulk_copy_batch_rows cfg) 20000).
Definition parse_batch_lines : Z := Z.max 500 (int_or (bulk_copy_parse_batch_lines cfg) 8000).
Definition max_inflight_batches (workers : Z) : Z :=
  let configured := bulk_copy_max_inflight_batches cfg in
  if 0 <? configured then configured else Z.max 2 (workers * 2).

(** [max(1, int(settings.features_subdivide_max_vertices or 256))] *)
Definition subdivide_max_vertices : Z := Z.max 1 (int_or (features_subdivide_max_vertices cfg) 256).
Definition heartbeat : Z := Z.max 0 (int_or (bulk_progress_heartbeat_seconds cfg) (us 5)).

Definition raise_if_cancelled (job_id : string) : M unit :=
  if decide (job_id = "") then mret tt
  else
    job ← get_job cfg job_id;
    if is_cancelled job then raise BulkImportCancelled else mret tt.

(** ** [_feature_rows_from_record] *)

(** [dict(rec.get("properties") or {})] *)
Definition props_of (rec : list (string * json)) : res (list (string * json)) :=
  match json_or (default JNull (dict_get "properties" rec)) (JObj []) with
  | JObj m => inr m
  | JList l => match dict_of_array l with Some m => inr m | None => inl (TypeError "dict()") end
  | JStr _ => inl (ValueError "dictionary update sequence element #0 has length 1; 2 is required")
  | _ => inl (TypeError "object is not iterable")
  end.

(** [rec.get("id")], when it is not null. *)
Definition given_id (rec : list (string * json)) : option json :=
  match dict_get "id" rec with Some JNull => None | x => x end.

(** [props.setdefault("id", fid)] *)
Definition set_default_id (fid : json) (props : list (string * json)) : list (string * json) :=
  match dict_get "id" props with Some _ => props | None => (props ++ [("id", fid)])%list end.

(** [str(fid)] *)
Definition id_text (fid : json) : string :=
  match fid with JStr s => s | JInt z => str_of_Z z | _ => py_repr fid end.

(** [json.dumps(props, separators=(",", ":"), ensure_ascii=False)] *)
Definition props_json (props : list (string * json)) : string :=
  dump false "," ":" (JObj props) "".

(** The parts of one simple geometry; [None] is a recursion error. *)
Definition geom_parts (g : geom) (max_vertices : Z) : option (list geom) :=
  n ← coord_count depth g;
  if MAX_COORDS_FOR_DB_SUBDIVIDE <? n then
    List.filter (fun p => negb (is_empty p) && negb (geometry_exceeds_limit cfg (Some p) None))
      <$> subdivide_geometry_by_vertices depth g max_vertices
  else Some [g].

(** The loop over the geometries: the parts in order and the failures. *)
Fixpoint collect_parts (max_vertices : Z) (geoms : list geom) : option (list geom * Z) :=
  match geoms with
  | [] => Some ([], 0)
  | g :: geoms' =>
      if is_empty g then collect_parts max_vertices geoms'
      else if geometry_exceeds_limit cfg (Some g) None then
        '(l, f) ← collect_parts max_vertices geoms'; Some (l, f + 1)
      else
        parts ← geom_parts g max_vertices;
        '(l, f) ← collect_parts max_vertices geoms';
        Some ((parts ++ l)%list, match parts with [] => f + 1 | _ => f end)
  end.

Definition feature_rows_from_record (i : nat) (rec : list (string * json)) (c : string)
    (job_id : option string) (now : datetime) (max_vertices : Z) : res (list copy_row * Z) :=
  let geom_dict := default JNull (dict_get "geometry" rec) in
  let! props := props_of rec in
  let fid := given_id rec in
  let props := match fid with Some j => set_default_id j props | None => props end in
  if negb (json_truthy geom_dict) then inr ([], 1)
  else
    match (g ← shape geom_dict; explode_to_simple_parts depth g) with
    | None | Some [] => inr ([], 1)
    | Some geoms =>
        let feature_id := match fid with Some j => id_text j | None => uuid7 i end in
        let job_tag := if truthy job_id then job_id else None in
        match collect_parts max_vertices geoms with
        | None => inl RecursionError
        | Some (parts, failed) =>
            let rows := imap (fun k p => CopyRow feature_id c (Z.of_nat k) (wkb_hex_4326 p)
                                           (props_json props) job_tag now) parts in
            inr (rows, if decide (rows = []) then Z.max 1 failed else failed)
        end
    end.

Definition parse_line_bytes (i : nat) (line c : string) (job_id : option string) (now_iso : string)
    (max_vertices : Z) : res (list copy_row * Z) :=
  let! now := match fromisoformat now_iso with
              | Some d => inr d
              | None => inl (ValueError ("Invalid isoformat string: '" +:+ now_iso +:+ "'"))
              end in
  if blank line then inr ([], 0)
  else
    match orjson_loads line with
    | Some (JObj rec) => feature_rows_from_record i rec c job_id now max_vertices
    | _ => inr ([], 1)
    end.

(** Lines with their numbers, one after the other. *)
Fixpoint parse_lines_batch (lines : list (nat * string)) (c : string) (job_id : option string)
    (now_iso : string) (max_vertices : Z) : res (list copy_row * Z) :=
  match lines with
  | [] => inr ([], 0)
  | (i, line) :: lines' =>
      let! r := parse_line_bytes i line c job_id now_iso max_vertices in
      let! s := parse_lines_batch lines' c job_id now_iso max_vertices in
      inr ((r.1 ++ s.1)%list, r.2 + s.2)
  end.

(** ** [_StagingCopier]: the buffer is passed along; [batch_size] is clamped as
    in the constructor. *)

Definition flush_batch (staging : string) (batch : list copy_row) : M Z :=
  transaction (stmt (CopyIn staging (map stored_row batch)));;
  mret (Z.of_nat (length batch)).

(** The loop of [add]; a flush needs a full batch, so [length buf] turns are enough. *)
Fixpoint flush_full (fuel : nat) (staging : string) (batch_size : nat) (buf : list copy_row) :
  M (Z * list copy_row) :=
  match fuel with
  | O => mret (0, buf)
  | S fuel' =>
      if (batch_size <=? length buf)%nat then
        n ← flush_batch staging (take batch_size buf);
        '(m, buf') ← flush_full fuel' staging batch_size (drop batch_size buf);
        mret (n + m, buf')
      else mret (0, buf)
  end.

Definition copier_size (batch_size : Z) : nat := Z.to_nat (Z.max 1000 batch_size).

Definition copier_add (staging : string) (batch_size : Z) (buf rows : list copy_row) :
  M (Z * list copy_row) :=
  let buf := (buf ++ rows)%list in
  flush_full (length buf) staging (copier_size batch_size) buf.

Definition flush_final (staging : string) (buf : list copy_row) : M Z :=
  match buf with [] => mret 0 | _ => flush_batch staging buf end.

(** ** Loading *)

(** The locals [created], [failed], [last_hb] and the buffer of the copier. *)
Record load_state := Load {
  ld_created : Z;
  ld_failed : Z;
  ld_last_hb : Z;
  ld_buf : list copy_row
}.

(** [_account] *)
Definition account (staging : string) (on_progress : on_progress_t) (st : load_state)
    (rows : list copy_row) (fail : Z) : M load_state :=
  buf ← (match rows with
         | [] => mret (ld_buf st)
         | _ => snd <$> copier_add staging copy_batch_size (ld_buf st) rows
         end);
  let created := ld_created st + Z.of_nat (length rows) in
  now ← get_now;
  if bool_decide (is_Some on_progress) && (0 <? heartbeat) && (heartbeat <=? now - ld_last_hb st) then
    progress on_progress "running" created None;;
    hb ← get_now;
    mret (Load created (ld_failed st + fail) hb buf)
  else mret (Load created (ld_failed st + fail) (ld_last_hb st) buf).

(** The arguments every parse of a load shares. *)
Record load_args := LoadArgs {
  la_collection : string;
  la_job : string;
  la_now_iso : string;
  la_max_vertices : Z
}.

Definition parse_line (a : load_args) (i : nat) (line : string) : res (list copy_row * Z) :=
  parse_line_bytes i line (la_collection a) (Some (la_job a)) (la_now_iso a) (la_max_vertices a).
Definition parse_batch (a : load_args) (lines : list (nat * string)) : res (list copy_row * Z) :=
  parse_lines_batch lines (la_collection a) (Some (la_job a)) (la_now_iso a) (la_max_vertices a).

(** One process: a line at a time. *)
Fixpoint load_serial (a : load_args) (staging : string) (on_progress : on_progress_t)
    (lines : list (nat * string)) (st : load_state) : M load_state :=
  match lines with
  | [] => mret st
  | (i, line) :: lines' =>
      when (i mod 2000 =? 0)%nat (raise_if_cancelled (la_job a));;
      '(rows, fail) ← lift (parse_line a i line);
      st ← account staging on_progress st rows fail;
      load_serial a staging on_progress lines' st
  end.

Definition drain_one (a : load_args) (staging : string) (on_progress : on_progress_t)
    (fut : res (list copy_row * Z)) (st : load_state) : M load_state :=
  '(rows, fail) ← lift fut;
  raise_if_cancelled (la_job a);;
  account staging on_progress st rows fail.

(** [while len(futures) >= n: _drain_one()] *)
Fixpoint drain_to (a : load_args) (staging : string) (on_progress : on_progress_t) (n : nat)
    (futs : futures) (st : load_state) : M (futures * load_state) :=
  match futs with
  | fut :: futs' =>
      if (n <=? length futs)%nat then
        st ← drain_one a staging on_progress fut st;
        drain_to a staging on_progress n futs' st
      else mret (futs, st)
  | [] => mret ([], st)
  end.

(** The loop over the lines: [batch] is being filled, [futs] are in flight. *)
Fixpoint load_parallel (a : load_args) (staging : string) (on_progress : on_progress_t)
    (parse_lines max_inflight : nat) (lines batch : list (nat * string)) (futs : futures)
    (st : load_state) : M load_state :=
  match lines with
  | [] =>
      let futs := match batch with [] => futs | _ => (futs ++ [parse_batch a batch])%list end in
      snd <$> drain_to a staging on_progress 1 futs st
  | (i, line) :: lines' =>
      if blank line then
        load_parallel a staging on_progress parse_lines max_inflight lines' batch futs st
      else
        let batch := (batch ++ [(i, line)])%list in
        if (parse_lines <=? length batch)%nat then
          '(futs, st) ← drain_to a staging on_progress max_inflight
                          (futs ++ [parse_batch a batch])%list st;
          load_parallel a staging on_progress parse_lines max_inflight lines' [] futs st
        else load_parallel a staging on_progress parse_lines max_inflight lines' batch futs st
  end.

Definition numbered (lines : list string) : list (nat * string) := imap pair lines.

Definition read_file (path : string) : M string :=
  files ← gets (fun w => w_files w);
  match files !! path with
  | Some s => mret s
  | None => raise (FileNotFoundError ("[Errno 2] No such file or directory: '" +:+ path +:+ "'"))
  end.

(** [copier.flush_final()] and the totals. *)
Definition finish_load (staging : string) (st : load_state) : M (Z * Z) :=
  flush_final staging (ld_buf st);;
  mret (ld_created st, ld_failed st).

Definition load_geojson_seq_into_staging (path c job_id staging : string)
    (on_progress : on_progress_t) : M (Z * Z) :=
  now ← get_now;
  let a := LoadArgs c job_id (isoformat (now_utc now)) subdivide_max_vertices in
  let workers := parser_worker_count in
  let st := Load 0 0 now [] in
  text ← read_file path;
  let lines := numbered (file_lines text) in
  st ← (if workers <=? 1 then load_serial a staging on_progress lines st
        else load_parallel a staging on_progress (Z.to_nat parse_batch_lines)
               (Z.to_nat (max_inflight_batches workers)) lines [] [] st);
  finish_load staging st.

(** ** [_load_fiona_source_into_staging] *)

(** [props.get("id") or feat.get("id")], then [rec\["id"\] = fid]. *)
Definition fiona_record (feat : list (string * json)) : res (list (string * json)) :=
  let! props := props_of feat in
  let from_props := default JNull (dict_get "id" props) in
  let fid := json_or from_props (default JNull (dict_get "id" feat)) in
  let rec := [("type", JStr "Feature"); ("geometry", default JNull (dict_get "geometry" feat));
              ("properties", JObj props)] in
  inr (match fid with JNull => rec | _ => (rec ++ [("id", fid)])%list end).

Fixpoint load_features (a : load_args) (now : datetime) (staging : string)
    (on_progress : on_progress_t) (feats : list (nat * list (string * json))) (st : load_state) :
  M load_state :=
  match feats with
  | [] => mret st
  | (i, feat) :: feats' =>
      when (i mod 2000 =? 0)%nat (raise_if_cancelled (la_job a));;
      '(rows, fail) ← lift (let! rec := fiona_record feat in
         feature_rows_from_record i rec (la_collection a) (Some (la_job a)) now (la_max_vertices a));
      st ← account staging on_progress st rows fail;
      load_features a now staging on_progress feats' st
  end.

Definition load_fiona_source_into_staging (open_path driver c job_id staging : string)
    (on_progress : on_progress_t) : M (Z * Z) :=
  now ← get_now;
  let a := LoadArgs c job_id (isoformat (now_utc now)) subdivide_max_vertices in
  files ← gets (fun w => w_files w);
  feats ← lift (fiona_open files open_path driver);
  st ← load_features a (now_utc now) staging on_progress (imap pair feats) (Load 0 0 now []);
  finish_load staging st.

(** ** [run_bulk_copy_import_sync] *)

Definition zip_members (path : string) : M (option (list string)) :=
  files ← gets (fun w => w_files w);
  mret (names ← zip_names (default "" (files !! path));
        Some (List.filter (fun n => endswith ".shp" (lower n)) names)).

(** [_resolve_zip_shapefile] of app/services/bulk_import.py: without
    [inner_path], a shapefile at the root is preferred. *)
Definition resolve_zip_shapefile (path : string) (inner_path : option string) : M (string * string) :=
  names ← zip_members path;
  match names with
  | None => raise (RuntimeError "File is not a zip file")
  | Some [] => raise (ValueError "ZIP contains no .shp file")
  | Some ((first :: _) as shps) =>
      inner ← (match inner_path with
               | Some p =>
                   if decide (p ∈ shps) then mret p
                   else raise (ValueError ("ZIP does not contain '" +:+ p +:+ "'"))
               | None =>
                   mret (default first (head (List.filter (fun n => negb (contains "/" n)) shps)))
               end);
      mret ("/vsizip/" +:+ abspath path +:+ "/" +:+ inner, "ESRI Shapefile")
  end.

(** The sources of an upload: [inl msg] is an early [return 0, 0, msg]. *)
Definition zip_sources (path : string) (inner : option (list string)) :
  M (string + list (string * string)) :=
  inner ← (if nonempty_list inner then mret inner else zip_members path);
  if nonempty_list inner then
    mret (inr (map (fun shp => ("/vsizip/" +:+ abspath path +:+ "/" +:+ shp, "ESRI Shapefile"))
                 (default [] inner)))
  else
    r ← attempt (resolve_zip_shapefile path None);
    match r with
    | inr s => mret (inr [s])
    | inl (ValueError m) => mret (inl m)
    | inl e => raise e
    end.

(** The loop over the members of a zip, which keeps its totals when one raises. *)
Fixpoint load_sources (c job_id staging : string) (on_progress : on_progress_t) (many : bool)
    (sources : list (string * string)) (created failed : Z) : M (Z * Z * option exn) :=
  match sources with
  | [] => mret (created, failed, None)
  | (open_path, driver) :: sources' =>
      r ← attempt (
        when many (progress on_progress "running" created None);;
        load_fiona_source_into_staging open_path driver c job_id staging on_progress);
      match r with
      | inl e => mret (created, failed, Some e)
      | inr (n, f) =>
          load_sources c job_id staging on_progress many sources' (created + n) (failed + f)
      end
  end.

(** One source: its counts, or [0, 0] and the exception. *)
Definition single_load (m : M (Z * Z)) : M (Z * Z * option exn) :=
  r ← attempt m;
  mret match r with inr (n, f) => (n, f, None) | inl e => (0, 0, Some e) end.

Definition load_upload (path c job_id staging : string) (on_progress : on_progress_t)
    (zip_inner : option (list string)) : M (string + Z * Z * option exn) :=
  if endswith ".zip" (lower path) then
    src ← zip_sources path zip_inner;
    match src with
    | inl msg => mret (inl msg)
    | inr sources =>
        inr <$> load_sources c job_id staging on_progress (1 <? length sources)%nat sources 0 0
    end
  else if is_geojson_seq_path path then
    inr <$> single_load (load_geojson_seq_into_staging path c job_id staging on_progress)
  else
    match driver_for_path path with
    | None => mret (inl "Unsupported file type for COPY ingest")
    | Some driver =>
        inr <$> single_load
          (load_fiona_source_into_staging path driver c job_id staging on_progress)
    end.

(** After the load: queue the promotion, or promote now. *)
Definition after_load (c mode job_id : string) (created : Z) (on_progress : on_progress_t) :
  M (option string) :=
  raise_if_cancelled job_id;;
  progress on_progress "running" created None;;
  if is_redis cfg && bulk_finalize_queue_enabled cfg then mret (Some FINALIZE_QUEUED)
  else
    promote_staging_sync cfg c job_id mode;;
    finalize_after_promote cfg recompute_extent c;;
    mret None.

(** The two [except] branches. *)
Definition import_failed (job_id mode : string) (created failed : Z) (e : exn) :
  M (Z * Z * option string) :=
  match e with
  | BulkImportCancelled =>
      try_pass (drop_staging_table_sync job_id);;
      mret (created, failed, Some "cancelled")
  | _ =>
      try_pass (
        staged ← staging_row_count_sync job_id;
        if (0 <? staged) && bool_decide (mode = "replace") then mret tt
        else drop_staging_table_sync job_id);;
      mret (created, failed, Some (exn_str e))
  end.

Definition prepare_import (c job_id : string) (on_progress : on_progress_t) : M string :=
  ensure_features_partition_sync c;;
  staging ← transaction (create_staging_table_sync job_id);
  progress on_progress "running" 0 None;;
  mret staging.

Definition copy_import_body (path c mode job_id : string) (on_progress : on_progress_t)
    (zip_inner : option (list string)) : M (Z * Z * option string) :=
  r ← attempt (staging ← prepare_import c job_id on_progress;
               load_upload path c job_id staging on_progress zip_inner);
  match r with
  | inl e => import_failed job_id mode 0 0 e
  | inr (inl msg) => mret (0, 0, Some msg)
  | inr (inr (created, failed, Some e)) => import_failed job_id mode created failed e
  | inr (inr (created, failed, None)) =>
      r ← attempt (after_load c mode job_id created on_progress);
      match r with
      | inr err => mret (created, failed, err)
      | inl e => import_failed job_id mode created failed e
      end
  end.

Definition run_bulk_copy_import_sync (path c mode job_id : string) (on_progress : on_progress_t)
    (zip_inner : option (list string)) : M (Z * Z * option string) :=
  if negb (bool_decide (mode ∈ ["append"; "replace"])) then
    mret (0, 0, Some ("Unsupported bulk copy mode: " +:+ mode))
  else
    files ← gets (fun w => w_files w);
    match files !! path with
    | None => mret (0, 0, Some ("Upload file not found: " +:+ path))
    | Some "" => mret (0, 0, Some ("Upload file is empty: " +:+ path))
    | Some _ =>
        incr_collection_bulk_activity cfg c;;
        try_finally (copy_import_body path c mode job_id on_progress zip_inner)
          (decr_collection_bulk_activity cfg c)
    end.
End copy_ingest.

(** ** Lemmas: the copier *)

(** The staging table after rows were copied to it. *)
Definition stage (db : database) (s : string) (rows : list copy_row) : database :=
  set_rows db s (rows_of db s ++ map stored_row rows)%list.

Lemma rows_of_set db s l t : db_tables db !! s = Some t -> rows_of (set_rows db s l) s = l.
Proof. intros Ht. unfold rows_of, set_rows. rewrite Ht. cbn. by rewrite lookup_insert_eq. Qed.

Lemma set_rows_table db s l t :
  db_tables db !! s = Some t ->
  db_tables (set_rows db s l) !! s = Some (Table l (t_logged t) (t_checks t)).
Proof. intros Ht. unfold set_rows. rewrite Ht. cbn. by rewrite lookup_insert_eq. Qed.

Lemma stage_nil db s t : db_tables db !! s = Some t -> stage db s [] = db.
Proof.
  intros Ht. unfold stage, set_rows, rows_of. rewrite Ht. simpl. rewrite app_nil_r.
  destruct t as [l lg ch], db as [tb p d cs]. cbn in *. f_equal. by apply insert_id.
Qed.

Lemma stage_stage db s t r1 r2 :
  db_tables db !! s = Some t -> stage (stage db s r1) s r2 = stage db s (r1 ++ r2).
Proof.
  intros Ht. unfold stage at 1. unfold stage at 2. rewrite (rows_of_set _ _ _ _ Ht).
  unfold stage, set_rows at 1. rewrite (set_rows_table _ _ _ _ Ht). unfold set_rows. rewrite Ht. cbn.
  rewrite insert_insert_eq, map_app, app_assoc. done.
Qed.

Lemma stage_table db s t rows : db_tables db !! s = Some t ->
  db_tables (stage db s rows) !! s = Some (Table (t_rows t ++ map stored_row rows) (t_logged t) (t_checks t)).
Proof.
  intros Ht. unfold stage. rewrite (set_rows_table _ _ _ _ Ht). unfold rows_of. by rewrite Ht.
Qed.

Section copier_lemmas.
Context `{PostgresLaws}.

(** The rows fit in the table: no primary key is repeated. *)
Definition fits (t : table) (rows : list copy_row) : Prop :=
  keys_unique (t_rows t ++ map stored_row rows) = true.

Lemma fits_prefix t r1 r2 : fits t (r1 ++ r2) -> fits t r1.
Proof.
  unfold fits. rewrite map_app, app_assoc. apply keys_unique_sublist, sublist_inserts_r. done.
Qed.
Lemma fits_rest t r1 r2 : fits t (r1 ++ r2) ->
  fits (Table (t_rows t ++ map stored_row r1) (t_logged t) (t_checks t)) r2.
Proof. unfold fits. cbn [t_rows]. by rewrite map_app, app_assoc. Qed.

Lemma flush_batch_run s batch w t :
  db_quiet w -> db_tables (w_db w) !! s = Some t -> fits t batch ->
  flush_batch s batch w = (inr (Z.of_nat (length batch)), with_db w (stage (w_db w) s batch)).
Proof.
  intros Hq Ht Hk. unfold flush_batch. rewrite bind_run.
  erewrite transaction_ok; [reflexivity|done|]. apply stmt_ok; [done|].
  unfold fits in Hk. cbn [sql_run]. unfold with_table, stage, rows_of. rewrite Ht. by rewrite Hk.
Qed.

Lemma flush_full_run fuel s bs buf w t :
  db_quiet w -> db_tables (w_db w) !! s = Some t -> fits t buf -> (0 < bs)%nat ->
  exists taken rest, flush_full fuel s bs buf w =
      (inr (Z.of_nat (length taken), rest), with_db w (stage (w_db w) s taken))
    /\ buf = (taken ++ rest)%list /\ ((length buf <= fuel)%nat -> (length rest < bs)%nat).
Proof.
  intros Hq Ht Hk Hbs. revert buf w t Hq Ht Hk.
  induction fuel as [|fuel IH]; intros buf w t Hq Ht Hk; cbn [flush_full].
  { exists [], buf. rewrite ret_run, (stage_nil _ _ _ Ht), with_db_same. split; [done|]. split; [done|]. lia. }
  destruct (Nat.leb_spec bs (length buf)) as [Hl|Hl].
  - rewrite <-(take_drop bs buf) in Hk.
    rewrite bind_run, (flush_batch_run _ _ _ _ Hq Ht (fits_prefix _ _ _ Hk)).
    destruct (IH (drop bs buf) (with_db w (stage (w_db w) s (take bs buf))) _ Hq (stage_table _ _ _ _ Ht)
                (fits_rest _ _ _ Hk))
      as (taken & rest & Hr & Hd & Hlen).
    exists (take bs buf ++ taken)%list, rest. rewrite bind_run, Hr. rewrite with_db_db, with_db_twice.
    rewrite (stage_stage _ _ _ _ _ Ht), ret_run, length_app, Nat2Z.inj_add. split; [done|]. split.
    + rewrite <-app_assoc, <-Hd. by rewrite take_drop.
    + intros Hf. apply Hlen. rewrite length_drop. lia.
  - exists [], buf. rewrite ret_run, (stage_nil _ _ _ Ht), with_db_same. by split.
Qed.

Lemma copier_size_pos bs : (0 < copier_size bs)%nat.
Proof. unfold copier_size. lia. Qed.

Lemma copier_add_run s bs buf rows w t :
  db_quiet w -> db_tables (w_db w) !! s = Some t -> fits t (buf ++ rows) ->
  exists taken rest, copier_add s bs buf rows w =
      (inr (Z.of_nat (length taken), rest), with_db w (stage (w_db w) s taken))
    /\ (buf ++ rows = taken ++ rest)%list /\ (length rest < copier_size bs)%nat.
Proof.
  intros Hq Ht Hk. unfold copier_add.
  destruct (flush_full_run (length (buf ++ rows)) s (copier_size bs) (buf ++ rows)%list w t
              Hq Ht Hk (copier_size_pos bs)) as (taken & rest & Hr & Hd & Hl).
  exists taken, rest. split; [done|]. split; [done|]. by apply Hl.
Qed.

Lemma flush_final_run s buf w t :
  db_quiet w -> db_tables (w_db w) !! s = Some t -> fits t buf ->
  flush_final s buf w = (inr (Z.of_nat (length buf)), with_db w (stage (w_db w) s buf)).
Proof.
  intros Hq Ht Hk. destruct buf; [|by eapply flush_batch_run].
  cbn [flush_final]. by rewrite ret_run, (stage_nil _ _ _ Ht), with_db_same.
Qed.
End copier_lemmas.

(** ** Lemmas: the loaders *)

(** What the loaders need of their world: [J] holds at the start and is kept by
    their own writes and by the progress callback, and where it holds no other
    session touches the database and the job is not cancelled. *)
Record load_env `{RedisServer} `{Entropy} (cfg : Settings) (job : string)
    (on_progress : on_progress_t) (J : world -> Prop) : Prop := {
  le_quiet w : J w -> db_quiet w;
  le_live w : J w -> raise_if_cancelled cfg job w = (inr tt, w);
  le_progress w n t : J w -> exists w', progress on_progress "running" n t w = (inr tt, w')
    /\ J w' /\ w_db w' = w_db w /\ w_files w' = w_files w;
  le_db w db : J w -> J (with_db w db)
}.

(** From [st] to [st'], [rows] were accounted for with [failed] failures. *)
Definition loaded (J : world -> Prop) (s : string) (bs : nat) (w : world) (st : load_state)
    (rows : list copy_row) (failed : Z) (w' : world) (st' : load_state) : Prop :=
  J w' /\ w_files w' = w_files w
  /\ ld_created st' = ld_created st + Z.of_nat (length rows)
  /\ ld_failed st' = ld_failed st + failed
  /\ (length (ld_buf st') < bs)%nat
  /\ exists taken, w_db w' = stage (w_db w) s taken
       /\ (ld_buf st ++ rows = taken ++ ld_buf st')%list.

Definition has_staging (w : world) (s : string) : Prop := is_Some (db_tables (w_db w) !! s).

Lemma loaded_staging J s bs w st rows f w' st' :
  has_staging w s -> loaded J s bs w st rows f w' st' -> has_staging w' s.
Proof.
  intros [t Ht] (_ & _ & _ & _ & _ & taken & Hdb & _). unfold has_staging. rewrite Hdb.
  rewrite (stage_table _ _ _ _ Ht). by eexists.
Qed.

Lemma loaded_trans J s bs w st r1 f1 w1 st1 r2 f2 w2 st2 :
  has_staging w s ->
  loaded J s bs w st r1 f1 w1 st1 -> loaded J s bs w1 st1 r2 f2 w2 st2 ->
  loaded J s bs w st (r1 ++ r2) (f1 + f2) w2 st2.
Proof.
  intros [t Ht] (_ & Hfi1 & Hc1 & Hf1 & _ & k1 & Hd1 & Hb1) (Hj & Hfi2 & Hc2 & Hf2 & Hl & k2 & Hd2 & Hb2).
  split; [done|]. split; [congruence|]. split; [rewrite length_app; lia|]. split; [lia|].
  split; [done|]. exists (k1 ++ k2)%list. rewrite Hd2, Hd1, (stage_stage _ _ _ _ _ Ht). split; [done|].
  by rewrite app_assoc, Hb1, <-!app_assoc, Hb2.
Qed.

(** The staging table, with the rows that are still buffered and those to come:
    no primary key is repeated. *)
Definition has_room (w : world) (s : string) (st : load_state) (rows : list copy_row) : Prop :=
  exists t, db_tables (w_db w) !! s = Some t /\ fits t (ld_buf st ++ rows).

Lemma has_room_staging w s st rows : has_room w s st rows -> has_staging w s.
Proof. intros (t & Ht & _). by exists t. Qed.

Lemma room_prefix w s st r1 r2 : has_room w s st (r1 ++ r2) -> has_room w s st r1.
Proof.
  intros (t & Ht & Hk). exists t. split; [done|]. rewrite app_assoc in Hk. by eapply fits_prefix.
Qed.

Lemma loaded_room J s bs w st r1 f1 w1 st1 r2 :
  has_room w s st (r1 ++ r2) -> loaded J s bs w st r1 f1 w1 st1 -> has_room w1 s st1 r2.
Proof.
  intros (t & Ht & Hk) (_ & _ & _ & _ & _ & taken & Hdb & Hb).
  eexists. rewrite Hdb. split; [by apply stage_table|].
  apply fits_rest. by rewrite app_assoc, <-Hb, <-app_assoc.
Qed.

(** [parse_lines_batch] over concatenated lines, and gathered task results. *)
Definition add_results (x y : res (list copy_row * Z)) : res (list copy_row * Z) :=
  let! r := x in let! s := y in inr ((r.1 ++ s.1)%list, r.2 + s.2).
Definition gather (l : futures) : res (list copy_row * Z) := foldr add_results (inr ([], 0)) l.

Lemma add_results_inr x y rows f : add_results x y = inr (rows, f) ->
  exists r1 f1 r2 f2, x = inr (r1, f1) /\ y = inr (r2, f2) /\ rows = (r1 ++ r2)%list /\ f = f1 + f2.
Proof.
  unfold add_results. destruct x as [|[r1 f1]]; [done|]. destruct y as [|[r2 f2]]; [done|].
  simpl. intros [= <- <-]. by exists r1, f1, r2, f2.
Qed.

Lemma gather_app l k rows f : gather (l ++ k)%list = inr (rows, f) ->
  exists r1 f1 r2 f2, gather l = inr (r1, f1) /\ gather k = inr (r2, f2)
    /\ rows = (r1 ++ r2)%list /\ f = f1 + f2.
Proof.
  revert rows f. induction l as [|x l IH]; intros rows f Hg; simpl in Hg.
  { exists [], 0, rows, f. split; [done|]. split; [done|]. split; [done|lia]. }
  apply add_results_inr in Hg as (r1 & f1 & r2 & f2 & -> & Hg & -> & ->).
  destruct (IH _ _ Hg) as (r3 & f3 & r4 & f4 & Hl & Hk & -> & ->).
  exists (r1 ++ r3)%list, (f1 + f3), r4, f4. simpl. rewrite Hl. simpl.
  split; [done|]. split; [done|]. by rewrite app_assoc, Z.add_assoc.
Qed.

Lemma gather_app_ok l k r1 f1 r2 f2 :
  gather l = inr (r1, f1) -> gather k = inr (r2, f2) ->
  gather (l ++ k)%list = inr ((r1 ++ r2)%list, f1 + f2).
Proof.
  revert r1 f1. induction l as [|x l IH]; intros r1 f1 Hl Hk; simpl in Hl.
  { simplify_eq. simpl. by rewrite Hk. }
  apply add_results_inr in Hl as (p & q & p' & q' & -> & Hl & -> & ->). fold (gather l) in Hl.
  specialize (IH _ _ Hl Hk). simpl. fold (gather (l ++ k)). rewrite IH. simpl.
  by rewrite app_assoc, Z.add_assoc.
Qed.

Lemma gather_one x r : x = inr r -> gather [x] = inr r.
Proof. intros ->. destruct r as [r f]. simpl. rewrite app_nil_r. do 2 f_equal. lia. Qed.

Section load_lemmas.
Context {geom num : Type} `{Shapely geom num}.
Context `{RedisServer} `{PostgresLaws} `{Entropy} (cfg : Settings).
Context (depth : nat) (orjson_loads : string -> option json) (py_repr : json -> string)
  (dict_of_array : list json -> option (list (string * json))) (uuid7 : nat -> string).
Context (a : load_args) (s : string) (on_progress : on_progress_t) (J : world -> Prop).
Context (Henv : load_env cfg (la_job a) on_progress J).

Abbreviation batch_of := (parse_batch cfg depth orjson_loads py_repr dict_of_array uuid7 a).
Abbreviation line_of := (parse_line cfg depth orjson_loads py_repr dict_of_array uuid7 a).
Abbreviation bs := (copier_size (copy_batch_size cfg)).

Lemma batch_cons i line lines : batch_of ((i, line) :: lines) = add_results (line_of i line) (batch_of lines).
Proof. reflexivity. Qed.

Lemma batch_nil : batch_of [] = inr ([], 0).
Proof. reflexivity. Qed.

Lemma batch_gather l : batch_of l = gather (map (fun x => line_of x.1 x.2) l).
Proof. induction l as [|[i line] l IH]; [done|]. rewrite batch_cons, IH. done. Qed.

Lemma batch_snoc l i line r1 f1 r2 f2 :
  batch_of l = inr (r1, f1) -> line_of i line = inr (r2, f2) ->
  batch_of (l ++ [(i, line)])%list = inr ((r1 ++ r2)%list, f1 + f2).
Proof.
  rewrite !batch_gather, map_app. intros Hl Hline. apply gather_app_ok; [done|].
  simpl. rewrite Hline. simpl. rewrite app_nil_r. do 2 f_equal. lia.
Qed.

Lemma account_run st rows f w :
  J w -> has_room w s st rows -> (length (ld_buf st) < bs)%nat ->
  exists w' st', account cfg s on_progress st rows f w = (inr st', w')
    /\ loaded J s bs w st rows f w' st'.
Proof.
  intros Hj (t & Ht & Hk) Hb. pose proof (le_quiet _ _ _ _ Henv _ Hj) as Hq.
  assert (exists taken rest, (match rows with [] => mret (ld_buf st)
       | _ => snd <$> copier_add s (copy_batch_size cfg) (ld_buf st) rows end) w
      = (inr rest, with_db w (stage (w_db w) s taken))
      /\ (ld_buf st ++ rows = taken ++ rest)%list /\ (length rest < bs)%nat) as (taken & rest & Hr & Hd & Hl).
  { destruct rows as [|r rows].
    - exists [], (ld_buf st). rewrite ret_run, (stage_nil _ _ _ Ht), with_db_same. by rewrite app_nil_r.
    - destruct (copier_add_run s (copy_batch_size cfg) (ld_buf st) (r :: rows) w t Hq Ht Hk)
        as (taken & rest & Hr & ?). exists taken, rest. rewrite fmap_run, Hr. done. }
  unfold account. rewrite bind_run, Hr. set (w1 := with_db w _).
  assert (J w1) as Hj1 by by apply (le_db _ _ _ _ Henv).
  rewrite bind_run, get_now_run.
  destruct (bool_decide (is_Some on_progress) && _ && _).
  - destruct (le_progress _ _ _ _ Henv w1 (ld_created st + Z.of_nat (length rows)) None Hj1)
      as (w2 & Hp & Hj2 & Hdb & Hfi). rewrite bind_run, Hp, bind_run, get_now_run.
    eexists _, _. split; [reflexivity|]. split; [done|]. cbn. split; [done|]. split; [done|]. split; [done|].
    split; [done|]. exists taken. by rewrite Hdb.
  - eexists _, _. split; [reflexivity|]. split; [done|]. cbn. split; [done|]. split; [done|]. split; [done|].
    split; [done|]. by exists taken.
Qed.

Lemma live_when b w : J w -> when b (raise_if_cancelled cfg (la_job a)) w = (inr tt, w).
Proof. intros Hj. destruct b; [by apply (le_live _ _ _ _ Henv)|done]. Qed.

Lemma loaded_refl w st rows : J w -> has_room w s st rows -> (length (ld_buf st) < bs)%nat ->
  loaded J s bs w st [] 0 w st.
Proof.
  intros Hj (t & Ht & _) Hb. split; [done|]. split; [done|]. simpl. split; [lia|]. split; [lia|].
  split; [done|]. exists []. by rewrite (stage_nil _ _ _ Ht), app_nil_r.
Qed.

Lemma loaded_J w st rows f w' st' : loaded J s bs w st rows f w' st' -> J w'.
Proof. by intros []. Qed.
Lemma loaded_buf w st rows f w' st' : loaded J s bs w st rows f w' st' -> (length (ld_buf st') < bs)%nat.
Proof. by intros (_ & _ & _ & _ & ? & _). Qed.

Lemma load_serial_run lines st rows f w :
  J w -> has_room w s st rows -> (length (ld_buf st) < bs)%nat -> batch_of lines = inr (rows, f) ->
  exists w' st', load_serial cfg depth orjson_loads py_repr dict_of_array uuid7 a s on_progress lines st w
      = (inr st', w') /\ loaded J s bs w st rows f w' st'.
Proof.
  revert st rows f w. induction lines as [|[i line] lines IH]; intros st rows f w Hj Ht Hb Hp.
  { rewrite batch_nil in Hp. simplify_eq. exists w, st. split; [done|]. by eapply loaded_refl. }
  rewrite batch_cons in Hp. apply add_results_inr in Hp as (r1 & f1 & r2 & f2 & Hline & Hrest & -> & ->).
  cbn [load_serial]. rewrite bind_run, live_when by done. rewrite bind_run, lift_run, Hline.
  destruct (account_run st r1 f1 w Hj (room_prefix _ _ _ _ _ Ht) Hb) as (w1 & st1 & Ha & Hl1). rewrite bind_run, Ha.
  destruct (IH st1 r2 f2 w1) as (w2 & st2 & Hs & Hl2); [by eapply loaded_J|by eapply loaded_room|by eapply loaded_buf|done|].
  exists w2, st2. split; [done|]. apply has_room_staging in Ht. by eapply loaded_trans.
Qed.

Lemma drain_to_run n futs st rows later f w :
  (1 <= n)%nat -> J w -> has_room w s st (rows ++ later) -> (length (ld_buf st) < bs)%nat ->
  gather futs = inr (rows, f) ->
  exists w' st' futs' r1 f1 r2 f2, drain_to cfg a s on_progress n futs st w = (inr (futs', st'), w')
    /\ loaded J s bs w st r1 f1 w' st' /\ gather futs' = inr (r2, f2)
    /\ rows = (r1 ++ r2)%list /\ f = f1 + f2 /\ (length futs' < n)%nat.
Proof.
  intros Hn. revert st rows f w. induction futs as [|fut futs IH]; intros st rows f w Hj Ht Hb Hg; cbn [drain_to].
  { exists w, st, [], [], 0, rows, f. split; [done|]. split; [by eapply loaded_refl|].
    split; [done|]. split; [done|]. simpl. split; lia. }
  destruct (Nat.leb_spec n (length (fut :: futs))) as [Hl|Hl].
  - cbn [gather foldr] in Hg. fold (gather futs) in Hg.
    apply add_results_inr in Hg as (r1 & f1 & r2 & f2 & -> & Hg & -> & ->).
    rewrite <-app_assoc in Ht. pose proof (has_room_staging _ _ _ _ Ht) as Hst.
    destruct (account_run st r1 f1 w Hj (room_prefix _ _ _ _ _ Ht) Hb) as (w1 & st1 & Ha & Hl1).
    destruct (IH st1 r2 f2 w1) as (w2 & st2 & futs' & r3 & f3 & r4 & f4 & Hd & Hl2 & Hg' & -> & -> & Hlen);
      [by eapply loaded_J|by eapply loaded_room|by eapply loaded_buf|done|].
    exists w2, st2, futs', (r1 ++ r3)%list, (f1 + f3), r4, f4.
    unfold drain_one. rewrite bind_run, bind_run, lift_run, bind_run, (le_live _ _ _ _ Henv), Ha by done.
    split; [done|]. split; [by eapply loaded_trans|]. split; [done|]. rewrite app_assoc. split; [done|]. split; [lia|done].
  - exists w, st, (fut :: futs), [], 0, rows, f. split; [done|]. split; [by eapply loaded_refl|].
    split; [done|]. split; [done|]. split; [lia|done].
Qed.

(** A blank line yields nothing where lines parse at all. *)
Lemma blank_line i line r : blank line = true -> line_of i line = inr r -> r = ([], 0).
Proof.
  intros Hb. unfold parse_line, parse_line_bytes. destruct (fromisoformat _); [|done].
  cbn [res_bind]. rewrite Hb. by intros [= <-].
Qed.

Lemma load_parallel_run pl mi lines batch futs st r1 f1 r2 f2 r3 f3 w :
  (1 <= mi)%nat -> J w -> has_room w s st (r1 ++ r2 ++ r3) -> (length (ld_buf st) < bs)%nat ->
  gather futs = inr (r1, f1) -> batch_of batch = inr (r2, f2) -> batch_of lines = inr (r3, f3) ->
  exists w' st',
    load_parallel cfg depth orjson_loads py_repr dict_of_array uuid7 a s on_progress pl mi lines batch futs st w
      = (inr st', w') /\ loaded J s bs w st (r1 ++ r2 ++ r3) (f1 + f2 + f3) w' st'.
Proof.
  intros Hmi. revert batch futs st r1 f1 r2 f2 r3 f3 w.
  induction lines as [|[i line] lines IH]; intros batch futs st r1 f1 r2 f2 r3 f3 w Hj Ht Hb Hg Hbt Hls; cbn [load_parallel].
  - rewrite batch_nil in Hls. simplify_eq.
    assert (gather (match batch with [] => futs | _ => (futs ++ [batch_of batch])%list end)
            = inr ((r1 ++ r2)%list, f1 + f2)) as Hall.
    { destruct batch as [|b batch]; [rewrite batch_nil in Hbt; simplify_eq; by rewrite app_nil_r, Z.add_0_r|].
      by apply gather_app_ok; [|apply gather_one]. }
    rewrite app_assoc in Ht. destruct (drain_to_run 1 _ st _ _ _ w (le_n 1) Hj Ht Hb Hall)
      as (w' & st' & futs' & p & q & p' & q' & Hd & Hl & Hg' & Hr & Hf & Hlen).
    exists w', st'. rewrite fmap_run, Hd. split; [done|].
    destruct futs'; [|simpl in Hlen; lia]. simpl in Hg'. simplify_eq.
    rewrite app_nil_r in Hr. rewrite app_nil_r, Hr. by replace (f1 + f2 + 0) with q by lia.
  - rewrite batch_cons in Hls. apply add_results_inr in Hls as (p & q & p' & q' & Hline & Hrest & -> & ->).
    destruct (blank line) eqn:Hblank.
    { pose proof (blank_line _ _ _ Hblank Hline) as Hz. simplify_eq. by apply (IH batch futs). }
    pose proof (batch_snoc _ _ _ _ _ _ _ Hbt Hline) as Hb2.
    replace (f1 + f2 + (q + q')) with (f1 + (f2 + q) + q') by lia. rewrite (app_assoc r2 p p') in Ht |- *.
    destruct (_ <=? _)%nat; [|by apply (IH _ futs)].
    pose proof (gather_app_ok _ _ _ _ _ _ Hg (gather_one _ _ Hb2)) as Hg2.
    pose proof (has_room_staging _ _ _ _ Ht) as Hst.
    rewrite (app_assoc r1) in Ht. destruct (drain_to_run mi _ st _ _ _ w Hmi Hj Ht Hb Hg2)
      as (w1 & st1 & futs1 & p1 & q1 & p2 & q2 & Hd & Hl1 & Hg1 & Hr & Hf & _).
    destruct (IH [] futs1 st1 p2 q2 [] 0 p' q' w1) as (w2 & st2 & Hrun & Hl2);
      [by eapply loaded_J|rewrite Hr, <-app_assoc in Ht; by eapply loaded_room|by eapply loaded_buf|done|done|done|].
    exists w2, st2. rewrite bind_run, Hd. split; [done|].
    rewrite app_assoc, Hr, <-app_assoc.
    replace (f1 + (f2 + q) + q') with (q1 + (q2 + 0 + q')) by lia. by eapply loaded_trans.
Qed.
End load_lemmas.

(** ** Lemmas: a whole import *)

Section import_lemmas.
Context {geom num : Type} `{Shapely geom num}.
Context `{RedisLaws} `{PostgresLaws} `{Entropy} (cfg : Settings).
Context (depth : nat) (orjson_loads : string -> option json) (py_repr : json -> string)
  (dict_of_array : list json -> option (list (string * json))) (uuid7 : nat -> string)
  (cpu_count : Z).

(** The rows an upload's text stands for, loaded at [now]. *)
Definition upload_rows (text c job : string) (now : Z) : res (list copy_row * Z) :=
  parse_batch cfg depth orjson_loads py_repr dict_of_array uuid7
    (LoadArgs c job (isoformat (now_utc now)) (subdivide_max_vertices cfg))
    (numbered (file_lines text)).

Lemma finish_load_run J s bs w now rows f w1 st1 :
  (forall w, J w -> db_quiet w) -> (forall w db, J w -> J (with_db w db)) ->
  has_room w s (Load 0 0 now []) rows -> loaded J s bs w (Load 0 0 now []) rows f w1 st1 ->
  exists w', finish_load s st1 w1 = (inr (Z.of_nat (length rows), f), w')
    /\ J w' /\ w_files w' = w_files w /\ w_db w' = stage (w_db w) s rows.
Proof.
  intros Hdq Hdb Hs Hl. assert (exists t1, db_tables (w_db w1) !! s = Some t1 /\ fits t1 (ld_buf st1))
    as (t1 & Ht1 & Hk1).
  { rewrite <-(app_nil_r rows) in Hs. destruct (loaded_room _ _ _ _ _ _ _ _ _ _ Hs Hl) as (t1 & ? & Hk).
    rewrite app_nil_r in Hk. by exists t1. }
  apply has_room_staging in Hs.
  destruct Hl as (Hj & Hfi & Hc & Hf & _ & taken & Hd & Hb), Hs as [t Ht]. cbn [ld_buf ld_created ld_failed] in *.
  exists (with_db w1 (stage (w_db w1) s (ld_buf st1))). split; [|split; [|split]]; [|by apply Hdb|done|].
  - unfold finish_load. rewrite bind_run, (flush_final_run _ _ _ _ (Hdq _ Hj) Ht1 Hk1), ret_run.
    by rewrite Hc, Hf.
  - rewrite with_db_db, Hd, (stage_stage _ _ _ _ _ Ht). by rewrite <-Hb.
Qed.

Lemma load_geojson_run path text c job s on_progress J rows f w :
  load_env cfg job on_progress J -> J w -> has_room w s (Load 0 0 (w_now w) []) rows -> w_files w !! path = Some text ->
  upload_rows text c job (w_now w) = inr (rows, f) ->
  exists w', load_geojson_seq_into_staging cfg depth orjson_loads py_repr dict_of_array uuid7 cpu_count
      path c job s on_progress w = (inr (Z.of_nat (length rows), f), w')
    /\ J w' /\ w_files w' = w_files w /\ w_db w' = stage (w_db w) s rows.
Proof.
  intros Henv Hj Hs Hfile Hp. unfold load_geojson_seq_into_staging.
  rewrite bind_run, get_now_run. cbv zeta. unfold read_file. rewrite !bind_run, gets_run, Hfile, ret_run.
  set (a := LoadArgs _ _ _ _). set (st := Load _ _ _ _).
  assert (length (ld_buf st) < copier_size (copy_batch_size cfg))%nat as Hb by apply copier_size_pos.
  assert (1 <= Z.to_nat (max_inflight_batches cfg (parser_worker_count cfg cpu_count)))%nat as Hmi.
  { unfold max_inflight_batches. case_match; lia. }
  rewrite bind_run. destruct (_ <=? 1).
  - destruct (load_serial_run cfg depth orjson_loads py_repr dict_of_array uuid7 a s on_progress J Henv
      _ st rows f w Hj Hs Hb Hp) as (w1 & st1 & -> & Hl).
    eapply finish_load_run; [apply Henv|apply Henv|done|exact Hl].
  - destruct (load_parallel_run cfg depth orjson_loads py_repr dict_of_array uuid7 a s on_progress J Henv
      (Z.to_nat (parse_batch_lines cfg)) _ _ [] [] st [] 0 [] 0 rows f w Hmi Hj Hs Hb eq_refl eq_refl Hp)
      as (w1 & st1 & -> & Hl).
    eapply finish_load_run; [apply Henv|apply Henv|done|exact Hl].
Qed.

Lemma drop_unattached db n :
  is_attached db n = false -> drop_table db n = set_tables db (delete n (db_tables db)).
Proof. intros Ha. by apply detach_unattached. Qed.

Lemma create_staging_run job db :
  is_attached db (staging_table_name job) = false ->
  create_staging_table_sync job db =
  (inr (staging_table_name job), set_table db (staging_table_name job) (Table [] false [])).
Proof.
  intros Ha. set (s := staging_table_name job) in *. unfold create_staging_table_sync. cbv zeta. fold s.
  destruct (has_table db s) eqn:Hh.
  - rewrite tx_bind_run, (stmt_ok (DropTable s true) db tt (drop_table db s)); [|done|cbn; by rewrite Hh].
    rewrite tx_bind_run, (stmt_ok (CreateStaging s) _ tt (set_table (drop_table db s) s (Table [] false [])));
      [|done|].
    + rewrite tx_ret_run, drop_unattached by done. unfold set_table, set_tables. cbn.
      by rewrite insert_delete_eq.
    + cbn [sql_run]. unfold has_table. rewrite drop_table_tables, lookup_delete_eq. done.
  - rewrite tx_bind_run, (stmt_ok (DropTable s true) db tt db); [|done|cbn; by rewrite Hh].
    rewrite tx_bind_run, (stmt_ok (CreateStaging s) _ tt (set_table db s (Table [] false []))); [done|done|].
    cbn. by rewrite Hh.
Qed.

(** The staging table with the rows of an import. *)
Definition with_staged (db : database) (job : string) (rows : list copy_row) : database :=
  set_table db (staging_table_name job) (Table (map stored_row rows) false []).

Lemma stage_fresh db job rows :
  stage (set_table db (staging_table_name job) (Table [] false [])) (staging_table_name job) rows
  = with_staged db job rows.
Proof.
  unfold stage, set_rows, rows_of, with_staged, set_table, set_tables. cbn. rewrite lookup_insert_eq.
  cbn. by rewrite insert_insert_eq.
Qed.

Lemma live_rows_staged db job rows c :
  is_attached db (staging_table_name job) = false -> live_rows (with_staged db job rows) c = live_rows db c.
Proof.
  intros Ha. apply live_rows_frame; [done| |done]. intros n Hn. cbn. apply lookup_insert_ne.
  intros He. rewrite <-He in Hn. by eapply not_attached_spec.
Qed.

(** The worlds of an import of [c] by [job]: nobody interferes, the job's record
    says something else than cancelled, and [k] imports of [c] are counted. *)
Record importing (c job : string) (k : Z) (w : world) : Prop := {
  im_quiet : quiet w;
  im_db_quiet : db_quiet w;
  im_job : exists j, job_stored (w_now w) (w_redis w) job j /\ status j <> "cancelled";
  im_counter : counter_ok (w_now w) (w_redis w) (inflight_key c);
  im_count : counter_of (w_now w) (w_redis w) (inflight_key c) = k
}.

(** What the caller keeps during an import: [J k] with [k] imports counted is
    kept by the import's own writes to the database and to the counter, and by the
    progress callback. *)
Record good_progress (c job : string) (on_progress : on_progress_t) (J : Z -> world -> Prop) : Prop := {
  gp_importing k w : J k w -> importing c job k w;
  gp_db k w db : J k w -> J k (with_db w db);
  gp_counter k k' w ks' : J k w -> (forall key, key <> inflight_key c -> ks' !! key = w_redis w !! key) ->
    importing c job k' (with_redis w ks') -> J k' (with_redis w ks');
  gp_progress k w n t : J k w -> exists w', progress on_progress "running" n t w = (inr tt, w')
    /\ J k w' /\ w_db w' = w_db w /\ w_files w' = w_files w /\ w_now w' = w_now w
}.

Lemma importing_env c job k on_progress J :
  is_redis cfg = true -> good_progress c job on_progress J -> load_env cfg job on_progress (J k).
Proof.
  intros Hr Hp. split.
  - intros w Hj. by apply (gp_importing _ _ _ _ Hp), im_db_quiet in Hj.
  - intros w Hj. apply (gp_importing _ _ _ _ Hp) in Hj as Hi. unfold raise_if_cancelled. case_decide; [done|].
    destruct (im_job _ _ _ _ Hi) as (j & Hjob & Hst).
    rewrite bind_run, (get_job_quiet cfg Hr w job j (im_quiet _ _ _ _ Hi) Hjob). simpl.
    by rewrite bool_decide_eq_false_2.
  - intros w n t Hj. destruct (gp_progress _ _ _ _ Hp k w n t Hj) as (w' & ? & ? & ? & ? & _). by exists w'.
  - intros w db. by apply (gp_db _ _ _ _ Hp).
Qed.

Lemma activity_importing c job on_progress J k op w :
  is_redis cfg = true -> good_progress c job on_progress J -> J k w ->
  exists ks', activity_run cfg c op w = (inr tt, with_redis w ks')
    /\ J (activity_step k op) (with_redis w ks').
Proof.
  intros Hr Hp Hj. destruct (gp_importing _ _ _ _ Hp _ _ Hj) as [Hq Hdq (j & Hjob & Hst) Hc Hk].
  destruct (activity_run_quiet cfg Hr w c op Hq Hc) as (ks' & Hrun & Hc' & Hn & Hfr).
  exists ks'. split; [done|]. apply (gp_counter _ _ _ _ Hp k); [done|done|].
  split; [done|done| |done|by rewrite <-Hk].
  exists j. split; [|done]. eapply job_stored_frame; [|exact Hjob]. apply Hfr. by key_neq.
Qed.
End import_lemmas.

(** ** Lemmas: rows of a record *)

(** The rows of one feature: the parts numbered from 0 under one id. *)
Definition feature_rows (c : string) (rows : list copy_row) : Prop :=
  exists id, map cr_part rows = map Z.of_nat (seq 0 (length rows))
    /\ Forall (fun r => cr_id r = id /\ cr_collection r = c) rows.

Lemma imap_numbered {A} (f : nat -> A -> copy_row) l k :
  (forall i x, cr_part (f i x) = Z.of_nat i) ->
  map cr_part (imap (fun i => f (k + i)%nat) l) = map Z.of_nat (seq k (length l)).
Proof.
  intros Hf. revert k. induction l as [|x l IH]; intros k; [done|]. cbn [imap length seq map].
  rewrite Hf, Nat.add_0_r. f_equal. rewrite <-IH. f_equal. apply imap_ext. intros i y _. simpl.
  by rewrite Nat.add_succ_r.
Qed.

Section record_lemmas.
Context {geom num : Type} `{Shapely geom num} (cfg : Settings).
Context (depth : nat) (orjson_loads : string -> option json) (py_repr : json -> string)
  (dict_of_array : list json -> option (list (string * json))) (uuid7 : nat -> string).

Lemma collect_parts_nonneg mv geoms parts f :
  collect_parts cfg depth mv geoms = Some (parts, f) -> 0 <= f.
Proof.
  revert parts f. induction geoms as [|g geoms IH]; intros parts f Hc; simpl in Hc; [by simplify_eq|].
  destruct (is_empty g); [by eapply IH|].
  destruct (geometry_exceeds_limit _ _ _).
  - destruct (collect_parts _ _ _ geoms) as [[l f']|]; [|done]. simplify_eq/=.
    specialize (IH _ _ eq_refl). lia.
  - destruct (geom_parts _ _ _ _) as [ps|]; [|done]. simpl in Hc.
    destruct (collect_parts _ _ _ geoms) as [[l f']|]; [|done]. simplify_eq/=.
    specialize (IH _ _ eq_refl). destruct ps; lia.
Qed.

Lemma record_rows i rec c job now mv rows f :
  feature_rows_from_record cfg depth py_repr dict_of_array uuid7 i rec c job now mv = inr (rows, f) ->
  feature_rows c rows /\ 0 <= f /\ (rows = [] -> 1 <= f).
Proof.
  intros Hr. unfold feature_rows_from_record in Hr.
  destruct (props_of dict_of_array rec) as [|props]; [done|]. cbn [res_bind] in Hr.
  assert (forall f, 1 <= f -> feature_rows c [] /\ 0 <= f /\ (([] : list copy_row) = [] -> 1 <= f)) as Hnil.
  { intros f' Hf'. split; [by exists ""|]. lia. }
  destruct (json_truthy _); cbn [negb] in Hr; [|simplify_eq; by apply Hnil].
  destruct (_ ≫= _) as [[|g geoms]|]; [simplify_eq; by apply Hnil| |simplify_eq; by apply Hnil].
  destruct (collect_parts _ _ _ _) as [[parts failed]|] eqn:Hc; [|done].
  apply collect_parts_nonneg in Hc. simplify_eq. split.
  - eexists. split.
    + rewrite length_imap. by rewrite (imap_numbered (fun k p => CopyRow _ c (Z.of_nat k) _ _ _ now) _ 0).
    + apply Forall_forall. intros r (k & p & -> & _)%elem_of_lookup_imap.
      cbn [cr_id cr_collection]. split; reflexivity.
  - case_decide; [lia|]. by split.
Qed.

Lemma line_rows a i line rows f :
  parse_line cfg depth orjson_loads py_repr dict_of_array uuid7 a i line = inr (rows, f) ->
  feature_rows (la_collection a) rows /\ 0 <= f.
Proof.
  unfold parse_line, parse_line_bytes. destruct (fromisoformat _); [|done]. cbn [res_bind].
  assert (feature_rows (la_collection a) []) as Hnil by by exists "".
  destruct (blank line); [by intros [= <- <-]|].
  destruct (orjson_loads line) as [[]|]; try by intros [= <- <-].
  intros Hr. by apply record_rows in Hr as (? & ? & _).
Qed.

Lemma batch_collection a lines rows f :
  parse_batch cfg depth orjson_loads py_repr dict_of_array uuid7 a lines = inr (rows, f) ->
  Forall (fun r => cr_collection r = la_collection a) rows /\ 0 <= f.
Proof.
  revert rows f. induction lines as [|[i line] lines IH]; intros rows f Hp.
  - rewrite batch_nil in Hp. by simplify_eq.
  - rewrite batch_cons in Hp. apply add_results_inr in Hp as (r1 & f1 & r2 & f2 & Hl & Hb & -> & ->).
    apply line_rows in Hl as [(id & _ & Hall) Hf1]. apply IH in Hb as [Hb Hf2]. split; [|lia].
    apply Forall_app. split; [|done]. eapply Forall_impl; [exact Hall|]. by intros r [].
Qed.
End record_lemmas.

(** ** Lemmas: the import in queue mode *)

(** What an upload of a GeoJSON text sequence finds. *)
Record import_ready (w : world) (c job path text : string) : Prop := {
  ir_wf : db_wf (w_db w);
  ir_plain : plain_db (w_db w);
  ir_spaces : no_spaces c = c;
  ir_part : exists n, db_parts (w_db w) !! c = Some n;
  ir_free : is_attached (w_db w) (staging_table_name job) = false;
  ir_file : w_files w !! path = Some text;
  ir_text : text <> "";
  ir_zip : endswith ".zip" (lower path) = false;
  ir_seq : is_geojson_seq_path path = true
}.

Lemma ready_frame w w' c job path text :
  w_services w' = w_services w -> import_ready w c job path text -> import_ready w' c job path text.
Proof. intros Hs []. split; rewrite ?Hs; assumption. Qed.

Lemma wf_with_staged db job rows :
  db_wf db -> is_attached db (staging_table_name job) = false -> db_wf (with_staged db job rows).
Proof.
  intros Hw Ha. pose proof (proj1 (not_attached_spec _ _) Ha) as Ha'. split; try apply Hw.
  intros c n Hc. cbn in Hc |- *. rewrite lookup_insert_ne by (intros He; rewrite <-He in Hc; by eapply Ha').
  by apply Hw.
Qed.

Lemma staged_promotable w c job path text rows :
  import_ready w c job path text -> Forall (fun r => cr_collection r = c) rows -> rows <> [] ->
  keys_unique (map stored_row rows) = true ->
  promotable (with_staged (w_db w) job rows) c job (Table (map stored_row rows) false []).
Proof.
  intros [Hw Hp Hc Hn Hf _ _ _ _] Hall Hne Hk. split.
  - by apply wf_with_staged.
  - done.
  - done.
  - done.
  - split; [cbn; apply lookup_insert_eq|done| |done]. by apply Forall_map.
  - cbn. by destruct rows.
Qed.

Lemma promoted_keys mode live l : keys_unique (promoted mode live l) = true -> keys_unique l = true.
Proof.
  unfold promoted. case_decide; [done|]. apply keys_unique_sublist, sublist_inserts_l. done.
Qed.

Section queue_mode.
Context {geom num : Type} `{Shapely geom num}.
Context `{RedisLaws} `{PostgresLaws} `{Entropy} (cfg : Settings).
Context (depth : nat) (orjson_loads : string -> option json) (py_repr : json -> string)
  (dict_of_array : list json -> option (list (string * json))) (uuid7 : nat -> string)
  (cpu_count : Z) (abspath : string -> string) (zip_names : string -> option (list string))
  (fiona_open : gmap string string -> string -> string -> res (list (list (string * json))))
  (recompute_extent : string -> M unit).

Lemma import_body_queues w c mode job path text on_progress J k rows f :
  is_redis cfg = true -> bulk_finalize_queue_enabled cfg = true ->
  good_progress c job on_progress J -> J k w -> import_ready w c job path text ->
  upload_rows cfg depth orjson_loads py_repr dict_of_array uuid7 text c job (w_now w) = inr (rows, f) ->
  keys_unique (map stored_row rows) = true ->
  exists w', copy_import_body cfg depth orjson_loads py_repr dict_of_array uuid7 cpu_count abspath
      zip_names fiona_open recompute_extent path c mode job on_progress None w
      = (inr (Z.of_nat (length rows), f, Some FINALIZE_QUEUED), w')
    /\ J k w' /\ w_db w' = with_staged (w_db w) job rows /\ w_files w' = w_files w.
Proof.
  intros Hr Hqe Hpr Him [Hw Hp Hc [n Hn] Hf Hfile Htext Hzip Hseq] Hrows Hk.
  pose proof (importing_env cfg c job k on_progress J Hr Hpr) as Henv.
  pose proof (im_db_quiet _ _ _ _ (gp_importing _ _ _ _ Hpr _ _ Him)) as Hdq.
  set (s := staging_table_name job).
  set (w1 := with_db w (set_table (w_db w) s (Table [] false []))).
  assert (J k w1) as Him1 by by apply (le_db _ _ _ _ Henv).
  destruct (gp_progress _ _ _ _ Hpr k w1 0 None Him1) as (w2 & Hp2 & Him2 & Hdb2 & Hfi2 & Hnow2).
  assert (prepare_import c job on_progress w = (inr s, w2)) as Hprep.
  { unfold prepare_import. rewrite bind_run.
    rewrite (ensure_run w c n Hdq Hw Hp Hc Hn).
    rewrite bind_run, (transaction_ok _ _ s _ Hdq (create_staging_run job _ Hf)).
    fold s. fold w1. by rewrite bind_run, Hp2. }
  destruct (load_geojson_run cfg depth orjson_loads py_repr dict_of_array uuid7 cpu_count
    path text c job s on_progress (J k) rows f w2) as (w3 & Hload & Him3 & Hfi3 & Hdb3);
    [done|done|eexists; rewrite Hdb2; cbn; rewrite lookup_insert_eq; by split
    |by rewrite Hfi2|by rewrite Hnow2|].
  destruct (gp_progress _ _ _ _ Hpr k w3 (Z.of_nat (length rows)) None Him3) as (w4 & Hp4 & Him4 & Hdb4 & Hfi4 & _).
  exists w4. split; [|split; [done|]; split; [|by rewrite Hfi4, Hfi3, Hfi2]].
  - unfold copy_import_body. rewrite bind_run. unfold attempt at 1. rewrite bind_run, Hprep.
    unfold load_upload. rewrite Hzip, Hseq, fmap_run. unfold single_load. rewrite bind_run.
    unfold attempt at 1. rewrite Hload, ret_run. rewrite bind_run. unfold attempt, after_load.
    rewrite bind_run, (le_live _ _ _ _ Henv _ Him3). rewrite bind_run, Hp4, Hr, Hqe. done.
  - rewrite Hdb4, Hdb3, Hdb2. apply stage_fresh.
Qed.

Lemma import_queues w c mode job path text on_progress J k rows f :
  is_redis cfg = true -> bulk_finalize_queue_enabled cfg = true -> mode ∈ ["append"; "replace"] ->
  good_progress c job on_progress J -> J k w -> import_ready w c job path text ->
  upload_rows cfg depth orjson_loads py_repr dict_of_array uuid7 text c job (w_now w) = inr (rows, f) ->
  keys_unique (map stored_row rows) = true ->
  exists w', run_bulk_copy_import_sync cfg depth orjson_loads py_repr dict_of_array uuid7 cpu_count
      abspath zip_names fiona_open recompute_extent path c mode job on_progress None w
      = (inr (Z.of_nat (length rows), f, Some FINALIZE_QUEUED), w')
    /\ J k w' /\ w_db w' = with_staged (w_db w) job rows /\ w_files w' = w_files w.
Proof.
  intros Hr Hqe Hm Hpr Him Hready Hrows Hkeys. unfold run_bulk_copy_import_sync.
  rewrite bool_decide_eq_true_2 by done. cbn [negb]. rewrite bind_run, gets_run, (ir_file _ _ _ _ _ Hready).
  assert (0 <= k) as Hk.
  { pose proof (gp_importing _ _ _ _ Hpr _ _ Him) as Hi. rewrite <-(im_count _ _ _ _ Hi).
    destruct (counter_ok_cases _ _ _ (im_counter _ _ _ _ Hi)) as [[_ ->]|(m & ? & _ & ->)]; lia. }
  destruct (activity_importing cfg c job on_progress J k Started w Hr Hpr Him) as (ks1 & Hi & Him1). cbn [activity_run] in Hi.
  destruct (import_body_queues (with_redis w ks1) c mode job path text on_progress J _ rows f Hr Hqe Hpr Him1)
    as (w2 & Hb & Him2 & Hdb2 & Hfi2); [by destruct Hready|done|done|].
  destruct (activity_importing cfg c job on_progress J _ Ended w2 Hr Hpr Him2) as (ks3 & Hd & Him3). cbn [activity_run] in Hd.
  exists (with_redis w2 ks3). split; [|split; [|split]].
  - pose proof (ir_text _ _ _ _ _ Hready). destruct text as [|ch text]; [done|].
    rewrite bind_run, Hi. unfold try_finally. by rewrite Hb, Hd.
  - cbn [activity_step] in Him3. by replace (Z.max 0 (k + 1 - 1)) with k in Him3 by lia.
  - exact Hdb2.
  - exact Hfi2.
Qed.
End queue_mode.

(** ** Properties *)

(** The rows of one feature: they share one id and the collection, their part
    numbers are 0, 1, 2, ... in order, so no two have the same primary key, and a
    feature without rows is counted as failed. *)
Theorem record_rows_numbered {geom num} `{Shapely geom num} (cfg : Settings) (depth : nat)
    (py_repr : json -> string) (dict_of_array : list json -> option (list (string * json)))
    (uuid7 : nat -> string) (i : nat) (rec : list (string * json)) (c : string) (job : option string)
    (now : datetime) (mv : Z) (rows : list copy_row) (f : Z) :
  feature_rows_from_record cfg depth py_repr dict_of_array uuid7 i rec c job now mv = inr (rows, f) ->
  map cr_part rows = map Z.of_nat (seq 0 (length rows))
  /\ (exists id, Forall (fun r => cr_id r = id /\ cr_collection r = c) rows)
  /\ keys_unique (map stored_row rows) = true
  /\ (rows = [] -> 1 <= f).
Proof.
  intros Hr. destruct (record_rows _ _ _ _ _ _ _ _ _ _ _ _ _ Hr) as [(id & Hn & Hall) [_ Hf]].
  split; [done|]. split; [by exists id|]. split; [|done]. unfold keys_unique.
  apply bool_decide_eq_true. apply (NoDup_fmap_1 (fun k : string * string * Z => k.2)).
  rewrite <-!list_fmap_compose. change (NoDup (map cr_part rows)). rewrite Hn.
  apply (NoDup_fmap_2 Z.of_nat), NoDup_seq.
Qed.

(** The copier loses nothing and stays bounded: whatever the buffer and the
    rows added, as long as no primary key is repeated, the full batches are in the staging table, in order, before what
    is left in the buffer, which is smaller than a batch. *)
Theorem copier_bounded `{PostgresLaws} (staging : string) (batch_size : Z) (buf rows : list copy_row)
    (w : world) (t : table) :
  db_quiet w -> db_tables (w_db w) !! staging = Some t -> fits t (buf ++ rows) ->
  exists taken rest w',
    copier_add staging batch_size buf rows w = (inr (Z.of_nat (length taken), rest), w')
    /\ rows_of (w_db w') staging = (t_rows t ++ map stored_row taken)%list
    /\ (buf ++ rows = taken ++ rest)%list
    /\ Z.of_nat (length rest) < Z.max 1000 batch_size.
Proof.
  intros Hq Ht Hk. destruct (copier_add_run staging batch_size buf rows w t Hq Ht Hk) as (taken & rest & Hr & Hd & Hl).
  eexists taken, rest, _. split; [exact Hr|]. split; [|split; [done|]].
  - rewrite with_db_db. unfold rows_of. by rewrite (stage_table _ _ _ _ Ht).
  - unfold copier_size in Hl. lia.
Qed.

(** C35. Parsing in worker processes changes nothing: without database faults, for a job
    that is not cancelled, a progress callback that does not raise and leaves the
    database alone, and lines that parse without an exception into rows that repeat no
    primary key, for every batch length and every limit on the tasks in flight, the
    parallel loader ends with the same totals and the same staging table as the loop
    that parses one line at a time, and both have staged exactly the parsed rows in the
    order of the lines.  (With a repeated key the COPY raises: [repeated_id_aborts].) *)
Theorem parallel_load_equivalent {geom num} `{Shapely geom num} `{RedisServer} `{PostgresLaws} `{Entropy}
    (cfg : Settings) (depth : nat) (orjson_loads : string -> option json) (py_repr : json -> string)
    (dict_of_array : list json -> option (list (string * json))) (uuid7 : nat -> string)
    (a : load_args) (staging : string) (on_progress : on_progress_t) (J : world -> Prop)
    (parse_lines max_inflight : nat) (lines : list (nat * string)) (now : Z) (w : world) (t : table)
    (rows : list copy_row) (f : Z) :
  load_env cfg (la_job a) on_progress J -> J w -> db_tables (w_db w) !! staging = Some t ->
  (1 <= max_inflight)%nat ->
  parse_batch cfg depth orjson_loads py_repr dict_of_array uuid7 a lines = inr (rows, f) ->
  keys_unique (t_rows t ++ map stored_row rows) = true ->
  exists w1 w2,
    (load_serial cfg depth orjson_loads py_repr dict_of_array uuid7 a staging on_progress lines
       (Load 0 0 now []) ≫= finish_load staging) w = (inr (Z.of_nat (length rows), f), w1)
    /\ (load_parallel cfg depth orjson_loads py_repr dict_of_array uuid7 a staging on_progress
          parse_lines max_inflight lines [] [] (Load 0 0 now []) ≫= finish_load staging) w
       = (inr (Z.of_nat (length rows), f), w2)
    /\ w_db w1 = w_db w2
    /\ rows_of (w_db w1) staging = (t_rows t ++ map stored_row rows)%list.
Proof.
  intros Henv Hj Ht Hmi Hp Hk. assert (has_room w staging (Load 0 0 now []) rows) as Hs by by exists t.
  assert (length (ld_buf (Load 0 0 now [])) < copier_size (copy_batch_size cfg))%nat as Hb
    by apply copier_size_pos.
  destruct (load_serial_run cfg depth orjson_loads py_repr dict_of_array uuid7 a staging on_progress J
    Henv lines _ rows f w Hj Hs Hb Hp) as (w1 & st1 & Hr1 & Hl1).
  destruct (load_parallel_run cfg depth orjson_loads py_repr dict_of_array uuid7 a staging on_progress J
    Henv parse_lines max_inflight lines [] [] _ [] 0 [] 0 rows f w Hmi Hj Hs Hb eq_refl eq_refl Hp)
    as (w2 & st2 & Hr2 & Hl2).
  destruct (finish_load_run J staging (copier_size (copy_batch_size cfg)) w now rows f w1 st1) as (w1' & Hf1 & _ & _ & Hd1);
    [apply Henv|apply Henv|done|exact Hl1|].
  destruct (finish_load_run J staging (copier_size (copy_batch_size cfg)) w now rows f w2 st2) as (w2' & Hf2 & _ & _ & Hd2);
    [apply Henv|apply Henv|done|exact Hl2|].
  exists w1', w2'. rewrite !bind_run, Hr1, Hr2. split; [done|]. split; [done|]. rewrite Hd1, Hd2.
  split; [done|]. unfold rows_of. by rewrite (stage_table _ _ _ _ Ht).
Qed.

(** C4. An upload is staged, and only staged: in queue mode a GeoJSON text
    sequence is imported into the staging table of its job, row for row, the
    caller is told to queue the promotion, readers see the same rows of every
    collection as before, and the collection's count of running imports is back
    where it was.  The staging table then satisfies the promotion's
    precondition, and promoting it publishes the parsed rows. *)
Theorem import_stages_then_publishes {geom num} `{Shapely geom num} `{RedisLaws} `{PostgresLaws}
    `{Entropy} (cfg : Settings) (depth : nat) (orjson_loads : string -> option json)
    (py_repr : json -> string) (dict_of_array : list json -> option (list (string * json)))
    (uuid7 : nat -> string) (cpu_count : Z) (abspath : string -> string)
    (zip_names : string -> option (list string))
    (fiona_open : gmap string string -> string -> string -> res (list (list (string * json))))
    (recompute_extent : string -> M unit) (w : world) (c mode job path text : string)
    (on_progress : on_progress_t) (J : Z -> world -> Prop) (k : Z) (rows : list copy_row) (f : Z) :
  is_redis cfg = true -> bulk_finalize_queue_enabled cfg = true -> mode ∈ ["append"; "replace"] ->
  good_progress c job on_progress J -> J k w -> import_ready w c job path text ->
  upload_rows cfg depth orjson_loads py_repr dict_of_array uuid7 text c job (w_now w) = inr (rows, f) ->
  rows <> [] -> keys_unique (promoted mode (live_rows (w_db w) c) (map stored_row rows)) = true ->
  exists w1 w2,
    run_bulk_copy_import_sync cfg depth orjson_loads py_repr dict_of_array uuid7 cpu_count abspath
      zip_names fiona_open recompute_extent path c mode job on_progress None w
    = (inr (Z.of_nat (length rows), f, Some FINALIZE_QUEUED), w1)
    /\ J k w1
    /\ rows_of (w_db w1) (staging_table_name job) = map stored_row rows
    /\ (forall c', live_rows (w_db w1) c' = live_rows (w_db w) c')
    /\ promote_staging_sync cfg c job mode w1 = (inr (Z.of_nat (length rows)), w2)
    /\ live_rows (w_db w2) c = promoted mode (live_rows (w_db w) c) (map stored_row rows)
    /\ (forall c', c' <> c -> live_rows (w_db w2) c' = live_rows (w_db w) c').
Proof.
  intros Hr Hqe Hm Hpr Him Hready Hrows Hne Hk.
  pose proof (promoted_keys _ _ _ Hk) as Hkr.
  destruct (import_queues cfg depth orjson_loads py_repr dict_of_array uuid7 cpu_count abspath zip_names
    fiona_open recompute_extent w c mode job path text on_progress J k rows f Hr Hqe Hm Hpr Him Hready Hrows Hkr)
    as (w1 & Hrun & Him1 & Hdb1 & _).
  assert (forall c', live_rows (w_db w1) c' = live_rows (w_db w) c') as Hlive.
  { intros c'. rewrite Hdb1. apply live_rows_staged, Hready. }
  pose proof (proj1 (batch_collection _ _ _ _ _ _ _ _ _ _ Hrows)) as Hcoll.
  assert (promotable (w_db w1) c job (Table (map stored_row rows) false [])) as Hp.
  { rewrite Hdb1. by eapply staged_promotable; [exact Hready|exact Hcoll|..]. }
  rewrite <-(Hlive c) in Hk.
  destruct (promote_run cfg w1 c job mode _ (im_db_quiet _ _ _ _ (gp_importing _ _ _ _ Hpr _ _ Him1)) Hp Hk) as (db' & Hpro & _ & Hl & Ho & _).
  exists w1, (with_db w1 db'). split; [done|]. split; [done|]. split.
  { rewrite Hdb1. unfold rows_of. cbn. by rewrite lookup_insert_eq. }
  split; [done|]. cbn [t_rows] in Hpro. rewrite length_map in Hpro. split; [done|]. rewrite with_db_db.
  split; [by rewrite Hl, Hlive|]. intros c' Hc'. by rewrite Ho.
Qed.

(** *** Cancelled jobs *)

Lemma file_lines_nonempty text : text <> "" -> file_lines text <> [].
Proof.
  unfold file_lines. assert (forall cur, cur <> "" \/ text <> "" -> file_lines_go cur text <> []) as Hgo.
  { induction text as [|ch s IH]; intros cur Hc; simpl.
    - rewrite decide_False; [done|]. by destruct Hc.
    - case_decide; [done|]. apply IH. by left. }
  intros Ht. apply Hgo. by right.
Qed.

Section cancelled.
Context {geom num : Type} `{Shapely geom num}.
Context `{RedisLaws} `{PostgresLaws} `{Entropy} (cfg : Settings).
Context (depth : nat) (orjson_loads : string -> option json) (py_repr : json -> string)
  (dict_of_array : list json -> option (list (string * json))) (uuid7 : nat -> string)
  (cpu_count : Z) (abspath : string -> string) (zip_names : string -> option (list string))
  (fiona_open : gmap string string -> string -> string -> res (list (list (string * json))))
  (recompute_extent : string -> M unit).
Context (Hredis : is_redis cfg = true).
Context (job : string) (on_progress : on_progress_t).

Lemma cancelled_raises w j :
  quiet w -> job <> "" -> job_stored (w_now w) (w_redis w) job j -> status j = "cancelled" ->
  raise_if_cancelled cfg job w = (inl BulkImportCancelled, w).
Proof.
  intros Hq Hjob Hj Hst. unfold raise_if_cancelled. rewrite decide_False by done.
  rewrite bind_run, (get_job_quiet cfg Hredis w job j Hq Hj). unfold is_cancelled. by rewrite Hst.
Qed.

(** A parallel load of a cancelled job stops at its first result; without a
    result it has loaded nothing. *)
Lemma drain_cancelled (a : load_args) s n futs st w rows f :
  la_job a = job -> raise_if_cancelled cfg job w = (inl BulkImportCancelled, w) ->
  gather futs = inr (rows, f) ->
  drain_to cfg a s on_progress n futs st w = (inl BulkImportCancelled, w)
  \/ drain_to cfg a s on_progress n futs st w = (inr (futs, st), w).
Proof.
  intros Ha Hc Hg. destruct futs as [|fut futs]; [by right|]. cbn [drain_to].
  destruct (_ <=? _)%nat; [left|by right].
  apply add_results_inr in Hg as (r1 & f1 & r2 & f2 & -> & _).
  unfold drain_one. rewrite !bind_run, lift_run. by rewrite bind_run, Ha, Hc.
Qed.

Lemma parallel_cancelled (a : load_args) s pl mi lines batch futs st w r1 f1 r2 f2 r3 f3 :
  la_job a = job -> raise_if_cancelled cfg job w = (inl BulkImportCancelled, w) ->
  gather futs = inr (r1, f1) ->
  parse_batch cfg depth orjson_loads py_repr dict_of_array uuid7 a batch = inr (r2, f2) ->
  parse_batch cfg depth orjson_loads py_repr dict_of_array uuid7 a lines = inr (r3, f3) ->
  let m := load_parallel cfg depth orjson_loads py_repr dict_of_array uuid7 a s on_progress pl mi
             lines batch futs st in
  m w = (inl BulkImportCancelled, w) \/ m w = (inr st, w).
Proof.
  intros Ha Hc. revert batch futs r1 f1 r2 f2 r3 f3.
  induction lines as [|[i line] lines IH]; intros batch futs r1 f1 r2 f2 r3 f3 Hg Hb Hl; cbn [load_parallel]; cbv zeta.
  - assert (exists r f, gather (match batch with [] => futs | _ => (futs ++ [parse_batch cfg depth
      orjson_loads py_repr dict_of_array uuid7 a batch])%list end) = inr (r, f)) as (r & f & Hall).
    { destruct batch as [|b batch]; [by eexists _, _|].
      eexists _, _. by apply gather_app_ok; [|apply gather_one]. }
    rewrite fmap_run. by destruct (drain_cancelled a s 1 _ st w r f Ha Hc Hall) as [->| ->]; [left|right].
  - rewrite batch_cons in Hl. apply add_results_inr in Hl as (p & q & p' & q' & Hline & Hrest & -> & ->).
    destruct (blank line); [by eapply IH|].
    pose proof (batch_snoc cfg depth orjson_loads py_repr dict_of_array uuid7 a _ i line _ _ _ _ Hb Hline) as Hb2.
    destruct (_ <=? _)%nat; [|by eapply IH].
    pose proof (gather_app_ok _ _ _ _ _ _ Hg (gather_one _ _ Hb2)) as Hg2.
    rewrite bind_run.
    destruct (drain_cancelled a s mi _ st w _ _ Ha Hc Hg2) as [->| ->]; [by left|by eapply IH].
Qed.

Lemma load_cancelled path c s w text rows f :
  raise_if_cancelled cfg job w = (inl BulkImportCancelled, w) ->
  w_files w !! path = Some text -> text <> "" ->
  upload_rows cfg depth orjson_loads py_repr dict_of_array uuid7 text c job (w_now w) = inr (rows, f) ->
  let m := load_geojson_seq_into_staging cfg depth orjson_loads py_repr dict_of_array uuid7 cpu_count
             path c job s on_progress in
  m w = (inl BulkImportCancelled, w) \/ m w = (inr (0, 0), w).
Proof.
  intros Hc Hfile Htext Hp. cbv zeta. unfold load_geojson_seq_into_staging, read_file.
  rewrite bind_run, get_now_run. cbv zeta. rewrite !bind_run, gets_run, Hfile, ret_run. rewrite bind_run.
  unfold upload_rows in Hp. destruct (_ <=? 1).
  - pose proof (file_lines_nonempty text Htext). destruct (file_lines text) as [|line lines]; [done|].
    unfold numbered. cbn [imap load_serial]. rewrite !bind_run. cbn [la_job].
    change (when (0 mod 2000 =? 0)%nat ?x) with x. left. by rewrite Hc.
  - set (a := LoadArgs _ _ _ _) in *. set (st := Load _ _ _ _).
    by destruct (parallel_cancelled a s (Z.to_nat (parse_batch_lines cfg))
      (Z.to_nat (max_inflight_batches cfg (parser_worker_count cfg cpu_count)))
      (numbered (file_lines text)) [] [] st w [] 0 [] 0 rows f eq_refl Hc eq_refl eq_refl Hp) as [->| ->]; [left|right].
Qed.

(** What a callback does to a cancelled job: nothing, or it raises. *)
Definition only_cancels (w : world) : Prop := forall n,
  progress on_progress "running" n None w = (inr tt, w)
  \/ progress on_progress "running" n None w = (inl BulkImportCancelled, w).

Lemma cancelled_body w c mode path text rows f :
  db_quiet w -> (forall db, raise_if_cancelled cfg job (with_db w db) = (inl BulkImportCancelled, with_db w db)) ->
  (forall db, only_cancels (with_db w db)) -> import_ready w c job path text ->
  upload_rows cfg depth orjson_loads py_repr dict_of_array uuid7 text c job (w_now w) = inr (rows, f) ->
  copy_import_body cfg depth orjson_loads py_repr dict_of_array uuid7 cpu_count abspath zip_names
    fiona_open recompute_extent path c mode job on_progress None w
  = (inr (0, 0, Some "cancelled"), with_db w (drop_table (with_staged (w_db w) job []) (staging_table_name job))).
Proof.
  intros Hdq Hc Hcb [Hw Hp Hcs [n Hn] Hf Hfile Htext Hzip Hseq] Hrows. set (s := staging_table_name job).
  set (w2 := with_db w (with_staged (w_db w) job [])).
  assert (import_failed job mode 0 0 BulkImportCancelled w2
    = (inr (0, 0, Some "cancelled"), with_db w (drop_table (with_staged (w_db w) job []) s))) as Hfail.
  { unfold import_failed. rewrite bind_run, try_pass_run.
    rewrite (drop_staging_run w2 job (Table [] false []) Hdq); [done|]. cbn. apply lookup_insert_eq. }
  assert (prepare_import c job on_progress w = (inr s, w2)
    \/ prepare_import c job on_progress w = (inl BulkImportCancelled, w2)) as Hprep.
  { unfold prepare_import. rewrite !bind_run, (ensure_run w c n Hdq Hw Hp Hcs Hn).
    rewrite bind_run, (transaction_ok _ w s _ Hdq (create_staging_run job _ Hf)). fold s.
    change (with_db w _) with w2. rewrite bind_run.
    destruct (Hcb (with_staged (w_db w) job []) 0) as [Hr|Hr]; fold w2 in Hr; rewrite Hr; [by left|by right]. }
  unfold copy_import_body. rewrite bind_run. unfold attempt at 1. rewrite bind_run.
  destruct Hprep as [-> | ->]; [|exact Hfail].
  unfold load_upload. rewrite Hzip, Hseq, fmap_run. unfold single_load. rewrite bind_run.
  unfold attempt at 1.
  destruct (load_cancelled path c s w2 text rows f (Hc _) Hfile Htext Hrows) as [-> | ->]; [exact Hfail|].
  rewrite ret_run, bind_run. unfold attempt, after_load.
  rewrite bind_run. pose proof (Hc (with_staged (w_db w) job [])) as Hc2.
  fold w2 in Hc2. rewrite Hc2. exact Hfail.
Qed.
End cancelled.

(** C40. A cancelled job stops before its first row: without faults, for a cancelled
    stored job whose upload is a GeoJSON sequence whose lines parse without an exception, in both
    modes, with any number of parser processes, and with a progress callback that does
    nothing to a cancelled job or raises [BulkImportCancelled] (as the worker's does),
    the import reports ["cancelled"] with nothing created, its staging table is gone,
    readers see what they saw before, and the count of running imports is back. *)
Theorem cancelled_import_cleans_up {geom num} `{Shapely geom num} `{RedisLaws} `{PostgresLaws}
    `{Entropy} (cfg : Settings) (depth : nat) (orjson_loads : string -> option json)
    (py_repr : json -> string) (dict_of_array : list json -> option (list (string * json)))
    (uuid7 : nat -> string) (cpu_count : Z) (abspath : string -> string)
    (zip_names : string -> option (list string))
    (fiona_open : gmap string string -> string -> string -> res (list (list (string * json))))
    (recompute_extent : string -> M unit) (w : world) (c mode job path text : string) (j : JobInfo)
    (on_progress : on_progress_t) (rows : list copy_row) (f : Z) :
  is_redis cfg = true -> mode ∈ ["append"; "replace"] ->
  quiet w -> db_quiet w -> job <> "" ->
  job_stored (w_now w) (w_redis w) job j -> status j = "cancelled" ->
  (forall w', quiet w' -> job_stored (w_now w') (w_redis w') job j -> only_cancels on_progress w') ->
  counter_ok (w_now w) (w_redis w) (inflight_key c) -> import_ready w c job path text ->
  upload_rows cfg depth orjson_loads py_repr dict_of_array uuid7 text c job (w_now w) = inr (rows, f) ->
  exists w', run_bulk_copy_import_sync cfg depth orjson_loads py_repr dict_of_array uuid7 cpu_count
      abspath zip_names fiona_open recompute_extent path c mode job on_progress None w
    = (inr (0, 0, Some "cancelled"), w')
    /\ db_tables (w_db w') !! staging_table_name job = None
    /\ (forall c', live_rows (w_db w') c' = live_rows (w_db w) c')
    /\ counter_of (w_now w') (w_redis w') (inflight_key c)
       = counter_of (w_now w) (w_redis w) (inflight_key c).
Proof.
  intros Hr Hm Hq Hdq Hjob Hj Hst Hcb Hc Hready Hrows. set (k := counter_of _ _ _).
  assert (0 <= k) as Hk by (destruct (counter_ok_cases _ _ _ Hc) as [[_ Hz]|(m & ? & _ & Hz)]; unfold k; lia).
  destruct (activity_run_quiet cfg Hr w c Started Hq Hc) as (ks1 & Hi & Hc1 & Hn1 & Hfr).
  cbn [activity_run activity_step] in Hi, Hn1. set (w1 := with_redis w ks1).
  assert (forall db, job_stored (w_now (with_db w1 db)) (w_redis (with_db w1 db)) job j) as Hj1.
  { intros db. eapply job_stored_frame; [|exact Hj]. apply Hfr. by key_neq. }
  pose proof (cancelled_body cfg depth orjson_loads py_repr dict_of_array uuid7 cpu_count abspath
    zip_names fiona_open recompute_extent job on_progress w1 c mode path text rows f Hdq
    (fun db => cancelled_raises cfg Hr job (with_db w1 db) j Hq Hjob (Hj1 db) Hst)
    (fun db => Hcb (with_db w1 db) Hq (Hj1 db)) ltac:(by destruct Hready) Hrows) as Hbody.
  set (w2 := with_db w1 _) in Hbody.
  destruct (activity_run_quiet cfg Hr w2 c Ended Hq Hc1) as (ks3 & Hd & _ & Hn3 & _).
  cbn [activity_run activity_step] in Hd, Hn3. exists (with_redis w2 ks3).
  pose proof (ir_text _ _ _ _ _ Hready) as Htext. pose proof (ir_free _ _ _ _ _ Hready) as Hfree.
  split; [|split; [|split]].
  - unfold run_bulk_copy_import_sync. rewrite bool_decide_eq_true_2 by done. cbn [negb].
    rewrite bind_run, gets_run, (ir_file _ _ _ _ _ Hready). destruct text as [|ch text]; [done|].
    rewrite bind_run, Hi. unfold try_finally. fold w1. by rewrite Hbody, Hd.
  - cbn. apply lookup_delete_eq.
  - intros c'. change (live_rows (drop_table (with_staged (w_db w) job []) (staging_table_name job)) c'
      = live_rows (w_db w) c').
    rewrite live_rows_drop_unattached by done. by apply live_rows_staged.
  - etransitivity; [exact Hn3|]. change (counter_of (w_now w2) (w_redis w2) (inflight_key c))
      with (counter_of (w_now w) ks1 (inflight_key c)). rewrite Hn1. fold k. lia.
Qed.

(** ** A concrete upload *)

Definition feature_line (id : json) (points : list json) (props : json) : string :=
  dumps (JObj [("type", JStr "Feature"); ("id", id);
               ("geometry", JObj [("coordinates", JList points)]); ("properties", props)])
  +:+ String lf "".

Definition xy (x y : Z) : json := JList [JInt x; JInt y].

Definition demo_text : string :=
  feature_line (JStr "a") [xy 1 2; xy 3 4] (JObj [("name", JStr "x")])
  +:+ String lf "" +:+ feature_line (JInt 7) [xy 5 5] JNull
  +:+ feature_line JNull [] (JObj []).

Definition demo_upload (path text : string) (db : database) : world :=
  with_files (with_db demo_world db) {[ path := text ]}.

Definition demo_shapely : Shapely (list (Z * Z)) Z := xy_shapely (fun _ => false).
Definition demo_uuid7 (i : nat) : string := "uuid-" +:+ str_of_Z (Z.of_nat i).
Definition demo_db : database := one_part "roads" "features_roads" old_roads ∅ [].

Definition demo_time : datetime := now_utc (us 60).
Definition demo_rows : list copy_row :=
  [CopyRow "a" "roads" 0 "1,2" (props_json [("name", JStr "x"); ("id", JStr "a")]) (Some "j1") demo_time;
   CopyRow "a" "roads" 1 "3,4" (props_json [("name", JStr "x"); ("id", JStr "a")]) (Some "j1") demo_time;
   CopyRow "7" "roads" 0 "5,5" (props_json [("id", JInt 7)]) (Some "j1") demo_time].

Lemma demo_parsed :
  @upload_rows _ _ demo_shapely default_settings 9 loads (fun _ => "") (fun _ => None) demo_uuid7
    demo_text "roads" "j1" (us 60) = inr (demo_rows, 1).
Proof. by vm_compute. Qed.

(** One malformed line aborts a whole upload: a feature whose properties are
    a number is not counted as failed like other bad lines, the exception of
    [dict()] escapes, and the import returns it with nothing created. *)
Theorem malformed_properties_abort :
  exists w text w',
    w = demo_upload "/data/bulk-uploads/a.geojsonl" text demo_db
    /\ text = feature_line (JStr "a") [xy 1 2] (JObj []) +:+ feature_line (JStr "b") [xy 3 4] (JInt 5)
    /\ @run_bulk_copy_import_sync _ _ demo_shapely reference_server reference_postgres
         reference_entropy default_settings 9 loads (fun _ => "") (fun _ => None) demo_uuid7 1
         (fun p => p) (fun _ => None) (fun _ _ _ => inr []) (fun _ => mret tt)
         "/data/bulk-uploads/a.geojsonl" "roads" "append" "j1" None None w
       = (inr (0, 0, Some "object is not iterable"), w').
Proof.
  eexists _, _, _. split; [reflexivity|]. split; [reflexivity|].
  apply run_fst. vm_compute. reflexivity.
Qed.

(** A file that names one feature id twice is refused as a whole: the second row
    repeats the primary key of the staging table, the COPY raises, nothing is
    created, and the staging table is dropped. *)
Theorem repeated_id_aborts :
  exists w text w' msg,
    w = demo_upload "/data/bulk-uploads/a.geojsonl" text demo_db
    /\ text = feature_line (JStr "a") [xy 1 2] (JObj []) +:+ feature_line (JStr "a") [xy 3 4] (JObj [])
    /\ @run_bulk_copy_import_sync _ _ demo_shapely reference_server reference_postgres
         reference_entropy default_settings 9 loads (fun _ => "") (fun _ => None) demo_uuid7 1
         (fun p => p) (fun _ => None) (fun _ _ _ => inr []) (fun _ => mret tt)
         "/data/bulk-uploads/a.geojsonl" "roads" "append" "j1" None None w
       = (inr (0, 0, Some msg), w')
    /\ msg <> "cancelled" /\ msg <> FINALIZE_QUEUED
    /\ db_tables (w_db w') !! staging_table_name "j1" = None.
Proof.
  eexists _, _, _, _. split; [reflexivity|]. split; [reflexivity|].
  split; [vm_compute; reflexivity|]. split; [done|]. split; [done|]. vm_compute. reflexivity.
Qed.

(** ** Witnesses *)

Lemma demo_db_wf : db_wf demo_db.
Proof. apply one_part_wf; [by vm_compute|by repeat constructor|done|done]. Qed.

Lemma demo_counter ks : ks !! inflight_key "roads" = None ->
  counter_ok (us 60) ks (inflight_key "roads") /\ counter_of (us 60) ks (inflight_key "roads") = 0.
Proof.
  intros Hk. assert (peek_val (us 60) ks (inflight_key "roads") = None) as Hp.
  { unfold peek_val, peek. by rewrite Hk. }
  unfold counter_ok, counter_of, as_str. by rewrite Hp.
Qed.

Lemma demo_importing text db : importing "roads" "j1" 0 (demo_upload "/data/bulk-uploads/a.geojsonl" text db).
Proof.
  split; [done|done| |by apply demo_counter|by apply demo_counter].
  exists (read_job (new_job "j1" "roads" (Some 7) None 0)). split; [exact demo_stored|done].
Qed.

Lemma demo_ready text : text <> "" ->
  import_ready (demo_upload "/data/bulk-uploads/a.geojsonl" text demo_db) "roads" "j1" "/data/bulk-uploads/a.geojsonl" text.
Proof.
  intros Ht. split; [exact demo_db_wf|by apply one_part_plain|done|by eexists|done
    |apply lookup_singleton_eq|done|done|done].
Qed.

Lemma no_progress_good c job : good_progress c job None (importing c job).
Proof. split; [done|by intros k w db []|done|]. intros k w n t Hi. by exists w. Qed.

Lemma record_rows_numbered_witness :
  map cr_part (take 2 demo_rows) = map Z.of_nat (seq 0 2)
  /\ (exists id, Forall (fun r => cr_id r = id /\ cr_collection r = "roads") (take 2 demo_rows))
  /\ keys_unique (map stored_row (take 2 demo_rows)) = true
  /\ (take 2 demo_rows = [] -> 1 <= 0).
Proof.
  apply (@record_rows_numbered _ _ demo_shapely default_settings 9 (fun _ => "") (fun _ => None)
    demo_uuid7 0 [("id", JStr "a"); ("geometry", JObj [("coordinates", JList [xy 1 2; xy 3 4])]);
                  ("properties", JObj [("name", JStr "x")])] "roads" (Some "j1") demo_time 256
    (take 2 demo_rows) 0).
  by vm_compute.
Defined.

Lemma copier_bounded_witness :
  exists taken rest w',
    @copier_add reference_postgres "s" 1000 [] (take 1 demo_rows)
      (in_db (set_table demo_db "s" (Table [] false [])))
    = (inr (Z.of_nat (length taken), rest), w')
    /\ rows_of (w_db w') "s" = ([] ++ map stored_row taken)%list
    /\ ([] ++ take 1 demo_rows = taken ++ rest)%list
    /\ Z.of_nat (length rest) < Z.max 1000 1000.
Proof.
  apply (@copier_bounded reference_postgres reference_postgres_laws "s" 1000 []
    (take 1 demo_rows) (in_db (set_table demo_db "s" (Table [] false []))) (Table [] false []));
    reflexivity.
Defined.

Lemma parallel_load_equivalent_witness :
  let w := demo_upload "/data/bulk-uploads/a.geojsonl" demo_text (set_table demo_db "s" (Table [] false [])) in
  let a := LoadArgs "roads" "j1" (isoformat (now_utc (us 60))) 256 in
  exists w1 w2,
    (@load_serial _ _ demo_shapely reference_server reference_postgres reference_entropy
       default_settings 9 loads (fun _ => "") (fun _ => None) demo_uuid7 a "s" None
       (numbered (file_lines demo_text)) (Load 0 0 0 []) ≫= @finish_load reference_postgres "s") w = (inr (3, 1), w1)
    /\ (@load_parallel _ _ demo_shapely reference_server reference_postgres reference_entropy
          default_settings 9 loads (fun _ => "") (fun _ => None) demo_uuid7 a "s" None 1 1
          (numbered (file_lines demo_text)) [] [] (Load 0 0 0 []) ≫= @finish_load reference_postgres "s") w = (inr (3, 1), w2)
    /\ w_db w1 = w_db w2
    /\ rows_of (w_db w1) "s" = ([] ++ map stored_row demo_rows)%list.
Proof.
  apply (@parallel_load_equivalent _ _ demo_shapely reference_server reference_postgres
    reference_postgres_laws reference_entropy default_settings 9 loads (fun _ => "") (fun _ => None)
    demo_uuid7 (LoadArgs "roads" "j1" (isoformat (now_utc (us 60))) 256) "s" None
    (importing "roads" "j1" 0) 1 1 (numbered (file_lines demo_text)) 0
    (demo_upload "/data/bulk-uploads/a.geojsonl" demo_text (set_table demo_db "s" (Table [] false [])))
    (Table [] false []) demo_rows 1);
    [apply (@importing_env reference_server reference_laws reference_entropy default_settings "roads" "j1" 0
              None (importing "roads" "j1")); [reflexivity|apply no_progress_good]
    | |reflexivity|lia|exact demo_parsed|by vm_compute].
  apply demo_importing.
Defined.

Lemma import_stages_then_publishes_witness :
  let w := demo_upload "/data/bulk-uploads/a.geojsonl" demo_text demo_db in
  exists w1 w2,
    @run_bulk_copy_import_sync _ _ demo_shapely reference_server reference_postgres reference_entropy
      default_settings 9 loads (fun _ => "") (fun _ => None) demo_uuid7 4 (fun p => p)
      (fun _ => None) (fun _ _ _ => inr []) (fun _ => mret tt)
      "/data/bulk-uploads/a.geojsonl" "roads" "append" "j1" None None w = (inr (3, 1, Some FINALIZE_QUEUED), w1)
    /\ importing "roads" "j1" 0 w1
    /\ rows_of (w_db w1) (staging_table_name "j1") = map stored_row demo_rows
    /\ (forall c', live_rows (w_db w1) c' = live_rows demo_db c')
    /\ @promote_staging_sync reference_postgres default_settings "roads" "j1" "append" w1 = (inr 3, w2)
    /\ live_rows (w_db w2) "roads" = (t_rows old_roads ++ map stored_row demo_rows)%list
    /\ (forall c', c' <> "roads" -> live_rows (w_db w2) c' = live_rows demo_db c').
Proof.
  apply (@import_stages_then_publishes _ _ demo_shapely reference_server reference_laws
    reference_postgres reference_postgres_laws reference_entropy default_settings 9 loads (fun _ => "")
    (fun _ => None) demo_uuid7 4 (fun p => p) (fun _ => None) (fun _ _ _ => inr []) (fun _ => mret tt)
    (demo_upload "/data/bulk-uploads/a.geojsonl" demo_text demo_db) "roads" "append" "j1" "/data/bulk-uploads/a.geojsonl" demo_text
    None (importing "roads" "j1") 0 demo_rows 1);
    [reflexivity|reflexivity|by left|apply no_progress_good|apply demo_importing|by apply demo_ready
    |exact demo_parsed|done|by vm_compute].
Defined.

Definition cancelled_job : JobInfo :=
  apply_redis (us 60) (up "cancelled" "stop") (read_job (new_job "j1" "roads" (Some 7) None 0)).

Definition cancelled_world : world :=
  (@update_job reference_server reference_entropy default_settings "j1" (up "cancelled" "stop")
     (demo_upload "/data/bulk-uploads/a.geojsonl" demo_text demo_db)).2.

(** Cancelling changes the keyspace only. *)
Lemma cancelled_run :
  exists ks', cancelled_world = with_redis (demo_upload "/data/bulk-uploads/a.geojsonl" demo_text demo_db) ks'
    /\ job_stored (us 60) ks' "j1" cancelled_job
    /\ ks' !! inflight_key "roads" = None.
Proof.
  destruct (@update_step reference_server reference_laws reference_entropy default_settings eq_refl
    (demo_upload "/data/bulk-uploads/a.geojsonl" demo_text demo_db) "j1" (up "cancelled" "stop")
    (read_job (new_job "j1" "roads" (Some 7) None 0))) as (ks' & Hu & Hj & _ & Hf & _);
    [reflexivity|exact demo_stored|exact demo_lock_typed|by vm_compute|exact I|].
  exists ks'. unfold cancelled_world. rewrite Hu. split; [done|]. split; [done|].
  rewrite Hf; [done|by key_neq|by key_neq].
Qed.

Lemma cancelled_import_cleans_up_witness :
  exists w', @run_bulk_copy_import_sync _ _ demo_shapely reference_server reference_postgres
      reference_entropy default_settings 9 loads (fun _ => "") (fun _ => None) demo_uuid7 4
      (fun p => p) (fun _ => None) (fun _ _ _ => inr []) (fun _ => mret tt)
      "/data/bulk-uploads/a.geojsonl" "roads" "replace" "j1" None None cancelled_world
    = (inr (0, 0, Some "cancelled"), w')
    /\ db_tables (w_db w') !! staging_table_name "j1" = None
    /\ (forall c', live_rows (w_db w') c' = live_rows (w_db cancelled_world) c')
    /\ counter_of (w_now w') (w_redis w') (inflight_key "roads")
       = counter_of (w_now cancelled_world) (w_redis cancelled_world) (inflight_key "roads").
Proof.
  destruct cancelled_run as (ks' & -> & Hj & Hk).
  apply (@cancelled_import_cleans_up _ _ demo_shapely reference_server reference_laws
    reference_postgres reference_postgres_laws reference_entropy default_settings 9 loads (fun _ => "")
    (fun _ => None) demo_uuid7 4 (fun p => p) (fun _ => None) (fun _ _ _ => inr []) (fun _ => mret tt)
    (with_redis (demo_upload "/data/bulk-uploads/a.geojsonl" demo_text demo_db) ks') "roads" "replace" "j1"
    "/data/bulk-uploads/a.geojsonl" demo_text cancelled_job None demo_rows 1);
    [reflexivity|by right; left|reflexivity|reflexivity|done|exact Hj
    |reflexivity|intros w' _ _ n; by left|by apply demo_counter
    |apply (ready_frame (demo_upload "/data/bulk-uploads/a.geojsonl" demo_text demo_db)); [reflexivity|];
     apply demo_ready; discriminate|exact demo_parsed].
Defined.
