(* ===== verification/BulkStorage.v ===== *)
(** * Upload storage (app/services/bulk_storage.py)

    Files on the shared volume, by path.  Directories are not modelled: creating
    one changes no file, and a directory exists when a file is below it. *)

From stdpp Require Import sorting.
From S2P Require Import Prelude PyTime Redis Postgres World.

(** ** Paths *)

Fixpoint drop_slashes (s : string) : string :=
  match s with String "/" s' => drop_slashes s' | _ => s end.
(** [base_path.rstrip("/")] *)
Definition rstrip_slash (s : string) : string := String.rev (drop_slashes (String.rev s)).

(** [os.path.join(a, b)] for a relative [b] and an [a] that does not end with a slash. *)
Definition path_join (a b : string) : string := if decide (a = "") then b else a +:+ "/" +:+ b.

(** [f"{n:08d}"] of a positive number. *)
Fixpoint zeros (n : nat) : string := match n with O => "" | S n' => "0" +:+ zeros n' end.
Definition zfill (width : nat) (n : Z) : string :=
  let s := str_of_Z n in zeros (width - String.length s) +:+ s.

Definition is_file (path : string) : M bool :=
  files ← gets (fun w => w_files w); mret (bool_decide (is_Some (files !! path))).
Definition write_file (path content : string) : M unit :=
  modify (fun w => with_files w (<[path := content]> (w_files w))).

(** [sorted(set(l))] *)
Fixpoint insert_z (x : Z) (l : list Z) : list Z :=
  match l with
  | [] => [x]
  | y :: l' => if x <? y then x :: l else if x =? y then l else y :: insert_z x l'
  end.
Definition sorted_set_z (l : list Z) : list Z := foldr insert_z [] l.

(** ** [BulkStorageBackend] *)

Record storage_backend := StorageBackend {
  get_write_path : string -> M string;
  get_path_or_uri : string -> M string;
  storage_delete : string -> M unit;
  get_chunk_part_path : string -> Z -> M string;
  assemble_chunk_parts : string -> list Z -> string -> M string;
  delete_upload_parts : string -> M unit
}.

Module Filesystem.
Section filesystem.
Context (base_path : string).

Definition path_of (key : string) : res string :=
  if contains ".." key || startswith "/" key then inl (ValueError "Invalid storage key")
  else inr (path_join (rstrip_slash base_path) key).

Definition upload_dir (upload_id : string) : res string :=
  if contains ".." upload_id || contains "/" upload_id || startswith "." upload_id
  then inl (ValueError "Invalid upload id")
  else inr (path_join (path_join (rstrip_slash base_path) "_uploads") upload_id).

(** [get_path_or_uri]; [get_write_path] only creates the directory besides. *)
Definition path_m (key : string) : M string := lift (path_of key).

(** The [except OSError] clause has nothing to catch in the model. *)
Definition delete (key : string) : M unit :=
  path ← path_m key;
  ex ← is_file path;
  when ex (modify (fun w => with_files w (base.delete path (w_files w)))).

Definition part_name (part_no : Z) : string := "part-" +:+ zfill 8 part_no +:+ ".bin".

Definition part_path (upload_id : string) (part_no : Z) : res string :=
  if part_no <? 1 then inl (ValueError "part_no must be >= 1")
  else let! d := upload_dir upload_id in inr (path_join d (part_name part_no)).

(** The loop of [assemble_chunk_parts]; [out] is the content written so far. *)
Fixpoint append_parts (upload_id out_path out : string) (parts : list Z) : M unit :=
  match parts with
  | [] => mret tt
  | pn :: parts' =>
      path ← lift (part_path upload_id pn);
      files ← gets (fun w => w_files w);
      match files !! path with
      | None => raise (FileNotFoundError ("Missing upload part " +:+ str_of_Z pn))
      | Some content =>
          write_file out_path (out +:+ content);;
          append_parts upload_id out_path (out +:+ content) parts'
      end
  end.

Definition assemble (upload_id : string) (part_numbers : list Z) (final_key : string) : M string :=
  match part_numbers with
  | [] => raise (ValueError "No parts to assemble")
  | _ =>
      out_path ← path_m final_key;
      write_file out_path "";;
      append_parts upload_id out_path "" (sorted_set_z part_numbers);;
      mret out_path
  end.

(** [shutil.rmtree] removes every file below the directory. *)
Definition delete_parts (upload_id : string) : M unit :=
  d ← lift (upload_dir upload_id);
  modify (fun w => with_files w (filter (fun kv => startswith (d +:+ "/") kv.1 = false) (w_files w))).

Definition backend : storage_backend :=
  StorageBackend path_m path_m delete (fun u n => lift (part_path u n)) assemble delete_parts.
End filesystem.
End Filesystem.

Definition get_bulk_storage (cfg : Settings) : res storage_backend :=
  if decide (bulk_storage_type cfg = "filesystem") then inr (Filesystem.backend (bulk_storage_path cfg))
  else if decide (bulk_storage_type cfg = "s3") then
    inl (NotImplementedError "S3 storage: set BULK_STORAGE_TYPE=filesystem or add S3 backend")
  else inr (Filesystem.backend (bulk_storage_path cfg)).

(** ** Lemmas *)

Lemma insert_z_spec x l :
  StronglySorted Z.lt l ->
  StronglySorted Z.lt (insert_z x l) /\ forall y, y ∈ insert_z x l <-> y = x \/ y ∈ l.
Proof.
  induction 1 as [|z l Hl [IHs IHe] Hz]; simpl.
  { split; [by repeat constructor|]. intros y. by rewrite elem_of_cons. }
  destruct (Z.ltb_spec x z) as [Hx|Hx]; [|destruct (Z.eqb_spec x z) as [->|Hne]].
  - split; [|intros y; by rewrite !elem_of_cons].
    constructor; [by constructor|]. constructor; [done|]. eapply Forall_impl; [exact Hz|]. simpl. lia.
  - split; [by constructor|]. intros y. rewrite elem_of_cons. tauto.
  - split; [|intros y; rewrite !elem_of_cons, IHe; tauto]. constructor; [done|].
    apply Forall_forall. intros y [->|Hy]%IHe; [lia|]. by eapply Forall_forall in Hz.
Qed.

(** Sorted without repetitions, and the same numbers. *)
Lemma sorted_set_z_spec l :
  StronglySorted Z.lt (sorted_set_z l) /\ forall y, y ∈ sorted_set_z l <-> y ∈ l.
Proof.
  induction l as [|x l [IHs IHe]]; [by split; [constructor|]|]. simpl.
  destruct (insert_z_spec x _ IHs) as [Hs He]. split; [done|]. intros y.
  by rewrite He, IHe, elem_of_cons.
Qed.

Lemma with_files_twice w f g : with_files (with_files w f) g = with_files w g.
Proof. reflexivity. Qed.
Lemma with_files_same w : with_files w (w_files w) = w.
Proof. by destruct w as [?????????[]]. Qed.
Lemma with_files_files w f : w_files (with_files w f) = f.
Proof. reflexivity. Qed.

Definition part_file (dir : string) (pn : Z) : string := path_join dir (Filesystem.part_name pn).

(** The parts that are to be put together are there, apart from the output. *)
Definition parts_ready (dir out_path : string) (content : Z -> string) (w : world) (numbers : list Z) :
  Prop :=
  Forall (fun pn => 1 <= pn /\ part_file dir pn <> out_path
                    /\ w_files w !! part_file dir pn = Some (content pn)) numbers.

Lemma parts_ready_write dir out_path content w numbers s :
  parts_ready dir out_path content w numbers ->
  parts_ready dir out_path content (with_files w (<[out_path := s]> (w_files w))) numbers.
Proof.
  intros Hall. eapply Forall_impl; [exact Hall|]. intros m (H1 & H2 & H3). rewrite with_files_files.
  by rewrite lookup_insert_ne.
Qed.

Lemma append_parts_run base u dir out_path content : forall parts out w,
  Filesystem.upload_dir base u = inr dir -> parts_ready dir out_path content w parts ->
  w_files w !! out_path = Some out ->
  Filesystem.append_parts base u out_path out parts w =
  (inr tt, with_files w (<[out_path := foldl (fun s pn => s +:+ content pn) out parts]> (w_files w))).
Proof.
  intros parts out w Hd. revert out w. induction parts as [|pn parts IH]; intros out w Hall Hout;
    cbn [Filesystem.append_parts foldl].
  { rewrite ret_run. by rewrite insert_id, with_files_same. }
  apply Forall_cons in Hall as [(Hpn & Hne & Hpart) Hall].
  rewrite bind_run, lift_run. unfold Filesystem.part_path. rewrite (proj2 (Z.ltb_ge pn 1)), Hd by done.
  cbn [res_bind]. fold (part_file dir pn). rewrite bind_run, gets_run, Hpart.
  unfold write_file. rewrite bind_run, modify_run. rewrite IH.
  - rewrite with_files_files, with_files_twice. by rewrite insert_insert_eq.
  - by apply parts_ready_write.
  - by rewrite with_files_files, lookup_insert_eq.
Qed.

Lemma fold_contents content l s :
  foldl (fun s (pn : Z) => s +:+ content pn) s l = s +:+ String.concat "" (map content l).
Proof.
  revert s. induction l as [|x l IH]; intros s; simpl; [by rewrite app_str_nil_r|].
  rewrite IH, app_str_assoc. f_equal. destruct l; [simpl; by rewrite app_str_nil_r|done].
Qed.

Lemma storage_delete_run base key path w :
  Filesystem.path_of base key = inr path ->
  storage_delete (Filesystem.backend base) key w = (inr tt, with_files w (delete path (w_files w))).
Proof.
  intros Hp. cbn [storage_delete Filesystem.backend]. unfold Filesystem.delete, Filesystem.path_m, is_file.
  rewrite bind_run, lift_run, Hp, bind_run, bind_run, gets_run, ret_run.
  case_bool_decide as Hex; [done|]. apply eq_None_not_Some in Hex.
  by rewrite delete_id, with_files_same.
Qed.

(** ** Properties *)

(** Assembling an upload concatenates its parts: whatever the order and the
    repetitions of the given numbers, the final file holds the contents of the
    parts by increasing number, each once, and no other file changes. *)
Theorem assemble_concatenates (base u key dir out_path : string) (numbers : list Z)
    (content : Z -> string) (w : world) :
  numbers <> [] -> Filesystem.upload_dir base u = inr dir -> Filesystem.path_of base key = inr out_path ->
  parts_ready dir out_path content w numbers ->
  exists parts,
    StronglySorted Z.lt parts /\ (forall n, n ∈ parts <-> n ∈ numbers)
    /\ Filesystem.assemble base u numbers key w =
       (inr out_path, with_files w (<[out_path := String.concat "" (map content parts)]> (w_files w))).
Proof.
  intros Hne Hd Hp Hall. destruct (sorted_set_z_spec numbers) as [Hs He].
  exists (sorted_set_z numbers). split; [done|]. split; [done|].
  unfold Filesystem.assemble. destruct numbers as [|n0 numbers]; [done|].
  unfold Filesystem.path_m. rewrite bind_run, lift_run, Hp. unfold write_file. rewrite bind_run, modify_run.
  rewrite bind_run, (append_parts_run base u dir out_path content _ "" _ Hd).
  - rewrite ret_run, with_files_files, with_files_twice, insert_insert_eq. by rewrite fold_contents.
  - apply parts_ready_write. apply Forall_forall. intros pn Hpn. apply He in Hpn.
    by eapply Forall_forall in Hpn; [|exact Hall].
  - by rewrite with_files_files, lookup_insert_eq.
Qed.

(** Keys cannot leave the storage directory: an accepted key or upload id
    names a path below the base directory, and no component of it is [..]. *)
Theorem storage_paths_confined (base name path : string) :
  rstrip_slash base <> "" -> name <> "" ->
  Filesystem.path_of base name = inr path \/ Filesystem.upload_dir base name = inr path ->
  exists rest, path = rstrip_slash base +:+ "/" +:+ rest /\ contains ".." name = false
    /\ startswith "/" name = false.
Proof.
  intros Hb Hn [Hp|Hp].
  - unfold Filesystem.path_of in Hp. destruct (contains ".." name) eqn:Hc; [done|].
    destruct (startswith "/" name) eqn:Hs; [done|]. simpl in Hp. simplify_eq.
    exists name. unfold path_join. by rewrite decide_False.
  - unfold Filesystem.upload_dir in Hp. destruct (contains ".." name) eqn:Hc; [done|].
    destruct (contains "/" name) eqn:Hs; [done|]. destruct (startswith "." name); [done|].
    simpl in Hp. simplify_eq. exists ("_uploads/" +:+ name). unfold path_join.
    destruct (decide (rstrip_slash base = "")) as [|_]; [done|].
    rewrite decide_False by (by destruct (rstrip_slash base)).
    split; [by rewrite !app_str_assoc|]. split; [done|]. destruct name as [|a s]; [done|].
    simpl in Hs |- *. by destruct (bool_decide (_ = a)).
Qed.

(** ** Witnesses *)

Definition demo_parts : world :=
  with_files empty_world
    {[ "/data/_uploads/u1/part-00000001.bin" := "ab"; "/data/_uploads/u1/part-00000002.bin" := "c";
       "/data/_uploads/u1/part-00000010.bin" := "d" ]}.
Definition demo_content (n : Z) : string := if n =? 1 then "ab" else if n =? 2 then "c" else "d".

Lemma assemble_concatenates_witness :
  exists parts,
    StronglySorted Z.lt parts /\ (forall n, n ∈ parts <-> n ∈ [10; 2; 1; 2])
    /\ Filesystem.assemble "/data/" "u1" [10; 2; 1; 2] "j1.json" demo_parts =
       (inr "/data/j1.json",
        with_files demo_parts
          (<["/data/j1.json" := String.concat "" (map demo_content parts)]> (w_files demo_parts))).
Proof.
  apply (assemble_concatenates "/data/" "u1" "j1.json" "/data/_uploads/u1" "/data/j1.json"
    [10; 2; 1; 2] demo_content demo_parts); [done|by vm_compute|by vm_compute|].
  repeat constructor; by vm_compute.
Defined.

Example assembled : (Filesystem.assemble "/data/" "u1" [10; 2; 1; 2] "j1.json" demo_parts).2
  = with_files demo_parts (<["/data/j1.json" := "abcd"]> (w_files demo_parts)).
Proof. by vm_compute. Qed.

Lemma storage_paths_confined_witness :
  exists rest, "/data/j1.json" = rstrip_slash "/data/" +:+ "/" +:+ rest
    /\ contains ".." "j1.json" = false /\ startswith "/" "j1.json" = false.
Proof.
  apply (storage_paths_confined "/data/" "j1.json" "/data/j1.json");
    [by vm_compute|done|by left; vm_compute].
Defined.
