(* ===== verification/BulkWorker.v ===== *)
(** * One bulk import job (app/services/bulk_worker.py)

    [process_bulk_job] takes the mutex of the collection or puts the job back,
    runs the import chosen by the payload, queues the promotion of what was
    staged or closes the job, and always releases the mutex and removes the
    upload.  The importers are the class [Importers]: [copy_import] is
    [run_bulk_copy_import_sync], which CopyIngest.v implements; [row_import]
    ([run_bulk_import_sync], the older row-by-row importer) and [raster_batch]
    (the raster pipeline) belong to components that are not modelled. *)

From S2P Require Import Prelude PyTime Redis Postgres World Database Json Mutex JobStore Queue.
From S2P Require Import BulkQueue FinalizeQueue TileQueue BulkActivity Partitions Staging.
From S2P Require Import FinalizeWorker CopyFormat Subdivide CopyIngest BulkStorage.

(** ** The importers *)

Class Importers := {
  copy_import (path c mode job : string) (on_progress : on_progress_t)
    (zip_inner : option (list string)) : M (Z * Z * option string);
  row_import (path c mode : string) (batch_size : Z) (on_progress : on_progress_t)
    (zip_inner : option (list string)) (job : string) : M (Z * Z * option string);
  raster_batch (job c archive_path : string) : M unit
}.

Section bulk_worker.
Context `{RedisServer} `{PostgresServer} `{Entropy} `{Importers} (cfg : Settings).

(** [max(3, int(settings.redis_retry_read_max_attempts or 15))] *)
Definition progress_attempts : Z := Z.max 3 (int_or (redis_retry_read_max_attempts cfg) 15).

(** [run_redis_retry(label, lambda: update_job(...), max_attempts=...)] *)
Definition retry_update (job : string) (u : JobUpdate) : M unit :=
  run_redis_retry cfg (update_job cfg job u) (Some progress_attempts);; mret tt.

(** ** [_defer_bulk_job_for_collection_mutex] *)

Definition holder_job (holder : option string) : M (option JobInfo) :=
  if truthy holder then get_job cfg (opt_str holder) else mret None.

Definition waiting_message (holder : option string) (job : option JobInfo) : string :=
  "Waiting for another bulk import on this collection"
  +:+ (if truthy holder then
         " (job " +:+ opt_str holder +:+ ", status="
         +:+ match job with Some j => status j | None => "missing" end +:+ ")"
       else "")
  +:+ "…".

(** The end of the function: the job waits and goes back to the queue. *)
Definition put_back (p : BulkJobPayload) (holder : option string) (job : option JobInfo) : M bool :=
  try_pass (update_job cfg (bp_job_id p) (up "pending" (waiting_message holder job));; mret tt);;
  try_pass (enqueue cfg p);;
  mret true.

Definition defer_bulk_job_for_collection_mutex (p : BulkJobPayload) : M bool :=
  let c := bp_collection_id p in
  let owner := bp_job_id p in
  got ← try_acquire_collection_bulk_mutex cfg c owner;
  if (got : bool) then mret false
  else
    get_collection_bulk_mutex_holder cfg c;;
    reclaim_stale_collection_bulk_mutex cfg c;;
    got ← try_acquire_collection_bulk_mutex cfg c owner;
    if (got : bool) then mret false
    else
      holder ← get_collection_bulk_mutex_holder cfg c;
      job ← holder_job holder;
      match job with
      | Some j =>
          if is_terminal_job_status (Some (status j)) then
            reclaim_stale_collection_bulk_mutex cfg c;;
            got ← try_acquire_collection_bulk_mutex cfg c owner;
            if (got : bool) then mret false
            else
              holder ← get_collection_bulk_mutex_holder cfg c;
              job ← holder_job holder;
              put_back p holder job
          else put_back p holder job
      | None => put_back p holder job
      end.

(** ** [_run_vector_import] *)

Definition run_vector_import (path : string) (p : BulkJobPayload) (on_progress : on_progress_t) :
  M (Z * Z * option string) :=
  let mode := bp_mode p in
  if decide (mode = "replace_filtered") then
    mret (0, 0, Some "replace_filtered is not supported; use mode=replace or append.")
  else if negb (bool_decide (mode ∈ ["append"; "replace"])) then
    mret (0, 0, Some ("Unsupported import mode: " +:+ mode))
  else if bulk_copy_ingest_enabled cfg then
    copy_import path (bp_collection_id p) mode (bp_job_id p) on_progress (bp_zip_inner_shp_paths p)
  else
    row_import path (bp_collection_id p) mode (bp_batch_size p) on_progress
      (bp_zip_inner_shp_paths p) (bp_job_id p).

(** ** [process_bulk_job] *)

Definition stopped (job : option JobInfo) : bool :=
  match job with Some j => bool_decide (status j ∈ ["failed"; "cancelled"]) | None => false end.

(** The closure [on_progress]; failures to report are only logged. *)
Definition on_progress (p : BulkJobPayload) (st : string) (created : Z) (_ : option Z) : M unit :=
  job ← get_job cfg (bp_job_id p);
  if stopped job then raise BulkImportCancelled
  else
    try_pass (run_redis_retry cfg
      (refresh_collection_bulk_mutex cfg (bp_collection_id p) (bp_job_id p);;
       update_job cfg (bp_job_id p) (up_counts (Some st) None None (Some created) None);;
       mret tt) (Some progress_attempts)).

Definition empty_message (failed : Z) : string :=
  if failed =? 0 then "No features were imported from the file (empty or unreadable)."
  else "No features were imported from the file (" +:+ str_of_Z failed
       +:+ " geometries skipped or invalid).".

Definition loaded_message (created : Z) : string :=
  "Loaded " +:+ comma created +:+ " features into staging; partition swap queued…".

Definition finalize_payload (p : BulkJobPayload) (created failed : Z) : BulkFinalizePayload :=
  {| fp_job_id := bp_job_id p; fp_collection_id := bp_collection_id p; fp_mode := bp_mode p;
     fp_items_created := created; fp_items_failed := failed; fp_owner_id := bp_owner_id p;
     fp_queue_compute_tiles := bp_queue_compute_tiles p; fp_attempt := 0 |}.

(** The branch [err == FINALIZE_QUEUED]. *)
Definition queue_promotion (p : BulkJobPayload) (created failed : Z) : M unit :=
  if created <=? 0 then
    try_pass (drop_staging_table_sync (bp_job_id p));;
    retry_update (bp_job_id p)
      (up_counts (Some "failed") (Some (empty_message failed)) None (Some 0) (Some failed))
  else
    enqueue_finalize cfg (finalize_payload p created failed) false;;
    retry_update (bp_job_id p)
      (up_counts (Some "finalizing") (Some (loaded_message created)) None (Some created) (Some failed)).

Definition completed_message (created failed : Z) : string :=
  "Imported " +:+ str_of_Z created +:+ " features."
  +:+ (if failed =? 0 then "" else " " +:+ str_of_Z failed +:+ " failed.").

(** What follows the import. *)
Definition after_import (p : BulkJobPayload) (created failed : Z) (err : option string) : M unit :=
  let close st msg :=
    update_job cfg (bp_job_id p)
      (up_counts (Some st) (Some msg) None (Some created) (Some failed));; mret tt in
  terminal ← get_job cfg (bp_job_id p);
  if stopped terminal then mret tt
  else if decide (err = Some FINALIZE_QUEUED) then queue_promotion p created failed
  else if decide (err = Some "cancelled") then close "cancelled" "Cancelled by user."
  else if truthy err then close "failed" (opt_str err)
  else
    close "completed" (completed_message created failed);;
    queue_tile_build_if_requested cfg (bp_collection_id p) (bp_owner_id p) (bp_queue_compute_tiles p).

(** The [try] block, its [except] clauses and its [finally] clause. *)
Definition import_body (path : string) (p : BulkJobPayload) : M unit :=
  retry_update (bp_job_id p) (up "running" "Starting bulk import…");;
  when (bool_decide (bp_mode p = "replace"))
    (retry_update (bp_job_id p) (up "replacing" "Loading replacement data into staging…"));;
  '(created, failed, err) ← run_vector_import path p (Some (on_progress p));
  after_import p created failed err.

Definition import_error (p : BulkJobPayload) (e : exn) : M unit :=
  match e with
  | BulkImportCancelled => update_job cfg (bp_job_id p) (up "cancelled" "Cancelled by user.");; mret tt
  | _ => update_job cfg (bp_job_id p) (up "failed" (exn_str e));; mret tt
  end.

Definition is_finalizing (job : option JobInfo) : bool :=
  match job with Some j => bool_decide (status j = "finalizing") | None => false end.

Definition import_finally (storage : storage_backend) (p : BulkJobPayload) : M unit :=
  release_collection_bulk_mutex cfg (bp_collection_id p) (bp_job_id p);;
  queued ← try_except (is_finalizing <$> get_job cfg (bp_job_id p)) (fun _ => mret false);
  try_pass (storage_delete storage (bp_storage_key p));;
  when (negb queued) (unregister_bulk_import_job cfg (bp_job_id p)).

Definition run_import (storage : storage_backend) (path : string) (p : BulkJobPayload) : M unit :=
  try_finally (try_except (import_body path p) (import_error p)) (import_finally storage p).

(** The branch [job_kind == "raster_batch"]. *)
Definition run_raster (storage : storage_backend) (path : string) (p : BulkJobPayload) : M unit :=
  try_finally
    (try_except (raster_batch (bp_job_id p) (bp_collection_id p) path)
       (fun e => update_job cfg (bp_job_id p) (up "failed" (exn_str e));; mret tt))
    (try_pass (storage_delete storage (bp_storage_key p));;
     unregister_bulk_import_job cfg (bp_job_id p)).

Definition process_bulk_job (p : BulkJobPayload) : M unit :=
  storage ← lift (get_bulk_storage cfg);
  path ← get_path_or_uri storage (bp_storage_key p);
  if decide (bp_job_kind p = "raster_batch") then run_raster storage path p
  else
    deferred ← defer_bulk_job_for_collection_mutex p;
    if (deferred : bool) then mret tt
    else
      job ← get_job cfg (bp_job_id p);
      if is_cancelled job then
        release_collection_bulk_mutex cfg (bp_collection_id p) (bp_job_id p);;
        try_pass (storage_delete storage (bp_storage_key p));;
        unregister_bulk_import_job cfg (bp_job_id p)
      else run_import storage path p.

(** [cleanup_orphan_bulk_uploads]: the watchdog pass and the self-heal of the
    storage are arguments. *)
Definition cleanup_orphan_bulk_uploads (watchdog_pass storage_self_heal : M unit) : M unit :=
  reclaim_all_stale_bulk_mutexes cfg;;
  watchdog_pass;;
  try_pass storage_self_heal.
End bulk_worker.

(** ** The contract of the COPY importer

    What the worker relies on: an upload that is ready is staged for its job and
    reported as queued, whatever the caller keeps while its progress callback
    runs, unless its rows repeat a primary key.  [parsed text c job now] are the rows an upload's text stands for and
    the number of features that gave none. *)

Class StagingImporter `{Importers} := {
  parsed : string -> string -> string -> Z -> res (list copy_row * Z);
  parsed_collection text c job now rows f :
    parsed text c job now = inr (rows, f) -> Forall (fun r => cr_collection r = c) rows;
  copy_import_stages w c mode job path text on_progress J k rows f :
    mode ∈ ["append"; "replace"] -> good_progress c job on_progress J -> J k w ->
    import_ready w c job path text -> parsed text c job (w_now w) = inr (rows, f) ->
    keys_unique (map stored_row rows) = true ->
    exists w', copy_import path c mode job on_progress None w
        = (inr (Z.of_nat (length rows), f, Some FINALIZE_QUEUED), w')
      /\ J k w' /\ w_db w' = with_staged (w_db w) job rows /\ w_files w' = w_files w
}.

(** The implementation of CopyIngest.v, with the importers that are not modelled
    as arguments. *)
Section implementation.
Context {geom num : Type} `{Shapely geom num}.
Context `{RedisLaws} `{PostgresLaws} `{Entropy} (cfg : Settings).
Context (depth : nat) (orjson_loads : string -> option json) (py_repr : json -> string)
  (dict_of_array : list json -> option (list (string * json))) (uuid7 : nat -> string)
  (cpu_count : Z) (abspath : string -> string) (zip_names : string -> option (list string))
  (fiona_open : gmap string string -> string -> string -> res (list (list (string * json))))
  (recompute_extent : string -> M unit)
  (rows_import : string -> string -> string -> Z -> on_progress_t -> option (list string) -> string ->
    M (Z * Z * option string))
  (rasters : string -> string -> string -> M unit).

Definition copy_importers : Importers := {|
  copy_import path c mode job on_progress zip_inner :=
    run_bulk_copy_import_sync cfg depth orjson_loads py_repr dict_of_array uuid7 cpu_count abspath
      zip_names fiona_open recompute_extent path c mode job on_progress zip_inner;
  row_import := rows_import;
  raster_batch := rasters
|}.

#[refine] Instance copy_staging_importer (Hr : is_redis cfg = true)
    (Hq : bulk_finalize_queue_enabled cfg = true) : @StagingImporter copy_importers :=
  {| parsed := upload_rows cfg depth orjson_loads py_repr dict_of_array uuid7 |}.
Proof.
  - intros text c job now rows f Hp. exact (proj1 (batch_collection _ _ _ _ _ _ _ _ _ _ Hp)).
  - intros. by eapply import_queues.
Defined.
End implementation.

(** ** Lemmas: a worker that holds the mutex *)

(** The worlds while the job of [p] runs at [now]: its record says that it runs,
    the collection is locked by it, [k] imports of the collection are counted and
    every other key is as in [R]. *)
Record working (p : BulkJobPayload) (now : Z) (R : keyspace) (k : Z) (w : world) : Prop := {
  wk_importing : importing (bp_collection_id p) (bp_job_id p) k w;
  wk_now : w_now w = now;
  wk_job : exists j, job_stored now (w_redis w) (bp_job_id p) j
             /\ collection_id j = bp_collection_id p /\ stopped (Some j) = false;
  wk_lock : exists x, lock_of now (w_redis w) (bp_collection_id p) = Some (bp_job_id p, x);
  wk_typed : lock_typed now (w_redis w) (bp_collection_id p);
  wk_frame key : key <> redis_key (bp_job_id p) -> key <> mutex_key (bp_collection_id p) ->
    key <> inflight_key (bp_collection_id p) -> w_redis w !! key = R !! key
}.

(** Statuses of a job that runs. *)
Definition running_status (s : string) : Prop := s ∈ ["running"; "replacing"; "finalizing"].

Lemma running_not_stopped s j : running_status s -> status j = s -> stopped (Some j) = false.
Proof.
  unfold running_status. rewrite !elem_of_cons, elem_of_nil.
  intros Hs He. unfold stopped. rewrite He. by destruct Hs as [->|[->|[->|[]]]].
Qed.

Lemma running_not_finishing s : running_status s -> is_finishing s = false.
Proof.
  unfold running_status. rewrite !elem_of_cons, elem_of_nil.
  by intros [->|[->|[->|[]]]].
Qed.

Lemma counter_frame now ks ks' key :
  ks' !! key = ks !! key ->
  counter_of now ks' key = counter_of now ks key /\ (counter_ok now ks key -> counter_ok now ks' key).
Proof. intros Hk. unfold counter_ok, counter_of, as_str, peek_val, peek. by rewrite Hk. Qed.

Section working_lemmas.
Context `{RedisLaws} `{Entropy} (cfg : Settings) (p : BulkJobPayload) (now : Z) (R : keyspace).
Context (Hredis : is_redis cfg = true) (Hnow : dt_range (utcnow now)).

(** A change of the job's record, of the lease or of the counter. *)
Lemma working_change k w ks' j x :
  working p now R k w ->
  (forall key, key <> redis_key (bp_job_id p) -> key <> mutex_key (bp_collection_id p) ->
     ks' !! key = w_redis w !! key) ->
  job_stored now ks' (bp_job_id p) j -> collection_id j = bp_collection_id p ->
  stopped (Some j) = false ->
  lock_of now ks' (bp_collection_id p) = Some (bp_job_id p, x) ->
  lock_typed now ks' (bp_collection_id p) ->
  working p now R k (with_redis w ks').
Proof.
  intros [Him Hn _ _ _ Hf] Hk Hj Hc Hs Hl Ht. destruct (counter_frame (w_now w) (w_redis w) ks'
    (inflight_key (bp_collection_id p))) as [Hco Hok]; [apply Hk; by key_neq|].
  split; [|done|by exists j|by exists x|done|].
  - destruct Him as [Hq Hdq _ Hc1 Hk1]. split; [done|done| |by apply Hok|by rewrite <-Hk1].
    exists j. split; [by rewrite <-Hn in Hj|]. intros He. unfold stopped in Hs. by rewrite He in Hs.
  - intros key K1 K2 K3. cbn. rewrite Hk by done. by apply Hf.
Qed.

Lemma working_update k w u s :
  working p now R k w -> update_ok u -> u_status u = Some s -> running_status s ->
  exists ks' j, update_job cfg (bp_job_id p) u w = (inr (Some (apply_redis now u j)), with_redis w ks')
    /\ working p now R k (with_redis w ks') /\ job_stored now ks' (bp_job_id p) (apply_redis now u j).
Proof.
  intros Hw Hu Hs Hrun. pose proof Hw as [Him Hn (j & Hj & Hc & _) [x Hl] Ht Hf].
  destruct (update_live cfg Hredis w (bp_job_id p) u j s) as (ks' & Hup & Hj' & Hk);
    rewrite ?Hn, ?Hc; try done; [apply Him|by apply running_not_finishing|].
  rewrite Hn in Hup, Hj'. exists ks', j. split; [done|]. split; [|done].
  destruct (lock_frame now (w_redis w) ks' (bp_collection_id p)) as [Hl' Ht'];
    [apply Hk, not_eq_sym, redis_key_mutex|].
  eapply working_change with (x := x); [done|by intros; apply Hk|done|done| |by rewrite Hl'|by apply Ht'].
  apply (running_not_stopped s); [done|]. unfold apply_redis. by rewrite Hs.
Qed.

(** A reported progress: the lease is renewed and the count is written. *)
Lemma worker_progress k w n t :
  working p now R k w -> exists w', progress (Some (on_progress cfg p)) "running" n t w = (inr tt, w')
    /\ working p now R k w' /\ w_db w' = w_db w /\ w_files w' = w_files w /\ w_now w' = w_now w.
Proof.
  intros Hw. pose proof Hw as [Him Hn (j & Hj & Hc & Hst) [x Hl] Ht Hf].
  pose proof (im_quiet _ _ _ _ Him) as Hq.
  destruct (lock_run_quiet cfg Hredis w (bp_collection_id p) (LRefresh (bp_job_id p)))
    as (ks1 & Hrf & Ht1 & Hl1 & Hk1); [done|by rewrite Hn|].
  rewrite Hn in Ht1, Hl1. rewrite Hl in Hl1. cbn [lock_step snd] in Hl1. rewrite decide_True in Hl1 by done.
  assert (working p now R k (with_redis w ks1)) as Hw1.
  { eapply working_change; [done|by intros; apply Hk1| |done|done|done|done].
    eapply job_stored_frame; [|exact Hj]. apply Hk1, redis_key_mutex. }
  destruct (working_update k _ (up_counts (Some "running") None None (Some n) None) "running" Hw1)
    as (ks2 & j2 & Hup & Hw2 & _); [done|done|by left|].
  exists (with_redis w ks2). split; [|done]. cbn [progress]. unfold on_progress.
  rewrite bind_run, (get_job_quiet cfg Hredis w _ j), Hst by (done || by rewrite Hn).
  rewrite try_pass_run. erewrite run_redis_retry_ok; [reflexivity|].
  unfold lock_run in Hrf. rewrite bind_run in Hrf. rewrite bind_run.
  destruct (refresh_collection_bulk_mutex cfg _ _ w) as [[e|[]] w1]; [done|]. 
  rewrite ret_run in Hrf. injection Hrf as _ ->. by rewrite bind_run, Hup.
Qed.

(** The worker's callback satisfies what the importer asks of its caller. *)
Lemma worker_good_progress :
  good_progress (bp_collection_id p) (bp_job_id p) (Some (on_progress cfg p)) (working p now R).
Proof.
  split.
  - by intros k w [].
  - intros k w db [[Hq Hdq Hj Hc Hk] Hn Hjob Hl Ht Hf]. by repeat split.
  - intros k k' w ks' [Him Hn (j & Hj & Hc & Hst) [x Hl] Ht Hf] Hfr Him'.
    destruct (lock_frame now (w_redis w) ks' (bp_collection_id p)) as [Hl' Ht']; [apply Hfr; by key_neq|].
    split; [done|done| |exists x; by rewrite <-Hl|by apply Ht'|].
    + exists j. split; [|done]. eapply job_stored_frame; [|exact Hj]. apply Hfr. by key_neq.
    + intros key K1 K2 K3. cbn. rewrite Hfr by done. by apply Hf.
  - intros k w n t Hw. by apply worker_progress.
Qed.
End working_lemmas.

(** The worker's callback raises once the job is cancelled: what
    [cancelled_import_cleans_up] asks of a callback. *)
Lemma worker_only_cancels `{RedisLaws} `{Entropy} (cfg : Settings) (p : BulkJobPayload) (j : JobInfo) (w : world) :
  is_redis cfg = true -> quiet w -> job_stored (w_now w) (w_redis w) (bp_job_id p) j ->
  status j = "cancelled" -> only_cancels (Some (on_progress cfg p)) w.
Proof.
  intros Hr Hq Hj Hst n. right. cbn [progress]. unfold on_progress.
  rewrite bind_run, (get_job_quiet cfg Hr w _ j Hq Hj). cbn [stopped]. by rewrite Hst.
Qed.

(** ** Lemmas: one job from the mutex to the end *)

Section job_lemmas.
Context `{RedisLaws} `{PostgresServer} `{Entropy} `{StagingImporter} (cfg : Settings).
Context (Hredis : is_redis cfg = true).

Lemma retry_update_run w w' id u r :
  update_job cfg id u w = (inr r, w') -> retry_update cfg id u w = (inr tt, w').
Proof. intros Hu. unfold retry_update. by rewrite bind_run, (run_redis_retry_ok _ _ _ _ _ _ Hu). Qed.

(** A pending job whose collection is free takes the mutex and works. *)
Lemma defer_takes_mutex p w k j :
  importing (bp_collection_id p) (bp_job_id p) k w ->
  job_stored (w_now w) (w_redis w) (bp_job_id p) j -> collection_id j = bp_collection_id p ->
  stopped (Some j) = false ->
  lock_typed (w_now w) (w_redis w) (bp_collection_id p) ->
  lock_of (w_now w) (w_redis w) (bp_collection_id p) = None ->
  exists ks', defer_bulk_job_for_collection_mutex cfg p w = (inr false, with_redis w ks')
    /\ working p (w_now w) (w_redis w) k (with_redis w ks').
Proof.
  intros Him Hj Hc Hst Ht Hl. pose proof (im_quiet _ _ _ _ Him) as Hq.
  destruct (lock_run_quiet cfg Hredis w (bp_collection_id p) (LAcquire (bp_job_id p)))
    as (ks1 & Hacq & Ht1 & Hl1 & Hk1); [done|done|].
  unfold lock_run in Hacq. rewrite Hl in Hacq, Hl1. cbn [lock_step fst snd] in Hacq, Hl1.
  exists ks1. split.
  { unfold defer_bulk_job_for_collection_mutex. by rewrite bind_run, Hacq. }
  destruct Him as [_ Hdq _ Hco Hk]. destruct (counter_frame (w_now w) (w_redis w) ks1
    (inflight_key (bp_collection_id p))) as [Hco' Hok']; [apply Hk1; by key_neq|].
  assert (job_stored (w_now w) ks1 (bp_job_id p) j) as Hj1
    by (eapply job_stored_frame; [|exact Hj]; apply Hk1, redis_key_mutex).
  split; [|done|by exists j|by eexists|done|].
  - split; [done|done| |by apply Hok'|by rewrite <-Hk].
    exists j. split; [done|]. intros He. unfold stopped in Hst. by rewrite He in Hst.
  - intros key K1 K2 K3. by apply Hk1.
Qed.

(** The first updates of the job. *)
Lemma import_starts path p now R k w :
  dt_range (utcnow now) -> working p now R k w ->
  exists ks', working p now R k (with_redis w ks')
    /\ import_body cfg path p w
       = ('(created, failed, err) ← run_vector_import cfg path p (Some (on_progress cfg p));
          after_import cfg p created failed err) (with_redis w ks').
Proof.
  intros Hnow Hw.
  destruct (working_update cfg p now R Hredis Hnow k w (up "running" "Starting bulk import…") "running" Hw)
    as (ks1 & j1 & Hu1 & Hw1 & _); [done|done|by left|].
  unfold import_body. rewrite bind_run, (retry_update_run _ _ _ _ _ Hu1).
  destruct (bool_decide (bp_mode p = "replace")); cbn [when]; [|by exists ks1].
  destruct (working_update cfg p now R Hredis Hnow k _
    (up "replacing" "Loading replacement data into staging…") "replacing" Hw1)
    as (ks2 & j2 & Hu2 & Hw2 & _); [done|done|by right; left|].
  rewrite bind_run, (retry_update_run _ _ _ _ _ Hu2), with_redis_twice. by exists ks2.
Qed.

(** A ready upload is staged and then promoted or refused. *)
Lemma import_stages path text p now R k w rows f :
  dt_range (utcnow now) -> working p now R k w -> bulk_copy_ingest_enabled cfg = true ->
  bp_mode p ∈ ["append"; "replace"] -> bp_zip_inner_shp_paths p = None ->
  import_ready w (bp_collection_id p) (bp_job_id p) path text ->
  parsed text (bp_collection_id p) (bp_job_id p) now = inr (rows, f) -> keys_unique (map stored_row rows) = true ->
  exists w', import_body cfg path p w = queue_promotion cfg p (Z.of_nat (length rows)) f w'
    /\ working p now R k w' /\ w_db w' = with_staged (w_db w) (bp_job_id p) rows
    /\ w_files w' = w_files w.
Proof.
  intros Hnow Hw Hcopy Hmode Hzip Hready Hrows Hk.
  destruct (import_starts path p now R k w Hnow Hw) as (ks1 & Hw1 & ->). set (w1 := with_redis w ks1) in *.
  destruct (copy_import_stages w1 (bp_collection_id p) (bp_mode p) (bp_job_id p) path text
    (Some (on_progress cfg p)) (working p now R) k rows f) as (w2 & Hrun & Hw2 & Hdb & Hfi); try done.
  { by apply worker_good_progress. }
  { by apply (ready_frame w). }
  { by rewrite (wk_now _ _ _ _ _ Hw1). }
  exists w2. split; [|done]. unfold run_vector_import. rewrite decide_False.
  2: { intros He. rewrite He in Hmode. by rewrite !elem_of_cons, elem_of_nil in Hmode; destruct Hmode as [?|[?|[]]]. }
  rewrite bool_decide_eq_true_2 by done. cbn [negb]. rewrite Hcopy, Hzip, bind_run, Hrun.
  unfold after_import. destruct (wk_job _ _ _ _ _ Hw2) as (j & Hj & _ & Hst).
  rewrite bind_run, (get_job_quiet cfg Hredis w2 _ j), Hst.
  - by rewrite decide_True.
  - apply (wk_importing _ _ _ _ _ Hw2).
  - by rewrite (wk_now _ _ _ _ _ Hw2).
Qed.

(** The keyspace after the [finally] clause. *)
Definition closed (p : BulkJobPayload) (now : Z) (ks : keyspace) (queued : bool) : keyspace :=
  let ks1 := if decide (fst <$> lock_of now ks (bp_collection_id p) = Some (bp_job_id p))
             then delete (mutex_key (bp_collection_id p)) ks else ks in
  if queued then ks1 else delete (reg_key (bp_job_id p)) ks1.

Lemma closed_frame p now ks q key :
  key <> mutex_key (bp_collection_id p) -> (q = false -> key <> reg_key (bp_job_id p)) ->
  closed p now ks q !! key = ks !! key.
Proof.
  intros Hm Hr. unfold closed. destruct q; [|rewrite lookup_delete_ne by (apply not_eq_sym; by apply Hr)];
    case_decide; rewrite ?lookup_delete_ne; done.
Qed.

Lemma closed_unlocks p now ks q x :
  lock_of now ks (bp_collection_id p) = Some (bp_job_id p, x) \/ lock_of now ks (bp_collection_id p) = None ->
  lock_of now (closed p now ks q) (bp_collection_id p) = None.
Proof.
  intros Hl. assert (lock_of now (closed p now ks true) (bp_collection_id p) = None) as Ht.
  { unfold closed. destruct Hl as [Hl|Hl]; rewrite Hl; cbn [fmap option_fmap option_map fst].
    - rewrite decide_True by done. apply lock_of_delete.
    - by rewrite decide_False. }
  destruct q; [done|]. rewrite <-Ht. refine (proj1 (lock_frame _ _ _ _ _)).
  unfold closed. apply lookup_delete_ne. by key_neq.
Qed.

Lemma import_finally_run p base path w j :
  quiet w -> lock_typed (w_now w) (w_redis w) (bp_collection_id p) ->
  job_stored (w_now w) (w_redis w) (bp_job_id p) j ->
  Filesystem.path_of base (bp_storage_key p) = inr path ->
  import_finally cfg (Filesystem.backend base) p w =
  (inr tt, with_files (with_redis w (closed p (w_now w) (w_redis w) (is_finalizing (Some j))))
             (delete path (w_files w))).
Proof.
  intros Hq Ht Hj Hp. unfold import_finally. rewrite bind_run, release_quiet by done.
  set (w1 := if decide _ then _ else w).
  assert (w1 = with_redis w (closed p (w_now w) (w_redis w) true)) as Hw1.
  { unfold w1, closed. case_decide; [done|by rewrite with_redis_same]. }
  clearbody w1. subst w1. set (ks1 := closed _ _ _ true).
  rewrite bind_run, (try_except_ok _ _ _ (is_finalizing (Some j)) (with_redis w ks1)).
  2: { rewrite fmap_run, (get_job_quiet cfg Hredis (with_redis w ks1) _ j); [done|done|].
       eapply job_stored_frame; [|exact Hj]. apply closed_frame; [apply redis_key_mutex|done]. }
  rewrite bind_run, try_pass_run, (storage_delete_run base (bp_storage_key p) path _ Hp). cbn [snd].
  destruct (is_finalizing (Some j)); cbn [negb when]; [done|].
  unfold unregister_bulk_import_job. rewrite Hredis, try_pass_run, del_quiet by done. done.
Qed.
End job_lemmas.

(** ** Specification of a job *)

(** An upload whose job is pending and whose collection nobody imports into. *)
Record upload_ready (cfg : Settings) (p : BulkJobPayload) (base path text : string) (k : Z)
    (j : JobInfo) (w : world) : Prop := {
  ur_storage : get_bulk_storage cfg = inr (Filesystem.backend base);
  ur_path : Filesystem.path_of base (bp_storage_key p) = inr path;
  ur_kind : bp_job_kind p <> "raster_batch";
  ur_mode : bp_mode p ∈ ["append"; "replace"];
  ur_zip : bp_zip_inner_shp_paths p = None;
  ur_now : dt_range (utcnow (w_now w));
  ur_importing : importing (bp_collection_id p) (bp_job_id p) k w;
  ur_job : job_stored (w_now w) (w_redis w) (bp_job_id p) j;
  ur_coll : collection_id j = bp_collection_id p;
  ur_status : stopped (Some j) = false;
  ur_typed : lock_typed (w_now w) (w_redis w) (bp_collection_id p);
  ur_free : lock_of (w_now w) (w_redis w) (bp_collection_id p) = None;
  ur_ready : import_ready w (bp_collection_id p) (bp_job_id p) path text
}.

(** What a job leaves when its rows are staged: the promotion is queued and
    pending, the job says so, the mutex is free, the import is counted out, the
    upload is gone and the job stays registered for the promotion worker. *)
Record promotion_queued (p : BulkJobPayload) (path : string) (k : Z) (rows : list copy_row) (f : Z)
    (l : list string) (w w' : world) : Prop := {
  pq_quiet : quiet w' /\ db_quiet w' /\ w_now w' = w_now w;
  pq_queue : finalize_queue_of (w_now w') (w_redis w')
             = inr (finalize_to_json (finalize_payload p (Z.of_nat (length rows)) f) :: l);
  pq_pending : finalize_pending (w_now w') (w_redis w') (bp_job_id p) = true;
  pq_job : exists j, job_stored (w_now w') (w_redis w') (bp_job_id p) j
             /\ collection_id j = bp_collection_id p /\ status j = "finalizing"
             /\ items_created j = Z.of_nat (length rows) /\ items_failed j = f;
  pq_typed : lock_typed (w_now w') (w_redis w') (bp_collection_id p);
  pq_unlocked : lock_of (w_now w') (w_redis w') (bp_collection_id p) = None;
  pq_count : counter_of (w_now w') (w_redis w') (inflight_key (bp_collection_id p)) = k;
  pq_registered : w_redis w' !! reg_key (bp_job_id p) = w_redis w !! reg_key (bp_job_id p);
  pq_files : w_files w' = delete path (w_files w);
  pq_db : w_db w' = with_staged (w_db w) (bp_job_id p) rows
}.

Section whole_job.
Context `{RedisLaws} `{PostgresLaws} `{Entropy} `{StagingImporter} (cfg : Settings).
Context (Hredis : is_redis cfg = true) (Hcopy : bulk_copy_ingest_enabled cfg = true).

(** Up to the end of the import. *)
Lemma job_stages p base path text k j w rows f :
  upload_ready cfg p base path text k j w ->
  parsed text (bp_collection_id p) (bp_job_id p) (w_now w) = inr (rows, f) -> keys_unique (map stored_row rows) = true ->
  exists w', process_bulk_job cfg p w
      = try_finally (try_except (queue_promotion cfg p (Z.of_nat (length rows)) f) (import_error cfg p))
          (import_finally cfg (Filesystem.backend base) p) w'
    /\ working p (w_now w) (w_redis w) k w'
    /\ w_db w' = with_staged (w_db w) (bp_job_id p) rows /\ w_files w' = w_files w.
Proof.
  intros [] Hrows Hk.
  destruct (defer_takes_mutex cfg Hredis p w k j) as (ks1 & Hd & Hw1); try done.
  destruct (import_stages cfg Hredis path text p (w_now w) (w_redis w) k (with_redis w ks1) rows f)
    as (w2 & Hb & Hw2 & Hdb & Hfi); [done|done|done|done|done|by apply (ready_frame w)|done|done|].
  exists w2. split; [|done]. unfold process_bulk_job.
  rewrite bind_run, lift_run, ur_storage0, bind_run. cbn [get_path_or_uri Filesystem.backend].
  unfold Filesystem.path_m. rewrite lift_run, ur_path0, decide_False by done.
  rewrite bind_run, Hd. destruct (wk_job _ _ _ _ _ Hw1) as (j1 & Hj1 & _ & Hst1).
  rewrite bind_run, (get_job_quiet cfg Hredis _ _ j1); [|apply (wk_importing _ _ _ _ _ Hw1)|done].
  unfold is_cancelled. rewrite bool_decide_eq_false_2.
  2: { intros He. unfold stopped in Hst1. by rewrite He in Hst1. }
  unfold run_import, try_finally, try_except. by rewrite Hb.
Qed.

(** Other keys than the working ones may change under a working job. *)
Lemma working_rebase p now R k w ks' :
  working p now R k w ->
  (forall key, key = redis_key (bp_job_id p) \/ key = mutex_key (bp_collection_id p)
     \/ key = inflight_key (bp_collection_id p) -> ks' !! key = w_redis w !! key) ->
  working p now ks' k (with_redis w ks').
Proof.
  intros [Him Hn (j & Hj & Hc & Hst) [x Hl] Ht _] Hk.
  destruct (lock_frame now (w_redis w) ks' (bp_collection_id p)) as [Hl' Ht']; [apply Hk; tauto|].
  destruct (counter_frame (w_now w) (w_redis w) ks' (inflight_key (bp_collection_id p))) as [Hco Hok];
    [apply Hk; tauto|].
  assert (job_stored now ks' (bp_job_id p) j) as Hj' by (eapply job_stored_frame; [|exact Hj]; apply Hk; tauto).
  split; [|done|by exists j|exists x; exact (eq_trans Hl' Hl)|by apply Ht'|done].
  destruct Him as [Hq Hdq _ Hc1 Hk1]. split; [done|done| |by apply Hok|by rewrite <-Hk1].
  exists j. split; [by rewrite <-Hn in Hj'|]. intros He. unfold stopped in Hst. by rewrite He in Hst.
Qed.

(** Staged rows are handed to the promotion queue. *)
Lemma hand_over p now R k w n f h l :
  dt_range (utcnow now) -> working p now R k w -> 0 < n ->
  finalize_pending now R (bp_job_id p) = false ->
  as_hash now R (state_key (bp_job_id p)) = inr h -> finalize_queue_of now R = inr l ->
  exists ks' j, queue_promotion cfg p n f w = (inr tt, with_redis w ks')
    /\ working p now ks' k (with_redis w ks')
    /\ finalize_pending now ks' (bp_job_id p) = true
    /\ finalize_queue_of now ks' = inr (finalize_to_json (finalize_payload p n f) :: l)
    /\ ks' !! reg_key (bp_job_id p) = R !! reg_key (bp_job_id p)
    /\ job_stored now ks' (bp_job_id p) (apply_redis now
         (up_counts (Some "finalizing") (Some (loaded_message n)) None (Some n) (Some f)) j).
Proof.
  intros Hnow Hw Hn Hp Hh Hl. pose proof (wk_now _ _ _ _ _ Hw) as Hnw.
  pose proof (im_quiet _ _ _ _ (wk_importing _ _ _ _ _ Hw)) as Hq. pose proof (wk_frame _ _ _ _ _ Hw) as Hf.
  destruct (enqueue_finalize_fresh cfg Hredis w (finalize_payload p n f) h l) as (ks1 & He & Hp1 & Hl1 & Hk1);
    rewrite ?Hnw; [done| | | |].
  { rewrite <-Hp. unfold finalize_pending, peek. rewrite Hf by by key_neq. done. }
  { rewrite <-Hh. apply as_hash_peek. unfold peek_val, peek. rewrite Hf by by key_neq. done. }
  { rewrite <-Hl. apply queue_frame. by apply Hf; key_neq. }
  rewrite Hnw in Hp1, Hl1. cbn [finalize_payload fp_job_id] in Hp1, Hk1.
  assert (working p now ks1 k (with_redis w ks1)) as Hw1.
  { eapply working_rebase; [exact Hw|]. intros key Hkey.
    apply Hk1; destruct Hkey as [->|[->| ->]]; by key_neq. }
  destruct (working_update cfg p now ks1 Hredis Hnow k (with_redis w ks1)
    (up_counts (Some "finalizing") (Some (loaded_message n)) None (Some n) (Some f)) "finalizing" Hw1)
    as (ks2 & j & Hu & Hw2 & Hj2); [done|done|by right; right; left|].
  pose proof (wk_frame _ _ _ _ _ Hw2) as Hf2. cbn [with_redis w_redis] in Hf2.
  exists ks2, j. split; [|split; [|split; [|split; [|split; [|done]]]]].
  - unfold queue_promotion. rewrite (proj2 (Z.leb_gt _ _)) by done.
    by rewrite bind_run, He, (retry_update_run cfg _ _ _ _ _ Hu).
  - eapply (working_rebase _ _ _ _ _ ks2 Hw2). done.
  - rewrite <-Hp1. unfold finalize_pending, peek. rewrite Hf2 by by key_neq. done.
  - rewrite <-Hl1. apply queue_frame. by apply Hf2; key_neq.
  - rewrite Hf2, Hk1 by by key_neq. by apply Hf; key_neq.
Qed.

Lemma job_queues p base path text k j w rows f h l :
  upload_ready cfg p base path text k j w ->
  parsed text (bp_collection_id p) (bp_job_id p) (w_now w) = inr (rows, f) -> rows <> [] ->
  keys_unique (map stored_row rows) = true ->
  finalize_pending (w_now w) (w_redis w) (bp_job_id p) = false ->
  as_hash (w_now w) (w_redis w) (state_key (bp_job_id p)) = inr h ->
  finalize_queue_of (w_now w) (w_redis w) = inr l ->
  exists w', process_bulk_job cfg p w = (inr tt, w') /\ promotion_queued p path k rows f l w w'.
Proof.
  intros Hur Hrows Hne Hk Hp Hh Hl. pose proof (ur_now _ _ _ _ _ _ _ _ Hur) as Hnow.
  destruct (job_stages p base path text k j w rows f Hur Hrows Hk) as (w2 & -> & Hw2 & Hdb2 & Hfi2).
  assert (0 < Z.of_nat (length rows)) as Hpos by (destruct rows; [done|simpl; lia]).
  destruct (hand_over p (w_now w) (w_redis w) k w2 _ f h l Hnow Hw2 Hpos Hp Hh Hl)
    as (ks3 & j3 & Hrun & Hw3 & Hp3 & Hl3 & Hreg3 & Hj3).
  pose proof Hw3 as [Him3 Hn3 (j3' & Hj3' & Hc3 & _) [x Hl3x] Ht3 _]. cbn in Hl3x, Ht3, Hj3', Hn3.
  match type of Hj3 with job_stored _ _ _ ?j => set (jf := j) in * end.
  assert (j3' = jf) as ->.
  { destruct Hj3 as (h1 & Hh1 & _ & Hp1), Hj3' as (h2 & Hh2 & _ & Hp2). congruence. }
  unfold try_finally. rewrite (try_except_ok _ _ _ _ _ Hrun).
  rewrite (import_finally_run cfg Hredis p base path _ jf (im_quiet _ _ _ _ Him3));
    [|by cbn; rewrite Hn3|by cbn; rewrite Hn3|by apply Hur].
  cbn [with_redis w_now w_redis]. rewrite Hn3. set (ks4 := closed _ _ _ _). eexists. split; [done|].
  assert (forall key, key <> mutex_key (bp_collection_id p) -> ks4 !! key = ks3 !! key) as Hk4.
  { intros key Hkey. by apply closed_frame. }
  split; cbn [with_files with_services with_redis w_now w_redis w_services s_db s_files]; rewrite ?Hn3.
  - split; [apply Him3|]. split; [apply Him3|done].
  - rewrite <-Hl3. apply queue_frame. apply Hk4. by key_neq.
  - rewrite <-Hp3. unfold finalize_pending, peek. by rewrite Hk4 by by key_neq.
  - eexists. split; [|split; [exact Hc3|done]].
    eapply job_stored_frame; [|exact Hj3]. apply Hk4, redis_key_mutex.
  - unfold ks4, closed. cbn. rewrite Hl3x. rewrite decide_True by done. apply lock_typed_delete.
  - apply (closed_unlocks p _ _ _ x). by left.
  - rewrite <-(im_count _ _ _ _ Him3). cbn. rewrite Hn3.
    refine (proj1 (counter_frame _ _ _ _ _)). apply Hk4. by key_neq.
  - rewrite Hk4 by by key_neq. exact Hreg3.
  - by rewrite Hfi2.
  - exact Hdb2.
Qed.
End whole_job.

(** *** An upload without features *)

Section empty_upload.
Context `{RedisLaws} `{PostgresLaws} `{Entropy} `{StagingImporter} (cfg : Settings).
Context (Hredis : is_redis cfg = true) (Hcopy : bulk_copy_ingest_enabled cfg = true).

(** The staging table is dropped and the job fails. *)
Lemma refuse_empty p now R k w f t :
  dt_range (utcnow now) -> working p now R k w ->
  db_tables (w_db w) !! staging_table_name (bp_job_id p) = Some t ->
  exists ks' j x, queue_promotion cfg p 0 f w
      = (inr tt, with_redis (with_db w (drop_table (w_db w) (staging_table_name (bp_job_id p)))) ks')
    /\ job_stored now ks' (bp_job_id p) (apply_redis now
         (up_counts (Some "failed") (Some (empty_message f)) None (Some 0) (Some f)) j)
    /\ lock_typed now ks' (bp_collection_id p)
    /\ (lock_of now ks' (bp_collection_id p) = Some (bp_job_id p, x)
        \/ lock_of now ks' (bp_collection_id p) = None)
    /\ (forall key, key <> redis_key (bp_job_id p) -> key <> mutex_key (bp_collection_id p) ->
          ks' !! key = w_redis w !! key).
Proof.
  intros Hnow [Him Hn (j & Hj & Hc & _) [x Hl] Ht _] Htab.
  pose proof (im_db_quiet _ _ _ _ Him) as Hdq.
  set (w1 := with_db w (drop_table (w_db w) (staging_table_name (bp_job_id p)))).
  set (u := up_counts (Some "failed") (Some (empty_message f)) None (Some 0) (Some f)).
  destruct (update_step cfg Hredis w1 (bp_job_id p) u j) as (ks' & Hu & Hj' & Ht' & Hk & Hl' & _);
    cbn [w1 with_db with_services w_now w_redis]; rewrite ?Hn, ?Hc; try done; [apply Him|].
  cbn [w1 with_db with_services w_now w_redis] in Hu, Hj', Ht', Hk, Hl'. rewrite Hn, ?Hc in *.
  exists ks', j, x. rewrite Hl in Hl'. split; [|done].
  unfold queue_promotion. cbn [Z.leb Z.compare]. rewrite bind_run, try_pass_run.
  rewrite (drop_staging_run _ _ _ Hdq Htab). cbn [snd]. fold w1. exact (retry_update_run cfg _ _ _ _ _ Hu).
Qed.

Lemma job_refuses_empty p base path text k j w f :
  upload_ready cfg p base path text k j w ->
  parsed text (bp_collection_id p) (bp_job_id p) (w_now w) = inr ([], f) ->
  exists w' j', process_bulk_job cfg p w = (inr tt, w')
    /\ job_stored (w_now w') (w_redis w') (bp_job_id p) j' /\ status j' = "failed"
    /\ message j' = Some (empty_message f) /\ items_failed j' = f
    /\ db_tables (w_db w') !! staging_table_name (bp_job_id p) = None
    /\ (forall c, live_rows (w_db w') c = live_rows (w_db w) c)
    /\ lock_of (w_now w') (w_redis w') (bp_collection_id p) = None
    /\ w_redis w' !! reg_key (bp_job_id p) = None
    /\ w_files w' = delete path (w_files w).
Proof.
  intros Hur Hrows. pose proof (ur_now _ _ _ _ _ _ _ _ Hur) as Hnow.
  pose proof (ir_free _ _ _ _ _ (ur_ready _ _ _ _ _ _ _ _ Hur)) as Hfree.
  destruct (job_stages cfg Hredis Hcopy p base path text k j w [] f Hur Hrows eq_refl) as (w2 & -> & Hw2 & Hdb2 & Hfi2).
  destruct (refuse_empty p (w_now w) (w_redis w) k w2 f (Table [] false []) Hnow Hw2)
    as (ks3 & j3 & x & Hrun & Hj3 & Ht3 & Hl3 & Hk3); [rewrite Hdb2; apply lookup_insert_eq|].
  change (Z.of_nat (length [])) with 0. set (w3 := with_redis _ ks3) in Hrun.
  assert (w_now w3 = w_now w) as Hn3 by apply (wk_now _ _ _ _ _ Hw2).
  unfold try_finally. rewrite (try_except_ok _ _ _ _ _ Hrun).
  match type of Hj3 with job_stored _ _ _ ?j => set (jf := j) in * end.
  rewrite (import_finally_run cfg Hredis p base path w3 jf); rewrite ?Hn3; try done;
    [|apply (wk_importing _ _ _ _ _ Hw2)|by apply Hur].
  cbn [is_finalizing jf apply_redis up_counts u_status status default].
  rewrite (bool_decide_eq_false_2 ("failed" = "finalizing")) by done.
  eexists _, jf. split; [done|].
  cbn [w3 with_files with_services with_redis with_db w_now w_redis w_services s_db s_files].
  fold w3. cbn in Hn3. rewrite Hn3, Hdb2, Hfi2.
  assert (message jf = Some (empty_message f)) as Hmsg.
  { cbn [jf apply_redis up_counts u_message message]. rewrite decide_False; [done|].
    unfold empty_message. by destruct (f =? 0). }
  split; [|split; [done|split; [done|split; [done|split; [|split; [|split; [|split; [|done]]]]]]]].
  - eapply job_stored_frame; [|exact Hj3]. apply closed_frame; [apply redis_key_mutex|by key_neq].
  - rewrite drop_table_tables. apply lookup_delete_eq.
  - intros c. rewrite live_rows_drop_unattached by done. by apply live_rows_staged.
  - by apply (closed_unlocks p _ _ _ x).
  - unfold closed. cbn. apply lookup_delete_eq.
Qed.
End empty_upload.

(** *** A busy collection *)

Section busy.
Context `{RedisLaws} `{PostgresServer} `{Entropy} `{Importers} (cfg : Settings).
Context (Hredis : is_redis cfg = true).

(** The job of a live holder. *)
Record held_by_other (p : BulkJobPayload) (h : string) (x : option Z) (jh : JobInfo) (w : world) : Prop := {
  ho_lock : lock_of (w_now w) (w_redis w) (bp_collection_id p) = Some (h, x);
  ho_typed : lock_typed (w_now w) (w_redis w) (bp_collection_id p);
  ho_other : h <> bp_job_id p /\ h <> "";
  ho_job : job_stored (w_now w) (w_redis w) h jh;
  ho_live : reclaimable cfg (w_now w) (Some jh) = false
}.

Lemma acquire_refused p h x jh w :
  quiet w -> held_by_other p h x jh w ->
  try_acquire_collection_bulk_mutex cfg (bp_collection_id p) (bp_job_id p) w = (inr false, w).
Proof.
  intros Hq []. rewrite (acquire_quiet cfg Hredis) by done. rewrite ho_lock0.
  by rewrite bool_decide_eq_false_2 by (by destruct ho_other0).
Qed.

Lemma defer_puts_back p h x jh j w l :
  quiet w -> dt_range (utcnow (w_now w)) -> held_by_other p h x jh w ->
  job_stored (w_now w) (w_redis w) (bp_job_id p) j -> collection_id j = bp_collection_id p ->
  queue_of (w_now w) (w_redis w) = inr l ->
  exists ks', defer_bulk_job_for_collection_mutex cfg p w = (inr true, with_redis w ks')
    /\ queue_of (w_now w) ks' = inr (to_json p :: l)
    /\ job_stored (w_now w) ks' (bp_job_id p)
         (apply_redis (w_now w) (up "pending" (waiting_message (Some h) (Some jh))) j)
    /\ (forall key, key <> redis_key (bp_job_id p) -> key <> QUEUE_KEY -> ks' !! key = w_redis w !! key).
Proof.
  intros Hq Hnow Hh Hj Hc Hl. pose proof Hh as [Hlk Ht [Ho Hne] Hjh Hrec].
  assert (truthy (Some h) = true) as Htr by (cbn [truthy]; by rewrite bool_decide_eq_false_2).
  assert (get_collection_bulk_mutex_holder cfg (bp_collection_id p) w = (inr (Some h), w)) as Hholder.
  { rewrite (holder_quiet cfg Hredis) by done. rewrite Hlk. cbn [fmap option_fmap option_map fst]. cbv zeta.
    by rewrite Htr. }
  assert (reclaim_stale_collection_bulk_mutex cfg (bp_collection_id p) w = (inr None, w)) as Hreclaim.
  { by rewrite (reclaim_quiet cfg Hredis w _ h x (Some jh)), Hrec. }
  destruct (update_live cfg Hredis w (bp_job_id p) (up "pending" (waiting_message (Some h) (Some jh))) j
    "pending") as (ks1 & Hu & Hj1 & Hk1); rewrite ?Hc; try done.
  assert (queue_of (w_now w) ks1 = inr l) as Hl1.
  { rewrite <-Hl. apply queue_frame. apply Hk1. by key_neq. }
  pose proof (enqueue_quiet cfg Hredis (with_redis w ks1) p l Hq Hl1) as He.
  eexists. split; [|split; [|split]].
  - unfold defer_bulk_job_for_collection_mutex.
    rewrite bind_run, (acquire_refused p h x jh w Hq Hh).
    rewrite bind_run, Hholder, bind_run, Hreclaim, bind_run, (acquire_refused p h x jh w Hq Hh).
    rewrite bind_run, Hholder, bind_run. unfold holder_job at 1. rewrite Htr.
    rewrite (get_job_quiet cfg Hredis w h jh) by done.
    unfold reclaimable in Hrec. apply orb_false_iff in Hrec as [[-> _]%orb_false_iff _].
    unfold put_back, try_pass. rewrite bind_run, (try_except_ok _ _ _ tt (with_redis w ks1)) by (by rewrite bind_run, Hu).
    by rewrite bind_run, (try_except_ok _ _ _ _ _ He).
  - apply queue_put_keep.
  - eapply job_stored_frame; [|exact Hj1]. unfold put_keep, put. apply lookup_insert_ne. by key_neq.
  - intros key K1 K2. unfold put_keep, put. cbn. rewrite lookup_insert_ne by done. by apply Hk1.
Qed.
End busy.

(** ** Properties *)

(** C2. A bulk job hands its rows over: without faults, for a pending job whose
    collection is free, whose promotion is not queued yet and whose upload, a
    GeoJSON sequence, parses into one or more rows that repeat no primary key, whatever importer keeps the contract,
    processing the job ends normally with the parsed rows in the staging table of the
    job and nothing else changed in the database, exactly one promotion of it queued and
    pending, the stored job ["finalizing"] with the counts of the import, the mutex
    free, the import counted out, the upload deleted and the job still registered. *)
Theorem bulk_job_queues_promotion `{RedisLaws} `{PostgresLaws} `{Entropy} `{StagingImporter}
    (cfg : Settings) (p : BulkJobPayload) (base path text : string) (k : Z) (j : JobInfo) (w : world)
    (rows : list copy_row) (f : Z) (h : gmap string string) (l : list string) :
  is_redis cfg = true -> bulk_copy_ingest_enabled cfg = true ->
  upload_ready cfg p base path text k j w ->
  parsed text (bp_collection_id p) (bp_job_id p) (w_now w) = inr (rows, f) -> rows <> [] ->
  keys_unique (map stored_row rows) = true ->
  finalize_pending (w_now w) (w_redis w) (bp_job_id p) = false ->
  as_hash (w_now w) (w_redis w) (state_key (bp_job_id p)) = inr h ->
  finalize_queue_of (w_now w) (w_redis w) = inr l ->
  exists w', process_bulk_job cfg p w = (inr tt, w') /\ promotion_queued p path k rows f l w w'.
Proof. intros Hr Hcopy. by apply job_queues. Qed.

(** C1. From the queue to the readers: after the job of an upload has been
    processed, the text it put on the finalize queue parses to the promotion of
    the job, and processing that promotion ends normally with exactly the parsed
    rows published: they replace the live rows of the collection or follow them,
    every other collection reads as before the upload, the stored job is
    completed with their number, and nothing is pending or registered any more. *)
Theorem upload_published `{RedisLaws} `{PostgresLaws} `{Entropy} `{StagingImporter}
    (cfg : Settings) (recompute_extent : string -> M unit) (p : BulkJobPayload)
    (base path text : string) (k : Z) (j : JobInfo) (w : world) (rows : list copy_row) (f : Z)
    (h : gmap string string) (l : list string) :
  is_redis cfg = true -> bulk_copy_ingest_enabled cfg = true ->
  bulk_extent_update_mode cfg = "deferred" -> bp_queue_compute_tiles p = false ->
  ascii_finalize (finalize_payload p (Z.of_nat (length rows)) f) = true ->
  upload_ready cfg p base path text k j w ->
  parsed text (bp_collection_id p) (bp_job_id p) (w_now w) = inr (rows, f) -> rows <> [] ->
  keys_unique (promoted (bp_mode p) (live_rows (w_db w) (bp_collection_id p)) (map stored_row rows)) = true ->
  finalize_pending (w_now w) (w_redis w) (bp_job_id p) = false ->
  as_hash (w_now w) (w_redis w) (state_key (bp_job_id p)) = inr h ->
  finalize_queue_of (w_now w) (w_redis w) = inr l ->
  exists w1 w2 raw q j', process_bulk_job cfg p w = (inr tt, w1)
    /\ finalize_queue_of (w_now w1) (w_redis w1) = inr (raw :: l)
    /\ finalize_from_json raw = inr q
    /\ process_bulk_finalize_job cfg recompute_extent q w1 = (inr tt, w2)
    /\ live_rows (w_db w2) (bp_collection_id p)
       = promoted (bp_mode p) (live_rows (w_db w) (bp_collection_id p)) (map stored_row rows)
    /\ (forall c, c <> bp_collection_id p -> live_rows (w_db w2) c = live_rows (w_db w) c)
    /\ job_stored (w_now w2) (w_redis w2) (bp_job_id p) j'
    /\ status j' = "completed" /\ items_created j' = Z.of_nat (length rows)
    /\ finalize_pending (w_now w2) (w_redis w2) (bp_job_id p) = false
    /\ peek (w_now w2) (w_redis w2) (reg_key (bp_job_id p)) = None.
Proof.
  intros Hr Hcopy Hext Htiles Hascii Hur Hrows Hne Hk Hp Hh Hl.
  pose proof (promoted_keys _ _ _ Hk) as Hkr.
  destruct (job_queues cfg Hr Hcopy p base path text k j w rows f h l Hur Hrows Hne Hkr Hp Hh Hl)
    as (w1 & Hrun & [(Hq1 & Hdq1 & Hn1) Hl1 _ (j1 & Hj1 & Hc1 & Hs1 & _) Ht1 _ _ _ _ Hdb1]).
  pose proof (ur_ready _ _ _ _ _ _ _ _ Hur) as Hready.
  set (q := finalize_payload p (Z.of_nat (length rows)) f) in *.
  assert (forall c, live_rows (w_db w1) c = live_rows (w_db w) c) as Hlive.
  { intros c. rewrite Hdb1. by apply live_rows_staged, Hready. }
  assert (finalize_from_json (finalize_to_json q) = inr q) as Hq.
  { rewrite (finalize_round_trip_aux q Hascii). f_equal. unfold normal_finalize, q, finalize_payload. cbn.
    f_equal. unfold str_or. rewrite decide_False; [done|]. intros He.
    pose proof (ur_mode _ _ _ _ _ _ _ _ Hur) as Hm. rewrite He, !elem_of_cons, elem_of_nil in Hm.
    by destruct Hm as [?|[?|[]]]. }
  assert (promotable (w_db w1) (bp_collection_id p) (bp_job_id p) (Table (map stored_row rows) false [])) as Hpr.
  { rewrite Hdb1. eapply staged_promotable; [exact Hready|by eapply parsed_collection|done|done]. }
  destruct (finalize_run cfg recompute_extent Hr w1 q (Table (map stored_row rows) false []) j1)
    as (w2 & Hfin & [Hl2 Ho2 (j2 & Hj2 & Hs2 & Hi2 & _) Hp2 Hreg2 _]);
    rewrite ?Hc1, ?Hn1; try done; [by rewrite <-Hn1|by rewrite Hs1|by rewrite <-Hn1|by apply Hur|by rewrite Hlive|].
  exists w1, w2, (finalize_to_json q), q, j2. cbn [t_rows] in Hl2, Hi2. rewrite length_map in Hi2.
  rewrite Hlive in Hl2. repeat (split; [done|]). split; [|done].
  intros c Hc. by rewrite Ho2, Hlive.
Qed.

(** An upload without importable features fails cleanly: the job is failed
    with the number of skipped features in its message, its staging table is
    gone, readers see what they saw, the mutex is free and neither the upload
    nor the registration of the job remains. *)
Theorem empty_upload_fails `{RedisLaws} `{PostgresLaws} `{Entropy} `{StagingImporter}
    (cfg : Settings) (p : BulkJobPayload) (base path text : string) (k : Z) (j : JobInfo) (w : world)
    (f : Z) :
  is_redis cfg = true -> bulk_copy_ingest_enabled cfg = true ->
  upload_ready cfg p base path text k j w ->
  parsed text (bp_collection_id p) (bp_job_id p) (w_now w) = inr ([], f) ->
  exists w' j', process_bulk_job cfg p w = (inr tt, w')
    /\ job_stored (w_now w') (w_redis w') (bp_job_id p) j' /\ status j' = "failed"
    /\ message j' = Some (empty_message f) /\ items_failed j' = f
    /\ db_tables (w_db w') !! staging_table_name (bp_job_id p) = None
    /\ (forall c, live_rows (w_db w') c = live_rows (w_db w) c)
    /\ lock_of (w_now w') (w_redis w') (bp_collection_id p) = None
    /\ w_redis w' !! reg_key (bp_job_id p) = None
    /\ w_files w' = delete path (w_files w).
Proof. intros Hr Hcopy. by apply job_refuses_empty. Qed.

(** C13. At most one import of a collection: while the collection's mutex belongs
    to another job that may not be reclaimed, processing a job runs no importer
    and no transaction: the payload goes back to the queue, the job waits as
    ["pending"], whatever its status was, and no other key, no row and no file
    changes. *)
Theorem busy_collection_waits `{RedisLaws} `{PostgresServer} `{Entropy} `{Importers}
    (cfg : Settings) (p : BulkJobPayload) (base path h : string) (x : option Z) (jh j : JobInfo)
    (w : world) (l : list string) :
  is_redis cfg = true -> get_bulk_storage cfg = inr (Filesystem.backend base) ->
  Filesystem.path_of base (bp_storage_key p) = inr path -> bp_job_kind p <> "raster_batch" ->
  quiet w -> dt_range (utcnow (w_now w)) -> held_by_other cfg p h x jh w ->
  job_stored (w_now w) (w_redis w) (bp_job_id p) j -> collection_id j = bp_collection_id p ->
  queue_of (w_now w) (w_redis w) = inr l ->
  exists ks' j', process_bulk_job cfg p w = (inr tt, with_redis w ks')
    /\ queue_of (w_now w) ks' = inr (to_json p :: l)
    /\ job_stored (w_now w) ks' (bp_job_id p) j' /\ status j' = "pending"
    /\ (forall key, key <> redis_key (bp_job_id p) -> key <> QUEUE_KEY -> ks' !! key = w_redis w !! key).
Proof.
  intros Hr Hs Hp Hkind Hq Hnow Hh Hj Hc Hl.
  destruct (defer_puts_back cfg Hr p h x jh j w l) as (ks' & Hd & Hl' & Hj' & Hk); try done.
  exists ks'. eexists. split; [|split; [done|split; [exact Hj'|by split]]].
  unfold process_bulk_job. rewrite bind_run, lift_run, Hs, bind_run. cbn [get_path_or_uri Filesystem.backend].
  unfold Filesystem.path_m. by rewrite lift_run, Hp, decide_False, bind_run, Hd.
Qed.

(** ** Concrete jobs *)

Definition demo_bulk (id : string) : BulkJobPayload :=
  BulkPayload id "roads" "a.geojsonl" "append" 1000 (Some 7) false None "single" None None None true None.

Definition demo_path : string := "/data/bulk-uploads/a.geojsonl".
Definition demo_job : JobInfo := read_job (new_job "j1" "roads" (Some 7) None 0).

(** An upload of job ["j1"] in a free collection. *)
Definition free_world (text : string) : world :=
  with_redis (demo_upload demo_path text demo_db) (delete (mutex_key "roads") (w_redis demo_world)).

Lemma demo_upload_ready text : text <> "" ->
  upload_ready default_settings (demo_bulk "j1") "/data/bulk-uploads" demo_path text 0 demo_job (free_world text).
Proof.
  intros Ht.
  assert (job_stored (us 60) (delete (mutex_key "roads") (w_redis demo_world)) "j1" demo_job) as Hj.
  { eapply job_stored_frame; [|exact demo_stored]. apply lookup_delete_ne. by key_neq. }
  split; [reflexivity|reflexivity|done|by left|reflexivity|by vm_compute| |exact Hj|reflexivity|reflexivity
    |apply lock_typed_delete|apply lock_of_delete
    |by apply (ready_frame (demo_upload demo_path text demo_db)); [|apply demo_ready]].
  split; [done|done|by exists demo_job|by apply demo_counter|by apply demo_counter].
Qed.

Definition demo_rows_import (_ _ _ : string) (_ : Z) (_ : on_progress_t) (_ : option (list string))
  (_ : string) : M (Z * Z * option string) := mret (0, 0, None).

Abbreviation demo_importers := (@copy_importers _ _ demo_shapely reference_server reference_postgres
  reference_entropy default_settings 9 loads (fun _ => "") (fun _ => None) demo_uuid7 4 (fun p => p)
  (fun _ => None) (fun _ _ _ => inr []) (fun _ => mret tt) demo_rows_import (fun _ _ _ => mret tt)).

Abbreviation demo_contract := (@copy_staging_importer _ _ demo_shapely reference_server reference_laws
  reference_postgres reference_postgres_laws reference_entropy default_settings 9 loads (fun _ => "")
  (fun _ => None) demo_uuid7 4 (fun p => p) (fun _ => None) (fun _ _ _ => inr []) (fun _ => mret tt)
  demo_rows_import (fun _ _ _ => mret tt) eq_refl eq_refl).

(** Another process: a promotion worker that takes what it finds on its queue,
    with the rows of job ["j1"] staged. *)
Definition promoter (now : Z) (ks : keyspace) : keyspace :=
  match finalize_queue_of now ks with
  | inr (_ :: _) =>
      w_redis ((x ← @redis reference_server _ (Brpop [FINALIZE_QUEUE_KEY]);
        match x with
        | Some (_, raw) =>
            q ← lift (finalize_from_json raw);
            @process_bulk_finalize_job reference_server reference_postgres reference_entropy
              default_settings (fun _ => mret tt) q
        | None => mret tt
        end)
       (World ks now [] [] ∅ [] 0 0 [] (Services (with_staged demo_db "j1" demo_rows) [] ∅ no_tables))).2
  | _ => ks
  end.

Definition raced_world : world :=
  World (w_redis (free_world demo_text)) (us 60) (replicate 100 (Tick 0 promoter Delivered)) [] ∅ [] 0 0 []
    (w_services (free_world demo_text)).

(** The status is written after the promotion is queued: when the promotion
    worker finishes first, the job it completed is set back to ["finalizing"],
    with its finish time, and stays there: nothing is queued or pending for it. *)
Theorem promotion_overtakes_status :
  exists w1 w2 j,
    @process_bulk_job reference_server reference_postgres reference_entropy demo_importers
      default_settings (demo_bulk "j1") raced_world = (inr tt, w1)
    /\ @get_job reference_server reference_entropy default_settings "j1" w1 = (inr (Some j), w2)
    /\ status j = "finalizing" /\ finished_at j = Some (now_utc (us 60))
    /\ finalize_queue_of (us 60) (w_redis w2) = inr []
    /\ finalize_pending (us 60) (w_redis w2) "j1" = false.
Proof.
  eexists _, _, _. split; [apply run_fst; vm_compute; reflexivity|].
  split; [apply run_fst; vm_compute; reflexivity|]. split; [reflexivity|]. split; [reflexivity|].
  split; vm_compute; reflexivity.
Qed.

(** ** Witnesses *)

Lemma bulk_job_queues_promotion_witness :
  exists w', @process_bulk_job reference_server reference_postgres reference_entropy demo_importers
      default_settings (demo_bulk "j1") (free_world demo_text) = (inr tt, w')
    /\ promotion_queued (demo_bulk "j1") demo_path 0 demo_rows 1 [] (free_world demo_text) w'.
Proof.
  apply (@bulk_job_queues_promotion reference_server reference_laws reference_postgres
    reference_postgres_laws reference_entropy demo_importers demo_contract default_settings
    (demo_bulk "j1") "/data/bulk-uploads" demo_path demo_text 0 demo_job (free_world demo_text)
    demo_rows 1 ∅ []);
    [reflexivity|reflexivity|by apply demo_upload_ready|exact demo_parsed|discriminate
    |by vm_compute|by vm_compute|reflexivity|reflexivity].
Defined.

Lemma upload_published_witness :
  exists w1 w2 raw q j', @process_bulk_job reference_server reference_postgres reference_entropy
      demo_importers default_settings (demo_bulk "j1") (free_world demo_text) = (inr tt, w1)
    /\ finalize_queue_of (w_now w1) (w_redis w1) = inr [raw]
    /\ finalize_from_json raw = inr q
    /\ @process_bulk_finalize_job reference_server reference_postgres reference_entropy
         default_settings (fun _ => mret tt) q w1 = (inr tt, w2)
    /\ live_rows (w_db w2) "roads" = (live_rows demo_db "roads" ++ map stored_row demo_rows)%list
    /\ (forall c, c <> "roads" -> live_rows (w_db w2) c = live_rows demo_db c)
    /\ job_stored (w_now w2) (w_redis w2) "j1" j'
    /\ status j' = "completed" /\ items_created j' = 3
    /\ finalize_pending (w_now w2) (w_redis w2) "j1" = false
    /\ peek (w_now w2) (w_redis w2) (reg_key "j1") = None.
Proof.
  apply (@upload_published reference_server reference_laws reference_postgres
    reference_postgres_laws reference_entropy demo_importers demo_contract default_settings
    (fun _ => mret tt) (demo_bulk "j1") "/data/bulk-uploads" demo_path demo_text 0 demo_job
    (free_world demo_text) demo_rows 1 ∅ []);
    [reflexivity|reflexivity|reflexivity|reflexivity|reflexivity|by apply demo_upload_ready
    |exact demo_parsed|discriminate|by vm_compute|by vm_compute|reflexivity|reflexivity].
Defined.

(** One line without a geometry. *)
Definition demo_empty_text : string := feature_line JNull [] (JObj []).

Lemma empty_upload_fails_witness :
  exists w' j', @process_bulk_job reference_server reference_postgres reference_entropy demo_importers
      default_settings (demo_bulk "j1") (free_world demo_empty_text) = (inr tt, w')
    /\ job_stored (w_now w') (w_redis w') "j1" j' /\ status j' = "failed"
    /\ message j' = Some (empty_message 1) /\ items_failed j' = 1
    /\ db_tables (w_db w') !! staging_table_name "j1" = None
    /\ (forall c, live_rows (w_db w') c = live_rows (w_db (free_world demo_empty_text)) c)
    /\ lock_of (w_now w') (w_redis w') "roads" = None
    /\ w_redis w' !! reg_key "j1" = None
    /\ w_files w' = delete demo_path (w_files (free_world demo_empty_text)).
Proof.
  apply (@empty_upload_fails reference_server reference_laws reference_postgres
    reference_postgres_laws reference_entropy demo_importers demo_contract default_settings
    (demo_bulk "j1") "/data/bulk-uploads" demo_path demo_empty_text 0 demo_job
    (free_world demo_empty_text) 1);
    [reflexivity|reflexivity|by apply demo_upload_ready|by vm_compute].
Defined.

(** Job ["j2"] waits for the collection that ["j1"] imports into. *)
Definition second_job : JobInfo := read_job (new_job "j2" "roads" None None (us 50)).
Definition busy_world : world :=
  with_redis demo_world (put (w_redis demo_world) (redis_key "j2")
    (VHash (hset_all ∅ (job_mapping (new_job "j2" "roads" None None (us 50))))) None).

Lemma busy_collection_waits_witness :
  exists ks' j', @process_bulk_job reference_server reference_postgres reference_entropy demo_importers
      default_settings (demo_bulk "j2") busy_world = (inr tt, with_redis busy_world ks')
    /\ queue_of (us 60) ks' = inr [to_json (demo_bulk "j2")]
    /\ job_stored (us 60) ks' "j2" j' /\ status j' = "pending"
    /\ (forall key, key <> redis_key "j2" -> key <> QUEUE_KEY ->
         ks' !! key = w_redis busy_world !! key).
Proof.
  assert (forall key, key <> redis_key "j2" -> w_redis busy_world !! key = w_redis demo_world !! key) as Hk.
  { intros key Hne. apply lookup_insert_ne. by apply not_eq_sym. }
  apply (@busy_collection_waits reference_server reference_laws reference_postgres
    reference_entropy demo_importers default_settings
    (demo_bulk "j2") "/data/bulk-uploads" demo_path "j1" (Some (us 600)) demo_job second_job
    busy_world []);
    [reflexivity|reflexivity|reflexivity|discriminate|reflexivity|by vm_compute| |
     by apply put_job_stored|reflexivity|reflexivity].
  destruct (lock_frame (us 60) (w_redis demo_world) (w_redis busy_world) "roads") as [Hl Ht]; [by apply Hk; key_neq|].
  split; [exact Hl|apply Ht; exact demo_lock_typed|done| |by vm_compute].
  eapply job_stored_frame; [|exact demo_stored]. apply Hk. by key_neq.
Defined.
