(* ===== verification/ReadOnly.v ===== *)
(** * Computations that only read

    [read_only m]: whatever the schedule of Redis, [m] writes neither to the
    keyspace nor, when its transactions run undisturbed, to the database and the
    files.  The keyspace part is stated by invariants: everything the other
    processes keep is kept. *)

From S2P Require Import Prelude PyTime Redis Postgres World Database Json Mutex JobStore.
From S2P Require Import Queue BulkQueue FinalizeQueue Partitions.

Definition services_kept {A} (m : M A) : Prop :=
  forall w, db_quiet w -> w_services (m w).2 = w_services w.

Definition read_only `{RedisServer} `{Entropy} {A} (m : M A) : Prop :=
  (forall I, keeps I m) /\ services_kept m.

(** A block that leaves the database as it is. *)
Definition tx_reads {A} (t : TX A) : Prop := forall db, (t db).2 = db.

Create HintDb reads discriminated.

Section services.
Context `{RedisServer} `{Entropy}.

Lemma services_bind {A B} (m : M A) (f : A -> M B) :
  services_kept m -> (forall a, services_kept (f a)) -> services_kept (m ≫= f).
Proof.
  intros Hm Hf w Hq. rewrite bind_run. specialize (Hm w Hq).
  destruct (m w) as [[e|a] w'] eqn:Hr; cbn [snd] in Hm; [done|].
  rewrite Hf; [done|]. unfold db_quiet in *. by rewrite Hm.
Qed.

Lemma services_try {A} (m : M A) h :
  services_kept m -> (forall e, services_kept (h e)) -> services_kept (try_except m h).
Proof.
  intros Hm Hh w Hq. unfold try_except. specialize (Hm w Hq).
  destruct (m w) as [[e|a] w']; cbn [snd] in Hm; [|done].
  rewrite Hh; [done|]. unfold db_quiet in *. by rewrite Hm.
Qed.

Lemma services_redis {A} (c : cmd A) : services_kept (redis c).
Proof.
  intros w _. unfold redis, next_tick. destruct (w_sched w) as [|t ts].
  - by destruct (exec c _ _) as [[] ks].
  - destruct (tk_fault t); [| |]; try done; by destruct (exec c _ _) as [[] ks].
Qed.

Lemma services_retry {A} cfg (fn : M A) n : services_kept fn -> services_kept (run_redis_retry cfg fn n).
Proof.
  intros Hf. unfold run_redis_retry. generalize (Z.to_nat (retry_limit cfg n - 1)).
  generalize (retry_base cfg) (retry_max_backoff cfg). intros b m fuel. generalize 1.
  induction fuel as [|fuel IH]; intros k; simpl; apply services_try; try done.
  intros e. by apply services_bind.
Qed.
End services.

Section read_only.
Context `{RedisLaws} `{PostgresLaws} `{Entropy} (cfg : Settings).

Lemma reads_ret {A} (a : A) : read_only (mret a).
Proof. done. Qed.
Lemma reads_raise {A} e : read_only (raise e : M A).
Proof. done. Qed.
Lemma reads_gets {A} (f : world -> A) : read_only (gets f).
Proof. done. Qed.
Lemma reads_get_now : read_only get_now.
Proof. done. Qed.
Lemma reads_lift {A} (r : res A) : read_only (lift r).
Proof. done. Qed.

Lemma reads_bind {A B} (m : M A) (f : A -> M B) :
  read_only m -> (forall a, read_only (f a)) -> read_only (m ≫= f).
Proof.
  intros [Hk Hs] Hf. split.
  - intros I. apply keeps_bind; [done|]. intros a. apply Hf.
  - apply services_bind; [done|]. intros a. apply Hf.
Qed.

Lemma reads_fmap {A B} (f : A -> B) (m : M A) : read_only m -> read_only (f <$> m).
Proof. intros Hm. apply reads_bind; [done|]. intros a. apply reads_ret. Qed.

Lemma reads_try {A} (m : M A) h :
  read_only m -> (forall e, read_only (h e)) -> read_only (try_except m h).
Proof.
  intros [Hk Hs] Hh. split.
  - intros I. apply keeps_try_except; [done|]. intros e. apply Hh.
  - apply services_try; [done|]. intros e. apply Hh.
Qed.

Lemma reads_if {A} (b : bool) (m1 m2 : M A) :
  read_only m1 -> read_only m2 -> read_only (if b then m1 else m2).
Proof. by destruct b. Qed.

Lemma reads_retry {A} (fn : M A) n : read_only fn -> read_only (run_redis_retry cfg fn n).
Proof. intros [Hk Hs]. split; [intros I; by apply keeps_retry|by apply services_retry]. Qed.

Lemma reads_redis {A} (c : cmd A) : (forall now ks, (exec c now ks).2 = ks) -> read_only (redis c).
Proof.
  intros Hc. split; [|apply services_redis].
  intros I. apply keeps_redis. intros now ks Hi. by rewrite Hc.
Qed.

Lemma reads_get k : read_only (redis (Get k)).
Proof. apply reads_redis. intros now ks. by rewrite exec_get. Qed.
Lemma reads_exists k : read_only (redis (Exists k)).
Proof. apply reads_redis. intros now ks. by rewrite exec_exists. Qed.
Lemma reads_hgetall k : read_only (redis (Hgetall k)).
Proof. apply reads_redis. intros now ks. by rewrite exec_hgetall. Qed.
Lemma reads_scan p : read_only (redis (Scan p)).
Proof. apply reads_redis. intros now ks. by destruct (exec_scan p now ks) as (l & -> & _). Qed.

Lemma reads_collect {A B} (f : A -> M (option B)) l :
  (forall x, read_only (f x)) -> read_only (collect f l).
Proof.
  intros Hf. induction l; [apply reads_ret|]. apply reads_bind; [done|]. intros y.
  apply reads_bind; [done|]. intros ys. apply reads_ret.
Qed.

(** *** Transactions *)

Lemma tx_reads_ret {A} (a : A) : tx_reads (mret a).
Proof. done. Qed.
Lemma tx_reads_bind {A B} (m : TX A) (f : A -> TX B) :
  tx_reads m -> (forall a, tx_reads (f a)) -> tx_reads (m ≫= f).
Proof.
  intros Hm Hf db. rewrite tx_bind_run. specialize (Hm db).
  destruct (m db) as [[e|a] db']; cbn [snd] in Hm; [done|]. subst. apply Hf.
Qed.
Lemma tx_reads_stmt {A} (c : sql A) : (forall db, (sql_exec c db).2 = db) -> tx_reads (stmt c).
Proof. intros Hc db. unfold stmt. specialize (Hc db). by destruct (sql_exec c db) as [[] ?]. Qed.
Lemma tx_reads_exists n : tx_reads (stmt (TableExists n)).
Proof. apply tx_reads_stmt. intros db. by rewrite sql_exec_run. Qed.
Lemma tx_reads_attached n : tx_reads (stmt (IsAttached n)).
Proof. apply tx_reads_stmt. intros db. by rewrite sql_exec_run. Qed.
Lemma tx_reads_count n : tx_reads (stmt (CountRows n)).
Proof.
  apply tx_reads_stmt. intros db. rewrite sql_exec_run by done. cbn [sql_run]. unfold with_table.
  by destruct (db_tables db !! n).
Qed.
Lemma tx_reads_partitions : tx_reads (stmt ListPartitions).
Proof. apply tx_reads_stmt. intros db. by destruct (sql_exec_partitions db) as (l & -> & _). Qed.

Lemma reads_transaction {A} (t : TX A) : tx_reads t -> read_only (transaction t).
Proof.
  intros Ht. split; [intros I; apply keeps_transaction|]. intros w Hq.
  specialize (Ht (w_db w)). destruct (t (w_db w)) as [[e|a] db] eqn:Hr; cbn [snd] in Ht; subst db.
  - by rewrite (transaction_err t w e _ Hq Hr).
  - rewrite (transaction_ok t w a _ Hq Hr). by rewrite with_db_same.
Qed.
End read_only.

#[export] Hint Resolve reads_ret reads_raise reads_gets reads_get_now reads_lift reads_bind reads_fmap
  reads_try reads_if reads_retry reads_get reads_exists reads_hgetall reads_scan reads_collect
  tx_reads_ret tx_reads_bind tx_reads_exists tx_reads_attached tx_reads_count tx_reads_partitions
  reads_transaction : reads.

(** ** Readers of the stores *)

Section readers.
Context `{RedisLaws} `{PostgresLaws} `{Entropy} (cfg : Settings).

Lemma reads_holder c : read_only (get_collection_bulk_mutex_holder cfg c).
Proof. unfold get_collection_bulk_mutex_holder. auto with reads. Qed.
Lemma reads_holds c id : read_only (holds_collection_bulk_mutex cfg c id).
Proof. apply reads_bind; [apply reads_holder|]. auto with reads. Qed.

Lemma reads_get_job_redis id : read_only (get_job_redis cfg id).
Proof.
  unfold get_job_redis. apply reads_bind; [auto with reads|]. intros h.
  case_decide; auto with reads.
Qed.
Lemma reads_list_all_jobs limit owner offset : read_only (list_all_jobs cfg limit owner offset).
Proof.
  unfold list_all_jobs, list_all_jobs_redis, list_all_jobs_memory.
  apply reads_bind; [|auto with reads]. apply reads_if; [|auto with reads].
  apply reads_bind; [auto with reads|]. intros keys.
  apply reads_bind; [|auto with reads]. apply reads_collect. intros id. apply reads_get_job_redis.
Qed.

Lemma reads_finalize_state id : read_only (get_finalize_state cfg id).
Proof. unfold get_finalize_state. auto with reads. Qed.
Lemma reads_finalize_pending id : read_only (is_finalize_pending cfg id).
Proof. unfold is_finalize_pending. auto with reads. Qed.

Lemma tx_reads_resolve c : tx_reads (resolve_conn c).
Proof. unfold resolve_conn. auto with reads. Qed.
Lemma reads_resolve c : read_only (resolve_features_partition_relname_sync c).
Proof. apply reads_transaction, tx_reads_resolve. Qed.
Lemma reads_swap_complete c s : read_only (partition_swap_already_complete_sync c s).
Proof.
  apply reads_transaction, tx_reads_bind; [apply tx_reads_attached|]. intros [].
  - apply tx_reads_ret.
  - apply tx_reads_bind; [apply tx_reads_resolve|auto with reads].
Qed.
Lemma reads_attached_partitions : read_only list_attached_feature_partitions_sync.
Proof. apply reads_transaction. auto with reads. Qed.
End readers.

#[export] Hint Resolve reads_holder reads_holds reads_get_job_redis reads_list_all_jobs
  reads_finalize_state reads_finalize_pending reads_resolve reads_swap_complete
  reads_attached_partitions : reads.
