(* ===== verification/Reconcile.v ===== *)
(** * Reconciling stuck promotions (app/services/bulk_finalize_reconcile.py)

    A pass over the stored jobs: detached leftovers of swapped partitions are
    dropped, jobs whose staging table is already live are completed, staged rows
    are promoted or queued again.  The pass leaves alone the jobs that a load
    worker may still be filling. *)

From S2P Require Import Prelude PyTime Redis Postgres World Database Json Mutex JobStore Queue.
From S2P Require Import BulkQueue FinalizeQueue BulkActivity Partitions Staging FinalizeWorker ReadOnly.

(** [ReconcileStats] *)
Record ReconcileStats := Stats {
  orphans_dropped : Z;
  completed_already_swapped : Z;
  promoted_jobs : Z;
  enqueued : Z;
  empty_closed : Z;
  abandoned : Z;
  skipped : Z;
  errors : list (string * string)
}.
Definition no_stats : ReconcileStats := Stats 0 0 0 0 0 0 0 [].

Definition add_completed (s : ReconcileStats) : ReconcileStats :=
  Stats (orphans_dropped s) (completed_already_swapped s + 1) (promoted_jobs s) (enqueued s)
    (empty_closed s) (abandoned s) (skipped s) (errors s).
Definition add_promoted (s : ReconcileStats) : ReconcileStats :=
  Stats (orphans_dropped s) (completed_already_swapped s) (promoted_jobs s + 1) (enqueued s)
    (empty_closed s) (abandoned s) (skipped s) (errors s).
Definition add_enqueued (s : ReconcileStats) : ReconcileStats :=
  Stats (orphans_dropped s) (completed_already_swapped s) (promoted_jobs s) (enqueued s + 1)
    (empty_closed s) (abandoned s) (skipped s) (errors s).
Definition add_empty (s : ReconcileStats) : ReconcileStats :=
  Stats (orphans_dropped s) (completed_already_swapped s) (promoted_jobs s) (enqueued s)
    (empty_closed s + 1) (abandoned s) (skipped s) (errors s).
Definition add_abandoned (s : ReconcileStats) : ReconcileStats :=
  Stats (orphans_dropped s) (completed_already_swapped s) (promoted_jobs s) (enqueued s)
    (empty_closed s) (abandoned s + 1) (skipped s) (errors s).
Definition add_skipped (s : ReconcileStats) : ReconcileStats :=
  Stats (orphans_dropped s) (completed_already_swapped s) (promoted_jobs s) (enqueued s)
    (empty_closed s) (abandoned s) (skipped s + 1) (errors s).
Definition add_error (id err : string) (s : ReconcileStats) : ReconcileStats :=
  Stats (orphans_dropped s) (completed_already_swapped s) (promoted_jobs s) (enqueued s)
    (empty_closed s) (abandoned s) (skipped s) (errors s ++ [(id, err)])%list.
Definition set_orphans (n : Z) (s : ReconcileStats) : ReconcileStats :=
  Stats n (completed_already_swapped s) (promoted_jobs s) (enqueued s)
    (empty_closed s) (abandoned s) (skipped s) (errors s).

(** [re.search(r"attempt\s+(\d+)", s, re.IGNORECASE)] as a number, of a text in
    lower case. *)
Fixpoint leading_digits (s : string) : string :=
  match s with
  | String c s' => if is_digit c then String c (leading_digits s') else ""
  | EmptyString => ""
  end.
Definition match_attempt (s : string) : option string :=
  if startswith "attempt" s then
    let rest := str_drop 7 s in
    let digits := leading_digits (lstrip rest) in
    if bool_decide (lstrip rest = rest) || bool_decide (digits = "") then None else Some digits
  else None.
Fixpoint search_attempt (s : string) : option string :=
  match match_attempt s with
  | Some d => Some d
  | None => match s with String _ s' => search_attempt s' | EmptyString => None end
  end.

Definition contains_any (needles : list string) (s : string) : bool :=
  existsb (fun n => contains n s) needles.

Definition message_text (job : JobInfo) : string := opt_str (message job).

Section reconcile.
Context `{RedisServer} `{PostgresServer} `{Entropy} (cfg : Settings).
Context (recompute_extent : string -> M unit).

(** ** What the job record says *)

Definition infer_import_mode (job : JobInfo) : M string :=
  if bool_decide (status job = "replacing") || contains "replace" (lower (message_text job))
  then mret "replace"
  else
    state ← get_finalize_state cfg (job_id job);
    match state !! "mode" with
    | Some m => if bool_decide (m ∈ ["replace"; "append"]) then mret m else mret "append"
    | None => mret "append"
    end.

(** [updated_at] is always set. *)
Definition job_last_activity (job : JobInfo) : datetime :=
  default_utc (default (updated_at job) (last_progress_at job)).

Definition job_activity_age (job : JobInfo) (now : Z) : Z :=
  Z.max 0 (now - dt_instant (job_last_activity job)).

Definition min_recover_age : Z :=
  Z.max (us 60) (int_or (bulk_running_recover_staging_seconds cfg) (us 600)).

Definition load_still_in_progress (job : JobInfo) : M bool :=
  let st := lower (status job) in
  if bool_decide (st ∈ ["pending"; "running"; "replacing"]) then mret true
  else
    holds ← holds_collection_bulk_mutex cfg (collection_id job) (job_id job);
    if (holds : bool) then mret true
    else
      now ← get_now;
      mret (bool_decide (st = "finalizing") && (items_created job <=? 0)
            && (job_activity_age job now <? min_recover_age)).

Definition swap_words : list string :=
  ["partition swap"; "overlap"; "deadlock"; "watchdog"; "finalize"; "bulk import stalled";
   "duplicate key"; "uniqueviolation"].

Definition is_reconcile_candidate (job : JobInfo) : M bool :=
  let st := lower (status job) in
  if negb (bool_decide (st ∈ ["finalizing"; "failed"; "running"; "replacing"])) then mret false
  else
    loading ← load_still_in_progress job;
    if (loading : bool) then mret false
    else if bool_decide (st = "finalizing") then mret true
    else if 0 <? items_created job then mret true
    else mret (contains_any swap_words (lower (message_text job))).

Definition should_abandon_duplicate_job (job : JobInfo) : M bool :=
  let msg := message_text job in
  if negb (is_staging_pk_duplicate_message msg) then mret false
  else
    state ← get_finalize_state cfg (job_id job);
    attempt ← lift (int_of (if truthy (state !! "attempt") then opt_str (state !! "attempt") else "0"));
    if duplicate_give_up_attempts cfg <=? attempt then mret true
    else if contains "attempt " (lower msg) then
      match search_attempt (lower msg) with
      | Some d => n ← lift (int_of d); mret (duplicate_give_up_attempts cfg <=? n)
      | None => mret false
      end
    else mret false.

(** ** Closing a job *)

Definition abandon_duplicate_job (job : JobInfo) (staged : Z) (reason : string)
    (stats : ReconcileStats) : M ReconcileStats :=
  abandon_staging_finalize_job cfg (job_id job) (collection_id job) reason
    (int_or staged (items_created job)) (items_failed job);;
  mret (add_abandoned stats).

(** [update_job(..., status="completed", ...)] and the removal of the marks. *)
Definition complete_job (job : JobInfo) (msg : string) (count : Z) : M unit :=
  update_job cfg (job_id job) (up_finalize "completed" msg count (items_failed job));;
  close_finalize cfg (job_id job).

Definition complete_swapped_job (job : JobInfo) (row_count : Z) (dry_run : bool) (note : string)
    (stats : ReconcileStats) : M ReconcileStats :=
  if dry_run then mret (add_completed stats)
  else
    finalize_after_promote cfg recompute_extent (collection_id job);;
    complete_job job ("Recovered: " +:+ note +:+ " (" +:+ comma row_count +:+ " features).") row_count;;
    mret (add_completed stats).

Definition is_staging_name (live : option string) : bool :=
  truthy live && startswith STAGING_TABLE_PREFIX (opt_str live).

(** The row count of a live partition; on an error the job's own count. *)
Definition live_count (live : option string) (job : JobInfo) : M Z :=
  try_except (transaction (stmt (CountRows (opt_str live)))) (fun _ => mret (items_created job)).

(** The branch [not exists]. *)
Definition reconcile_unstaged (job : JobInfo) (dry_run : bool) (stats : ReconcileStats) :
  M ReconcileStats :=
  live ← resolve_features_partition_relname_sync (collection_id job);
  if is_staging_name live && bool_decide (lower (status job) = "finalizing") then
    count ← live_count live job;
    complete_swapped_job job (int_or count (items_created job)) dry_run
      "live partition already attached" stats
  else mret (add_skipped stats).

Definition lost_rows_message (job : JobInfo) : string :=
  if 0 <? items_created job then
    "Bulk import lost staged data before partition swap could complete. Please re-import this file."
  else "Bulk import produced no features (empty staging table). Check the source file and re-import.".

Definition close_empty (job : JobInfo) (stats : ReconcileStats) : M ReconcileStats :=
  try_pass (drop_staging_table_sync (job_id job));;
  update_job cfg (job_id job) (up_finalize "failed" (lost_rows_message job) 0 (items_failed job));;
  close_finalize cfg (job_id job);;
  mret (add_empty stats).

(** The branch [staged <= 0]. *)
Definition reconcile_empty (job : JobInfo) (dry_run : bool) (stats : ReconcileStats) :
  M ReconcileStats :=
  if dry_run then mret (add_empty stats)
  else
    loading ← load_still_in_progress job;
    if (loading : bool) then mret (add_skipped stats)
    else
      live ← resolve_features_partition_relname_sync (collection_id job);
      if truthy live && negb (startswith STAGING_TABLE_PREFIX (opt_str live)) then
        count ← live_count live job;
        if (0 <? count) || (0 <? items_created job) then
          complete_swapped_job job (int_or count (items_created job)) false
            "live partition already has data (staging dropped)" stats
        else close_empty job stats
      else close_empty job stats.

(** ** Promoting what is staged *)

(** [promote_staging_sync], [_finalize_after_promote] and the update of the job. *)
Definition promote_job (job : JobInfo) (mode : string) (note : Z -> string)
    (stats : ReconcileStats) : M ReconcileStats :=
  count ← promote_staging_sync cfg (collection_id job) (job_id job) mode;
  finalize_after_promote cfg recompute_extent (collection_id job);;
  complete_job job (note count) count;;
  mret (add_promoted stats).

Definition promoted_note (count : Z) : string :=
  "Recovered: promoted " +:+ comma count +:+ " staged features (bulk reconcile).".
Definition deduped_note (count : Z) : string :=
  "Recovered: deduped and promoted " +:+ comma count +:+ " staged features (bulk reconcile).".

(** After an error that retrying at once does not mend: the promotion is queued. *)
Definition requeue_stuck (job : JobInfo) (mode : string) (staged : Z) (err : string)
    (stats : ReconcileStats) : M ReconcileStats :=
  pending ← is_finalize_pending cfg (job_id job);
  stats ← (if (pending : bool) then mret (add_error (job_id job) err stats)
           else
             enqueue_finalize cfg
               {| fp_job_id := job_id job; fp_collection_id := collection_id job; fp_mode := mode;
                  fp_items_created := staged; fp_items_failed := items_failed job;
                  fp_owner_id := owner_id job; fp_queue_compute_tiles := false; fp_attempt := 0 |} true;;
             mret (add_enqueued (add_error (job_id job) err stats)));
  update_job cfg (job_id job) (up_counts (Some "finalizing")
    (Some ("Reconcile: queued partition swap for " +:+ comma staged +:+ " features after error: "
           +:+ str_take 200 err)) None (Some staged) None);;
  mret stats.

(** The [except Exception] clause of the promotion. *)
Definition promote_failed (job : JobInfo) (mode : string) (staged : Z) (stats : ReconcileStats)
    (e : exn) : M ReconcileStats :=
  if is_staging_pk_duplicate_error e then
    try_except
      (prepare_staging_for_promote_sync (job_id job);;
       promote_job job mode deduped_note stats)
      (fun e' =>
         match e' with
         | StagingDuplicateUnrecoverableError m => abandon_duplicate_job job staged m stats
         | _ => raise e'
         end)
  else requeue_stuck job mode staged (exn_str e) stats.

(** [prepare_staging_for_promote_sync] with its [except] clause: [None] when the
    job was abandoned. *)
Definition prepare_or_abandon (job : JobInfo) (staged : Z) (stats : ReconcileStats)
    (k : M ReconcileStats) : M ReconcileStats :=
  prepared ← try_except (inr <$> prepare_staging_for_promote_sync (job_id job)) (fun e =>
    match e with
    | StagingDuplicateUnrecoverableError m => mret (inl m)
    | _ => raise e
    end);
  match prepared with
  | inl m => abandon_duplicate_job job staged m stats
  | inr _ => k
  end.

Definition reconcile_staged (job : JobInfo) (staged : Z) (dry_run : bool) (stats : ReconcileStats) :
  M ReconcileStats :=
  mode ← infer_import_mode job;
  if dry_run then
    giveup ← should_abandon_duplicate_job job;
    mret (if (giveup : bool) then add_abandoned stats else add_enqueued stats)
  else
    giveup ← should_abandon_duplicate_job job;
    let promote :=
      prepare_or_abandon job staged stats
        (try_except (promote_job job mode promoted_note stats) (fun e =>
           match e with
           | StagingDuplicateUnrecoverableError m => abandon_duplicate_job job staged m stats
           | _ => promote_failed job mode staged stats e
           end)) in
    if (giveup : bool) then prepare_or_abandon job staged stats promote else promote.

(** [_reconcile_one_job] *)
Definition reconcile_one_job (job : JobInfo) (dry_run : bool) (stats : ReconcileStats) :
  M ReconcileStats :=
  let staging := staging_table_name (job_id job) in
  ex ← staging_table_exists_sync (job_id job);
  if negb ex then reconcile_unstaged job dry_run stats
  else
    staged ← try_except (inr <$> staging_row_count_sync (job_id job)) (fun e => mret (inl (exn_str e)));
    match staged with
    | inl err => mret (add_error (job_id job) err stats)
    | inr staged =>
        complete ← partition_swap_already_complete_sync (collection_id job) staging;
        if (complete : bool) then
          complete_swapped_job job (int_or staged (items_created job)) dry_run
            "staging partition already attached" stats
        else if staged <=? 0 then reconcile_empty job dry_run stats
        else reconcile_staged job staged dry_run stats
    end.

(** ** The pass *)

(** The loop over the stored jobs. *)
Fixpoint reconcile_jobs (jobs : list JobInfo) (dry_run : bool) (stats : ReconcileStats) :
  M ReconcileStats :=
  match jobs with
  | [] => mret stats
  | job :: jobs' =>
      candidate ← is_reconcile_candidate job;
      stats ← (if (candidate : bool) then reconcile_one_job job dry_run stats else mret stats);
      reconcile_jobs jobs' dry_run stats
  end.

(** [job_by_staging.get(relname)]: a later job overwrites an earlier one. *)
Definition job_by_staging (jobs : list JobInfo) (relname : string) : option JobInfo :=
  List.find (fun j => bool_decide (staging_table_name (job_id j) = relname)) (rev jobs).

Fixpoint reconcile_tables (jobs : list JobInfo) (parts : list (string * string)) (dry_run : bool)
    (stats : ReconcileStats) : M ReconcileStats :=
  match parts with
  | [] => mret stats
  | (relname, _) :: parts' =>
      stats ←
        match (if startswith STAGING_TABLE_PREFIX relname then job_by_staging jobs relname else None) with
        | Some job =>
            if decide (lower (status job) = "completed") then mret stats
            else
              candidate ← is_reconcile_candidate job;
              if (candidate : bool) then reconcile_one_job job dry_run stats else mret stats
        | None => mret stats
        end;
      reconcile_tables jobs parts' dry_run stats
  end.

Definition reconcile_jobs_by_staging_table (dry_run : bool) (stats : ReconcileStats) :
  M ReconcileStats :=
  jobs ← list_all_jobs cfg 5000 None 0;
  parts ← list_attached_feature_partitions_sync;
  reconcile_tables jobs parts dry_run stats.

(** The orphans a dry run counts. *)
Fixpoint would_drop (parts : list (string * string)) : TX Z :=
  match parts with
  | [] => mret 0
  | (relname, c) :: parts' =>
      let canonical := safe_partition_name c in
      n ← (if decide (canonical = relname) then mret 0
           else
             ex ← table_exists_conn canonical;
             if negb ex then mret 0
             else
               att ← partition_is_attached_conn canonical;
               mret (if (att : bool) then 0 else 1));
      rest ← would_drop parts';
      mret (n + rest)
  end.

Definition reconcile_all_stuck_finalize_jobs (dry_run : bool) (limit : Z) : M ReconcileStats :=
  orphans ← (if negb dry_run then
               (fun l => Z.of_nat (length l)) <$> cleanup_detached_orphan_feature_partitions_sync
             else parts ← list_attached_feature_partitions_sync; transaction (would_drop parts));
  jobs ← list_all_jobs cfg limit None 0;
  stats ← reconcile_jobs jobs dry_run (set_orphans orphans no_stats);
  reconcile_jobs_by_staging_table dry_run stats.
End reconcile.

(** ** A dry run *)

Section dry_run.
Context `{RedisLaws} `{PostgresLaws} `{Entropy} (cfg : Settings).
Context (recompute_extent : string -> M unit).

Lemma reads_infer_mode job : read_only (infer_import_mode cfg job).
Proof.
  unfold infer_import_mode. apply reads_if; [auto with reads|].
  apply reads_bind; [auto with reads|]. intros state. case_match; auto with reads.
Qed.

Lemma reads_loading job : read_only (load_still_in_progress cfg job).
Proof.
  unfold load_still_in_progress. apply reads_if; [auto with reads|].
  apply reads_bind; [auto with reads|]. intros b. apply reads_if; auto with reads.
Qed.

Lemma reads_candidate job : read_only (is_reconcile_candidate cfg job).
Proof.
  unfold is_reconcile_candidate. apply reads_if; [auto with reads|].
  apply reads_bind; [apply reads_loading|]. intros b. repeat apply reads_if; auto with reads.
Qed.

Lemma reads_giveup job : read_only (should_abandon_duplicate_job cfg job).
Proof.
  unfold should_abandon_duplicate_job. apply reads_if; [auto with reads|].
  apply reads_bind; [auto with reads|]. intros st. apply reads_bind; [auto with reads|]. intros n.
  repeat apply reads_if; auto with reads. case_match; auto with reads.
Qed.

Lemma reads_live_count live job : read_only (live_count live job).
Proof. apply reads_try; auto with reads. Qed.

Lemma reads_staging_exists id : read_only (staging_table_exists_sync id).
Proof. apply reads_transaction. auto with reads. Qed.

Lemma reads_staged id : read_only (staging_row_count_sync id).
Proof.
  apply reads_transaction, tx_reads_bind; [apply tx_reads_exists|]. intros b.
  destruct b; cbn [negb]; auto with reads.
Qed.

Lemma reads_reconcile_one job stats : read_only (reconcile_one_job cfg recompute_extent job true stats).
Proof.
  unfold reconcile_one_job. apply reads_bind; [apply reads_staging_exists|]. intros ex.
  apply reads_if.
  - unfold reconcile_unstaged. apply reads_bind; [auto with reads|]. intros live.
    apply reads_if; [|auto with reads]. apply reads_bind; [apply reads_live_count|]. intros n. apply reads_ret.
  - apply reads_bind; [apply reads_try; [apply reads_fmap, reads_staged|auto with reads]|].
    intros [e|staged]; [auto with reads|]. apply reads_bind; [auto with reads|]. intros done.
    destruct done; [apply reads_ret|]. destruct (staged <=? 0); [apply reads_ret|].
    apply reads_bind; [apply reads_infer_mode|]. intros mode.
    apply reads_bind; [apply reads_giveup|]. auto with reads.
Qed.

Lemma reads_reconcile_jobs jobs stats : read_only (reconcile_jobs cfg recompute_extent jobs true stats).
Proof.
  revert stats. induction jobs as [|job jobs IH]; intros stats; [apply reads_ret|].
  apply reads_bind; [apply reads_candidate|]. intros b.
  apply reads_bind; [apply reads_if; [apply reads_reconcile_one|apply reads_ret]|]. done.
Qed.

Lemma reads_reconcile_tables jobs parts stats :
  read_only (reconcile_tables cfg recompute_extent jobs parts true stats).
Proof.
  revert stats. induction parts as [|[n c] parts IH]; intros stats; [apply reads_ret|].
  apply reads_bind; [|done]. destruct (if startswith _ n then _ else _) as [job|]; [|apply reads_ret].
  case_decide; [apply reads_ret|]. apply reads_bind; [apply reads_candidate|]. intros b.
  apply reads_if; [apply reads_reconcile_one|apply reads_ret].
Qed.

Lemma tx_reads_would_drop parts : tx_reads (would_drop parts).
Proof.
  induction parts as [|[n c] parts IH]; [apply tx_reads_ret|]. apply tx_reads_bind.
  - case_decide; [apply tx_reads_ret|]. apply tx_reads_bind; [apply tx_reads_exists|].
    intros []; [|apply tx_reads_ret]. apply tx_reads_bind; [apply tx_reads_attached|auto with reads].
  - intros k. apply tx_reads_bind; [exact IH|auto with reads].
Qed.

Lemma reads_reconcile_all limit :
  read_only (reconcile_all_stuck_finalize_jobs cfg recompute_extent true limit).
Proof.
  unfold reconcile_all_stuck_finalize_jobs. cbn [negb]. apply reads_bind.
  - apply reads_bind; [auto with reads|]. intros parts. apply reads_transaction, tx_reads_would_drop.
  - intros n. apply reads_bind; [auto with reads|]. intros jobs.
    apply reads_bind; [apply reads_reconcile_jobs|]. intros st.
    unfold reconcile_jobs_by_staging_table. apply reads_bind; [auto with reads|]. intros jobs'.
    apply reads_bind; [auto with reads|]. intros parts. apply reads_reconcile_tables.
Qed.
End dry_run.

(** ** What the pass leaves alone, and what it recovers *)

(** The holder [get_collection_bulk_mutex_holder] reports. *)
Definition holder_of (now : Z) (ks : keyspace) (c : string) : option string :=
  let v := fst <$> lock_of now ks c in if truthy v then v else None.

(** [_load_still_in_progress] as a predicate of the world. *)
Definition loading (cfg : Settings) (w : world) (job : JobInfo) : bool :=
  bool_decide (lower (status job) ∈ ["pending"; "running"; "replacing"])
  || bool_decide (holder_of (w_now w) (w_redis w) (collection_id job) = Some (job_id job))
  || (bool_decide (lower (status job) = "finalizing") && (items_created job <=? 0)
      && (job_activity_age job (w_now w) <? min_recover_age cfg)).

(** [_infer_import_mode], of the finalize state [h] of the job. *)
Definition import_mode (job : JobInfo) (h : gmap string string) : string :=
  if bool_decide (status job = "replacing") || contains "replace" (lower (message_text job))
  then "replace"
  else match h !! "mode" with
       | Some m => if bool_decide (m ∈ ["replace"; "append"]) then m else "append"
       | None => "append"
       end.

(** The mode in the finalize state is taken, unless the message speaks of a replacement. *)
Lemma recorded_mode job h mode :
  lower (status job) = "finalizing" -> h !! "mode" = Some mode -> mode ∈ ["append"; "replace"] ->
  (mode = "append" -> contains "replace" (lower (message_text job)) = false) ->
  import_mode job h = mode.
Proof.
  intros Hs Hh Hin Hmsg. unfold import_mode.
  assert (bool_decide (status job = "replacing") = false) as ->
    by (apply bool_decide_eq_false; intros He; by rewrite He in Hs).
  cbn [orb]. rewrite Hh. rewrite !elem_of_cons, elem_of_nil in Hin. destruct Hin as [->|[->|[]]].
  - by rewrite Hmsg.
  - by destruct (contains _ _).
Qed.

(** The promotion the reconciler makes up for a job. *)
Definition as_promotion (job : JobInfo) (mode : string) (t : table) : BulkFinalizePayload :=
  FinalizePayload (job_id job) (collection_id job) mode (Z.of_nat (length (t_rows t)))
    (items_failed job) (owner_id job) false 0.

Section recovery.
Context `{RedisLaws} `{PostgresLaws} `{Entropy} (cfg : Settings).
Context (recompute_extent : string -> M unit) (Hredis : is_redis cfg = true).

Lemma holds_quiet w c id :
  quiet w -> lock_typed (w_now w) (w_redis w) c ->
  holds_collection_bulk_mutex cfg c id w =
  (inr (bool_decide (holder_of (w_now w) (w_redis w) c = Some id)), w).
Proof. intros Hq Ht. unfold holds_collection_bulk_mutex. by rewrite bind_run, holder_quiet. Qed.

Lemma loading_run w job :
  quiet w -> lock_typed (w_now w) (w_redis w) (collection_id job) ->
  load_still_in_progress cfg job w = (inr (loading cfg w job), w).
Proof.
  intros Hq Ht. unfold load_still_in_progress, loading.
  destruct (bool_decide (lower (status job) ∈ _)); [done|].
  rewrite bind_run, holds_quiet by done. by destruct (bool_decide (holder_of _ _ _ = _)).
Qed.

Lemma candidate_loading w job :
  quiet w -> lock_typed (w_now w) (w_redis w) (collection_id job) -> loading cfg w job = true ->
  is_reconcile_candidate cfg job w = (inr false, w).
Proof.
  intros Hq Ht Hl. unfold is_reconcile_candidate. destruct (negb _); [done|].
  rewrite bind_run, loading_run by done. by rewrite Hl.
Qed.

Lemma candidate_finalizing w job :
  quiet w -> lock_typed (w_now w) (w_redis w) (collection_id job) -> loading cfg w job = false ->
  lower (status job) = "finalizing" -> is_reconcile_candidate cfg job w = (inr true, w).
Proof.
  intros Hq Ht Hl Hs. unfold is_reconcile_candidate. rewrite Hs. cbn [negb].
  rewrite bool_decide_eq_true_2 by set_solver. cbn [negb].
  rewrite bind_run, loading_run by done. by rewrite Hl.
Qed.

Lemma spared jobs dry stats w :
  quiet w ->
  Forall (fun job => lock_typed (w_now w) (w_redis w) (collection_id job)
                     /\ loading cfg w job = true) jobs ->
  reconcile_jobs cfg recompute_extent jobs dry stats w = (inr stats, w).
Proof.
  intros Hq. induction 1 as [|job jobs [Ht Hl] _ IH]; [done|]. cbn [reconcile_jobs].
  by rewrite bind_run, candidate_loading by done.
Qed.

Lemma infer_run w job h :
  quiet w -> as_hash (w_now w) (w_redis w) (state_key (job_id job)) = inr h ->
  infer_import_mode cfg job w = (inr (import_mode job h), w).
Proof.
  intros Hq Hh. unfold infer_import_mode, import_mode. destruct (_ || _); [done|].
  unfold get_finalize_state. rewrite Hredis. cbn [negb]. rewrite bind_run.
  rewrite (run_redis_retry_ok _ _ _ _ h w).
  - destruct (h !! "mode"); [|done]. by case_bool_decide.
  - erewrite redis_ok; [|done|autorewrite with redis_exec; rewrite Hh; reflexivity].
    by rewrite with_redis_same.
Qed.

Lemma staging_exists_run w id t :
  db_quiet w -> db_tables (w_db w) !! staging_table_name id = Some t ->
  staging_table_exists_sync id w = (inr true, w).
Proof.
  intros Hq Ht. apply transaction_same; [done|]. apply stmt_ok; [done|]. cbn [sql_run].
  by rewrite (has_table_true _ _ _ Ht).
Qed.

Lemma prepare_or_abandon_unique w job t staged stats k :
  db_quiet w -> db_tables (w_db w) !! staging_table_name (job_id job) = Some t ->
  keys_unique (t_rows t) = true ->
  prepare_or_abandon cfg job staged stats k w = k w.
Proof.
  intros Hq Ht Hk. unfold prepare_or_abandon. rewrite bind_run.
  rewrite (try_except_ok _ _ _ (inr 0) w); [done|]. by rewrite fmap_run, (prepare_unique _ _ t).
Qed.

Lemma promote_job_run w job mode note t stats :
  quiet w -> db_quiet w -> job_stored (w_now w) (w_redis w) (job_id job) job ->
  lock_typed (w_now w) (w_redis w) (collection_id job) -> dt_range (utcnow (w_now w)) ->
  promotable (w_db w) (collection_id job) (job_id job) t ->
  keys_unique (promoted mode (live_rows (w_db w) (collection_id job)) (t_rows t)) = true ->
  bulk_extent_update_mode cfg = "deferred" ->
  exists w', promote_job cfg recompute_extent job mode note stats w = (inr (add_promoted stats), w')
    /\ promoted_ok w w' (as_promotion job mode t) t.
Proof.
  intros Hq Hdq Hj Hl Hnow Hp Hk Hm.
  destruct (promote_then cfg recompute_extent Hredis w (as_promotion job mode t) t job
    (fun count => up_finalize "completed" (note count) count (items_failed job))
    (mret (add_promoted stats))) as (w' & Hrun & Hok); try done.
  exists w'. split; [|done]. etransitivity; [|exact Hrun]. unfold promote_job.
  apply bind_ext. intros count w1. apply bind_ext. intros _ w2. apply bind_assoc.
Qed.

Lemma reconcile_one_promotes w job h t stats :
  quiet w -> db_quiet w -> job_stored (w_now w) (w_redis w) (job_id job) job ->
  lock_typed (w_now w) (w_redis w) (collection_id job) -> dt_range (utcnow (w_now w)) ->
  promotable (w_db w) (collection_id job) (job_id job) t ->
  as_hash (w_now w) (w_redis w) (state_key (job_id job)) = inr h ->
  keys_unique (promoted (import_mode job h) (live_rows (w_db w) (collection_id job)) (t_rows t)) = true ->
  is_staging_pk_duplicate_message (message_text job) = false ->
  bulk_extent_update_mode cfg = "deferred" ->
  exists w', reconcile_one_job cfg recompute_extent job false stats w = (inr (add_promoted stats), w')
    /\ promoted_ok w w' (as_promotion job (import_mode job h) t) t.
Proof.
  intros Hq Hdq Hj Hl Hnow Hp Hh Hk Hdup Hm.
  pose proof (pr_staged _ _ _ _ Hp) as [Htab Hkt Hna _]. destruct (pr_part _ _ _ _ Hp) as [n Hn].
  assert (0 < Z.of_nat (length (t_rows t))) as Hlen.
  { destruct (t_rows t) eqn:He; [by destruct (pr_rows _ _ _ _ Hp)|simpl; lia]. }
  destruct (promote_job_run w job (import_mode job h) promoted_note t stats) as (w' & Hrun & Hok);
    try done.
  exists w'. split; [|done]. unfold reconcile_one_job.
  rewrite bind_run, (staging_exists_run _ _ t) by done. cbn [negb].
  rewrite bind_run, (try_except_ok _ _ _ (inr (Z.of_nat (length (t_rows t)))) w)
    by (by rewrite fmap_run, (row_count_run _ _ t)).
  rewrite bind_run, (swap_incomplete _ _ _ n) by (done || apply Hp).
  rewrite (proj2 (Z.leb_gt _ _) Hlen). unfold reconcile_staged.
  rewrite bind_run, (infer_run _ _ h) by done. rewrite bind_run.
  unfold should_abandon_duplicate_job. rewrite Hdup. cbn [negb]. rewrite ret_run.
  rewrite (prepare_or_abandon_unique _ _ t) by done. by apply try_except_ok.
Qed.
End recovery.

(** ** Properties *)

(** A dry run of the reconciliation writes nothing, whatever the state it
    finds and whatever the other processes do meanwhile: every invariant of the
    keyspace they keep is kept, and when no other transaction runs the database
    and the files are left as they were. *)
Theorem dry_run_writes_nothing `{RedisLaws} `{PostgresLaws} `{Entropy} (cfg : Settings)
    (recompute_extent : string -> M unit) (limit : Z) :
  read_only (reconcile_all_stuck_finalize_jobs cfg recompute_extent true limit).
Proof. apply reads_reconcile_all. Qed.

(** The reconciliation leaves running imports alone: of the stored jobs, one
    that a load worker may still be filling (it is pending, running or
    replacing, it holds the mutex of its collection, or it has only just reached
    ["finalizing"]) is passed over, and the pass over such jobs changes nothing. *)
Theorem loading_jobs_spared `{RedisLaws} `{PostgresLaws} `{Entropy} (cfg : Settings)
    (recompute_extent : string -> M unit) (w : world) (jobs : list JobInfo) (dry_run : bool)
    (stats : ReconcileStats) :
  is_redis cfg = true -> quiet w ->
  Forall (fun job => lock_typed (w_now w) (w_redis w) (collection_id job)
                     /\ loading cfg w job = true) jobs ->
  reconcile_jobs cfg recompute_extent jobs dry_run stats w = (inr stats, w).
Proof. intros Hr. by apply spared. Qed.

(** C21. A promotion that was lost is recovered in the mode it was queued with.  Without
    faults and with extents updated later, for a stored job that is still
    ["finalizing"] although nobody is loading it any more, whose finalize state -
    written when the promotion was queued - names a mode that its message does not
    contradict, with staged rows whose publication in that mode repeats no key and no
    trace of a duplicate-key failure: the pass publishes the rows in that mode,
    completes the job, removes its marks and counts it as promoted. *)
Theorem stuck_promotion_recovered `{RedisLaws} `{PostgresLaws} `{Entropy} (cfg : Settings)
    (recompute_extent : string -> M unit) (w : world) (job : JobInfo) (h : gmap string string)
    (mode : string) (t : table) (stats : ReconcileStats) :
  is_redis cfg = true -> quiet w -> db_quiet w ->
  job_stored (w_now w) (w_redis w) (job_id job) job -> lower (status job) = "finalizing" ->
  lock_typed (w_now w) (w_redis w) (collection_id job) -> loading cfg w job = false ->
  dt_range (utcnow (w_now w)) ->
  promotable (w_db w) (collection_id job) (job_id job) t ->
  as_hash (w_now w) (w_redis w) (state_key (job_id job)) = inr h ->
  h !! "mode" = Some mode -> mode ∈ ["append"; "replace"] ->
  (mode = "append" -> contains "replace" (lower (message_text job)) = false) ->
  keys_unique (promoted mode (live_rows (w_db w) (collection_id job)) (t_rows t)) = true ->
  is_staging_pk_duplicate_message (message_text job) = false ->
  bulk_extent_update_mode cfg = "deferred" ->
  exists w', reconcile_jobs cfg recompute_extent [job] false stats w = (inr (add_promoted stats), w')
    /\ promoted_ok w w' (as_promotion job mode t) t.
Proof.
  intros Hr Hq Hdq Hj Hs Hl Hload Hnow Hp Hh Hmode Hin Hmsg Hk Hdup Hm.
  pose proof (recorded_mode job h mode Hs Hmode Hin Hmsg) as Him. rewrite <-Him in *.
  destruct (reconcile_one_promotes cfg recompute_extent Hr w job h t stats) as (w' & Hrun & Hok);
    try done.
  exists w'. split; [|done]. cbn [reconcile_jobs].
  rewrite bind_run, candidate_finalizing by done. by rewrite bind_run, Hrun.
Qed.

(** ** Witnesses *)

(** A job whose rows were all loaded and whose promotion never came. *)
Definition loaded_update : JobUpdate := up_counts (Some "finalizing") None None (Some 2) None.
Definition pending_job : JobInfo := read_job (new_job "j1" "roads" (Some 7) None 0).
Definition stuck_job : JobInfo := apply_redis (us 60) loaded_update pending_job.
Definition pending_hash : gmap string string :=
  hset_all ∅ (job_mapping (new_job "j1" "roads" (Some 7) None 0)).
Definition stuck_ks : keyspace :=
  update_ks (us 60) (put ∅ (redis_key "j1") (VHash pending_hash) None) "j1" loaded_update "roads"
    (updated_hash (us 60) loaded_update pending_hash).
Definition stuck_world : world := with_redis (with_db demo_world append_db) stuck_ks.

Lemma stuck_stored : job_stored (us 60) stuck_ks "j1" stuck_job.
Proof.
  assert (job_hash pending_hash pending_job) as Hj by (apply new_job_hash; by vm_compute).
  apply (update_ks_stored _ _ _ _ pending_job); [|by eapply job_hash_nonempty|by apply job_hash_parse
    |by vm_compute|done].
  unfold as_hash. by rewrite peek_val_put_eq.
Qed.

(** An import that staged nothing into a collection that already has a feature. *)
Definition nothing_update : JobUpdate := up_counts (Some "finalizing") None None None None.
Definition nothing_job : JobInfo := apply_redis (us 60) nothing_update pending_job.
Definition nothing_world : world :=
  with_redis
    (with_db (slept demo_world (us 940))
       (one_part "roads" "features_roads" (Table [Row "0" "roads" 0 1 "old"] true [])
          {[ "bulk_staging_j1" := Table [] false [] ]} []))
    (put ∅ (redis_key "j1") (VHash (updated_hash (us 60) nothing_update pending_hash)) None).

(** An empty import is reported as a success: when the staging table of a
    finalizing job is empty and the collection already has a partition of its
    own, the pass takes the rows that were there before for the rows of the
    import, and completes the job with their number. *)
Theorem empty_import_completed :
  exists w1 w2 j,
    @reconcile_jobs reference_server reference_postgres reference_entropy default_settings
      (fun _ => mret tt) [nothing_job] false no_stats nothing_world
    = (inr (add_completed no_stats), w1)
    /\ live_rows (w_db w1) "roads" = live_rows (w_db nothing_world) "roads"
    /\ @get_job reference_server reference_entropy default_settings "j1" w1 = (inr (Some j), w2)
    /\ status j = "completed" /\ items_created j = 1.
Proof.
  eexists _, _, _. split; [apply run_fst; vm_compute; reflexivity|].
  split; [vm_compute; reflexivity|]. split; [apply run_fst; vm_compute; reflexivity|].
  split; reflexivity.
Qed.

Lemma loading_jobs_spared_witness :
  @reconcile_jobs reference_server reference_postgres reference_entropy default_settings
    (fun _ => mret tt) [stuck_job; pending_job] false no_stats demo_world = (inr no_stats, demo_world).
Proof.
  apply (@loading_jobs_spared reference_server reference_laws reference_postgres
    reference_postgres_laws reference_entropy default_settings (fun _ => mret tt) demo_world
    [stuck_job; pending_job] false no_stats); [reflexivity|reflexivity|].
  repeat constructor; try exact demo_lock_typed; by vm_compute.
Defined.

(** What was recorded when the replacement of the rows of ["j1"] was queued. *)
Definition queued_state : gmap string string :=
  hset_all ∅ (finalize_mapping (FinalizePayload "j1" "roads" "replace" 2 0 (Some 7) false 0) "2024-01-01T00:00:00").
Definition queued_world : world :=
  with_redis stuck_world (put stuck_ks (state_key "j1") (VHash queued_state) None).

Lemma stuck_promotion_recovered_witness :
  exists w', @reconcile_jobs reference_server reference_postgres reference_entropy default_settings
      (fun _ => mret tt) [stuck_job] false no_stats queued_world = (inr (add_promoted no_stats), w')
    /\ promoted_ok queued_world w' (as_promotion stuck_job "replace" new_roads) new_roads.
Proof.
  apply (@stuck_promotion_recovered reference_server reference_laws reference_postgres
    reference_postgres_laws reference_entropy default_settings (fun _ => mret tt) queued_world
    stuck_job queued_state "replace" new_roads no_stats);
    [reflexivity|reflexivity|reflexivity| |reflexivity| |by vm_compute|by vm_compute
    |exact append_db_promotable|by vm_compute|by vm_compute|by right; left|done|by vm_compute|reflexivity|reflexivity].
  - eapply job_stored_frame; [|exact stuck_stored]. apply lookup_insert_ne. by key_neq.
  - intros v. by vm_compute.
Defined.

Lemma dry_run_writes_nothing_witness :
  w_services (@reconcile_all_stuck_finalize_jobs reference_server reference_postgres reference_entropy
    default_settings (fun _ => mret tt) true 5000 stuck_world).2 = w_services stuck_world.
Proof.
  apply (@dry_run_writes_nothing reference_server reference_laws reference_postgres
    reference_postgres_laws reference_entropy default_settings (fun _ => mret tt) 5000).
  reflexivity.
Defined.
