(* ===== verification/Watchdog.v ===== *)
(** * The watchdog (app/services/bulk_watchdog.py)

    Passes over mutexes and stored jobs: mutexes of finished or missing holders
    are reclaimed, jobs whose worker died are failed, or queued for promotion
    when their rows are already staged. *)

From S2P Require Import Prelude PyTime Redis Postgres World Database Json Mutex JobStore Queue.
From S2P Require Import BulkQueue FinalizeQueue BulkActivity Partitions Staging FinalizeWorker Reconcile.

Section watchdog.
Context `{RedisServer} `{PostgresServer} `{Entropy} (cfg : Settings).

Definition stale_seconds : Z := Z.max (us 60) (int_or (bulk_job_stale_seconds cfg) (us 14400)).

Definition finalize_stale_seconds : Z :=
  Z.max (us 300) (int_or (bulk_finalize_stale_seconds cfg) (us 86400)).

Definition should_fail_stale_running : bool :=
  match bulk_watchdog_fail_stale_running cfg with
  | Some b => b
  | None => negb (bulk_finalize_queue_enabled cfg)
  end.

(** [_job_last_progress]; [updated_at] is always set. *)
Definition job_last_progress (job : JobInfo) : datetime :=
  default_utc (default (updated_at job) (last_progress_at job)).

Definition progress_age (job : JobInfo) (now : Z) : Z := now - dt_instant (job_last_progress job).

Definition running_recover_min_age_seconds : Z :=
  Z.max (us 300) (int_or (bulk_running_recover_staging_seconds cfg) (us 600)).

Definition should_attempt_running_staging_recovery (job : JobInfo) : M bool :=
  now ← get_now;
  let age := progress_age job now in
  if age <? running_recover_min_age_seconds then mret false
  else
    holds ← holds_collection_bulk_mutex cfg (collection_id job) (job_id job);
    mret (negb ((holds : bool) && (age <? stale_seconds))).

(** [staging_row_count_sync] with errors read as an empty table. *)
Definition staged_count (id : string) : M Z :=
  try_except (staging_row_count_sync id) (fun _ => mret 0).

Definition recovery_mode (job : JobInfo) : string :=
  if contains "replace" (lower (message_text job)) || bool_decide (status job = "replacing")
  then "replace" else "append".

Definition recovery_payload (job : JobInfo) (staged : Z) : BulkFinalizePayload :=
  {| fp_job_id := job_id job; fp_collection_id := collection_id job; fp_mode := recovery_mode job;
     fp_items_created := staged; fp_items_failed := items_failed job; fp_owner_id := owner_id job;
     fp_queue_compute_tiles := false; fp_attempt := 0 |}.

Definition up_recovered (msg : string) (staged : Z) : JobUpdate :=
  up_counts (Some "finalizing") (Some msg) None (Some staged) None.

Definition recovered_message (staged : Z) : string :=
  "Recovered: " +:+ comma staged +:+ " features in staging; partition swap queued (watchdog).".

Definition recover_running_job_to_finalize (job : JobInfo) : M bool :=
  if negb (is_redis cfg) || negb (bulk_finalize_queue_enabled cfg) then mret false
  else
    staged ← staged_count (job_id job);
    if staged <=? 0 then mret false
    else
      pending ← is_finalize_pending cfg (job_id job);
      if (pending : bool) then
        update_job cfg (job_id job) (up_recovered
          ("Loaded " +:+ comma staged +:+ " features into staging; partition swap queued…") staged);;
        mret true
      else
        queued ← enqueue_finalize cfg (recovery_payload job staged) false;
        if negb queued then mret false
        else
          update_job cfg (job_id job) (up_recovered (recovered_message staged) staged);;
          release_collection_bulk_mutex cfg (collection_id job) (job_id job);;
          mret true.

(** The keys of [_scan_mutex_keys], with errors read as none. *)
Definition scan_mutex_keys : M (list string) :=
  try_except (run_redis_retry cfg (redis (Scan (BULK_COLLECTION_MUTEX_PREFIX +:+ "*"))) None) (fun _ => mret []).

Definition key_collection (key : string) : string :=
  str_drop (String.length BULK_COLLECTION_MUTEX_PREFIX) key.

Definition seconds (d : Z) : string := str_of_Z (d / 1000000).

(** [try: update_job(...) except Exception: continue], then [k]. *)
Definition fail_job_then (id msg : string) (k : M (list string)) (skip : M (list string)) :
  M (list string) :=
  failed ← try_except (update_job cfg id (up "failed" msg);; mret true) (fun _ => mret false);
  if (failed : bool) then k else skip.

(** The loop of [fail_stale_pending_mutex_holders]. *)
Fixpoint fail_pending_holders (keys : list string) : M (list string) :=
  match keys with
  | [] => mret []
  | key :: keys' =>
      let c := key_collection key in
      if decide (c = "") then fail_pending_holders keys'
      else
        holder ← get_collection_bulk_mutex_holder cfg c;
        if negb (truthy holder) then fail_pending_holders keys'
        else
          let h := opt_str holder in
          job ← get_job cfg h;
          now ← get_now;
          match job with
          | Some j =>
              let age := job_age j now in
              if negb (bool_decide (lower (status j) = "pending")) || (age <? pending_stale_seconds cfg)
              then fail_pending_holders keys'
              else
                release_collection_bulk_mutex cfg c h;;
                fail_job_then h
                  ("Bulk import interrupted before start (pending " +:+ seconds age
                   +:+ "s with collection lock); re-submit the upload.")
                  (l ← fail_pending_holders keys'; mret (h :: l))
                  (fail_pending_holders keys')
          | None => fail_pending_holders keys'
          end
  end.

Definition fail_stale_pending_mutex_holders : M (list string) :=
  if negb (is_redis cfg) then mret []
  else keys ← scan_mutex_keys; fail_pending_holders keys.

Definition loading_status (s : string) : bool := bool_decide (s ∈ ["running"; "replacing"]).
Definition active_status (s : string) : bool :=
  bool_decide (s ∈ ["pending"; "running"; "replacing"; "finalizing"]).

(** The loop of [fail_stale_running_jobs]: the failed jobs and [active_ids]. *)
Fixpoint fail_running (now : Z) (jobs : list JobInfo) : M (list string * list string) :=
  match jobs with
  | [] => mret ([], [])
  | job :: jobs' =>
      let id := job_id job in
      let active := if active_status (status job) then [id] else [] in
      let skip := '(failed, ids) ← fail_running now jobs'; mret (failed, active ++ ids)%list in
      let age := progress_age job now in
      if negb (loading_status (status job)) || (age <? stale_seconds) then skip
      else
        attempt ← should_attempt_running_staging_recovery job;
        recovered ← (if (attempt : bool) then recover_running_job_to_finalize job else mret false);
        if (recovered : bool) then skip
        else
          failed ← try_except
            (update_job cfg id (up "failed"
               ("Bulk import stalled (no progress for " +:+ seconds age
                +:+ "s); job marked failed by watchdog."));; mret true) (fun _ => mret false);
          if negb failed then skip
          else
            release_collection_bulk_mutex cfg (collection_id job) id;;
            try_pass (drop_staging_table_sync id);;
            '(failed, ids) ← fail_running now jobs';
            mret (id :: failed, active ++ ids)%list
  end.

Definition fail_stale_running_jobs : M (list string) :=
  if negb (is_redis cfg) || negb should_fail_stale_running then mret []
  else
    now ← get_now;
    jobs ← list_all_jobs cfg 500 None 0;
    '(failed, active) ← fail_running now jobs;
    try_pass (cleanup_orphan_staging_tables_sync active;; mret tt);;
    mret failed.

(** The loop of [recover_stale_running_jobs_with_staging]. *)
Fixpoint recover_running (jobs : list JobInfo) : M (list string) :=
  match jobs with
  | [] => mret []
  | job :: jobs' =>
      if negb (loading_status (status job)) then recover_running jobs'
      else
        attempt ← should_attempt_running_staging_recovery job;
        if negb attempt then recover_running jobs'
        else
          recovered ← recover_running_job_to_finalize job;
          l ← recover_running jobs';
          mret (if (recovered : bool) then job_id job :: l else l)
  end.

Definition recover_stale_running_jobs_with_staging : M (list string) :=
  if negb (is_redis cfg) || negb (bulk_finalize_queue_enabled cfg) then mret []
  else jobs ← list_all_jobs cfg 500 None 0; recover_running jobs.

(** The loop of [fail_stale_finalizing_jobs]. *)
Fixpoint fail_finalizing (now : Z) (jobs : list JobInfo) : M (list string) :=
  match jobs with
  | [] => mret []
  | job :: jobs' =>
      let age := progress_age job now in
      if negb (bool_decide (lower (status job) = "finalizing")) || (age <? finalize_stale_seconds)
      then fail_finalizing now jobs'
      else
        fail_job_then (job_id job)
          ("Partition swap stalled (no progress for " +:+ seconds age
           +:+ "s). Staging data kept; re-run bulk_recover_staging or re-upload.")
          (l ← fail_finalizing now jobs'; mret (job_id job :: l))
          (fail_finalizing now jobs')
  end.

Definition fail_stale_finalizing_jobs : M (list string) :=
  if negb (is_redis cfg) then mret []
  else
    now ← get_now;
    jobs ← list_all_jobs cfg 500 None 0;
    fail_finalizing now jobs.

(** The loop of [run_bulk_watchdog_pass] over the mutexes. *)
Fixpoint reclaim_finished (keys : list string) : M unit :=
  match keys with
  | [] => mret tt
  | key :: keys' =>
      let c := key_collection key in
      holder ← get_collection_bulk_mutex_holder cfg c;
      (if negb (truthy holder) then mret tt
       else
         job ← get_job cfg (opt_str holder);
         when (match job with
               | None => true
               | Some j => is_terminal_job_status (Some (status j)) || bool_decide (is_Some (finished_at j))
               end)
           (reclaim_stale_collection_bulk_mutex cfg c;; mret tt));;
      reclaim_finished keys'
  end.

Definition run_bulk_watchdog_pass (fail_stale_running : option bool) : M unit :=
  if negb (is_redis cfg) then mret tt
  else
    keys ← scan_mutex_keys;
    reclaim_finished keys;;
    fail_stale_pending_mutex_holders;;
    recover_stale_running_jobs_with_staging;;
    when (default should_fail_stale_running fail_stale_running) (fail_stale_running_jobs;; mret tt).

(** ** [reconcile_orphan_finalize_jobs] *)

Definition int_state (state : gmap string string) (f : string) (d : Z) : res Z :=
  if truthy (state !! f) then int_of (opt_str (state !! f)) else inr d.

(** Words that tell a failed promotion from a failed load. *)
Definition orphan_words : list string := ["deadlock"; "partition swap"; "staging"; "watchdog"].

Definition is_orphan (job : JobInfo) (state : gmap string string) : bool :=
  negb (bool_decide (lower (status job) = "failed") && bool_decide (state = ∅)
        && negb (contains_any orphan_words (lower (message_text job)))).

Definition orphan_payload (job : JobInfo) (staged : Z) (state : gmap string string) :
  res BulkFinalizePayload :=
  let msg := lower (message_text job) in
  let mode := str_or (opt_str (state !! "mode"))
    (if contains "replace" msg || bool_decide (lower (status job) = "replacing") then "replace" else "append") in
  let owner_raw := opt_str (state !! "owner_id") in
  let! owner := if isdigit owner_raw
                then let! z := int_of owner_raw in inr (Some z) else inr (owner_id job) in
  let! created := int_state state "items_created" (int_or (items_created job) staged) in
  let! failed := int_state state "items_failed" (items_failed job) in
  inr {| fp_job_id := job_id job;
         fp_collection_id := str_or (opt_str (state !! "collection_id")) (collection_id job);
         fp_mode := mode; fp_items_created := created; fp_items_failed := failed; fp_owner_id := owner;
         fp_queue_compute_tiles :=
           bool_decide (lower (default "0" (state !! "queue_compute_tiles")) ∈ ["1"; "true"; "yes"]);
         fp_attempt := 0 |}.

(** The loop over the jobs. *)
Fixpoint requeue_orphans (jobs : list JobInfo) : M (list string) :=
  match jobs with
  | [] => mret []
  | job :: jobs' =>
      let id := job_id job in
      if negb (bool_decide (lower (status job) ∈ ["finalizing"; "failed"; "running"; "replacing"]))
      then requeue_orphans jobs'
      else
        pending ← is_finalize_pending cfg id;
        if (pending : bool) then requeue_orphans jobs'
        else
          staged ← staged_count id;
          if staged <=? 0 then requeue_orphans jobs'
          else
            state ← get_finalize_state cfg id;
            if negb (is_orphan job state) then requeue_orphans jobs'
            else
              payload ← lift (orphan_payload job staged state);
              queued ← enqueue_finalize cfg payload true;
              if negb queued then requeue_orphans jobs'
              else
                update_job cfg id (up_recovered
                  ("Re-queued partition swap for " +:+ comma staged +:+ " staged features (self-heal).")
                  (int_or (items_created job) staged));;
                l ← requeue_orphans jobs';
                mret (id :: l)
  end.

Definition reconcile_orphan_finalize_jobs : M (list string) :=
  if negb (is_redis cfg) || negb (bulk_finalize_queue_enabled cfg) then mret []
  else jobs ← list_all_jobs cfg 500 None 0; requeue_orphans jobs.

Definition run_finalize_watchdog_pass (recompute_extent : string -> M unit) : M unit :=
  reconcile_all_stuck_finalize_jobs cfg recompute_extent false 5000;; mret tt.
End watchdog.

(** ** Recovery of a load whose worker died *)

Section watchdog_lemmas.
Context `{RedisLaws} `{PostgresLaws} `{Entropy} (cfg : Settings) (Hredis : is_redis cfg = true).

(** What recovering leaves in the stores. *)
Record recovered (w w' : world) (j : JobInfo) (n : Z) (l : list string) : Prop := {
  re_services : w_services w' = w_services w;
  re_time : w_now w' = w_now w;
  re_sched : w_sched w' = w_sched w;
  re_queue : finalize_queue_of (w_now w') (w_redis w') = inr (finalize_to_json (recovery_payload j n) :: l);
  re_pending : finalize_pending (w_now w') (w_redis w') (job_id j) = true;
  re_job : exists j', job_stored (w_now w') (w_redis w') (job_id j) j' /\ status j' = "finalizing"
             /\ items_created j' = n /\ collection_id j' = collection_id j;
  re_typed : lock_typed (w_now w') (w_redis w') (collection_id j);
  re_free : fst <$> lock_of (w_now w') (w_redis w') (collection_id j) <> Some (job_id j)
}.

Lemma staged_count_run w id t :
  db_quiet w -> db_tables (w_db w) !! staging_table_name id = Some t ->
  staged_count id w = (inr (Z.of_nat (length (t_rows t))), w).
Proof. intros Hq Ht. apply try_except_ok. by apply row_count_run. Qed.

Lemma pending_quiet w id :
  quiet w -> is_finalize_pending cfg id w = (inr (finalize_pending (w_now w) (w_redis w) id), w).
Proof.
  intros Hq. unfold is_finalize_pending. rewrite Hredis. cbn [negb]. apply run_redis_retry_ok.
  erewrite redis_ok; [|done|by autorewrite with redis_exec]. by rewrite with_redis_same.
Qed.

(** A worker that made no progress and does not hold its collection is dead. *)
Lemma attempt_dead w j :
  quiet w -> lock_typed (w_now w) (w_redis w) (collection_id j) ->
  running_recover_min_age_seconds cfg <= progress_age j (w_now w) ->
  (holder_of (w_now w) (w_redis w) (collection_id j) <> Some (job_id j)
   \/ stale_seconds cfg <= progress_age j (w_now w)) ->
  should_attempt_running_staging_recovery cfg j w = (inr true, w).
Proof.
  intros Hq Ht Hage Hheld. unfold should_attempt_running_staging_recovery.
  rewrite bind_run, get_now_run, (proj2 (Z.ltb_ge _ _) Hage).
  rewrite bind_run, holds_quiet, ret_run by done. do 2 f_equal. destruct Hheld as [Hh|Hs].
  - by rewrite bool_decide_eq_false_2.
  - rewrite (proj2 (Z.ltb_ge _ _) Hs). by destruct (bool_decide _).
Qed.

Lemma release_frees w c o :
  quiet w -> lock_typed (w_now w) (w_redis w) c ->
  exists ks', release_collection_bulk_mutex cfg c o w = (inr tt, with_redis w ks')
    /\ lock_typed (w_now w) ks' c /\ fst <$> lock_of (w_now w) ks' c <> Some o
    /\ (forall k, k <> mutex_key c -> ks' !! k = w_redis w !! k).
Proof.
  intros Hq Ht. rewrite release_quiet by done. case_decide as Hd.
  - eexists. split; [reflexivity|]. split; [apply lock_typed_delete|].
    split; [by rewrite lock_of_delete|]. intros k Hk. by apply lookup_delete_ne.
  - exists (w_redis w). by rewrite with_redis_same.
Qed.

Lemma recover_run w j t h l :
  let n := Z.of_nat (length (t_rows t)) in
  bulk_finalize_queue_enabled cfg = true -> quiet w -> db_quiet w ->
  job_stored (w_now w) (w_redis w) (job_id j) j ->
  db_tables (w_db w) !! staging_table_name (job_id j) = Some t -> 0 < n ->
  finalize_pending (w_now w) (w_redis w) (job_id j) = false ->
  as_hash (w_now w) (w_redis w) (state_key (job_id j)) = inr h ->
  finalize_queue_of (w_now w) (w_redis w) = inr l ->
  lock_typed (w_now w) (w_redis w) (collection_id j) -> dt_range (utcnow (w_now w)) ->
  exists w', recover_running_job_to_finalize cfg j w = (inr true, w') /\ recovered w w' j n l.
Proof.
  intros n Hen Hq Hdq Hj Ht Hn Hp Hh Hl Hlt Hnow.
  destruct (enqueue_finalize_fresh cfg Hredis w (recovery_payload j n) h l Hq Hp Hh Hl)
    as (ks1 & Henq & Hp1 & Hl1 & Hf1).
  assert (ks1 !! redis_key (job_id j) = w_redis w !! redis_key (job_id j)) as Hk1.
  { apply Hf1; auto with geofast. }
  assert (ks1 !! mutex_key (collection_id j) = w_redis w !! mutex_key (collection_id j)) as Hm1.
  { apply Hf1; auto with geofast. }
  destruct (lock_frame (w_now w) _ _ _ Hm1) as [_ Ht1].
  destruct (update_live cfg Hredis (with_redis w ks1) (job_id j)
    (up_recovered (recovered_message n) n) j "finalizing") as (ks2 & Hup & Hj2 & Hf2); try done.
  { by eapply job_stored_frame. }
  { by apply Ht1. }
  rewrite with_redis_twice in Hup. cbn [with_redis w_now w_redis recovery_payload fp_job_id] in *.
  assert (lock_typed (w_now w) ks2 (collection_id j)) as Ht2.
  { apply (lock_frame (w_now w) ks1); [by apply Hf2; key_neq|by apply Ht1]. }
  destruct (release_frees (with_redis w ks2) (collection_id j) (job_id j)) as (ks3 & Hrel & Ht3 & Hfree & Hf3);
    [done|done|]. rewrite with_redis_twice in Hrel. cbn [with_redis w_now w_redis] in *.
  exists (with_redis w ks3). split.
  - unfold recover_running_job_to_finalize. rewrite Hredis, Hen. cbn [negb orb].
    rewrite bind_run, (staged_count_run _ _ t) by done. fold n. rewrite (proj2 (Z.leb_gt _ _) Hn).
    rewrite bind_run, pending_quiet, Hp by done. rewrite bind_run, Henq. cbn [negb].
    by rewrite bind_run, Hup, bind_run, Hrel.
  - split; cbn [with_redis w_now w_redis w_services w_sched]; try done.
    + rewrite <-Hl1. apply queue_frame. rewrite Hf3, Hf2 by by key_neq. done.
    + rewrite <-Hp1. unfold finalize_pending, peek. rewrite Hf3, Hf2 by by key_neq. done.
    + eexists. split; [eapply job_stored_frame; [|exact Hj2]; by apply Hf3; key_neq|done].
Qed.

(** Recovering keeps what the promotion needs. *)
Lemma recovered_finalizes (recompute_extent : string -> M unit) w w' j t l :
  let p := recovery_payload j (Z.of_nat (length (t_rows t))) in
  quiet w -> db_quiet w -> dt_range (utcnow (w_now w)) ->
  recovered w w' j (Z.of_nat (length (t_rows t))) l ->
  promotable (w_db w) (collection_id j) (job_id j) t ->
  keys_unique (promoted (recovery_mode j) (live_rows (w_db w) (collection_id j)) (t_rows t)) = true ->
  bulk_extent_update_mode cfg = "deferred" ->
  exists w2, process_bulk_finalize_job cfg recompute_extent p w' = (inr tt, w2)
    /\ promoted_ok w w2 p t.
Proof.
  intros p Hq Hdq Hnow [Hsv Hn Hsc _ _ (j' & Hj' & Hst & _ & Hc) Ht _] Hp Hk Hm.
  assert (w_db w' = w_db w) as Hdb by (unfold w_db; by rewrite Hsv).
  destruct (finalize_run cfg recompute_extent Hredis w' p t j') as (w2 & Hrun & Hok); try done.
  - unfold quiet in *. by rewrite Hsc.
  - unfold db_quiet in *. by rewrite Hsv.
  - by rewrite Hst.
  - by rewrite Hc.
  - by rewrite Hn.
  - by rewrite Hdb.
  - by rewrite Hdb.
  - exists w2. split; [done|]. destruct Hok. rewrite Hdb in *. by split.
Qed.
End watchdog_lemmas.

(** ** Properties *)

(** C20. No staged rows are lost with a worker: for a stored job that is loading,
    has made no progress for the recovery age, and has lost the mutex of its
    collection or made no progress for the stale age, and that has rows staged
    but no promotion pending, the watchdog's recovery loop queues the promotion
    and marks it pending, sets the stored job to ["finalizing"] with the number
    of staged rows and frees the collection; processing the queued payload then
    publishes the rows and completes the job. *)
Theorem dead_worker_recovered `{RedisLaws} `{PostgresLaws} `{Entropy} (cfg : Settings)
    (recompute_extent : string -> M unit) (w : world) (j : JobInfo) (t : table)
    (h : gmap string string) (l : list string) :
  is_redis cfg = true -> bulk_finalize_queue_enabled cfg = true -> quiet w -> db_quiet w ->
  job_stored (w_now w) (w_redis w) (job_id j) j -> loading_status (status j) = true ->
  running_recover_min_age_seconds cfg <= progress_age j (w_now w) ->
  (holder_of (w_now w) (w_redis w) (collection_id j) <> Some (job_id j)
   \/ stale_seconds cfg <= progress_age j (w_now w)) ->
  promotable (w_db w) (collection_id j) (job_id j) t ->
  finalize_pending (w_now w) (w_redis w) (job_id j) = false ->
  as_hash (w_now w) (w_redis w) (state_key (job_id j)) = inr h ->
  finalize_queue_of (w_now w) (w_redis w) = inr l ->
  lock_typed (w_now w) (w_redis w) (collection_id j) -> dt_range (utcnow (w_now w)) ->
  keys_unique (promoted (recovery_mode j) (live_rows (w_db w) (collection_id j)) (t_rows t)) = true ->
  bulk_extent_update_mode cfg = "deferred" ->
  let p := recovery_payload j (Z.of_nat (length (t_rows t))) in
  exists w1 w2, recover_running cfg [j] w = (inr [job_id j], w1)
    /\ recovered w w1 j (Z.of_nat (length (t_rows t))) l
    /\ process_bulk_finalize_job cfg recompute_extent p w1 = (inr tt, w2)
    /\ promoted_ok w w2 p t.
Proof.
  intros Hr Hen Hq Hdq Hj Hs Hage Hheld Hp Hpend Hh Hl Ht Hnow Hk Hm p.
  pose proof (pr_staged _ _ _ _ Hp) as [Htab _ _ _].
  assert (0 < Z.of_nat (length (t_rows t))) as Hlen.
  { destruct (t_rows t) eqn:He; [by destruct (pr_rows _ _ _ _ Hp)|simpl; lia]. }
  destruct (recover_run cfg Hr w j t h l) as (w1 & Hrun & Hrec); try done.
  destruct (recovered_finalizes cfg Hr recompute_extent w w1 j t l) as (w2 & Hrun2 & Hok); try done.
  exists w1, w2. split; [|done]. cbn [recover_running]. rewrite Hs. cbn [negb].
  rewrite bind_run, attempt_dead by done. cbn [negb]. by rewrite bind_run, Hrun.
Qed.

(** The watchdog leaves working imports alone: when every job that loads has
    made progress within the recovery age and the stale age, neither the
    recovery loop nor the loop that fails stale jobs changes anything, whatever
    the schedules, and the latter reports the active jobs so that their staging
    tables are kept. *)
Theorem working_jobs_spared `{RedisServer} `{PostgresServer} `{Entropy} (cfg : Settings)
    (w : world) (jobs : list JobInfo) :
  Forall (fun j => loading_status (status j) = true ->
            progress_age j (w_now w) < running_recover_min_age_seconds cfg
            /\ progress_age j (w_now w) < stale_seconds cfg) jobs ->
  recover_running cfg jobs w = (inr [], w)
  /\ fail_running cfg (w_now w) jobs w =
     (inr ([], map job_id (List.filter (fun j => active_status (status j)) jobs)), w).
Proof.
  induction 1 as [|j jobs Hj _ [IH1 IH2]]; [done|]. cbn [recover_running fail_running List.filter].
  destruct (loading_status (status j)) eqn:Hs; cbn [negb orb].
  - destruct (Hj eq_refl) as [Hm Hst]. split.
    + unfold should_attempt_running_staging_recovery. rewrite bind_run, bind_run, get_now_run.
      by rewrite (proj2 (Z.ltb_lt _ _) Hm).
    + rewrite (proj2 (Z.ltb_lt _ _) Hst), bind_run, IH2. by destruct (active_status _).
  - split; [done|]. rewrite bind_run, IH2. by destruct (active_status _).
Qed.

(** ** Witnesses *)

(** A job that was loading when its worker died; its lock
    on the collection has lapsed since. *)
Definition dead_update : JobUpdate := up_counts (Some "running") None None (Some 2) None.
Definition dead_job : JobInfo := apply_redis (us 60) dead_update pending_job.
Definition dead_hash : gmap string string := updated_hash (us 60) dead_update pending_hash.
Definition dead_ks : keyspace :=
  put (put ∅ (mutex_key "roads") (VStr "j1") (Some (us 900))) (redis_key "j1") (VHash dead_hash) None.
Definition dead_world : world := with_redis (with_db (slept demo_world (us 940)) append_db) dead_ks.

Lemma dead_stored : job_stored (us 1000) dead_ks "j1" dead_job.
Proof.
  assert (job_hash dead_hash dead_job) as Hj.
  { apply update_hash; [|by vm_compute|done|done]. apply new_job_hash. by vm_compute. }
  exists dead_hash. split; [|split; [by eapply job_hash_nonempty|by apply job_hash_parse]].
  unfold as_hash, dead_ks. by rewrite peek_val_put_eq.
Qed.

Lemma dead_worker_recovered_witness :
  exists w1 w2,
    @recover_running reference_server reference_postgres reference_entropy
      default_settings [dead_job] dead_world = (inr ["j1"], w1)
    /\ recovered dead_world w1 dead_job 2 []
    /\ @process_bulk_finalize_job reference_server reference_postgres reference_entropy
      default_settings (fun _ => mret tt) (recovery_payload dead_job 2) w1 = (inr tt, w2)
    /\ promoted_ok dead_world w2 (recovery_payload dead_job 2) new_roads.
Proof.
  apply (@dead_worker_recovered reference_server reference_laws reference_postgres
    reference_postgres_laws reference_entropy default_settings (fun _ => mret tt) dead_world
    dead_job new_roads ∅ []);
    [reflexivity|reflexivity|reflexivity|reflexivity|exact dead_stored|reflexivity|by vm_compute
    |left; by vm_compute|exact append_db_promotable|by vm_compute|by vm_compute|by vm_compute| |by vm_compute
    |by vm_compute|reflexivity].
  intros v. by vm_compute.
Defined.

Lemma working_jobs_spared_witness :
  @recover_running reference_server reference_postgres reference_entropy default_settings
    [dead_job] demo_world = (inr [], demo_world)
  /\ @fail_running reference_server reference_postgres reference_entropy default_settings
    (us 60) [dead_job] demo_world = (inr ([], ["j1"]), demo_world).
Proof.
  apply (@working_jobs_spared reference_server reference_postgres reference_entropy
    default_settings demo_world [dead_job]).
  repeat constructor; by vm_compute.
Defined.
