(* ===== verification/JobDisplay.v ===== *)
(** * How jobs are shown and filtered (app/utils/job_display.py, app/api/routes/jobs.py)

    [build_job_view_dict] classifies a job and adds its details;
    [_filter_job_dicts] selects among the resulting dictionaries.  The two
    optional bounds on the creation time are parameters of the filter;
    [parse_job_time] is only used on the time stamps of jobs, which are texts
    [isoformat] wrote. *)

From S2P Require Import Prelude PyTime Redis Postgres World Json JobStore.

Abbreviation dict := (list (string * json)).

Definition dget (f : string) (d : dict) : json := default JNull (dict_get f d).

(** [(d.get(f) or "").lower()] of a string field. *)
Definition lower_field (f : string) (d : dict) : string :=
  lower (json_str (json_or (dget f d) (JStr ""))).

(** ** Labels *)

Definition PROCESS_TYPE_LABELS : list (string * string) :=
  [("intersection", "Intersection (two layers)"); ("erase", "Erase / difference (two layers)");
   ("buffer", "Buffer (single layer)"); ("explode", "Explode geometries (single layer)");
   ("make_valid", "Make valid (single layer)"); ("union", "Union / dissolve (single layer)");
   ("measure", "Measure (single layer, in-place)")].

Definition upper_ascii (c : Ascii.ascii) : Ascii.ascii :=
  let n := Ascii.nat_of_ascii c in
  if (97 <=? n)%nat && (n <=? 122)%nat then Ascii.ascii_of_nat (n - 32) else c.
Definition is_alpha (c : Ascii.ascii) : bool :=
  let n := Ascii.nat_of_ascii (lower_ascii c) in (97 <=? n)%nat && (n <=? 122)%nat.

(** [s.replace("_", " ").title()] *)
Fixpoint title_go (after_letter : bool) (s : string) : string :=
  match s with
  | EmptyString => EmptyString
  | String c s' =>
      let c := if bool_decide (c = "_"%char) then " "%char else c in
      String (if after_letter then lower_ascii c else upper_ascii c) (title_go (is_alpha c) s')
  end.
Definition process_label (pid : string) : string :=
  default (title_go false pid) (dict_get pid PROCESS_TYPE_LABELS).

Definition tile_words : list string :=
  ["tile build"; "tippecanoe"; "pmtiles"; "mbtiles"; "building tiles"; "static tiles";
   "vector tiles"; "tile worker"].

Definition message_suggests_tile_build (message : option string) : bool :=
  truthy message && existsb (fun n => contains n (lower (opt_str message))) tile_words.

(** ** The view of a job *)

Definition meta_get (meta : gmap string json) (f : string) : json := default JNull (meta !! f).

Definition is_list (j : json) : bool := match j with JList _ => true | _ => false end.

(** [len(j)] *)
Definition json_len (j : json) : res Z :=
  match j with
  | JList l => inr (Z.of_nat (length l))
  | JObj m => inr (Z.of_nat (length m))
  | JStr s => inr (Z.of_nat (String.length s))
  | _ => inl (TypeError "object has no len()")
  end.

(** [_process_meta_to_details] *)
Definition process_meta_to_details (meta : gmap string json) : dict :=
  let a := meta_get meta "collection_id_a" in
  let b := meta_get meta "collection_id_b" in
  let cids := meta_get meta "collection_ids" in
  let head := [("process_id", meta_get meta "process_id"); ("collection_id_a", json_or a (JStr ""));
               ("collection_id_b", json_or b (JStr ""))] in
  let mode :=
    if is_list cids then
      [("collection_ids", cids); ("mode", JStr "feature_vs_layers");
       ("feature_source", meta_get meta "feature_source"); ("feature_id", meta_get meta "feature_id")]
    else
      [("mode", JStr (if bool_decide (json_str (json_or a (JStr "")) = json_str (json_or b (JStr "")))
                         && json_truthy a then "single_layer" else "collection_vs_collection"))] in
  let result := meta_get meta "result_collection_id" in
  (head ++ mode
   ++ (if json_truthy result then [("result_collection_id", result)] else [])
   ++ [("update_existing",
        JBool (match meta_get meta "update_existing" with
               | JStr s => bool_decide (s = "1" \/ s = "true")
               | JBool b => b
               | JInt z => z =? 1
               | _ => false
               end))])%list.

(** The [details] every view has. *)
Definition base_details (job : JobInfo) (d : dict) : dict :=
  [("job_id", JStr (job_id job)); ("collection_id", JStr (collection_id job));
   ("status", JStr (status job)); ("message", opt_json JStr (message job));
   ("items_in", JInt (items_in job)); ("items_created", JInt (items_created job));
   ("items_failed", JInt (items_failed job)); ("created_at", dget "created_at" d);
   ("updated_at", dget "updated_at" d); ("finished_at", dget "finished_at" d)].

(** The view of one category: its label, its summary and its details. *)
Definition categorised (d : dict) (category label summary : string) (details : dict)
    (name : string) (detail : dict) : dict :=
  dict_set "details" (JObj (details ++ [(name, JObj detail)])%list)
    (dict_set "input_summary" (JStr summary)
       (dict_set "job_type_label" (JStr label) (dict_set "job_category" (JStr category) d))).

Definition plain_detail (job : JobInfo) (key note : string) : dict :=
  [(key, JStr (collection_id job)); ("note", JStr note)].

Definition process_summary (job : JobInfo) (meta : gmap string json) : res string :=
  let a := meta_get meta "collection_id_a" in
  let b := meta_get meta "collection_id_b" in
  let cids := meta_get meta "collection_ids" in
  if json_truthy cids then
    let! n := json_len cids in inr ("Feature vs " +:+ str_of_Z n +:+ " layer(s)")
  else if json_truthy a && json_truthy b then
    inr (if bool_decide (json_str a = json_str b) then "Layer: " +:+ json_str a
         else json_str a +:+ " × " +:+ json_str b)
  else inr (collection_id job).

(** The geoprocess branch. *)
Definition process_view (job : JobInfo) (meta : gmap string json) (d details : dict) : res dict :=
  let pid := json_str (meta_get meta "process_id") in
  let! summary := process_summary job meta in
  let d := dict_set "process_id" (JStr pid)
    (dict_set "job_type_label" (JStr (process_label pid)) (dict_set "job_category" (JStr "process") d)) in
  let d := dict_set "details" (JObj (details ++ [("process", JObj (process_meta_to_details meta))])%list)
    (dict_set "input_summary" (JStr summary) d) in
  let result := meta_get meta "result_collection_id" in
  inr (if json_truthy result then dict_set "result_collection_id" result d else d).

Definition is_process (meta : option (gmap string json)) : bool :=
  match meta with Some m => json_truthy (meta_get m "process_id") | None => false end.

(** [build_job_view_dict] *)
Definition build_job_view_dict (job : JobInfo) (meta : option (gmap string json)) (latest : bool) :
  res dict :=
  let d := to_dict job in
  let details := base_details job d in
  let summary := "Collection: " +:+ collection_id job in
  if decide (job_label job = Some "raster_batch") then
    inr (categorised d "raster_import" "Raster import (COG)" summary details "raster_import"
      (plain_detail job "collection_id"
         "GeoTIFF upload; converts to Cloud Optimized GeoTIFF (EPSG:4326) in the background."))
  else if decide (job_label job = Some "property_index") then
    inr (categorised d "property_index" "Property index sync" summary details "property_index"
      (plain_detail job "collection_id"
         ("Ensures Postgres expression indexes on features.properties "
          +:+ "(CREATE INDEX CONCURRENTLY IF NOT EXISTS on the leaf partition).")))
  else if decide (job_label job = Some "storage_delete") then
    inr (categorised d "storage_delete" "Storage delete" (collection_id job) details "storage_delete"
      (plain_detail job "target_id"
         "Removes disk files first (tiles/rasters), then database records."))
  else if is_process meta then process_view job (default ∅ meta) d details
  else if latest || message_suggests_tile_build (message job) then
    inr (categorised d "tile_build" "Static tile build (MBTiles / PMTiles)" summary details "tile_build"
      [("collection_id", JStr (collection_id job)); ("matched_latest_tile_job_pointer", JBool latest);
       ("note", JStr "Tippecanoe / static vector tiles for this collection.")])
  else
    inr (categorised d "bulk_import" "Bulk import" summary details "bulk_import"
      (plain_detail job "collection_id" "Import from uploaded file (shapefile, GeoJSON, etc.).")).

(** The keys [_build_job_dicts] adds to the view of a process job. *)
Definition meta_keys : list string :=
  ["process_id"; "collection_id_a"; "collection_id_b"; "collection_ids"; "feature_source"].
Definition with_meta (meta : option (gmap string json)) (d : dict) : dict :=
  match meta with
  | Some m =>
      let d := foldl (fun d f => dict_set f (meta_get m f) d) d meta_keys in
      let result := meta_get m "result_collection_id" in
      if json_truthy result then dict_set "result_collection_id" result d else d
  | None => d
  end.

(** The body of the loop of [_build_job_dicts]; [owner] is the owner's name to show. *)
Definition job_dict (job : JobInfo) (meta : option (gmap string json)) (latest : bool)
    (owner : option json) : res dict :=
  let! d := build_job_view_dict job meta latest in
  let d := dict_set "is_tile_build"
    (JBool (bool_decide (json_str (dget "job_category" d) = "tile_build"))) d in
  let d := with_meta meta d in
  inr (match owner with Some o => dict_set "owner_username" o d | None => d end).

(** ** Filters *)

Definition ACTIVE_STATUS_FILTER : list string :=
  ["pending"; "running"; "replacing"; "finalizing"; "cancelling"].

Definition job_matches_status (job : dict) (filter : string) : bool :=
  let st := lower (strip filter) in
  if decide (st = "") then true
  else
    let job_st := lower_field "status" job in
    if decide (st = "active") then bool_decide (job_st ∈ ACTIVE_STATUS_FILTER)
    else bool_decide (job_st ∈ List.filter (fun s => negb (bool_decide (s = ""))) (map strip (split "," st))).

Definition needle_in (n : string) (f : json) : bool := json_truthy f && contains n (lower (json_str f)).

Definition job_matches_collection (job : dict) (needle : string) : bool :=
  let n := lower needle in
  existsb (fun f => needle_in n (dget f job))
    ["collection_id"; "result_collection_id"; "input_summary"; "collection_id_a"; "collection_id_b"]
  || match dget "collection_ids" job with JList l => existsb (needle_in n) l | _ => false end.

Definition job_matches_operation (job : dict) (operation : string) : bool :=
  let op := lower (strip operation) in
  if decide (op = "") then true
  else if decide (op = "process") then bool_decide (lower_field "job_category" job = "process")
  else if bool_decide (op ∈ map fst PROCESS_TYPE_LABELS) then bool_decide (lower_field "process_id" job = op)
  else bool_decide (lower_field "job_category" job = op).

(** [datetime(y, m, d)]; [None] is [ValueError]. *)
Definition midnight (y m d : Z) : option datetime :=
  if date_valid (Date y m d) then Some (DT ((toordinal (Date y m d) - epoch_ord) * us_per_day) None)
  else None.

(** [s\[a:b\]] of a text of ASCII characters. *)
Definition substr (a b : nat) (s : string) : string := str_take (b - a) (str_drop a s).

(** [raw\[:-1\] + "+00:00"] when [raw] ends in ["Z"]. *)
Definition z_to_offset (raw : string) : string :=
  match String.rev raw with
  | String "Z" r => String.rev r +:+ "+00:00"
  | _ => raw
  end.

(** [_parse_job_time] *)
Definition parse_job_time (value : string) (end_of_day : bool) : option datetime :=
  if decide (strip value = "") then None
  else
    let raw := z_to_offset (strip value) in
    if (String.length raw =? 10)%nat && bool_decide (substr 4 5 raw = "-")
       && bool_decide (substr 7 8 raw = "-") then
      y ← py_int (substr 0 4 raw); m ← py_int (substr 5 7 raw); d ← py_int (substr 8 10 raw);
      dt ← midnight y m d;
      Some (if end_of_day then DT (dt_us dt + us (86399)) None else dt)
    else
      dt ← fromisoformat raw;
      Some (DT (dt_instant dt) None).

(** [_job_created_naive]; the field of a view is a text. *)
Definition job_created_naive (job : dict) : option datetime :=
  let raw := json_or (dget "created_at" job) (dget "updated_at" job) in
  if json_truthy raw then parse_job_time (json_str raw) false else None.

Definition job_in_time_range (job : dict) (since until : option datetime) : bool :=
  match since, until with
  | None, None => true
  | _, _ =>
      match job_created_naive job with
      | None => false
      | Some ts =>
          match since with Some s => dt_us s <=? dt_us ts | None => true end
          && match until with Some u => dt_us ts <=? dt_us u | None => true end
      end
  end.

(** [_filter_job_dicts] *)
Definition keep_job (status_filter coll operation : string) (since until : option datetime) (j : dict) :
  bool :=
  job_matches_status j status_filter
  && (bool_decide (strip coll = "") || job_matches_collection j (strip coll))
  && (bool_decide (operation = "") || job_matches_operation j operation)
  && job_in_time_range j since until.
Definition filter_job_dicts (jobs : list dict) (status_filter coll operation : string)
    (since until : option datetime) : list dict :=
  List.filter (keep_job status_filter coll operation since until) jobs.

(** ** The creation time of a view *)

Lemma dict_get_set_ne {A} f g (x : A) m : f <> g -> dict_get f (dict_set g x m) = dict_get f m.
Proof.
  intros Hfg. induction m as [|[k y] m IH]; cbn [dict_set dict_get].
  - by rewrite decide_False.
  - destruct (decide (g = k)) as [->|]; cbn [dict_get]; [by rewrite !decide_False by done|].
    case_decide; [done|]. apply IH.
Qed.

Lemma dget_set_ne f g x d : f <> g -> dget f (dict_set g x d) = dget f d.
Proof. intros Hfg. unfold dget. by rewrite dict_get_set_ne. Qed.

Lemma created_categorised d category label summary details name detail :
  dget "created_at" (categorised d category label summary details name detail) = dget "created_at" d.
Proof. unfold categorised. by rewrite !dget_set_ne. Qed.

Lemma created_process job meta d0 details d :
  process_view job meta d0 details = inr d -> dget "created_at" d = dget "created_at" d0.
Proof.
  unfold process_view. destruct (process_summary job _) as [e|s]; [done|]. intros [= <-].
  case_match; by rewrite !dget_set_ne.
Qed.

Lemma created_view job meta latest d :
  build_job_view_dict job meta latest = inr d ->
  dget "created_at" d = JStr (isoformat_z (created_at job)).
Proof.
  change (JStr (isoformat_z (created_at job))) with (dget "created_at" (to_dict job)).
  unfold build_job_view_dict. cbv zeta. generalize (base_details job (to_dict job)) as details.
  generalize (to_dict job) as d0. intros d0 details.
  repeat case_decide; try (intros [= <-]; apply created_categorised).
  destruct (is_process meta); [apply created_process|].
  case_match; intros [= <-]; apply created_categorised.
Qed.

Lemma pad_app n z s t : pad n z (s +:+ t) = pad n z s +:+ t.
Proof. revert z s. induction n as [|n IH]; intros z s; [done|]. cbn [pad]. by rewrite <-IH. Qed.

Lemma pad_length n z s : String.length (pad n z s) = (n + String.length s)%nat.
Proof.
  revert z s. induction n as [|n IH]; intros z s; [done|]. cbn [pad]. rewrite IH. cbn [String.length]. lia.
Qed.

Lemma iso_body_app us s t : iso_body us (s +:+ t) = iso_body us s +:+ t.
Proof.
  unfold iso_body. cbv zeta.
  case_match; repeat (rewrite <-?pad_app, <-?app_str_cons); done.
Qed.

Lemma iso_body_length us s : (String.length (iso_body us s) > 10)%nat.
Proof. unfold iso_body. cbv zeta. repeat (rewrite pad_length; cbn [String.length]). lia. Qed.

Lemma lstrip_iso_body us s : lstrip (iso_body us s) = iso_body us s.
Proof.
  unfold iso_body. cbv zeta. cbn [pad lstrip].
  set (z := year _ / 10 / 10 / 10 mod 10).
  assert (0 <= z < 10) as Hz by (apply Z.mod_pos_bound; lia).
  assert (py_space (digit_char z) = false) as ->; [|done].
  assert (z = 0 \/ z = 1 \/ z = 2 \/ z = 3 \/ z = 4 \/ z = 5 \/ z = 6 \/ z = 7 \/ z = 8 \/ z = 9)
    as Hc by lia.
  clearbody z. by destruct_or! Hc; subst z; vm_compute.
Qed.

Lemma rstrip_z s : rstrip (s +:+ "Z") = s +:+ "Z".
Proof.
  induction s as [|c s IH]; [done|]. rewrite app_str_cons. cbn [rstrip]. rewrite IH.
  destruct s; done.
Qed.

Lemma rev_app_app s t u : String.rev_app (s +:+ t) u = String.rev_app t (String.rev_app s u).
Proof. revert u. induction s as [|c s IH]; intros u; [done|]. rewrite app_str_cons. apply IH. Qed.
Lemma rev_app_rev s u v : String.rev_app (String.rev_app s u) v = String.rev_app u (s +:+ v).
Proof. revert u. induction s as [|c s IH]; intros u; [done|]. cbn [String.rev_app]. by rewrite IH. Qed.

Lemma z_to_offset_z s : z_to_offset (s +:+ "Z") = s +:+ "+00:00".
Proof.
  unfold z_to_offset. change (String.rev (s +:+ "Z")) with (String.rev_app (s +:+ "Z") "").
  rewrite rev_app_app. cbn [String.rev_app].
  change (String.rev (String.rev_app s "")) with (String.rev_app (String.rev_app s "") "").
  rewrite rev_app_rev. cbn [String.rev_app]. by rewrite app_str_nil_r.
Qed.

(** The time [to_dict] writes is read back only when it was naive. *)
Lemma parse_iso_z d :
  dt_range d -> (dt_tz d = None \/ dt_tz d = Some 0) ->
  parse_job_time (isoformat_z d) false = match dt_tz d with None => Some d | Some _ => None end.
Proof.
  intros Hr Htz. unfold parse_job_time, isoformat_z, isoformat_then.
  assert (strip (iso_body (dt_us d) (tz_isoformat (dt_tz d) +:+ "Z"))
          = iso_body (dt_us d) (tz_isoformat (dt_tz d)) +:+ "Z") as Hs.
  { unfold strip. by rewrite lstrip_iso_body, iso_body_app, rstrip_z. }
  pose proof (iso_body_length (dt_us d) (tz_isoformat (dt_tz d) +:+ "+00:00")) as Hlen.
  rewrite Hs, decide_False, z_to_offset_z, <-iso_body_app.
  - rewrite (proj2 (Nat.eqb_neq _ _)) by lia. cbn [andb].
    rewrite fromisoformat_iso_body; [|done|by destruct Htz as [-> | ->]].
    destruct d as [u tz]. cbn [dt_us dt_tz] in *. destruct Htz as [-> | ->]; [|done].
    change (read_tz _) with (Some (Some 0)). cbn [fmap option_fmap option_map mbind option_bind].
    unfold dt_instant. cbn [dt_us dt_tz default]. by rewrite Z.sub_0_r.
  - intros He. apply (f_equal String.length) in He. rewrite str_length_app in He. cbn in He. lia.
Qed.

(** ** Properties *)

(** What the bounds of the filter mean. *)
Definition within_bounds (t : Z) (since until : option datetime) : bool :=
  match since with Some s => dt_us s <=? t | None => true end
  && match until with Some u => t <=? dt_us u | None => true end.

Lemma range_of_view job meta latest d since until :
  build_job_view_dict job meta latest = inr d -> dt_range (created_at job) ->
  (dt_tz (created_at job) = None \/ dt_tz (created_at job) = Some 0) ->
  is_Some since \/ is_Some until ->
  job_in_time_range d since until =
  match dt_tz (created_at job) with
  | None => within_bounds (dt_us (created_at job)) since until
  | Some _ => false
  end.
Proof.
  intros Hd Hr Htz Hb. unfold job_in_time_range.
  assert (job_created_naive d = match dt_tz (created_at job) with
                                | None => Some (created_at job) | Some _ => None end) as Hc.
  { unfold job_created_naive. rewrite (created_view _ _ _ _ Hd). unfold json_or.
    assert (json_truthy (JStr (isoformat_z (created_at job))) = true) as ->; [|by apply parse_iso_z].
    cbn [json_truthy]. rewrite bool_decide_eq_false_2; [done|]. intros He.
    apply (f_equal String.length) in He. unfold isoformat_z, isoformat_then in He.
    pose proof (iso_body_length (dt_us (created_at job)) (tz_isoformat (dt_tz (created_at job)) +:+ "Z")).
    rewrite He in *. cbn in *. lia. }
  rewrite Hc. destruct since, until; try (by destruct (dt_tz (created_at job)));
    by destruct Hb as [[? ?]|[? ?]].
Qed.

(** The time filter selects jobs of the in-process store by their creation
    time: such times are naive, and the job passes exactly when the time is
    within the bounds that are given. *)
Theorem time_filter_naive_jobs (job : JobInfo) (meta : option (gmap string json)) (latest : bool)
    (d : dict) (since until : option datetime) :
  build_job_view_dict job meta latest = inr d -> dt_range (created_at job) ->
  dt_tz (created_at job) = None ->
  job_in_time_range d since until = within_bounds (dt_us (created_at job)) since until.
Proof.
  intros Hd Hr Htz. destruct since as [s|], until as [u|]; [| | |done];
    rewrite (range_of_view job meta latest d) by (eauto); by rewrite Htz.
Qed.

(** With the Redis back end the time filter hides every job: a stored job's
    times are aware, [to_dict] adds a ["Z"] to their offset, the parser rejects
    the text, and as soon as a bound is given the job is left out. *)
Theorem time_filter_hides_stored_jobs (t : Z) (job : JobInfo)
    (meta : option (gmap string json)) (latest : bool) (d : dict) (since until : option datetime) :
  created_at job = now_utc t -> dt_range (now_utc t) ->
  build_job_view_dict job meta latest = inr d -> is_Some since \/ is_Some until ->
  job_in_time_range d since until = false.
Proof.
  intros Hc Hr Hd Hb. rewrite (range_of_view job meta latest d since until); rewrite ?Hc; try done.
  by right.
Qed.

(** ** Witnesses *)

Definition view_of (job : JobInfo) : dict :=
  match build_job_view_dict job None false with inr d => d | inl _ => [] end.
Definition naive_job : JobInfo := new_job "j1" "roads" None None (us 60).
Definition aware_job : JobInfo := read_job naive_job.

Lemma time_filter_naive_jobs_witness :
  job_in_time_range (view_of naive_job) (Some (utcnow (us 50))) (Some (utcnow (us 70))) = true.
Proof.
  rewrite (time_filter_naive_jobs naive_job None false (view_of naive_job));
    [by vm_compute|reflexivity|by vm_compute|reflexivity].
Defined.

Lemma time_filter_hides_stored_jobs_witness :
  job_in_time_range (view_of aware_job) (Some (utcnow (us 50))) None = false.
Proof.
  apply (time_filter_hides_stored_jobs (us 60) aware_job None false (view_of aware_job));
    [reflexivity|by vm_compute|reflexivity|left; by eexists].
Defined.
