(* ===== verification/Jobs.v ===== *)
(** * Job endpoints (app/api/routes/jobs.py)

    Who may see a job, and how jobs are cancelled: one job, or all the active
    ones the caller sees.  An endpoint's [HTTPException] is the value [Refused].
    The listing endpoint is the composition of the job store's listings and the
    filters of JobDisplay.v; its HTML page and its access check on a collection
    belong to components that are not modelled. *)

From S2P Require Import Prelude PyTime Redis Postgres World Database Json Mutex JobStore Queue.
From S2P Require Import BulkQueue FinalizeQueue TileQueue SideQueues Partitions Staging.
From S2P Require Import FinalizeWorker BulkStorage ReadOnly Reconcile JobDisplay.

Inductive reply (A : Type) :=
  | Refused (code : Z) (detail : string)
  | Replied (a : A).
Arguments Refused {A} code detail.
Arguments Replied {A} a.

Definition ACTIVE_JOB_STATUSES : list string := ["pending"; "running"; "replacing"; "finalizing"].
Definition is_active_job (j : JobInfo) : bool := bool_decide (status j ∈ ACTIVE_JOB_STATUSES).

(** [_can_see_job]: a job without owner is for administrators only. *)
Definition can_see_job (owner : option Z) (u : User) : bool :=
  match owner with
  | None => is_admin u
  | Some o => bool_decide (user_id u = o) || is_admin u
  end.

(** The dictionary [cancel_job_record] returns. *)
Record CancelResult := Cancel {
  cr_job_id : string;
  cr_cancelled : bool;
  cr_status : string;
  cr_message : string
}.
Definition cancelled_result (id msg : string) : CancelResult := Cancel id true "cancelled" msg.

Section jobs.
Context `{RedisServer} `{PostgresServer} `{Entropy} (cfg : Settings).

(** [_is_latest_tile_build_job] *)
Definition is_latest_tile_build_job (id c : string) : M bool :=
  if decide (c = "") then mret false
  else try_except
    (latest ← get_latest_tile_build_job cfg c;
     mret (match latest with Some j => bool_decide (job_id j = id) | None => false end))
    (fun _ => mret false).

Definition set_cancelled (id msg : string) : M unit := update_job cfg id (up "cancelled" msg);; mret tt.

Definition stopping_message : string := "Cancellation requested — stopping soon…".

(** A bulk import that is still queued. *)
Definition cancel_queued_import (id : string) : M CancelResult :=
  sk ← get_bulk_import_storage_key cfg id;
  remove_bulk_job_from_redis_queue cfg id;;
  when (truthy sk)
    (try_pass (backend ← lift (get_bulk_storage cfg); storage_delete backend (opt_str sk)));;
  unregister_bulk_import_job cfg id;;
  set_cancelled id "Cancelled by user.";;
  mret (cancelled_result id "Bulk import cancelled before it started.").

(** A bulk import whose promotion is queued or running. *)
Definition cancel_finalizing (id : string) : M CancelResult :=
  remove_finalize_from_queue cfg id;;
  clear_finalize_pending cfg id;;
  try_pass (drop_staging_table_sync id);;
  unregister_bulk_import_job cfg id;;
  set_cancelled id "Cancelled during partition swap; staged data dropped.";;
  mret (cancelled_result id "Bulk finalize cancelled; staging table dropped.").

Definition request_stop (id reply_message : string) : M CancelResult :=
  set_cancelled id stopping_message;; mret (cancelled_result id reply_message).

(** The statuses in which a worker is at work on the job. *)
Definition loading_now (j : JobInfo) : bool := bool_decide (status j ∈ ["running"; "replacing"]).

(** [cancel_job_record], after the tile builds. *)
Definition cancel_other (j : JobInfo) : M CancelResult :=
  let id := job_id j in
  meta ← Process.get_process_job_meta cfg id;
  is_bulk ← is_registered_bulk_import_job cfg id;
  if decide (status j = "pending") then
    if (is_bulk : bool) then cancel_queued_import id
    else set_cancelled id "Cancelled by user.";; mret (cancelled_result id "Job cancelled.")
  else if loading_now j && is_bulk then request_stop id "Bulk import cancellation requested."
  else if bool_decide (status j = "finalizing") && is_bulk then cancel_finalizing id
  else if loading_now j && bool_decide (is_Some meta) then
    request_stop id "Process job cancellation requested."
  else if bool_decide (status j = "running") && bool_decide (opt_str (job_label j) = "property_index") then
    request_stop id "Property index job cancellation requested."
  else mret (Cancel id false (status j) "Job type or status cannot be cancelled from here.").

Definition skipped_result (j : JobInfo) : CancelResult :=
  Cancel (job_id j) false (status j) ("Skipped: job is " +:+ status j +:+ ".").

Definition cancel_job_record (j : JobInfo) : M CancelResult :=
  if negb (is_active_job j) then mret (skipped_result j)
  else
    latest ← is_latest_tile_build_job (job_id j) (collection_id j);
    if latest && bool_decide (status j ∈ ["pending"; "running"]) then
      clear_pending (collection_id j);;
      update_tile_build_job cfg (job_id j) (Some "cancelled") (Some "Cancelled by user.");;
      mret (cancelled_result (job_id j) "Tile build cancelled.")
    else cancel_other j.

(** ** Endpoints *)

Definition job_not_found {A} : reply A := Refused 404 "Job not found".

(** [POST /jobs/{job_id}/cancel] *)
Definition cancel_job (id : string) (u : User) : M (reply CancelResult) :=
  job ← get_job cfg id;
  match job with
  | None => mret job_not_found
  | Some j =>
      if negb (can_see_job (owner_id j) u) then mret job_not_found
      else
        r ← cancel_job_record j;
        if negb (cr_cancelled r) then
          mret (Refused 409 (str_or (cr_message r) ("Job is " +:+ status j +:+ "; cannot cancel.")))
        else mret (Replied (Cancel id true (cr_status r) (cr_message r)))
  end.

Definition tile_skipped (j : JobInfo) : CancelResult :=
  Cancel (job_id j) false (status j) "Skipped: tile build for collection already cancelled.".

(** The loop of [cancel_active_jobs]; [seen] is [seen_tile_collections]. *)
Fixpoint cancel_active_loop (u : User) (jobs : list JobInfo) (seen : list string) :
  M (list CancelResult) :=
  match jobs with
  | [] => mret []
  | j :: jobs' =>
      if negb (is_active_job j) || negb (can_see_job (owner_id j) u)
      then cancel_active_loop u jobs' seen
      else
        let c := collection_id j in
        latest ← is_latest_tile_build_job (job_id j) c;
        if latest && negb (bool_decide (c = "")) && bool_decide (c ∈ seen) then
          rest ← cancel_active_loop u jobs' seen;
          mret (tile_skipped j :: rest)
        else
          let seen := if latest && negb (bool_decide (c = "")) then c :: seen else seen in
          r ← cancel_job_record j;
          rest ← cancel_active_loop u jobs' seen;
          mret (r :: rest)
  end.

Record CancelReport := Report {
  cancelled_count : Z;
  skipped_count : Z;
  scanned_active : Z;
  cancel_results : list CancelResult;
  report_message : string
}.

Definition count_results (cancelled : bool) (l : list CancelResult) : Z :=
  Z.of_nat (length (List.filter (fun r => Bool.eqb (cr_cancelled r) cancelled) l)).

Definition owner_filter (u : User) : option Z := if is_admin u then None else Some (user_id u).

(** [POST /jobs/cancel-active] *)
Definition cancel_active_jobs (u : User) (limit : Z) : M CancelReport :=
  jobs ← list_all_jobs cfg limit (owner_filter u) 0;
  results ← cancel_active_loop u jobs [];
  let done := count_results true results in
  let skipped := count_results false results in
  mret (Report done skipped (Z.of_nat (length results)) results
    ("Cancelled " +:+ str_of_Z done +:+ " job(s)."
     +:+ (if skipped =? 0 then "" else " Skipped " +:+ str_of_Z skipped +:+ "."))).

(** [GET /jobs/{job_id}], the JSON answer. *)
Definition get_job_status (id : string) (u : User) : M (reply dict) :=
  job ← get_job cfg id;
  match job with
  | None => mret job_not_found
  | Some j =>
      if negb (can_see_job (owner_id j) u) then mret job_not_found
      else
        meta ← Process.get_process_job_meta cfg id;
        latest ← try_except
          (l ← get_latest_tile_build_job cfg (collection_id j);
           mret (match l with Some k => bool_decide (job_id k = job_id j) | None => false end))
          (fun _ => mret false);
        Replied <$> lift (build_job_view_dict j meta latest)
  end.

(** *** The listing *)

(** [_build_job_dicts] with the names [owner_names] of the owners, shown to
    administrators. *)
Definition owner_label (u : User) (owner_names : Z -> json) (j : JobInfo) : option json :=
  if is_admin u then
    Some (match owner_id j with Some o => owner_names o | None => JStr "(admin/legacy)" end)
  else None.

Fixpoint build_job_dicts (u : User) (owner_names : Z -> json) (jobs : list JobInfo) : M (list dict) :=
  match jobs with
  | [] => mret []
  | j :: jobs' =>
      meta ← Process.get_process_job_meta cfg (job_id j);
      latest ← get_latest_tile_build_job cfg (collection_id j);
      let is_latest := match latest with Some k => bool_decide (job_id k = job_id j) | None => false end in
      d ← lift (job_dict j meta is_latest (owner_label u owner_names j));
      rest ← build_job_dicts u owner_names jobs';
      mret (d :: rest)
  end.

Record JobPage := Page {
  page_jobs : list dict;
  number_matched : Z;
  number_returned : Z
}.
Definition page_of (filtered : list dict) (limit offset : Z) : JobPage :=
  let page := py_slice filtered offset (offset + limit) in
  Page page (Z.of_nat (length filtered)) (Z.of_nat (length page)).

(** [GET /jobs] without a collection: the JSON answer. *)
Definition list_jobs (u : User) (owner_names : Z -> json) (limit offset : Z)
    (status_filter collection_q operation : string) (since until : option datetime) : M JobPage :=
  raw ← list_all_jobs_unpaginated cfg (owner_filter u) 5000;
  jobs ← build_job_dicts u owner_names raw;
  mret (page_of (filter_job_dicts jobs status_filter collection_q operation since until) limit offset).

(** [GET /jobs?collection_id=...]: [has_filters] tells that a filter is given. *)
Definition list_collection_jobs (u : User) (owner_names : Z -> json) (c : string) (limit offset : Z)
    (has_filters : bool) (status_filter operation : string) (since until : option datetime) : M JobPage :=
  let fetch_limit := if has_filters then 500 else Z.min (limit + offset) 200 in
  jobs ← list_jobs_for_collection cfg c fetch_limit (owner_filter u);
  jobs ← build_job_dicts u owner_names jobs;
  mret (page_of (filter_job_dicts jobs status_filter "" operation since until) limit offset).
End jobs.

(** ** Every value a computation can return *)

Definition returns {A} (P : A -> Prop) (m : M A) : Prop := forall w a w', m w = (inr a, w') -> P a.

Lemma returns_ret {A} (P : A -> Prop) a : P a -> returns P (mret a).
Proof. intros Ha w x w'. rewrite ret_run. by intros [= <- _]. Qed.
Lemma returns_bind {A B} (P : B -> Prop) (m : M A) (f : A -> M B) :
  (forall a, returns P (f a)) -> returns P (m ≫= f).
Proof. intros Hf w b w' Hm. apply bind_inv in Hm as (a & w1 & _ & Hr). by eapply Hf. Qed.
Lemma returns_if {A} (P : A -> Prop) (b : bool) (m1 m2 : M A) :
  returns P m1 -> returns P m2 -> returns P (if b then m1 else m2).
Proof. by destruct b. Qed.

Section results.
Context `{RedisServer} `{PostgresServer} `{Entropy} (cfg : Settings).

(** The result speaks of the job, and says "cancelled" only of active jobs. *)
Definition result_of (j : JobInfo) (r : CancelResult) : Prop :=
  cr_job_id r = job_id j /\ (cr_cancelled r = true -> cr_status r = "cancelled" /\ is_active_job j = true).

Lemma cancel_record_result j : returns (result_of j) (cancel_job_record cfg j).
Proof.
  unfold cancel_job_record. destruct (is_active_job j) eqn:Ha; cbn [negb]; [|by apply returns_ret].
  assert (forall msg, result_of j (cancelled_result (job_id j) msg)) as Hc by done.
  assert (forall msg, result_of j (Cancel (job_id j) false (status j) msg)) as Hn by done.
  apply returns_bind. intros latest. apply returns_if.
  { do 2 (apply returns_bind; intros _). by apply returns_ret. }
  unfold cancel_other, cancel_queued_import, cancel_finalizing, request_stop.
  apply returns_bind. intros meta. apply returns_bind. intros bulk.
  case_decide; repeat (apply returns_if || apply returns_bind || (apply returns_ret; done) || intros ?).
Qed.

(** The result is about one of the jobs, active and visible to the caller. *)
Definition result_from (u : User) (jobs : list JobInfo) (r : CancelResult) : Prop :=
  exists j, j ∈ jobs /\ is_active_job j = true /\ can_see_job (owner_id j) u = true /\ result_of j r.

Lemma results_cons u j jobs l :
  Forall (result_from u jobs) l -> Forall (result_from u (j :: jobs)) l.
Proof.
  intros Hl. eapply Forall_impl; [exact Hl|]. intros r (k & Hk & Hr). exists k. split; [by right|done].
Qed.

Lemma cancel_loop_results u jobs seen :
  returns (Forall (result_from u jobs)) (cancel_active_loop cfg u jobs seen).
Proof.
  revert seen. induction jobs as [|j jobs IH]; intros seen; [by apply returns_ret|].
  cbn [cancel_active_loop]. destruct (is_active_job j) eqn:Ha; cbn [negb orb].
  2: { intros w rs w' Hr. by eapply results_cons, IH. }
  destruct (can_see_job (owner_id j) u) eqn:Hs; cbn [negb].
  2: { intros w rs w' Hr. by eapply results_cons, IH. }
  apply returns_bind. intros latest. apply returns_if; intros w rs w' Hr.
  - apply bind_inv in Hr as (rest & w1 & Hr & Hm). injection Hm as <- _.
    constructor; [|by eapply results_cons, IH]. exists j. split; [by left|done].
  - apply bind_inv in Hr as (r & w1 & Hr & Hm). apply bind_inv in Hm as (rest & w2 & Hl & Hm).
    injection Hm as <- _. constructor; [|by eapply results_cons, IH]. exists j. split; [by left|].
    split; [done|]. split; [done|]. by eapply cancel_record_result.
Qed.
End results.

Lemma count_results_add l :
  count_results true l + count_results false l = Z.of_nat (length l).
Proof.
  unfold count_results. induction l as [|r l IH]; [done|]. cbn [List.filter length].
  destruct (cr_cancelled r); cbn [Bool.eqb length] in *; lia.
Qed.

(** ** Cancelling in a quiet world *)

(** A stored bulk import the caller sees, registered with the upload [key]. *)
Record cancellable (w : world) (j : JobInfo) (u : User) (key : string) : Prop := {
  ca_quiet : quiet w;
  ca_job : job_stored (w_now w) (w_redis w) (job_id j) j;
  ca_visible : can_see_job (owner_id j) u = true;
  ca_no_tiles : as_str (w_now w) (w_redis w) (latest_key (collection_id j)) = inr None;
  ca_no_process : as_hash (w_now w) (w_redis w) (Process.meta_key (job_id j)) = inr ∅;
  ca_registered : as_str (w_now w) (w_redis w) (reg_key (job_id j)) = inr (Some key);
  ca_typed : lock_typed (w_now w) (w_redis w) (collection_id j);
  ca_now : dt_range (utcnow (w_now w));
  ca_collection : collection_id j <> ""
}.

(** What remains of a cancelled job. *)
Record job_cancelled (w' : world) (j : JobInfo) : Prop := {
  jc_job : exists j', job_stored (w_now w') (w_redis w') (job_id j) j' /\ status j' = "cancelled"
             /\ is_Some (finished_at j');
  jc_unregistered : peek (w_now w') (w_redis w') (reg_key (job_id j)) = None;
  jc_unlocked : fst <$> lock_of (w_now w') (w_redis w') (collection_id j) <> Some (job_id j)
}.

Section cancel_lemmas.
Context `{RedisLaws} `{PostgresLaws} `{Entropy} (cfg : Settings) (Hredis : is_redis cfg = true).

Lemma get_run w k v :
  quiet w -> as_str (w_now w) (w_redis w) k = inr v -> redis (Get k) w = (inr v, w).
Proof.
  intros Hq Hk. erewrite redis_ok; [|done|autorewrite with redis_exec; rewrite Hk; reflexivity].
  by rewrite with_redis_same.
Qed.

Lemma not_latest_tile w id c :
  quiet w -> as_str (w_now w) (w_redis w) (latest_key c) = inr None ->
  is_latest_tile_build_job cfg id c w = (inr false, w).
Proof.
  intros Hq Hk. unfold is_latest_tile_build_job. case_decide; [done|].
  apply try_except_ok. unfold get_latest_tile_build_job. by rewrite bind_run, bind_run, (get_run _ _ None).
Qed.

Lemma no_meta w id :
  quiet w -> as_hash (w_now w) (w_redis w) (Process.meta_key id) = inr ∅ ->
  Process.get_process_job_meta cfg id w = (inr None, w).
Proof.
  intros Hq Hk. unfold Process.get_process_job_meta. destruct (negb _); [done|].
  apply try_except_ok. erewrite bind_redis; [|done|autorewrite with redis_exec; rewrite Hk; reflexivity].
  rewrite with_redis_same. by rewrite decide_True.
Qed.

Lemma storage_key_run w id key :
  quiet w -> as_str (w_now w) (w_redis w) (reg_key id) = inr (Some key) ->
  get_bulk_import_storage_key cfg id w = (inr (Some key), w).
Proof.
  intros Hq Hk. unfold get_bulk_import_storage_key. rewrite Hredis. apply try_except_ok.
  by apply get_run.
Qed.

Lemma cancel_reaches w j u key :
  cancellable w j u key -> is_active_job j = true ->
  cancel_job_record cfg j w =
  (if decide (status j = "pending") then cancel_queued_import cfg (job_id j) w
   else if loading_now j then request_stop cfg (job_id j) "Bulk import cancellation requested." w
   else cancel_finalizing cfg (job_id j) w).
Proof.
  intros Hc Ha. pose proof (ca_quiet _ _ _ _ Hc) as Hq. unfold cancel_job_record. rewrite Ha. cbn [negb].
  rewrite bind_run, not_latest_tile by (done || apply Hc). cbn [andb].
  unfold cancel_other. rewrite bind_run, no_meta by (done || apply Hc).
  unfold is_registered_bulk_import_job. rewrite bind_run, bind_run, (storage_key_run _ _ key)
    by (done || apply Hc). rewrite ret_run, bool_decide_eq_true_2 by done.
  case_decide as Hp; [done|]. rewrite andb_true_r. destruct (loading_now j) eqn:Hl; [done|].
  assert (status j = "finalizing") as ->; [|done].
  unfold is_active_job, loading_now, ACTIVE_JOB_STATUSES in *. apply bool_decide_eq_true in Ha.
  apply bool_decide_eq_false in Hl. repeat rewrite elem_of_cons in Ha. repeat rewrite elem_of_cons in Hl.
  rewrite elem_of_nil in Ha. tauto.
Qed.

Lemma cancel_job_run w j u key msg w' :
  cancellable w j u key -> cancel_job_record cfg j w = (inr (cancelled_result (job_id j) msg), w') ->
  cancel_job cfg (job_id j) u w = (inr (Replied (cancelled_result (job_id j) msg)), w').
Proof.
  intros Hc Hr. unfold cancel_job.
  rewrite bind_run, (get_job_quiet cfg Hredis _ _ j) by apply Hc. rewrite (ca_visible _ _ _ _ Hc).
  cbn [negb]. by rewrite bind_run, Hr.
Qed.

(** The last two steps of every cancellation of an import. *)
Lemma unregister_and_cancel w j msg :
  quiet w -> job_stored (w_now w) (w_redis w) (job_id j) j ->
  lock_typed (w_now w) (w_redis w) (collection_id j) -> dt_range (utcnow (w_now w)) ->
  collection_id j <> "" ->
  exists ks', (unregister_bulk_import_job cfg (job_id j);; set_cancelled cfg (job_id j) msg) w
    = (inr tt, with_redis w ks')
    /\ job_cancelled (with_redis w ks') j
    /\ (forall k, k <> redis_key (job_id j) -> k <> mutex_key (collection_id j) ->
          k <> reg_key (job_id j) -> ks' !! k = w_redis w !! k).
Proof.
  intros Hq Hj Ht Hnow Hc. set (ks1 := delete (reg_key (job_id j)) (w_redis w)).
  assert (job_stored (w_now w) ks1 (job_id j) j) as Hj1.
  { eapply job_stored_frame; [|exact Hj]. apply lookup_delete_ne. by key_neq. }
  destruct (lock_frame (w_now w) (w_redis w) ks1 (collection_id j)) as [_ Ht1].
  { apply lookup_delete_ne. by key_neq. }
  destruct (update_step cfg Hredis (with_redis w ks1) (job_id j) (up "cancelled" msg) j)
    as (ks2 & Hu & Hj2 & _ & Hf & _ & Hfree & _); try done.
  { by apply Ht1. }
  rewrite with_redis_twice in Hu. cbn [with_redis w_now w_redis] in *.
  exists ks2. split; [|split; [split; cbn [with_redis w_now w_redis]|]].
  - unfold unregister_bulk_import_job. rewrite Hredis, bind_run, try_pass_run, del_quiet by done.
    unfold set_cancelled. cbn [snd foldr]. fold ks1. by rewrite bind_run, Hu.
  - eexists. split; [exact Hj2|]. split; [done|]. cbn. destruct (finished_at j); by eexists.
  - unfold peek. rewrite Hf by by key_neq. unfold ks1. by rewrite lookup_delete_eq.
  - by apply (Hfree "cancelled").
  - intros k K1 K2 K3. rewrite Hf by done. by apply lookup_delete_ne.
Qed.

Lemma closing_steps {B} w j msg (r : B) ks' :
  (unregister_bulk_import_job cfg (job_id j);; set_cancelled cfg (job_id j) msg) w
    = (inr tt, with_redis w ks') ->
  (unregister_bulk_import_job cfg (job_id j);; set_cancelled cfg (job_id j) msg;; mret r) w
    = (inr r, with_redis w ks').
Proof.
  intros Hr. etransitivity; [symmetry; apply (bind_assoc (unregister_bulk_import_job cfg (job_id j))
    (fun _ => set_cancelled cfg (job_id j) msg) (fun _ => mret r))|]. by rewrite bind_run, Hr.
Qed.

Lemma queued_import_cancelled w j u key base path l :
  cancellable w j u key -> key <> "" ->
  get_bulk_storage cfg = inr (Filesystem.backend base) -> Filesystem.path_of base key = inr path ->
  queue_of (w_now w) (w_redis w) = inr l ->
  exists w', cancel_queued_import cfg (job_id j) w =
      (inr (cancelled_result (job_id j) "Bulk import cancelled before it started."), w')
    /\ job_cancelled w' j
    /\ queue_of (w_now w') (w_redis w') = inr (default l (without_job (job_id j) l))
    /\ w_files w' = delete path (w_files w) /\ w_db w' = w_db w.
Proof.
  intros Hc Hkey Hst Hpath Hl. pose proof (ca_quiet _ _ _ _ Hc) as Hq.
  destruct (remove_queued_run cfg Hredis w (job_id j) l Hq Hl) as (ks1 & Hrm & Hl1 & Hf1).
  set (w1 := with_files (with_redis w ks1) (delete path (w_files w))).
  destruct (unregister_and_cancel w1 j "Cancelled by user.") as (ks2 & Hrun & Hcan & Hf2);
    cbn [w1 with_files with_services with_redis w_now w_redis].
  - done.
  - eapply job_stored_frame; [apply Hf1; by key_neq|apply Hc].
  - eapply lock_frame; [apply Hf1; by key_neq|apply Hc].
  - apply Hc.
  - apply Hc.
  - exists (with_redis w1 ks2). split; [|split; [done|split; [|done]]].
    + unfold cancel_queued_import. rewrite bind_run, (storage_key_run _ _ key) by (done || apply Hc).
      rewrite bind_run, Hrm. cbn [truthy opt_str default]. rewrite bool_decide_eq_false_2 by done.
      cbn [negb when]. rewrite bind_run. unfold try_pass at 1.
      rewrite (try_except_ok _ _ _ tt w1); [by apply closing_steps|].
      by rewrite bind_run, lift_run, Hst, (storage_delete_run base key path).
    + rewrite <-Hl1. apply queue_frame. apply Hf2; by key_neq.
Qed.

Lemma finalizing_cancelled w j u key t l :
  cancellable w j u key -> db_quiet w -> is_attached (w_db w) (staging_table_name (job_id j)) = false ->
  db_tables (w_db w) !! staging_table_name (job_id j) = Some t ->
  finalize_queue_of (w_now w) (w_redis w) = inr l ->
  exists w', cancel_finalizing cfg (job_id j) w =
      (inr (cancelled_result (job_id j) "Bulk finalize cancelled; staging table dropped."), w')
    /\ job_cancelled w' j /\ quiet w' /\ db_quiet w'
    /\ w_db w' = drop_table (w_db w) (staging_table_name (job_id j))
    /\ finalize_queue_of (w_now w') (w_redis w')
       = inr (List.filter (fun p => negb (finalize_entry_of (job_id j) p)) l)
    /\ finalize_pending (w_now w') (w_redis w') (job_id j) = false.
Proof.
  intros Hc Hdq Ha Ht Hl. pose proof (ca_quiet _ _ _ _ Hc) as Hq.
  destruct (remove_finalize_run cfg Hredis w (job_id j) l Hq Hl) as (ks1 & Hrm & Hl1 & Hf1).
  set (ks2 := delete (dedupe_key (job_id j)) (delete (state_key (job_id j)) ks1)).
  set (w1 := with_db (with_redis w ks2) (drop_table (w_db w) (staging_table_name (job_id j)))).
  assert (forall k, k <> FINALIZE_QUEUE_KEY -> k <> dedupe_key (job_id j) -> k <> state_key (job_id j) ->
    ks2 !! k = w_redis w !! k) as Hf2.
  { intros k K1 K2 K3. unfold ks2. rewrite !lookup_delete_ne by done. by apply Hf1. }
  destruct (unregister_and_cancel w1 j "Cancelled during partition swap; staged data dropped.")
    as (ks3 & Hrun & Hcan & Hf3); cbn [w1 with_db with_services with_redis w_now w_redis].
  - done.
  - eapply job_stored_frame; [apply Hf2; by key_neq|apply Hc].
  - eapply lock_frame; [apply Hf2; by key_neq|apply Hc].
  - apply Hc.
  - apply Hc.
  - exists (with_redis w1 ks3). split; [|split; [done|split; [done|split; [done|split; [done|split]]]]].
    + unfold cancel_finalizing. rewrite bind_run, Hrm. unfold clear_finalize_pending.
      rewrite Hredis. cbn [negb]. rewrite bind_run, try_pass_run, del_quiet by done.
      cbn [snd foldr]. rewrite with_redis_twice. rewrite bind_run, try_pass_run.
      rewrite (drop_staging_run _ _ t) by done. cbn [snd]. by apply closing_steps.
    + rewrite <-Hl1. apply queue_frame. cbn [with_redis w_redis]. rewrite Hf3 by by key_neq.
      cbn [w1 with_db with_services with_redis w_redis]. unfold ks2. rewrite !lookup_delete_ne by by key_neq. done.
    + unfold finalize_pending, peek. cbn [with_redis w_redis]. rewrite Hf3 by by key_neq.
      cbn [w1 with_db with_services with_redis w_redis]. unfold ks2. by rewrite lookup_delete_eq.
Qed.

(** A promotion that was taken from the queue before its job was cancelled. *)
Lemma late_promotion_ignored (recompute_extent : string -> M unit) w p j :
  quiet w -> db_quiet w -> job_stored (w_now w) (w_redis w) (fp_job_id p) j -> status j = "cancelled" ->
  has_table (w_db w) (staging_table_name (fp_job_id p)) = false ->
  exists w', process_bulk_finalize_job cfg recompute_extent p w = (inr tt, w') /\ w_db w' = w_db w.
Proof.
  intros Hq Hdq Hj Hs Ht. unfold process_bulk_finalize_job.
  rewrite bind_run, (get_job_quiet cfg Hredis _ _ j) by done. cbn [is_cancelled].
  rewrite Hs. cbn [bool_decide]. rewrite bool_decide_eq_true_2 by done.
  eexists. rewrite bind_run. unfold drop_staging_table_sync.
  rewrite (transaction_same _ _ tt); [|done|].
  - split; [by apply close_quiet|done].
  - apply stmt_ok; [done|]. cbn [sql_run]. by rewrite Ht.
Qed.
End cancel_lemmas.

(** ** Properties *)

(** A job of someone else is as good as missing: when the job is unknown, or
    the caller is neither its owner nor an administrator, cancelling it and
    asking for its status both answer 404 with the same text, and do nothing
    after the lookup, whatever the schedule. *)
Theorem hidden_job_not_found `{RedisServer} `{PostgresServer} `{Entropy} (cfg : Settings) (id : string)
    (u : User) (w w' : world) (found : option JobInfo) :
  get_job cfg id w = (inr found, w') ->
  (forall j, found = Some j -> can_see_job (owner_id j) u = false) ->
  cancel_job cfg id u w = (inr job_not_found, w')
  /\ get_job_status cfg id u w = (inr job_not_found, w').
Proof.
  intros Hg Hs. unfold cancel_job, get_job_status. rewrite !bind_run, Hg.
  destruct found as [j|]; [|done]. by rewrite (Hs j eq_refl).
Qed.

(** Cancelling in bulk stays within the caller's jobs: whatever the schedule,
    every result the endpoint reports is about an active job of the listing that
    the caller may see, only such jobs are reported as cancelled, and the counts
    of cancelled and skipped jobs add up to the number of results. *)
Theorem cancel_active_confined `{RedisServer} `{PostgresServer} `{Entropy} (cfg : Settings) (u : User)
    (limit : Z) (w w' : world) (rep : CancelReport) :
  cancel_active_jobs cfg u limit w = (inr rep, w') ->
  (exists jobs w1, list_all_jobs cfg limit (owner_filter u) 0 w = (inr jobs, w1)
     /\ Forall (result_from u jobs) (cancel_results rep))
  /\ cancelled_count rep + skipped_count rep = scanned_active rep
  /\ scanned_active rep = Z.of_nat (length (cancel_results rep)).
Proof.
  intros Hr. apply bind_inv in Hr as (jobs & w1 & Hl & Hr).
  apply bind_inv in Hr as (rs & w2 & Hc & Hr). injection Hr as <- _.
  split; [|split; [apply count_results_add|done]]. exists jobs, w1. split; [done|].
  by eapply cancel_loop_results.
Qed.

(** C18. Cancelling a queued import undoes the upload: for a pending import the
    caller sees, in a quiet world, the answer is "cancelled", the job's first
    entry is taken from the queue and no other, the uploaded file is deleted,
    the job is unregistered and stored as cancelled with a finish time, it does
    not hold its collection, and the database is as it was. *)
Theorem cancel_queued_job `{RedisLaws} `{PostgresLaws} `{Entropy} (cfg : Settings) (w : world)
    (j : JobInfo) (u : User) (key base path : string) (l : list string) :
  is_redis cfg = true -> cancellable w j u key -> status j = "pending" -> key <> "" ->
  get_bulk_storage cfg = inr (Filesystem.backend base) -> Filesystem.path_of base key = inr path ->
  queue_of (w_now w) (w_redis w) = inr l ->
  exists w', cancel_job cfg (job_id j) u w =
      (inr (Replied (cancelled_result (job_id j) "Bulk import cancelled before it started.")), w')
    /\ job_cancelled w' j
    /\ queue_of (w_now w') (w_redis w') = inr (default l (without_job (job_id j) l))
    /\ w_files w' = delete path (w_files w) /\ w_db w' = w_db w.
Proof.
  intros Hr Hc Hs Hkey Hst Hp Hl.
  destruct (queued_import_cancelled cfg Hr w j u key base path l) as (w' & Hrun & Hrest); try done.
  exists w'. split; [|done]. eapply cancel_job_run; [done..|].
  rewrite (cancel_reaches cfg Hr w j u key); [|done|unfold is_active_job; by rewrite Hs].
  by rewrite decide_True.
Qed.

(** C17. Cancelling a promotion publishes nothing: for an import whose promotion
    is queued, in a quiet world, cancelling drops the staging table and leaves
    the live rows of every collection as they were, takes all the job's entries
    from the promotion queue and clears its pending mark; and a promotion of
    the job that a worker had already taken from the queue then ends without
    changing the database. *)
Theorem cancel_finalizing_job `{RedisLaws} `{PostgresLaws} `{Entropy} (cfg : Settings)
    (recompute_extent : string -> M unit) (w : world) (j : JobInfo) (u : User) (key : string)
    (t : table) (l : list string) :
  is_redis cfg = true -> cancellable w j u key -> status j = "finalizing" -> db_quiet w ->
  is_attached (w_db w) (staging_table_name (job_id j)) = false ->
  db_tables (w_db w) !! staging_table_name (job_id j) = Some t ->
  finalize_queue_of (w_now w) (w_redis w) = inr l ->
  exists w', cancel_job cfg (job_id j) u w =
      (inr (Replied (cancelled_result (job_id j) "Bulk finalize cancelled; staging table dropped.")), w')
    /\ job_cancelled w' j
    /\ db_tables (w_db w') !! staging_table_name (job_id j) = None
    /\ (forall c, live_rows (w_db w') c = live_rows (w_db w) c)
    /\ finalize_queue_of (w_now w') (w_redis w')
       = inr (List.filter (fun p => negb (finalize_entry_of (job_id j) p)) l)
    /\ finalize_pending (w_now w') (w_redis w') (job_id j) = false
    /\ (forall p, fp_job_id p = job_id j ->
          exists w2, process_bulk_finalize_job cfg recompute_extent p w' = (inr tt, w2) /\ w_db w2 = w_db w').
Proof.
  intros Hr Hc Hs Hdq Ha Ht Hl.
  destruct (finalizing_cancelled cfg Hr w j u key t l) as (w' & Hrun & Hcan & Hq' & Hdq' & Hdb & Hl' & Hp');
    try done.
  exists w'. split; [|split; [done|split; [|split; [|split; [done|split; [done|]]]]]].
  - eapply cancel_job_run; [done..|].
    rewrite (cancel_reaches cfg Hr w j u key); [|done|unfold is_active_job; by rewrite Hs].
    rewrite decide_False by (by rewrite Hs). unfold loading_now. by rewrite Hs.
  - rewrite Hdb. rewrite drop_table_tables. apply lookup_delete_eq.
  - intros c. rewrite Hdb. by apply live_rows_drop_unattached.
  - intros p Hid. destruct (jc_job _ _ Hcan) as (j' & Hj' & Hs' & _).
    apply (late_promotion_ignored cfg Hr recompute_extent w' p j'); rewrite ?Hid; try done.
    rewrite Hdb. unfold has_table. rewrite drop_table_tables, lookup_delete_eq. done.
Qed.

(** A registered import of user 7 in the state [ks], and the users. *)
Definition registered (ks : keyspace) : keyspace := put ks (reg_key "j1") (VStr "u1/a.geojsonl") None.
Definition owner_user : User := mkUser 7 "ana" false "" false None.
Definition finalizing_world : world :=
  with_redis (with_db demo_world staged_db) (registered stuck_ks).

(** Cancelling after the swap destroys the collection: a replacing promotion
    makes the staging table the live partition under its staging name, and a
    cancel that arrives before the job is set to ["completed"] drops it. *)
Theorem cancel_after_swap_drops_rows :
  exists w1 w2 r,
    @promote_staging_sync reference_postgres default_settings "roads" "j1" "replace" finalizing_world
    = (inr 2, w1)
    /\ live_rows (w_db w1) "roads" = t_rows new_roads
    /\ @cancel_job reference_server reference_postgres reference_entropy default_settings "j1"
         owner_user w1 = (inr (Replied r), w2)
    /\ live_rows (w_db w2) "roads" = [].
Proof.
  eexists _, _, _. split; [apply run_fst; vm_compute; reflexivity|].
  split; [vm_compute; reflexivity|]. split; [apply run_fst; vm_compute; reflexivity|].
  vm_compute. reflexivity.
Qed.

(** ** Witnesses *)

Definition other_user : User := mkUser 8 "bo" false "" false None.

Lemma hidden_job_not_found_witness :
  @cancel_job reference_server reference_postgres reference_entropy default_settings "j1" other_user
    demo_world = (inr job_not_found, demo_world)
  /\ @get_job_status reference_server reference_entropy default_settings "j1" other_user
    demo_world = (inr job_not_found, demo_world).
Proof.
  apply (@hidden_job_not_found reference_server reference_postgres reference_entropy default_settings
    "j1" other_user demo_world demo_world (Some pending_job)).
  - apply (@get_job_quiet reference_server reference_laws reference_entropy); [reflexivity..|exact demo_stored].
  - intros j [= <-]. reflexivity.
Defined.

Definition queued_world : world :=
  with_redis demo_world
    (put_keep (us 60) (registered (w_redis demo_world)) QUEUE_KEY
       (VList [to_json demo_payload; "{"])).

Lemma registered_peek ks k : k <> reg_key "j1" -> registered ks !! k = ks !! k.
Proof. intros Hk. unfold registered, put. by rewrite lookup_insert_ne. Qed.

Lemma queued_cancellable : cancellable queued_world pending_job owner_user "u1/a.geojsonl".
Proof.
  assert (forall k, k <> QUEUE_KEY -> k <> reg_key "j1" ->
    w_redis queued_world !! k = w_redis demo_world !! k) as Hf.
  { intros k K1 K2. unfold queued_world. cbn [with_redis w_redis]. unfold put_keep, put.
    rewrite lookup_insert_ne by done. by apply registered_peek. }
  split; [done| |reflexivity|by vm_compute|by vm_compute|by vm_compute| |by vm_compute|done].
  - eapply job_stored_frame; [apply Hf; by key_neq|exact demo_stored].
  - eapply lock_frame; [apply Hf; by key_neq|exact demo_lock_typed].
Qed.

Lemma cancel_active_confined_witness :
  exists rep w', @cancel_active_jobs reference_server reference_postgres reference_entropy
      default_settings owner_user 200 queued_world = (inr rep, w')
    /\ cancelled_count rep = 1
    /\ cancelled_count rep + skipped_count rep = scanned_active rep.
Proof.
  eexists _, _. split; [apply run_fst; vm_compute; reflexivity|]. split; [by vm_compute|].
  eapply (@cancel_active_confined reference_server reference_postgres reference_entropy
    default_settings owner_user 200 queued_world).
  apply run_fst. vm_compute. reflexivity.
Defined.

Lemma cancel_queued_job_witness :
  exists w', @cancel_job reference_server reference_postgres reference_entropy default_settings "j1"
      owner_user queued_world =
      (inr (Replied (cancelled_result "j1" "Bulk import cancelled before it started.")), w')
    /\ job_cancelled w' pending_job
    /\ queue_of (w_now w') (w_redis w') =
       inr (default [to_json demo_payload; "{"] (without_job "j1" [to_json demo_payload; "{"]))
    /\ w_files w' = delete "/data/bulk-uploads/u1/a.geojsonl" (w_files queued_world)
    /\ w_db w' = w_db queued_world.
Proof.
  apply (@cancel_queued_job reference_server reference_laws reference_postgres reference_postgres_laws
    reference_entropy default_settings queued_world pending_job owner_user "u1/a.geojsonl"
    "/data/bulk-uploads" "/data/bulk-uploads/u1/a.geojsonl" [to_json demo_payload; "{"]);
    [reflexivity|exact queued_cancellable|reflexivity|done|reflexivity|reflexivity|by vm_compute].
Defined.

Lemma finalizing_cancellable : cancellable finalizing_world stuck_job owner_user "u1/a.geojsonl".
Proof.
  split; [done| |reflexivity|by vm_compute|by vm_compute|by vm_compute| |by vm_compute|done].
  - eapply job_stored_frame; [apply registered_peek; by key_neq|exact stuck_stored].
  - intros v. by vm_compute.
Qed.

Lemma cancel_finalizing_job_witness :
  exists w', @cancel_job reference_server reference_postgres reference_entropy default_settings "j1"
      owner_user finalizing_world =
      (inr (Replied (cancelled_result "j1" "Bulk finalize cancelled; staging table dropped.")), w')
    /\ (forall c, live_rows (w_db w') c = live_rows staged_db c).
Proof.
  destruct (@cancel_finalizing_job reference_server reference_laws reference_postgres
    reference_postgres_laws reference_entropy default_settings (fun _ => mret tt) finalizing_world
    stuck_job owner_user "u1/a.geojsonl" new_roads []) as (w' & Hrun & _ & _ & Hl & _);
    [reflexivity|exact finalizing_cancellable|reflexivity|reflexivity|by vm_compute|by vm_compute
    |by vm_compute|].
  exists w'. exact (conj Hrun Hl).
Defined.
