(* ===== verification/FinalizeMain.v ===== *)
(** * The promotion worker's process (app/finalize_worker_main.py)

    One turn of the loop of [main]: the watchdog pass when it is due, a blocking
    pop of the promotion queue, one promotion, and its requeue when it raises.
    A turn that raises ends the process.  The blocking pop answers nothing when
    its timeout passes; the connection object is not modelled. *)

From S2P Require Import Prelude PyTime Redis Postgres World Database Json Mutex JobStore Queue.
From S2P Require Import BulkQueue FinalizeQueue Partitions Staging FinalizeWorker Reconcile Watchdog.

(** The local variables of [main] that outlive a turn. *)
Record FinalizeLoop := Loop { redis_failures : Z; last_watchdog : Z }.

Definition is_key_error (e : exn) : bool := match e with KeyError _ => true | _ => false end.

(** [except (json.JSONDecodeError, KeyError)]: a text that is not JSON, or a
    missing key. *)
Definition invalid_payload (raw : string) (e : exn) : bool :=
  match loads raw with None => true | Some _ => is_key_error e end.

Section finalize_main.
Context `{RedisServer} `{PostgresServer} `{Entropy} (cfg : Settings).
Context (recompute_extent : string -> M unit).

Definition watchdog_interval : Z :=
  Z.max (us 30) (int_or (bulk_finalize_watchdog_interval_seconds cfg) (us 60)).

(** The wait after the [n]-th failure of the pop in a row. *)
Definition consumer_backoff (n : Z) : M unit :=
  sleep_retry n (Z.max 100000 (int_or (redis_retry_base_seconds cfg) (us 1)))
    (Z.max (us 1) (int_or (redis_retry_max_seconds cfg) (us 30))).

(** The watchdog pass at the head of a turn; its errors are printed. *)
Definition watchdog_turn (st : FinalizeLoop) : M FinalizeLoop :=
  now ← get_now;
  if watchdog_interval <=? now - last_watchdog st then
    try_pass (run_finalize_watchdog_pass cfg recompute_extent);;
    now' ← get_now;
    mret (Loop (redis_failures st) now')
  else mret st.

(** One text taken from the queue. *)
Definition handle_promotion (raw : string) : M unit :=
  match finalize_from_json raw with
  | inl e => if invalid_payload raw e then mret tt else raise e
  | inr p =>
      try_except (process_bulk_finalize_job cfg recompute_extent p)
        (fun _ => try_pass (requeue_finalize_after_failure cfg p))
  end.

Definition finalize_turn (st : FinalizeLoop) : M FinalizeLoop :=
  st ← watchdog_turn st;
  popped ← try_except (inr <$> redis (Brpop [FINALIZE_QUEUE_KEY])) (fun e => mret (inl e));
  match popped with
  | inl _ =>
      let n := redis_failures st + 1 in
      consumer_backoff n;; mret (Loop n (last_watchdog st))
  | inr None => mret (Loop 0 (last_watchdog st))
  | inr (Some (_, raw)) => handle_promotion raw;; mret (Loop 0 (last_watchdog st))
  end.

(** [n] turns of the loop. *)
Fixpoint finalize_turns (n : nat) (st : FinalizeLoop) : M FinalizeLoop :=
  match n with
  | O => mret st
  | S n' => st ← finalize_turn st; finalize_turns n' st
  end.
End finalize_main.

(** ** Failures do not lose promotions *)

(** The time [k] failed attempts from attempt [a] on can take. *)
Fixpoint longest_wait (cfg : Settings) (a : Z) (k : nat) : Z :=
  match k with
  | O => 0
  | S k' => finalize_backoff_seconds cfg (a + 1) 150000 + longest_wait cfg (a + 1) k'
  end.

(** The payload after [k] failed attempts. *)
Definition after_attempts (p : BulkFinalizePayload) (k : nat) : BulkFinalizePayload :=
  Nat.iter k next_attempt p.

Section retries.
Context `{RedisLaws} `{PostgresLaws} `{EntropyLaws} (cfg : Settings).
Context (recompute_extent : string -> M unit) (Hredis : is_redis cfg = true).

Lemma backoff_range a u :
  0 <= u <= 150000 ->
  0 <= finalize_backoff_seconds cfg a u <= finalize_backoff_seconds cfg a 150000.
Proof.
  intros Hu. unfold finalize_backoff_seconds. cbv zeta.
  set (base := Z.max (us 1) _). set (cap := Z.max base _).
  assert (0 <= base) as Hb by (unfold base, us; lia). assert (0 <= cap) as Hc by (unfold cap; lia).
  pose proof (retry_wait_bounds (Z.max 1 a) base cap u Hb Hc Hu) as [Hlo _]. split; [exact Hlo|].
  unfold retry_wait_seconds. cbv zeta. set (x := Z.min cap _).
  assert (0 <= x).
  { unfold x. apply Z.min_glb; [done|]. apply Z.mul_nonneg_nonneg; [done|]. apply Z.pow_nonneg. lia. }
  apply Z.add_le_mono_l, Z.div_le_mono; [done|]. nia.
Qed.

Lemma longest_wait_nonneg a k : 0 <= longest_wait cfg a k.
Proof.
  revert a. induction k as [|k IH]; intros a; cbn [longest_wait]; [done|].
  pose proof (backoff_range (a + 1) 150000). specialize (IH (a + 1)). lia.
Qed.

(** A payload on the queue, of a job of collection [c]. *)
Record queued (w : world) (p : BulkFinalizePayload) (c : string) : Prop := {
  qd_attempt : attempt_ready w p c [finalize_to_json p];
  qd_kept : never_expires (w_redis w) (redis_key (fp_job_id p));
  qd_ascii : ascii_finalize p = true;
  qd_mode : fp_mode p <> ""
}.

Lemma normal_payload_id p : fp_mode p <> "" -> normal_finalize p = p.
Proof. intros Hm. unfold normal_finalize, str_or. rewrite decide_False by done. by destruct p. Qed.

Lemma pop_queued w p c :
  queued w p c ->
  exists ks, redis (Brpop [FINALIZE_QUEUE_KEY]) w =
      (inr (Some (FINALIZE_QUEUE_KEY, finalize_to_json p)), with_redis w ks)
    /\ attempt_ready (with_redis w ks) p c []
    /\ never_expires ks (redis_key (fp_job_id p)).
Proof.
  intros [[Hq (j & Hj & Hst & Hc) Ht Hh Hl] Hn _ _].
  set (ks := put_list (w_now w) (w_redis w) FINALIZE_QUEUE_KEY []).
  assert (forall k, k <> FINALIZE_QUEUE_KEY -> ks !! k = w_redis w !! k) as Hf.
  { intros k Hk. by apply put_list_frame. }
  exists ks. split; [|split; [split; cbn [with_redis w_now w_redis]|]].
  - apply redis_ok; [done|]. autorewrite with redis_exec. cbn [pop_first].
    pose proof (standing_queue_at _ _ _ (w_now w) Hl) as Ha. unfold queue_at in Ha. by rewrite Ha.
  - done.
  - exists j. split; [|done]. eapply job_stored_frame; [apply Hf; by key_neq|exact Hj].
  - eapply lock_frame; [apply Hf; by key_neq|exact Ht].
  - eapply hash_typed_frame; [apply Hf; by key_neq|exact Hh].
  - by eapply standing_put_list.
  - eapply never_expires_frame; [apply Hf; by key_neq|exact Hn].
Qed.

(** A turn that finds the payload, with no watchdog pass due. *)
Lemma turn_pops st w p c :
  queued w p c -> w_now w - last_watchdog st < watchdog_interval cfg ->
  exists ks, finalize_turn cfg recompute_extent st w =
      (try_except (process_bulk_finalize_job cfg recompute_extent p)
         (fun _ => try_pass (requeue_finalize_after_failure cfg p));;
       mret (Loop 0 (last_watchdog st))) (with_redis w ks)
    /\ attempt_ready (with_redis w ks) p c []
    /\ never_expires ks (redis_key (fp_job_id p)).
Proof.
  intros Hqd Hw. destruct (pop_queued w p c Hqd) as (ks & Hpop & Hready & Hn).
  exists ks. split; [|done]. unfold finalize_turn, watchdog_turn.
  rewrite bind_run, bind_run, get_now_run, (proj2 (Z.leb_gt _ _)) by lia. rewrite ret_run.
  rewrite bind_run, (try_except_ok _ _ _ (inr (Some (FINALIZE_QUEUE_KEY, finalize_to_json p)))
    (with_redis w ks)) by (by rewrite fmap_run, Hpop).
  unfold handle_promotion. rewrite finalize_round_trip_aux by apply Hqd.
  by rewrite normal_payload_id by apply Hqd.
Qed.

Lemma turn_fails st w p c e ts :
  queued w p c -> w_now w - last_watchdog st < watchdog_interval cfg ->
  s_db_sched (w_services w) = DbTick (fun db => db) (Aborts e) :: ts ->
  is_staging_pk_duplicate_error (exn_of_sql e) = false -> dt_range (utcnow (w_now w)) ->
  exists w', finalize_turn cfg recompute_extent st w = (inr (Loop 0 (last_watchdog st)), w')
    /\ queued w' (next_attempt p) c /\ w_services w' = Services (w_db w) ts (w_files w) (w_tables w)
    /\ w_now w <= w_now w' <= w_now w + finalize_backoff_seconds cfg (fp_attempt p + 1) 150000.
Proof.
  intros Hqd Hw Hs Hdup Hnow.
  destruct (turn_pops st w p c Hqd Hw) as (ks & Hturn & Hready & Hn).
  destruct (failed_attempt cfg recompute_extent Hredis (with_redis w ks) p c [] e ts)
    as (w1 & ks2 & Hrun & _ & Hsv & Hn1 & Hreq & _ & _ & Hrest); try done.
  assert (0 <= backoff_in cfg w1 p <= finalize_backoff_seconds cfg (fp_attempt p + 1) 150000) as Hb.
  { apply backoff_range, jitter_range. }
  destruct Hrest as [Hready2 Hn2]; [done|lia|].
  eexists. split; [|split; [split|split]].
  - rewrite Hturn, bind_run, (try_except_err _ _ _ _ _ Hrun), try_pass_run, Hreq. reflexivity.
  - exact Hready2.
  - exact Hn2.
  - apply Hqd.
  - apply Hqd.
  - exact Hsv.
  - cbn [snd with_redis slept w_now]. rewrite Hn1. cbn [with_redis w_now]. lia.
Qed.

Lemma turn_publishes st w p c t :
  queued w p c -> w_now w - last_watchdog st < watchdog_interval cfg -> db_quiet w ->
  dt_range (utcnow (w_now w)) -> promotable (w_db w) (fp_collection_id p) (fp_job_id p) t ->
  keys_unique (promoted (fp_mode p) (live_rows (w_db w) (fp_collection_id p)) (t_rows t)) = true ->
  bulk_extent_update_mode cfg = "deferred" -> fp_queue_compute_tiles p = false ->
  exists w', finalize_turn cfg recompute_extent st w = (inr (Loop 0 (last_watchdog st)), w')
    /\ promoted_ok w w' p t.
Proof.
  intros Hqd Hw Hdq Hnow Hp Hk Hm Ht.
  destruct (turn_pops st w p c Hqd Hw) as (ks & Hturn & [Hq (j & Hj & Hst & Hc) Hl _ _] & _). subst c.
  destruct (finalize_run cfg recompute_extent Hredis (with_redis w ks) p t j) as (w' & Hrun & Hok);
    try done.
  exists w'. split; [|by destruct Hok; split].
  by rewrite Hturn, bind_run, (try_except_ok _ _ _ _ _ Hrun).
Qed.

Lemma promoted_ok_from w w1 w' p t :
  w_db w1 = w_db w -> promoted_ok w1 w' (next_attempt p) t -> promoted_ok w w' p t.
Proof. intros Hdb []. rewrite Hdb in *. by split. Qed.

Lemma turns_publish es : forall st w p c t,
  queued w p c -> Forall (fun e => is_staging_pk_duplicate_error (exn_of_sql e) = false) es ->
  s_db_sched (w_services w) = map (fun e => DbTick (fun db => db) (Aborts e)) es ->
  dt_range (utcnow (w_now w)) ->
  dt_range (utcnow (w_now w + longest_wait cfg (fp_attempt p) (length es))) ->
  w_now w + longest_wait cfg (fp_attempt p) (length es) - last_watchdog st < watchdog_interval cfg ->
  promotable (w_db w) (fp_collection_id p) (fp_job_id p) t ->
  keys_unique (promoted (fp_mode p) (live_rows (w_db w) (fp_collection_id p)) (t_rows t)) = true ->
  bulk_extent_update_mode cfg = "deferred" -> fp_queue_compute_tiles p = false ->
  exists st' w', finalize_turns cfg recompute_extent (S (length es)) st w = (inr st', w')
    /\ promoted_ok w w' p t.
Proof.
  induction es as [|e es IH]; intros st w p c t Hqd Hes Hs Hnow Hend Hw Hp Hk Hm Ht.
  - cbn [longest_wait length] in Hw.
    destruct (turn_publishes st w p c t) as (w' & Hrun & Hok); try done; [lia|].
    eexists _, w'. split; [|done]. change (finalize_turns cfg recompute_extent (S (length [])) st w)
      with ((finalize_turn cfg recompute_extent st ≫= fun st => mret st) w). by rewrite bind_run, Hrun.
  - cbn [length longest_wait map] in *. apply Forall_cons in Hes as [He Hes].
    pose proof (longest_wait_nonneg (fp_attempt p + 1) (length es)) as Hlw.
    pose proof (backoff_range (fp_attempt p + 1) 150000) as Hbr.
    destruct (turn_fails st w p c e (map (fun e => DbTick (fun db => db) (Aborts e)) es))
      as (w1 & Hrun & Hqd1 & Hsv1 & Hn1); try done; [lia|].
    assert (w_db w1 = w_db w) as Hdb by (unfold w_db; by rewrite Hsv1).
    destruct (IH (Loop 0 (last_watchdog st)) w1 (next_attempt p) c t) as (st' & w' & Hrest & Hok);
      rewrite ?Hdb; try done.
    + by rewrite Hsv1.
    + unfold dt_range in *. cbn [utcnow dt_us] in *. lia.
    + unfold dt_range in *. cbn [utcnow dt_us next_attempt fp_attempt] in *. lia.
    + cbn [last_watchdog next_attempt fp_attempt]. lia.
    + exists st', w'. split; [|by eapply promoted_ok_from].
      change (finalize_turns cfg recompute_extent (S (S (length es))) st w) with
        ((finalize_turn cfg recompute_extent st ≫=
          fun st => finalize_turns cfg recompute_extent (S (length es)) st) w).
      by rewrite bind_run, Hrun.
Qed.
End retries.

(** ** Properties *)

(** C16. A promotion outlives any number of database failures: when the payload
    of a stored job is on the queue and the first transactions of the next
    attempts fail, each for a reason other than duplicate keys, the worker's loop
    backs off and requeues the payload after each failure, and one turn after
    the last failure the staged rows are live and the job is completed.  There is
    no retry cap; the hypotheses on the clock say that the watchdog pass does not
    fall due meanwhile, and that no time leaves the range of [datetime]. *)
Theorem promotion_outlives_failures `{RedisLaws} `{PostgresLaws} `{EntropyLaws} (cfg : Settings)
    (recompute_extent : string -> M unit) (es : list sql_error) (st : FinalizeLoop) (w : world)
    (p : BulkFinalizePayload) (c : string) (t : table) :
  is_redis cfg = true -> queued w p c ->
  Forall (fun e => is_staging_pk_duplicate_error (exn_of_sql e) = false) es ->
  s_db_sched (w_services w) = map (fun e => DbTick (fun db => db) (Aborts e)) es ->
  dt_range (utcnow (w_now w)) ->
  dt_range (utcnow (w_now w + longest_wait cfg (fp_attempt p) (length es))) ->
  w_now w + longest_wait cfg (fp_attempt p) (length es) - last_watchdog st < watchdog_interval cfg ->
  promotable (w_db w) (fp_collection_id p) (fp_job_id p) t ->
  keys_unique (promoted (fp_mode p) (live_rows (w_db w) (fp_collection_id p)) (t_rows t)) = true ->
  bulk_extent_update_mode cfg = "deferred" -> fp_queue_compute_tiles p = false ->
  exists st' w', finalize_turns cfg recompute_extent (S (length es)) st w = (inr st', w')
    /\ promoted_ok w w' p t.
Proof. intros Hr. by apply turns_publish. Qed.

(** A payload with a malformed number, which [int()] refuses. *)
Definition bad_number : string :=
  "{" +:+ String dq ("job_id" +:+ String dq (":" +:+ String dq ("j1" +:+ String dq (","
  +:+ String dq ("collection_id" +:+ String dq (":" +:+ String dq ("roads" +:+ String dq (","
  +:+ String dq ("items_created" +:+ String dq (":" +:+ String dq ("many" +:+ String dq "}"))))))))))).

(** One bad payload stops the promotion worker: only JSON errors and missing
    keys are caught around the parse, so a number that [int()] refuses raises out
    of the loop; the payload is already popped, and the process ends. *)
Theorem bad_number_stops_worker :
  exists w w' e, finalize_queue_of (w_now w) (w_redis w) = inr [bad_number]
    /\ @finalize_turn reference_server reference_postgres reference_entropy default_settings
         (fun _ => mret tt) (Loop 0 0) w = (inl e, w')
    /\ finalize_queue_of (w_now w') (w_redis w') = inr [].
Proof.
  exists (with_redis demo_world (put ∅ FINALIZE_QUEUE_KEY (VList [bad_number]) None)).
  eexists _, _. split; [by vm_compute|]. split; [apply run_fst; vm_compute; reflexivity|].
  by vm_compute.
Qed.

(** ** Witnesses *)

#[local] Instance reference_entropy_laws : @EntropyLaws reference_entropy.
Proof.
  split; [|done|done]. intros n m. cbn. intros Hnm. apply (inj (String.app "job-")) in Hnm.
  by apply (inj pretty.pretty) in Hnm.
Qed.

Definition waiting_world : world :=
  with_services
    (with_redis demo_world
       (put (w_redis demo_world) FINALIZE_QUEUE_KEY (VList [finalize_to_json demo_promotion]) None))
    (Services append_db [DbTick (fun db => db) (Aborts LockTimeout);
                         DbTick (fun db => db) (Aborts ServerGone)] ∅ no_tables).

Lemma promotion_outlives_failures_witness :
  exists st' w', @finalize_turns reference_server reference_postgres reference_entropy
      default_settings (fun _ => mret tt) 3 (Loop 0 (us 60)) waiting_world = (inr st', w')
    /\ promoted_ok waiting_world w' demo_promotion new_roads.
Proof.
  apply (@promotion_outlives_failures reference_server reference_laws reference_postgres
    reference_postgres_laws reference_entropy reference_entropy_laws default_settings
    (fun _ => mret tt) [LockTimeout; ServerGone] (Loop 0 (us 60)) waiting_world demo_promotion "roads"
    new_roads);
    [reflexivity| |by repeat constructor|reflexivity|by vm_compute|by vm_compute|by vm_compute
    |exact append_db_promotable|by vm_compute|reflexivity|reflexivity].
  split; [split|by vm_compute|by vm_compute|done].
  - done.
  - exists pending_job. split; [|split; [done|reflexivity]].
    eapply job_stored_frame; [|exact demo_stored]. by apply lookup_insert_ne.
  - eapply lock_frame; [|exact demo_lock_typed]. by apply lookup_insert_ne.
  - by vm_compute.
  - by vm_compute.
Defined.
