(* ===== verification/WorkerMain.v ===== *)
(** * The import worker's process (app/worker_main.py)

    The loop of [main] and its thread pool as a transition system: a step is a
    turn of the main thread, or a task of the pool that runs to its end.  The
    other threads of the process act on Redis and the database like any other
    process, between the commands of a task.  A future is a submitted task, done
    or not.  The worker of storage deletes and the storage self-heal are
    parameters: they belong to components that are not modelled. *)

From S2P Require Import Prelude PyTime Redis Postgres World Database Json Mutex JobStore Queue.
From S2P Require Import BulkQueue FinalizeQueue SideQueues Partitions Staging FinalizeWorker.
From S2P Require Import Watchdog BulkWorker FinalizeMain.

(** ** The thread pool *)

Record future := Future { ft_queue : string; ft_text : string; ft_done : bool }.

(** The local variables of [main] that outlive a turn. *)
Record WorkerLoop := Main {
  wl_failures : Z;
  wl_last_watchdog : Z;
  wl_last_self_heal : Z;
  wl_futures : list future
}.
Definition with_futures (st : WorkerLoop) (l : list future) : WorkerLoop :=
  Main (wl_failures st) (wl_last_watchdog st) (wl_last_self_heal st) l.
Definition with_failures (st : WorkerLoop) (n : Z) : WorkerLoop :=
  Main n (wl_last_watchdog st) (wl_last_self_heal st) (wl_futures st).

(** [_reap_done] *)
Definition reap_done (l : list future) : list future := List.filter (fun f => negb (ft_done f)) l.

Definition finished (f : future) : future := Future (ft_queue f) (ft_text f) true.

Section worker_main.
Context `{RedisServer} `{PostgresServer} `{Entropy} `{Importers} (cfg : Settings).
Context (process_storage_delete : StorageDelete.StorageDeletePayload -> M unit).
Context (storage_self_heal : M unit).

(** ** The tasks *)

(** [_process_payload_json] *)
Definition process_payload_json (raw : string) : M unit :=
  match BulkQueue.from_json raw with
  | inl e => if invalid_payload raw e then mret tt else raise e
  | inr p => try_pass (process_bulk_job cfg p)
  end.

(** [_process_storage_delete_json] *)
Definition process_storage_delete_json (raw : string) : M unit :=
  match StorageDelete.from_json raw with
  | inl e => if invalid_payload raw e then mret tt else raise e
  | inr p => try_pass (process_storage_delete p)
  end.

Definition run_task (f : future) : M unit :=
  if decide (ft_queue f = StorageDelete.STORAGE_DELETE_QUEUE_KEY)
  then process_storage_delete_json (ft_text f) else process_payload_json (ft_text f).

(** ** The main thread *)

Definition max_workers : Z := Z.max 1 (int_or (bulk_worker_max_concurrent cfg) 2).
Definition dispatch_cooldown : Z := Z.max 0 (bulk_worker_dispatch_cooldown_seconds cfg).
Definition worker_watchdog_interval : Z :=
  Z.max (us 60) (int_or (bulk_watchdog_interval_seconds cfg) (us 300)).
Definition self_heal_interval : Z :=
  Z.max (us 60) (int_or (storage_self_heal_interval_seconds cfg) (us 300)).

(** The two periodic passes at the head of a turn; their errors are printed. *)
Definition watchdog_due (st : WorkerLoop) : M WorkerLoop :=
  now ← get_now;
  if worker_watchdog_interval <=? now - wl_last_watchdog st then
    try_pass (run_bulk_watchdog_pass cfg None);;
    now' ← get_now;
    mret (Main (wl_failures st) now' (wl_last_self_heal st) (wl_futures st))
  else mret st.
Definition self_heal_due (st : WorkerLoop) : M WorkerLoop :=
  now ← get_now;
  if self_heal_interval <=? now - wl_last_self_heal st then
    try_pass storage_self_heal;;
    now' ← get_now;
    mret (Main (wl_failures st) (wl_last_watchdog st) now' (wl_futures st))
  else mret st.

Definition in_flight (st : WorkerLoop) : Z := Z.of_nat (length (wl_futures st)).

(** The pop of a claimed text, its submission and the cooldown that follows
    while slots are free. *)
Definition dispatch (st : WorkerLoop) (key raw : string) : M WorkerLoop :=
  let st := with_futures st (wl_futures st ++ [Future key raw false])%list in
  when ((0 <? dispatch_cooldown) && (0 <? max_workers - in_flight st)) (sleep dispatch_cooldown);;
  mret st.

Definition claim (st : WorkerLoop) : M WorkerLoop :=
  popped ← try_except
    (inr <$> redis (Brpop [StorageDelete.STORAGE_DELETE_QUEUE_KEY; QUEUE_KEY])) (fun e => mret (inl e));
  match popped with
  | inl _ =>
      let n := wl_failures st + 1 in
      consumer_backoff cfg n;; mret (with_failures st n)
  | inr None => mret (with_failures st 0)
  | inr (Some (key, raw)) => dispatch (with_failures st 0) key raw
  end.

(** A turn of the loop.  With every slot taken it waits for a task, which is a
    step of the pool. *)
Definition worker_turn (st : WorkerLoop) : M WorkerLoop :=
  st ← watchdog_due st;
  st ← self_heal_due st;
  let st := with_futures st (reap_done (wl_futures st)) in
  if max_workers - in_flight st <=? 0 then mret st else claim st.

(** ** Steps *)

Inductive worker_step : WorkerLoop * world -> WorkerLoop * world -> Prop :=
  | main_step st w st' w' :
      worker_turn st w = (inr st', w') -> worker_step (st, w) (st', w')
  | task_step st w l1 f l2 r w' :
      wl_futures st = (l1 ++ f :: l2)%list -> ft_done f = false -> run_task f w = (r, w') ->
      worker_step (st, w) (with_futures st (l1 ++ finished f :: l2)%list, w').

(** The state in which [main] enters the loop. *)
Definition initial_loop (now : Z) : WorkerLoop := Main 0 now now [].

(** ** Invariants *)

Lemma reap_length l : (length (reap_done l) <= length l)%nat.
Proof.
  unfold reap_done. induction l as [|f l IH]; [done|]. cbn [List.filter length].
  destruct (negb (ft_done f)); cbn [length]; lia.
Qed.

Lemma due_futures st w :
  (exists st1 w1, watchdog_due st w = (inr st1, w1) /\ wl_futures st1 = wl_futures st)
  /\ (exists st1 w1, self_heal_due st w = (inr st1, w1) /\ wl_futures st1 = wl_futures st).
Proof.
  unfold watchdog_due, self_heal_due. rewrite !bind_run, !get_now_run. split; case_match;
    try (by eexists _, _); rewrite bind_run, try_pass_run, bind_run, get_now_run; by eexists _, _.
Qed.

Lemma when_sleep b d w : exists w', when b (sleep d) w = (inr tt, w').
Proof. destruct b; by eexists. Qed.

Lemma claim_futures st w :
  exists st1 w1, claim st w = (inr st1, w1)
    /\ (length (wl_futures st1) <= S (length (wl_futures st)))%nat.
Proof.
  unfold claim. rewrite bind_run. unfold try_except. rewrite fmap_run.
  destruct (redis _ w) as [[e|[[key raw]|]] w1]; cbn [snd].
  - rewrite ret_run, bind_run. unfold consumer_backoff, sleep_retry. rewrite ret_run.
    eexists _, _. split; [done|]. cbn [with_failures wl_futures]. lia.
  - unfold dispatch. rewrite bind_run.
    match goal with |- context [when ?b (sleep ?d) ?w] => destruct (when_sleep b d w) as [w2 ->] end.
    eexists _, _. split; [done|]. cbn [with_futures with_failures wl_futures].
    rewrite length_app. cbn [length]. lia.
  - eexists _, _. split; [done|]. cbn [with_failures wl_futures]. lia.
Qed.

(** A turn always returns, and takes at most one task, into a free slot. *)
Lemma turn_total st w :
  exists st' w', worker_turn st w = (inr st', w')
    /\ (in_flight st <= max_workers -> in_flight st' <= max_workers).
Proof.
  unfold worker_turn. rewrite bind_run.
  destruct (due_futures st w) as [(st1 & w1 & -> & Hf1) _]. rewrite bind_run.
  destruct (due_futures st1 w1) as [_ (st2 & w2 & -> & Hf2)].
  pose proof (reap_length (wl_futures st2)) as Hr. rewrite Hf2, Hf1 in Hr.
  set (st3 := with_futures st2 _).
  assert (length (wl_futures st3) <= length (wl_futures st))%nat as Hle.
  { unfold st3. cbn [with_futures wl_futures]. by rewrite Hf2, Hf1. }
  destruct (Z.leb_spec (max_workers - in_flight st3) 0) as [Hs|Hs].
  - eexists _, _. split; [done|]. unfold in_flight. lia.
  - destruct (claim_futures st3 w2) as (st' & w' & -> & Hc). eexists _, _. split; [done|].
    unfold in_flight in *. lia.
Qed.

(** Rule induction over the steps. *)
Definition within_slots (s : WorkerLoop * world) : Prop := in_flight s.1 <= max_workers.

Lemma step_within_slots s s' : worker_step s s' -> within_slots s -> within_slots s'.
Proof.
  unfold within_slots. intros [st w st' w' Ht|st w l1 f l2 r w' Hf Hd Ht]; cbn [fst].
  - destruct (turn_total st w) as (st2 & w2 & Ht' & Hle). rewrite Ht in Ht'. by injection Ht' as -> ->.
  - unfold in_flight. rewrite Hf. cbn [with_futures wl_futures]. by rewrite !length_app.
Qed.

Lemma reachable_within_slots s s' : rtc worker_step s s' -> within_slots s -> within_slots s'.
Proof. induction 1; [done|]. eauto using step_within_slots. Qed.
End worker_main.

(** ** Which job is claimed *)

(** The text a pop takes: the oldest storage delete, else the oldest import. *)
Definition next_claim (deletes imports : list string) : list future :=
  match last deletes, last imports with
  | Some x, _ => [Future StorageDelete.STORAGE_DELETE_QUEUE_KEY x false]
  | None, Some x => [Future QUEUE_KEY x false]
  | None, None => []
  end.

Section claims.
Context `{RedisLaws} `{PostgresServer} `{Entropy} (cfg : Settings).

Lemma last_None_nil {A} (l : list A) : last l = None -> l = [].
Proof. apply last_None. Qed.

Lemma claim_run st w d q :
  quiet w -> standing_queue (w_redis w) StorageDelete.STORAGE_DELETE_QUEUE_KEY d ->
  standing_queue (w_redis w) QUEUE_KEY q ->
  exists st' w', claim cfg st w = (inr st', w')
    /\ wl_futures st' = (wl_futures st ++ next_claim d q)%list
    /\ standing_queue (w_redis w') StorageDelete.STORAGE_DELETE_QUEUE_KEY (removelast d)
    /\ standing_queue (w_redis w') QUEUE_KEY (match d with [] => removelast q | _ => q end).
Proof.
  intros Hq Hd Hi. set (K := StorageDelete.STORAGE_DELETE_QUEUE_KEY) in *.
  pose proof (standing_queue_at _ _ _ (w_now w) Hd) as Hda.
  pose proof (standing_queue_at _ _ _ (w_now w) Hi) as Hia. unfold queue_at in Hda, Hia.
  assert (K <> QUEUE_KEY) as Hne by done.
  assert (forall key raw ks, redis (Brpop [K; QUEUE_KEY]) w = (inr (Some (key, raw)), with_redis w ks) ->
    exists st' w', claim cfg st w = (inr st', w')
      /\ wl_futures st' = (wl_futures st ++ [Future key raw false])%list /\ w_redis w' = ks) as Hsome.
  { intros key raw ks Hr. unfold claim. fold K. rewrite bind_run, (try_except_ok _ _ _ (inr (Some (key, raw)))
      (with_redis w ks)) by (by rewrite fmap_run, Hr). unfold dispatch. rewrite bind_run.
    match goal with |- context [when ?b (sleep ?t) _] => destruct b end; eexists _, _; done. }
  destruct (last d) as [x|] eqn:Hl.
  - destruct (Hsome K x (put_list (w_now w) (w_redis w) K (removelast d))) as (st' & w' & Hr & Hf & Hk).
    { apply redis_ok; [done|]. autorewrite with redis_exec. cbn [pop_first]. rewrite Hda. cbn [with_reply].
      by rewrite Hl. }
    exists st', w'. rewrite Hf, Hk. unfold next_claim. rewrite Hl. split; [done|]. split; [done|].
    split; [by eapply standing_put_list|]. destruct d as [|y d]; [done|].
    eapply standing_queue_frame; [|exact Hi]. by apply put_list_frame.
  - apply last_None_nil in Hl. subst d. destruct (last q) as [x|] eqn:Hlq.
    + destruct (Hsome QUEUE_KEY x (put_list (w_now w) (w_redis w) QUEUE_KEY (removelast q)))
        as (st' & w' & Hr & Hf & Hk).
      { apply redis_ok; [done|]. autorewrite with redis_exec. cbn [pop_first]. rewrite Hda, Hia.
        cbn [with_reply last]. by rewrite Hlq. }
      exists st', w'. rewrite Hf, Hk. unfold next_claim. rewrite Hlq. split; [done|]. split; [done|].
      split; [|by eapply standing_put_list].
      eapply standing_queue_frame; [|exact Hd]. by apply put_list_frame.
    + apply last_None_nil in Hlq. subst q. exists (with_failures st 0), w. split; [|by rewrite app_nil_r].
      unfold claim. fold K. rewrite bind_run, (try_except_ok _ _ _ (inr None) w); [done|].
      rewrite fmap_run, (redis_ok _ _ None (w_redis w)), with_redis_same; [done|done|].
      autorewrite with redis_exec. cbn [pop_first]. by rewrite Hda, Hia.
Qed.

Lemma turn_claims self_heal st w d q :
  quiet w -> standing_queue (w_redis w) StorageDelete.STORAGE_DELETE_QUEUE_KEY d ->
  standing_queue (w_redis w) QUEUE_KEY q ->
  w_now w - wl_last_watchdog st < worker_watchdog_interval cfg ->
  w_now w - wl_last_self_heal st < self_heal_interval cfg ->
  Z.of_nat (length (reap_done (wl_futures st))) < max_workers cfg ->
  exists st' w', worker_turn cfg self_heal st w = (inr st', w')
    /\ wl_futures st' = (reap_done (wl_futures st) ++ next_claim d q)%list
    /\ standing_queue (w_redis w') StorageDelete.STORAGE_DELETE_QUEUE_KEY (removelast d)
    /\ standing_queue (w_redis w') QUEUE_KEY (match d with [] => removelast q | _ => q end).
Proof.
  intros Hq Hd Hi Hw Hs Hm.
  destruct (claim_run (with_futures st (reap_done (wl_futures st))) w d q Hq Hd Hi)
    as (st' & w' & Hr & Hrest).
  exists st', w'. split; [|exact Hrest]. unfold worker_turn, watchdog_due, self_heal_due.
  rewrite bind_run, bind_run, get_now_run, (proj2 (Z.leb_gt _ _)) by lia. rewrite ret_run.
  rewrite bind_run, bind_run, get_now_run, (proj2 (Z.leb_gt _ _)) by lia. rewrite ret_run.
  unfold in_flight. cbn [with_futures wl_futures].
  by rewrite (proj2 (Z.leb_gt _ _)) by lia.
Qed.
End claims.

(** ** Properties *)

(** The worker's loop never ends by an error: whatever the schedules of Redis
    and of the database, whatever the queues hold and whatever the passes and
    the tasks do, a turn of the main thread returns the next state. *)
Theorem worker_loop_total `{RedisServer} `{PostgresServer} `{Entropy} (cfg : Settings)
    (storage_self_heal : M unit) (st : WorkerLoop) (w : world) :
  exists st' w', worker_turn cfg storage_self_heal st w = (inr st', w').
Proof. destruct (turn_total cfg storage_self_heal st w) as (st' & w' & Hr & _). by exists st', w'. Qed.

(** C19. The worker never takes more jobs than it has slots: in every state the
    loop and the pool reach, in any interleaving of turns and tasks, at most
    [max_workers] tasks are submitted and not reaped. *)
Theorem worker_capacity `{RedisServer} `{PostgresServer} `{Entropy} `{Importers} (cfg : Settings)
    (process_storage_delete : StorageDelete.StorageDeletePayload -> M unit) (storage_self_heal : M unit)
    (now : Z) (w w' : world) (st' : WorkerLoop) :
  rtc (worker_step cfg process_storage_delete storage_self_heal) (initial_loop now, w) (st', w') ->
  in_flight st' <= max_workers cfg.
Proof.
  intros Hr. apply (reachable_within_slots _ _ _ _ _ Hr). unfold within_slots, max_workers, in_flight.
  cbn. lia.
Qed.

(** Jobs are claimed in order: in a quiet world with a free slot and no pass
    due, a turn takes the oldest storage delete if there is one and else the
    oldest import, submits exactly that text once, drops only finished tasks
    from the pool and leaves the rest of both queues in order. *)
Theorem worker_claims_in_order `{RedisLaws} `{PostgresServer} `{Entropy} (cfg : Settings)
    (storage_self_heal : M unit) (st : WorkerLoop) (w : world) (deletes imports : list string) :
  quiet w -> standing_queue (w_redis w) StorageDelete.STORAGE_DELETE_QUEUE_KEY deletes ->
  standing_queue (w_redis w) QUEUE_KEY imports ->
  w_now w - wl_last_watchdog st < worker_watchdog_interval cfg ->
  w_now w - wl_last_self_heal st < self_heal_interval cfg ->
  Z.of_nat (length (reap_done (wl_futures st))) < max_workers cfg ->
  exists st' w', worker_turn cfg storage_self_heal st w = (inr st', w')
    /\ wl_futures st' = (reap_done (wl_futures st) ++ next_claim deletes imports)%list
    /\ standing_queue (w_redis w') StorageDelete.STORAGE_DELETE_QUEUE_KEY (removelast deletes)
    /\ standing_queue (w_redis w') QUEUE_KEY
         (match deletes with [] => removelast imports | _ => imports end).
Proof. apply turn_claims. Qed.

(** ** Witnesses *)

#[local] Instance no_importers : Importers :=
  {| copy_import _ _ _ _ _ _ := mret (0, 0, None); row_import _ _ _ _ _ _ _ := mret (0, 0, None);
     raster_batch _ _ _ := mret tt |}.

Definition busy_world : world :=
  with_redis demo_world
    (put (put ∅ QUEUE_KEY (VList ["second"; "first"]) None) StorageDelete.STORAGE_DELETE_QUEUE_KEY
       (VList ["delete"]) None).

Lemma worker_capacity_witness :
  exists st' w',
    rtc (@worker_step reference_server reference_postgres reference_entropy no_importers
           default_settings (fun _ => mret tt) (mret tt)) (initial_loop (us 60), busy_world) (st', w')
    /\ length (wl_futures st') = 1%nat /\ in_flight st' <= max_workers default_settings.
Proof.
  destruct (@turn_claims reference_server reference_laws reference_postgres reference_entropy
    default_settings (mret tt) (initial_loop (us 60)) busy_world ["delete"] ["second"; "first"])
    as (st' & w' & Hr & Hf & _); [by vm_compute..|].
  exists st', w'. assert (rtc (@worker_step reference_server reference_postgres reference_entropy
    no_importers default_settings (fun _ => mret tt) (mret tt)) (initial_loop (us 60), busy_world)
    (st', w')) as Hs by (by apply rtc_once, main_step).
  split; [exact Hs|]. split; [by rewrite Hf|].
  exact (@worker_capacity reference_server reference_postgres reference_entropy no_importers
    default_settings (fun _ => mret tt) (mret tt) (us 60) busy_world w' st' Hs).
Defined.

Lemma worker_claims_in_order_witness :
  exists st' w', @worker_turn reference_server reference_postgres reference_entropy default_settings
      (mret tt) (initial_loop (us 60)) busy_world = (inr st', w')
    /\ wl_futures st' = [Future StorageDelete.STORAGE_DELETE_QUEUE_KEY "delete" false]
    /\ standing_queue (w_redis w') StorageDelete.STORAGE_DELETE_QUEUE_KEY []
    /\ standing_queue (w_redis w') QUEUE_KEY ["second"; "first"].
Proof.
  apply (@worker_claims_in_order reference_server reference_laws reference_postgres reference_entropy
    default_settings (mret tt) (initial_loop (us 60)) busy_world ["delete"] ["second"; "first"]);
    by vm_compute.
Defined.
