(* ===== verification/LoadGate.v ===== *)
(** * In-process gates on concurrent work
    (app/services/db_load_gate.py, app/services/titiler_gate.py)

    A gate lets a bounded number of calls run at a time in one event loop; the
    others wait, the newest first in line.  The state is the one of the code: the
    counter of active calls, the deque of waiting events and which events are
    set, with the place each call has reached.  A step runs one coroutine from
    one suspension to the next: asyncio switches tasks only where a call waits
    for its own work or for its event.  The blocks under [gate.lock] suspend
    nowhere, so the lock is never found taken. *)

From S2P Require Import Prelude Redis World.

(** Where a call of [_run_gated] is. *)
Inductive outcome := Finished | Overloaded | Left.
Inductive call :=
  | Ungated                          (* running, the gate is switched off *)
  | Waiting (deadline : option Z)    (* in the loop on its event *)
  | Running                          (* running, counted as active *)
  | Over (o : outcome).

#[export] Instance outcome_eq_dec : EqDecision outcome.
Proof. solve_decision. Defined.
#[export] Instance call_eq_dec : EqDecision call.
Proof. solve_decision. Defined.

(** [_Gate], the events that are set, the calls by number, the loop's clock. *)
Record gate := Gate {
  g_active : Z;
  g_waiters : list nat;
  g_set : gset nat;
  g_calls : gmap nat call;
  g_now : Z
}.
Definition new_gate (now : Z) : gate := Gate 0 [] ∅ ∅ now.

(** What the two gates do differently: how a slot is given back, and how long a
    call waits ([None]: for ever). *)
Class GateKind := {
  release_count : Z -> Z;
  wait_budget : option Z
}.
Class GateLaws `{GateKind} : Prop := {
  release_one n : 0 < n -> release_count n = n - 1
}.

(** [deque.remove]: the first occurrence; [ValueError] is passed over. *)
Fixpoint remove_waiter (t : nat) (l : list nat) : list nat :=
  match l with
  | [] => []
  | x :: l' => if decide (x = t) then l' else x :: remove_waiter t l'
  end.

Section gate.
Context `{GateKind} (max_concurrent : Z).

Definition set_call (t : nat) (c : call) (s : gate) : gate :=
  Gate (g_active s) (g_waiters s) (g_set s) (<[t := c]> (g_calls s)) (g_now s).

(** [gate.active += 1] and the work starts. *)
Definition take_slot (t : nat) (s : gate) : gate :=
  Gate (g_active s + 1) (g_waiters s) (g_set s) (<[t := Running]> (g_calls s)) (g_now s).

(** The first block under the lock. *)
Definition enter (t : nat) (s : gate) : gate :=
  if max_concurrent <=? 0 then set_call t Ungated s
  else if g_active s <? max_concurrent then take_slot t s
  else
    Gate (g_active s) (t :: g_waiters s) (g_set s)
      (<[t := Waiting ((fun b => g_now s + b) <$> wait_budget)]> (g_calls s)) (g_now s).

(** [_release]: the slot is given back and the newest waiter's event is set. *)
Definition release (s : gate) : gate :=
  match g_waiters s with
  | [] => Gate (release_count (g_active s)) [] (g_set s) (g_calls s) (g_now s)
  | t :: ts => Gate (release_count (g_active s)) ts ({[t]} ∪ g_set s) (g_calls s) (g_now s)
  end.

Definition abandon (t : nat) (s : gate) : gate :=
  Gate (g_active s) (remove_waiter t (g_waiters s)) (g_set s) (g_calls s) (g_now s).

(** The head of the loop on the event: it is left when the event is set, and with
    an error when the deadline has passed. *)
Definition resume (t : nat) (deadline : option Z) (s : gate) : gate :=
  if decide (t ∈ g_set s) then take_slot t s
  else
    match deadline with
    | Some d => if d - g_now s <=? 0 then set_call t (Over Overloaded) (abandon t s) else s
    | None => s
    end.

(** An event of the loop: a call arrives, looks at its event again, ends while it
    waits (its client left, or its task was cancelled), ends its work with or
    without an error, or time passes. *)
Inductive event :=
  | Arrive (t : nat)
  | Resume (t : nat)
  | Leave (t : nat)
  | Finish (t : nat)
  | Tick (d : Z).

(** One event; [None] when it cannot happen. *)
Definition step (e : event) (s : gate) : option gate :=
  match e with
  | Arrive t => match g_calls s !! t with None => Some (enter t s) | Some _ => None end
  | Resume t =>
      match g_calls s !! t with Some (Waiting d) => Some (resume t d s) | _ => None end
  | Leave t =>
      match g_calls s !! t with
      | Some (Waiting _) => Some (set_call t (Over Left) (abandon t s))
      | _ => None
      end
  | Finish t =>
      match g_calls s !! t with
      | Some Running => Some (set_call t (Over Finished) (release s))
      | Some Ungated => Some (set_call t (Over Finished) s)
      | _ => None
      end
  | Tick d =>
      if d <? 0 then None
      else Some (Gate (g_active s) (g_waiters s) (g_set s) (g_calls s) (g_now s + d))
  end.

Fixpoint run (es : list event) (s : gate) : option gate :=
  match es with
  | [] => Some s
  | e :: es' => s' ← step e s; run es' s'
  end.

(** The calls at work, and the calls whose event is set but which have not run
    since. *)
Definition is_waiting (s : gate) (t : nat) : bool :=
  match g_calls s !! t with Some (Waiting _) => true | _ => false end.
Definition running (s : gate) : gset nat := dom (filter (fun kv => kv.2 = Running) (g_calls s)).
Definition granted (s : gate) : gset nat := filter (fun t => is_waiting s t = true) (g_set s).
Definition slots_used (s : gate) : Z := Z.of_nat (size (running s)).
End gate.

(** ** The two gates *)

Module DbGate.
Section db_gate.
Context (wait_seconds : Z).
Definition kind : GateKind :=
  {| release_count n := Z.max 0 (n - 1); wait_budget := Some (Z.max 50000 wait_seconds) |}.
Lemma db_gate_laws : @GateLaws kind.
Proof. split. cbn. lia. Qed.
End db_gate.

(** The limits [run_dynamic_tile_db] and [run_items_list_db] pass. *)
Definition dynamic_tile_limits (cfg : Settings) : Z * Z :=
  (int_or (tiles_dynamic_max_concurrent cfg) 2,
   int_or (tiles_dynamic_gate_wait_seconds cfg) 1500000).
Definition items_list_limits (cfg : Settings) : Z * Z :=
  (int_or (items_list_max_concurrent cfg) 3, int_or (items_list_gate_wait_seconds cfg) (us 2)).
End DbGate.

Module TitilerGate.
Definition kind : GateKind := {| release_count n := n - 1; wait_budget := None |}.
Lemma titiler_gate_laws : @GateLaws kind.
Proof. by split. Qed.
End TitilerGate.

(** ** Sets of calls *)

Lemma elem_of_running t s : t ∈ running s <-> g_calls s !! t = Some Running.
Proof.
  unfold running. rewrite elem_of_dom. split.
  - intros [c Hc]. apply map_lookup_filter_Some in Hc as [Hc Hr]. simpl in Hr. by subst.
  - intros Hc. exists Running. by apply map_lookup_filter_Some.
Qed.

Lemma is_waiting_true s t : is_waiting s t = true <-> exists d, g_calls s !! t = Some (Waiting d).
Proof. unfold is_waiting. destruct (g_calls s !! t) as [[]|]; naive_solver. Qed.

Lemma elem_of_granted t s : t ∈ granted s <-> is_waiting s t = true /\ t ∈ g_set s.
Proof. unfold granted. by rewrite elem_of_filter. Qed.

Lemma elem_of_remove_waiter t x l : NoDup l -> x ∈ remove_waiter t l <-> x ∈ l /\ x <> t.
Proof.
  induction 1 as [|y l Hy Hl IH]; simpl; [set_solver|]. case_decide as Ht; [set_solver|].
  rewrite !elem_of_cons, IH. set_solver.
Qed.

Lemma NoDup_remove_waiter t l : NoDup l -> NoDup (remove_waiter t l).
Proof.
  induction 1 as [|y l Hy Hl IH]; simpl; [constructor|]. case_decide; [done|].
  constructor; [|done]. rewrite elem_of_remove_waiter by done. tauto.
Qed.

(** The books of a gate: the counter counts the calls at work, and the deque
    holds the waiting calls whose event is not set, once each. *)
Record gate_ok (s : gate) : Prop := {
  ok_active : g_active s = slots_used s;
  ok_nodup : NoDup (g_waiters s);
  ok_waiters t : t ∈ g_waiters s <-> is_waiting s t = true /\ t ∉ g_set s;
  ok_set t : t ∈ g_set s -> is_Some (g_calls s !! t)
}.

(** How the sets change when call [t] moves to [c]. *)
Lemma running_moved s s' t c :
  g_calls s' = <[t := c]> (g_calls s) ->
  running s' = if decide (c = Running) then {[t]} ∪ running s else running s ∖ {[t]}.
Proof.
  intros Hc. apply set_eq. intros x. rewrite elem_of_running, Hc.
  destruct (decide (x = t)) as [->|Hx].
  - rewrite lookup_insert_eq. case_decide as Hr; [subst; set_solver|].
    split; [intros [=]; done|]. set_solver.
  - rewrite lookup_insert_ne by done. rewrite <- elem_of_running. case_decide; set_solver.
Qed.

Lemma waiting_moved s s' t c x :
  g_calls s' = <[t := c]> (g_calls s) -> x <> t -> is_waiting s' x = is_waiting s x.
Proof. intros Hc Hx. unfold is_waiting. by rewrite Hc, lookup_insert_ne. Qed.

Lemma waiting_now s s' t c :
  g_calls s' = <[t := c]> (g_calls s) ->
  is_waiting s' t = match c with Waiting _ => true | _ => false end.
Proof. intros Hc. unfold is_waiting. by rewrite Hc, lookup_insert_eq. Qed.

Lemma slots_moved s s' t c :
  g_calls s' = <[t := c]> (g_calls s) ->
  slots_used s' =
    slots_used s - (if decide (t ∈ running s) then 1 else 0) + (if decide (c = Running) then 1 else 0).
Proof.
  intros Hc. unfold slots_used. rewrite (running_moved s s' t c Hc).
  destruct (decide (t ∈ running s)) as [Ht|Ht], (decide (c = Running)) as [Hr|Hr].
  - rewrite subseteq_union_1_L by set_solver. lia.
  - rewrite size_difference by set_solver. rewrite size_singleton.
    assert (size (running s) <> 0)%nat by (apply size_non_empty_iff; set_solver). lia.
  - rewrite size_union by set_solver. rewrite size_singleton. lia.
  - rewrite difference_disjoint_L by set_solver. lia.
Qed.

Lemma set_grows s s' t c :
  g_calls s' = <[t := c]> (g_calls s) ->
  (forall x, is_Some (g_calls s !! x) -> is_Some (g_calls s' !! x)).
Proof.
  intros Hc x Hx. rewrite Hc. destruct (decide (x = t)) as [->|]; [by rewrite lookup_insert_eq|].
  by rewrite lookup_insert_ne.
Qed.

(** ** The books are kept *)

Section books.
Context `{GateLaws} (max_concurrent : Z).

(** A call that is not in the deque moves to a place where it does not wait. *)
Lemma moved_ok s s' t c :
  gate_ok s -> g_calls s' = <[t := c]> (g_calls s) ->
  g_waiters s' = g_waiters s -> g_set s' = g_set s ->
  g_active s' = slots_used s' -> t ∉ g_waiters s -> (forall d, c <> Waiting d) -> gate_ok s'.
Proof.
  intros [Ha Hn Hw Hs] Hc Hws Hset Hact Ht Hnw. split; [done|by rewrite Hws| |].
  - intros x. rewrite Hws, Hset, Hw. destruct (decide (x = t)) as [->|Hx].
    + rewrite (waiting_now s s' t c Hc). destruct c; [..|]; try naive_solver;
        split; (intros [? ?]; try done); exfalso; apply Ht, Hw; naive_solver.
    + by rewrite (waiting_moved s s' t c x Hc).
  - intros x Hx. rewrite Hset in Hx. eapply set_grows; eauto.
Qed.

Lemma take_slot_ok s t :
  gate_ok s -> t ∉ running s -> t ∉ g_waiters s -> gate_ok (take_slot t s).
Proof.
  intros Hok Hr Ht. eapply (moved_ok s _ t Running); try done.
  rewrite (slots_moved s _ t Running) by done. rewrite decide_False, decide_True by done.
  cbn [take_slot g_active]. rewrite (ok_active _ Hok). lia.
Qed.

(** Leaving the deque. *)
Lemma quit_ok s t o :
  gate_ok s -> is_waiting s t = true -> gate_ok (set_call t (Over o) (abandon t s)).
Proof.
  intros Hok Hwt. set (s' := set_call t (Over o) (abandon t s)).
  assert (g_calls s' = <[t := Over o]> (g_calls s)) as Hc by done.
  assert (t ∉ running s) as Hr.
  { rewrite elem_of_running. apply is_waiting_true in Hwt as [d ->]. naive_solver. }
  destruct Hok as [Ha Hn Hw Hs]. split.
  - rewrite (slots_moved s s' t (Over o) Hc), !decide_False by done. cbn. lia.
  - by apply NoDup_remove_waiter.
  - intros x. cbn [s' set_call abandon g_waiters g_set]. rewrite elem_of_remove_waiter, Hw by done.
    destruct (decide (x = t)) as [->|Hx]; [rewrite (waiting_now s s' t _ Hc); naive_solver|].
    rewrite (waiting_moved s s' t _ x Hc); naive_solver.
  - intros x Hx. eapply set_grows; [exact Hc|]. by apply Hs.
Qed.

Lemma enter_ok s t : gate_ok s -> g_calls s !! t = None -> gate_ok (enter max_concurrent t s).
Proof.
  intros Hok Ht.
  assert (t ∉ running s) as Hr by (rewrite elem_of_running, Ht; naive_solver).
  assert (is_waiting s t = false) as Hnw by (unfold is_waiting; by rewrite Ht).
  assert (t ∉ g_waiters s) as Hnd by (rewrite (ok_waiters _ Hok), Hnw; by intros [? _]).
  unfold enter. destruct (max_concurrent <=? 0).
  { eapply (moved_ok s _ t Ungated); try done. rewrite (slots_moved s _ t Ungated) by done.
    rewrite !decide_False by done. cbn. rewrite (ok_active _ Hok). lia. }
  destruct (g_active s <? max_concurrent); [by apply take_slot_ok|].
  set (c := Waiting _). set (s' := Gate _ _ _ _ _).
  assert (g_calls s' = <[t := c]> (g_calls s)) as Hc by done. destruct Hok as [Ha Hn Hw Hs]. split.
  - rewrite (slots_moved s s' t c Hc), !decide_False by done. cbn. lia.
  - by constructor.
  - intros x. cbn [s' g_waiters g_set]. rewrite elem_of_cons, Hw.
    assert (t ∉ g_set s) as Hts by (intros Hts; apply Hs in Hts; rewrite Ht in Hts; by destruct Hts).
    destruct (decide (x = t)) as [->|Hx]; [rewrite (waiting_now s s' t c Hc); naive_solver|].
    rewrite (waiting_moved s s' t c x Hc); naive_solver.
  - intros x Hx. eapply set_grows; [exact Hc|]. by apply Hs.
Qed.

Lemma finish_ok s t :
  gate_ok s -> t ∈ running s -> gate_ok (set_call t (Over Finished) (release s)).
Proof.
  intros Hok Hr. set (s' := set_call t (Over Finished) (release s)).
  assert (g_calls s' = <[t := Over Finished]> (g_calls s)) as Hc by (unfold s', release; by case_match).
  assert (is_waiting s t = false) as Hnw.
  { apply elem_of_running in Hr. unfold is_waiting. by rewrite Hr. }
  assert (g_active s' = slots_used s') as Hact.
  { rewrite (slots_moved s s' t _ Hc), decide_True, decide_False by done.
    assert (g_active s' = release_count (g_active s)) as -> by (unfold s', release; by case_match).
    assert (size (running s) <> 0)%nat by (apply size_non_empty_iff; set_solver).
    rewrite release_one, (ok_active _ Hok); unfold slots_used; [lia|].
    rewrite (ok_active _ Hok). unfold slots_used. lia. }
  destruct Hok as [Ha Hn Hw Hs].
  assert (t ∉ g_waiters s) as Hnd by (rewrite Hw, Hnw; by intros [? _]).
  destruct (g_waiters s) as [|u us] eqn:Hus.
  - apply (moved_ok s s' t (Over Finished)); try done; [by split; rewrite ?Hus| | |by rewrite Hus];
      unfold s', release; by rewrite Hus.
  - apply NoDup_cons in Hn as [Hu Hn].
    assert (g_waiters s' = us /\ g_set s' = {[u]} ∪ g_set s) as [Hws Hset]
      by (unfold s', release; by rewrite Hus).
    split; [done|by rewrite Hws| |].
    + intros x. rewrite Hws, Hset. specialize (Hw x). rewrite elem_of_cons in Hw.
      destruct (decide (x = t)) as [->|Hx].
      * rewrite (waiting_now s s' t _ Hc). set_solver.
      * rewrite (waiting_moved s s' t _ x Hc) by done. rewrite elem_of_union, elem_of_singleton.
        destruct (decide (x = u)) as [->|]; [|tauto]. split; [done|]. intros [_ Hf]. tauto.
    + intros x. rewrite Hset, elem_of_union, elem_of_singleton. intros [->|Hx];
        eapply (set_grows s s' t _ Hc); [|by apply Hs].
      assert (is_waiting s u = true) as (d & ->)%is_waiting_true by (apply Hw; set_solver). done.
Qed.

Lemma step_ok e s s' : step max_concurrent e s = Some s' -> gate_ok s -> gate_ok s'.
Proof.
  intros Hst Hok. destruct e as [t|t|t|t|d]; cbn [step] in Hst.
  - destruct (g_calls s !! t) eqn:Ht; simplify_eq. by apply enter_ok.
  - destruct (g_calls s !! t) as [[|d| |]|] eqn:Ht; simplify_eq. unfold resume.
    assert (is_waiting s t = true) as Hwt by (unfold is_waiting; by rewrite Ht).
    case_decide as Hset.
    + apply take_slot_ok; [done|rewrite elem_of_running, Ht; naive_solver|].
      rewrite (ok_waiters _ Hok). naive_solver.
    + destruct d as [d|]; [|done]. case_match; [|done]. by apply quit_ok.
  - destruct (g_calls s !! t) as [[|d| |]|] eqn:Ht; simplify_eq.
    apply quit_ok; [done|]. unfold is_waiting. by rewrite Ht.
  - destruct (g_calls s !! t) as [[| | |]|] eqn:Ht; simplify_eq.
    + eapply (moved_ok s _ t (Over Finished)); try done.
      * rewrite (slots_moved s _ t (Over Finished)) by done.
        rewrite !decide_False by (rewrite ?elem_of_running, ?Ht; naive_solver). cbn.
        rewrite (ok_active _ Hok). lia.
      * rewrite (ok_waiters _ Hok). unfold is_waiting. rewrite Ht. naive_solver.
    + apply finish_ok; [done|]. by apply elem_of_running.
  - destruct (d <? 0); simplify_eq. by destruct Hok; split.
Qed.

Lemma run_ok es : forall s s', run max_concurrent es s = Some s' -> gate_ok s -> gate_ok s'.
Proof.
  induction es as [|e es IH]; intros s s' Hr Hok; cbn [run] in Hr; [by simplify_eq|].
  destruct (step max_concurrent e s) as [s1|] eqn:Hs; [|done]. cbn [mbind option_bind] in Hr.
  eauto using step_ok.
Qed.
End books.

Lemma running_new now : running (new_gate now) = ∅.
Proof. unfold running. cbn. by rewrite map_filter_empty, dom_empty_L. Qed.

Lemma new_gate_ok now : gate_ok (new_gate now).
Proof.
  split; cbn; [|constructor| |set_solver].
  - unfold slots_used. by rewrite running_new, size_empty.
  - intros t. unfold is_waiting. cbn. rewrite lookup_empty. set_solver.
Qed.

(** ** How many calls run *)

Lemma granted_moved s s' t c :
  g_calls s' = <[t := c]> (g_calls s) -> g_set s' = g_set s -> (forall d, c <> Waiting d) ->
  granted s' = granted s ∖ {[t]}.
Proof.
  intros Hc Hs Hn. apply set_eq. intros x.
  rewrite elem_of_difference, !elem_of_granted, Hs, elem_of_singleton.
  destruct (decide (x = t)) as [->|Hx].
  - rewrite (waiting_now s s' t c Hc). destruct c; [..|]; try naive_solver.
  - rewrite (waiting_moved s s' t c x Hc) by done. tauto.
Qed.

Lemma not_waiting_granted s t : is_waiting s t = false -> t ∉ granted s.
Proof. rewrite elem_of_granted. intros ->. by intros [? _]. Qed.

Section limits.
Context `{GateLaws} (max_concurrent : Z).

(** A step under a restriction on when events happen. *)
Definition gate_step (allowed : event -> gate -> Prop) (s s' : gate) : Prop :=
  exists e, allowed e s /\ step max_concurrent e s = Some s'.

(** No call arrives between the setting of an event and the step of the call
    that waits on it. *)
Definition no_overtaking (e : event) (s : gate) : Prop :=
  match e with Arrive _ => granted s = ∅ | _ => True end.

(** No call whose event is set ends before it has run. *)
Definition no_lost_wakeup (e : event) (s : gate) : Prop :=
  match e with Leave t => t ∉ granted s | _ => True end.

Definition promised (s : gate) : Z := slots_used s + Z.of_nat (size (granted s)).

Lemma promised_take s t :
  t ∉ running s ->
  promised (take_slot t s) = promised s + 1 - (if decide (t ∈ granted s) then 1 else 0).
Proof.
  intros Hr. unfold promised. rewrite (slots_moved s (take_slot t s) t Running) by done.
  rewrite (granted_moved s (take_slot t s) t Running) by done.
  rewrite decide_False, (decide_True (P := Running = Running)) by done.
  case_decide as Hg; [|rewrite difference_disjoint_L by set_solver; lia].
  rewrite size_difference by set_solver. rewrite size_singleton.
  assert (size (granted s) <> 0)%nat by (apply size_non_empty_iff; set_solver). lia.
Qed.

Lemma promised_ungated s t o :
  g_calls s !! t = Some Ungated -> promised (set_call t (Over o) s) = promised s.
Proof.
  intros Ht. set (s' := set_call t (Over o) s).
  assert (t ∉ running s) by (rewrite elem_of_running, Ht; naive_solver).
  assert (t ∉ granted s) by (apply not_waiting_granted; unfold is_waiting; by rewrite Ht).
  unfold promised. rewrite (slots_moved s s' t (Over o)), (granted_moved s s' t (Over o)) by done.
  rewrite !decide_False by done. rewrite difference_disjoint_L by set_solver. lia.
Qed.

Lemma promised_quit s t o :
  is_waiting s t = true ->
  promised (set_call t (Over o) (abandon t s)) = promised s - (if decide (t ∈ granted s) then 1 else 0).
Proof.
  intros Hw. set (s' := set_call t (Over o) (abandon t s)).
  assert (t ∉ running s) as Hr.
  { rewrite elem_of_running. apply is_waiting_true in Hw as [d ->]. naive_solver. }
  unfold promised. rewrite (slots_moved s s' t (Over o)) by done.
  rewrite (granted_moved s s' t (Over o)) by done. rewrite !(decide_False (P := _ = Running)) by done.
  rewrite (decide_False (P := t ∈ running s)) by done.
  case_decide as Hg; [|rewrite difference_disjoint_L by set_solver; lia].
  rewrite size_difference by set_solver. rewrite size_singleton.
  assert (size (granted s) <> 0)%nat by (apply size_non_empty_iff; set_solver). lia.
Qed.

Lemma promised_finish s t :
  gate_ok s -> t ∈ running s ->
  promised (set_call t (Over Finished) (release s)) =
  promised s - (match g_waiters s with [] => 1 | _ => 0 end).
Proof.
  intros Hok Hr. set (s' := set_call t (Over Finished) (release s)).
  assert (g_calls s' = <[t := Over Finished]> (g_calls s)) as Hc by (unfold s', release; by case_match).
  assert (is_waiting s t = false) as Hnw.
  { apply elem_of_running in Hr. unfold is_waiting. by rewrite Hr. }
  unfold promised. rewrite (slots_moved s s' t _ Hc), decide_True, decide_False by done.
  destruct (g_waiters s) as [|u us] eqn:Hus.
  - assert (g_set s' = g_set s) as Hset by (unfold s', release; by rewrite Hus).
    rewrite (granted_moved s s' t _ Hc Hset) by done.
    rewrite difference_disjoint_L by (apply not_waiting_granted in Hnw; set_solver). lia.
  - assert (u ∈ g_waiters s) as Hu by (rewrite Hus; set_solver).
    apply (ok_waiters _ Hok) in Hu as [Huw Hus'].
    assert (u <> t) as Hut by (intros ->; by rewrite Hnw in Huw).
    assert (granted s' = {[u]} ∪ granted s) as ->.
    { apply set_eq. intros x. rewrite elem_of_union, !elem_of_granted, elem_of_singleton.
      assert (g_set s' = {[u]} ∪ g_set s) as -> by (unfold s', release; by rewrite Hus).
      rewrite elem_of_union, elem_of_singleton. destruct (decide (x = t)) as [->|Hx].
      - rewrite (waiting_now s s' t _ Hc), Hnw. naive_solver.
      - rewrite (waiting_moved s s' t _ x Hc) by done. naive_solver. }
    rewrite size_union, size_singleton; [lia|]. apply disjoint_singleton_l.
    rewrite elem_of_granted. tauto.
Qed.

Lemma promised_enter s t :
  gate_ok s -> g_calls s !! t = None -> 0 < max_concurrent ->
  promised (enter max_concurrent t s) = promised s + (if g_active s <? max_concurrent then 1 else 0).
Proof.
  intros Hok Ht Hm.
  assert (t ∉ running s) as Hr by (rewrite elem_of_running, Ht; naive_solver).
  assert (is_waiting s t = false) as Hnw by (unfold is_waiting; by rewrite Ht).
  apply not_waiting_granted in Hnw. unfold enter. rewrite (proj2 (Z.leb_gt _ _)) by lia.
  destruct (g_active s <? max_concurrent); [rewrite promised_take, decide_False by done; lia|].
  set (c := Waiting _). set (s' := Gate _ _ _ _ _). unfold promised.
  rewrite (slots_moved s s' t c) by done. rewrite !decide_False by done.
  assert (granted s' = granted s) as ->; [|lia].
  apply set_eq. intros x. rewrite !elem_of_granted. cbn [s' g_set].
  destruct (decide (x = t)) as [->|Hx]; [|by rewrite (waiting_moved s s' t c x)].
  assert (t ∉ g_set s) as Hts.
  { intros Hts. apply (ok_set _ Hok) in Hts as [c' Hc']. by rewrite Ht in Hc'. }
  tauto.
Qed.

(** Whatever [allowed] says, a step keeps the books. *)
Lemma gate_step_ok allowed s s' :
  gate_step allowed s s' -> gate_ok s -> gate_ok s'.
Proof. intros (e & _ & Hs) Hok. eauto using step_ok. Qed.

Lemma gate_steps_ok allowed s s' :
  rtc (gate_step allowed) s s' -> gate_ok s -> gate_ok s'.
Proof. induction 1; eauto using gate_step_ok. Qed.

(** Induction over the steps, with the books kept. *)
Lemma gate_induction allowed (P : gate -> Prop) s s' :
  (forall s1 s2, gate_step allowed s1 s2 -> gate_ok s1 -> P s1 -> P s2) ->
  rtc (gate_step allowed) s s' -> gate_ok s -> P s -> P s'.
Proof. intros Hp. induction 1 as [|s s1 s' Hs _ IH]; [done|]. eauto using gate_step_ok. Qed.
End limits.

(** What a step does to the slots that are used or promised. *)
Section traces.
Context `{GateLaws} (max_concurrent : Z) (Hmax : 0 < max_concurrent).

Lemma within_limit_step s s' :
  gate_step max_concurrent no_overtaking s s' -> gate_ok s ->
  promised s <= max_concurrent -> promised s' <= max_concurrent.
Proof.
  intros (e & Ha & Hs) Hok Hle. destruct e as [t|t|t|t|d]; cbn [step no_overtaking] in *.
  - destruct (g_calls s !! t) eqn:Ht; simplify_eq. rewrite promised_enter by done.
    assert (slots_used s = promised s) as Hu by (unfold promised; rewrite Ha, size_empty; lia).
    rewrite (ok_active _ Hok). destruct (Z.ltb_spec (slots_used s) max_concurrent); lia.
  - destruct (g_calls s !! t) as [[|d| |]|] eqn:Ht; simplify_eq. unfold resume.
    assert (is_waiting s t = true) as Hw by (unfold is_waiting; by rewrite Ht).
    case_decide as Hset.
    + rewrite promised_take by (rewrite elem_of_running, Ht; naive_solver).
      rewrite decide_True; [lia|]. by apply elem_of_granted.
    + destruct d as [d|]; [|done]. case_match; [|done]. rewrite promised_quit by done.
      case_decide; lia.
  - destruct (g_calls s !! t) as [[|d| |]|] eqn:Ht; simplify_eq.
    rewrite promised_quit by (unfold is_waiting; by rewrite Ht). case_decide; lia.
  - destruct (g_calls s !! t) as [[| | |]|] eqn:Ht; simplify_eq.
    + rewrite promised_ungated by done. lia.
    + rewrite promised_finish by (try apply elem_of_running; done). case_match; lia.
  - destruct (d <? 0); by simplify_eq.
Qed.

(** A waiting call stands behind a full house. *)
Definition full_house (s : gate) : Prop := g_waiters s <> [] -> max_concurrent <= promised s.

Lemma full_house_step s s' :
  gate_step max_concurrent no_lost_wakeup s s' -> gate_ok s -> full_house s -> full_house s'.
Proof.
  intros (e & Ha & Hs) Hok Hf Hw'. destruct e as [t|t|t|t|d]; cbn [step no_lost_wakeup] in *.
  - destruct (g_calls s !! t) eqn:Ht; simplify_eq. rewrite promised_enter by done.
    unfold enter in Hw'. rewrite (proj2 (Z.leb_gt _ _)) in Hw' by lia.
    destruct (Z.ltb_spec (g_active s) max_concurrent) as [Hl|Hl].
    + specialize (Hf Hw'). lia.
    + rewrite (ok_active _ Hok) in Hl. unfold promised. lia.
  - destruct (g_calls s !! t) as [[|d| |]|] eqn:Ht; simplify_eq. unfold resume in *.
    assert (is_waiting s t = true) as Hw by (unfold is_waiting; by rewrite Ht).
    case_decide as Hset.
    + rewrite promised_take by (rewrite elem_of_running, Ht; naive_solver).
      specialize (Hf Hw'). case_decide; lia.
    + destruct d as [d|]; [|auto]. case_match; [|auto]. rewrite promised_quit by done.
      rewrite decide_False by (rewrite elem_of_granted; tauto).
      rewrite Z.sub_0_r. apply Hf. intros Hn. apply Hw'. cbn. by rewrite Hn.
  - destruct (g_calls s !! t) as [[|d| |]|] eqn:Ht; simplify_eq.
    rewrite promised_quit by (unfold is_waiting; by rewrite Ht). rewrite decide_False by done.
    rewrite Z.sub_0_r. apply Hf. intros Hn. apply Hw'. cbn. by rewrite Hn.
  - destruct (g_calls s !! t) as [[| | |]|] eqn:Ht; simplify_eq.
    + rewrite promised_ungated by done. by apply Hf.
    + rewrite promised_finish by (try apply elem_of_running; done).
      destruct (g_waiters s) as [|u us] eqn:Hus; [|rewrite Z.sub_0_r; apply Hf; by rewrite Hus].
      exfalso. apply Hw'. unfold release. by rewrite Hus.
  - destruct (d <? 0); simplify_eq. by apply Hf.
Qed.

End traces.

(** ** Properties *)

(** C25. The books of a gate balance: whatever the calls do and in whatever order
    they run, leave or fail, the counter is the number of calls at work, every
    waiting call whose event is not set is in line exactly once, and the counter
    is back at zero when no call is at work. *)
Theorem gate_books_balance `{GateLaws} (max_concurrent now : Z) (s : gate) :
  rtc (gate_step max_concurrent (fun _ _ => True)) (new_gate now) s ->
  g_active s = Z.of_nat (size (running s)) /\ NoDup (g_waiters s)
  /\ (forall t, t ∈ g_waiters s <-> is_waiting s t = true /\ t ∉ g_set s)
  /\ (running s = ∅ -> g_active s = 0).
Proof.
  intros Hr. destruct (gate_steps_ok max_concurrent _ _ _ Hr (new_gate_ok now)) as [Ha Hn Hw _].
  split; [done|]. split; [done|]. split; [done|]. intros He. rewrite Ha. unfold slots_used.
  by rewrite He, size_empty.
Qed.

(** The limit: as long as no call arrives while a woken call has yet to run,
    at most [max_concurrent] calls are at work at any time. *)
Theorem gate_within_limit `{GateLaws} (max_concurrent now : Z) (s : gate) :
  0 < max_concurrent -> rtc (gate_step max_concurrent no_overtaking) (new_gate now) s ->
  Z.of_nat (size (running s)) <= max_concurrent.
Proof.
  intros Hm Hr.
  assert (promised s <= max_concurrent) as Hp; [|unfold promised, slots_used in Hp; lia].
  apply (gate_induction max_concurrent no_overtaking (fun s => promised s <= max_concurrent) (new_gate now));
    [by apply within_limit_step|done|apply new_gate_ok|].
  assert (granted (new_gate now) = ∅) as Hg by (apply set_eq; set_solver).
  unfold promised, slots_used. rewrite running_new, Hg, size_empty. lia.
Qed.

(** C26. No slot is left idle: as long as no call ends between being woken and
    running, a call waits only while all [max_concurrent] slots are taken or
    promised to calls that have been woken. *)
Theorem gate_keeps_busy `{GateLaws} (max_concurrent now : Z) (s : gate) :
  0 < max_concurrent -> rtc (gate_step max_concurrent no_lost_wakeup) (new_gate now) s ->
  g_waiters s <> [] ->
  max_concurrent <= Z.of_nat (size (running s)) + Z.of_nat (size (granted s)).
Proof.
  intros Hm Hr. apply (gate_induction max_concurrent no_lost_wakeup (full_house max_concurrent) (new_gate now));
    [by apply full_house_step|done|apply new_gate_ok|]. by intros [].
Qed.

(** A restricted trace is a trace. *)
Lemma run_steps `{GateKind} (max_concurrent : Z) es : forall s s',
  run max_concurrent es s = Some s' -> rtc (gate_step max_concurrent (fun _ _ => True)) s s'.
Proof.
  induction es as [|e es IH]; intros s s' Hr; cbn [run] in Hr; [by simplify_eq|].
  destruct (step max_concurrent e s) as [s1|] eqn:Hs; [|done]. cbn [mbind option_bind] in Hr.
  eapply rtc_l; [by exists e|]. by apply IH.
Qed.

(** The limit does not hold in general: a call that arrives after a slot was
    given back, but before the woken call has run, takes the slot, and the woken
    call takes another one.  With one slot, three calls are at work. *)
Theorem gate_over_limit :
  exists s, @run (DbGate.kind (us 5)) 1
      [Arrive 0; Arrive 1; Arrive 2; Finish 0; Arrive 3; Finish 3; Arrive 4; Resume 2; Resume 1]
      (new_gate 0) = Some s
    /\ running s = {[1; 2; 4]}%nat /\ g_active s = 3.
Proof. eexists. split; [vm_compute; reflexivity|]. split; [by vm_compute|reflexivity]. Qed.

(** A wake-up can be lost for ever: the client of the woken call disconnects
    before the call has run, no call is at work, and the other waiting call of
    the TiTiler gate stays in line whatever happens, until a new call arrives or
    its own client leaves. *)
Definition stranded_calls : gmap nat call :=
  {[ 0%nat := Over Finished; 1%nat := Waiting None; 2%nat := Over Left ]}.

Lemma stranded_step e s s' :
  (forall t, e <> Arrive t) -> e <> Leave 1 -> @step TitilerGate.kind 1 e s = Some s' ->
  g_calls s = stranded_calls /\ g_set s = {[2%nat]} ->
  g_calls s' = stranded_calls /\ g_set s' = {[2%nat]}.
Proof.
  intros Ha Hl Hs [Hc Hset].
  assert (forall t c, stranded_calls !! t = Some c ->
    t = 0%nat /\ c = Over Finished \/ t = 1%nat /\ c = Waiting None \/ t = 2%nat /\ c = Over Left) as Hcalls.
  { intros t c. unfold stranded_calls. rewrite !lookup_insert_Some, lookup_singleton_Some. naive_solver. }
  destruct e as [t|t|t|t|d]; cbn [step] in Hs; rewrite ?Hc in Hs; [by destruct (Ha t)| | | |].
  - destruct (stranded_calls !! t) as [c|] eqn:Ht; [|done].
    destruct (Hcalls t c Ht) as [[-> ->]|[[-> ->]|[-> ->]]]; try done.
    unfold resume in Hs. rewrite decide_False in Hs by (rewrite Hset; set_solver). by simplify_eq.
  - destruct (stranded_calls !! t) as [c|] eqn:Ht; [|done].
    by destruct (Hcalls t c Ht) as [[-> ->]|[[-> ->]|[-> ->]]].
  - destruct (stranded_calls !! t) as [c|] eqn:Ht; [|done].
    by destruct (Hcalls t c Ht) as [[-> ->]|[[-> ->]|[-> ->]]].
  - destruct (d <? 0); by simplify_eq.
Qed.

Theorem gate_wakeup_lost :
  exists s, @run TitilerGate.kind 1 [Arrive 0; Arrive 1; Arrive 2; Finish 0; Leave 2] (new_gate 0) = Some s
    /\ running s = ∅ /\ g_active s = 0
    /\ forall es s', (forall t, Arrive t ∉ es) -> Leave 1 ∉ es ->
       @run TitilerGate.kind 1 es s = Some s' -> is_waiting s' 1 = true.
Proof.
  eexists. split; [vm_compute; reflexivity|]. split; [by vm_compute|]. split; [reflexivity|].
  match goal with |- context [run 1 _ ?s0] => set (s := s0) end.
  assert (g_calls s = stranded_calls /\ g_set s = {[2%nat]}) as Hs by (split; by vm_compute).
  generalize s Hs. clear s Hs. intros s Hs es. revert s Hs.
  induction es as [|e es IH]; intros s Hs s' Ha Hl Hr; cbn [run] in Hr.
  - simplify_eq. destruct Hs as [Hc _]. unfold is_waiting. by rewrite Hc.
  - destruct (@step TitilerGate.kind 1 e s) as [s1|] eqn:Hst; [|done]. cbn [mbind option_bind] in Hr.
    apply (IH s1); [|set_solver|set_solver|done].
    apply (stranded_step e s s1); [set_solver|set_solver|done|done].
Qed.

(** ** Witnesses *)

Lemma gate_books_balance_witness :
  exists s, @run (DbGate.kind (us 5)) 1 [Arrive 0; Arrive 1; Tick (us 1); Finish 0] (new_gate 0) = Some s
    /\ g_active s = Z.of_nat (size (running s)) /\ NoDup (g_waiters s)
    /\ (forall t, t ∈ g_waiters s <-> is_waiting s t = true /\ t ∉ g_set s)
    /\ (running s = ∅ -> g_active s = 0).
Proof.
  eexists. split; [vm_compute; reflexivity|].
  apply (@gate_books_balance (DbGate.kind (us 5)) (DbGate.db_gate_laws (us 5)) 1 0).
  apply (@run_steps (DbGate.kind (us 5)) 1 [Arrive 0; Arrive 1; Tick (us 1); Finish 0]).
  by vm_compute.
Defined.

Ltac one_event e := eapply rtc_l; [exists e; split; [by vm_compute|reflexivity]|].

Lemma gate_within_limit_witness :
  exists s, rtc (@gate_step TitilerGate.kind 1 no_overtaking) (new_gate 0) s
    /\ is_waiting s 2 = true /\ Z.of_nat (size (running s)) <= 1.
Proof.
  assert (exists s, rtc (@gate_step TitilerGate.kind 1 no_overtaking) (new_gate 0) s
    /\ is_waiting s 2 = true) as (s & Hs & Hw).
  { eexists. split; [|].
    - one_event (Arrive 0). one_event (Arrive 1). one_event (Finish 0). one_event (Resume 1).
      one_event (Arrive 2). reflexivity.
    - by vm_compute. }
  exists s. split; [exact Hs|]. split; [exact Hw|].
  apply (@gate_within_limit TitilerGate.kind TitilerGate.titiler_gate_laws 1 0 s); [lia|exact Hs].
Defined.

Lemma gate_keeps_busy_witness :
  exists s, rtc (@gate_step (DbGate.kind (us 5)) 1 no_lost_wakeup) (new_gate 0) s
    /\ g_waiters s = [1%nat]
    /\ 1 <= Z.of_nat (size (running s)) + Z.of_nat (size (granted s)).
Proof.
  assert (exists s, rtc (@gate_step (DbGate.kind (us 5)) 1 no_lost_wakeup) (new_gate 0) s
    /\ g_waiters s = [1%nat]) as (s & Hs & Hw).
  { eexists. split; [|].
    - one_event (Arrive 0). one_event (Arrive 1). one_event (Arrive 2). one_event (Finish 0). reflexivity.
    - by vm_compute. }
  exists s. split; [exact Hs|]. split; [exact Hw|].
  apply (@gate_keeps_busy (DbGate.kind (us 5)) (DbGate.db_gate_laws (us 5)) 1 0 s); [lia|exact Hs|by rewrite Hw].
Defined.
