(* ===== verification/SingleFlight.v ===== *)
(** * Merging concurrent work
    (app/services/titiler_inflight.py, the lock table of app/services/search_result_cache.py)

    [await_tile_singleflight] lets one call fetch and the others await its
    future.  A step runs one coroutine between two suspensions; the block under
    [_lock] suspends nowhere.  A future is named by the number of the call that
    created it.  Cancelling a task cancels the future it awaits, as asyncio
    documents for a bare [await].

    The lock table keeps at most [MAX_CACHE_LOCKS] locks, the least recently used
    one is dropped first. *)

From S2P Require Import Prelude.

(** ** [await_tile_singleflight] *)

Inductive fut (V E : Type) :=
  | Pending
  | Result (v : V)
  | Raised (e : E)
  | Cancelled.
Arguments Pending {V E}.
Arguments Result {V E} v.
Arguments Raised {V E} e.
Arguments Cancelled {V E}.

Section inflight.
Context {V E : Type}.

(** [_pending]; the futures; the fetch tasks that have not ended, with their key;
    the future each call awaits. *)
Record flights := Flights {
  f_pending : gmap string nat;
  f_futures : gmap nat (fut V E);
  f_tasks : gmap nat string;
  f_awaits : gmap nat nat
}.
Definition no_flights : flights := Flights ∅ ∅ ∅ ∅.

(** A call [c] for [key]: it joins the pending future, or creates one and its
    fetch task. *)
Definition call (c : nat) (key : string) (s : flights) : flights :=
  match f_pending s !! key with
  | Some f => Flights (f_pending s) (f_futures s) (f_tasks s) (<[c := f]> (f_awaits s))
  | None =>
      Flights (<[key := c]> (f_pending s)) (<[c := Pending]> (f_futures s))
        (<[c := key]> (f_tasks s)) (<[c := c]> (f_awaits s))
  end.

(** [fut.set_result], [fut.set_exception]: [InvalidStateError] on a future that
    is done ends the task, after its [finally]. *)
Definition settle (f : nat) (r : E + V) (s : flights) : gmap nat (fut V E) :=
  match f_futures s !! f with
  | Some Pending => <[f := match r with inr v => Result v | inl e => Raised e end]> (f_futures s)
  | _ => f_futures s
  end.

(** The end of [_run] for the future [f]. *)
Definition fetched (f : nat) (key : string) (r : E + V) (s : flights) : flights :=
  Flights (if decide (f_pending s !! key = Some f) then delete key (f_pending s) else f_pending s)
    (settle f r s) (delete f (f_tasks s)) (f_awaits s).

(** The task of call [c] is cancelled while it awaits. *)
Definition cancel_call (f : nat) (s : flights) : flights :=
  match f_futures s !! f with
  | Some Pending => Flights (f_pending s) (<[f := Cancelled]> (f_futures s)) (f_tasks s) (f_awaits s)
  | _ => s
  end.

Inductive flight_event :=
  | Call (c : nat) (key : string)
  | Fetched (f : nat) (r : E + V)
  | CancelCall (c : nat).

Definition flight_step (e : flight_event) (s : flights) : option flights :=
  match e with
  | Call c key => match f_awaits s !! c with None => Some (call c key s) | Some _ => None end
  | Fetched f r => (fun key => fetched f key r s) <$> f_tasks s !! f
  | CancelCall c => (fun f => cancel_call f s) <$> f_awaits s !! c
  end.

Fixpoint flight_run (es : list flight_event) (s : flights) : option flights :=
  match es with
  | [] => Some s
  | e :: es' => s' ← flight_step e s; flight_run es' s'
  end.

(** What call [c] returns or raises, when its future is done. *)
Definition answer (c : nat) (s : flights) : option (fut V E) :=
  f ← f_awaits s !! c; f_futures s !! f.

(** The key of every pending future is being fetched by the task of that future,
    and by no other task. *)
Record flights_ok (s : flights) : Prop := {
  fo_tasks f key : f_tasks s !! f = Some key <-> f_pending s !! key = Some f;
  fo_live f : f_futures s !! f = Some Pending -> is_Some (f_tasks s !! f);
  fo_awaits c f : f_awaits s !! c = Some f -> is_Some (f_futures s !! f);
  fo_names f : is_Some (f_futures s !! f) -> is_Some (f_awaits s !! f);
  fo_started f : is_Some (f_tasks s !! f) -> is_Some (f_futures s !! f)
}.

Lemma no_flights_ok : flights_ok no_flights.
Proof. split; cbn; intros *; rewrite ?lookup_empty; try done; by intros []. Qed.

Lemma call_ok c key s : f_awaits s !! c = None -> flights_ok s -> flights_ok (call c key s).
Proof.
  intros Hc [Ht Hl Ha Hn Hs]. unfold call.
  assert (f_futures s !! c = None) as Hf.
  { apply eq_None_not_Some. intros Hf%Hn. rewrite Hc in Hf. by destruct Hf. }
  assert (f_tasks s !! c = None) as Htc.
  { apply eq_None_not_Some. intros Hx%Hs. rewrite Hf in Hx. by destruct Hx. }
  destruct (f_pending s !! key) as [g|] eqn:Hp.
  { split; cbn; try done.
    - intros d f. rewrite lookup_insert_Some. intros [[-> ->]|[_ Hd]]; [|eauto].
      apply Hs. exists key. by apply Ht.
    - intros f Hx. rewrite lookup_insert_is_Some. destruct (decide (c = f)); [by left|right]. eauto. }
  split; cbn.
  - intros f k. rewrite !lookup_insert_Some. destruct (decide (key = k)) as [<-|Hk].
    + split; [intros [[-> _]|[Hcf Hx]]; [by left|]|intros [[_ ->]|[? _]]; [by left|done]].
      apply Ht in Hx. congruence.
    + rewrite Ht. split; [intros [[_ ->]|[_ Hx]]; [done|by right]|].
      intros [[-> _]|[_ Hx]]; [done|]. right. split; [|done]. intros <-. apply Ht in Hx. congruence.
  - intros f. rewrite lookup_insert_Some, lookup_insert_is_Some. intros [[-> _]|[Hcf Hx]]; [by left|].
    right. eauto.
  - intros d f. rewrite !lookup_insert_Some, lookup_insert_is_Some.
    destruct (decide (c = f)); [by left|]. intros [[_ ->]|[_ Hd]]; [done|]. right. eauto.
  - intros f. rewrite !lookup_insert_is_Some. destruct (decide (c = f)); [by left|].
    intros [?|[_ Hx]]; [done|]. right. eauto.
  - intros f. rewrite !lookup_insert_is_Some. destruct (decide (c = f)); [by left|].
    intros [?|[_ Hx]]; [done|]. right. eauto.
Qed.

Lemma settle_pending f g r s :
  settle f r s !! g = Some Pending -> f_futures s !! g = Some Pending /\ g <> f.
Proof.
  unfold settle. destruct (f_futures s !! f) as [[]|] eqn:Hf; intros Hg.
  - apply lookup_insert_Some in Hg as [[_ Hr]|[Hne Hg]]; [by destruct r|]. done.
  - split; [done|]. congruence.
  - split; [done|]. congruence.
  - split; [done|]. congruence.
  - split; [done|]. congruence.
Qed.

Lemma settle_dom f r s g : is_Some (settle f r s !! g) <-> is_Some (f_futures s !! g).
Proof.
  unfold settle. destruct (f_futures s !! f) as [[]|] eqn:Hf; try done.
  rewrite lookup_insert_is_Some. destruct (decide (f = g)) as [->|]; [|naive_solver].
  rewrite Hf. split; [by eexists|by left].
Qed.

Lemma fetched_ok f key r s : f_tasks s !! f = Some key -> flights_ok s -> flights_ok (fetched f key r s).
Proof.
  intros Hf [Ht Hl Ha Hn Hs]. unfold fetched. rewrite decide_True by (by apply Ht). split; cbn.
  - intros g k. rewrite !lookup_delete_Some, Ht. pose proof (proj1 (Ht f key) Hf) as Hp.
    split; intros [Hne Hx]; (split; [|done]); intros <-; [congruence|].
    apply Ht in Hx. congruence.
  - intros g [Hg Hne]%settle_pending. rewrite lookup_delete_ne by done. by apply Hl.
  - intros c g Hg. apply settle_dom. eauto.
  - intros g Hg%settle_dom. eauto.
  - intros g [k [_ Hk]%lookup_delete_Some]. apply settle_dom. eauto.
Qed.

Lemma cancel_ok f s : flights_ok s -> flights_ok (cancel_call f s).
Proof.
  intros [Ht Hl Ha Hn Hs]. unfold cancel_call. destruct (f_futures s !! f) as [[]|] eqn:Hf; try done.
  split; cbn; try done.
  - intros g [[_ ?]|[_ Hg]]%lookup_insert_Some; [done|]. eauto.
  - intros c g Hg. rewrite lookup_insert_is_Some. destruct (decide (f = g)); [by left|]. right. eauto.
  - intros g [<-|[_ Hg]]%lookup_insert_is_Some; eauto.
  - intros g Hg. rewrite lookup_insert_is_Some. destruct (decide (f = g)); [by left|]. right. eauto.
Qed.

Lemma flight_step_ok e s s' : flight_step e s = Some s' -> flights_ok s -> flights_ok s'.
Proof.
  intros Hst Hok. destruct e as [c key|f r|c]; cbn [flight_step] in Hst.
  - destruct (f_awaits s !! c) eqn:Hc; simplify_eq. by apply call_ok.
  - destruct (f_tasks s !! f) as [key|] eqn:Hf; simplify_eq/=. by apply fetched_ok.
  - destruct (f_awaits s !! c) as [f|] eqn:Hc; simplify_eq/=. by apply cancel_ok.
Qed.

Lemma flight_run_snoc es e s :
  flight_run (es ++ [e])%list s = s' ← flight_run es s; flight_step e s'.
Proof.
  revert s. induction es as [|e' es IH]; intros s; cbn [flight_run app].
  - cbn [mbind option_bind]. by destruct (flight_step e s).
  - destruct (flight_step e' s) as [s1|]; [|done]. cbn [mbind option_bind]. apply IH.
Qed.

(** The state of the future of a settled fetch. *)
Definition settled (r : E + V) : fut V E := match r with inr v => Result v | inl e => Raised e end.

(** What the events tell about the state. *)
Record told (es : list flight_event) (s : flights) : Prop := {
  td_ok : flights_ok s;
  td_calls c key : Call c key ∈ es -> exists f, f_awaits s !! c = Some f /\ Call f key ∈ es;
  td_tasks f key : f_tasks s !! f = Some key -> Call f key ∈ es;
  td_done f x : f_futures s !! f = Some x ->
    x = Pending \/ (exists r, Fetched f r ∈ es /\ x = settled r)
    \/ (x = Cancelled /\ exists d, CancelCall d ∈ es /\ f_awaits s !! d = Some f)
}.

Lemma told_call es s c key : f_awaits s !! c = None -> told es s -> told (es ++ [Call c key]) (call c key s).
Proof.
  intros Hc [Hok Hcalls Htasks Hdone].
  assert (forall d, f_awaits s !! d <> None -> f_awaits (call c key s) !! d = f_awaits s !! d) as Hkeep.
  { intros d Hd. unfold call. case_match; cbn; rewrite lookup_insert_ne; congruence. }
  split; [by apply call_ok| | |].
  - intros d k. rewrite elem_of_app, list_elem_of_singleton. intros [Hd|[= -> ->]].
    + destruct (Hcalls d k Hd) as (f & Hf & Hin). exists f. rewrite Hkeep by congruence.
      split; [done|]. apply elem_of_app. by left.
    + unfold call. destruct (f_pending s !! key) as [f|] eqn:Hp; cbn.
      * exists f. rewrite lookup_insert_eq. split; [done|]. apply elem_of_app. left. apply Htasks.
        by apply (fo_tasks _ Hok).
      * exists c. rewrite lookup_insert_eq. split; [done|]. apply elem_of_app. right. set_solver.
  - intros f k. unfold call. case_match; cbn; intros Hf; apply elem_of_app.
    + left. by apply Htasks.
    + apply lookup_insert_Some in Hf as [[-> ->]|[_ Hf]]; [right; set_solver|left; by apply Htasks].
  - assert (forall f x, f_futures s !! f = Some x -> x = Pending
      \/ (exists r, Fetched f r ∈ (es ++ [Call c key])%list /\ x = settled r)
      \/ (x = Cancelled /\ exists d, CancelCall d ∈ (es ++ [Call c key])%list
                            /\ f_awaits (call c key s) !! d = Some f)) as Hold.
    { intros f x Hf. destruct (Hdone f x Hf) as [?|[(r & Hr & ?)|(-> & d & Hd & Hdf)]]; [by left| |].
      - right. left. exists r. set_solver.
      - right. right. split; [done|]. exists d. rewrite Hkeep by congruence. set_solver. }
    intros f x Hf. unfold call in Hf. destruct (f_pending s !! key); cbn in Hf; [by apply Hold|].
    apply lookup_insert_Some in Hf as [[_ <-]|[_ Hf]]; [by left|by apply Hold].
Qed.

Lemma told_fetched es s f key r :
  f_tasks s !! f = Some key -> told es s -> told (es ++ [Fetched f r]) (fetched f key r s).
Proof.
  intros Hf [Hok Hcalls Htasks Hdone]. split; [by apply fetched_ok| | |].
  - intros d k. rewrite elem_of_app, list_elem_of_singleton. intros [Hd|[=]].
    destruct (Hcalls d k Hd) as (g & Hg & Hin). exists g. set_solver.
  - intros g k Hg. cbn in Hg. apply lookup_delete_Some in Hg as [_ Hg]. apply elem_of_app. left.
    by apply Htasks.
  - assert (forall g x, f_futures s !! g = Some x -> x = Pending
      \/ (exists r', Fetched g r' ∈ (es ++ [Fetched f r])%list /\ x = settled r')
      \/ (x = Cancelled /\ exists d, CancelCall d ∈ (es ++ [Fetched f r])%list /\ f_awaits s !! d = Some g)) as Hold.
    { intros g x Hg. destruct (Hdone g x Hg) as [?|[(r' & Hr & ?)|(-> & d & Hd & Hdf)]]; [by left| |].
      - right. left. exists r'. set_solver.
      - right. right. split; [done|]. exists d. set_solver. }
    intros g x. cbn. unfold settle. intros Hg.
    destruct (f_futures s !! f) as [[]|] eqn:Hff; try by apply Hold.
    apply lookup_insert_Some in Hg as [[-> <-]|[_ Hg]]; [|by apply Hold].
    right. left. exists r. set_solver.
Qed.

Lemma told_cancel es s c f :
  f_awaits s !! c = Some f -> told es s -> told (es ++ [CancelCall c])%list (cancel_call f s).
Proof.
  intros Hf [Hok Hcalls Htasks Hdone].
  assert (f_awaits (cancel_call f s) = f_awaits s /\ f_tasks (cancel_call f s) = f_tasks s) as [Ha Hta]
    by (unfold cancel_call; by destruct (f_futures s !! f) as [[]|]).
  split; [by apply cancel_ok| | |].
  - intros d k. rewrite elem_of_app, list_elem_of_singleton. intros [Hd|[=]].
    destruct (Hcalls d k Hd) as (g & Hg & Hin). exists g. rewrite Ha. set_solver.
  - intros g k. rewrite Hta. intros Hg. apply elem_of_app. left. by apply Htasks.
  - rewrite Ha. assert (forall g x, f_futures s !! g = Some x -> x = Pending
      \/ (exists r', Fetched g r' ∈ (es ++ [CancelCall c])%list /\ x = settled r')
      \/ (x = Cancelled /\ exists d, CancelCall d ∈ (es ++ [CancelCall c])%list /\ f_awaits s !! d = Some g)) as Hold.
    { intros g x Hg. destruct (Hdone g x Hg) as [?|[(r' & Hr & ?)|(-> & d & Hd & Hdf)]]; [by left| |].
      - right. left. exists r'. set_solver.
      - right. right. split; [done|]. exists d. set_solver. }
    intros g x. unfold cancel_call. destruct (f_futures s !! f) as [[]|] eqn:Hff; try by apply Hold.
    cbn. intros [[-> <-]|[_ Hg]]%lookup_insert_Some; [|by apply Hold].
    right. right. split; [done|]. exists c. set_solver.
Qed.

Lemma told_run es : forall s,
  flight_run es no_flights = Some s -> told es s.
Proof.
  induction es as [|e es IH] using rev_ind; intros s Hr.
  { cbn in Hr. simplify_eq. split; [apply no_flights_ok|set_solver| |]; cbn; intros *;
      by rewrite lookup_empty. }
  rewrite flight_run_snoc in Hr. destruct (flight_run es no_flights) as [s1|] eqn:Hr1; [|done].
  cbn [mbind option_bind] in Hr.
  assert (told es s1) as Ht by by apply IH.
  destruct e as [c key|f r|c]; cbn [flight_step] in Hr.
  - destruct (f_awaits s1 !! c) eqn:Hc; simplify_eq. by apply told_call.
  - destruct (f_tasks s1 !! f) as [key|] eqn:Hf; simplify_eq/=. by apply told_fetched.
  - destruct (f_awaits s1 !! c) as [f|] eqn:Hc; simplify_eq/=. by apply told_cancel.
Qed.
End inflight.

(** ** The lock table of the search cache *)

Definition MAX_CACHE_LOCKS : nat := 256.

(** [_cache_locks], oldest first; locks are numbered in the order of their
    creation. *)
Record locks := Locks { lk_table : list (string * nat); lk_next : nat }.

Fixpoint find_lock (key : string) (l : list (string * nat)) : option nat :=
  match l with
  | [] => None
  | (k, n) :: l' => if decide (k = key) then Some n else find_lock key l'
  end.
Definition drop_lock (key : string) (l : list (string * nat)) : list (string * nat) :=
  List.filter (fun kn => negb (bool_decide (kn.1 = key))) l.

(** The [while] loop drops the oldest entries until there is room. *)
Definition evict (l : list (string * nat)) : list (string * nat) :=
  drop (S (length l) - MAX_CACHE_LOCKS) l.

(** [_get_or_create_lock]; [key] stands for the pair of the collection and the
    parameters. *)
Definition get_or_create_lock (key : string) (s : locks) : nat * locks :=
  match find_lock key (lk_table s) with
  | Some n => (n, Locks (drop_lock key (lk_table s) ++ [(key, n)])%list (lk_next s))
  | None =>
      (lk_next s, Locks (evict (lk_table s) ++ [(key, lk_next s)])%list (S (lk_next s)))
  end.

Fixpoint request_locks (keys : list string) (s : locks) : locks :=
  match keys with
  | [] => s
  | k :: keys' => request_locks keys' (get_or_create_lock k s).2
  end.

Lemma find_lock_app key l1 l2 :
  find_lock key (l1 ++ l2)%list = match find_lock key l1 with Some n => Some n | None => find_lock key l2 end.
Proof. induction l1 as [|[k n] l1 IH]; [done|]. cbn. by case_decide. Qed.

Lemma find_lock_In key l : is_Some (find_lock key l) <-> key ∈ l.*1.
Proof.
  induction l as [|[k n] l IH]; cbn; [split; [by intros []|set_solver]|].
  rewrite elem_of_cons, <- IH. case_decide as Hk; [subst; naive_solver|]. naive_solver.
Qed.

Lemma drop_lock_keys key l : (drop_lock key l).*1 = filter (fun k => k <> key) l.*1.
Proof.
  induction l as [|[k n] l IH]; [done|]. cbn [drop_lock List.filter fmap list_fmap fst].
  rewrite filter_cons. case_bool_decide as Hk; cbn [negb].
  - rewrite decide_False by tauto. exact IH.
  - rewrite decide_True by done. cbn. by f_equal.
Qed.

Lemma drop_lock_split key n l :
  NoDup l.*1 -> find_lock key l = Some n ->
  exists l1 l2, l = (l1 ++ (key, n) :: l2)%list /\ drop_lock key l = (l1 ++ l2)%list.
Proof.
  induction l as [|[k m] l IH]; [done|]. cbn [find_lock fmap list_fmap fst]. intros [Hk Hnd]%NoDup_cons Hf.
  unfold drop_lock. cbn [List.filter fst]. case_decide as He.
  - simplify_eq. exists [], l. split; [done|]. rewrite bool_decide_eq_true_2 by done. cbn.
    clear IH Hnd. induction l as [|[k' m'] l IH]; [done|]. cbn in Hk |- *.
    rewrite bool_decide_eq_false_2 by set_solver. cbn. f_equal. apply IH. set_solver.
  - destruct (IH Hnd Hf) as (l1 & l2 & -> & Hd). exists ((k, m) :: l1), l2. split; [done|].
    rewrite bool_decide_eq_false_2 by done. cbn. f_equal. exact Hd.
Qed.

(** The table: no key twice, and never more than the bound. *)
Definition locks_ok (s : locks) : Prop :=
  NoDup (lk_table s).*1 /\ (length (lk_table s) <= MAX_CACHE_LOCKS)%nat.

Lemma evict_length l :
  (length l <= MAX_CACHE_LOCKS)%nat -> (length (evict l) < MAX_CACHE_LOCKS)%nat.
Proof. unfold evict. rewrite length_drop. unfold MAX_CACHE_LOCKS. lia. Qed.

Lemma evict_sublist l : sublist (evict l).*1 l.*1.
Proof. unfold evict. rewrite fmap_drop. apply sublist_drop. Qed.

Lemma get_lock_ok key s : locks_ok s -> locks_ok (get_or_create_lock key s).2.
Proof.
  intros [Hn Hl]. unfold get_or_create_lock. destruct (find_lock key (lk_table s)) as [n|] eqn:Hf;
    split; cbn [snd lk_table].
  - rewrite fmap_app, drop_lock_keys. apply NoDup_app. split; [by apply NoDup_filter|].
    split; [|apply NoDup_singleton]. intros x [Hx _]%list_elem_of_filter. cbn. set_solver.
  - destruct (drop_lock_split key n _ Hn Hf) as (l1 & l2 & Heq & ->). rewrite Heq in Hl.
    rewrite !length_app in *. cbn in *. lia.
  - rewrite fmap_app. apply NoDup_app. split; [eapply sublist_NoDup; [exact Hn|apply evict_sublist]|].
    split; [|apply NoDup_singleton]. intros x Hx. cbn. rewrite list_elem_of_singleton. intros ->.
    assert (is_Some (find_lock key (lk_table s))) as [? ?]; [|congruence]. apply find_lock_In.
    eapply sublist_elem; [apply evict_sublist|done].
  - rewrite length_app. pose proof (evict_length _ Hl). change (length [(key, lk_next s)]) with 1%nat. lia.
Qed.

(** The lock of [key] is [n], and only keys of [K] were asked for since. *)
Definition holds_lock (key : string) (n : nat) (K : gset string) (s : locks) : Prop :=
  exists l1 l2, lk_table s = (l1 ++ (key, n) :: l2)%list /\ forall k, k ∈ l2.*1 -> k ∈ K.

Lemma find_lock_held key n l1 l2 :
  NoDup (l1 ++ (key, n) :: l2)%list.*1 -> find_lock key (l1 ++ (key, n) :: l2)%list = Some n.
Proof.
  rewrite fmap_app, find_lock_app. intros (Hn1 & Hd & _)%NoDup_app.
  destruct (find_lock key l1) as [m|] eqn:Hf; [|cbn; by rewrite decide_True].
  exfalso. apply (Hd key); [apply find_lock_In; by eexists|]. cbn. set_solver.
Qed.

Lemma drop_lock_app key l1 l2 : drop_lock key (l1 ++ l2)%list = (drop_lock key l1 ++ drop_lock key l2)%list.
Proof. unfold drop_lock. by rewrite List.filter_app. Qed.

Lemma drop_lock_ne key k n l :
  k <> key -> drop_lock key ((k, n) :: l) = (k, n) :: drop_lock key l.
Proof. intros Hk. unfold drop_lock. cbn. by rewrite bool_decide_eq_false_2. Qed.

Lemma held_request key n K k s :
  locks_ok s -> holds_lock key n K s -> (size ({[key; k]} ∪ K) <= MAX_CACHE_LOCKS)%nat ->
  holds_lock key n ({[k]} ∪ K) (get_or_create_lock k s).2.
Proof.
  intros [Hn Hl] (l1 & l2 & Heq & HK) Hsz. unfold get_or_create_lock, holds_lock.
  destruct (find_lock k (lk_table s)) as [m|] eqn:Hf; cbn [snd lk_table].
  - destruct (decide (k = key)) as [->|Hk].
    + rewrite Heq, find_lock_held in Hf by (by rewrite <- Heq). simplify_eq.
      eexists _, []. split; [done|]. set_solver.
    + exists (drop_lock k l1), (drop_lock k l2 ++ [(k, m)])%list. rewrite Heq, drop_lock_app, drop_lock_ne by done.
      split; [by rewrite <- app_assoc|]. intros x. rewrite fmap_app, drop_lock_keys, elem_of_app.
      intros [[_ Hx]%list_elem_of_filter|Hx]; [set_solver|]. cbn in Hx. set_solver.
  - assert (k ∉ (lk_table s).*1) as Hnk by (rewrite <- find_lock_In, Hf; by intros []).
    rewrite Heq in Hnk, Hn. rewrite fmap_app in Hnk, Hn. apply NoDup_app in Hn as (_ & _ & Hn2).
    cbn [fmap list_fmap fst] in Hn2, Hnk. apply NoDup_cons in Hn2 as [Hkey Hn2].
    assert (length l2 + 2 <= MAX_CACHE_LOCKS)%nat as Hlen.
    { etrans; [|exact Hsz]. rewrite <- (length_fmap fst l2).
      replace (length l2.*1 + 2)%nat with (length (k :: key :: l2.*1)) by (cbn; lia).
      rewrite <- (size_list_to_set (C := gset string)) by (repeat constructor; set_solver).
      apply subseteq_size. intros x. rewrite elem_of_list_to_set, !elem_of_cons. set_solver. }
    assert (S (length (lk_table s)) - MAX_CACHE_LOCKS <= length l1)%nat as Hdrop.
    { rewrite Heq, length_app in Hl |- *. cbn [length] in Hl |- *. lia. }
    exists (drop (S (length (lk_table s)) - MAX_CACHE_LOCKS) l1), (l2 ++ [(k, lk_next s)])%list.
    split; [|intros x; rewrite fmap_app, elem_of_app; cbn; set_solver].
    unfold evict. rewrite Heq at 2. rewrite drop_app_le by done. by rewrite <- app_assoc.
Qed.

Lemma request_locks_app ks1 ks2 s :
  request_locks (ks1 ++ ks2)%list s = request_locks ks2 (request_locks ks1 s).
Proof. revert s. induction ks1 as [|k ks1 IH]; intros s; [done|]. apply IH. Qed.

Lemma request_locks_ok ks s : locks_ok s -> locks_ok (request_locks ks s).
Proof. revert s. induction ks as [|k ks IH]; intros s Hok; [done|]. by apply IH, get_lock_ok. Qed.

Lemma held_requests key n ks : forall K s,
  locks_ok s -> holds_lock key n K s ->
  (size ({[key]} ∪ K ∪ list_to_set ks : gset string) <= MAX_CACHE_LOCKS)%nat ->
  holds_lock key n (K ∪ list_to_set ks) (request_locks ks s).
Proof.
  induction ks as [|k ks IH]; intros K s Hok Hh Hsz; cbn [request_locks].
  { by rewrite list_to_set_nil, union_empty_r_L. }
  rewrite list_to_set_cons in *.
  replace (K ∪ ({[k]} ∪ list_to_set ks)) with ({[k]} ∪ K ∪ list_to_set ks) by set_solver.
  apply IH; [by apply get_lock_ok| |].
  - apply held_request; [done|done|]. etrans; [|exact Hsz]. apply subseteq_size. set_solver.
  - etrans; [|exact Hsz]. apply subseteq_size. set_solver.
Qed.

Lemma held_after_get key s :
  locks_ok s -> holds_lock key (get_or_create_lock key s).1 ∅ (get_or_create_lock key s).2.
Proof.
  intros Hok. unfold get_or_create_lock, holds_lock. destruct (find_lock key (lk_table s)); cbn [fst snd lk_table].
  all: eexists _, []; split; [done|set_solver].
Qed.

(** ** Properties *)

(** C27. One fetch for all: in every state the calls, fetches and cancellations of the
    tile proxy reach, at most one fetch runs per key, and every call shares the future of
    the call that started the fetch of its key: it still waits for that fetch, which is
    running, or has the outcome of it, or has failed because a call with the same future
    was cancelled. *)
Theorem one_flight_serves_all {V E} (es : list (@flight_event V E)) (s : flights) :
  flight_run es no_flights = Some s ->
  (forall f g key, f_tasks s !! f = Some key -> f_tasks s !! g = Some key -> f = g)
  /\ (forall c key, Call c key ∈ es ->
        exists f, f_awaits s !! c = Some f /\ Call f key ∈ es
          /\ (answer c s = Some Pending /\ is_Some (f_tasks s !! f)
              \/ (exists r, Fetched f r ∈ es /\ answer c s = Some (settled r))
              \/ (answer c s = Some Cancelled /\ exists d, CancelCall d ∈ es /\ f_awaits s !! d = Some f))).
Proof.
  intros Hr. destruct (told_run es s Hr) as [Hok Hcalls Htasks Hdone].
  split; [intros f g key Hf Hg; apply (fo_tasks _ Hok) in Hf, Hg; congruence|].
  intros c key Hc. destruct (Hcalls c key Hc) as (f & Hf & Hin). exists f. split; [done|]. split; [done|].
  unfold answer. rewrite Hf. cbn [mbind option_bind].
  destruct (fo_awaits _ Hok _ _ Hf) as [x Hx]. rewrite Hx.
  destruct (Hdone f x Hx) as [->|[(r & Hr' & ->)|[-> Hd]]]; [left|right; left; by exists r|by right; right].
  split; [done|]. by apply (fo_live _ Hok).
Qed.

(** The lock table single-flights: it never holds more than [MAX_CACHE_LOCKS]
    locks, and two requests for a key get the same lock as long as no more than
    [MAX_CACHE_LOCKS] different keys, this one included, are asked for from the
    first to the second. *)
Theorem lock_table_shared (key : string) (before between : list string) :
  let s0 := request_locks before (Locks [] 0) in
  let s1 := (get_or_create_lock key s0).2 in
  let s2 := request_locks between s1 in
  (length (lk_table s2) <= MAX_CACHE_LOCKS)%nat
  /\ ((size (list_to_set (key :: between) : gset string) <= MAX_CACHE_LOCKS)%nat ->
      (get_or_create_lock key s2).1 = (get_or_create_lock key s0).1).
Proof.
  intros s0 s1 s2.
  assert (locks_ok s0) as Hok0 by (apply request_locks_ok; split; [constructor|cbn; lia]).
  assert (locks_ok s1) as Hok1 by by apply get_lock_ok.
  assert (locks_ok s2) as Hok2 by by apply request_locks_ok.
  split; [apply Hok2|]. intros Hsz.
  assert (holds_lock key (get_or_create_lock key s0).1 (∅ ∪ list_to_set between) s2) as (l1 & l2 & Heq & _).
  { apply held_requests; [done|by apply held_after_get|]. etrans; [|exact Hsz].
    rewrite list_to_set_cons. apply subseteq_size. set_solver. }
  unfold get_or_create_lock at 1. rewrite Heq, find_lock_held; [done|]. rewrite <- Heq. apply Hok2.
Qed.

(** One cancelled call fails the others: the second of three calls for a tile is
    cancelled while the tile is being fetched.  The fetch succeeds, but all three
    calls are answered with the cancellation. *)
Theorem one_cancel_fails_all :
  exists s, flight_run (V := string) (E := unit)
      [Call 0 "tile"; Call 1 "tile"; Call 2 "tile"; CancelCall 1; Fetched 0 (inr "png")] no_flights = Some s
    /\ answer 0 s = Some Cancelled /\ answer 1 s = Some Cancelled /\ answer 2 s = Some Cancelled.
Proof. eexists. split; [vm_compute; reflexivity|]. by repeat split. Qed.

(** The bound breaks the single flight: after requests for 256 other keys the
    lock of a key has been dropped, held or not, and the next request for that
    key gets another one. *)
Theorem lock_dropped_while_held :
  let others := map (fun n => "k" +:+ str_of_Z (Z.of_nat n)) (seq 0 256) in
  (get_or_create_lock "key" (request_locks ("key" :: others) (Locks [] 0))).1 = 257%nat
  /\ (get_or_create_lock "key" (Locks [] 0)).1 = 0%nat.
Proof. split; by vm_compute. Qed.

(** ** Witnesses *)

Lemma one_flight_serves_all_witness :
  exists s, flight_run (V := string) (E := unit)
      [Call 0 "a"; Call 1 "b"; Call 2 "a"; CancelCall 1; Fetched 0 (inr "png"); Call 3 "a"] no_flights = Some s
    /\ answer 2 s = Some (Result "png") /\ answer 3 s = Some Pending /\ answer 1 s = Some Cancelled
    /\ (forall f g key, f_tasks s !! f = Some key -> f_tasks s !! g = Some key -> f = g).
Proof.
  eexists. split; [vm_compute; reflexivity|]. split; [reflexivity|]. split; [reflexivity|].
  split; [reflexivity|]. eapply (@one_flight_serves_all string unit
    [Call 0 "a"; Call 1 "b"; Call 2 "a"; CancelCall 1; Fetched 0 (inr "png"); Call 3 "a"]).
  vm_compute. reflexivity.
Defined.

Lemma lock_table_shared_witness :
  let s0 := request_locks ["a"; "b"] (Locks [] 0) in
  let s2 := request_locks ["c"; "a"] (get_or_create_lock "b" s0).2 in
  (length (lk_table s2) <= MAX_CACHE_LOCKS)%nat
  /\ (get_or_create_lock "b" s2).1 = (get_or_create_lock "b" s0).1.
Proof.
  intros s0 s2. destruct (lock_table_shared "b" ["a"; "b"] ["c"; "a"]) as [Hl Hs].
  split; [exact Hl|apply Hs]. by vm_compute.
Defined.
