(* ===== verification/Session.v ===== *)
(** * Requests on the API's tables
    (app/db/session.py, app/api/deps.py, app/crud/user.py, app/core/auth.py)

    A handler that only reads and writes the tables of Tables.v is a computation
    of [DB]: it returns a value or raises an exception, and what it committed
    before it raised stays.  [on_tables] runs it in a process.  The statements of
    one request are not interleaved with those of another one. *)

From stdpp Require Import sorting.
From S2P Require Import Prelude PyTime Redis Postgres World Sha256.

Definition DB (A : Type) : Type := tables -> (exn + A) * tables.

#[export] Instance DB_ret : MRet DB := fun A a t => (inr a, t).
#[export] Instance DB_bind : MBind DB := fun A B f m t =>
  match m t with
  | (inr a, t') => f a t'
  | (inl e, t') => (inl e, t')
  end.

Definition raise_db {A} (e : exn) : DB A := fun t => (inl e, t).
Definition read {A} (f : tables -> A) : DB A := fun t => (inr (f t), t).
Definition read_all : DB tables := fun t => (inr t, t).
Definition write (f : tables -> tables) : DB unit := fun t => (inr tt, f t).
Definition when_db (b : bool) (m : DB unit) : DB unit := if b then m else mret tt.

(** [raise HTTPException(status_code=code, detail=detail)] *)
Definition refuse {A} (code : Z) (detail : string) : DB A := raise_db (HTTPException code (JStr detail)).

Definition on_tables {A} (m : DB A) : M A := fun w =>
  let (r, t) := m (w_tables w) in (r, with_tables w t).

(** What a query for at most one row gives, or the error the handler raises
    without it. *)
Definition row_or {A} (x : option A) (code : Z) (detail : string) : DB A :=
  match x with Some a => mret a | None => refuse code detail end.
Definition guard_or (b : bool) (code : Z) (detail : string) : DB unit :=
  if b then mret tt else refuse code detail.

(** [ORDER BY] follows the collation of the database for texts, and leaves rows of
    equal keys in any order: a parameter that sorts. *)
Class Collation := {
  order_by {A : Type} : (A -> option string) -> bool -> list A -> list A;   (* [true]: DESC *)
  order_by_time {A : Type} : (A -> Z) -> bool -> list A -> list A
}.
Class CollationLaws `{Collation} : Prop := {
  order_by_perm {A} (key : A -> option string) desc l : order_by key desc l ≡ₚ l;
  order_by_time_perm {A} (key : A -> Z) desc l : order_by_time key desc l ≡ₚ l
}.

(** The byte-wise collation, NULL last. *)
Definition byte_le (x y : option string) : bool :=
  match x, y with Some x, Some y => String.leb x y | _, None => true | None, Some _ => false end.
Definition sort_by {A K} (le : K -> K -> bool) (key : A -> K) (desc : bool) (l : list A) : list A :=
  let l := merge_sort (fun x y => Is_true (le (key x) (key y))) l in if desc then reverse l else l.
Definition byte_order : Collation := {|
  order_by A := sort_by byte_le;
  order_by_time A := sort_by Z.leb
|}.
Lemma sort_by_perm {A K} (le : K -> K -> bool) (key : A -> K) desc l : sort_by le key desc l ≡ₚ l.
Proof. unfold sort_by. destruct desc; [rewrite reverse_Permutation|]; apply merge_sort_Permutation. Qed.
Lemma byte_order_laws : @CollationLaws byte_order.
Proof. split; intros; apply sort_by_perm. Qed.

(** ** app/core/auth.py: bcrypt of passlib is a parameter *)

Class Bcrypt := {
  bcrypt_hash : string -> string;
  bcrypt_verify : string -> string -> bool
}.
Class BcryptLaws `{Bcrypt} : Prop := {
  bcrypt_sound secret secret' : bcrypt_verify secret (bcrypt_hash secret') = true <-> secret = secret'
}.

(** The hash that keeps the secret. *)
Definition plain_bcrypt : Bcrypt := {|
  bcrypt_hash s := s;
  bcrypt_verify s h := bool_decide (s = h)
|}.
Lemma plain_bcrypt_laws : @BcryptLaws plain_bcrypt.
Proof. split. intros s s'. apply bool_decide_eq_true. Qed.

Definition lower_hex (c : Ascii.ascii) : bool :=
  let n := Ascii.nat_of_ascii c in
  ((48 <=? n)%nat && (n <=? 57)%nat) || ((97 <=? n)%nat && (n <=? 102)%nat).

Fixpoint all_chars (p : Ascii.ascii -> bool) (s : string) : bool :=
  match s with
  | EmptyString => true
  | String c s' => p c && all_chars p s'
  end.

(** [HEX_64.match] on a stripped text. *)
Definition HEX_64 (s : string) : bool := (String.length s =? 64)%nat && all_chars lower_hex s.

(** [_secret] *)
Definition secret (value : string) : string :=
  if decide (value = "") then value
  else
    let v := lower (strip value) in
    if HEX_64 v then v else sha256_hex value.

Section passwords.
Context `{Bcrypt}.
Definition hash_password (password : string) : string := bcrypt_hash (secret password).
Definition verify_password (password hash : string) : bool := bcrypt_verify (secret password) hash.
End passwords.

(** ** app/crud/user.py *)

Definition users_named (t : tables) (name : string) : list User :=
  List.filter (fun u => bool_decide (username u = name)) (map_to_list (tb_users t)).*2.

(** [get_user_by_username]; user names are unique. *)
Definition get_user_by_username (t : tables) (name : string) : option User :=
  if decide (strip name = "") then None else head (users_named t (strip name)).

Definition get_user_by_id (t : tables) (id : Z) : option User := tb_users t !! id.

Definition put_user (id : Z) (u : User) (t : tables) : tables :=
  with_users t (tb_next_user t) (<[id := u]> (tb_users t)).

(** [create_user]: the unique index on the name refuses a second one. *)
Definition create_user `{Bcrypt} (name password : string) (admin must_change : bool) : DB User :=
  t ← read_all;
  let u := mkUser (tb_next_user t) (strip name) admin (hash_password password) must_change None in
  if decide (users_named t (strip name) = []) then
    write (fun t => with_users t (tb_next_user t + 1) (<[user_id u := u]> (tb_users t)));;
    mret u
  else raise_db (IntegrityError "duplicate key value violates unique constraint").

Definition set_password `{Bcrypt} (id : Z) (new_password : string) (must_change : bool) : DB (option User) :=
  t ← read_all;
  match get_user_by_id t id with
  | None => mret None
  | Some u =>
      let u := mkUser (user_id u) (username u) (is_admin u) (hash_password new_password) must_change
                 (nickname u) in
      write (put_user id u);; mret (Some u)
  end.

Definition update_user (id : Z) (admin must_change : option bool) : DB (option User) :=
  t ← read_all;
  match get_user_by_id t id with
  | None => mret None
  | Some u =>
      let u := mkUser (user_id u) (username u) (default (is_admin u) admin) (password_hash u)
                 (default (must_change_password u) must_change) (nickname u) in
      write (put_user id u);; mret (Some u)
  end.

(** [get_user_by_nickname]: nicknames are compared in lower case. *)
Definition get_user_by_nickname (t : tables) (nick : string) (exclude : Z) : option User :=
  if decide (strip nick = "") then None
  else
    head (List.filter (fun u => bool_decide (lower (opt_str (nickname u)) = lower (strip nick))
                                && negb (bool_decide (user_id u = exclude)))
            (map_to_list (tb_users t)).*2).

(** [set_nickname]; the unique index on the lower-case nickname refuses one that is
    taken. *)
Definition set_nickname (id : Z) (nick : option string) : DB (option User) :=
  t ← read_all;
  match get_user_by_id t id with
  | None => mret None
  | Some u =>
      let taken x := existsb (fun v => bool_decide (lower <$> nickname v = Some (lower x))
                                       && negb (bool_decide (user_id v = id)))
                       (map_to_list (tb_users t)).*2 in
      if match nick with Some x => taken x | None => false end
      then raise_db (IntegrityError "duplicate key value violates unique constraint")
      else
        let u := mkUser (user_id u) (username u) (is_admin u) (password_hash u) (must_change_password u)
                   nick in
        write (put_user id u);; mret (Some u)
  end.

(** [ON DELETE SET NULL] of the owner columns. *)
Definition disown_collection (id : Z) (c : Collection) : Collection :=
  if decide (c_owner_id c = Some id) then
    mkCollection (c_id c) (c_title c) (c_description c) (c_extent c) (c_stac_source c)
      (c_raster_settings c) None (c_visibility c) (c_viewer_can_edit c) (c_type c)
      (c_composite_members c) (c_index_fields c) (c_created_at c)
  else c.
Definition disown_style (id : Z) (s : Style) : Style :=
  if decide (st_owner_id s = Some id) then
    mkStyle (st_collection_id s) (st_id s) (st_title s) (st_is_default s) (st_spec s) None
      (st_visibility s)
  else s.
Definition disown_view (id : Z) (v : RasterView) : RasterView :=
  if decide (rv_owner_id v = Some id) then
    mkView (rv_id v) (rv_title v) None (rv_visibility v) (rv_json_path v) (rv_bbox v)
      (rv_definition v) (rv_allow_public_maps v) (rv_updated_at v)
  else v.
Definition disown_map (id : Z) (m : Map) : Map :=
  if decide (m_owner_id m = Some id) then
    mkMap (m_id m) (m_name m) (m_description m) (m_thumbnail m) (m_thumbnail_data m)
      (m_definition m) None (m_visibility m) (m_viewer_can_edit m) (m_updated_at m)
  else m.

Definition drop_user (id : Z) (t : tables) : tables :=
  Tables (delete id (tb_users t)) (tb_next_user t) (disown_collection id <$> tb_collections t)
    (tb_shares t) (disown_style id <$> tb_styles t) (disown_style id <$> tb_raster_styles t)
    (disown_view id <$> tb_views t) (disown_map id <$> tb_maps t) (tb_grants t)
    (tb_tiles t).

Definition delete_user (id : Z) : DB bool :=
  t ← read_all;
  match get_user_by_id t id with
  | None => mret false
  | Some _ => write (drop_user id);; mret true
  end.

(** ** app/api/deps.py *)

(** *** HTTP Basic *)

(** The alphabet of [base64.b64decode]. *)
Definition b64_value (c : Ascii.ascii) : option Z :=
  let n := Z.of_nat (Ascii.nat_of_ascii c) in
  if (65 <=? n) && (n <=? 90) then Some (n - 65)
  else if (97 <=? n) && (n <=? 122) then Some (n - 71)
  else if (48 <=? n) && (n <=? 57) then Some (n + 4)
  else if n =? 43 then Some 62
  else if n =? 47 then Some 63
  else None.

(** [binascii.a2b_base64] without strict mode: characters outside of the alphabet are
    skipped, complete padding ends the input.  [quad] is the position within four
    characters, [left] the bits that are left over. *)
Fixpoint a2b_base64 (s : string) (quad pads : nat) (left : Z) : option string :=
  let emit z rest := (fun r => String (Ascii.ascii_of_nat (Z.to_nat (Z.land z 255))) r) <$> rest in
  match s with
  | EmptyString => if (quad =? 0)%nat then Some "" else None
  | String c s' =>
      if decide (c = "="%char) then
        if (2 <=? quad)%nat && (4 <=? quad + S pads)%nat then Some ""
        else a2b_base64 s' quad (if (2 <=? quad)%nat then S pads else pads) left
      else
        match b64_value c with
        | None => a2b_base64 s' quad pads left
        | Some v =>
            match quad with
            | 0%nat => a2b_base64 s' 1 0 v
            | 1%nat => emit (Z.lor (Z.shiftl left 2) (Z.shiftr v 4)) (a2b_base64 s' 2 0 (Z.land v 15))
            | 2%nat => emit (Z.lor (Z.shiftl left 4) (Z.shiftr v 2)) (a2b_base64 s' 3 0 (Z.land v 3))
            | _ => emit (Z.lor (Z.shiftl left 6) v) (a2b_base64 s' 0 0 0)
            end
        end
  end.
(** [base64.b64decode] of a text: [inr None] is [binascii.Error], which the caller
    catches. *)
Definition b64decode (s : string) : res (option string) :=
  if all_chars (fun c => (Ascii.nat_of_ascii c <? 128)%nat) s then inr (a2b_base64 s 0 0 0)
  else inl (ValueError "string argument should contain only ASCII characters").

(** What [decode("utf-8")] accepts: [pending] continuation bytes, the next one within
    the bounds. *)
Fixpoint utf8_go (s : string) (pending : nat) (low high : Z) : bool :=
  match s with
  | EmptyString => (pending =? 0)%nat
  | String c s' =>
      let n := Z.of_nat (Ascii.nat_of_ascii c) in
      match pending with
      | S p => (low <=? n) && (n <=? high) && utf8_go s' p 128 191
      | O =>
          if n <? 128 then utf8_go s' 0 128 191
          else if (194 <=? n) && (n <=? 223) then utf8_go s' 1 128 191
          else if n =? 224 then utf8_go s' 2 160 191
          else if n =? 237 then utf8_go s' 2 128 159
          else if (225 <=? n) && (n <=? 239) then utf8_go s' 2 128 191
          else if n =? 240 then utf8_go s' 3 144 191
          else if (241 <=? n) && (n <=? 243) then utf8_go s' 3 128 191
          else if n =? 244 then utf8_go s' 3 128 143
          else false
      end
  end.
Definition utf8_ok (s : string) : bool := utf8_go s 0 128 191.

(** [decoded.partition(":")], for user name and password. *)
Fixpoint credentials (s : string) : string * string :=
  match s with
  | EmptyString => ("", "")
  | String c s' =>
      if decide (c = ":"%char) then ("", s')
      else let (name, password) := credentials s' in (String c name, password)
  end.

(** [get_current_user_optional]; [session] is [None] without the middleware. *)
Definition get_current_user_optional `{Bcrypt} (session : option (option string))
    (authorization : option string) (t : tables) : res (option User) :=
  let name := opt_str (default None session) in
  if negb (bool_decide (name = "")) then inr (get_user_by_username t name)
  else
    let header := strip (opt_str authorization) in
    if startswith "basic " (lower header) then
      let! decoded := b64decode (strip (str_drop 6 header)) in
      match decoded with
      | None => inr None
      | Some decoded =>
          if utf8_ok decoded then
            let (name, password) := credentials decoded in
            if decide (name = "") then inr None
            else
              match get_user_by_username t name with
              | Some u => inr (if verify_password password (password_hash u) then Some u else None)
              | None => inr None
              end
          else inr None
      end
    else inr None.

Example basic_ana :
  @get_current_user_optional plain_bcrypt None (Some "Basic YW5hOnNlc2FtZQ==")
    (with_users no_tables 2 {[1 := mkUser 1 "ana" false (@hash_password plain_bcrypt "sesame") false None]})
  = inr (Some (mkUser 1 "ana" false (@hash_password plain_bcrypt "sesame") false None)).
Proof. by vm_compute. Qed.
Example basic_wrong :
  @get_current_user_optional plain_bcrypt None (Some "Basic YW5hOnNlc2FtZT8=")
    (with_users no_tables 2 {[1 := mkUser 1 "ana" false (@hash_password plain_bcrypt "sesame") false None]})
  = inr None.
Proof. by vm_compute. Qed.

(** A credential outside of ASCII is not refused: the request fails. *)
Theorem basic_outside_ascii (t : tables) :
  @get_current_user_optional plain_bcrypt None (Some ("Basic " +:+ String "233"%char "")) t
  = inl (ValueError "string argument should contain only ASCII characters").
Proof. by vm_compute. Qed.

Definition get_current_user_required (current_user : option User) : DB User :=
  row_or current_user 401 "Authentication required".
Definition require_admin (current_user : option User) : DB User :=
  u ← get_current_user_required current_user;
  if is_admin u then mret u else refuse 403 "Admin access required".

(** *** Running [DB] *)

Lemma db_bind_run {A B} (m : DB A) (f : A -> DB B) t :
  (m ≫= f) t = match m t with (inr a, t') => f a t' | (inl e, t') => (inl e, t') end.
Proof. reflexivity. Qed.

Lemma on_tables_run {A} (m : DB A) w :
  on_tables m w = ((m (w_tables w)).1, with_tables w (m (w_tables w)).2).
Proof. unfold on_tables. by destruct (m (w_tables w)). Qed.

(** Case analysis on a guard of a handler: a refusal leaves the tables. *)
Lemma row_or_run {A B} (x : option A) code d (f : A -> DB B) t :
  (row_or x code d ≫= f) t =
  match x with Some a => f a t | None => (inl (HTTPException code (JStr d)), t) end.
Proof. by destruct x. Qed.
Lemma guard_or_run {B} b code d (f : unit -> DB B) t :
  (guard_or b code d ≫= f) t = if b then f tt t else (inl (HTTPException code (JStr d)), t).
Proof. by destruct b. Qed.
Lemma read_all_run {B} (f : tables -> DB B) t : (read_all ≫= f) t = f t t.
Proof. reflexivity. Qed.
Lemma db_bind_assoc {A B C} (m : DB A) (f : A -> DB B) (g : B -> DB C) t :
  ((m ≫= f) ≫= g) t = (m ≫= (fun a => f a ≫= g)) t.
Proof. rewrite !db_bind_run. by destruct (m t) as [[e|a] t']. Qed.
Lemma db_ret_run {A B} (a : A) (f : A -> DB B) t : (mret a ≫= f) t = f a t.
Proof. reflexivity. Qed.

(** ** Passwords *)

Lemma hex_digit_lower z : 0 <= z < 16 -> lower_hex (hex_digit z) = true.
Proof.
  intros Hz. assert (z ∈ [0;1;2;3;4;5;6;7;8;9;10;11;12;13;14;15]) as Hin by (rewrite !elem_of_cons; lia).
  repeat (apply elem_of_cons in Hin as [->|Hin]; [done|]). by apply not_elem_of_nil in Hin.
Qed.
Lemma all_chars_app p s s' : all_chars p (s +:+ s') = all_chars p s && all_chars p s'.
Proof. induction s as [|c s IH]; [done|]. rewrite app_str_cons. cbn. by rewrite IH, andb_assoc. Qed.

Lemma hex_word_lower w : all_chars lower_hex (hex_word w) = true.
Proof.
  unfold hex_word. assert (forall i, 0 <= Z.land (Z.shiftr w (4 * i)) 15 < 16) as Hb.
  { intros i. change 15 with (Z.ones 4). rewrite Z.land_ones by done. apply Z.mod_pos_bound. lia. }
  cbn [fold_right all_chars]. by rewrite !hex_digit_lower by apply Hb.
Qed.

Lemma hex_word_length w s : String.length (hex_word w +:+ s) = (8 + String.length s)%nat.
Proof. unfold hex_word. cbn [fold_right]. by rewrite !app_str_cons, app_str_nil_l. Qed.

Lemma round_length st kw : length (round st kw) = length st.
Proof. unfold round. by repeat case_match. Qed.
Lemma compress_length st block : length st = 8%nat -> length (compress st block) = 8%nat.
Proof.
  intros Hst. unfold compress. rewrite length_map, length_combine.
  assert (forall l st', length (fold_left round l st') = length st') as ->.
  { induction l as [|kw l IH]; intros st'; [done|]. cbn. by rewrite IH, round_length. }
  lia.
Qed.
Lemma blocks_length n : forall st words, length st = 8%nat -> length (blocks n st words) = 8%nat.
Proof.
  induction n as [|n IH]; intros st [|w words] Hst; try done. cbn [blocks]. by apply IH, compress_length.
Qed.
Lemma hex_words_ok l :
  let s := fold_right (fun w acc => hex_word w +:+ acc) "" l in
  String.length s = (8 * length l)%nat /\ all_chars lower_hex s = true.
Proof.
  induction l as [|w l [IHl IHc]]; [done|]. cbn [fold_right length]. split.
  - rewrite hex_word_length, IHl. lia.
  - by rewrite all_chars_app, hex_word_lower, IHc.
Qed.

(** A digest is 64 lower-case hexadecimal digits, so hashing a digest keeps it. *)
Lemma sha256_HEX_64 s : HEX_64 (sha256_hex s) = true.
Proof.
  unfold HEX_64, sha256_hex. destruct (hex_words_ok (blocks (S (String.length s)) initial_state
    (words_of (pad (bytes_of s))))) as [-> ->]. by rewrite blocks_length.
Qed.

Lemma lower_hex_keeps c : lower_hex c = true -> lower_ascii c = c /\ py_space c = false.
Proof. destruct c as [[] [] [] [] [] [] [] []]; try done; by vm_compute. Qed.
Lemma lower_of_hex s : all_chars lower_hex s = true -> lower s = s /\ lstrip s = s /\ rstrip s = s.
Proof.
  induction s as [|c s IH]; [done|]. cbn [all_chars]. intros [Hc Hs]%andb_true_iff.
  destruct (lower_hex_keeps c Hc) as [Hlow Hsp], (IH Hs) as (Hl & _ & Hr). split_and!.
  - cbn. by rewrite Hlow, Hl.
  - cbn. by rewrite Hsp.
  - cbn. rewrite Hr, Hsp. by destruct s.
Qed.
Lemma secret_of_hex h : HEX_64 h = true -> secret h = h.
Proof.
  intros Hh. pose proof Hh as Hh'. unfold HEX_64 in Hh. apply andb_true_iff in Hh as [Hlen Hs].
  destruct (lower_of_hex h Hs) as (Hlow & Hl & Hr). unfold secret. case_decide; [done|].
  unfold strip. by rewrite Hl, Hr, Hlow, Hh'.
Qed.

(** Login with the password or with its digest: a password that is not itself a
    digest is accepted in both forms once it is stored, and what else is accepted
    has the digest of the password. *)
Theorem password_or_digest `{BcryptLaws} (password other : string) :
  password <> "" -> HEX_64 (lower (strip password)) = false ->
  verify_password password (hash_password password) = true
  /\ verify_password (sha256_hex password) (hash_password password) = true
  /\ (verify_password other (hash_password password) = true <-> secret other = sha256_hex password).
Proof.
  intros Hne Hno. unfold verify_password, hash_password. rewrite !bcrypt_sound.
  assert (secret password = sha256_hex password) as Hs.
  { unfold secret. case_decide; [done|]. by rewrite Hno. }
  rewrite Hs. split_and!; [done|apply secret_of_hex, sha256_HEX_64|done].
Qed.

Lemma password_or_digest_witness :
  @verify_password plain_bcrypt "sesame" (@hash_password plain_bcrypt "sesame") = true
  /\ @verify_password plain_bcrypt (sha256_hex "sesame") (@hash_password plain_bcrypt "sesame") = true
  /\ (@verify_password plain_bcrypt "other" (@hash_password plain_bcrypt "sesame") = true
      <-> secret "other" = sha256_hex "sesame").
Proof. by apply (@password_or_digest plain_bcrypt plain_bcrypt_laws "sesame" "other"). Defined.
