(* ===== verification/Permissions.v ===== *)
(** * Who may see and who may edit
    (app/core/permissions.py, the resource ids of app/models/resource_share.py)

    The checks only read, so they are functions of the tables.  A caller is
    [None] (anonymous) or the row of a user. *)

From S2P Require Import Prelude PyTime Redis Postgres World Session.

Definition VISIBILITY_PUBLIC := "public".
Definition VISIBILITY_LOGGED := "logged".
Definition VISIBILITY_PRIVATE := "private".
Definition RESOURCE_TYPE_COLLECTION := "collection".
Definition RESOURCE_TYPE_MAP := "map".
Definition RESOURCE_TYPE_STYLE := "style".
Definition RESOURCE_TYPE_RASTER_VIEW := "raster_view".
Definition ROLE_VIEWER := "viewer".
Definition ROLE_EDITOR := "editor".

Definition style_resource_id (collection_id style_id : string) : string :=
  collection_id +:+ ":" +:+ style_id.
Definition raster_style_resource_id (collection_id style_id : string) : string :=
  "raster:" +:+ collection_id +:+ ":" +:+ style_id.

Definition visibility_visible_to_anon (v : string) : bool := bool_decide (v = VISIBILITY_PUBLIC).
Definition visibility_visible_to_logged (v : string) : bool :=
  bool_decide (v ∈ [VISIBILITY_PUBLIC; VISIBILITY_LOGGED]).

(** [get_share_role]; an empty role counts as none. *)
Definition get_share_role (t : tables) (rtype rid name : string) : option string :=
  if decide (name = "") then None
  else
    match tb_shares t !! (rtype, rid, name) with
    | Some r => if decide (r = "") then None else Some r
    | None => None
    end.

Definition may_view (role : option string) : bool :=
  match role with Some r => bool_decide (r ∈ [ROLE_VIEWER; ROLE_EDITOR]) | None => false end.
Definition may_edit (role : option string) : bool := bool_decide (role = Some ROLE_EDITOR).

Definition admin (user : option User) : bool := match user with Some u => is_admin u | None => false end.
Definition owns (owner : option Z) (u : User) : bool := bool_decide (owner = Some (user_id u)).

Definition can_see_collection (t : tables) (c : Collection) (user : option User) : bool :=
  if admin user then true
  else if visibility_visible_to_anon (c_visibility c) then true
  else
    match user with
    | None => false
    | Some u =>
        if visibility_visible_to_logged (c_visibility c) then true
        else if owns (c_owner_id c) u then true
        else may_view (get_share_role t RESOURCE_TYPE_COLLECTION (c_id c) (username u))
    end.

Definition can_edit_collection (t : tables) (c : Collection) (user : option User) : bool :=
  match user with
  | None => false
  | Some u =>
      if is_admin u then true
      else if owns (c_owner_id c) u then true
      else if may_edit (get_share_role t RESOURCE_TYPE_COLLECTION (c_id c) (username u)) then true
      else c_viewer_can_edit c && can_see_collection t c user
  end.

(** The check [can_see_map], [can_see_style], [can_see_raster_style] and
    [can_see_raster_view] share; [rtype] and [rid] name the resource's shares. *)
Definition can_see_resource (t : tables) (rtype rid : string) (owner : option Z) (visibility : string)
    (user : option User) : bool :=
  if admin user then true
  else if bool_decide (visibility = VISIBILITY_PUBLIC) then true
  else
    match user with
    | None => false
    | Some u =>
        if bool_decide (visibility = VISIBILITY_LOGGED) then true
        else if owns owner u then true
        else may_view (get_share_role t rtype rid (username u))
    end.

(** The check [can_edit_style] and [can_edit_raster_view] share. *)
Definition can_edit_resource (t : tables) (rtype rid : string) (owner : option Z)
    (user : option User) : bool :=
  match user with
  | None => false
  | Some u =>
      if is_admin u then true
      else if owns owner u then true
      else may_edit (get_share_role t rtype rid (username u))
  end.

Definition can_see_map (t : tables) (owner : option Z) (visibility map_id : string)
    (user : option User) : bool :=
  can_see_resource t RESOURCE_TYPE_MAP map_id owner visibility user.

Definition is_hex (c : Ascii.ascii) : bool := lower_hex (lower_ascii c).

(** [UUID(map_id)] on the texts the callers give: [str(row.id)]. *)
Definition is_uuid (s : string) : bool :=
  match split "-"%char s with
  | [a; b; c; d; e] =>
      bool_decide (map String.length [a; b; c; d; e] = [8; 4; 4; 4; 12]%nat)
        && forallb (all_chars is_hex) [a; b; c; d; e]
  | _ => false
  end.

Definition can_edit_map (t : tables) (owner : option Z) (map_id : string) (user : option User)
    (map_visibility : option string) (viewer_can_edit : option bool) : bool :=
  match user with
  | None => false
  | Some u =>
      if is_admin u then true
      else if owns owner u then true
      else if may_edit (get_share_role t RESOURCE_TYPE_MAP map_id (username u)) then true
      else
        let granted (vis : option string) (vce : option bool) :=
          default false vce && truthy vis && can_see_map t owner (opt_str vis) map_id user in
        match viewer_can_edit, map_visibility with
        | Some _, Some _ => granted map_visibility viewer_can_edit
        | _, _ =>
            if negb (is_uuid map_id) then false
            else
              match tb_maps t !! map_id with
              | Some row => granted (Some (m_visibility row)) (Some (m_viewer_can_edit row))
              | None => granted map_visibility viewer_can_edit
              end
        end
  end.

Definition can_see_style (t : tables) (owner : option Z) (visibility collection_id style_id : string)
    (user : option User) : bool :=
  can_see_resource t RESOURCE_TYPE_STYLE (style_resource_id collection_id style_id) owner visibility user.

Definition can_see_raster_style (t : tables) (owner : option Z)
    (visibility collection_id style_id : string) (user : option User) : bool :=
  can_see_resource t RESOURCE_TYPE_STYLE (raster_style_resource_id collection_id style_id) owner
    visibility user.

Definition can_see_raster_view (t : tables) (owner : option Z) (visibility view_id : string)
    (user : option User) : bool :=
  can_see_resource t RESOURCE_TYPE_RASTER_VIEW view_id owner visibility user.

Definition can_edit_raster_view (t : tables) (owner : option Z) (view_id : string)
    (user : option User) : bool :=
  can_edit_resource t RESOURCE_TYPE_RASTER_VIEW view_id owner user.

Definition can_access_raster_view_tiles_anonymous (visibility : string) (allow_public_maps : bool) : bool :=
  if bool_decide (visibility = VISIBILITY_PUBLIC) then true else allow_public_maps.

Definition can_edit_style (t : tables) (owner : option Z) (collection_id style_id : string)
    (user : option User) : bool :=
  can_edit_resource t RESOURCE_TYPE_STYLE (style_resource_id collection_id style_id) owner user.

(** ** Editing is seeing, and more is never less *)

Lemma may_edit_view role : may_edit role = true -> may_view role = true.
Proof. unfold may_edit. intros Hr%bool_decide_eq_true_1. by subst role. Qed.

Lemma edit_see_resource t rtype rid owner v user :
  can_edit_resource t rtype rid owner user = true -> can_see_resource t rtype rid owner v user = true.
Proof.
  unfold can_edit_resource, can_see_resource, admin. destruct user as [u|]; [|done].
  destruct (is_admin u); [done|]. destruct (owns owner u); [by repeat case_match|].
  intros Hr%may_edit_view. by repeat case_match.
Qed.

Lemma edit_see_collection t c user :
  can_edit_collection t c user = true -> can_see_collection t c user = true.
Proof.
  unfold can_edit_collection. destruct user as [u|]; [|done].
  destruct (c_viewer_can_edit c && can_see_collection t c (Some u)) eqn:Hv.
  { intros _. by apply andb_true_iff in Hv as [_ ?]. }
  unfold can_see_collection, admin. destruct (is_admin u); [done|].
  destruct (owns (c_owner_id c) u); [by repeat case_match|]. destruct (may_edit _) eqn:Hr; [|done].
  rewrite (may_edit_view _ Hr). by repeat case_match.
Qed.

Lemma edit_see_map t m user :
  tb_maps t !! m_id m = Some m -> can_edit_map t (m_owner_id m) (m_id m) user None None = true ->
  can_see_map t (m_owner_id m) (m_visibility m) (m_id m) user = true.
Proof.
  intros Hm He. unfold can_edit_map in He. destruct user as [u|]; [|done]. rewrite Hm in He.
  destruct (is_admin u) eqn:Ha; [unfold can_see_map, can_see_resource, admin; by rewrite Ha|].
  destruct (owns (m_owner_id m) u) eqn:Ho.
  { apply edit_see_resource. unfold can_edit_resource. by rewrite Ha, Ho. }
  destruct (may_edit _) eqn:Hr.
  { apply edit_see_resource. unfold can_edit_resource. by rewrite Ha, Ho. }
  destruct (is_uuid (m_id m)); [|done]. cbn [negb default opt_str] in He.
  apply andb_true_iff in He as [_ He]. done.
Qed.

(** The rights are ordered: whoever may edit a collection, a map, a saved mosaic
    or a style sees it, and a user sees whatever an anonymous caller sees. *)
Theorem rights_ordered (t : tables) (user : option User) :
  (forall c, can_edit_collection t c user = true -> can_see_collection t c user = true)
  /\ (forall m, tb_maps t !! m_id m = Some m ->
        can_edit_map t (m_owner_id m) (m_id m) user None None = true ->
        can_see_map t (m_owner_id m) (m_visibility m) (m_id m) user = true)
  /\ (forall v, can_edit_raster_view t (rv_owner_id v) (rv_id v) user = true ->
        can_see_raster_view t (rv_owner_id v) (rv_visibility v) (rv_id v) user = true)
  /\ (forall s c, can_edit_style t (st_owner_id s) c (st_id s) user = true ->
        can_see_style t (st_owner_id s) (st_visibility s) c (st_id s) user = true)
  /\ (forall c, can_see_collection t c None = true -> can_see_collection t c user = true)
  /\ (forall rtype rid owner v, can_see_resource t rtype rid owner v None = true ->
        can_see_resource t rtype rid owner v user = true).
Proof.
  split_and!.
  - intros c. apply edit_see_collection.
  - intros m. apply edit_see_map.
  - intros v. apply edit_see_resource.
  - intros s c. apply edit_see_resource.
  - intros c. unfold can_see_collection. cbn [admin].
    destruct (visibility_visible_to_anon _); [|done]. by destruct (admin user).
  - intros rtype rid owner v. unfold can_see_resource. cbn [admin].
    destruct (bool_decide _); [|done]. by destruct (admin user).
Qed.

(** ** Resource ids of styles *)

Definition no_colon (s : string) : bool := all_chars (fun c => negb (bool_decide (c = ":"%char))) s.

Lemma no_colon_tail c c' s s' :
  no_colon s = true -> no_colon s' = true -> c +:+ ":" +:+ s = c' +:+ ":" +:+ s' -> c = c' /\ s = s'.
Proof.
  revert c'. induction c as [|x c IH]; intros [|y c'] Hs Hs'; rewrite ?app_str_cons, ?app_str_nil_l.
  - by intros [= ->].
  - intros [= <- ->]. exfalso. clear -Hs. induction c' as [|z c' IH]; [done|].
    rewrite app_str_cons in Hs. cbn in Hs. apply andb_true_iff in Hs as [_ Hs]. by apply IH.
  - intros [= -> <-]. exfalso. clear -Hs'. induction c as [|z c IH]; [done|].
    rewrite app_str_cons in Hs'. cbn in Hs'. apply andb_true_iff in Hs' as [_ Hs']. by apply IH.
  - intros [= -> He]. destruct (IH c' Hs Hs' He) as [-> ->]. done.
Qed.

Lemma style_resource_id_inj c c' s s' :
  no_colon s = true -> no_colon s' = true ->
  style_resource_id c s = style_resource_id c' s' -> c = c' /\ s = s'.
Proof. apply no_colon_tail. Qed.
