(* ===== verification/Shares.v ===== *)
(** * Sharing a resource with a user
    (app/crud/resource_share.py, the share endpoints of app/api/routes:
    collections.py, maps.py, raster_views.py)

    A share gives a user name the role viewer or editor on a resource.  The
    endpoints check that the caller may edit the resource. *)

From S2P Require Import Prelude PyTime Redis Postgres World Session Permissions.

(** ** app/crud/resource_share.py *)

Definition normal_role (role : string) : string :=
  if decide (role ∈ [ROLE_VIEWER; ROLE_EDITOR]) then role else ROLE_VIEWER.

Lemma normal_role_ok role : normal_role role ∈ [ROLE_VIEWER; ROLE_EDITOR].
Proof. unfold normal_role. case_decide; [done|]. set_solver. Qed.

Definition put_share (rtype rid name role : string) (t : tables) : tables :=
  with_shares t (<[(rtype, rid, name) := role]> (tb_shares t)).
Definition drop_share (rtype rid name : string) (t : tables) : tables :=
  with_shares t (delete (rtype, rid, name) (tb_shares t)).

(** [add_share]: the row is updated or inserted with the stored user name;
    [None] when no such user exists. *)
Definition add_share (rtype rid name role : string) : DB (option (string * string)) :=
  t ← read_all;
  match get_user_by_username t (strip name) with
  | None => mret None
  | Some u =>
      write (put_share rtype rid (username u) (normal_role role));;
      mret (Some (username u, normal_role role))
  end.

Definition remove_share (rtype rid name : string) : DB bool :=
  t ← read_all;
  match tb_shares t !! (rtype, rid, strip name) with
  | None => mret false
  | Some _ => write (drop_share rtype rid (strip name));; mret true
  end.

Section shares.
Context `{Collation}.

(** [list_shares] *)
Definition list_shares (rtype rid : string) (t : tables) : list (string * string) :=
  order_by (fun x => Some x.1) false
    (omap (fun kv : (string * string * string) * string =>
             let '(ty, r, name, role) := kv in
             if decide (ty = rtype /\ r = rid) then Some (name, role) else None)
       (map_to_list (tb_shares t))).

(** What the three share endpoints of a resource have in common, after the
    resource was found and the caller's right to edit it was checked. *)
Definition add_share_reply (rtype rid name role : string) : DB (string * string) :=
  share ← add_share rtype rid name role;
  row_or share 404 "User not found".

(** ** Collections *)

Definition editable_collection (c : string) (user : option User) : DB Collection :=
  t ← read_all;
  coll ← row_or (tb_collections t !! c) 404 "Collection not found";
  guard_or (can_edit_collection t coll user) 403 "Permission denied";;
  mret coll.

Definition list_collection_shares (c : string) (user : option User) : DB (list (string * string)) :=
  editable_collection c user;;
  read (list_shares RESOURCE_TYPE_COLLECTION c).
Definition add_collection_share (c name role : string) (user : option User) : DB (string * string) :=
  editable_collection c user;;
  add_share_reply RESOURCE_TYPE_COLLECTION c name role.
Definition remove_collection_share (c name : string) (user : option User) : DB unit :=
  editable_collection c user;;
  remove_share RESOURCE_TYPE_COLLECTION c name;;
  mret tt.

(** ** Maps *)

Definition editable_map (m : string) (user : option User) : DB Map :=
  t ← read_all;
  row ← row_or (tb_maps t !! m) 404 "Map not found";
  guard_or (can_edit_map t (m_owner_id row) (m_id row) user None None) 403 "Permission denied";;
  mret row.

Definition list_map_shares (m : string) (user : option User) : DB (list (string * string)) :=
  editable_map m user;;
  read (list_shares RESOURCE_TYPE_MAP m).
Definition add_map_share (m name role : string) (user : option User) : DB (string * string) :=
  editable_map m user;;
  add_share_reply RESOURCE_TYPE_MAP m name role.
Definition remove_map_share (m name : string) (user : option User) : DB unit :=
  editable_map m user;;
  remove_share RESOURCE_TYPE_MAP m name;;
  mret tt.

(** ** Saved mosaics: the caller must be logged in *)

Definition editable_view (v : string) (user : option User) : DB RasterView :=
  u ← get_current_user_required user;
  t ← read_all;
  row ← row_or (tb_views t !! v) 404 "View not found";
  guard_or (can_edit_raster_view t (rv_owner_id row) v (Some u)) 403 "Permission denied";;
  mret row.

Definition list_raster_view_shares (v : string) (user : option User) : DB (list (string * string)) :=
  editable_view v user;;
  read (list_shares RESOURCE_TYPE_RASTER_VIEW v).
Definition add_raster_view_share (v name role : string) (user : option User) : DB (string * string) :=
  editable_view v user;;
  add_share_reply RESOURCE_TYPE_RASTER_VIEW v name role.
Definition remove_raster_view_share (v name : string) (user : option User) : DB unit :=
  editable_view v user;;
  ok ← remove_share RESOURCE_TYPE_RASTER_VIEW v name;
  guard_or ok 404 "Share not found".
End shares.
