(* ===== verification/Styles.v ===== *)
(** * Layer styles and raster style presets
    (app/crud/styles.py, app/crud/raster_styles.py; app/api/routes: styles.py,
    collection_styles.py, raster_styles.py, raster_public_styles.py)

    A style belongs to a collection or, with the empty collection id, to all of
    them.  The endpoints answer with the row; the links of the answer and the
    check of a raster specification ([normalize_raster]) are left out. *)

From S2P Require Import Prelude PyTime Redis Postgres World Json Session Permissions Shares.

Definition PUBLIC_COLLECTION_ID := "".

(** ** app/crud/styles.py and app/crud/raster_styles.py *)

Module Crud.
Section crud.
Context `{Collation}.

Definition styles_of (c : string) (m : gmap (string * string) Style) : list Style :=
  List.filter (fun s => bool_decide (st_collection_id s = c)) (map_to_list m).*2.

Definition list_collection_styles (c : string) (t : tables) : list Style :=
  order_by (fun s => Some (st_id s)) false (styles_of c (tb_styles t)).
Definition list_public_styles (t : tables) : list Style :=
  list_collection_styles PUBLIC_COLLECTION_ID t.

(** [scalar_one_or_none] *)
Definition one_or_none {A} (l : list A) : DB (option A) :=
  match l with
  | [] => mret None
  | [x] => mret (Some x)
  | _ => raise_db MultipleResultsFound
  end.

Definition defaults_of (c : string) (m : gmap (string * string) Style) : list Style :=
  List.filter st_is_default (styles_of c m).
Definition get_default_style (c : string) : DB (option Style) :=
  t ← read_all; one_or_none (defaults_of c (tb_styles t)).

Definition get_public_style (t : tables) (s : string) : option Style :=
  tb_styles t !! (PUBLIC_COLLECTION_ID, s).
Definition get_collection_style (t : tables) (c s : string) : option Style :=
  match tb_styles t !! (c, s) with
  | Some st => Some st
  | None => get_public_style t s
  end.

Definition set_is_default (b : bool) (s : Style) : Style :=
  mkStyle (st_collection_id s) (st_id s) (st_title s) b (st_spec s) (st_owner_id s) (st_visibility s).
Definition edit_style (title : option string) (spec : json) (is_default : bool) (visibility : string)
    (s : Style) : Style :=
  mkStyle (st_collection_id s) (st_id s) title is_default spec (st_owner_id s) visibility.

Definition put_style (s : Style) (m : gmap (string * string) Style) : gmap (string * string) Style :=
  <[(st_collection_id s, st_id s) := s]> m.

(** [_unset_default_for_collection] *)
Definition unset_default_for_collection (c : string) (m : gmap (string * string) Style)
    : gmap (string * string) Style :=
  (fun s => if bool_decide (st_collection_id s = c) && st_is_default s then set_is_default false s else s)
    <$> m.

Definition update_styles (f : gmap (string * string) Style -> gmap (string * string) Style) : DB unit :=
  write (fun t => with_styles t (f (tb_styles t))).

(** [create_style]: the primary key refuses a second style of the same id. *)
Definition create_style (s : string) (spec : json) (title : option string) (c : string)
    (set_default : bool) (owner : option Z) (visibility : string) : DB Style :=
  t ← read_all;
  let row := mkStyle c s title set_default spec owner visibility in
  match tb_styles t !! (c, s) with
  | Some _ => raise_db (IntegrityError "duplicate key value violates unique constraint")
  | None =>
      update_styles (fun m =>
        put_style row (if negb (bool_decide (c = "")) && set_default
                       then unset_default_for_collection c m else m));;
      mret row
  end.

(** The row of [get_collection_style], when it belongs to the collection. *)
Definition own_style (t : tables) (c s : string) : option Style :=
  match get_collection_style t c s with
  | Some st => if decide (st_collection_id st = c) then Some st else None
  | None => None
  end.

Definition replace_style (c s : string) (spec : json) (title : option string) (set_default : bool)
    : DB (option Style) :=
  t ← read_all;
  match own_style t c s with
  | None => mret None
  | Some st =>
      let st := edit_style title spec set_default (st_visibility st) st in
      update_styles (fun m =>
        put_style st (if set_default then unset_default_for_collection c m else m));;
      mret (Some st)
  end.

Definition known_visibility (v : string) : bool :=
  bool_decide (v ∈ [VISIBILITY_PRIVATE; VISIBILITY_LOGGED; VISIBILITY_PUBLIC]).
(** [if visibility is not None and visibility in (...)] *)
Definition patched_visibility (old : string) (v : option string) : string :=
  match v with Some v => if known_visibility v then v else old | None => old end.

Definition patch_style (c s : string) (title : option string) (spec : option json)
    (set_default : option bool) (visibility : option string) : DB (option Style) :=
  t ← read_all;
  match own_style t c s with
  | None => mret None
  | Some st =>
      let st := edit_style (match title with Some _ => title | None => st_title st end)
                  (default (st_spec st) spec) (default (st_is_default st) set_default)
                  (patched_visibility (st_visibility st) visibility) st in
      update_styles (fun m =>
        put_style st (if default false set_default then unset_default_for_collection c m else m));;
      mret (Some st)
  end.

Definition replace_public_style (s : string) (spec : json) (title : option string) : DB (option Style) :=
  t ← read_all;
  match get_public_style t s with
  | None => mret None
  | Some st =>
      let st := edit_style title spec (st_is_default st) (st_visibility st) st in
      update_styles (put_style st);; mret (Some st)
  end.

Definition patch_public_style (s : string) (title : option string) (spec : option json)
    (visibility : option string) : DB (option Style) :=
  t ← read_all;
  match get_public_style t s with
  | None => mret None
  | Some st =>
      let st := edit_style (match title with Some _ => title | None => st_title st end)
                  (default (st_spec st) spec) (st_is_default st)
                  (patched_visibility (st_visibility st) visibility) st in
      update_styles (put_style st);; mret (Some st)
  end.

Definition delete_style (c s : string) : DB bool :=
  t ← read_all;
  match tb_styles t !! (c, s) with
  | None => mret false
  | Some _ => update_styles (delete (c, s));; mret true
  end.

Definition delete_collection_styles (c : string) : DB unit :=
  update_styles (filter (fun kv : (string * string) * Style => st_collection_id kv.2 <> c)).

(** [upsert_raster_style] *)
Definition upsert_raster_style (c s : string) (title : option string) (spec : json)
    (owner : option Z) (set_default : bool) (visibility : option string) : DB Style :=
  t ← read_all;
  let row :=
    match tb_raster_styles t !! (c, s) with
    | None =>
        mkStyle c s title false spec owner (str_or (opt_str visibility) "private")
    | Some st => edit_style title spec (st_is_default st) (default (st_visibility st) visibility) st
    end in
  let row := if set_default then set_is_default true row else row in
  write (fun t => with_raster_styles t
    (put_style row (if set_default then unset_default_for_collection c (tb_raster_styles t)
                    else tb_raster_styles t)));;
  mret row.
End crud.
End Crud.

(** ** What the endpoints check *)

Definition id_char (c : Ascii.ascii) : bool :=
  let n := Ascii.nat_of_ascii c in
  ((48 <=? n)%nat && (n <=? 57)%nat) || ((65 <=? n)%nat && (n <=? 90)%nat)
  || ((97 <=? n)%nat && (n <=? 122)%nat) || bool_decide (c = "_"%char) || bool_decide (c = "-"%char).

Definition newline : Ascii.ascii := "010"%char.

(** [STYLE_ID_PATTERN.match]: one or more characters of the class; [$] also
    matches before a final line break. *)
Fixpoint style_id_tail (s : string) : bool :=
  match s with
  | EmptyString => true
  | String c s' =>
      if id_char c then style_id_tail s'
      else bool_decide (c = newline) && bool_decide (s' = "")
  end.
Definition style_id_ok (s : string) : bool :=
  match s with
  | EmptyString => false
  | String c s' => id_char c && style_id_tail s'
  end.

Definition validate_style_id (s : string) : DB unit :=
  guard_or (style_id_ok s) 400
    "Style id must be non-empty and contain only letters, numbers, hyphen, underscore".

(** [default_style_spec] of app/schemas/style.py *)
Definition default_style_spec : list (string * json) :=
  [("fillColor", JStr "#58a6ff"); ("lineColor", JStr "#58a6ff"); ("fillOpacity", JFloat "0.6");
   ("lineOpacity", JFloat "1.0"); ("lineWidth", JFloat "1.0"); ("linePattern", JStr "solid");
   ("fillEnabled", JBool true); ("lineEnabled", JBool true); ("pointEnabled", JBool true);
   ("pointColor", JStr "#58a6ff"); ("pointOpacity", JFloat "1.0"); ("pointSize", JFloat "8.0");
   ("pointIcon", JStr "circle")].

Definition extended_keys : list string :=
  ["pointOpacity"; "fillOpacityZoom"; "lineWidthZoom"; "lineOpacityZoom"; "pointSizeZoom";
   "pointOpacityZoom"; "rules"].

(** [_normalize_spec] *)
Definition normalize_spec (spec : list (string * json)) : json :=
  let d := map (fun kv => (kv.1, default kv.2 (dict_get kv.1 spec))) default_style_spec in
  JObj (foldl (fun d k =>
          match dict_get k spec with
          | Some JNull | None => d
          | Some v => dict_set k v d
          end) d extended_keys).

(** The bodies of the requests. *)
Record StyleCreate := mkStyleCreate {
  sc_id : string;
  sc_title : option string;
  sc_spec : list (string * json);
  sc_set_default : bool
}.
Record StylePatch := mkStylePatch {
  sp_title : option string;
  sp_spec : option (list (string * json));
  sp_set_default : option bool;
  sp_visibility : option string
}.

(** ** app/api/routes/styles.py: the styles of no collection *)

Module Public.
Section public.
Context `{Collation}.

Definition visible_style (t : tables) (user : option User) (c : string) (s : Style) : bool :=
  can_see_style t (st_owner_id s) (st_visibility s) c (st_id s) user.

Definition list_styles (user : option User) : DB (list Style) :=
  read (fun t => List.filter (visible_style t user PUBLIC_COLLECTION_ID) (Crud.list_public_styles t)).

Definition get_style (s : string) (user : option User) : DB Style :=
  t ← read_all;
  st ← row_or (Crud.get_public_style t s) 404 "Style not found";
  guard_or (can_see_style t (st_owner_id st) (st_visibility st) PUBLIC_COLLECTION_ID s user)
    404 "Style not found";;
  mret st.

Definition create_style (p : StyleCreate) (user : option User) : DB Style :=
  u ← get_current_user_required user;
  validate_style_id (sc_id p);;
  t ← read_all;
  guard_or (negb (bool_decide (is_Some (Crud.get_public_style t (sc_id p))))) 409
    "A public style with this id already exists";;
  Crud.create_style (sc_id p) (normalize_spec (sc_spec p)) (sc_title p) PUBLIC_COLLECTION_ID false
    (Some (user_id u)) "public".

Definition replace_style (s : string) (title : option string) (spec : list (string * json))
    (user : option User) : DB Style :=
  get_current_user_required user;;
  st ← Crud.replace_public_style s (normalize_spec spec) title;
  row_or st 404 "Style not found".

Definition patch_style (s : string) (p : StylePatch) (user : option User) : DB Style :=
  get_current_user_required user;;
  st ← Crud.patch_public_style s (sp_title p) (normalize_spec <$> sp_spec p) (sp_visibility p);
  row_or st 404 "Style not found".

(** [(style_obj.owner_id or 0) != current_user.id and not current_user.is_admin] *)
Definition owner_or_admin (owner : option Z) (u : User) : bool :=
  bool_decide (default 0 owner = user_id u) || is_admin u.

Definition own_public_style (s : string) (user : option User) : DB Style :=
  u ← get_current_user_required user;
  t ← read_all;
  st ← row_or (Crud.get_public_style t s) 404 "Style not found";
  guard_or (owner_or_admin (st_owner_id st) u) 403 "Permission denied";;
  mret st.

Definition list_style_shares (s : string) (user : option User) : DB (list (string * string)) :=
  own_public_style s user;;
  read (list_shares RESOURCE_TYPE_STYLE s).
Definition add_style_share (s name role : string) (user : option User) : DB (string * string) :=
  own_public_style s user;;
  add_share_reply RESOURCE_TYPE_STYLE s name role.
Definition remove_style_share (s name : string) (user : option User) : DB unit :=
  own_public_style s user;;
  remove_share RESOURCE_TYPE_STYLE s name;;
  mret tt.

Definition delete_style (s : string) (user : option User) : DB unit :=
  get_current_user_required user;;
  deleted ← Crud.delete_style PUBLIC_COLLECTION_ID s;
  guard_or deleted 404 "Style not found".
End public.
End Public.

(** ** app/api/routes/collection_styles.py *)

Module OfCollection.
Section of_collection.
Context `{Collation}.

Definition seen_collection (c : string) (user : option User) : DB Collection :=
  t ← read_all;
  coll ← row_or (tb_collections t !! c) 404 "Collection not found";
  guard_or (can_see_collection t coll user) 404 "Collection not found";;
  mret coll.

(** An anonymous caller is shown every style of a collection it sees. *)
Definition list_collection_styles (c : string) (user : option User) : DB (list Style) :=
  seen_collection c user;;
  read (fun t =>
    let items := Crud.list_collection_styles c t in
    match user with
    | None => items
    | Some _ => List.filter (Public.visible_style t user c) items
    end).

Definition get_collection_style (c s : string) (user : option User) : DB Style :=
  seen_collection c user;;
  t ← read_all;
  st ← row_or (Crud.get_collection_style t c s) 404 "Style not found";
  guard_or match user with
           | None => true
           | Some _ => can_see_style t (st_owner_id st) (st_visibility st) c s user
           end 404 "Style not found";;
  mret st.

Definition save_collection_style (c : string) (p : StyleCreate) (user : option User) : DB Style :=
  editable_collection c user;;
  validate_style_id (sc_id p);;
  t ← read_all;
  match Crud.own_style t c (sc_id p) with
  | Some _ =>
      st ← Crud.replace_style c (sc_id p) (normalize_spec (sc_spec p)) (sc_title p) (sc_set_default p);
      match st with
      | Some st => mret st
      | None => raise_db (AttributeError "'NoneType' object has no attribute 'id'")
      end
  | None =>
      Crud.create_style (sc_id p) (normalize_spec (sc_spec p)) (sc_title p) c (sc_set_default p)
        (user_id <$> user) "private"
  end.

(** The collection exists, the style exists and the caller may edit it. *)
Definition editable_style (c s : string) (user : option User) : DB Style :=
  t ← read_all;
  row_or (tb_collections t !! c) 404 "Collection not found";;
  st ← row_or (Crud.get_collection_style t c s) 404 "Style not found";
  guard_or (can_edit_style t (st_owner_id st) c s user) 403 "Permission denied";;
  mret st.

Definition replace_collection_style (c s : string) (title : option string)
    (spec : list (string * json)) (set_default : bool) (user : option User) : DB Style :=
  editable_style c s user;;
  st ← Crud.replace_style c s (normalize_spec spec) title set_default;
  row_or st 404 "Style not found".

Definition patch_collection_style (c s : string) (p : StylePatch) (user : option User) : DB Style :=
  editable_style c s user;;
  st ← Crud.patch_style c s (sp_title p) (normalize_spec <$> sp_spec p) (sp_set_default p)
         (sp_visibility p);
  row_or st 404 "Style not found".

(** The share endpoints do not look the collection up. *)
Definition editable_own_style (c s : string) (user : option User) : DB Style :=
  t ← read_all;
  st ← row_or (Crud.own_style t c s) 404 "Style not found";
  guard_or (can_edit_style t (st_owner_id st) c s user) 403 "Permission denied";;
  mret st.

Definition list_collection_style_shares (c s : string) (user : option User)
    : DB (list (string * string)) :=
  editable_own_style c s user;;
  read (list_shares RESOURCE_TYPE_STYLE (style_resource_id c s)).
Definition add_collection_style_share (c s name role : string) (user : option User)
    : DB (string * string) :=
  editable_own_style c s user;;
  add_share_reply RESOURCE_TYPE_STYLE (style_resource_id c s) name role.
Definition remove_collection_style_share (c s name : string) (user : option User) : DB unit :=
  editable_own_style c s user;;
  remove_share RESOURCE_TYPE_STYLE (style_resource_id c s) name;;
  mret tt.

Definition delete_collection_style (c s : string) (user : option User) : DB unit :=
  editable_style c s user;;
  deleted ← Crud.delete_style c s;
  guard_or deleted 404 "Style not found".
End of_collection.
End OfCollection.

(** ** app/api/routes/raster_styles.py and raster_public_styles.py *)

Record RasterPatch := mkRasterPatch {
  rp_title : option string;
  rp_spec : option json;
  rp_set_default : option bool;
  rp_visibility : option string
}.

Module Raster.
Section raster.
Context `{Collation} (normalize_raster : json -> exn + json).

Definition ensure_raster_collection (c : Collection) : DB unit :=
  guard_or (bool_decide (c_type c = "raster")) 400
    "This endpoint is only available for raster collections.".
Definition normalized (spec : json) : DB json :=
  match normalize_raster spec with inr j => mret j | inl e => raise_db e end.

Definition seen_raster (c : string) (user : option User) : DB unit :=
  t ← read_all;
  coll ← row_or (tb_collections t !! c) 404 "Collection not found";
  ensure_raster_collection coll;;
  guard_or (can_see_collection t coll user) 404 "Collection not found".
Definition editable_raster (c : string) (user : option User) : DB unit :=
  t ← read_all;
  coll ← row_or (tb_collections t !! c) 404 "Collection not found";
  ensure_raster_collection coll;;
  guard_or (can_edit_collection t coll user) 403 "Permission denied".

Definition list_raster_styles (c : string) (user : option User) : DB (list Style) :=
  seen_raster c user;;
  read (fun t => order_by (fun s => Some (st_id s)) false (Crud.styles_of c (tb_raster_styles t))).
Definition get_raster_style (c s : string) (user : option User) : DB Style :=
  seen_raster c user;;
  t ← read_all;
  row_or (tb_raster_styles t !! (c, s)) 404 "Style not found".

(** The id of a new preset is not checked. *)
Definition create_raster_style (c s : string) (title : option string) (spec : json)
    (set_default : bool) (visibility : option string) (user : option User) : DB Style :=
  editable_raster c user;;
  spec ← normalized spec;
  Crud.upsert_raster_style c s title spec (user_id <$> user) set_default visibility.

Definition patch_raster_style (c s : string) (p : RasterPatch) (user : option User) : DB Style :=
  editable_raster c user;;
  t ← read_all;
  cur ← row_or (tb_raster_styles t !! (c, s)) 404 "Style not found";
  spec ← normalized (default (st_spec cur) (rp_spec p));
  Crud.upsert_raster_style c s (match rp_title p with Some _ => rp_title p | None => st_title cur end)
    spec (st_owner_id cur) (default false (rp_set_default p)) (rp_visibility p).

Definition list_raster_style_shares (c s : string) (user : option User) : DB (list (string * string)) :=
  editable_raster c user;;
  read (list_shares RESOURCE_TYPE_STYLE (raster_style_resource_id c s)).
Definition add_raster_style_share (c s name role : string) (user : option User)
    : DB (string * string) :=
  editable_raster c user;;
  add_share_reply RESOURCE_TYPE_STYLE (raster_style_resource_id c s) name role.

(** The presets of no collection. *)

Definition seen_preset (t : tables) (user : option User) (s : Style) : bool :=
  can_see_raster_style t (st_owner_id s) (st_visibility s) PUBLIC_COLLECTION_ID (st_id s) user.

Definition list_public_raster_styles (user : option User) : DB (list Style) :=
  read (fun t => List.filter (seen_preset t user)
                   (order_by (fun s => Some (st_id s)) false (Crud.styles_of PUBLIC_COLLECTION_ID (tb_raster_styles t)))).
Definition get_public_raster_style (s : string) (user : option User) : DB Style :=
  t ← read_all;
  st ← row_or (tb_raster_styles t !! (PUBLIC_COLLECTION_ID, s)) 404 "Style not found";
  guard_or (can_see_raster_style t (st_owner_id st) (st_visibility st) PUBLIC_COLLECTION_ID s user)
    404 "Style not found";;
  mret st.

Definition create_public_raster_style (s : string) (title : option string) (spec : json)
    (visibility : option string) (user : option User) : DB Style :=
  u ← get_current_user_required user;
  validate_style_id s;;
  t ← read_all;
  guard_or (negb (bool_decide (is_Some (tb_raster_styles t !! (PUBLIC_COLLECTION_ID, s))))) 409
    "A public raster style with this id already exists";;
  spec ← normalized spec;
  Crud.upsert_raster_style PUBLIC_COLLECTION_ID s title spec (Some (user_id u)) false
    (Some (str_or (opt_str visibility) "public")).

Definition own_preset (s : string) (user : option User) : DB Style :=
  u ← get_current_user_required user;
  t ← read_all;
  cur ← row_or (tb_raster_styles t !! (PUBLIC_COLLECTION_ID, s)) 404 "Style not found";
  guard_or (Public.owner_or_admin (st_owner_id cur) u) 403 "Permission denied";;
  mret cur.
Definition replace_public_raster_style (s : string) (title : option string) (spec : json)
    (user : option User) : DB Style :=
  cur ← own_preset s user;
  spec ← normalized spec;
  Crud.upsert_raster_style PUBLIC_COLLECTION_ID s title spec (st_owner_id cur) false None.
Definition patch_public_raster_style (s : string) (p : RasterPatch) (user : option User) : DB Style :=
  cur ← own_preset s user;
  spec ← normalized (default (st_spec cur) (rp_spec p));
  Crud.upsert_raster_style PUBLIC_COLLECTION_ID s
    (match rp_title p with Some _ => rp_title p | None => st_title cur end)
    spec (st_owner_id cur) false (rp_visibility p).
End raster.
End Raster.

(** ** Requests that write *)

Inductive style_request :=
  | PublicCreate (p : StyleCreate)
  | PublicReplace (s : string) (title : option string) (spec : list (string * json))
  | PublicPatch (s : string) (p : StylePatch)
  | PublicDelete (s : string)
  | PublicShare (s name role : string)
  | PublicUnshare (s name : string)
  | Save (c : string) (p : StyleCreate)
  | Replace (c s : string) (title : option string) (spec : list (string * json)) (set_default : bool)
  | Patch (c s : string) (p : StylePatch)
  | Delete (c s : string)
  | Share (c s name role : string)
  | Unshare (c s name : string)
  | RasterCreate (c s : string) (title : option string) (spec : json) (set_default : bool)
      (visibility : option string)
  | RasterPatchPreset (c s : string) (p : RasterPatch)
  | RasterShare (c s name role : string)
  | PresetCreate (s : string) (title : option string) (spec : json) (visibility : option string)
  | PresetReplace (s : string) (title : option string) (spec : json)
  | PresetPatch (s : string) (p : RasterPatch).

Section requests.
Context (normalize_raster : json -> exn + json).

Definition forget {A} (m : DB A) : DB unit := m;; mret tt.

Definition handle_style (r : style_request) (user : option User) : DB unit :=
  match r with
  | PublicCreate p => forget (Public.create_style p user)
  | PublicReplace s title spec => forget (Public.replace_style s title spec user)
  | PublicPatch s p => forget (Public.patch_style s p user)
  | PublicDelete s => Public.delete_style s user
  | PublicShare s name role => forget (Public.add_style_share s name role user)
  | PublicUnshare s name => Public.remove_style_share s name user
  | Save c p => forget (OfCollection.save_collection_style c p user)
  | Replace c s title spec d => forget (OfCollection.replace_collection_style c s title spec d user)
  | Patch c s p => forget (OfCollection.patch_collection_style c s p user)
  | Delete c s => OfCollection.delete_collection_style c s user
  | Share c s name role => forget (OfCollection.add_collection_style_share c s name role user)
  | Unshare c s name => OfCollection.remove_collection_style_share c s name user
  | RasterCreate c s title spec d v =>
      forget (Raster.create_raster_style normalize_raster c s title spec d v user)
  | RasterPatchPreset c s p => forget (Raster.patch_raster_style normalize_raster c s p user)
  | RasterShare c s name role => forget (Raster.add_raster_style_share c s name role user)
  | PresetCreate s title spec v =>
      forget (Raster.create_public_raster_style normalize_raster s title spec v user)
  | PresetReplace s title spec =>
      forget (Raster.replace_public_raster_style normalize_raster s title spec user)
  | PresetPatch s p => forget (Raster.patch_public_raster_style normalize_raster s p user)
  end.
End requests.

(** ** What a request may do to the tables *)

(** The key of a row is its primary key. *)
Definition styles_wf (m : gmap (string * string) Style) : Prop :=
  forall c s st, m !! (c, s) = Some st -> st_collection_id st = c /\ st_id st = s.

(** The right to write the style [s] of [c]: any user for a style of no
    collection, an editor of the collection or of the style otherwise. *)
Definition may_write (t : tables) (user : option User) (c s : string) : Prop :=
  if decide (c = "") then is_Some user
  else (exists coll, tb_collections t !! c = Some coll /\ can_edit_collection t coll user = true)
       \/ (exists st, tb_styles t !! (c, s) = Some st /\ can_edit_style t (st_owner_id st) c s user = true).

(** A default style replaces the old one, or was the default already. *)
Definition default_ok (m m0 : gmap (string * string) Style) (st : Style) : Prop :=
  st_is_default st = true ->
  st_collection_id st = "" \/ m0 = Crud.unset_default_for_collection (st_collection_id st) m
  \/ exists old, m0 = m /\ m !! (st_collection_id st, st_id st) = Some old /\ st_is_default old = true.

Inductive style_effect (user : option User) (t : tables) : tables -> Prop :=
  | EffNone : style_effect user t t
  | EffPut st m0 :
      m0 = tb_styles t \/ m0 = Crud.unset_default_for_collection (st_collection_id st) (tb_styles t) ->
      default_ok (tb_styles t) m0 st ->
      may_write t user (st_collection_id st) (st_id st) ->
      style_effect user t (with_styles t (Crud.put_style st m0))
  | EffDelete c s :
      may_write t user c s -> style_effect user t (with_styles t (delete (c, s) (tb_styles t)))
  | EffShares rid name role : role ∈ [ROLE_VIEWER; ROLE_EDITOR] ->
      style_effect user t (put_share RESOURCE_TYPE_STYLE rid name role t)
  | EffUnshare rid name :
      style_effect user t (drop_share RESOURCE_TYPE_STYLE rid name t)
  | EffRaster m : style_effect user t (with_raster_styles t m).

Lemma forget_tables {A} (m : DB A) t : (forget m t).2 = (m t).2.
Proof. unfold forget. rewrite db_bind_run. by destruct (m t) as [[]]. Qed.

(** What follows a change and only reads. *)
Lemma then_reads {A B} (m : DB A) (f : A -> DB B) t :
  (forall a t', (f a t').2 = t') -> ((m ≫= f) t).2 = (m t).2.
Proof. intros Hf. rewrite db_bind_run. by destruct (m t) as [[e|a] t']; rewrite ?Hf. Qed.
Lemma reads_row_or {A} (x : option A) code d t : (row_or x code d t).2 = t.
Proof. by destruct x. Qed.
Lemma reads_guard_or b code d t : (guard_or b code d t).2 = t.
Proof. by destruct b. Qed.

Lemma own_style_wf t c s st :
  styles_wf (tb_styles t) -> Crud.own_style t c s = Some st ->
  tb_styles t !! (c, s) = Some st /\ st_collection_id st = c /\ st_id st = s.
Proof.
  intros Hwf. unfold Crud.own_style, Crud.get_collection_style, Crud.get_public_style.
  destruct (tb_styles t !! (c, s)) as [st'|] eqn:Hs.
  - case_decide as Hc; [|done]. intros [= <-]. split_and!; [done..|]. by apply (Hwf c s).
  - destruct (tb_styles t !! (PUBLIC_COLLECTION_ID, s)) as [st'|] eqn:Hp; [|done].
    case_decide as Hc; [|done]. intros [= <-]. destruct (Hwf _ _ _ Hp) as [Hc' Hs'].
    subst c. rewrite Hc' in Hs. by rewrite Hp in Hs.
Qed.

Section effects.
Context (user : option User) (t : tables) (Hwf : styles_wf (tb_styles t)).

Lemma eff_add_share rid name role :
  style_effect user t (add_share_reply RESOURCE_TYPE_STYLE rid name role t).2.
Proof.
  unfold add_share_reply, add_share. rewrite db_bind_assoc, read_all_run.
  destruct (get_user_by_username t (strip name)) as [u|]; [apply EffShares, normal_role_ok|apply EffNone].
Qed.

Lemma eff_remove_share rid name :
  style_effect user t (remove_share RESOURCE_TYPE_STYLE rid name t).2.
Proof.
  unfold remove_share. rewrite read_all_run. destruct (tb_shares t !! _); constructor.
Qed.

Lemma own_style_own c s st :
  Crud.own_style t c s = Some st ->
  tb_styles t !! (c, s) = Some st /\ st_collection_id st = c /\ st_id st = s.
Proof. by apply own_style_wf. Qed.

(** The edit of a row of the collection [c]. *)
Lemma eff_edit c s st title spec b v (unset : bool) {A} (x : A) :
  tb_styles t !! (c, s) = Some st -> may_write t user c s ->
  (b = true -> c = "" \/ unset = true \/ unset = false /\ st_is_default st = true) ->
  style_effect user t
    ((Crud.update_styles (fun m => Crud.put_style (Crud.edit_style title spec b v st)
        (if unset then Crud.unset_default_for_collection c m else m));; mret x : DB A) t).2.
Proof.
  intros Hs Hw Hd. destruct (Hwf _ _ _ Hs) as [Hc Hi]. unfold Crud.update_styles.
  rewrite db_bind_run. cbn [write].
  apply (EffPut user t (Crud.edit_style title spec b v st)
    (if unset then Crud.unset_default_for_collection c (tb_styles t) else tb_styles t));
    cbn [Crud.edit_style st_collection_id st_id]; rewrite ?Hc, ?Hi; [destruct unset; by eauto| |done].
  intros Hb. cbn [Crud.edit_style st_collection_id st_id st_is_default] in *. rewrite Hc, Hi.
  destruct (Hd Hb) as [?|[->|[-> ?]]]; eauto 8.
Qed.

Lemma eff_create s spec title c d owner v :
  may_write t user c s ->
  style_effect user t (Crud.create_style s spec title c d owner v t).2.
Proof.
  intros Hw. unfold Crud.create_style. rewrite read_all_run.
  destruct (tb_styles t !! (c, s)); [apply EffNone|]. unfold Crud.update_styles.
  rewrite db_bind_run. cbn [write].
  set (st := mkStyle c s title d spec owner v).
  apply (EffPut user t st (if negb (bool_decide (c = "")) && d
    then Crud.unset_default_for_collection c (tb_styles t) else tb_styles t)); [|..|done].
  - by destruct (_ && _); eauto.
  - intros Hd. cbn [st st_collection_id st_is_default] in *. subst d.
    case_bool_decide; [by left|by eauto].
Qed.

Lemma eff_replace c s spec title d :
  (is_Some (tb_styles t !! (c, s)) -> may_write t user c s) ->
  style_effect user t (Crud.replace_style c s spec title d t).2.
Proof.
  intros Hw. unfold Crud.replace_style. rewrite read_all_run.
  destruct (Crud.own_style t c s) as [st|] eqn:Ho; [|apply EffNone].
  apply own_style_own in Ho as (Hs & _). specialize (Hw (ex_intro _ st Hs)). apply (eff_edit c s); [done..|]. destruct d; by eauto.
Qed.

Lemma eff_patch c s title spec d v :
  (is_Some (tb_styles t !! (c, s)) -> may_write t user c s) ->
  style_effect user t (Crud.patch_style c s title spec d v t).2.
Proof.
  intros Hw. unfold Crud.patch_style. rewrite read_all_run.
  destruct (Crud.own_style t c s) as [st|] eqn:Ho; [|apply EffNone].
  apply own_style_own in Ho as (Hs & _). specialize (Hw (ex_intro _ st Hs)). apply (eff_edit c s); [done..|]. destruct d as [[]|]; cbn; by eauto.
Qed.

Lemma eff_public s title spec v st {A} (x : A) :
  Crud.get_public_style t s = Some st -> is_Some user ->
  style_effect user t
    ((Crud.update_styles (Crud.put_style (Crud.edit_style title spec (st_is_default st) v st));;
      mret x : DB A) t).2.
Proof.
  intros Hs Hu. apply (eff_edit "" s st title spec _ v false x); [done| |by left].
  unfold may_write. by case_decide.
Qed.

Lemma eff_delete c s :
  (is_Some (tb_styles t !! (c, s)) -> may_write t user c s) ->
  style_effect user t (Crud.delete_style c s t).2.
Proof.
  intros Hw. unfold Crud.delete_style. rewrite read_all_run.
  destruct (tb_styles t !! (c, s)); [apply EffDelete; by apply Hw|apply EffNone].
Qed.

Lemma eff_upsert c s title spec owner d v :
  style_effect user t (Crud.upsert_raster_style c s title spec owner d v t).2.
Proof.
  unfold Crud.upsert_raster_style. rewrite read_all_run, db_bind_run. cbn [write]. apply EffRaster.
Qed.

Lemma eff_then {A B} (m : DB A) (f : A -> DB B) :
  (forall a t', (f a t').2 = t') -> style_effect user t (m t).2 -> style_effect user t ((m ≫= f) t).2.
Proof. intros Hf Hm. by rewrite then_reads. Qed.

(** A check in front of a change. *)
Lemma eff_row_or {A B} (x : option A) code d (f : A -> DB B) :
  (forall a, x = Some a -> style_effect user t (f a t).2) ->
  style_effect user t ((row_or x code d ≫= f) t).2.
Proof. intros Hf. rewrite row_or_run. destruct x; [by apply Hf|apply EffNone]. Qed.
Lemma eff_guard_or {B} b code d (f : unit -> DB B) :
  (b = true -> style_effect user t (f tt t).2) ->
  style_effect user t ((guard_or b code d ≫= f) t).2.
Proof. intros Hf. rewrite guard_or_run. destruct b; [by apply Hf|apply EffNone]. Qed.

Lemma eff_logged_in {B} (f : User -> DB B) :
  (forall u, user = Some u -> style_effect user t (f u t).2) ->
  style_effect user t ((get_current_user_required user ≫= f) t).2.
Proof. apply eff_row_or. Qed.

Lemma eff_editable_collection {B} c (f : Collection -> DB B) :
  (forall coll, tb_collections t !! c = Some coll -> can_edit_collection t coll user = true ->
     style_effect user t (f coll t).2) ->
  style_effect user t ((editable_collection c user ≫= f) t).2.
Proof.
  intros Hf. unfold editable_collection. rewrite db_bind_assoc, read_all_run, db_bind_assoc.
  apply eff_row_or. intros coll Hc. rewrite db_bind_assoc. apply eff_guard_or. intros He.
  rewrite db_ret_run. by apply Hf.
Qed.

Lemma eff_editable_style {B} c s (f : Style -> DB B) :
  (forall st, Crud.get_collection_style t c s = Some st ->
     can_edit_style t (st_owner_id st) c s user = true -> style_effect user t (f st t).2) ->
  style_effect user t ((OfCollection.editable_style c s user ≫= f) t).2.
Proof.
  intros Hf. unfold OfCollection.editable_style. rewrite db_bind_assoc, read_all_run, db_bind_assoc.
  apply eff_row_or. intros _ _. rewrite db_bind_assoc. apply eff_row_or. intros st Hs.
  rewrite db_bind_assoc. apply eff_guard_or. intros He. rewrite db_ret_run. by apply Hf.
Qed.

Lemma eff_editable_own_style {B} c s (f : Style -> DB B) :
  (forall st, style_effect user t (f st t).2) ->
  style_effect user t ((OfCollection.editable_own_style c s user ≫= f) t).2.
Proof.
  intros Hf. unfold OfCollection.editable_own_style. rewrite db_bind_assoc, read_all_run, db_bind_assoc.
  apply eff_row_or. intros st _. rewrite db_bind_assoc. apply eff_guard_or. intros _. apply Hf.
Qed.

Lemma eff_editable_raster {B} c (f : unit -> DB B) :
  style_effect user t (f tt t).2 -> style_effect user t ((Raster.editable_raster c user ≫= f) t).2.
Proof.
  intros Hf. unfold Raster.editable_raster, Raster.ensure_raster_collection.
  rewrite db_bind_assoc, read_all_run, db_bind_assoc.
  apply eff_row_or. intros coll _. rewrite db_bind_assoc. apply eff_guard_or. intros _.
  by apply eff_guard_or.
Qed.

Lemma eff_normalized {B} nr j (f : json -> DB B) :
  (forall j, style_effect user t (f j t).2) ->
  style_effect user t ((Raster.normalized nr j ≫= f) t).2.
Proof. intros Hf. unfold Raster.normalized. destruct (nr j); [apply EffNone|apply Hf]. Qed.

Lemma eff_own_preset {B} s (f : Style -> DB B) :
  (forall st, style_effect user t (f st t).2) ->
  style_effect user t ((Raster.own_preset s user ≫= f) t).2.
Proof.
  intros Hf. unfold Raster.own_preset. rewrite db_bind_assoc. apply eff_logged_in. intros u _.
  rewrite db_bind_assoc, read_all_run, db_bind_assoc. apply eff_row_or. intros st _.
  rewrite db_bind_assoc. apply eff_guard_or. intros _. apply Hf.
Qed.

Lemma eff_own_public {B} s (f : Style -> DB B) :
  (forall st, style_effect user t (f st t).2) ->
  style_effect user t ((Public.own_public_style s user ≫= f) t).2.
Proof.
  intros Hf. unfold Public.own_public_style. rewrite db_bind_assoc. apply eff_logged_in. intros u _.
  rewrite db_bind_assoc, read_all_run, db_bind_assoc. apply eff_row_or. intros st _.
  rewrite db_bind_assoc. apply eff_guard_or. intros _. apply Hf.
Qed.

(** The style that passes [editable_style] and belongs to the collection may be
    written. *)
Lemma editable_may_write c s st :
  Crud.get_collection_style t c s = Some st -> can_edit_style t (st_owner_id st) c s user = true ->
  is_Some (tb_styles t !! (c, s)) -> may_write t user c s.
Proof.
  intros Hs He [st' Hs']. unfold may_write. case_decide as Hn; [by destruct user|]. right. exists st'. split; [done|].
  unfold Crud.get_collection_style in Hs. rewrite Hs' in Hs. by simplify_eq.
Qed.
End effects.

Create HintDb style_effects discriminated.
#[export] Hint Resolve reads_row_or reads_guard_or eff_add_share eff_remove_share eff_upsert : style_effects.

Lemma collection_may_write user t c s coll :
  tb_collections t !! c = Some coll -> can_edit_collection t coll user = true -> may_write t user c s.
Proof.
  intros Hc He. unfold may_write. case_decide; [by destruct user|]. left. by exists coll.
Qed.

Lemma eff_public_create user t p :
  styles_wf (tb_styles t) -> style_effect user t (Public.create_style p user t).2.
Proof.
  intros Hwf. unfold Public.create_style. apply eff_logged_in. intros u Hu. unfold validate_style_id.
  apply eff_guard_or. intros _. rewrite read_all_run. apply eff_guard_or. intros _.
  apply eff_create. unfold may_write, PUBLIC_COLLECTION_ID. case_decide; [|done].
  by exists u.
Qed.

Lemma eff_public_edit user t s (r : bool) title spec p :
  styles_wf (tb_styles t) ->
  style_effect user t (if r then (Public.replace_style s title spec user t).2
                       else (Public.patch_style s p user t).2).
Proof.
  intros Hwf. destruct r; [unfold Public.replace_style|unfold Public.patch_style];
    apply eff_logged_in; intros u Hu; apply eff_then; auto with style_effects;
    unfold Crud.replace_public_style, Crud.patch_public_style; rewrite read_all_run;
    (destruct (Crud.get_public_style t s) as [st|] eqn:Hs; [|apply EffNone]);
    apply (eff_public _ _ Hwf s); by rewrite ?Hu.
Qed.

Lemma eff_save user t c p :
  styles_wf (tb_styles t) -> style_effect user t (OfCollection.save_collection_style c p user t).2.
Proof.
  intros Hwf. unfold OfCollection.save_collection_style. apply eff_editable_collection.
  intros coll Hc He. unfold validate_style_id. apply eff_guard_or. intros _. rewrite read_all_run.
  pose proof (collection_may_write user t c (sc_id p) coll Hc He) as Hw.
  destruct (Crud.own_style t c (sc_id p)) as [st|].
  - apply eff_then; [by intros [] ?|]. by apply eff_replace.
  - by apply eff_create.
Qed.

(** Every request that writes styles has one of the effects of [style_effect]. *)
Lemma handle_style_effect nr r user t :
  styles_wf (tb_styles t) -> style_effect user t (handle_style nr r user t).2.
Proof.
  intros Hwf. destruct r; cbn [handle_style]; rewrite ?forget_tables.
  - by apply eff_public_create.
  - by apply (eff_public_edit user t s true title spec (mkStylePatch None None None None)).
  - by apply (eff_public_edit user t s false None [] p).
  - unfold Public.delete_style. apply eff_logged_in. intros u Hu.
    apply eff_then; auto with style_effects. apply eff_delete. intros _.
    unfold may_write, PUBLIC_COLLECTION_ID. case_decide; [by rewrite Hu|done].
  - apply eff_own_public. auto with style_effects.
  - apply eff_own_public. intros _. apply eff_then; auto with style_effects.
  - by apply eff_save.
  - apply eff_editable_style. intros st Hs He. apply eff_then; auto with style_effects.
    apply eff_replace; [done|]. by eapply editable_may_write.
  - apply eff_editable_style. intros st Hs He. apply eff_then; auto with style_effects.
    apply eff_patch; [done|]. by eapply editable_may_write.
  - apply eff_editable_style. intros st Hs He. apply eff_then; auto with style_effects.
    apply eff_delete. by eapply editable_may_write.
  - apply eff_editable_own_style. auto with style_effects.
  - apply eff_editable_own_style. intros _. apply eff_then; auto with style_effects.
  - apply eff_editable_raster. apply eff_normalized. auto with style_effects.
  - apply eff_editable_raster. rewrite read_all_run. apply eff_row_or. intros cur _.
    apply eff_normalized. auto with style_effects.
  - apply eff_editable_raster. auto with style_effects.
  - unfold Raster.create_public_raster_style. apply eff_logged_in. intros u _. unfold validate_style_id.
    apply eff_guard_or. intros _. rewrite read_all_run. apply eff_guard_or. intros _.
    apply eff_normalized. auto with style_effects.
  - apply eff_own_preset. intros st. apply eff_normalized. auto with style_effects.
  - apply eff_own_preset. intros st. apply eff_normalized. auto with style_effects.
Qed.

(** ** Invariants *)

Definition one_default (m : gmap (string * string) Style) : Prop :=
  forall c s s' st st', c <> "" -> m !! (c, s) = Some st -> m !! (c, s') = Some st' ->
    st_is_default st = true -> st_is_default st' = true -> s = s'.

Definition styles_ok (m : gmap (string * string) Style) : Prop := styles_wf m /\ one_default m.

Lemma unset_lookup c m k :
  Crud.unset_default_for_collection c m !! k
  = (fun s => if bool_decide (st_collection_id s = c) && st_is_default s
              then Crud.set_is_default false s else s) <$> m !! k.
Proof. apply lookup_fmap. Qed.

Lemma unset_wf c m : styles_wf m -> styles_wf (Crud.unset_default_for_collection c m).
Proof.
  intros Hwf c' s st. rewrite unset_lookup. destruct (m !! (c', s)) as [st'|] eqn:Hs; [|done].
  intros [= <-]. destruct (Hwf _ _ _ Hs). by destruct (_ && _).
Qed.

Lemma unset_no_default c m s st :
  styles_wf m -> Crud.unset_default_for_collection c m !! (c, s) = Some st -> st_is_default st = false.
Proof.
  intros Hwf. rewrite unset_lookup. destruct (m !! (c, s)) as [st'|] eqn:Hs; [|done]. intros [= <-].
  destruct (Hwf _ _ _ Hs) as [-> _]. rewrite bool_decide_eq_true_2 by done. simpl.
  by destruct (st_is_default st') eqn:?.
Qed.

Lemma unset_default_from c c' m s st :
  Crud.unset_default_for_collection c m !! (c', s) = Some st -> st_is_default st = true ->
  exists st', m !! (c', s) = Some st' /\ st_is_default st' = true.
Proof.
  rewrite unset_lookup. destruct (m !! (c', s)) as [st'|]; [|done]. intros [= <-] Hd.
  exists st'. split; [done|]. by destruct (_ && _) eqn:Hb; [apply andb_true_iff in Hb as [_ ?]|].
Qed.

Lemma unset_one_default c m : one_default m -> one_default (Crud.unset_default_for_collection c m).
Proof.
  intros Ho c' s s' st st' Hc Hs Hs' Hd Hd'.
  destruct (unset_default_from _ _ _ _ _ Hs Hd) as (x & Hx & Hxd).
  destruct (unset_default_from _ _ _ _ _ Hs' Hd') as (y & Hy & Hyd). by eapply Ho.
Qed.

Lemma put_wf st m : styles_wf m -> styles_wf (Crud.put_style st m).
Proof.
  intros Hwf c s x. unfold Crud.put_style. intros [[Hk <-]|[Hk Hx]]%lookup_insert_Some.
  - by injection Hk as -> ->.
  - by apply Hwf.
Qed.

Lemma put_one_default st m m0 :
  styles_wf m -> one_default m ->
  m0 = m \/ m0 = Crud.unset_default_for_collection (st_collection_id st) m ->
  default_ok m m0 st -> one_default (Crud.put_style st m0).
Proof.
  intros Hwf Ho Hm Hok c s s' x x' Hc. unfold Crud.put_style.
  assert (one_default m0) as Ho0 by (destruct Hm as [->| ->]; [done|by apply unset_one_default]).
  assert (forall s2 y, st_collection_id st = c -> m0 !! (c, s2) = Some y -> st_is_default y = true ->
    st_is_default st = true -> s2 = st_id st) as Hother.
  { intros s2 y Hst Hy Hyd Hd. destruct (Hok Hd) as [?|[->|(old & -> & Hold & Hod)]]; [congruence| |].
    - rewrite Hst in Hy. by rewrite (unset_no_default _ _ _ _ Hwf Hy) in Hyd.
    - rewrite Hst in Hold. by eapply Ho. }
  intros [[Hk <-]|[Hk Hx]]%lookup_insert_Some [[Hk' <-]|[Hk' Hx']]%lookup_insert_Some Hd Hd'.
  - congruence.
  - injection Hk as Hkc <-. symmetry. by eapply Hother.
  - injection Hk' as Hkc <-. by eapply Hother.
  - by eapply Ho0.
Qed.

Lemma delete_ok k m : styles_ok m -> styles_ok (delete k m).
Proof.
  intros [Hwf Ho]. split.
  - intros c s st [_ Hs]%lookup_delete_Some. by apply Hwf.
  - intros c s s' st st' Hc [_ Hs]%lookup_delete_Some [_ Hs']%lookup_delete_Some. by eapply Ho.
Qed.

Lemma effect_ok user t t' :
  style_effect user t t' -> styles_ok (tb_styles t) -> styles_ok (tb_styles t').
Proof.
  intros He Hok. destruct He as [|st m0 Hm Hd _| | | |]; try done; [|by apply delete_ok].
  destruct Hok as [Hwf Ho]. cbn [with_styles tb_styles]. split.
  - apply put_wf. destruct Hm as [->| ->]; [done|by apply unset_wf].
  - by eapply put_one_default.
Qed.

(** Requests of any callers, one after the other. *)
Fixpoint run_styles (nr : json -> exn + json) (l : list (option User * style_request))
    (t : tables) : tables :=
  match l with
  | [] => t
  | (user, r) :: l' => run_styles nr l' (handle_style nr r user t).2
  end.

Lemma run_styles_ok nr l : forall t,
  styles_ok (tb_styles t) -> styles_ok (tb_styles (run_styles nr l t)).
Proof.
  induction l as [|[user r] l IH]; intros t Ht; [done|]. cbn [run_styles]. apply IH.
  eapply effect_ok; [by apply handle_style_effect, Ht|done].
Qed.

Lemma elem_of_defaults c m st :
  st ∈ Crud.defaults_of c m <->
  st_is_default st = true /\ st_collection_id st = c /\ exists k, m !! k = Some st.
Proof.
  unfold Crud.defaults_of, Crud.styles_of.
  rewrite !list_elem_of_In, !filter_In, bool_decide_eq_true, <-list_elem_of_In, list_elem_of_fmap.
  split.
  - intros [[([k x] & -> & Hk) Hc] Hd]. split_and!; [done..|]. exists k.
    by apply elem_of_map_to_list in Hk.
  - intros (Hd & Hc & k & Hk). split_and!; [|done..]. exists (k, st). split; [done|].
    by apply elem_of_map_to_list.
Qed.

(** Every entry of the table gives one style. *)
Lemma styles_NoDup m : styles_wf m -> NoDup ((map_to_list m).*2).
Proof.
  intros Hwf. apply NoDup_fmap_2_strong; [|apply NoDup_map_to_list].
  intros [[c s] x] [[c' s'] y] Hx Hy Hxy. cbn in Hxy. subst y.
  apply elem_of_map_to_list in Hx, Hy. destruct (Hwf _ _ _ Hx), (Hwf _ _ _ Hy). congruence.
Qed.

Lemma NoDup_filter_bool {A} (f : A -> bool) l : NoDup l -> NoDup (List.filter f l).
Proof.
  induction 1 as [|x l Hx Hl IH]; simpl; [constructor|]. destruct (f x); [|done].
  constructor; [|done]. rewrite list_elem_of_In, filter_In, <-list_elem_of_In. tauto.
Qed.

Lemma one_default_found c m :
  styles_ok m -> c <> "" ->
  Crud.defaults_of c m = [] \/ exists st, Crud.defaults_of c m = [st].
Proof.
  intros [Hwf Ho] Hc.
  assert (NoDup (Crud.defaults_of c m)) as Hnd.
  { unfold Crud.defaults_of, Crud.styles_of. by apply NoDup_filter_bool, NoDup_filter_bool, styles_NoDup. }
  destruct (Crud.defaults_of c m) as [|x [|y l]] eqn:Hl; [by left|right; by exists x|].
  exfalso. assert (x ∈ Crud.defaults_of c m) as Hx by (rewrite Hl; set_solver).
  assert (y ∈ Crud.defaults_of c m) as Hy by (rewrite Hl; set_solver).
  apply elem_of_defaults in Hx as (Hxd & Hxc & [cx sx] & Hx).
  apply elem_of_defaults in Hy as (Hyd & Hyc & [cy sy] & Hy).
  destruct (Hwf _ _ _ Hx) as [Hx1 _], (Hwf _ _ _ Hy) as [Hy1 _].
  assert (cx = c) as -> by congruence. assert (cy = c) as -> by congruence.
  assert (sx = sy) as -> by (by eapply Ho). rewrite Hx in Hy. injection Hy as ->.
  inversion Hnd. set_solver.
Qed.

(** C30. One default style: whatever requests the callers send, every collection keeps
    at most one default style, so that the lookup of the default, which is made for
    one row at most, never fails. *)
Theorem default_style_unique (normalize_raster : json -> exn + json)
    (requests : list (option User * style_request)) (t : tables) (c : string) :
  styles_ok (tb_styles t) -> c <> "" ->
  let t' := run_styles normalize_raster requests t in
  styles_ok (tb_styles t')
  /\ exists st, Crud.get_default_style c t' = (inr st, t')
       /\ forall x, st = Some x <-> st_is_default x = true /\ tb_styles t' !! (c, st_id x) = Some x.
Proof.
  intros Ht Hc t'. assert (styles_ok (tb_styles t')) as Hok by by apply run_styles_ok.
  split; [done|]. unfold Crud.get_default_style. rewrite read_all_run.
  assert (forall x, x ∈ Crud.defaults_of c (tb_styles t') <->
    st_is_default x = true /\ tb_styles t' !! (c, st_id x) = Some x) as Hin.
  { intros x. rewrite elem_of_defaults. destruct Hok as [Hwf _]. split.
    - intros (Hd & Hxc & [c' s'] & Hx). destruct (Hwf _ _ _ Hx). split; [done|]. congruence.
    - intros (Hd & Hx). destruct (Hwf _ _ _ Hx). by eauto. }
  destruct (one_default_found c (tb_styles t') Hok Hc) as [Hl|[st Hl]]; rewrite Hl in *; cbn.
  - exists None. split; [done|]. intros x. rewrite <-Hin. set_solver.
  - exists (Some st). split; [done|]. intros x. rewrite <-Hin, list_elem_of_singleton.
    split; [by intros [= ->]|by intros ->].
Qed.

(** C31. Styles are confined: a request changes a style of a collection only when its
    caller may edit the collection or that style; setting a new default, which the
    editor of one style may do, clears the flag of the old one. *)
Theorem style_change_allowed (normalize_raster : json -> exn + json)
    (r : style_request) (user : option User) (t : tables) (c s : string) :
  styles_wf (tb_styles t) -> c <> "" ->
  let t' := (handle_style normalize_raster r user t).2 in
  tb_styles t' !! (c, s) = tb_styles t !! (c, s)
  \/ may_write t user c s
  \/ exists s' st, may_write t user c s' /\ tb_styles t !! (c, s) = Some st
       /\ tb_styles t' !! (c, s) = Some (Crud.set_is_default false st).
Proof.
  intros Hwf Hc t'. destruct (handle_style_effect normalize_raster r user t Hwf)
    as [|st m0 Hm _ Hw|c' s' Hw| | |]; try (by left); subst t'; cbn [with_styles tb_styles].
  - unfold Crud.put_style. destruct (decide ((st_collection_id st, st_id st) = (c, s))) as [[= <- <-]|Hk];
      [by right; left|]. rewrite lookup_insert_ne by done.
    destruct Hm as [->| ->]; [by left|]. rewrite unset_lookup.
    destruct (tb_styles t !! (c, s)) as [x|] eqn:Hx; [|by left]. cbn [fmap option_fmap option_map].
    destruct (bool_decide _ && _) eqn:Hb; [|by left]. apply andb_true_iff in Hb as [Hb _].
    apply bool_decide_eq_true_1 in Hb. destruct (Hwf _ _ _ Hx) as [Hxc _].
    right; right. exists (st_id st), x. split; [|done]. by rewrite <-Hxc, Hb.
  - destruct (decide ((c', s') = (c, s))) as [[= -> ->]|Hk]; [by right; left|left].
    by rewrite lookup_delete_ne.
Qed.

(** ** Concrete tables *)

Definition ana : User := mkUser 1 "ana" false "" false None.
Definition bo : User := mkUser 2 "bo" false "" false None.
Definition demo_collection (c : string) (owner : Z) (visibility type : string) : Collection :=
  mkCollection c None None None None None (Some owner) visibility false type None None 0.
Definition demo_style (c s : string) (owner : Z) (visibility : string) : Style :=
  mkStyle c s None false (JObj []) (Some owner) visibility.
Definition style_tables (colls : list Collection) (styles : list Style) : tables :=
  Tables {[1 := ana; 2 := bo]} 3 (list_to_map (map (fun c => (c_id c, c)) colls)) ∅
    (list_to_map (map (fun s => ((st_collection_id s, st_id s), s)) styles)) ∅ ∅ ∅ ∅ ∅.
Definition any_spec (j : json) : exn + json := inr j.

(** A private style of a public collection is listed to anonymous callers, and not
    to a user who logs in. *)
Theorem anonymous_sees_private_styles :
  let t := style_tables [demo_collection "roads" 1 "public" "vector"] [demo_style "roads" "mine" 1 "private"] in
  @OfCollection.list_collection_styles byte_order "roads" None t
  = (inr [demo_style "roads" "mine" 1 "private"], t)
  /\ @OfCollection.list_collection_styles byte_order "roads" (Some bo) t = (inr [], t).
Proof. by vm_compute. Qed.

(** The share of a public style is stored under another id than the one that is
    checked: the user it names still does not see the style. *)
Theorem public_share_has_no_effect :
  let t := style_tables [] [demo_style "" "mine" 1 "private"] in
  exists t', handle_style any_spec (PublicShare "mine" "bo" "viewer") (Some ana) t = (inr tt, t')
    /\ Public.get_style "mine" (Some bo) t' = (inl (HTTPException 404 (JStr "Style not found")), t').
Proof. eexists. by vm_compute. Qed.

(** Any user may delete, or replace, a public style of somebody else. *)
Theorem any_user_deletes_public_style :
  let t := style_tables [] [demo_style "" "mine" 1 "public"] in
  exists t', handle_style any_spec (PublicDelete "mine") (Some bo) t = (inr tt, t')
    /\ tb_styles t' !! ("", "mine") = None.
Proof. eexists. by vm_compute. Qed.

(** The resource ids of raster presets and of styles overlap: the owner of the
    raster collection [a] makes itself editor of a style of [raster:a]. *)
Theorem raster_share_opens_style :
  let t := style_tables [demo_collection "a" 2 "private" "raster";
                         demo_collection "raster:a" 1 "private" "vector"]
             [demo_style "raster:a" "mine" 1 "private"] in
  can_edit_style t (Some 1) "raster:a" "mine" (Some bo) = false
  /\ exists t' t'', handle_style any_spec (RasterShare "a" "mine" "bo" "editor") (Some bo) t = (inr tt, t')
    /\ handle_style any_spec (Delete "raster:a" "mine") (Some bo) t' = (inr tt, t'')
    /\ tb_styles t'' !! ("raster:a", "mine") = None.
Proof. split; [done|]. do 2 eexists. split; [by vm_compute|]. by vm_compute. Qed.

Lemma rights_tables_ok c s : styles_ok (tb_styles (style_tables [] [demo_style c s 1 "private"])).
Proof.
  cbn [style_tables tb_styles map list_to_map foldr]. split.
  - intros c' s' st [[Hk <-]|[_ Hs]]%lookup_insert_Some; [by injection Hk as <- <-|].
    by rewrite lookup_empty in Hs.
  - intros c' s1 s2 st st' _ [[Hk <-]|[_ Hs]]%lookup_insert_Some [[Hk' <-]|[_ Hs']]%lookup_insert_Some Hd;
      [congruence|..]; by rewrite ?lookup_empty in *.
Qed.

Lemma default_style_unique_witness :
  let t := style_tables [] [demo_style "roads" "mine" 1 "private"] in
  let t' := run_styles any_spec
              [(Some ana, PublicDelete "mine"); (Some bo, PresetCreate "p" None (JObj []) None)] t in
  styles_ok (tb_styles t')
  /\ exists st, Crud.get_default_style "roads" t' = (inr st, t')
       /\ forall x, st = Some x <-> st_is_default x = true /\ tb_styles t' !! ("roads", st_id x) = Some x.
Proof.
  apply (default_style_unique any_spec _
    (style_tables [] [demo_style "roads" "mine" 1 "private"]) "roads"); [apply rights_tables_ok|done].
Defined.

Lemma style_change_allowed_witness :
  let t := style_tables [demo_collection "roads" 1 "public" "vector"] [] in
  let t' := (handle_style any_spec (Save "roads" (mkStyleCreate "s" None [] true)) (Some ana) t).2 in
  tb_styles t !! ("roads", "s") = None /\ is_Some (tb_styles t' !! ("roads", "s"))
  /\ (tb_styles t' !! ("roads", "s") = tb_styles t !! ("roads", "s")
      \/ may_write t (Some ana) "roads" "s"
      \/ exists s' st, may_write t (Some ana) "roads" s' /\ tb_styles t !! ("roads", "s") = Some st
           /\ tb_styles t' !! ("roads", "s") = Some (Crud.set_is_default false st)).
Proof.
  split; [done|]. split; [vm_compute; by eexists|].
  apply (style_change_allowed any_spec (Save "roads" (mkStyleCreate "s" None [] true)) (Some ana)
    (style_tables [demo_collection "roads" 1 "public" "vector"] []) "roads" "s"); [|done].
  intros c s st Hs. cbn in Hs. by rewrite lookup_empty in Hs.
Defined.
