(* ===== verification/Collections.v ===== *)
(** * Collections: CRUD and endpoints
    (app/crud/collections.py, app/crud/collection_tiles.py,
    app/api/routes/collections.py, app/services/collection_property_indexes.py and
    app/services/composite_collections.py where they check a request)

    The answers are the rows; the HTML pages, links and tile states of an answer
    are left out.  The extent of the stored geometries, the work of the property
    index job without a queue and the removal of its indexes are arguments. *)

From S2P Require Import Prelude PyTime Redis Postgres World Database Json JobStore SideQueues.
From S2P Require Import Partitions Session Permissions Shares Styles.

Definition COLLECTION_TYPE_VECTOR := "vector".
Definition COLLECTION_TYPE_RASTER := "raster".
Definition COLLECTION_TYPE_COMPOSITE := "composite".
Definition COLLECTION_ID_RESERVED := "edit".
Definition collection_types : list string :=
  [COLLECTION_TYPE_VECTOR; COLLECTION_TYPE_RASTER; COLLECTION_TYPE_COMPOSITE].

(** ** app/services/collection_property_indexes.py: the fields *)

Definition field_start (c : Ascii.ascii) : bool :=
  let n := Ascii.nat_of_ascii c in
  ((65 <=? n)%nat && (n <=? 90)%nat) || ((97 <=? n)%nat && (n <=? 122)%nat) || bool_decide (c = "_"%char).

(** [_FIELD_RE.match] on a stripped text. *)
Definition FIELD_RE (s : string) : bool :=
  match s with
  | EmptyString => false
  | String c s' =>
      field_start c && all_chars (fun c => field_start c || is_digit c) s' && (String.length s' <=? 63)%nat
  end.

Definition validate_property_index_field (field : string) : res string :=
  let name := strip field in
  if FIELD_RE name then inr name
  else inl (ValueError ("Invalid property field " +:+ repr field
              +:+ ": use letters, digits, underscore; max 64 chars.")).

Fixpoint normalize_fields (seen raw : list string) : res (list string) :=
  match raw with
  | [] => inr []
  | x :: raw' =>
      let! field := validate_property_index_field x in
      if decide (field ∈ seen) then normalize_fields seen raw'
      else let! out := normalize_fields (field :: seen) raw' in inr (field :: out)
  end.
Definition normalize_property_index_fields (raw : option (list string)) : res (list string) :=
  normalize_fields [] (default [] raw).

Definition lift_db {A} (r : res A) : DB A := fun t => (r, t).

(** [x or None] on a list *)
Definition nonempty_or_none {A} (l : list A) : option (list A) := match l with [] => None | _ => Some l end.

(** ** Bodies of the requests *)

Record CollectionCreate := mkCollectionCreate {
  cc_id : string;
  cc_title : option string;
  cc_description : option string;
  cc_extent : option json;
  cc_stac_source : option json;
  cc_raster_settings : option json;
  cc_type : string;
  cc_members : option (list string);
  cc_index_fields : option (list string)
}.

(** [CollectionPatch]: the outer [None] is a field the request does not set. *)
Record CollectionPatch := mkCollectionPatch {
  cp_title : option (option string);
  cp_description : option (option string);
  cp_extent : option (option json);
  cp_stac_source : option (option json);
  cp_raster_settings : option (option json);
  cp_visibility : option (option string);
  cp_viewer_can_edit : option (option bool);
  cp_type : option (option string);
  cp_members : option (option (list string));
  cp_index_fields : option (option (list string))
}.

(** ** app/crud/collections.py *)

(** [_composite_members_json]: members without an id are dropped. *)
Definition composite_members_json (members : option (list string)) : option json :=
  (fun l => JList (map (fun m => JObj [("collection_id", JStr (strip m))]) l))
    <$> nonempty_or_none (PropertyIndex.member_collection_ids (default [] members)).

Definition normalize_collection_type (value : option string) : string :=
  match value with
  | Some v => if decide (v ∈ collection_types) then v else COLLECTION_TYPE_VECTOR
  | None => COLLECTION_TYPE_VECTOR
  end.

Definition put_collection (c : string) (row : Collection) (t : tables) : tables :=
  with_collections t (<[c := row]> (tb_collections t)).

(** [replace_collection] and [patch_collection] up to their commit. *)
Definition replaced (d : CollectionCreate) (c : Collection) : res Collection :=
  let ty := normalize_collection_type (Some (cc_type d)) in
  let! fields := (if decide (ty = COLLECTION_TYPE_VECTOR)
                  then normalize_property_index_fields (cc_index_fields d) else inr []) in
  inr (mkCollection (c_id c) (cc_title d) (cc_description d) (cc_extent d) (cc_stac_source d)
         (cc_raster_settings d) (c_owner_id c) (c_visibility c) (c_viewer_can_edit c) ty
         (if decide (ty = COLLECTION_TYPE_COMPOSITE) then composite_members_json (cc_members d) else None)
         (nonempty_or_none fields) (c_created_at c)).

Definition patched (p : CollectionPatch) (c : Collection) : res Collection :=
  let ty := match cp_type p with
            | Some (Some v) => if decide (v = "") then c_type c else normalize_collection_type (Some v)
            | _ => c_type c
            end in
  let members := match cp_members p with
                 | Some m => composite_members_json m
                 | None => c_composite_members c
                 end in
  let! fields := match cp_index_fields p with
                 | None => inr (c_index_fields c)
                 | Some raw =>
                     if decide (ty ∈ [COLLECTION_TYPE_VECTOR; COLLECTION_TYPE_COMPOSITE])
                     then let! l := normalize_property_index_fields raw in inr (nonempty_or_none l)
                     else inr None
                 end in
  inr (mkCollection (c_id c) (default (c_title c) (cp_title p))
         (default (c_description c) (cp_description p)) (default (c_extent c) (cp_extent p))
         (default (c_stac_source c) (cp_stac_source p))
         (default (c_raster_settings c) (cp_raster_settings p)) (c_owner_id c)
         (Crud.patched_visibility (c_visibility c) (default None (cp_visibility p)))
         (match cp_viewer_can_edit p with Some (Some b) => b | _ => c_viewer_can_edit c end)
         ty (if decide (ty = COLLECTION_TYPE_COMPOSITE) then members else None) fields
         (c_created_at c)).

(** *** Listing *)

Section listing.
Context `{Collation}.

(** [_order_by_collection]: ascending by id for an unknown column. *)
Definition order_by_collection (sortby : option string) (desc : bool) : list Collection -> list Collection :=
  match str_or (opt_str sortby) "id" with
  | "id" => order_by (fun c => Some (c_id c)) desc
  | "title" => order_by c_title desc
  | "description" => order_by c_description desc
  | "created_at" => order_by_time c_created_at desc
  | _ => order_by (fun c => Some (c_id c)) false
  end.

(** The [WHERE] of the caller. *)
Definition visible (t : tables) (user : option User) (only_public : bool) (c : Collection) : bool :=
  if only_public then bool_decide (c_visibility c = VISIBILITY_PUBLIC)
  else
    match user with
    | None => bool_decide (c_visibility c = VISIBILITY_PUBLIC)
    | Some u =>
        if is_admin u then true
        else bool_decide (c_visibility c ∈ [VISIBILITY_PUBLIC; VISIBILITY_LOGGED])
             || owns (c_owner_id c) u
             || bool_decide (is_Some (tb_shares t !! (RESOURCE_TYPE_COLLECTION, c_id c, username u)))
    end.

(** [ILIKE '%q%'] with the wildcards of [q] escaped: a substring, ignoring case. *)
Definition ilike (q : string) (s : option string) : bool :=
  match s with Some s => contains (lower q) (lower s) | None => false end.
Definition matches_q (q : option string) (c : Collection) : bool :=
  match q with
  | None => true
  | Some q =>
      if decide (strip q = "") then true
      else ilike (strip q) (Some (c_id c)) || ilike (strip q) (c_title c)
           || ilike (strip q) (c_description c)
  end.

Definition has_tiles (t : tables) (c : string) : bool :=
  bool_decide (is_Some (mjoin (tb_tiles t !! c))).

Record ListQuery := mkListQuery {
  lq_q : option string;
  lq_bbox : option (Collection -> bool);     (* the condition on the stored extent *)
  lq_sortby : option string;
  lq_sortdesc : bool;
  lq_limit : option nat;
  lq_offset : nat;
  lq_has_static_tiles : bool;
  lq_only_public : bool;
  lq_type : option string
}.

(** The filters of the query, and the caller's. *)
Definition selected (t : tables) (lq : ListQuery) (c : Collection) : bool :=
  (negb (lq_has_static_tiles lq) || has_tiles t (c_id c))
  && match lq_type lq with
     | Some ty => if decide (ty ∈ collection_types) then bool_decide (c_type c = ty) else true
     | None => true
     end
  && matches_q (lq_q lq) c
  && match lq_bbox lq with Some cond => cond c | None => true end.
Definition matches (t : tables) (lq : ListQuery) (user : option User) (c : Collection) : bool :=
  selected t lq c && visible t user (lq_only_public lq) c.

(** [list_collections] *)
Definition list_collections (lq : ListQuery) (user : option User) (t : tables)
    : list Collection * nat :=
  let rows := List.filter (matches t lq user) (map_to_list (tb_collections t)).*2 in
  let sorted := order_by_collection (lq_sortby lq) (lq_sortdesc lq) rows in
  let page := drop (lq_offset lq) sorted in
  (match lq_limit lq with Some n => take n page | None => page end, length rows).
End listing.

(** ** Writing *)

Section writing.
Context `{RedisServer} `{PostgresServer} `{Entropy} (cfg : Settings).
Context (run_inline : PropertyIndex.PropertyIndexPayload -> M unit).
Context (drop_indexes : string -> list string -> M unit).
Context (invalidate_tiles_cache : string -> M unit).

Definition all_tables : M tables := gets (fun w => w_tables w).
Definition set_tables (f : tables -> tables) : M unit := modify (fun w => with_tables w (f (w_tables w))).

(** The counters of a collection are columns of its row. *)
Definition with_counters (db : database) (x : gmap string collection_row) : database :=
  Db (db_tables db) (db_parts db) (db_default db) x.
Definition insert_collection (c : Collection) : M unit :=
  t ← all_tables;
  match tb_collections t !! c_id c with
  | Some _ => raise (IntegrityError "duplicate key value violates unique constraint")
  | None =>
      set_tables (put_collection (c_id c) c);;
      modify (fun w => with_db w (with_counters (w_db w)
        (<[c_id c := CollRow 0 None]> (db_collections (w_db w)))))
  end.

Definition schedule_index_job (c : Collection) (old new : list string) (composite : bool) : M JobInfo :=
  PropertyIndex.schedule_property_index_job cfg run_inline (c_id c) old new composite
    (if composite then default JNull (c_composite_members c) else JNull) (c_owner_id c).

(** [create_collection] *)
Definition create_collection_row (d : CollectionCreate) (owner : option Z) (visibility : string)
    : M Collection :=
  let ty := normalize_collection_type (Some (cc_type d)) in
  fields ← lift (if decide (ty = COLLECTION_TYPE_VECTOR)
                 then normalize_property_index_fields (cc_index_fields d) else inr []);
  now ← get_now;
  let c := mkCollection (cc_id d) (cc_title d) (cc_description d) (cc_extent d) (cc_stac_source d)
             (cc_raster_settings d) owner visibility false ty
             (if decide (ty = COLLECTION_TYPE_COMPOSITE) then composite_members_json (cc_members d) else None)
             (nonempty_or_none fields) now in
  insert_collection c;;
  when (negb (bool_decide (ty = COLLECTION_TYPE_COMPOSITE))) (ensure_features_partition (cc_id d));;
  (match fields with [] => mret tt | _ => schedule_index_job c [] fields false;; mret tt end);;
  mret c.

(** [replace_collection] *)
Definition replace_collection_row (c : string) (d : CollectionCreate) : M (option Collection) :=
  t ← all_tables;
  match tb_collections t !! c with
  | None => mret None
  | Some row =>
      old ← lift (normalize_property_index_fields (c_index_fields row));
      new ← lift (replaced d row);
      set_tables (put_collection c new);;
      (if decide (c_type new = COLLECTION_TYPE_VECTOR)
       then fields ← lift (normalize_property_index_fields (c_index_fields new));
            schedule_index_job new old fields false;; mret tt
       else match old with [] => mret tt | _ => drop_indexes c old end);;
      mret (Some new)
  end.

(** [patch_collection]: the row and the id of the index job. *)
Definition patch_collection_row (c : string) (p : CollectionPatch)
    : M (option Collection * option string) :=
  t ← all_tables;
  match tb_collections t !! c with
  | None => mret (None, None)
  | Some row =>
      old ← lift (normalize_property_index_fields (c_index_fields row));
      new ← lift (patched p row);
      set_tables (put_collection c new);;
      match cp_index_fields p with
      | None => mret (Some new, None)
      | Some _ =>
          fields ← lift (normalize_property_index_fields (c_index_fields new));
          if decide (c_type new ∈ [COLLECTION_TYPE_VECTOR; COLLECTION_TYPE_COMPOSITE]) then
            job ← schedule_index_job new old fields
                    (bool_decide (c_type new = COLLECTION_TYPE_COMPOSITE));
            mret (Some new, Some (job_id job))
          else
            (match old with [] => mret tt | _ => drop_indexes c old end);;
            mret (Some new, None)
      end
  end.

Definition unlink (path : string) : M unit := modify (fun w => with_files w (delete path (w_files w))).

(** The row goes, and by [ON DELETE CASCADE] its row of [collection_tiles]. *)
Definition drop_collection_row (c : string) (t : tables) : tables :=
  with_tiles (with_collections t (delete c (tb_collections t))) (delete c (tb_tiles t)).

(** [delete_collection] *)
Definition delete_collection_row (c : string) : M bool :=
  t ← all_tables;
  match tb_collections t !! c with
  | None => mret false
  | Some row =>
      drop_collection_features_data_sync cfg c;;
      fields ← lift (normalize_property_index_fields (c_index_fields row));
      (match fields with [] => mret tt | _ => try_pass (drop_indexes c fields) end);;
      t ← all_tables;
      (match mjoin (tb_tiles t !! c) with
       | Some path => when (negb (bool_decide (path = ""))) (unlink path)
       | None => mret tt
       end);;
      on_tables (Crud.delete_collection_styles c);;
      set_tables (drop_collection_row c);;
      modify (fun w => with_db w (with_counters (w_db w) (delete c (db_collections (w_db w)))));;
      mret true
  end.

(** [validate_composite_members] *)
Fixpoint check_members (t : tables) (composite : string) (seen members : list string) : res unit :=
  match members with
  | [] => inr tt
  | m :: ms =>
      let refused s := inl (HTTPException 400 (JStr s)) in
      if decide (m = composite) then refused "Composite cannot include itself as a member"
      else if decide (m ∈ seen) then refused ("Duplicate member: " +:+ m)
      else
        match tb_collections t !! m with
        | None => refused ("Member collection not found: " +:+ m)
        | Some row =>
            if decide (c_type row = COLLECTION_TYPE_COMPOSITE)
            then refused ("Nested composite members are not supported: " +:+ m)
            else if decide (c_type row = COLLECTION_TYPE_VECTOR) then check_members t composite (m :: seen) ms
            else refused ("Member must be a vector collection: " +:+ m)
        end
  end.
Definition validate_composite_members (composite : string) (members : list string) : DB unit :=
  t ← read_all;
  match members with
  | [] => refuse 400 "Composite collection requires at least one member"
  | _ => lift_db (check_members t composite [] members)
  end.

(** [clear_static_tiles] and [mark_composite_static_stale] *)
Definition clear_static_tiles (c : string) (t : tables) : tables :=
  with_tiles t (alter (fun _ => None) c (tb_tiles t)).
Definition mark_composite_static_stale (c : string) : M unit :=
  t ← all_tables;
  (match mjoin (tb_tiles t !! c) with
   | Some path => when (negb (bool_decide (path = ""))) (unlink path)
   | None => mret tt
   end);;
  set_tables (clear_static_tiles c).

(** ** Endpoints *)

Definition bad_fields {A} (m : DB A) : DB A := fun t =>
  match m t with
  | (inl (ValueError e), t') => (inl (HTTPException 400 (JStr e)), t')
  | r => r
  end.

Definition replace_collection (c : string) (d : CollectionCreate) (user : option User) : M Collection :=
  on_tables (editable_collection c user);;
  row ← replace_collection_row c d;
  on_tables (row_or row 404 "Collection not found").

Definition patch_checks (c : string) (p : CollectionPatch) (user : option User) : DB unit :=
  coll ← editable_collection c user;
  (match cp_index_fields p with
   | None => mret tt
   | Some raw =>
       guard_or (bool_decide (c_type coll ∈ [COLLECTION_TYPE_VECTOR; COLLECTION_TYPE_COMPOSITE])) 400
         "Property indexes are only supported on vector and composite collections";;
       bad_fields (lift_db (normalize_property_index_fields raw));;
       mret tt
   end);;
  match cp_members p with
  | Some members =>
      when_db (bool_decide (c_type coll = COLLECTION_TYPE_COMPOSITE))
        (validate_composite_members c (default [] members))
  | None => mret tt
  end.

Definition patch_collection (c : string) (p : CollectionPatch) (user : option User)
    : M (Collection * option string) :=
  on_tables (patch_checks c p user);;
  '(row, job) ← patch_collection_row c p;
  row ← on_tables (row_or row 404 "Collection not found");
  when (bool_decide (c_type row = COLLECTION_TYPE_COMPOSITE))
    (invalidate_tiles_cache c;;
     match cp_members p with Some _ => mark_composite_static_stale c | None => mret tt end);;
  mret (row, job).

Definition create_checks (d : CollectionCreate) (user : option User) : DB User :=
  u ← row_or user 401 "Login required to create a collection";
  guard_or (negb (bool_decide (cc_id d = COLLECTION_ID_RESERVED))) 400
    ("Collection id " +:+ repr COLLECTION_ID_RESERVED
       +:+ " is reserved (conflicts with /collections/edit route).");;
  t ← read_all;
  guard_or (negb (bool_decide (is_Some (tb_collections t !! cc_id d)))) 400
    "Collection with this id already exists";;
  (match default [] (cc_members d) with
   | [] => mret tt
   | members =>
       when_db (bool_decide (cc_type d = COLLECTION_TYPE_COMPOSITE))
         (validate_composite_members (cc_id d) members)
   end);;
  when_db (bool_decide (cc_type d = COLLECTION_TYPE_VECTOR))
    (bad_fields (lift_db (normalize_property_index_fields (cc_index_fields d)));; mret tt);;
  mret u.

Definition create_collection (d : CollectionCreate) (user : option User) : M Collection :=
  u ← on_tables (create_checks d user);
  create_collection_row d (Some (user_id u)) "private".

Definition delete_collection (c : string) (user : option User) : M unit :=
  on_tables (editable_collection c user);;
  deleted ← delete_collection_row c;
  on_tables (guard_or deleted 404 "Collection not found").
End writing.
