(* ===== verification/Maps.v ===== *)
(** * Maps (app/api/routes/maps.py, app/crud/maps.py, app/schemas/map.py)

    A map is a list of layers, kept as JSON.  Saving a map as public is refused
    while a layer shows something that is not public and that the caller may not
    publish.  The bodies of the requests have passed the validation of their
    schemas; the answers are the rows, their HTML pages are left out. *)

From S2P Require Import Prelude PyTime Redis Postgres World Database Json Session Permissions.
From S2P Require Import Shares Styles Collections.

(** ** app/schemas/map.py *)

(** The fields of [MapLayer] and [MapDefinition] with their defaults; what else a
    body holds is dropped. *)
Definition MapLayer_fields : list (string * json) :=
  [("collection_id", JNull); ("color", JNull); ("order", JInt 0); ("style_spec", JNull);
   ("popup", JBool false); ("popup_id_property", JNull); ("tiles_url", JNull); ("layer_id", JNull);
   ("raster_tiles", JBool false); ("stac_catalog_id", JNull); ("stac_collection_id", JNull);
   ("stac_item_id", JNull); ("stac_viewer_path", JNull); ("stac_viewer_query", JNull);
   ("raster_collection_mode", JNull); ("raster_feature_id", JNull); ("raster_style_id", JNull);
   ("terrain_enabled", JBool false); ("terrain_exaggeration", JNull); ("terrain_encoding", JNull);
   ("terrain_raster_overlay", JNull); ("visible", JBool true)].
Definition MapDefinition_fields : list (string * json) :=
  [("layers", JList []); ("bbox", JNull); ("basemap", JNull); ("center", JNull); ("zoom", JNull);
   ("bearing", JNull); ("pitch", JNull)].

Definition dict := list (string * json).
Definition fields_of (j : json) : dict := match j with JObj m => m | _ => [] end.
Definition items_of (j : json) : list json := match j with JList l => l | _ => [] end.

(** [d.get(k)] *)
Definition get (k : string) (d : dict) : json := default JNull (dict_get k d).

(** [model_dump()] of a model that was given a dict, and with
    [exclude_unset=True]. *)
Definition model_dump (fields : dict) (d : dict) : dict :=
  map (fun f => (f.1, default f.2 (dict_get f.1 d))) fields.
Definition model_given (fields : dict) (d : dict) : dict :=
  omap (fun f => (fun v => (f.1, v)) <$> dict_get f.1 d) fields.

Definition on_object (f : dict -> dict) (j : json) : json :=
  match j with JObj m => JObj (f m) | _ => j end.
Definition on_layers (f : dict -> dict) (d : dict) : dict :=
  map (fun kv => if decide (kv.1 = "layers") then (kv.1, JList (map (on_object f) (items_of kv.2))) else kv) d.

Definition dump_definition (d : dict) : dict :=
  on_layers (model_dump MapLayer_fields) (model_dump MapDefinition_fields d).
Definition given_definition (d : dict) : dict :=
  on_layers (model_given MapLayer_fields) (model_given MapDefinition_fields d).

Record MapCreate := mkMapCreate {
  mc_name : string;
  mc_description : option string;
  mc_thumbnail : option string;
  mc_definition : dict
}.

(** The outer [None] is a field the request does not set. *)
Record MapUpdate := mkMapUpdate {
  mu_name : option (option string);
  mu_description : option (option string);
  mu_thumbnail : option (option string);
  mu_definition : option (option dict);
  mu_visibility : option (option string);
  mu_viewer_can_edit : option (option bool)
}.

(** ** Layers *)

(** [a or b] of two keys of a layer. *)
Definition get_or (k k' : string) (lyr : dict) : json := json_or (get k lyr) (get k' lyr).

(** [_MOSAIC_VIEW_ID_IN_TILES_URL.search]: the first match of the view's UUID. *)
Definition uuid_at (s : string) : option string :=
  let u := str_take 36 s in
  if is_uuid u && startswith "/titiler/" (lower (str_drop 36 s)) then Some u else None.
Fixpoint view_id_in_url (s : string) : option string :=
  let here := if startswith "/raster-views/" (lower s) then uuid_at (str_drop 14 s) else None in
  match here, s with
  | Some u, _ => Some u
  | None, String _ s' => view_id_in_url s'
  | None, EmptyString => None
  end.

Definition mosaic_view_id_from_map_layer (lyr : dict) : option string :=
  let mid := get_or "mosaic_view_id" "mosaicViewId" lyr in
  if json_truthy mid then Some (json_str mid)
  else match get "tiles_url" lyr with JStr u => view_id_in_url u | _ => None end.

(** The layers of a definition; a stored one has a list. *)
Definition layers_of (d : dict) : list json := items_of (get "layers" d).

Definition is_none (j : json) : bool := match j with JNull => true | _ => false end.
Definition set_if (b : bool) (k : string) (v : json) (lyr : dict) : dict :=
  if b then dict_set k v lyr else lyr.
Definition untruthy (k k' : string) (lyr : dict) : bool :=
  negb (json_truthy (get k lyr)) && negb (json_truthy (get k' lyr)).

(** What [_dedupe_map_definition_mosaic_layers] completes in a layer of a mosaic. *)
Definition complete_mosaic_layer (mid : string) (lyr : dict) : dict :=
  let lyr := dict_set "raster_tiles" (JBool true) lyr in
  let lyr := set_if (is_none (get "mosaic_view_id" lyr) && is_none (get "mosaicViewId" lyr))
               "mosaic_view_id" (JStr mid) lyr in
  let lyr := set_if (untruthy "layer_id" "layerId" lyr) "layer_id" (JStr ("mosaic-" +:+ mid)) lyr in
  set_if (untruthy "collection_id" "collectionId" lyr) "collection_id" (JStr "_mosaic") lyr.

Fixpoint dedupe_layers (seen : list string) (layers : list json) : list json :=
  match layers with
  | [] => []
  | JObj lyr :: layers' =>
      match mosaic_view_id_from_map_layer lyr with
      | Some mid =>
          if decide (lower mid ∈ seen) then dedupe_layers seen layers'
          else JObj (complete_mosaic_layer mid lyr) :: dedupe_layers (lower mid :: seen) layers'
      | None => JObj lyr :: dedupe_layers seen layers'
      end
  | layer :: layers' => layer :: dedupe_layers seen layers'
  end.
Definition dedupe_map_definition_mosaic_layers (d : dict) : dict :=
  dict_set "layers" (JList (dedupe_layers [] (layers_of d))) d.

Definition dicts (layers : list json) : list dict :=
  omap (fun j => match j with JObj m => Some m | _ => None end) layers.

Definition layer_collection (lyr : dict) : option string :=
  match get_or "collection_id" "collectionId" lyr with
  | JStr c => if decide (c = "" \/ c = "_stac") then None else Some c
  | _ => None
  end.

(** Unique, in order. *)
Fixpoint uniq (seen l : list string) : list string :=
  match l with
  | [] => []
  | x :: l' => if decide (x ∈ seen) then uniq seen l' else x :: uniq (x :: seen) l'
  end.
Definition collection_ids_from_definition (d : dict) : list string :=
  uniq [] (omap layer_collection (dicts (layers_of d))).

(** ** What a public map must not show *)

Record blocked_item := mkItem { bi_id : string; bi_title : string }.

(** A split of items that are not public by the caller's right. *)
Definition split_items (l : list (blocked_item * bool)) : list blocked_item * list blocked_item :=
  (map fst (List.filter (fun x => negb x.2) l), map fst (List.filter (fun x => x.2) l)).

(** [_check_map_public_layers]: blocking, suggest. *)
Definition check_map_public_layers (t : tables) (d : dict) (user : option User)
    : list blocked_item * list blocked_item :=
  split_items (omap (fun c =>
    match tb_collections t !! c with
    | Some coll =>
        if decide (c_visibility coll = VISIBILITY_PUBLIC) then None
        else Some (mkItem c (str_or (opt_str (c_title coll)) c), can_edit_collection t coll user)
    | None => None
    end) (collection_ids_from_definition d)).

Definition stac_item (lyr : dict) : option (string * string * string) :=
  let cat := get_or "stac_catalog_id" "stacCatalogId" lyr in
  let coll := get_or "stac_collection_id" "stacCollectionId" lyr in
  let item := get_or "stac_item_id" "stacItemId" lyr in
  if json_truthy (get "raster_tiles" lyr) && json_truthy (get "tiles_url" lyr)
     && json_truthy cat && json_truthy coll && json_truthy item
  then Some (json_str cat, json_str coll, json_str item) else None.

(** [_stac_grants_missing_for_public_map] *)
Definition stac_grants_missing_for_public_map (t : tables) (d : dict) : list (string * string * string) :=
  List.filter (fun k => negb (bool_decide (k ∈ tb_grants t))) (omap stac_item (dicts (layers_of d))).

Definition raster_mosaic (lyr : dict) : option string :=
  let mid := get_or "mosaic_view_id" "mosaicViewId" lyr in
  if json_truthy (get "raster_tiles" lyr) && json_truthy mid then Some (json_str mid) else None.

(** [_mosaic_visibility_status_for_public_map]: blocking, suggest. *)
Definition mosaic_visibility_status_for_public_map (t : tables) (d : dict) (user : option User)
    : list blocked_item * list blocked_item :=
  split_items (omap (fun mid =>
    match tb_views t !! mid with
    | None => Some (mkItem mid "Unknown mosaic", false)
    | Some row =>
        if decide (rv_visibility row = VISIBILITY_PUBLIC) then None
        else Some (mkItem mid (str_or (rv_title row) mid),
                   can_edit_raster_view t (rv_owner_id row) mid user)
    end) (uniq [] (omap raster_mosaic (dicts (layers_of d))))).

Definition item_json (id_key : string) (i : blocked_item) : json :=
  JObj [(id_key, JStr (bi_id i)); ("title", JStr (bi_title i))].
Definition grant_json (k : string * string * string) : json :=
  let '(cat, coll, item) := k in
  JObj [("catalog_id", JStr cat); ("stac_collection_id", JStr coll); ("stac_item_id", JStr item);
        ("title", JStr ("STAC item " +:+ item))].

Definition forbid {A} (message key : string) (items : list json) : DB A :=
  raise_db (HTTPException 403 (JObj [("message", JStr message); (key, JList items)])).

(** The three refusals of [update_map] and [patch_map]. *)
Definition publish_checks (d : dict) (user : option User) : DB unit :=
  t ← read_all;
  let blocking := (check_map_public_layers t d user).1 in
  let missing := stac_grants_missing_for_public_map t d in
  let mosaics := (mosaic_visibility_status_for_public_map t d user).1 in
  match blocking, missing, mosaics with
  | _ :: _, _, _ =>
      forbid ("Cannot make map public: the following layers are not public and you do not have "
                +:+ "permission to change their visibility: "
                +:+ join ", " (map (fun c => bi_title c +:+ " (" +:+ bi_id c +:+ ")") blocking) +:+ ".")
        "collections_blocking" (map (item_json "id") blocking)
  | [], _ :: _, _ =>
      forbid ("This map is public but some STAC imagery layers are not approved for anonymous viewing. "
                +:+ "Allow public tiles for those items (from the item viewer) or remove the layers.")
        "stac_grants_blocking" (map grant_json missing)
  | [], [], _ :: _ =>
      forbid ("This map is public but some saved mosaic layers are not public and you do not have "
                +:+ "permission to publish them. Ask a mosaic owner/editor to make them public, "
                +:+ "or remove those layers.")
        "mosaic_public_blocking" (map (item_json "mosaic_view_id") mosaics)
  | [], [], [] => mret tt
  end.

(** ** app/crud/maps.py *)

Definition put_map (id : string) (row : Map) (t : tables) : tables :=
  with_maps t (<[id := row]> (tb_maps t)).

Definition create_map_row (id : string) (now : Z) (d : MapCreate) (owner : option Z) (visibility : string)
    : DB Map :=
  let row := mkMap id (mc_name d) (mc_description d) (mc_thumbnail d) None
               (JObj (dump_definition (mc_definition d))) owner visibility false now in
  write (put_map id row);; mret row.

Definition updated_map (now : Z) (d : MapUpdate) (m : Map) : Map :=
  let thumbnail := default None (mu_thumbnail d) in
  mkMap (m_id m) (default (m_name m) (default None (mu_name d)))
    (first_some (default None (mu_description d)) (m_description m))
    (first_some thumbnail (m_thumbnail m))
    (if truthy thumbnail then None else m_thumbnail_data m)
    (match default None (mu_definition d) with
     | Some def => JObj (dump_definition def)
     | None => m_definition m
     end)
    (m_owner_id m)
    (Crud.patched_visibility (m_visibility m) (default None (mu_visibility d)))
    (default (m_viewer_can_edit m) (default None (mu_viewer_can_edit d))) now.

Definition update_map_row (id : string) (now : Z) (d : MapUpdate) : DB (option Map) :=
  t ← read_all;
  match tb_maps t !! id with
  | None => mret None
  | Some m => write (put_map id (updated_map now d m));; mret (Some (updated_map now d m))
  end.

Definition set_map_thumbnail_data (id : string) (now : Z) (data : string) : DB (option Map) :=
  t ← read_all;
  match tb_maps t !! id with
  | None => mret None
  | Some m =>
      let row := mkMap (m_id m) (m_name m) (m_description m) None (Some data) (m_definition m)
                   (m_owner_id m) (m_visibility m) (m_viewer_can_edit m) now in
      write (put_map id row);; mret (Some row)
  end.

Definition delete_map_row (id : string) : DB bool :=
  t ← read_all;
  match tb_maps t !! id with
  | None => mret false
  | Some _ => write (fun t => with_maps t (delete id (tb_maps t)));; mret true
  end.

Definition map_visible (t : tables) (user : option User) (m : Map) : bool :=
  match user with
  | None => bool_decide (m_visibility m = VISIBILITY_PUBLIC)
  | Some u =>
      if is_admin u then true
      else bool_decide (m_visibility m ∈ [VISIBILITY_PUBLIC; VISIBILITY_LOGGED])
           || owns (m_owner_id m) u
           || bool_decide (is_Some (tb_shares t !! (RESOURCE_TYPE_MAP, m_id m, username u)))
  end.
Definition list_maps `{Collation} (limit offset : nat) (user : option User) (t : tables) : list Map :=
  take limit (drop offset (order_by_time m_updated_at true
    (List.filter (map_visible t user) (map_to_list (tb_maps t)).*2))).

(** ** Endpoints *)

Section endpoints.
Context `{Entropy} (image_to_thumbnail : string -> string -> res string).

Definition create_map (d : MapCreate) (user : option User) : M Map :=
  u ← on_tables (row_or user 401 "Login required to create a map");
  let def := dedupe_map_definition_mosaic_layers (dump_definition (mc_definition d)) in
  id ← uuid4;
  now ← get_now;
  on_tables (create_map_row id now (mkMapCreate (mc_name d) (mc_description d) (mc_thumbnail d) def)
               (Some (user_id u)) "private").

Definition get_map (id : string) (user : option User) : DB Map :=
  t ← read_all;
  m ← row_or (tb_maps t !! id) 404 "Map not found";
  guard_or (can_see_map t (m_owner_id m) (m_visibility m) (m_id m) user) 404 "Map not found";;
  mret m.

(** The endpoint [/check-public-layers] on the saved definition. *)
Record public_report := mkReport {
  pr_blocking : list blocked_item;
  pr_suggest : list blocked_item;
  pr_grants : list (string * string * string);
  pr_mosaic_blocking : list blocked_item;
  pr_mosaic_suggest : list blocked_item
}.
Definition report_public_layers (id : string) (user : option User) : DB public_report :=
  m ← editable_map id user;
  t ← read_all;
  let d := fields_of (m_definition m) in
  let (b, s) := check_map_public_layers t d user in
  let (mb, ms) := mosaic_visibility_status_for_public_map t d user in
  mret (mkReport b s (stac_grants_missing_for_public_map t d) mb ms).

Definition thumbnail_url (base id : string) : string := base +:+ "/maps/" +:+ id +:+ "/thumbnail".

(** The payload: the fields the request sets, its own thumbnail address left out,
    the definition cleaned. *)
Definition map_payload (base id : string) (d : MapUpdate) : MapUpdate :=
  mkMapUpdate (mu_name d) (mu_description d)
    (if decide (mu_thumbnail d = Some (Some (thumbnail_url base id))) then None else mu_thumbnail d)
    (option_map (option_map (fun def => dedupe_map_definition_mosaic_layers (given_definition def)))
       (mu_definition d))
    (mu_visibility d) (mu_viewer_can_edit d).
Definition empty_payload (d : MapUpdate) : bool :=
  match d with mkMapUpdate None None None None None None => true | _ => false end.

Definition merged_map_visibility (p : MapUpdate) (m : Map) : string :=
  match default None (mu_visibility p) with Some v => v | None => str_or (m_visibility m) "private" end.
Definition merged_map_definition (p : MapUpdate) (m : Map) : dict :=
  dedupe_map_definition_mosaic_layers
    (match default None (mu_definition p) with Some d => d | None => fields_of (m_definition m) end).

Definition when_public (v : string) (m : DB unit) : DB unit := when_db (bool_decide (v = "public")) m.

(** [update_map], and [patch_map], which writes nothing for an empty payload.  The
    suggestions go into headers of the answer. *)
Definition save_map (patch : bool) (base id : string) (d : MapUpdate) (user : option User)
    : M (Map * (list blocked_item * list blocked_item)) :=
  m ← on_tables (editable_map id user);
  let p := map_payload base id d in
  let v := merged_map_visibility p m in
  on_tables (when_public v (publish_checks (merged_map_definition p m) user));;
  now ← get_now;
  row ← (if patch && empty_payload p then mret m
         else on_tables (row ← update_map_row id now p; row_or row 404 "Map not found"));
  t ← all_tables;
  let def := fields_of (m_definition row) in
  mret (row, if decide (v = "public")
             then ((check_map_public_layers t def user).2,
                   (mosaic_visibility_status_for_public_map t def user).2)
             else ([], [])).
Definition update_map := save_map false.
Definition patch_map := save_map true.

Definition get_map_thumbnail (id : string) (user : option User) : DB string :=
  t ← read_all;
  m ← row_or (tb_maps t !! id) 404 "Thumbnail not found";
  data ← row_or (m_thumbnail_data m) 404 "Thumbnail not found";
  guard_or (negb (bool_decide (data = ""))
            && can_see_map t (m_owner_id m) (m_visibility m) (m_id m) user) 404 "Thumbnail not found";;
  mret data.

Definition ALLOWED_IMAGE_CONTENT_TYPES : list string :=
  ["image/jpeg"; "image/png"; "image/webp"; "image/gif"].
Definition MAX_UPLOAD_BYTES : Z := 5 * 1024 * 1024.

(** [upload_map_thumbnail]; the message lists the allowed types in an order that
    Python leaves open, and is cut before it. *)
Definition upload_map_thumbnail (id content_type data : string) (user : option User) : M unit :=
  on_tables (editable_map id user);;
  let ty := lower (strip (hd "" (split ";"%char content_type))) in
  on_tables (guard_or (bool_decide (ty ∈ ALLOWED_IMAGE_CONTENT_TYPES)) 400 "Invalid file type. Allowed: ");;
  on_tables (guard_or (Z.of_nat (String.length data) <=? MAX_UPLOAD_BYTES) 400 "File too large. Max 5MB.");;
  thumb ← on_tables (match image_to_thumbnail data ty with
                     | inr thumb => mret thumb
                     | inl e => refuse 400 ("Invalid image: " +:+ exn_str e)
                     end);
  now ← get_now;
  on_tables (row ← set_map_thumbnail_data id now thumb; row_or row 404 "Map not found");;
  mret tt.

Definition delete_map (id : string) (user : option User) : DB unit :=
  editable_map id user;;
  ok ← delete_map_row id;
  guard_or ok 404 "Map not found".
End endpoints.
