(* ===== verification/MapPublishing.v ===== *)
(** * Publishing a map

    What the checks of Maps.v establish about the definition that is stored: a map
    is public only if the caller may show all of its layers.  Stored definitions
    are in the form the endpoints produce ([stored_form]). *)

From S2P Require Import Prelude PyTime Redis Postgres World Database Json Session Permissions.
From S2P Require Import Shares Styles Collections Maps.

(** ** Dictionaries *)

Lemma dict_get_set {A} k k' (v : A) d :
  dict_get k (dict_set k' v d) = if decide (k = k') then Some v else dict_get k d.
Proof.
  induction d as [|[f x] d IH]; cbn; [by case_decide|].
  repeat (case_decide; cbn; simplify_eq); congruence.
Qed.
Lemma get_set k k' v d : get k (dict_set k' v d) = if decide (k = k') then v else get k d.
Proof. unfold get. rewrite dict_get_set. by case_decide. Qed.
Lemma get_set_if b k k' v d : k <> k' -> get k (set_if b k' v d) = get k d.
Proof. intros Hk. destruct b; [|done]. unfold set_if. rewrite get_set. by rewrite decide_False. Qed.

Lemma dump_get k fields d :
  dict_get k (model_dump fields d) = match dict_get k fields with
                                     | Some v => Some (default v (dict_get k d))
                                     | None => None
                                     end.
Proof.
  unfold model_dump. induction fields as [|[f x] fields IH]; [done|]. cbn. case_decide; [by subst|done].
Qed.
Lemma given_get k fields d :
  dict_get k fields = None -> dict_get k (model_given fields d) = None.
Proof.
  unfold model_given. induction fields as [|[f x] fields IH]; [done|]. cbn.
  case_decide; [done|]. intros Hf. destruct (dict_get f d); cbn; [|by apply IH].
  rewrite decide_False by done. by apply IH.
Qed.

Lemma str_truthy s : s <> "" -> json_truthy (JStr s) = true.
Proof. intros Hs. cbn. by rewrite bool_decide_eq_false_2. Qed.
Lemma str_or_json s d : s <> "" -> json_or (JStr s) d = JStr s.
Proof. intros Hs. unfold json_or. by rewrite str_truthy. Qed.

(** ** Layers *)

Definition ids_of (layers : list json) : list string :=
  map lower (omap mosaic_view_id_from_map_layer (dicts layers)).

(** A layer as it is stored names its mosaic by the address of its tiles. *)
Definition url_named (lyr : dict) : Prop :=
  dict_get "mosaic_view_id" lyr = None /\ dict_get "mosaicViewId" lyr = None.

(** What the checks read of a layer is in another one. *)
Record shows (lyr lyr' : dict) : Prop := {
  shows_collection c : layer_collection lyr = Some c -> layer_collection lyr' = Some c;
  shows_stac k : stac_item lyr = Some k -> stac_item lyr' = Some k;
  shows_mosaic mid : mosaic_view_id_from_map_layer lyr = Some mid -> raster_mosaic lyr' = Some mid
}.

Lemma uuid_at_nonempty s u : uuid_at s = Some u -> u <> "".
Proof.
  unfold uuid_at. destruct (is_uuid (str_take 36 s)) eqn:Hu; [|done]. destruct (startswith _ _); [|done].
  intros [= <-] He. by rewrite He in Hu.
Qed.
Lemma view_id_nonempty s u : view_id_in_url s = Some u -> u <> "".
Proof.
  revert u. induction s as [|c s IH]; intros u; [done|]. cbn [view_id_in_url].
  generalize (str_drop 14 (String c s)) as s'. intros s'.
  destruct (startswith _ _); [|apply IH].
  destruct (uuid_at s') eqn:Hu; [intros [= <-]; by eapply uuid_at_nonempty|apply IH].
Qed.

Section complete.
Context (mid : string) (lyr : dict).
Let lyr' := complete_mosaic_layer mid lyr.

Lemma complete_other k :
  k <> "raster_tiles" -> k <> "mosaic_view_id" -> k <> "layer_id" -> k <> "collection_id" ->
  get k lyr' = get k lyr.
Proof.
  intros ? ? ? ?. unfold lyr', complete_mosaic_layer. rewrite !get_set_if, get_set by done.
  by rewrite decide_False.
Qed.
Lemma complete_raster : get "raster_tiles" lyr' = JBool true.
Proof. unfold lyr', complete_mosaic_layer. by rewrite !get_set_if, get_set by done. Qed.
Lemma complete_view_id :
  get "mosaic_view_id" lyr' =
  if is_none (get "mosaic_view_id" lyr) && is_none (get "mosaicViewId" lyr) then JStr mid
  else get "mosaic_view_id" lyr.
Proof.
  unfold lyr', complete_mosaic_layer. rewrite !get_set_if by done. rewrite !get_set by done.
  rewrite !decide_False by done. destruct (_ && _); unfold set_if; by rewrite !get_set.
Qed.
Lemma complete_collection c : layer_collection lyr = Some c -> layer_collection lyr' = Some c.
Proof.
  unfold layer_collection, get_or. rewrite (complete_other "collectionId") by done.
  intros Hc. replace (get "collection_id" lyr') with (get "collection_id" lyr); [done|].
  unfold lyr', complete_mosaic_layer. set (l3 := set_if _ "layer_id" _ _).
  assert (forall k, k <> "raster_tiles" -> k <> "mosaic_view_id" -> k <> "layer_id" -> get k l3 = get k lyr)
    as Hl3.
  { intros k ? ? ?. unfold l3. rewrite !get_set_if, get_set by done. by rewrite decide_False. }
  unfold untruthy. rewrite !Hl3 by done.
  destruct (json_truthy (get "collection_id" lyr)) eqn:Ht; [by rewrite Hl3|].
  destruct (json_truthy (get "collectionId" lyr)) eqn:Ht'; [by rewrite Hl3|].
  unfold json_or in Hc. rewrite Ht in Hc. destruct (get "collectionId" lyr); try done.
  cbn in Ht'. apply negb_false_iff, bool_decide_eq_true in Ht'. subst. by rewrite decide_True in Hc by tauto.
Qed.
Lemma complete_stac k : stac_item lyr = Some k -> stac_item lyr' = Some k.
Proof.
  unfold stac_item, get_or. rewrite complete_raster, !complete_other by done.
  destruct (json_truthy (get "raster_tiles" lyr)); [done|done].
Qed.
End complete.

Lemma complete_mosaic mid lyr :
  mosaic_view_id_from_map_layer lyr = Some mid ->
  mosaic_view_id_from_map_layer (complete_mosaic_layer mid lyr) = Some mid.
Proof.
  unfold mosaic_view_id_from_map_layer, get_or. rewrite (complete_other _ _ "mosaicViewId"),
    (complete_other _ _ "tiles_url"), complete_view_id by done.
  destruct (json_truthy (json_or (get "mosaic_view_id" lyr) (get "mosaicViewId" lyr))) eqn:Ht.
  - destruct (is_none (get "mosaic_view_id" lyr)) eqn:H1; [|cbn [andb]; by rewrite Ht].
    destruct (is_none (get "mosaicViewId" lyr)) eqn:H2; [|cbn [andb]; by rewrite Ht].
    destruct (get "mosaic_view_id" lyr); try done. by destruct (get "mosaicViewId" lyr).
  - destruct (get "tiles_url" lyr); try done. intros Hv. pose proof (view_id_nonempty _ _ Hv) as Hne.
    destruct (is_none _ && is_none _); [|by rewrite Ht].
    by rewrite str_or_json, str_truthy.
Qed.

Lemma complete_shows mid lyr :
  url_named lyr -> mosaic_view_id_from_map_layer lyr = Some mid ->
  shows lyr (complete_mosaic_layer mid lyr).
Proof.
  intros [H1 H2] Hm. split; [apply complete_collection|apply complete_stac|]. rewrite Hm. intros ? [= <-].
  unfold raster_mosaic, get_or. rewrite complete_raster, (complete_other _ _ "mosaicViewId"), complete_view_id by done.
  assert (get "mosaic_view_id" lyr = JNull /\ get "mosaicViewId" lyr = JNull) as [H1' H2']
    by (unfold get; by rewrite H1, H2).
  unfold mosaic_view_id_from_map_layer, get_or in Hm. rewrite H1', H2' in Hm |- *. cbn in Hm |- *.
  destruct (get "tiles_url" lyr); try done. pose proof (view_id_nonempty _ _ Hm).
  by rewrite str_or_json, str_truthy.
Qed.

(** ** Duplicates *)

Lemma uniq_nodup seen l : NoDup (uniq seen l) /\ (forall x, x ∈ uniq seen l -> x ∉ seen).
Proof.
  revert seen. induction l as [|x l IH]; intros seen; cbn [uniq]; [split; [constructor|set_solver]|].
  case_decide as Hx; [apply IH|]. destruct (IH (x :: seen)) as [Hn Hs]. split.
  - constructor; [|done]. intros Hin. apply (Hs x Hin). by left.
  - intros y [->|Hy]%elem_of_cons; [done|]. specialize (Hs y Hy). set_solver.
Qed.

Lemma ids_cons lyr l :
  ids_of (JObj lyr :: l) =
  match mosaic_view_id_from_map_layer lyr with Some mid => lower mid :: ids_of l | None => ids_of l end.
Proof. unfold ids_of. cbn. by destruct (mosaic_view_id_from_map_layer lyr). Qed.

(** The duplicates are gone. *)
Lemma dedupe_ids seen l : ids_of (dedupe_layers seen l) = uniq seen (ids_of l).
Proof.
  revert seen. induction l as [|j l IH]; intros seen; [done|]. destruct j; try apply IH.
  cbn [dedupe_layers]. rewrite ids_cons. destruct (mosaic_view_id_from_map_layer m) as [mid|] eqn:Hm.
  - cbn [uniq]. case_decide; [apply IH|]. rewrite ids_cons, (complete_mosaic mid m Hm). by rewrite IH.
  - rewrite ids_cons, Hm. apply IH.
Qed.

(** Without duplicates every layer is kept, or completed. *)
Lemma dedupe_keeps l : forall seen lyr,
  NoDup (ids_of l) -> (forall x, x ∈ ids_of l -> x ∉ seen) -> lyr ∈ dicts l ->
  exists lyr', lyr' ∈ dicts (dedupe_layers seen l)
    /\ (mosaic_view_id_from_map_layer lyr = None /\ lyr' = lyr
        \/ exists mid, mosaic_view_id_from_map_layer lyr = Some mid /\ lyr' = complete_mosaic_layer mid lyr).
Proof.
  induction l as [|j l IH]; intros seen lyr Hn Hs Hin; [by apply not_elem_of_nil in Hin|].
  destruct j; try (by apply (IH seen lyr)). cbn [dedupe_layers]. rewrite ids_cons in Hn, Hs.
  change (dicts (JObj m :: l)) with (m :: dicts l) in Hin.
  destruct (mosaic_view_id_from_map_layer m) as [mid|] eqn:Hm.
  - rewrite decide_False by (apply Hs; by left). apply NoDup_cons in Hn as [Hni Hn].
    apply elem_of_cons in Hin as [->|Hin].
    + exists (complete_mosaic_layer mid m). split; [by left|right; by exists mid].
    + destruct (IH (lower mid :: seen) lyr) as (lyr' & Hl & Hc); [done| |done|].
      * intros x Hx. apply not_elem_of_cons. split; [by intros ->|]. apply Hs. by right.
      * exists lyr'. split; [by right|done].
  - apply elem_of_cons in Hin as [->|Hin]; [exists m; split; [by left|by left]|].
    destruct (IH seen lyr Hn Hs Hin) as (lyr' & Hl & Hc). exists lyr'. split; [by right|done].
Qed.

(** What is left comes from a layer. *)
Lemma dedupe_from l : forall seen lyr', lyr' ∈ dicts (dedupe_layers seen l) ->
  exists lyr, lyr ∈ dicts l
    /\ (mosaic_view_id_from_map_layer lyr = None /\ lyr' = lyr
        \/ exists mid, mosaic_view_id_from_map_layer lyr = Some mid /\ lyr' = complete_mosaic_layer mid lyr).
Proof.
  induction l as [|j l IH]; intros seen lyr' Hin; [by apply not_elem_of_nil in Hin|].
  assert (forall seen, lyr' ∈ dicts (dedupe_layers seen l) -> exists lyr, lyr ∈ dicts (j :: l)
    /\ (mosaic_view_id_from_map_layer lyr = None /\ lyr' = lyr \/ exists mid,
         mosaic_view_id_from_map_layer lyr = Some mid /\ lyr' = complete_mosaic_layer mid lyr)) as Htl.
  { intros s Hl. destruct (IH s lyr' Hl) as (lyr & Hd & Hc). exists lyr. split; [|done].
    destruct j; try done. by right. }
  destruct j; try (by apply (Htl seen)). cbn [dedupe_layers] in Hin.
  destruct (mosaic_view_id_from_map_layer m) as [mid|] eqn:Hm.
  - case_decide; [by apply (Htl seen)|]. change (dicts (JObj ?x :: ?y)) with (x :: dicts y) in Hin.
    apply elem_of_cons in Hin as [->|Hin]; [|by eapply Htl]. exists m. split; [by left|right; by exists mid].
  - apply elem_of_cons in Hin as [->|Hin]; [|by eapply Htl]. exists m. split; [by left|by left].
Qed.

(** ** Stored definitions *)

Definition stored_form (def : json) : Prop :=
  let l := layers_of (fields_of def) in NoDup (ids_of l) /\ Forall url_named (dicts l).
Definition maps_ok (t : tables) : Prop :=
  forall id m, tb_maps t !! id = Some m -> m_id m = id /\ stored_form (m_definition m).

Lemma layers_of_dedupe d :
  layers_of (dedupe_map_definition_mosaic_layers d) = dedupe_layers [] (layers_of d).
Proof. unfold layers_of at 1, dedupe_map_definition_mosaic_layers. by rewrite get_set. Qed.

Lemma dicts_map f l : dicts (map (on_object f) l) = map f (dicts l).
Proof. induction l as [|[] l IH]; cbn; try done. by f_equal. Qed.

Lemma layers_of_on_layers f d : layers_of (on_layers f d) = map (on_object f) (layers_of d).
Proof.
  unfold layers_of, get, on_layers. induction d as [|[k v] d IH]; [done|]. cbn [map dict_get fst snd].
  destruct (decide (k = "layers")) as [->|Hk]; cbn [dict_get fst].
  - by rewrite decide_True by done.
  - rewrite !(decide_False (P := "layers" = k)) by congruence. exact IH.
Qed.
Lemma layers_of_dump d :
  layers_of (dump_definition d) = map (on_object (model_dump MapLayer_fields)) (layers_of d).
Proof.
  unfold dump_definition. rewrite layers_of_on_layers. f_equal. unfold layers_of, get.
  rewrite dump_get. cbn. by destruct (dict_get "layers" d).
Qed.
Lemma layers_of_given d :
  layers_of (given_definition d) = map (on_object (model_given MapLayer_fields)) (layers_of d).
Proof.
  unfold given_definition. rewrite layers_of_on_layers. f_equal. unfold layers_of, get. f_equal.
  unfold model_given. cbn -[decide]. destruct (dict_get "layers" d); cbn; [done|].
  by repeat (destruct (dict_get _ d); cbn).
Qed.

Lemma given_url_named lyr : url_named (model_given MapLayer_fields lyr).
Proof. by split; apply given_get. Qed.
Lemma dump_url_named lyr : url_named (model_dump MapLayer_fields lyr).
Proof. by split; rewrite dump_get. Qed.

(** The mosaic that the address of the tiles names. *)
Definition url_mosaic (lyr : dict) : option string :=
  match get "tiles_url" lyr with JStr u => view_id_in_url u | _ => None end.
Lemma url_named_mosaic lyr : url_named lyr -> mosaic_view_id_from_map_layer lyr = url_mosaic lyr.
Proof.
  intros [H1 H2]. unfold mosaic_view_id_from_map_layer, get_or, get. by rewrite H1, H2.
Qed.

(** Every layer a request stores names its mosaic by the address. *)
Lemma saved_by_url d lyr :
  lyr ∈ dicts (layers_of (dedupe_map_definition_mosaic_layers (given_definition d))) ->
  mosaic_view_id_from_map_layer lyr = url_mosaic lyr.
Proof.
  rewrite layers_of_dedupe, layers_of_given. intros Hin.
  destruct (dedupe_from _ _ _ Hin) as (lyr0 & H0 & Hc). rewrite dicts_map in H0.
  apply list_elem_of_fmap in H0 as (raw & -> & _). pose proof (given_url_named raw) as Hu.
  destruct Hc as [[_ ->]|(mid & Hm & ->)]; [by apply url_named_mosaic|].
  rewrite (complete_mosaic mid _ Hm), <-Hm, url_named_mosaic by done.
  unfold url_mosaic. by rewrite (complete_other _ _ "tiles_url").
Qed.

Lemma dump_url_mosaic lyr : url_mosaic (model_dump MapLayer_fields lyr) = url_mosaic lyr.
Proof.
  unfold url_mosaic, get. rewrite dump_get. cbn. by destruct (dict_get "tiles_url" lyr).
Qed.

Lemma dump_ids l :
  (forall lyr, lyr ∈ dicts l -> mosaic_view_id_from_map_layer lyr = url_mosaic lyr) ->
  ids_of (map (on_object (model_dump MapLayer_fields)) l) = ids_of l.
Proof.
  induction l as [|j l IH]; intros Hl; [done|]. destruct j; try by apply IH.
  change (map ?f (JObj m :: l)) with (JObj (model_dump MapLayer_fields m) :: map f l).
  rewrite !ids_cons, url_named_mosaic, dump_url_mosaic, (Hl m) by (first [apply dump_url_named|by left]).
  rewrite IH; [done|]. intros lyr Hin. apply Hl. by right.
Qed.

Lemma stored_form_saved d :
  stored_form (JObj (dump_definition (dedupe_map_definition_mosaic_layers (given_definition d)))).
Proof.
  unfold stored_form. cbn [fields_of]. rewrite layers_of_dump. split.
  - rewrite dump_ids by apply saved_by_url. rewrite layers_of_dedupe, dedupe_ids. apply uniq_nodup.
  - rewrite dicts_map. apply Forall_fmap, Forall_forall. intros lyr _. apply dump_url_named.
Qed.

(** ** The checks *)

(** The caller may show the layer to everybody. *)
Record may_show (t : tables) (user : option User) (lyr : dict) : Prop := {
  show_collection c coll : layer_collection lyr = Some c -> tb_collections t !! c = Some coll ->
    c_visibility coll = VISIBILITY_PUBLIC \/ can_edit_collection t coll user = true;
  show_stac k : stac_item lyr = Some k -> k ∈ tb_grants t;
  show_mosaic mid : mosaic_view_id_from_map_layer lyr = Some mid ->
    exists v, tb_views t !! mid = Some v
      /\ (rv_visibility v = VISIBILITY_PUBLIC \/ can_edit_raster_view t (rv_owner_id v) mid user = true)
}.

Lemma elem_of_uniq x l : forall seen, x ∈ l -> x ∉ seen -> x ∈ uniq seen l.
Proof.
  induction l as [|y l IH]; intros seen Hx Hs; [by apply not_elem_of_nil in Hx|]. cbn [uniq].
  apply elem_of_cons in Hx as [->|Hx].
  - rewrite decide_False by done. by left.
  - case_decide; [by apply IH|]. destruct (decide (x = y)) as [->|]; [by left|right].
    apply IH; [done|]. set_solver.
Qed.
Lemma split_blocking l x : (split_items l).1 = [] -> x ∈ l -> x.2 = true.
Proof.
  cbn [split_items fst]. intros Hl Hx. destruct x.2 eqn:H2; [done|].
  assert (x ∈ List.filter (fun x => negb x.2) l) as Hin
    by (by rewrite list_elem_of_In, filter_In, H2, <-list_elem_of_In).
  apply map_eq_nil in Hl. rewrite Hl in Hin. by apply not_elem_of_nil in Hin.
Qed.

Lemma publish_checks_run d user t :
  publish_checks d user t = (inr tt, t)
  /\ (check_map_public_layers t d user).1 = [] /\ stac_grants_missing_for_public_map t d = []
  /\ (mosaic_visibility_status_for_public_map t d user).1 = []
  \/ exists e, publish_checks d user t = (inl e, t).
Proof.
  unfold publish_checks. rewrite read_all_run.
  destruct (check_map_public_layers t d user).1; [|right; by eexists].
  destruct (stac_grants_missing_for_public_map t d); [|right; by eexists].
  destruct (mosaic_visibility_status_for_public_map t d user).1; [by left|right; by eexists].
Qed.

(** A layer of the definition that was checked may be shown, and with it every layer
    it stands for. *)
Lemma checked_shows d user t lyr lyr' :
  (check_map_public_layers t d user).1 = [] -> stac_grants_missing_for_public_map t d = [] ->
  (mosaic_visibility_status_for_public_map t d user).1 = [] ->
  lyr' ∈ dicts (layers_of d) -> shows lyr lyr' -> may_show t user lyr.
Proof.
  intros Hc Hs Hm Hin [Sc Ss Sm]. split.
  - intros c coll Hl%Sc Hcoll. destruct (decide (c_visibility coll = VISIBILITY_PUBLIC)); [by left|right].
    eapply (split_blocking _ (mkItem c (str_or (opt_str (c_title coll)) c), can_edit_collection t coll user) Hc).
    apply list_elem_of_omap. exists c. split; [|by rewrite Hcoll, decide_False].
    apply elem_of_uniq; [|by apply not_elem_of_nil]. apply list_elem_of_omap. by exists lyr'.
  - intros k Hk%Ss. destruct (decide (k ∈ tb_grants t)) as [|Hn]; [done|]. exfalso.
    assert (k ∈ stac_grants_missing_for_public_map t d) as Hk'; [|rewrite Hs in Hk'; by apply not_elem_of_nil in Hk'].
    unfold stac_grants_missing_for_public_map. rewrite list_elem_of_In, filter_In, <-list_elem_of_In.
    split; [apply list_elem_of_omap; by exists lyr'|by rewrite bool_decide_eq_false_2].
  - intros mid Hl%Sm.
    assert (mid ∈ uniq [] (omap raster_mosaic (dicts (layers_of d)))) as Hu
      by (apply elem_of_uniq; [apply list_elem_of_omap; by exists lyr'|by apply not_elem_of_nil]).
    destruct (tb_views t !! mid) as [v|] eqn:Hv.
    + exists v. split; [done|]. destruct (decide (rv_visibility v = VISIBILITY_PUBLIC)); [by left|right].
      apply (split_blocking _ (mkItem mid (str_or (rv_title v) mid),
        can_edit_raster_view t (rv_owner_id v) mid user) Hm).
      apply list_elem_of_omap. exists mid. by rewrite Hv, decide_False.
    + exfalso. assert ((mkItem mid "Unknown mosaic", false).2 = true); [|done].
      apply (split_blocking _ _ Hm). apply list_elem_of_omap. exists mid. by rewrite Hv.
Qed.

(** ** Saving *)

Lemma truthy_not_none k k' lyr :
  json_truthy (get_or k k' lyr) = true -> is_none (get k lyr) && is_none (get k' lyr) = false.
Proof. unfold get_or. destruct (get k lyr); try done. by destruct (get k' lyr). Qed.

Lemma complete_raster_mosaic mid mid' lyr :
  raster_mosaic lyr = Some mid -> raster_mosaic (complete_mosaic_layer mid' lyr) = Some mid.
Proof.
  unfold raster_mosaic. destruct (json_truthy (get "raster_tiles" lyr)); [|done].
  destruct (json_truthy (get_or "mosaic_view_id" "mosaicViewId" lyr)) eqn:Ht; [|done]. intros Hm.
  rewrite complete_raster. unfold get_or in *.
  rewrite (complete_other _ _ "mosaicViewId"), complete_view_id by done.
  rewrite (truthy_not_none _ _ _ Ht). by rewrite Ht.
Qed.

Lemma dump_truthy_or k k' lyr :
  dict_get k MapLayer_fields = Some JNull -> dict_get k' MapLayer_fields = None ->
  json_truthy (get_or k k' (model_dump MapLayer_fields lyr)) = true ->
  get_or k k' lyr = get_or k k' (model_dump MapLayer_fields lyr).
Proof.
  intros Hk Hk'. unfold get_or, get. rewrite !dump_get, Hk, Hk'. cbn [default id].
  destruct (dict_get k lyr) as [v|]; cbn [default id]; [|done]. unfold json_or.
  by destruct (json_truthy v).
Qed.

Lemma dump_collection lyr c :
  layer_collection (model_dump MapLayer_fields lyr) = Some c -> layer_collection lyr = Some c.
Proof.
  unfold layer_collection. intros Hc. rewrite (dump_truthy_or "collection_id" "collectionId" lyr); [done..|].
  destruct (get_or _ _ (model_dump _ _)) as [| | | |s| |]; try done. cbn.
  rewrite bool_decide_eq_false_2; [done|]. intros ->. by rewrite decide_True in Hc by tauto.
Qed.

Lemma dump_stac lyr k : stac_item (model_dump MapLayer_fields lyr) = Some k -> stac_item lyr = Some k.
Proof.
  assert (json_truthy (get "raster_tiles" (model_dump MapLayer_fields lyr))
          = json_truthy (get "raster_tiles" lyr)) as Hr
    by (unfold get; rewrite dump_get; cbn; by destruct (dict_get "raster_tiles" lyr)).
  assert (get "tiles_url" (model_dump MapLayer_fields lyr) = get "tiles_url" lyr) as Hu
    by (unfold get; rewrite dump_get; cbn; by destruct (dict_get "tiles_url" lyr)).
  unfold stac_item. rewrite Hr, Hu. destruct (json_truthy (get "raster_tiles" lyr)); [|done].
  destruct (json_truthy (get "tiles_url" lyr)); [|done]. cbn [andb].
  destruct (json_truthy (get_or "stac_catalog_id" _ (model_dump _ _))) eqn:H1; [|done].
  destruct (json_truthy (get_or "stac_collection_id" _ (model_dump _ _))) eqn:H2; [|done].
  destruct (json_truthy (get_or "stac_item_id" _ (model_dump _ _))) eqn:H3; [|done].
  rewrite (dump_truthy_or "stac_catalog_id" "stacCatalogId" lyr eq_refl eq_refl H1),
    (dump_truthy_or "stac_collection_id" "stacCollectionId" lyr eq_refl eq_refl H2),
    (dump_truthy_or "stac_item_id" "stacItemId" lyr eq_refl eq_refl H3).
  by rewrite H1, H2, H3.
Qed.

(** What the merged definition of a request holds of each layer that is stored. *)
Lemma unchanged_covered def lyr :
  stored_form (JObj def) -> lyr ∈ dicts (layers_of def) ->
  exists lyr', lyr' ∈ dicts (layers_of (dedupe_map_definition_mosaic_layers def)) /\ shows lyr lyr'.
Proof.
  intros [Hn Hu] Hin. cbn [fields_of] in *. rewrite layers_of_dedupe.
  destruct (dedupe_keeps _ [] lyr Hn) as (lyr' & Hl & Hc); [set_solver|done|].
  exists lyr'. split; [done|]. rewrite Forall_forall in Hu.
  destruct Hc as [[Hm ->]|(mid & Hm & ->)]; [|by apply complete_shows, Hm; apply Hu].
  split; [done..|]. intros mid. by rewrite Hm.
Qed.

Lemma saved_covered raw lyr :
  let d := dedupe_map_definition_mosaic_layers (given_definition raw) in
  lyr ∈ dicts (layers_of (dump_definition d)) ->
  exists lyr', lyr' ∈ dicts (layers_of (dedupe_map_definition_mosaic_layers d)) /\ shows lyr lyr'.
Proof.
  intros d. rewrite layers_of_dump, dicts_map. intros (lyr1 & -> & Hin)%list_elem_of_fmap.
  assert (NoDup (ids_of (layers_of d))) as Hn
    by (unfold d; rewrite layers_of_dedupe, dedupe_ids; apply uniq_nodup).
  destruct (dedupe_keeps _ [] lyr1 Hn) as (lyr' & Hl & Hc); [set_solver|done|].
  exists lyr'. rewrite layers_of_dedupe. split; [done|].
  pose proof (saved_by_url raw lyr1 Hin) as Hurl.
  assert (forall mid, mosaic_view_id_from_map_layer lyr1 = Some mid -> raster_mosaic lyr1 = Some mid) as Hr.
  { intros mid Hm. unfold d in Hin. rewrite layers_of_dedupe, layers_of_given in Hin.
    destruct (dedupe_from _ _ _ Hin) as (lyr0 & H0 & [[Hm0 ->]|(mid0 & Hm0 & ->)]); [congruence|].
    rewrite dicts_map in H0. apply list_elem_of_fmap in H0 as (r & -> & _).
    rewrite (complete_mosaic mid0 _ Hm0) in Hm. injection Hm as <-.
    by apply (shows_mosaic _ _ (complete_shows mid0 _ (given_url_named r) Hm0)). }
  split.
  - intros c Hcoll%dump_collection. destruct Hc as [[_ ->]|(mid & _ & ->)]; [done|].
    by apply complete_collection.
  - intros k Hk%dump_stac. destruct Hc as [[_ ->]|(mid & _ & ->)]; [done|]. by apply complete_stac.
  - intros mid. rewrite (url_named_mosaic _ (dump_url_named lyr1)), dump_url_mosaic, <-Hurl.
    intros Hm. apply Hr in Hm. destruct Hc as [[_ ->]|(mid' & _ & ->)]; [done|]. by apply complete_raster_mosaic.
Qed.

Lemma editable_map_run id user t :
  (exists m, editable_map id user t = (inr m, t) /\ tb_maps t !! id = Some m)
  \/ exists e, editable_map id user t = (inl e, t).
Proof.
  unfold editable_map. rewrite read_all_run, row_or_run.
  destruct (tb_maps t !! id) as [m|]; [|right; by eexists]. rewrite guard_or_run.
  destruct (can_edit_map _ _ _ _ _ _); [left; by exists m|right; by eexists].
Qed.

(** The visibility that is checked is the one that is stored, if it is a known one. *)
Lemma checked_visibility base id d now m :
  (forall v, mu_visibility d = Some (Some v) -> Crud.known_visibility v = true) ->
  m_visibility (updated_map now (map_payload base id d) m) = VISIBILITY_PUBLIC
  \/ m_visibility m = VISIBILITY_PUBLIC /\ default None (mu_visibility d) = None ->
  merged_map_visibility (map_payload base id d) m = VISIBILITY_PUBLIC.
Proof.
  intros Hk. unfold merged_map_visibility. cbn [updated_map m_visibility map_payload mu_visibility].
  unfold Crud.patched_visibility. destruct (mu_visibility d) as [[v|]|] eqn:Hv; cbn [default Datatypes.id].
  - rewrite (Hk v eq_refl). by intros [->|[_ ?]].
  - intros [->|[-> _]]; done.
  - intros [->|[-> _]]; done.
Qed.

(** The definition a request leaves, and that it was covered by the checks. *)
Lemma saved_definition base id d now m lyr :
  stored_form (m_definition m) ->
  let p := map_payload base id d in
  let def := m_definition (updated_map now p m) in
  stored_form def
  /\ (lyr ∈ dicts (layers_of (fields_of def)) ->
      exists lyr', lyr' ∈ dicts (layers_of (merged_map_definition p m)) /\ shows lyr lyr').
Proof.
  intros Hm p def. unfold def, merged_map_definition, p. cbn [updated_map m_definition map_payload mu_definition].
  destruct (mu_definition d) as [[raw|]|]; cbn [option_map default Datatypes.id].
  - split; [apply stored_form_saved|]. apply saved_covered.
  - split; [done|]. by apply unchanged_covered.
  - split; [done|]. by apply unchanged_covered.
Qed.

Lemma ret_bind_run {A B} (a : A) (f : A -> M B) w : (mret a ≫= f) w = f a w.
Proof. reflexivity. Qed.
Lemma tables_bind_run {B} (f : tables -> M B) w : (all_tables ≫= f) w = f (w_tables w) w.
Proof. reflexivity. Qed.

Section saving.
Context (patch : bool) (base id : string) (d : MapUpdate) (user : option User).

(** What an answered request stored. *)
Lemma save_map_run w r w' :
  save_map patch base id d user w = (inr r, w') ->
  let t := w_tables w in let p := map_payload base id d in
  exists m, tb_maps t !! id = Some m
    /\ (merged_map_visibility p m = VISIBILITY_PUBLIC ->
        publish_checks (merged_map_definition p m) user t = (inr tt, t))
    /\ (r.1 = m /\ empty_payload p = true /\ w_tables w' = t
        \/ exists now, r.1 = updated_map now p m /\ w_tables w' = put_map id (updated_map now p m) t).
Proof.
  intros Hrun t p. unfold save_map in Hrun. rewrite bind_run, on_tables_run in Hrun. fold t p in Hrun.
  destruct (editable_map_run id user t) as [(m & Hm & Hrow)|[e Hm]]; rewrite Hm in Hrun; [|done].
  cbn [fst snd] in Hrun. rewrite bind_run, on_tables_run in Hrun. cbn [w_tables with_tables with_services w_services s_tables] in Hrun.
  exists m. split; [done|].
  assert ((merged_map_visibility p m = VISIBILITY_PUBLIC ->
           publish_checks (merged_map_definition p m) user t = (inr tt, t))
          /\ when_public (merged_map_visibility p m) (publish_checks (merged_map_definition p m) user) t
             = (inr tt, t)) as [Hchk Hwhen].
  { unfold when_public, when_db in *. case_bool_decide as Hv; [|by split].
    destruct (publish_checks_run (merged_map_definition p m) user t) as [(Hp & _)|[e Hp]].
    - by split.
    - rewrite Hp in Hrun. done. }
  split; [done|]. rewrite Hwhen in Hrun. cbn [fst snd] in Hrun. rewrite bind_run in Hrun.
  cbn [get_now gets] in Hrun. set (now := w_now _) in Hrun.
  destruct (patch && empty_payload p) eqn:He.
  - left. apply andb_true_iff in He as [_ He]. rewrite ret_bind_run, tables_bind_run in Hrun.
    injection Hrun as <- <-. done.
  - right. exists now. rewrite bind_run, on_tables_run in Hrun.
    cbn [w_tables with_tables with_services w_services s_tables] in Hrun.
    assert ((row ← update_map_row id now p; row_or row 404 "Map not found") t
            = (inr (updated_map now p m), put_map id (updated_map now p m) t)) as Hu
      by (unfold update_map_row; by rewrite db_bind_assoc, read_all_run, Hrow).
    rewrite Hu in Hrun. cbn [fst snd] in Hrun. rewrite tables_bind_run in Hrun. injection Hrun as <- <-. done.
Qed.

(** C33. Publishing is checked for the visibilities the program knows: when a request
    that saves a map names no visibility or a known one, and is answered, and the map is
    public afterwards, then every layer of the stored definition shows collections and
    saved mosaics that are public or that the caller may publish, and STAC items with a
    grant for anonymous viewers; the other maps are left alone, and the stored
    definitions keep their form.  A request that names an unknown visibility escapes the
    checks of a map that is public already: [unknown_visibility_skips_checks]. *)
Theorem publishing_checked (w w' : world) (row : Map) (s : list blocked_item * list blocked_item) :
  maps_ok (w_tables w) ->
  (forall v, mu_visibility d = Some (Some v) -> Crud.known_visibility v = true) ->
  save_map patch base id d user w = (inr (row, s), w') ->
  tb_maps (w_tables w') !! id = Some row
  /\ maps_ok (w_tables w')
  /\ (forall id', id' <> id -> tb_maps (w_tables w') !! id' = tb_maps (w_tables w) !! id')
  /\ (m_visibility row = VISIBILITY_PUBLIC ->
      forall lyr, lyr ∈ dicts (layers_of (fields_of (m_definition row))) -> may_show (w_tables w) user lyr).
Proof.
  intros Hok Hk Hrun. destruct (save_map_run _ _ _ Hrun) as (m & Hm & Hchk & Hres). cbn [fst] in Hres.
  destruct (Hok id m Hm) as [Hid Hform].
  assert (forall lyr lyr', merged_map_visibility (map_payload base id d) m = VISIBILITY_PUBLIC ->
    lyr' ∈ dicts (layers_of (merged_map_definition (map_payload base id d) m)) -> shows lyr lyr' ->
    may_show (w_tables w) user lyr) as Hshow.
  { intros lyr lyr' Hv Hl Hs. specialize (Hchk Hv).
    destruct (publish_checks_run (merged_map_definition (map_payload base id d) m) user (w_tables w))
      as [(_ & Hc & Hg & Hmo)|[e He]]; [|congruence]. by eapply checked_shows. }
  destruct Hres as [(-> & He & Ht)|(now & -> & Ht)]; rewrite Ht.
  - split_and!; [done..|]. intros Hv lyr Hl.
    assert (mu_visibility d = None /\ mu_definition (map_payload base id d) = None) as [Hvis Hdef].
    { unfold empty_payload, map_payload in He. cbn. destruct (mu_visibility d); [by repeat case_match|].
      by destruct (mu_definition d); [repeat case_match|]. }
    destruct (unchanged_covered (fields_of (m_definition m)) lyr) as (lyr' & Hl' & Hs); [done..|].
    eapply Hshow; [|unfold merged_map_definition; rewrite Hdef; exact Hl'|done].
    apply (checked_visibility base id d 0); [done|]. right. by rewrite Hvis.
  - split_and!.
    + apply lookup_insert_eq.
    + intros id' m' Hm'. cbn in Hm'. apply lookup_insert_Some in Hm' as [[<- <-]|[_ Hm']]; [|by apply Hok].
      split; [done|]. by apply (saved_definition base id d now m []).
    + intros id' Hn. by apply lookup_insert_ne.
    + intros Hv lyr Hl.
      destruct (saved_definition base id d now m lyr Hform) as [_ Hcov].
      destruct (Hcov Hl) as (lyr' & Hl' & Hs). eapply Hshow; [|exact Hl'|done].
      apply (checked_visibility base id d now); [done|by left].
Qed.
End saving.

(** ** An example *)

Definition layer (fields : dict) : json := JObj fields.
Definition demo_map (visibility : string) (layers : list json) : Map :=
  mkMap "m1" "Map" None None None (JObj (dump_definition [("layers", JList layers)])) (Some 1) visibility
    false 0.
Definition map_tables (m : Map) : tables :=
  put_map "m1" m (style_tables [demo_collection "roads" 1 "private" "vector";
                                demo_collection "secret" 2 "private" "vector"] []).
Definition map_world (m : Map) : world := with_tables empty_world (map_tables m).
Definition publish (visibility : string) (layers : list json) : MapUpdate :=
  mkMapUpdate None None None (Some (Some [("layers", JList layers)])) (Some (Some visibility)) None.

Lemma demo_maps_ok m : m_id m = "m1" -> stored_form (m_definition m) -> maps_ok (map_tables m).
Proof.
  intros Hid Hm id m' Hm'. cbn in Hm'. apply lookup_insert_Some in Hm' as [[<- <-]|[_ Hm']]; [done|].
  by rewrite lookup_empty in Hm'.
Qed.

Lemma publishing_checked_witness :
  exists row s w',
    patch_map "" "m1" (publish "public" [layer [("collection_id", JStr "roads")]]) (Some ana)
      (map_world (demo_map "private" [])) = (inr (row, s), w')
    /\ m_visibility row = VISIBILITY_PUBLIC
    /\ forall lyr, lyr ∈ dicts (layers_of (fields_of (m_definition row))) ->
         may_show (map_tables (demo_map "private" [])) (Some ana) lyr.
Proof.
  set (r := patch_map "" "m1" (publish "public" [layer [("collection_id", JStr "roads")]]) (Some ana)
              (map_world (demo_map "private" []))).
  assert (exists row s w', r = (inr (row, s), w') /\ m_visibility row = VISIBILITY_PUBLIC)
    as (row & s & w' & Hr & Hv) by (do 3 eexists; vm_compute; split; reflexivity).
  exists row, s, w'. split; [exact Hr|]. split; [exact Hv|].
  assert (maps_ok (w_tables (map_world (demo_map "private" [])))) as Hok.
  { apply demo_maps_ok; [done|]. split; [constructor|constructor]. }
  refine (proj2 (proj2 (proj2 (publishing_checked true "" "m1"
    (publish "public" [layer [("collection_id", JStr "roads")]]) (Some ana)
    (map_world (demo_map "private" [])) w' row s Hok _ Hr))) Hv).
  intros v [= <-]. done.
Defined.

(** A visibility that does not exist switches the checks off: a public map gets a
    layer its owner may not publish. *)
Theorem unknown_visibility_skips_checks :
  let w := map_world (demo_map "public" []) in
  (fst (patch_map "" "m1" (publish "public" [layer [("collection_id", JStr "secret")]]) (Some ana) w)
   = inl (HTTPException 403 (JObj
       [("message", JStr ("Cannot make map public: the following layers are not public and you do not have "
           +:+ "permission to change their visibility: secret (secret)."));
        ("collections_blocking", JList [JObj [("id", JStr "secret"); ("title", JStr "secret")]])])))
  /\ match fst (patch_map "" "m1" (publish "Public" [layer [("collection_id", JStr "secret")]]) (Some ana) w) with
     | inr (row, _) => m_visibility row = VISIBILITY_PUBLIC
         /\ collection_ids_from_definition (fields_of (m_definition row)) = ["secret"]
     | inl _ => False
     end.
Proof. split; [by vm_compute|]. vm_compute. split; reflexivity. Qed.

(** The report on a saved map does not see its mosaics, which are stored without
    their id. *)
Theorem report_misses_mosaics :
  let url := "/raster-views/01234567-89ab-cdef-0123-456789abcdef/titiler/tiles/{z}/{x}/{y}.png" in
  let lyr := layer [("collection_id", JStr "_mosaic"); ("tiles_url", JStr url)] in
  let w := map_world (demo_map "private" [lyr]) in
  fst (on_tables (report_public_layers "m1" (Some ana)) w) = inr (mkReport [] [] [] [] [])
  /\ fst (patch_map "" "m1" (mkMapUpdate None None None None (Some (Some "public")) None) (Some ana) w)
     = inl (HTTPException 403 (JObj
         [("message", JStr ("This map is public but some saved mosaic layers are not public and you do not "
             +:+ "have permission to publish them. Ask a mosaic owner/editor to make them public, "
             +:+ "or remove those layers."));
          ("mosaic_public_blocking", JList [JObj
             [("mosaic_view_id", JStr "01234567-89ab-cdef-0123-456789abcdef");
              ("title", JStr "Unknown mosaic")]])])).
Proof. split; by vm_compute. Qed.
