(* ===== verification/Accounts.v ===== *)
(** * Logging in, and the administration of users (app/api/routes/auth.py)

    The limiter of failed logins with its two back ends, the login and password
    forms, the address a form redirects to, and the forms of the administrator.
    An endpoint answers with a redirect or with a page, of which the error text
    is kept.  The pages of a user's own resources are in UserPages.v. *)

From stdpp Require Import sorting.
From S2P Require Import Prelude PyTime Redis Postgres World Sha256 Session.

(** ** Redirect targets *)

(** [_normalize_next_url]; [base] is the address of the server without a final
    slash. *)
Definition home (base : string) : string := base +:+ "/collections?f=html".
Definition normalize_next_url (base : string) (next_url : option string) : string :=
  let u := strip (opt_str next_url) in
  if decide (u = "") then home base
  else if startswith "/" u && negb (startswith "//" u) then
    if startswith "/auth/login" u then home base else base +:+ u
  else if startswith base u then
    if startswith (base +:+ "/auth/login") u then home base else u
  else home base.

(** ** Failed logins *)

Definition window_s : Z := 60.
Definition max_failures : Z := 8.
Definition block_s : Z := 300.

Definition attempts_key (ip : string) : string := "geofastmap:auth:login_fail:" +:+ ip.
Definition blocked_key (ip : string) : string := attempts_key ip +:+ ":blocked".

(** [str(now)] and [float(s)] for times: seconds with up to six decimals. *)
Fixpoint strip_zeros (s : string) : string :=
  match s with
  | EmptyString => EmptyString
  | String c s' =>
      match strip_zeros s' with
      | EmptyString => if decide (c = "0"%char) then EmptyString else String c EmptyString
      | r => String c r
      end
  end.
Definition float_str (t : Z) : string :=
  str_of_Z (t / 1000000) +:+ "."
  +:+ str_or (strip_zeros (str_drop 1 (str_of_Z (1000000 + t mod 1000000)))) "0".
Definition float_of (s : string) : option Z :=
  match split "."%char s with
  | [a; b] =>
      if (String.length b <=? 6)%nat then
        sec ← py_int a;
        frac ← py_int (str_take 6 (b +:+ "000000"));
        Some (us sec + frac)
      else None
  | _ => None
  end.

(** [_LOGIN_ATTEMPTS_MEM] and the counters of the password form. *)
Record limiter := Limiter {
  lm_login : gmap string (list Z);
  lm_change : gmap string (list Z);
  lm_blocked_until : gmap string Z
}.
Definition no_attempts : limiter := Limiter ∅ ∅ ∅.
Definition with_login (s : limiter) (x : gmap string (list Z)) : limiter :=
  Limiter x (lm_change s) (lm_blocked_until s).

Definition prune_attempts (ts : list Z) (now window : Z) : list Z :=
  List.filter (fun t => now - us window <=? t) ts.

(** [int(x)] of a time in microseconds *)
Definition whole_seconds (t : Z) : Z := Z.quot t 1000000.

(** The in-memory half of [_is_blocked_and_register_failure]. *)
Definition login_blocked_mem (ip : string) (register : bool) (now : Z) (s : limiter)
    : (bool * Z) * limiter :=
  let ts := prune_attempts (default [] (lm_login s !! ip)) now window_s in
  let ts := if register then (ts ++ [now])%list else ts in
  if max_failures <=? Z.of_nat (length ts) then
    ((true, block_s), with_login s (<[ip := [now + us block_s]]> (lm_login s)))
  else
    (match ts with
     | [t] => if (now <? t) && (now + us window_s <? t) then (true, whole_seconds (t - now)) else (false, 0)
     | _ => (false, 0)
     end, with_login s (<[ip := ts]> (lm_login s))).

Section limiter.
Context `{RedisServer} `{Entropy} (cfg : Settings).

(** The Redis half. *)
Definition login_blocked_redis (ip : string) (register : bool) (now : Z) : M (bool * Z) :=
  ttl ← redis (Ttl (blocked_key ip));
  if 0 <? ttl then mret (true, ttl)
  else
    when register
      (redis (Lpush (attempts_key ip) (float_str now));;
       redis (Ltrim (attempts_key ip) 0 (max_failures * 2));;
       redis (Expire (attempts_key ip) (window_s + block_s)));;
    raw ← redis (Lrange (attempts_key ip) 0 (max_failures * 2));
    let ts := prune_attempts (omap float_of raw) now window_s in
    if max_failures <=? Z.of_nat (length ts) then
      redis (SetEx (blocked_key ip) "1" (Some block_s) false);;
      mret (true, block_s)
    else mret (false, 0).

(** [_is_blocked_and_register_failure]: any failure of Redis falls back to the
    memory of the process. *)
Definition is_blocked_and_register_failure (ip : string) (register : bool) (s : limiter)
    : M ((bool * Z) * limiter) :=
  now ← get_now;
  let mem := mret (login_blocked_mem ip register now s) in
  if is_redis cfg
  then try_except ((fun r => (r, s)) <$> login_blocked_redis ip register now) (fun _ => mem)
  else mem.

(** [_clear_failures] *)
Definition clear_failures (ip : string) (s : limiter) : M limiter :=
  let forget := mret (with_login s (delete ip (lm_login s))) in
  if is_redis cfg
  then try_except (redis (Del [attempts_key ip]);; redis (Del [blocked_key ip]);; mret s)
         (fun _ => forget)
  else forget.
End limiter.

(** [_password_change_rate_blocked] *)
Definition password_change_blocked (ip : string) (register clear : bool) (now : Z) (s : limiter)
    : (bool * Z) * limiter :=
  if clear then
    ((false, 0), Limiter (lm_login s) (delete ip (lm_change s)) (delete ip (lm_blocked_until s)))
  else
    let until := default 0 (lm_blocked_until s !! ip) in
    if now <? until then ((true, whole_seconds (until - now)), s)
    else
      let ts := prune_attempts (default [] (lm_change s !! ip)) now 900 in
      let ts := if register then (ts ++ [now])%list else ts in
      let kept := Limiter (lm_login s) (<[ip := ts]> (lm_change s)) (lm_blocked_until s) in
      if register && (12 <=? Z.of_nat (length ts)) then
        ((true, 1800),
         Limiter (lm_login s) (lm_change kept) (<[ip := now + us 1800]> (lm_blocked_until s)))
      else ((false, 0), kept).

(** [urllib.parse.quote]; [safe] are the characters that are kept besides the
    unreserved ones. *)
Definition upper_hex (n : Z) : Ascii.ascii :=
  Ascii.ascii_of_nat (Z.to_nat (if n <? 10 then 48 + n else 55 + n)).
Definition unreserved (c : Ascii.ascii) : bool :=
  let n := Ascii.nat_of_ascii c in
  ((48 <=? n)%nat && (n <=? 57)%nat) || ((65 <=? n)%nat && (n <=? 90)%nat)
  || ((97 <=? n)%nat && (n <=? 122)%nat)
  || bool_decide (c ∈ ["_"%char; "."%char; "-"%char; "~"%char]).
Fixpoint quote (safe : list Ascii.ascii) (s : string) : string :=
  match s with
  | EmptyString => EmptyString
  | String c s' =>
      if unreserved c || bool_decide (c ∈ safe) then String c (quote safe s')
      else
        let n := Z.of_nat (Ascii.nat_of_ascii c) in
        String "%"%char (String (upper_hex (n / 16)) (String (upper_hex (n mod 16)) (quote safe s')))
  end.

(** ** Forms *)

(** A redirect, with the name the session holds from then on, or a page. *)
Inductive answer :=
  | RedirectTo (url : string) (session : option string)
  | Page (error : option string).

Definition too_many (seconds : Z) : string :=
  "Too many login attempts. Try again in " +:+ str_of_Z seconds +:+ "s.".
Definition invalid_login : answer := Page (Some "Invalid username or password").

Section forms.
Context `{RedisServer} `{Entropy} `{Bcrypt} (cfg : Settings).

Record LoginForm := mkLoginForm {
  lf_base : string;
  lf_ip : string;
  lf_username : string;
  lf_password : string;
  lf_next : option string;
  lf_query_next : option string
}.

(** [login_post], with a session. *)
Definition login_post (f : LoginForm) (s : limiter) : M (answer * limiter) :=
  r ← is_blocked_and_register_failure cfg (lf_ip f) false s;
  let '((blocked, retry_after), s) := r : (bool * Z) * limiter in
  if blocked then mret (Page (Some (too_many retry_after)), s)
  else
    let name := strip (lf_username f) in
    let next := strip (str_or (opt_str (lf_next f)) (opt_str (lf_query_next f))) in
    let next_url := normalize_next_url (lf_base f) (Some next) in
    if decide (name = "") then mret (Page (Some "Username required"), s)
    else
      t ← gets (fun w => w_tables w);
      match get_user_by_username t name with
      | Some u =>
          if verify_password (lf_password f) (password_hash u) then
            s ← clear_failures cfg (lf_ip f) s;
            mret (RedirectTo
                    (if must_change_password u
                     then lf_base f +:+ "/auth/change-password?next=" +:+ quote [] next_url
                     else next_url) (Some (username u)), s)
          else
            r ← is_blocked_and_register_failure cfg (lf_ip f) true s;
            mret (invalid_login, r.2)
      | None =>
          r ← is_blocked_and_register_failure cfg (lf_ip f) true s;
          mret (invalid_login, r.2)
      end.

Record PasswordForm := mkPasswordForm {
  pf_base : string;
  pf_ip : string;
  pf_current : string;
  pf_new : string;
  pf_confirm : string;
  pf_next : string
}.

(** [change_password_post] for a user that is logged in. *)
Definition change_password_post (f : PasswordForm) (u : User) (s : limiter) : M (answer * limiter) :=
  now ← get_now;
  let next_url := normalize_next_url (pf_base f) (Some (pf_next f)) in
  let '(blocked, retry_s, s) := password_change_blocked (pf_ip f) false false now s in
  if blocked
  then mret (Page (Some ("Too many attempts. Try again in " +:+ str_of_Z retry_s +:+ " seconds.")), s)
  else if negb (must_change_password u) && negb (verify_password (pf_current f) (password_hash u)) then
    mret (Page (Some "Current password is incorrect"),
          (password_change_blocked (pf_ip f) true false now s).2)
  else if decide (pf_new f = "") then mret (Page (Some "New password is required"), s)
  else if decide (pf_new f <> pf_confirm f)
  then mret (Page (Some "New password and confirmation do not match"), s)
  else
    on_tables (set_password (user_id u) (pf_new f) false);;
    mret (RedirectTo next_url (Some (username u)),
          (password_change_blocked (pf_ip f) false true now s).2).

(** *** Administration of users *)

Record UserForm := mkUserForm {
  uf_base : string;
  uf_username : string;
  uf_password : string;           (* the new password of an update *)
  uf_is_admin : bool;
  uf_must_change : bool
}.

Definition users_page (base : string) : answer := RedirectTo (base +:+ "/auth/users?f=html") None.

Definition create_user_post (f : UserForm) (current_user : option User) : DB answer :=
  require_admin current_user;;
  t ← read_all;
  let name := strip (uf_username f) in
  if decide (name = "") then mret (Page (Some "Username required"))
  else if decide (is_Some (get_user_by_username t name)) then mret (Page (Some "Username already exists"))
  else if decide (uf_password f = "") then mret (Page (Some "Password required"))
  else create_user name (uf_password f) (uf_is_admin f) true;; mret (users_page (uf_base f)).

Definition admin_count (t : tables) : nat := size (filter (fun kv => is_admin kv.2 = true) (tb_users t)).

Definition update_user_post (id : Z) (f : UserForm) (current_user : option User) : DB answer :=
  require_admin current_user;;
  t ← read_all;
  u ← row_or (get_user_by_id t id) 404 "User not found";
  if is_admin u && negb (uf_is_admin f) && (admin_count t <=? 1)%nat
  then mret (Page (Some "Cannot remove the last admin"))
  else
    update_user id (Some (uf_is_admin f)) (Some (uf_must_change f));;
    (let pw := strip (uf_password f) in
     if decide (pw = "") then mret tt else set_password id pw (uf_must_change f);; mret tt);;
    mret (users_page (uf_base f)).

Definition delete_user_post (id : Z) (base : string) (current_user : option User) : DB answer :=
  admin ← require_admin current_user;
  t ← read_all;
  u ← row_or (get_user_by_id t id) 404 "User not found";
  guard_or (negb (is_admin u && negb (bool_decide (user_id admin = id)))) 403
    "Only an admin can delete another admin";;
  guard_or (negb (bool_decide (user_id admin = id))) 400 "Cannot delete your own user";;
  delete_user id;;
  mret (users_page base).
End forms.

(** ** The limiter in memory *)

Definition failures (ip : string) (times : list Z) (s : limiter) : limiter :=
  foldl (fun s now => (login_blocked_mem ip true now s).2) s times.

(** The calls of the limiter for one address: the time, and whether a failure is
    registered. *)
Definition attempts (ip : string) (es : list (bool * Z)) (s : limiter) : limiter :=
  foldl (fun s e => (login_blocked_mem ip e.1 e.2 s).2) s es.

Definition failed_at (es : list (bool * Z)) : list Z := map snd (List.filter fst es).

(** The failures of the minute that ends at [now]. *)
Definition last_minute (now : Z) (es : list (bool * Z)) : list Z :=
  List.filter (fun t => now - 60 * 1000000 <=? t) (failed_at es).

(** The times do not decrease. *)
Definition in_time (es : list (bool * Z)) : Prop := StronglySorted Z.le (map snd es).

(** No eight failures within a minute. *)
Definition calm (es : list (bool * Z)) : Prop := forall pre e post, es = (pre ++ e :: post)%list ->
  (length (last_minute e.2 (pre ++ [e])) < 8)%nat.

Lemma calm_prefix es e : calm (es ++ [e]) -> calm es.
Proof. intros Hc pre x post ->. apply (Hc pre x (post ++ [e])%list). by rewrite <-app_assoc. Qed.

Lemma calm_check es :
  forallb (fun k => match es !! k with
    | Some e => (length (last_minute e.2 (take k es ++ [e])) <? 8)%nat
    | None => true
    end) (seq 0 (length es)) = true -> calm es.
Proof.
  intros Hall pre e post ->. rewrite forallb_forall in Hall. specialize (Hall (length pre)).
  rewrite list_lookup_middle, take_app_length in Hall by done.
  apply Nat.ltb_lt, Hall, in_seq. rewrite length_app. cbn. lia.
Qed.

Ltac in_order :=
  unfold in_time; vm_compute map; repeat (apply SSorted_cons; [|repeat (apply List.Forall_cons; [done|]); apply List.Forall_nil]);
  apply SSorted_nil.

Lemma in_time_snoc es e : in_time (es ++ [e]) ->
  in_time es /\ (forall x, x ∈ es -> x.2 <= e.2) /\ (forall t, t ∈ failed_at (es ++ [e]) -> t <= e.2).
Proof.
  unfold in_time. rewrite map_app. intros Hs. apply StronglySorted_app in Hs as (Hx & Hs & _).
  assert (forall x, x ∈ es -> x.2 <= e.2) as Hle.
  { intros x Hin. apply Hx; [by apply list_elem_of_fmap_2|]. apply list_elem_of_here. }
  split; [done|]. split; [done|]. unfold failed_at. intros t (x & -> & Hin)%list_elem_of_fmap.
  apply list_elem_of_In, filter_In in Hin as [Hin _]. apply list_elem_of_In, elem_of_app in Hin as [Hin|Hin]; [auto|].
  apply list_elem_of_singleton in Hin as ->. lia.
Qed.

Lemma failed_snoc es b t : failed_at (es ++ [(b, t)]) = (failed_at es ++ if b then [t] else [])%list.
Proof. unfold failed_at. rewrite List.filter_app, map_app. by destruct b. Qed.

Lemma filter_all {A} (f : A -> bool) l : (forall x, x ∈ l -> f x = true) -> List.filter f l = l.
Proof.
  induction l as [|x l IH]; intros Hl; [done|]. cbn. rewrite Hl by apply list_elem_of_here.
  f_equal. apply IH. intros y Hy. apply Hl. by apply list_elem_of_further.
Qed.

Lemma prune_prune ts t now : t <= now ->
  prune_attempts (prune_attempts ts t window_s) now window_s = prune_attempts ts now window_s.
Proof.
  intros Ht. unfold prune_attempts. induction ts as [|x ts IH]; [done|]. cbn [List.filter].
  destruct (Z.leb_spec (t - us window_s) x); cbn [List.filter]; rewrite IH; [done|].
  destruct (Z.leb_spec (now - us window_s) x); [lia|done].
Qed.

Lemma prune_minute ts now : prune_attempts ts now window_s = List.filter (fun t => now - 60 * 1000000 <=? t) ts.
Proof. done. Qed.

Lemma prune_app ts ts' now : prune_attempts (ts ++ ts') now window_s
  = (prune_attempts ts now window_s ++ prune_attempts ts' now window_s)%list.
Proof. apply List.filter_app. Qed.

Lemma attempts_snoc ip es e s :
  attempts ip (es ++ [e]) s = (login_blocked_mem ip e.1 e.2 (attempts ip es s)).2.
Proof. unfold attempts. by rewrite foldl_app. Qed.

(** What a call finds of the failures before it. *)
Lemma attempts_found ip es s now :
  lm_login s !! ip = None -> in_time (es ++ [(false, now)]) -> calm es ->
  prune_attempts (default [] (lm_login (attempts ip es s) !! ip)) now window_s = last_minute now es.
Proof.
  intros Hs. revert now. induction es as [|[b t] es IH] using rev_ind; intros now Hin Hc; [cbn; by rewrite Hs|].
  apply in_time_snoc in Hin as (Hin & Hle & _).
  assert (t <= now) as Ht by (apply (Hle (b, t)); set_solver).
  rewrite attempts_snoc. unfold login_blocked_mem. cbn [fst snd].
  pose proof (in_time_snoc _ _ Hin) as (Hin0 & Hle0 & _).
  assert (in_time (es ++ [(false, t)])) as Hin1 by (unfold in_time in *; by rewrite map_app in *).
  rewrite (IH t Hin1) by by eapply calm_prefix.
  set (l := if b then (last_minute t es ++ [t])%list else last_minute t es).
  assert (l = last_minute t (es ++ [(b, t)])) as Hl.
  { unfold l, last_minute. rewrite failed_snoc, List.filter_app. destruct b; [|by rewrite app_nil_r].
    cbn [List.filter]. by rewrite (proj2 (Z.leb_le _ _)) by lia. }
  assert ((max_failures <=? Z.of_nat (length l)) = false) as ->.
  { rewrite Hl. pose proof (Hc es (b, t) [] eq_refl) as Hlt. apply Z.leb_gt. unfold max_failures. cbn in Hlt. lia. }
  cbn [snd with_login lm_login]. rewrite lookup_insert_eq. cbn [default]. rewrite Hl. unfold last_minute.
  rewrite <-!prune_minute. by apply prune_prune.
Qed.

Lemma last_minute_here now es b :
  in_time (es ++ [(b, now)]) -> last_minute now (es ++ [(b, now)]) = (last_minute now es ++ if b then [now] else [])%list.
Proof.
  intros _. unfold last_minute. rewrite failed_snoc, List.filter_app. f_equal. destruct b; [|done].
  cbn. by rewrite (proj2 (Z.leb_le _ _)) by lia.
Qed.

(** C34. Failed logins of one address, as the limiter in the memory of the process
    counts them: whatever checks and failures it has seen since its count was empty, in
    the order of time, as long as no eight failures fell within a minute, a call refuses
    the address exactly when it is the eighth failure of the minute that ends with it -
    older failures do not count, however many they are - and from then on every check is
    refused for four minutes, as long as only checks follow (a refused login registers
    no failure). *)
Theorem eight_failures_block (ip : string) (es : list (bool * Z)) (failure : bool) (now : Z) (s : limiter) :
  lm_login s !! ip = None -> calm es -> in_time (es ++ [(failure, now)]) ->
  let eighth := (8 <=? length (last_minute now (es ++ [(failure, now)])))%nat in
  (login_blocked_mem ip failure now (attempts ip es s)).1 = (if eighth then (true, 300) else (false, 0))
  /\ (eighth = true -> forall later t, in_time ((failure, now) :: later ++ [(false, t)])%list ->
        Forall (fun e => e.1 = false) later -> t < now + us 240 ->
        (login_blocked_mem ip false t (attempts ip (es ++ (failure, now) :: later) s)).1
        = (true, whole_seconds (now + us 300 - t))).
Proof.
  intros Hs Hc Hin eighth.
  assert (in_time (es ++ [(false, now)])) as Hin1 by (unfold in_time in *; by rewrite map_app in *).
  pose proof (attempts_found ip es s now Hs Hin1 Hc) as Hfound.
  assert ((if failure then (last_minute now es ++ [now])%list else last_minute now es)
          = last_minute now (es ++ [(failure, now)])) as Hl.
  { rewrite last_minute_here by done. destruct failure; [done|by rewrite app_nil_r]. }
  assert ((max_failures <=? Z.of_nat (length (last_minute now (es ++ [(failure, now)])))) = eighth) as He.
  { unfold eighth, max_failures. apply eq_true_iff_eq. rewrite Z.leb_le, Nat.leb_le. lia. }
  split.
  - unfold login_blocked_mem. rewrite Hfound, Hl, He. destruct eighth; [done|]. cbn [fst].
    destruct (last_minute now (es ++ [(failure, now)])) as [|t [|t' l]] eqn:Hlm; [done| |done].
    assert (t <= now) as Ht.
    { apply (in_time_snoc _ _ Hin). assert (t ∈ last_minute now (es ++ [(failure, now)])) as Hm by (rewrite Hlm; set_solver).
      unfold last_minute in Hm. by apply list_elem_of_In, filter_In in Hm as [Hm%list_elem_of_In _]. }
    by assert ((now <? t) = false) as -> by lia.
  - intros H8 later t Hlater Hchecks Hsoon. rewrite H8 in He. clear Hin.
    assert (forall t, now <= t -> t < now + us 240 ->
      prune_attempts [now + us block_s] t window_s = [now + us block_s]) as Hmark.
    { intros x Hx Hx'. apply filter_all. intros y ->%list_elem_of_singleton. unfold us, block_s, window_s in *. lia. }
    assert (forall later, in_time ((failure, now) :: later) -> Forall (fun e => e.1 = false) later ->
      (forall e, e ∈ later -> e.2 < now + us 240) ->
      lm_login (attempts ip (es ++ (failure, now) :: later) s) !! ip = Some [now + us block_s]) as Hkeep.
    { clear later Hlater Hchecks. intros later. induction later as [|[b x] later IH] using rev_ind; intros Hl1 Hb Hx.
      - rewrite attempts_snoc. unfold login_blocked_mem. cbn [fst snd]. rewrite Hfound, Hl, He.
        cbn [snd with_login lm_login]. apply lookup_insert_eq.
      - rewrite app_comm_cons, app_assoc, attempts_snoc. apply Forall_app in Hb as [Hb [Hbx _]%Forall_cons]. cbn in Hbx. subst b.
        rewrite app_comm_cons in Hl1. apply in_time_snoc in Hl1 as (Hl1 & Hlx & _).
        assert (now <= x) as Hnx by (apply (Hlx (failure, now)); set_solver).
        assert (x < now + us 240) as Hx' by (apply (Hx (false, x)); set_solver).
        unfold login_blocked_mem. cbn [fst snd]. rewrite IH; [|done|done|intros e Hein; apply Hx; set_solver].
        cbn [default]. rewrite Hmark by done. cbn [length]. change (max_failures <=? Z.of_nat 1) with false.
        cbn [snd with_login lm_login]. apply lookup_insert_eq. }
    rewrite app_comm_cons in Hlater. apply in_time_snoc in Hlater as (Hlater & Hle & _).
    assert (now <= t) as Hnt by (apply (Hle (failure, now)); set_solver).
    unfold login_blocked_mem. rewrite Hkeep; [|done|done|].
    + cbn [default]. rewrite Hmark by done. cbn [length]. change (max_failures <=? Z.of_nat 1) with false. cbn [fst].
      unfold us, block_s, window_s in *. assert ((t <? now + 300 * 1000000) = true) as -> by lia.
      by assert ((t + 60 * 1000000 <? now + 300 * 1000000) = true) as -> by lia.
    + intros e Hein. assert (e.2 <= t) by (apply Hle; set_solver). lia.
Qed.

Lemma eight_failures_block_witness :
  let es := map (fun k => (true, us k)) [0; 1; 2; 50; 51; 52; 53; 70; 71] in
  (login_blocked_mem "10.0.0.1" true (us 72) (attempts "10.0.0.1" es no_attempts)).1 = (false, 0)
  /\ (login_blocked_mem "10.0.0.1" true (us 73) (attempts "10.0.0.1" (es ++ [(true, us 72)]) no_attempts)).1
     = (true, 300)
  /\ (login_blocked_mem "10.0.0.1" false (us 75)
        (attempts "10.0.0.1" ((es ++ [(true, us 72)]) ++ (true, us 73) :: [(false, us 74)]) no_attempts)).1
     = (true, 298).
Proof.
  intros es.
  assert (calm es /\ calm (es ++ [(true, us 72)])) as [Hc Hc'] by (split; by apply calm_check).
  assert (in_time (es ++ [(true, us 72)]) /\ in_time ((es ++ [(true, us 72)]) ++ [(true, us 73)])) as [Ht Ht']
    by (split; in_order).
  split; [by rewrite (proj1 (eight_failures_block "10.0.0.1" es true (us 72) no_attempts eq_refl Hc Ht))|].
  pose proof (eight_failures_block "10.0.0.1" (es ++ [(true, us 72)]) true (us 73) no_attempts eq_refl Hc' Ht')
    as [Hnow Hlater].
  split; [by rewrite Hnow|]. rewrite (Hlater eq_refl [(false, us 74)] (us 75)); [done| | |done].
  - in_order.
  - by repeat constructor.
Defined.

(** The limiter announces 300 seconds and lets the address in after 240. *)
Theorem block_ends_early :
  let s := failures "10.0.0.1" (map us [0; 1; 2; 3; 4; 5; 6; 7]) no_attempts in
  (login_blocked_mem "10.0.0.1" true (us 7) (failures "10.0.0.1" (map us [0; 1; 2; 3; 4; 5; 6]) no_attempts)).1
    = (true, 300)
  /\ (login_blocked_mem "10.0.0.1" false (us 247) s).1 = (false, 0).
Proof. by vm_compute. Qed.

(** A prefix of the address is taken for the origin: the login redirects to another
    host. *)
Theorem redirect_leaves_origin :
  normalize_next_url "https://geo.example" (Some "https://geo.example.evil.net/")
  = "https://geo.example.evil.net/".
Proof. by vm_compute. Qed.

(** Nobody deletes an administrator, not even another one. *)
Theorem admin_cannot_delete_admin (id : Z) (u a : User) (base : string) (t : tables) :
  tb_users t !! id = Some u -> is_admin u = true ->
  exists e, delete_user_post id base (Some a) t = (inl e, t).
Proof.
  intros Hu Ha. unfold delete_user_post, require_admin, get_current_user_required, get_user_by_id.
  rewrite db_bind_assoc, row_or_run. destruct (is_admin a); [|by eexists].
  rewrite db_ret_run, read_all_run, row_or_run, Hu, guard_or_run, Ha.
  case_bool_decide as Hs; cbn [negb andb]; [|by eexists]. rewrite guard_or_run. by eexists.
Qed.
