(* ===== verification/UserPages.v ===== *)
(** * The pages of a user's resources
    (app/api/routes/auth.py, app/utils/nickname.py)

    A user, and the administrator for any user, sees what the user owns with its
    sizes, removes editors, drops the static tiles of a collection or deletes it.
    The size of a table and the list of the partitions' bounds are answers of the
    catalogue: arguments. *)

From S2P Require Import Prelude PyTime Redis Postgres World Database Session Permissions Shares.
From S2P Require Import Styles Collections Accounts.

(** ** app/utils/nickname.py *)

Definition NICKNAME_MAX_LEN : Z := 128.
Definition alnum (c : Ascii.ascii) : bool :=
  let n := Ascii.nat_of_ascii c in
  ((48 <=? n)%nat && (n <=? 57)%nat) || ((65 <=? n)%nat && (n <=? 90)%nat)
  || ((97 <=? n)%nat && (n <=? 122)%nat).

Definition normalize_nickname (value : option string) : option string :=
  match value with
  | None => None
  | Some v => if decide (strip v = "") then None else Some (strip v)
  end.

(** The en dashes of the second message are three bytes each. *)
Definition en_dash : string := String "226"%char (String "128"%char (String "147"%char "")).
Definition validate_nickname (value : option string) : res (option string) :=
  match normalize_nickname value with
  | None => inr None
  | Some nick =>
      if NICKNAME_MAX_LEN <? Z.of_nat (String.length nick)
      then inl (ValueError "Nickname must be at most 128 characters.")
      else if all_chars alnum nick then inr (Some nick)
      else inl (ValueError ("Nickname may only contain letters and numbers (A" +:+ en_dash +:+ "Z, a"
                  +:+ en_dash +:+ "z, 0" +:+ en_dash +:+ "9)."))
  end.

(** ** Sizes *)

(** [f"{v:.2f}"] of the fraction [num / den]: rounded to even. *)
Definition fixed2 (num den : Z) : string :=
  let q := 100 * num / den in
  let r := 100 * num mod den in
  let q := if (den <? 2 * r) || ((2 * r =? den) && Z.odd q) then q + 1 else q in
  str_of_Z (q / 100) +:+ "." +:+ str_drop 1 (str_of_Z (100 + q mod 100)).

Fixpoint format_units (den n : Z) (units : list string) : string :=
  match units with
  | [] => ""
  | [unit_] => fixed2 n den +:+ " " +:+ unit_
  | unit_ :: units' =>
      if 1024 * den <=? n then format_units (1024 * den) n units'
      else if den =? 1 then str_of_Z n +:+ " " +:+ unit_
      else fixed2 n den +:+ " " +:+ unit_
  end.

(** [_format_bytes]; sizes are below 2^53, where the division is exact. *)
Definition format_bytes (n : Z) : string :=
  if n <=? 0 then "0 B" else format_units 1 n ["B"; "KB"; "MB"; "GB"; "TB"; "PB"].

(** ** Partitions by their bounds *)

(** [b.split("IN", 1)] *)
Fixpoint after_in (s : string) : option string :=
  if startswith "IN" s then Some (str_drop 2 s)
  else match s with EmptyString => None | String _ s' => after_in s' end.
Fixpoint drop_last (s : string) : string :=
  match s with
  | EmptyString => EmptyString
  | String c EmptyString => EmptyString
  | String c s' => String c (drop_last s')
  end.
Fixpoint endswith (suffix s : string) : bool :=
  if decide (s = suffix) then true
  else match s with EmptyString => false | String _ s' => endswith suffix s' end.
Definition between (a b s : string) : bool := startswith a s && endswith b s.
Definition inner (s : string) : string := drop_last (str_drop 1 s).
Fixpoint unquote (s : string) : string :=
  match s with
  | String "'" (String "'" s') => String "'" (unquote s')
  | String c s' => String c (unquote s')
  | EmptyString => EmptyString
  end.

Definition bound_collection (bound : string) : option string :=
  if contains "FOR VALUES IN" bound then
    let inside := strip (opt_str (after_in bound)) in
    let inside := if between "(" ")" inside then strip (inner inside) else inside in
    if between "'" "'" inside then Some (unquote (inner inside)) else None
  else None.

(** [_features_partition_name_map]; the last partition with a bound wins. *)
Definition features_partition_name_map (rows : list (string * string)) : gmap string string :=
  fold_left (fun out row =>
    match bound_collection row.2 with Some c => <[c := row.1]> out | None => out end) rows ∅.

(** ** What a user owns *)

Section pages.
Context `{Collation} (partitions : list (string * string)) (table_size : string -> Z).

Definition file_size_bytes (w : world) (path : option string) : Z :=
  match path with
  | Some p => if decide (p = "") then 0
              else match w_files w !! p with Some c => Z.of_nat (String.length c) | None => 0 end
  | None => 0
  end.

Definition admin_usernames (t : tables) : list string :=
  List.filter (fun n => negb (bool_decide (n = "")))
    (map username (List.filter is_admin (map_to_list (tb_users t)).*2)).

(** The editors a page names: sorted, without administrators. *)
Definition editors (t : tables) (rtype rid : string) : list string :=
  sort_by String.leb (fun u => u) false
    (map fst (List.filter
      (fun s => bool_decide (s.2 = ROLE_EDITOR) && negb (bool_decide (s.1 = ""))
                && negb (bool_decide (s.1 ∈ admin_usernames t)))
      (list_shares rtype rid t))).

Record collection_usage := mkUsage {
  us_id : string;
  us_title : option string;
  us_feature_count : Z;
  us_db_size : Z;
  us_tiles_size : Z;
  us_visibility : string;
  us_viewer_can_edit : bool;
  us_editors : list string
}.
Record map_usage := mkMapUsage {
  mp_id : string;
  mp_title : string;
  mp_text : option string;
  mp_visible : string;
  mp_viewers_edit : bool;
  mp_editors : list string
}.
Record user_usage := mkUserUsage {
  uu_collections : list collection_usage;
  uu_maps : list map_usage;
  uu_total_features : Z;
  uu_total_styles : nat;
  uu_total_db_size : string;
  uu_total_tiles_size : string
}.

Definition owned_collections (owner : Z) (t : tables) : list Collection :=
  order_by (fun c => Some (c_id c)) false
    (List.filter (fun c => bool_decide (c_owner_id c = Some owner)) (map_to_list (tb_collections t)).*2).
Definition owned_maps (owner : Z) (t : tables) : list Map :=
  order_by_time m_updated_at true
    (List.filter (fun m => bool_decide (m_owner_id m = Some owner)) (map_to_list (tb_maps t)).*2).

Definition sum_by {A} (f : A -> Z) (l : list A) : Z := fold_right (fun x acc => f x + acc) 0 l.

(** [usage_for_owner], and the rows of [user_config_page]. *)
Definition usage_for_owner (owner : Z) (w : world) : user_usage :=
  let t := w_tables w in
  let owned := owned_collections owner t in
  let usage c :=
    mkUsage (c_id c) (c_title c)
      (match db_collections (w_db w) !! c_id c with Some r => feature_count r | None => 0 end)
      (match features_partition_name_map partitions !! c_id c with Some p => table_size p | None => 0 end)
      (file_size_bytes w (mjoin (tb_tiles t !! c_id c)))
      (str_or (c_visibility c) "private") (c_viewer_can_edit c)
      (editors t RESOURCE_TYPE_COLLECTION (c_id c)) in
  let rows := map usage owned in
  mkUserUsage rows
    (map (fun m => mkMapUsage (m_id m) (m_name m) (m_description m) (str_or (m_visibility m) "private")
                     (m_viewer_can_edit m) (editors t RESOURCE_TYPE_MAP (m_id m)))
       (owned_maps owner t))
    (sum_by us_feature_count rows)
    (length (List.filter (fun s => bool_decide (st_collection_id s ∈ map c_id owned))
               (map_to_list (tb_styles t)).*2))
    (format_bytes (sum_by us_db_size rows)) (format_bytes (sum_by us_tiles_size rows)).

Definition user_config_page (user : option User) : M user_usage :=
  u ← on_tables (get_current_user_required user);
  gets (usage_for_owner (user_id u)).
Definition list_users_html (user : option User) : M (list (User * user_usage)) :=
  on_tables (require_admin user);;
  gets (fun w =>
    map (fun u => (u, usage_for_owner (user_id u) w))
      (order_by (fun u => Some (username u)) false (map_to_list (tb_users (w_tables w))).*2)).
End pages.

(** ** Forms *)

Definition delete_collection_tiles (c : string) : M unit :=
  t ← all_tables;
  (match mjoin (tb_tiles t !! c) with
   | Some path => when (negb (bool_decide (path = ""))) (unlink path)
   | None => mret tt
   end);;
  set_tables (clear_static_tiles c).

Section forms.
Context `{RedisServer} `{PostgresServer} `{Entropy} (cfg : Settings).
Context (drop_indexes : string -> list string -> M unit).

Definition config_page (base : string) : answer := RedirectTo (base +:+ "/auth/config?f=html") None.

Definition nickname_page (base query : string) : answer :=
  RedirectTo (base +:+ "/auth/config?f=html&" +:+ query) None.
Definition nickname_taken (base : string) : answer :=
  nickname_page base ("nickname_error=" +:+ quote ["/"%char] "Nickname is already taken.").

(** [user_config_set_nickname] *)
Definition user_config_set_nickname (base : string) (raw : option string) (user : option User) : DB answer :=
  u ← get_current_user_required user;
  match validate_nickname raw with
  | inl e => mret (nickname_page base ("nickname_error=" +:+ quote ["/"%char] (exn_str e)))
  | inr nick =>
      t ← read_all;
      if decide (is_Some (nick ≫= fun n => get_user_by_nickname t n (user_id u)))
      then mret (nickname_taken base)
      else fun t =>
        match set_nickname (user_id u) nick t with
        | (inl (IntegrityError _), t') => (inr (nickname_taken base), t')
        | (inl e, t') => (inl e, t')
        | (inr _, t') => (inr (nickname_page base "nickname_ok=1"), t')
        end
  end.

(** [UUID(s)], as its canonical text; what [int(hex, 16)] accepts besides digits is
    left out. *)
Fixpoint remove_all (fuel : nat) (sub s : string) : string :=
  match fuel with
  | O => s
  | S n =>
      if startswith sub s && negb (bool_decide (sub = ""))
      then remove_all n sub (str_drop (String.length sub) s)
      else match s with EmptyString => EmptyString | String c s' => String c (remove_all n sub s') end
  end.
Fixpoint lstrip_braces (s : string) : string :=
  match s with
  | String c s' => if decide (c ∈ ["{"%char; "}"%char]) then lstrip_braces s' else s
  | EmptyString => EmptyString
  end.
Fixpoint rstrip_braces (s : string) : string :=
  match s with
  | EmptyString => EmptyString
  | String c s' =>
      match rstrip_braces s' with
      | EmptyString => if decide (c ∈ ["{"%char; "}"%char]) then EmptyString else String c EmptyString
      | r => String c r
      end
  end.
Definition parse_uuid (s : string) : option string :=
  let without sub s := remove_all (S (String.length s)) sub s in
  let h := without "-" (rstrip_braces (lstrip_braces (without "uuid:" (without "urn:" s)))) in
  if (String.length h =? 32)%nat && all_chars is_hex h then
    let h := lower h in
    let part n k := str_take k (str_drop n h) in
    Some (join "-" [part 0 8; part 8 4; part 12 4; part 16 4; part 20 12]%nat)
  else None.

(** The name of a form, and whether it may be removed by these pages: not an empty
    one, nor an administrator's. *)
Definition removable (t : tables) (name : string) : bool :=
  negb (bool_decide (name = ""))
  && match get_user_by_username t name with Some u => negb (is_admin u) | None => true end.

Definition user_config_remove_collection_editor (base c name : string) (user : option User) : DB answer :=
  u ← get_current_user_required user;
  t ← read_all;
  if removable t (strip name) then
    editable_collection c (Some u);;
    remove_share RESOURCE_TYPE_COLLECTION c (strip name);;
    mret (config_page base)
  else mret (config_page base).

Definition user_config_remove_map_editor (base m name : string) (user : option User) : DB answer :=
  u ← get_current_user_required user;
  t ← read_all;
  if removable t (strip name) then
    mid ← row_or (parse_uuid m) 400 "Invalid map id";
    row ← row_or (tb_maps t !! mid) 404 "Map not found";
    guard_or (is_admin u || bool_decide (m_owner_id row = Some (user_id u))) 403 "Permission denied";;
    remove_share RESOURCE_TYPE_MAP m (strip name);;
    mret (config_page base)
  else mret (config_page base).

Fixpoint each {A} (f : A -> M unit) (l : list A) : M unit :=
  match l with [] => mret tt | x :: l' => f x;; each f l' end.

Definition owned_ids (owner : Z) (t : tables) : list string :=
  map c_id (List.filter (fun c => bool_decide (c_owner_id c = Some owner))
              (map_to_list (tb_collections t)).*2).

Definition user_config_reset_tiles (base : string) (user : option User) : M answer :=
  u ← on_tables (get_current_user_required user);
  t ← all_tables;
  each delete_collection_tiles (owned_ids (user_id u) t);;
  mret (config_page base).

Definition user_config_delete_tiles (base c : string) (user : option User) : M answer :=
  on_tables (u ← get_current_user_required user; editable_collection c (Some u));;
  delete_collection_tiles c;;
  mret (config_page base).

Definition user_config_delete_collection (base c : string) (user : option User) : M answer :=
  on_tables (u ← get_current_user_required user; editable_collection c (Some u));;
  delete_collection_row cfg drop_indexes c;;
  mret (config_page base).

(** *** The administrator's forms, for the user [id] *)

Definition owned_by (id : Z) (c : string) : DB Collection :=
  t ← read_all;
  coll ← row_or (tb_collections t !! c) 404 "Collection not found";
  guard_or (bool_decide (c_owner_id coll = Some id)) 404 "Collection not found";;
  mret coll.

Definition admin_user_reset_tiles (base : string) (id : Z) (user : option User) : M answer :=
  on_tables (require_admin user);;
  t ← all_tables;
  each delete_collection_tiles (owned_ids id t);;
  mret (users_page base).

Definition admin_user_delete_tiles (base : string) (id : Z) (c : string) (user : option User) : M answer :=
  on_tables (require_admin user;; owned_by id c);;
  delete_collection_tiles c;;
  mret (users_page base).

Definition admin_user_delete_collection (base : string) (id : Z) (c : string) (user : option User) : M answer :=
  on_tables (require_admin user;; owned_by id c);;
  delete_collection_row cfg drop_indexes c;;
  mret (users_page base).

Definition admin_user_remove_collection_editor (base : string) (id : Z) (c name : string)
    (user : option User) : DB answer :=
  require_admin user;;
  t ← read_all;
  if removable t (strip name) then
    owned_by id c;;
    remove_share RESOURCE_TYPE_COLLECTION c (strip name);;
    mret (users_page base)
  else mret (users_page base).

Definition admin_user_remove_map_editor (base : string) (id : Z) (m name : string)
    (user : option User) : DB answer :=
  require_admin user;;
  t ← read_all;
  if removable t (strip name) then
    mid ← row_or (parse_uuid m) 400 "Invalid map id";
    row ← row_or (tb_maps t !! mid) 404 "Map not found";
    guard_or (bool_decide (m_owner_id row = Some id)) 404 "Map not found";;
    remove_share RESOURCE_TYPE_MAP m (strip name);;
    mret (users_page base)
  else mret (users_page base).
End forms.
