(* ===== verification/Access.v ===== *)
(** * The API as a whole: who can change what

    [request] lists the modelled requests that write the API's tables, [handle]
    is their endpoint.  [tables_kept]: computations that leave the tables alone,
    which is what the calls of the endpoints to Redis and to the features
    amount to.  The main result is about sequences of requests: nobody gains a
    right on a collection through requests of callers who have none. *)

From S2P Require Import Prelude PyTime Redis Postgres World Database Json Mutex JobStore.
From S2P Require Import SideQueues Partitions Session Permissions Shares Styles Collections Maps.
From S2P Require Import MapPublishing Accounts UserPages.

(** ** Computations that leave the tables alone *)

Definition tables_kept {A} (m : M A) : Prop := forall w, w_tables (m w).2 = w_tables w.

Create HintDb kept discriminated.

Section kept.
Context `{RedisServer} `{PostgresServer} `{Entropy} (cfg : Settings).

Lemma kept_ret {A} (a : A) : tables_kept (mret a).
Proof. done. Qed.
Lemma kept_raise {A} e : tables_kept (raise e : M A).
Proof. done. Qed.
Lemma kept_lift {A} (r : res A) : tables_kept (lift r).
Proof. done. Qed.
Lemma kept_gets {A} (f : world -> A) : tables_kept (gets f).
Proof. done. Qed.
Lemma kept_now : tables_kept get_now.
Proof. done. Qed.
Lemma kept_uuid4 : tables_kept uuid4.
Proof. done. Qed.
Lemma kept_bind {A B} (m : M A) (f : A -> M B) :
  tables_kept m -> (forall a, tables_kept (f a)) -> tables_kept (m ≫= f).
Proof.
  intros Hm Hf w. rewrite bind_run. specialize (Hm w).
  destruct (m w) as [[e|a] w']; cbn [snd] in Hm; [done|]. by rewrite Hf.
Qed.
Lemma kept_fmap {A B} (f : A -> B) (m : M A) : tables_kept m -> tables_kept (f <$> m).
Proof. intros Hm. by apply kept_bind. Qed.
Lemma kept_try {A} (m : M A) h :
  tables_kept m -> (forall e, tables_kept (h e)) -> tables_kept (try_except m h).
Proof.
  intros Hm Hh w. unfold try_except. specialize (Hm w).
  destruct (m w) as [[e|a] w']; cbn [snd] in Hm; [by rewrite Hh|done].
Qed.
Lemma kept_try_pass m : tables_kept m -> tables_kept (try_pass m).
Proof. intros Hm. by apply kept_try. Qed.
Lemma kept_when b m : tables_kept m -> tables_kept (when b m).
Proof. by destruct b. Qed.
Lemma kept_if {A} (b : bool) (m1 m2 : M A) :
  tables_kept m1 -> tables_kept m2 -> tables_kept (if b then m1 else m2).
Proof. by destruct b. Qed.
Lemma kept_mem_jobs f : tables_kept (modify (fun w => with_mem_jobs w (f w))).
Proof. done. Qed.
Lemma kept_redis {A} (c : cmd A) : tables_kept (redis c).
Proof.
  intros w. unfold redis, next_tick. destruct (w_sched w) as [|t ts].
  - by destruct (exec c _ _) as [[] ks].
  - destruct (tk_fault t); [| |]; try done; by destruct (exec c _ _) as [[] ks].
Qed.
Lemma kept_retry {A} (fn : M A) n : tables_kept fn -> tables_kept (run_redis_retry cfg fn n).
Proof.
  intros Hf. unfold run_redis_retry. generalize (Z.to_nat (retry_limit cfg n - 1)).
  generalize (retry_base cfg) (retry_max_backoff cfg). intros b m fuel. generalize 1.
  induction fuel as [|fuel IH]; intros k; simpl; apply kept_try; try done.
  intros e. by apply kept_bind.
Qed.
Lemma kept_transaction {A} (t : TX A) : tables_kept (transaction t).
Proof.
  intros w. unfold transaction, next_db_tick. destruct (s_db_sched (w_services w)) as [|[env fate] ts].
  - by destruct (t _) as [[] db].
  - cbn [dt_fate]. destruct fate; try done; by destruct (t _) as [[] db].
Qed.
Lemma kept_lock_retry {A} fuel k deadline pause timeout (body : M A) :
  tables_kept body -> tables_kept (lock_retry fuel k deadline pause timeout body).
Proof.
  intros Hb. revert k.
  assert (tables_kept (Some <$> body)) as Hb' by by apply kept_fmap.
  induction fuel as [|fuel IH]; intros k; cbn [lock_retry]; apply kept_try; try done; intros e;
    apply kept_if; try done; (apply kept_bind; [done|]); intros now; apply kept_if; try done.
  by apply kept_bind.
Qed.
Lemma kept_until_locked {A} wait pause timeout (body : M A) :
  tables_kept body -> tables_kept (until_locked wait pause timeout body).
Proof.
  intros Hb. unfold until_locked. apply kept_bind; [done|]. intros now.
  apply kept_bind; [by apply kept_lock_retry|]. by intros [a|].
Qed.
End kept.

#[export] Hint Resolve kept_ret kept_raise kept_lift kept_gets kept_now kept_uuid4 kept_bind kept_fmap
  kept_try kept_try_pass kept_when kept_if kept_mem_jobs kept_redis kept_retry kept_transaction
  kept_until_locked : kept.

(** Structural part of a proof of [tables_kept]. *)
Ltac kept :=
  repeat (intros || lazymatch goal with
          | |- tables_kept (match ?x with _ => _ end) => destruct x
          | |- tables_kept _ => first [solve [auto with kept] | apply kept_bind | apply kept_try
                                      | apply kept_fmap | apply kept_retry | apply kept_when | apply kept_try_pass]
          end).

Section kept_calls.
Context `{RedisServer} `{PostgresServer} `{Entropy} (cfg : Settings).

Lemma kept_release c id : tables_kept (release_bulk_mutex_for_job cfg c id).
Proof. unfold release_bulk_mutex_for_job, release_collection_bulk_mutex, release_run. kept. Qed.
Lemma kept_on_terminal id c s : tables_kept (release_bulk_mutex_on_terminal cfg id c s).
Proof. unfold release_bulk_mutex_on_terminal. pose proof kept_release. kept. Qed.
Lemma kept_create_job c o l : tables_kept (create_job cfg c o l).
Proof. unfold create_job, create_job_redis, create_job_memory, write_job. kept. Qed.
Lemma kept_update_job id u : tables_kept (update_job cfg id u).
Proof.
  unfold update_job, update_job_redis, update_job_memory, get_job_redis, get_job_memory.
  pose proof kept_on_terminal. kept.
Qed.
Lemma kept_drop_features c : tables_kept (drop_collection_features_data_sync cfg c).
Proof. unfold drop_collection_features_data_sync. kept. Qed.
Lemma kept_ensure_partition c : tables_kept (ensure_features_partition c).
Proof. unfold ensure_features_partition. kept. Qed.
Lemma kept_schedule run c old new comp :
  (forall p, tables_kept (run p)) -> tables_kept (schedule_index_job cfg run c old new comp).
Proof.
  intros Hr. unfold schedule_index_job, PropertyIndex.schedule_property_index_job.
  pose proof kept_create_job. pose proof kept_update_job.
  unfold PropertyIndex.enqueue_property_index_job, PropertyIndex.property_index_queue_depth. kept.
Qed.
End kept_calls.

(** ** Requests *)

Inductive request :=
  | CreateCollection (d : CollectionCreate)
  | ReplaceCollection (c : string) (d : CollectionCreate)
  | PatchCollection (c : string) (p : CollectionPatch)
  | DeleteCollection (c : string)
  | ShareCollection (c name role : string)
  | UnshareCollection (c name : string)
  | ShareMap (m name role : string)
  | UnshareMap (m name : string)
  | ShareView (v name role : string)
  | UnshareView (v name : string)
  | OnStyles (r : style_request)
  | CreateUser (f : UserForm)
  | UpdateUser (id : Z) (f : UserForm)
  | DeleteUser (id : Z)
  | ChangePassword (f : PasswordForm) (s : limiter)
  | CreateMap (d : MapCreate)
  | SaveMap (patch : bool) (base id : string) (d : MapUpdate)
  | UploadThumbnail (id content_type data : string)
  | DeleteMap (id : string)
  | SetNickname (base : string) (raw : option string)
  | RemoveEditor (base c name : string)
  | RemoveMapEditor (base m name : string)
  | ResetTiles (base : string)
  | DeleteTiles (base c : string)
  | DeleteOwned (base c : string)
  | AdminResetTiles (base : string) (id : Z)
  | AdminDeleteTiles (base : string) (id : Z) (c : string)
  | AdminDeleteCollection (base : string) (id : Z) (c : string)
  | AdminRemoveEditor (base : string) (id : Z) (c name : string)
  | AdminRemoveMapEditor (base : string) (id : Z) (m name : string).

Section api.
Context `{RedisServer} `{PostgresServer} `{Entropy} `{Bcrypt} (cfg : Settings).
Context (normalize_raster : json -> exn + json).
Context (run_inline : PropertyIndex.PropertyIndexPayload -> M unit).
Context (drop_indexes : string -> list string -> M unit) (invalidate_tiles_cache : string -> M unit).
Context (image_to_thumbnail : string -> string -> res string).

Definition forget_m {A} (m : M A) : M unit := m;; mret tt.

Definition handle (r : request) (user : option User) : M unit :=
  match r with
  | CreateCollection d => forget_m (create_collection cfg run_inline d user)
  | ReplaceCollection c d => forget_m (replace_collection cfg run_inline drop_indexes c d user)
  | PatchCollection c p =>
      forget_m (patch_collection cfg run_inline drop_indexes invalidate_tiles_cache c p user)
  | DeleteCollection c => delete_collection cfg drop_indexes c user
  | ShareCollection c name role => on_tables (forget (add_collection_share c name role user))
  | UnshareCollection c name => on_tables (remove_collection_share c name user)
  | ShareMap m name role => on_tables (forget (add_map_share m name role user))
  | UnshareMap m name => on_tables (remove_map_share m name user)
  | ShareView v name role => on_tables (forget (add_raster_view_share v name role user))
  | UnshareView v name => on_tables (remove_raster_view_share v name user)
  | OnStyles r => on_tables (handle_style normalize_raster r user)
  | CreateUser f => on_tables (forget (create_user_post f user))
  | UpdateUser id f => on_tables (forget (update_user_post id f user))
  | DeleteUser id => on_tables (forget (delete_user_post id "" user))
  | ChangePassword f s =>
      match user with
      | Some u => forget_m (change_password_post f u s)
      | None => raise (HTTPException 401 (JStr "Authentication required"))
      end
  | CreateMap d => forget_m (create_map d user)
  | SaveMap patch base id d => forget_m (save_map patch base id d user)
  | UploadThumbnail id ty data => upload_map_thumbnail image_to_thumbnail id ty data user
  | DeleteMap id => on_tables (delete_map id user)
  | SetNickname base raw => on_tables (forget (user_config_set_nickname base raw user))
  | RemoveEditor base c name => on_tables (forget (user_config_remove_collection_editor base c name user))
  | RemoveMapEditor base m name => on_tables (forget (user_config_remove_map_editor base m name user))
  | ResetTiles base => forget_m (user_config_reset_tiles base user)
  | DeleteTiles base c => forget_m (user_config_delete_tiles base c user)
  | DeleteOwned base c => forget_m (user_config_delete_collection cfg drop_indexes base c user)
  | AdminResetTiles base id => forget_m (admin_user_reset_tiles base id user)
  | AdminDeleteTiles base id c => forget_m (admin_user_delete_tiles base id c user)
  | AdminDeleteCollection base id c =>
      forget_m (admin_user_delete_collection cfg drop_indexes base id c user)
  | AdminRemoveEditor base id c name =>
      on_tables (forget (admin_user_remove_collection_editor base id c name user))
  | AdminRemoveMapEditor base id m name =>
      on_tables (forget (admin_user_remove_map_editor base id m name user))
  end.
End api.

(** ** What a request leaves of a collection *)

(** What the rights of a user depend on. *)
Definition account (u : User) : Z * string * bool := (user_id u, username u, is_admin u).

(** The row of the collection [c] and its shares, and the accounts. *)
Definition collection_same (c : string) (t t' : tables) : Prop :=
  tb_collections t' !! c = tb_collections t !! c
  /\ (forall n, tb_shares t' !! (RESOURCE_TYPE_COLLECTION, c, n)
               = tb_shares t !! (RESOURCE_TYPE_COLLECTION, c, n))
  /\ forall id, account <$> tb_users t' !! id = account <$> tb_users t !! id.

#[export] Instance collection_same_preorder c : PreOrder (collection_same c).
Proof.
  split; [done|]. intros t1 t2 t3 (H1 & H2 & H3) (H4 & H5 & H6). split_and!; [by rewrite H4|..].
  - intros n. by rewrite H5.
  - intros id. by rewrite H6.
Qed.

(** A relation on the tables that every piece of a request on a collection in [P]
    respects. *)
Class Frame (R : tables -> tables -> Prop) (P : string -> Prop) : Prop := {
  frame_preorder :: PreOrder R;
  frame_put c row t : P c -> R t (put_collection c row t);
  frame_drop c t : P c -> R t (drop_collection_row c t);
  frame_styles c t : P c -> R t (Crud.delete_collection_styles c t).2;
  frame_tiles c t : R t (clear_static_tiles c t);
  frame_maps x t : R t (with_maps t x);
  frame_unshare rtype rid name t :
    (rtype = RESOURCE_TYPE_COLLECTION -> P rid) -> R t (drop_share rtype rid name t);
  frame_user id u u' t : tb_users t !! id = Some u -> account u' = account u -> R t (put_user id u' t)
}.

Definition stable (R : tables -> tables -> Prop) {A} (m : M A) : Prop :=
  forall w, R (w_tables w) (w_tables (m w).2).

Section stable.
Context (R : tables -> tables -> Prop) `{!PreOrder R}.

Lemma stable_kept {A} (m : M A) : tables_kept m -> stable R m.
Proof. intros Hm w. by rewrite Hm. Qed.
Lemma stable_bind {A B} (m : M A) (f : A -> M B) :
  stable R m -> (forall a, stable R (f a)) -> stable R (m ≫= f).
Proof.
  intros Hm Hf w. rewrite bind_run. specialize (Hm w).
  destruct (m w) as [[e|a] w']; cbn [snd] in Hm; [done|]. etrans; [done|]. apply Hf.
Qed.
Lemma stable_on_tables {A} (m : DB A) : (forall t, R t (m t).2) -> stable R (on_tables m).
Proof. intros Hm w. rewrite on_tables_run. apply Hm. Qed.
Lemma stable_set_tables f : (forall t, R t (f t)) -> stable R (set_tables f).
Proof. intros Hf w. apply Hf. Qed.
End stable.

Lemma same_put_collection c c' row t : c' <> c -> collection_same c t (put_collection c' row t).
Proof. intros Hc. split_and!; [|done..]. by apply lookup_insert_ne. Qed.
Lemma same_drop_collection c c' t : c' <> c -> collection_same c t (drop_collection_row c' t).
Proof. intros Hc. split_and!; [|done..]. by apply lookup_delete_ne. Qed.
Lemma same_put_share c rtype rid name role t :
  (rtype, rid) <> (RESOURCE_TYPE_COLLECTION, c) -> collection_same c t (put_share rtype rid name role t).
Proof. intros Hk. split_and!; [done| |done]. intros n. apply lookup_insert_ne. congruence. Qed.
Lemma same_drop_share c rtype rid name t :
  (rtype, rid) <> (RESOURCE_TYPE_COLLECTION, c) -> collection_same c t (drop_share rtype rid name t).
Proof. intros Hk. split_and!; [done| |done]. intros n. apply lookup_delete_ne. congruence. Qed.
#[export] Instance collection_same_frame c : Frame (collection_same c) (fun c' => c' <> c).
Proof.
  split; [apply _|..]; intros; try done;
    [by apply same_put_collection|by apply same_drop_collection| |].
  { apply same_drop_share. intros [= -> ->]. by apply H. }
  split_and!; try done. intros id'. cbn [put_user with_users tb_users].
  destruct (decide (id' = id)) as [->|Hn]; [rewrite lookup_insert_eq|by rewrite lookup_insert_ne].
  rewrite H. cbn. by rewrite H0.
Qed.
Lemma same_style_effect c user t t' : style_effect user t t' -> collection_same c t t'.
Proof.
  intros []; try done; [apply same_put_share|apply same_drop_share]; intros Hk; by injection Hk.
Qed.

(** *** One request *)

(** A share request on another resource, or on this one without the right. *)
Lemma same_add_share c rtype rid name role t :
  (rtype, rid) <> (RESOURCE_TYPE_COLLECTION, c) ->
  collection_same c t (add_share_reply rtype rid name role t).2.
Proof.
  intros Hk. unfold add_share_reply, add_share. rewrite db_bind_assoc, read_all_run.
  destruct (get_user_by_username t (strip name)); [by apply same_put_share|done].
Qed.
Lemma same_remove_share {A} c rtype rid name (f : bool -> DB A) t :
  (forall b t', (f b t').2 = t') -> (rtype, rid) <> (RESOURCE_TYPE_COLLECTION, c) ->
  collection_same c t ((remove_share rtype rid name ≫= f) t).2.
Proof.
  intros Hf Hk. rewrite then_reads by done. unfold remove_share. rewrite read_all_run.
  destruct (tb_shares t !! _); [by apply same_drop_share|done].
Qed.

(** A refused check in front of anything. *)
Lemma not_editable {B} t c coll user (f : Collection -> DB B) :
  tb_collections t !! c = Some coll -> can_edit_collection t coll user = false ->
  ((editable_collection c user ≫= f) t).2 = t.
Proof.
  intros Hc He. unfold editable_collection.
  by rewrite db_bind_assoc, read_all_run, db_bind_assoc, row_or_run, Hc, db_bind_assoc, guard_or_run, He.
Qed.

Lemma editable_reads {B} t c user (f : Collection -> DB B) :
  (forall coll, collection_same c t (f coll t).2) ->
  forall c', collection_same c t ((editable_collection c' user ≫= f) t).2.
Proof.
  intros Hf c'. unfold editable_collection.
  rewrite db_bind_assoc, read_all_run, db_bind_assoc, row_or_run.
  destruct (tb_collections t !! c'); [|done]. rewrite db_bind_assoc, guard_or_run.
  destruct (can_edit_collection _ _ _); [|done]. rewrite db_ret_run. apply Hf.
Qed.

Lemma share_request_same c c' user t {A} (m : DB A) coll :
  tb_collections t !! c = Some coll -> can_edit_collection t coll user = false ->
  (c' <> c -> collection_same c t (m t).2) ->
  collection_same c t ((editable_collection c' user;; m) t).2.
Proof.
  intros Hc He Hm. destruct (decide (c' = c)) as [->|Hn].
  - by rewrite (not_editable t c coll).
  - apply editable_reads. intros _. by apply Hm.
Qed.

Section stable_requests.
Context `{RedisServer} `{PostgresServer} `{Entropy} `{Bcrypt} (cfg : Settings).
Context (normalize_raster : json -> exn + json).
Context (run_inline : PropertyIndex.PropertyIndexPayload -> M unit).
Context (drop_indexes : string -> list string -> M unit) (invalidate_tiles_cache : string -> M unit).
Context (image_to_thumbnail : string -> string -> res string).
Context (Hrun : forall p, tables_kept (run_inline p)).
Context (Hdrop : forall c l, tables_kept (drop_indexes c l)).
Context (Hinv : forall c, tables_kept (invalidate_tiles_cache c)).

Lemma kept_schedule_here c old new comp : tables_kept (schedule_index_job cfg run_inline c old new comp).
Proof. by apply kept_schedule. Qed.
Lemma kept_unlink path : tables_kept (unlink path).
Proof. done. Qed.
Lemma kept_counters f : tables_kept (modify (fun w => with_db w (with_counters (w_db w) (f w)))).
Proof. done. Qed.
Lemma kept_all_tables : tables_kept all_tables.
Proof. done. Qed.

Lemma editable_state c user t : (editable_collection c user t).2 = t.
Proof.
  unfold editable_collection. rewrite read_all_run, row_or_run. destruct (tb_collections t !! c); [|done].
  rewrite guard_or_run. by destruct (can_edit_collection _ _ _).
Qed.
Lemma editable_map_state m user t : (editable_map m user t).2 = t.
Proof.
  unfold editable_map. rewrite read_all_run, row_or_run. destruct (tb_maps t !! m); [|done].
  rewrite guard_or_run. by destruct (can_edit_map _ _ _ _ _ _).
Qed.
Lemma editable_view_state v user t : (editable_view v user t).2 = t.
Proof.
  unfold editable_view, get_current_user_required. rewrite row_or_run. destruct user as [u|]; [|done].
  rewrite read_all_run, row_or_run. destruct (tb_views t !! v); [|done].
  rewrite guard_or_run. by destruct (can_edit_raster_view _ _ _ _).
Qed.

Section frame.
Context (R : tables -> tables -> Prop) (P : string -> Prop) `{!Frame R P}.

(** The pieces of the requests on a collection in [P]. *)
Ltac stab :=
  repeat (intros || lazymatch goal with
    | |- stable _ (match ?x with _ => _ end) => destruct x
    | |- stable _ (set_tables (put_collection _ _)) =>
        apply stable_set_tables; intros; by apply frame_put
    | |- stable _ _ => first
        [ solve [apply stable_kept; [apply _|];
                 eauto using kept_schedule_here, kept_unlink, kept_counters,
                   kept_all_tables, kept_drop_features, kept_ensure_partition with kept]
        | apply stable_bind; [apply _|..] ]
    end).

Lemma stable_replace_row c d : P c -> stable R (replace_collection_row cfg run_inline drop_indexes c d).
Proof. intros Hc. unfold replace_collection_row. stab. Qed.

Lemma stable_patch_row c p : P c -> stable R (patch_collection_row cfg run_inline drop_indexes c p).
Proof. intros Hc. unfold patch_collection_row. stab. Qed.

Lemma stable_create_row d owner v :
  P (cc_id d) -> stable R (create_collection_row cfg run_inline d owner v).
Proof. intros Hc. unfold create_collection_row, insert_collection. stab. Qed.

Lemma stable_delete_row c : P c -> stable R (delete_collection_row cfg drop_indexes c).
Proof.
  intros Hc. unfold delete_collection_row. stab.
  - apply stable_on_tables. intros t. by apply frame_styles.
  - apply stable_set_tables. intros t. by apply frame_drop.
Qed.

Lemma stable_mark_stale c : stable R (mark_composite_static_stale c).
Proof. unfold mark_composite_static_stale. stab. apply stable_set_tables. intros t. apply frame_tiles. Qed.

(** A check that refuses, or passes and reads only. *)
Lemma check_then {A B} (m : DB A) (f : A -> M B) w :
  (m (w_tables w)).2 = w_tables w ->
  (forall a, (m (w_tables w)).1 = inr a -> stable R (f a)) ->
  R (w_tables w) (w_tables ((on_tables m ≫= f) w).2).
Proof.
  intros Hm Hf. rewrite bind_run, on_tables_run, Hm.
  destruct (m (w_tables w)).1 as [e|a]; cbn [snd with_tables with_services w_services s_tables];
    [done|]. etrans; [|by apply Hf]. done.
Qed.

Lemma stable_set_password id pw b : stable R (on_tables (set_password id pw b)).
Proof.
  apply stable_on_tables. intros t. unfold set_password. rewrite read_all_run.
  unfold get_user_by_id.
  destruct (tb_users t !! id) as [u|] eqn:Hu; [|done]. by eapply frame_user.
Qed.

Lemma stable_change_password f u s : stable R (change_password_post f u s).
Proof.
  unfold change_password_post. apply stable_bind; [apply _|by apply stable_kept; [apply _|]|]. intros now.
  destruct (password_change_blocked _ _ _ _ _) as [[blocked r] s'].
  repeat (case_match; try by apply stable_kept; [apply _|]).
  apply stable_bind; [apply _|apply stable_set_password|]. intros _. by apply stable_kept; [apply _|].
Qed.

(** The endpoints on collections, after their check. *)
Lemma stable_after_replace c d :
  P c -> stable R (row ← replace_collection_row cfg run_inline drop_indexes c d;
                   on_tables (row_or row 404 "Collection not found")).
Proof.
  intros Hc. apply stable_bind; [apply _|by apply stable_replace_row|]. intros row.
  apply stable_on_tables. intros t. by destruct row.
Qed.

Lemma stable_after_patch c p :
  P c -> stable R ('(row, job) ← patch_collection_row cfg run_inline drop_indexes c p;
    row ← on_tables (row_or row 404 "Collection not found");
    when (bool_decide (c_type row = COLLECTION_TYPE_COMPOSITE))
      (invalidate_tiles_cache c;;
       match cp_members p with Some _ => mark_composite_static_stale c | None => mret tt end);;
    mret (row, job)).
Proof.
  intros Hc. apply stable_bind; [apply _|by apply stable_patch_row|]. intros [row job].
  apply stable_bind; [apply _|apply stable_on_tables; intros t; by destruct row|]. intros row'.
  apply stable_bind; [apply _| |intros _; by apply stable_kept; [apply _|]]. unfold when.
  destruct (bool_decide _); [|by apply stable_kept; [apply _|]].
  apply stable_bind; [apply _|by apply stable_kept; [apply _|]|].
  intros _. destruct (cp_members p); [apply stable_mark_stale|by apply stable_kept; [apply _|]].
Qed.

Lemma stable_after_delete c :
  P c -> stable R (deleted ← delete_collection_row cfg drop_indexes c;
                   on_tables (guard_or deleted 404 "Collection not found")).
Proof.
  intros Hc. apply stable_bind; [apply _|by apply stable_delete_row|].
  intros b. apply stable_on_tables. intros t. by destruct b.
Qed.

(** *** Computations on the tables *)

Definition moves {A} (m : DB A) : Prop := forall t, R t (m t).2.
Lemma moves_bind {A B} (m : DB A) (f : A -> DB B) :
  moves m -> (forall a, moves (f a)) -> moves (m ≫= f).
Proof.
  intros Hm Hf t. rewrite db_bind_run. specialize (Hm t). destruct (m t) as [[e|a] t']; cbn [snd] in Hm; [done|].
  etrans; [done|]. apply Hf.
Qed.
Lemma moves_reads {A} (m : DB A) : (forall t, (m t).2 = t) -> moves m.
Proof. intros Hm t. by rewrite Hm. Qed.
Lemma moves_write f : (forall t, R t (f t)) -> moves (write f).
Proof. intros Hf t. apply Hf. Qed.
Lemma moves_forget {A} (m : DB A) : moves m -> moves (forget m).
Proof. intros Hm t. by rewrite forget_tables. Qed.
Lemma moves_unshare rtype rid name :
  (rtype = RESOURCE_TYPE_COLLECTION -> P rid) -> moves (remove_share rtype rid name).
Proof.
  intros Hp t. unfold remove_share. rewrite read_all_run. destruct (tb_shares t !! _); [|done].
  by apply frame_unshare.
Qed.

Ltac moves :=
  repeat (intros || lazymatch goal with
    | |- moves (match ?x with _ => _ end) => destruct x
    | |- moves (write (put_map _ _)) => apply moves_write; intros; apply frame_maps
    | |- moves (write (fun t => with_maps _ _)) => apply moves_write; intros; apply frame_maps
    | |- moves (_ ≫= _) => apply moves_bind
    | |- moves _ => apply moves_reads; intros; first
        [apply reads_row_or|apply reads_guard_or|apply editable_state|apply editable_map_state|reflexivity]
    end).

Lemma moves_create_map id now d owner v : moves (create_map_row id now d owner v).
Proof. unfold create_map_row. moves. Qed.
Lemma moves_update_map id now d : moves (update_map_row id now d).
Proof. unfold update_map_row. moves. Qed.
Lemma moves_thumbnail id now data : moves (set_map_thumbnail_data id now data).
Proof. unfold set_map_thumbnail_data. moves. Qed.
Lemma moves_delete_map id user : moves (delete_map id user).
Proof. unfold delete_map, delete_map_row. moves. Qed.
Lemma moves_nickname id nick : moves (set_nickname id nick).
Proof.
  intros t. unfold set_nickname. rewrite read_all_run. unfold get_user_by_id.
  destruct (tb_users t !! id) as [u|] eqn:Hu; [|done]. destruct (match nick with Some _ => _ | None => _ end);
    [done|]. by eapply frame_user.
Qed.

Lemma publish_checks_reads d user t : (publish_checks d user t).2 = t.
Proof. by destruct (publish_checks_run d user t) as [(-> & _)|[e ->]]. Qed.

Lemma stable_moves {A} (m : DB A) : moves m -> stable R (on_tables m).
Proof. apply stable_on_tables. Qed.

Lemma stable_create_map d user : stable R (create_map d user).
Proof.
  unfold create_map. apply stable_bind; [apply _|apply stable_moves; moves|]. intros u.
  repeat (apply stable_bind; [apply _|by apply stable_kept; [apply _|]|]; intros ?).
  apply stable_moves, moves_create_map.
Qed.
Lemma stable_save_map patch base id d user : stable R (save_map patch base id d user).
Proof.
  unfold save_map. apply stable_bind; [apply _|apply stable_moves; moves|]. intros m.
  apply stable_bind; [apply _|apply stable_moves, moves_reads; intros t|intros _].
  { unfold when_public, when_db. destruct (bool_decide _); [apply publish_checks_reads|done]. }
  apply stable_bind; [apply _|by apply stable_kept; [apply _|]|intros now].
  apply stable_bind; [apply _| |intros row; by apply stable_kept; [apply _|]].
  destruct (patch && empty_payload _); [by apply stable_kept; [apply _|]|].
  apply stable_moves, moves_bind; [apply moves_update_map|moves].
Qed.
Lemma stable_upload_thumbnail image id ty data user : stable R (upload_map_thumbnail image id ty data user).
Proof.
  unfold upload_map_thumbnail.
  repeat (apply stable_bind; [apply _|apply stable_moves; moves; by destruct (image _ _)|]; intros ?).
  apply stable_bind; [apply _|by apply stable_kept; [apply _|]|intros now].
  apply stable_bind; [apply _|apply stable_moves, moves_bind; [apply moves_thumbnail|moves]|].
  intros _. by apply stable_kept; [apply _|].
Qed.
Lemma moves_set_nickname base raw user : moves (user_config_set_nickname base raw user).
Proof.
  unfold user_config_set_nickname. apply moves_bind; [unfold get_current_user_required; moves|]. intros u.
  destruct (validate_nickname raw) as [e|nick]; [moves|]. apply moves_bind; [moves|]. intros t0.
  destruct (decide _); [moves|]. intros t. pose proof (moves_nickname (user_id u) nick t) as Hn.
  by destruct (set_nickname (user_id u) nick t) as [[[]|] t'].
Qed.

Lemma stable_delete_tiles c : stable R (delete_collection_tiles c).
Proof. unfold delete_collection_tiles. stab. apply stable_set_tables. intros t. apply frame_tiles. Qed.
Lemma stable_each {A} (f : A -> M unit) l : (forall x, stable R (f x)) -> stable R (each f l).
Proof.
  intros Hf. induction l as [|x l IH]; [by apply stable_kept; [apply _|]|].
  apply stable_bind; [apply _|apply Hf|by intros _].
Qed.
Lemma stable_reset_tiles {A} owner (a : A) :
  stable R (t ← all_tables; each delete_collection_tiles (owned_ids owner t);; mret a).
Proof.
  apply stable_bind; [apply _|by apply stable_kept; [apply _|]|]. intros t.
  apply stable_bind; [apply _|apply stable_each, stable_delete_tiles|].
  intros _. by apply stable_kept; [apply _|].
Qed.
Lemma stable_delete_owned {A} c (a : A) :
  P c -> stable R (delete_collection_row cfg drop_indexes c;; mret a).
Proof.
  intros Hc. apply stable_bind; [apply _|by apply stable_delete_row|].
  intros _. by apply stable_kept; [apply _|].
Qed.
Lemma stable_delete_one {A} c (a : A) : stable R (delete_collection_tiles c;; mret a).
Proof.
  apply stable_bind; [apply _|apply stable_delete_tiles|]. intros _. by apply stable_kept; [apply _|].
Qed.
End frame.

Lemma editable_check c coll user t a :
  tb_collections t !! c = Some coll -> can_edit_collection t coll user = false ->
  (editable_collection c user t).1 <> inr a.
Proof.
  intros Hc He. unfold editable_collection. by rewrite read_all_run, row_or_run, Hc, guard_or_run, He.
Qed.

Lemma refused_or_other {A} c c' coll user w (f : Collection -> M A) :
  tb_collections (w_tables w) !! c = Some coll ->
  can_edit_collection (w_tables w) coll user = false ->
  (c' <> c -> forall a, stable (collection_same c) (f a)) ->
  collection_same c (w_tables w) (w_tables ((on_tables (editable_collection c' user) ≫= f) w).2).
Proof.
  intros Hc He Hf. eapply check_then; [apply _|apply editable_state|]. intros a Ha.
  apply Hf. intros ->. by apply (editable_check c coll user (w_tables w) a).
Qed.

Lemma patch_checks_run c p user t :
  (patch_checks c p user t).2 = t
  /\ forall a, (patch_checks c p user t).1 = inr a ->
       exists coll, (editable_collection c user t).1 = inr coll.
Proof.
  unfold patch_checks. rewrite db_bind_run. pose proof (editable_state c user t) as Ht.
  destruct (editable_collection c user t) as [[e|coll] t'] eqn:Hr; cbn [snd] in Ht; subst t'; [done|].
  split; [|by intros a _; exists coll].
  destruct (cp_index_fields p) as [raw|]; rewrite ?db_bind_assoc, ?guard_or_run, ?db_ret_run.
  - destruct (bool_decide _); [|done]. rewrite db_bind_assoc, db_bind_run. unfold bad_fields, lift_db.
    destruct (normalize_property_index_fields raw) as [[]|l]; try done. cbn [fst snd].
    rewrite db_ret_run. destruct (cp_members p); [|done]. unfold validate_composite_members, when_db.
    destruct (bool_decide _); [|done]. rewrite read_all_run. by destruct (default [] o).
  - destruct (cp_members p); [|done]. unfold validate_composite_members, when_db.
    destruct (bool_decide _); [|done]. rewrite read_all_run. by destruct (default [] o).
Qed.

Lemma create_checks_run d user t :
  (create_checks d user t).2 = t
  /\ forall a, (create_checks d user t).1 = inr a -> tb_collections t !! cc_id d = None.
Proof.
  unfold create_checks. rewrite row_or_run. destruct user as [u|]; [|done]. rewrite guard_or_run.
  destruct (negb _); [|done]. rewrite read_all_run, guard_or_run.
  destruct (tb_collections t !! cc_id d) as [row|]; [by rewrite bool_decide_eq_true_2|].
  rewrite bool_decide_eq_false_2 by (by intros [? ?]). cbn [negb]. split; [|done].
  rewrite then_reads.
  - destruct (default [] (cc_members d)) as [|m ms]; [done|]. unfold when_db.
    destruct (bool_decide _); [|done]. unfold validate_composite_members. by rewrite read_all_run.
  - intros _ t'. rewrite then_reads; [|done]. unfold when_db. destruct (bool_decide _); [|done].
    rewrite then_reads; [|done]. unfold bad_fields, lift_db.
    by destruct (normalize_property_index_fields _) as [[]|].
Qed.

Lemma forget_m_tables {A} (m : M A) w : w_tables (forget_m m w).2 = w_tables (m w).2.
Proof. unfold forget_m. rewrite bind_run. by destruct (m w) as [[]]. Qed.

Lemma not_admin {B} coll user t (f : User -> DB B) :
  can_edit_collection t coll user = false -> ((require_admin user ≫= f) t).2 = t.
Proof.
  unfold require_admin, get_current_user_required, can_edit_collection. rewrite db_bind_assoc, row_or_run.
  destruct user as [u|]; [|done]. by destruct (is_admin u).
Qed.

Lemma after_check {A B} c (check : DB A) (m : A -> DB B) t :
  (check t).2 = t -> (forall a, collection_same c t (m a t).2) ->
  collection_same c t ((check ≫= m) t).2.
Proof.
  intros Ht Hm. rewrite db_bind_run. destruct (check t) as [[e|a] t'] eqn:Hr; cbn [snd] in Ht; subst t';
    [done|apply Hm].
Qed.

(** The checks of the pages of a user's resources. *)
Lemma config_check c user t :
  let m := u ← get_current_user_required user; editable_collection c (Some u) in
  (m t).2 = t /\ forall a, (m t).1 = inr a -> (editable_collection c user t).1 = inr a.
Proof.
  cbn zeta. unfold get_current_user_required. rewrite row_or_run. destruct user as [u|]; [|done].
  split; [apply editable_state|done].
Qed.
Lemma owned_state id c t : (owned_by id c t).2 = t.
Proof.
  unfold owned_by. rewrite read_all_run, row_or_run.
  destruct (tb_collections t !! c); [|done]. rewrite guard_or_run. by destruct (bool_decide _).
Qed.
Lemma admin_check id c user t :
  let m := require_admin user;; owned_by id c in
  (m t).2 = t /\ forall a, (m t).1 = inr a -> admin user = true.
Proof.
  cbn zeta. unfold require_admin, get_current_user_required. rewrite db_bind_assoc, row_or_run.
  destruct user as [u|]; [|done]. destruct (is_admin u) eqn:Hu; [|done]. split; [|done].
  rewrite db_ret_run. apply owned_state.
Qed.
Lemma require_admin_check user t :
  (require_admin user t).2 = t /\ forall a, (require_admin user t).1 = inr a -> admin user = true.
Proof.
  unfold require_admin, get_current_user_required. rewrite row_or_run.
  destruct user as [u|]; [|done]. by destruct (is_admin u) eqn:Hu.
Qed.
Lemma not_editor_not_admin coll user t : can_edit_collection t coll user = false -> admin user <> true.
Proof. unfold can_edit_collection, admin. destruct user as [u|]; [|done]. by destruct (is_admin u). Qed.

Lemma same_remove_editor base c c' name coll user t :
  tb_collections t !! c = Some coll -> can_edit_collection t coll user = false ->
  collection_same c t (user_config_remove_collection_editor base c' name user t).2.
Proof.
  intros Hc He. unfold user_config_remove_collection_editor, get_current_user_required.
  rewrite row_or_run. destruct user as [u|]; [|done]. rewrite read_all_run.
  destruct (removable t (strip name)); [|done]. eapply share_request_same; [done..|].
  intros Hn. apply same_remove_share; [done|congruence].
Qed.
Lemma same_remove_map_editor base c m name user t :
  collection_same c t (user_config_remove_map_editor base m name user t).2.
Proof.
  unfold user_config_remove_map_editor, get_current_user_required.
  rewrite row_or_run. destruct user as [u|]; [|done]. rewrite read_all_run.
  destruct (removable t (strip name)); [|done]. rewrite row_or_run.
  destruct (parse_uuid m); [|done]. rewrite row_or_run. destruct (tb_maps t !! _); [|done].
  rewrite guard_or_run. destruct (_ || _); [|done].
  apply same_remove_share; [done|]. intros Hk. by injection Hk.
Qed.

(** A caller without the right to edit a collection leaves it and its shares. *)
Lemma handle_same r user w c coll :
  styles_wf (tb_styles (w_tables w)) ->
  tb_collections (w_tables w) !! c = Some coll ->
  can_edit_collection (w_tables w) coll user = false ->
  collection_same c (w_tables w)
    (w_tables (handle cfg normalize_raster run_inline drop_indexes invalidate_tiles_cache
                 image_to_thumbnail r user w).2).
Proof.
  intros Hwf Hc He. destruct r; cbn [handle]; rewrite ?forget_m_tables.
  - destruct (create_checks_run d user (w_tables w)) as [Ht Hn]. unfold create_collection. eapply check_then; [apply _|done|].
    intros u Hu. eapply stable_create_row; [apply _|]. intros Hd. specialize (Hn u Hu). congruence.
  - unfold replace_collection. eapply refused_or_other; [done..|]. intros Hn _. by eapply stable_after_replace; [apply _|].
  - destruct (patch_checks_run c0 p user (w_tables w)) as [Ht Hr]. unfold patch_collection. eapply check_then; [apply _|done|].
    intros u Hu. destruct (Hr u Hu) as [coll' Hcoll'].
    eapply stable_after_patch; [apply _|]. intros ->. by apply (editable_check c coll user (w_tables w) coll').
  - unfold delete_collection. eapply refused_or_other; [done..|]. intros Hn _. by eapply stable_after_delete; [apply _|].
  - rewrite on_tables_run. cbn [snd]. rewrite forget_tables. eapply share_request_same; [done..|].
    intros Hn. apply same_add_share. congruence.
  - rewrite on_tables_run. cbn [snd]. eapply share_request_same; [done..|].
    intros Hn. apply same_remove_share; [done|congruence].
  - rewrite on_tables_run. cbn [snd]. rewrite forget_tables. apply after_check; [apply editable_map_state|].
    intros _. apply same_add_share. intros Hk. by injection Hk.
  - rewrite on_tables_run. cbn [snd]. apply after_check; [apply editable_map_state|].
    intros _. apply same_remove_share; [done|]. intros Hk. by injection Hk.
  - rewrite on_tables_run. cbn [snd]. rewrite forget_tables. apply after_check; [apply editable_view_state|].
    intros _. apply same_add_share. intros Hk. by injection Hk.
  - rewrite on_tables_run. cbn [snd]. apply after_check; [apply editable_view_state|].
    intros _. apply same_remove_share; [by intros []|]. intros Hk. by injection Hk.
  - rewrite on_tables_run. cbn [snd]. eapply same_style_effect. by apply handle_style_effect.
  - rewrite on_tables_run. cbn [snd]. rewrite forget_tables. unfold create_user_post.
    by rewrite (not_admin coll).
  - rewrite on_tables_run. cbn [snd]. rewrite forget_tables. unfold update_user_post.
    by rewrite (not_admin coll).
  - rewrite on_tables_run. cbn [snd]. rewrite forget_tables. unfold delete_user_post.
    by rewrite (not_admin coll).
  - destruct user as [u|]; [|done]. rewrite forget_m_tables. eapply stable_change_password, _.
  - eapply stable_create_map, _.
  - eapply stable_save_map, _.
  - eapply stable_upload_thumbnail, _.
  - rewrite on_tables_run. cbn [snd]. eapply moves_delete_map, _.
  - rewrite on_tables_run. cbn [snd]. rewrite forget_tables. eapply moves_set_nickname, _.
  - rewrite on_tables_run. cbn [snd]. rewrite forget_tables. by eapply same_remove_editor.
  - rewrite on_tables_run. cbn [snd]. rewrite forget_tables. apply same_remove_map_editor.
  - unfold user_config_reset_tiles. eapply check_then; [apply _|apply reads_row_or|]. intros u _.
    eapply stable_reset_tiles, _.
  - unfold user_config_delete_tiles. eapply check_then; [apply _|apply config_check|]. intros u _.
    eapply stable_delete_one, _.
  - unfold user_config_delete_collection. eapply check_then; [apply _|apply config_check|].
    intros coll' Hcoll'%config_check. eapply stable_delete_owned; [apply _|]. intros ->.
    by apply (editable_check c coll user (w_tables w) coll').
  - unfold admin_user_reset_tiles. eapply check_then; [apply _|apply require_admin_check|]. intros u _.
    eapply stable_reset_tiles, _.
  - unfold admin_user_delete_tiles. eapply check_then; [apply _|apply admin_check|]. intros u _.
    eapply stable_delete_one, _.
  - unfold admin_user_delete_collection. eapply check_then; [apply _|apply admin_check|].
    intros coll' Ha%admin_check. by destruct (not_editor_not_admin coll user (w_tables w)).
  - rewrite on_tables_run. cbn [snd]. rewrite forget_tables. unfold admin_user_remove_collection_editor.
    by rewrite (not_admin coll).
  - rewrite on_tables_run. cbn [snd]. rewrite forget_tables. unfold admin_user_remove_map_editor.
    by rewrite (not_admin coll).
Qed.
End stable_requests.
