(* ===== verification/ApiSafety.v ===== *)
(** * What holds whatever requests arrive

    The invariant of the API's tables, which every request of Access.v keeps, and
    the consequence of its frame lemmas for sequences of requests: nobody gains a
    right on a collection through requests of callers who have none. *)

From S2P Require Import Prelude PyTime Redis Postgres World Database Json Mutex JobStore.
From S2P Require Import SideQueues Partitions Sha256 Session Permissions Shares Styles Collections.
From S2P Require Import Maps Accounts UserPages Access.

(** ** The invariant *)

(** Users are keyed by their id, which the sequence has passed, and have distinct
    names; there is an administrator. *)
Record users_ok (t : tables) : Prop := {
  user_key id u : tb_users t !! id = Some u -> user_id u = id;
  user_fresh id u : tb_users t !! id = Some u -> id < tb_next_user t;
  user_named id u : tb_users t !! id = Some u -> username u <> "";
  user_unique id id' u u' : tb_users t !! id = Some u -> tb_users t !! id' = Some u' ->
    username u = username u' -> id = id';
  user_admin : exists id u, tb_users t !! id = Some u /\ is_admin u = true
}.

Definition roles_ok (t : tables) : Prop :=
  forall k r, tb_shares t !! k = Some r -> r ∈ [ROLE_VIEWER; ROLE_EDITOR].

Record api_ok (t : tables) : Prop := {
  api_users : users_ok t;
  api_roles : roles_ok t;
  api_styles : styles_ok (tb_styles t)
}.

Lemma lstrip_fix c s : py_space c = false -> lstrip (String c s) = String c s.
Proof. intros Hc. cbn. by rewrite Hc. Qed.
Lemma lstrip_cases s : lstrip s = "" \/ exists c s', lstrip s = String c s' /\ py_space c = false.
Proof.
  induction s as [|c s IH]; [by left|]. cbn. destruct (py_space c) eqn:Hc; [done|].
  right. by exists c, s.
Qed.
Lemma rstrip_head c s : py_space c = false -> exists s', rstrip (String c s) = String c s'.
Proof. intros Hc. cbn. destruct (rstrip s) as [|d r]; [rewrite Hc|]; by eexists. Qed.
Lemma rstrip_idemp s : rstrip (rstrip s) = rstrip s.
Proof.
  induction s as [|c s IH]; [done|]. cbn [rstrip]. destruct (rstrip s) as [|d r] eqn:Hr.
  - destruct (py_space c) eqn:Hc; [done|]. cbn. by rewrite Hc.
  - assert (forall x, x <> "" -> rstrip (String c x) =
      match rstrip x with "" => if py_space c then "" else String c "" | y => String c y end) as He
      by by intros [].
    rewrite He, IH by done. done.
Qed.
Lemma strip_idemp s : strip (strip s) = strip s.
Proof.
  unfold strip. destruct (lstrip_cases s) as [->|(c & s' & -> & Hc)]; [done|].
  destruct (rstrip_head c s' Hc) as [r Hr]. rewrite Hr, (lstrip_fix c r Hc), <-Hr. apply rstrip_idemp.
Qed.

(** *** The users *)

(** An update of a row that keeps its id and its name, and leaves an
    administrator. *)
Lemma put_user_ok id u u' t :
  users_ok t -> tb_users t !! id = Some u -> user_id u' = user_id u -> username u' = username u ->
  (is_admin u' = true \/ exists id2 u2, id2 <> id /\ tb_users t !! id2 = Some u2 /\ is_admin u2 = true) ->
  users_ok (put_user id u' t).
Proof.
  intros Ht Hu Hid Hn Ha.
  assert (forall i x, tb_users (put_user id u' t) !! i = Some x ->
    exists y, tb_users t !! i = Some y /\ user_id x = user_id y /\ username x = username y) as Hold.
  { intros i x Hx. change (tb_users (put_user id u' t)) with (<[id := u']> (tb_users t)) in Hx.
    apply lookup_insert_Some in Hx as [[<- <-]|[_ Hx]]; [by exists u|by exists x]. }
  split.
  - intros i x (y & Hy & Hi & _)%Hold. rewrite Hi. by eapply user_key.
  - intros i x (y & Hy & _)%Hold. by apply (user_fresh t Ht i y).
  - intros i x (y & Hy & _ & ->)%Hold. by apply (user_named t Ht i y).
  - intros i j x x' (y & Hy & _ & Hny)%Hold (y' & Hy' & _ & Hny')%Hold Hx.
    eapply (user_unique t Ht); [done..|congruence].
  - destruct Ha as [Ha|(i & x & Hi & Hx & Ha)].
    + exists id, u'. split; [apply lookup_insert_eq|done].
    + exists i, x. split; [by apply lookup_insert_Some; right|done].
Qed.

(** What [get_user_by_username] finds is a row of that name. *)
Lemma found_by_name t name u :
  get_user_by_username t name = Some u ->
  username u = strip name /\ exists id, tb_users t !! id = Some u.
Proof.
  unfold get_user_by_username. case_decide; [done|]. intros Hu.
  assert (u ∈ users_named t (strip name)) as Hin.
  { destruct (users_named t (strip name)) as [|x l]; [done|]. injection Hu as ->. set_solver. }
  unfold users_named in Hin. rewrite list_elem_of_In, filter_In, bool_decide_eq_true in Hin.
  destruct Hin as [Hin Hn]. split; [done|].
  apply list_elem_of_In, list_elem_of_fmap in Hin as ([id x] & -> & Hx).
  apply elem_of_map_to_list in Hx. by exists id.
Qed.

Lemma users_named_nil t name :
  users_named t name = [] -> forall id u, tb_users t !! id = Some u -> username u <> name.
Proof.
  intros Hn id u Hu Hname. assert (u ∈ users_named t name) as Hin; [|rewrite Hn in Hin; set_solver].
  unfold users_named. rewrite list_elem_of_In, filter_In, bool_decide_eq_true. split; [|done].
  rewrite <-list_elem_of_In, list_elem_of_fmap. exists (id, u). split; [done|].
  by apply elem_of_map_to_list.
Qed.

(** [admin_count]: with two administrators there is another one. *)
Lemma other_admin t id :
  (1 < admin_count t)%nat -> exists id2 u2, id2 <> id /\ tb_users t !! id2 = Some u2 /\ is_admin u2 = true.
Proof.
  unfold admin_count. set (m := filter _ (tb_users t)). intros Hs.
  assert (delete id m <> ∅) as Hne.
  { intros He. assert (size (delete id m) = 0%nat) as Hz by (by rewrite He, map_size_empty).
    rewrite map_size_delete in Hz. destruct (m !! id); cbn in Hz; lia. }
  destruct (map_choose _ Hne) as (i & u & [Hi Hu]%lookup_delete_Some).
  apply map_lookup_filter_Some in Hu as [Hu Ha]. by exists i, u.
Qed.

Lemma write_run {B} f (k : unit -> DB B) t : (write f ≫= k) t = k tt (f t).
Proof. reflexivity. Qed.

Section users.
Context `{Bcrypt}.

Lemma create_user_ok name pw a m t :
  users_ok t -> strip name <> "" -> users_ok (create_user name pw a m t).2.
Proof.
  intros Ht Hne. unfold create_user. rewrite read_all_run. case_decide as Hn; [|done].
  rewrite db_bind_run. cbn [write with_users tb_users tb_next_user fst snd].
  set (u := mkUser _ _ _ _ _ _). pose proof (users_named_nil _ _ Hn) as Hnew.
  assert (tb_users t !! tb_next_user t = None) as Hfree.
  { destruct (tb_users t !! tb_next_user t) as [x|] eqn:Hx; [|done].
    pose proof (user_fresh t Ht _ _ Hx). lia. }
  split; cbn [mret DB_ret snd tb_users tb_next_user with_users].
  - intros i x [[<- <-]|[_ Hx]]%lookup_insert_Some; [done|by apply (user_key t Ht)].
  - intros i x [[<- <-]|[_ Hx]]%lookup_insert_Some; [subst u; cbn; lia|]. pose proof (user_fresh t Ht _ _ Hx). lia.
  - intros i x [[<- <-]|[_ Hx]]%lookup_insert_Some; [done|by apply (user_named t Ht i)].
  - intros i j x x' [[<- <-]|[_ Hx]]%lookup_insert_Some [[<- <-]|[_ Hx']]%lookup_insert_Some Hxx; try done.
    + by destruct (Hnew _ _ Hx').
    + by destruct (Hnew _ _ Hx).
    + by eapply (user_unique t Ht).
  - destruct (user_admin t Ht) as (i & x & Hx & Ha). exists i, x. split; [|done].
    rewrite lookup_insert_ne; [done|]. intros <-. cbn in Hx. by rewrite Hfree in Hx.
Qed.

Lemma create_user_post_ok f user t : users_ok t -> users_ok (create_user_post f user t).2.
Proof.
  intros Ht. unfold create_user_post, require_admin, get_current_user_required.
  rewrite db_bind_assoc, row_or_run. destruct user as [u|]; [|done]. destruct (is_admin u); [|done].
  rewrite db_ret_run, read_all_run. repeat (case_decide; [done|]).
  rewrite then_reads by done. apply create_user_ok; [done|]. by rewrite strip_idemp.
Qed.

(** Both writes of an update are an update of the row. *)
Lemma put_put id u u' t : put_user id u' (put_user id u t) = put_user id u' t.
Proof. unfold put_user, with_users. cbn. by rewrite insert_insert_eq. Qed.

Lemma put_user_same id u t : tb_users (put_user id u t) !! id = Some u.
Proof. apply lookup_insert_eq. Qed.

Lemma update_user_post_ok id f user t : users_ok t -> users_ok (update_user_post id f user t).2.
Proof.
  intros Ht. unfold update_user_post, require_admin, get_current_user_required, get_user_by_id.
  rewrite db_bind_assoc, row_or_run. destruct user as [a|]; [|done]. destruct (is_admin a); [|done].
  rewrite db_ret_run, read_all_run, row_or_run. destruct (tb_users t !! id) as [u|] eqn:Hu; [|done].
  destruct (is_admin u && negb (uf_is_admin f) && (admin_count t <=? 1)%nat) eqn:Hlast; [done|].
  assert (uf_is_admin f = true \/
    exists id2 u2, id2 <> id /\ tb_users t !! id2 = Some u2 /\ is_admin u2 = true) as Hrem.
  { destruct (uf_is_admin f); [by left|right]. destruct (is_admin u) eqn:Ha.
    - apply other_admin. cbn in Hlast. by apply Nat.leb_gt in Hlast.
    - destruct (user_admin t Ht) as (i & x & Hx & Hxa). exists i, x. split; [|done]. congruence. }
  unfold update_user, set_password, get_user_by_id. rewrite db_bind_assoc, read_all_run, Hu.
  rewrite db_bind_assoc, write_run, db_ret_run. cbn [default].
  case_decide; [by apply (put_user_ok id u)|].
  rewrite !db_bind_assoc, read_all_run, put_user_same. cbn -[put_user].
  rewrite db_bind_assoc, write_run, put_put. by apply (put_user_ok id u).
Qed.

(** Only users that are not administrators are deleted. *)
Lemma drop_user_ok id u t :
  users_ok t -> tb_users t !! id = Some u -> is_admin u = false -> users_ok (drop_user id t).
Proof.
  intros Ht Hu Hna. split; cbn [drop_user tb_users tb_next_user].
  - intros i x [_ Hx]%lookup_delete_Some. by apply (user_key t Ht).
  - intros i x [_ Hx]%lookup_delete_Some. by apply (user_fresh t Ht i x).
  - intros i x [_ Hx]%lookup_delete_Some. by apply (user_named t Ht i).
  - intros i j x y [_ Hx]%lookup_delete_Some [_ Hy]%lookup_delete_Some. by apply (user_unique t Ht).
  - destruct (user_admin t Ht) as (i & x & Hx & Ha). exists i, x. split; [|done].
    apply lookup_delete_Some. split; [|done]. intros <-. congruence.
Qed.

(** The refusals of [delete_user_post] leave the deletion of a user that is no
    administrator. *)
Lemma delete_user_post_run id base user t :
  (delete_user_post id base user t).2 = t
  \/ exists u, tb_users t !! id = Some u /\ is_admin u = false
       /\ (delete_user_post id base user t).2 = drop_user id t.
Proof.
  unfold delete_user_post, require_admin, get_current_user_required, get_user_by_id.
  rewrite db_bind_assoc, row_or_run. destruct user as [a|]; [|by left]. destruct (is_admin a); [|by left].
  rewrite db_ret_run, read_all_run, row_or_run. destruct (tb_users t !! id) as [u|] eqn:Hu; [|by left].
  rewrite guard_or_run. destruct (negb (is_admin u && _)) eqn:Ha; [|by left].
  rewrite guard_or_run. case_bool_decide as Hs; cbn [negb] in *; [by left|].
  rewrite andb_true_r in Ha. apply negb_true_iff in Ha. right. exists u. split_and!; [done..|].
  unfold delete_user, get_user_by_id. rewrite db_bind_assoc, read_all_run. by rewrite Hu.
Qed.

Lemma delete_user_post_ok id base user t : users_ok t -> users_ok (delete_user_post id base user t).2.
Proof.
  intros Ht. destruct (delete_user_post_run id base user t) as [->|(u & Hu & Ha & ->)]; [done|].
  by eapply drop_user_ok.
Qed.
End users.

Lemma users_ok_same t t' :
  tb_users t' = tb_users t -> tb_next_user t' = tb_next_user t -> users_ok t -> users_ok t'.
Proof. intros Hu Hn []. by split; rewrite ?Hu, ?Hn. Qed.

(** *** The styles and the shares *)

Lemma disown_styles_ok id m : styles_ok m -> styles_ok (disown_style id <$> m).
Proof.
  intros [Hwf Ho].
  assert (forall k st, (disown_style id <$> m) !! k = Some st -> exists st0, m !! k = Some st0
    /\ st_collection_id st = st_collection_id st0 /\ st_id st = st_id st0
    /\ st_is_default st = st_is_default st0) as Hold.
  { intros k st. rewrite lookup_fmap. destruct (m !! k) as [st0|]; [|done]. intros [= <-].
    exists st0. unfold disown_style. by case_decide. }
  split.
  - intros c s st (st0 & Hs & -> & -> & _)%Hold. by apply Hwf.
  - intros c s s' st st' Hc (x & Hx & _ & _ & ->)%Hold (y & Hy & _ & _ & ->)%Hold. by eapply Ho.
Qed.

Lemma filter_styles_ok (P : (string * string) * Style -> Prop) `{!forall x, Decision (P x)} m :
  styles_ok m -> styles_ok (filter P m).
Proof.
  intros [Hwf Ho]. split.
  - intros c s st [Hs _]%map_lookup_filter_Some. by apply Hwf.
  - intros c s s' st st' Hc [Hs _]%map_lookup_filter_Some [Hs' _]%map_lookup_filter_Some. by eapply Ho.
Qed.

Lemma put_share_roles k role t :
  roles_ok t -> role ∈ [ROLE_VIEWER; ROLE_EDITOR] ->
  roles_ok (with_shares t (<[k := role]> (tb_shares t))).
Proof.
  intros Ht Hr k' r Hk. cbn [with_shares tb_shares] in Hk.
  apply lookup_insert_Some in Hk as [[_ <-]|[_ Hk]]; [done|by eapply Ht].
Qed.
Lemma drop_share_roles k t : roles_ok t -> roles_ok (with_shares t (delete k (tb_shares t))).
Proof.
  intros Ht k' r Hk. cbn [with_shares tb_shares] in Hk. apply lookup_delete_Some in Hk as [_ Hk].
  by eapply Ht.
Qed.

(** *** A request *)

(** From one state of the tables to another one, the invariant is kept. *)
Definition keeps_ok (t t' : tables) : Prop := api_ok t -> api_ok t'.

#[export] Instance keeps_ok_preorder : PreOrder keeps_ok.
Proof. split; [by intros t Ht|]. intros t1 t2 t3 H1 H2 Ht. by apply H2, H1. Qed.

#[export] Instance keeps_ok_frame : Frame keeps_ok (fun _ => True).
Proof.
  split; [apply _|..].
  - intros c row t _ [Hu Hr Hs]. split; [by apply (users_ok_same t)|done..].
  - intros c t _ [Hu Hr Hs]. split; [by apply (users_ok_same t)|done..].
  - intros c t _ [Hu Hr Hs]. split; [by apply (users_ok_same t)|done|]. by apply filter_styles_ok.
  - intros c t [Hu Hr Hs]. split; [by apply (users_ok_same t)|done..].
  - intros x t [Hu Hr Hs]. split; [by apply (users_ok_same t)|done..].
  - intros rtype rid name t _ [Hu Hr Hs]. split; [by apply (users_ok_same t)| |done].
    by apply drop_share_roles.
  - intros id u u' t Hu Ha [Ht Hr Hs]. injection Ha as Hi Hn Ha. split; [|done..].
    apply (put_user_ok id u); try done. destruct (user_admin t Ht) as (i & x & Hx & Hxa).
    destruct (decide (i = id)) as [->|]; [left; congruence|right; by exists i, x].
Qed.

Lemma ok_add_share rtype rid name role t : keeps_ok t (add_share_reply rtype rid name role t).2.
Proof.
  unfold add_share_reply, add_share. rewrite db_bind_assoc, read_all_run.
  destruct (get_user_by_username t (strip name)); [|done]. intros [Hu Hr Hs].
  split; [by apply (users_ok_same t)| |done].
  by apply put_share_roles, normal_role_ok.
Qed.
Lemma ok_remove_share {A} rtype rid name (f : bool -> DB A) t :
  (forall b t', (f b t').2 = t') -> keeps_ok t ((remove_share rtype rid name ≫= f) t).2.
Proof.
  intros Hf. rewrite then_reads by done. unfold remove_share. rewrite read_all_run.
  destruct (tb_shares t !! _); [|done]. intros [Hu Hr Hs]. 
  split; [by apply (users_ok_same t)| |done]. by apply drop_share_roles.
Qed.
Lemma ok_after_check {A B} (check : DB A) (m : A -> DB B) t :
  (check t).2 = t -> (forall a, keeps_ok t (m a t).2) -> keeps_ok t ((check ≫= m) t).2.
Proof.
  intros Ht Hm. rewrite db_bind_run. destruct (check t) as [[e|a] t'] eqn:Hr; cbn [snd] in Ht; subst t';
    [done|apply Hm].
Qed.

Lemma ok_style_effect user t t' : style_effect user t t' -> keeps_ok t t'.
Proof.
  intros He [Hu Hr Hs]. split; [|destruct He; try done|by eapply effect_ok].
  - destruct He; by apply (users_ok_same t).
  - by apply put_share_roles.
  - by apply drop_share_roles.
Qed.

(** Requests that change users only. *)
Lemma ok_users t t' :
  (users_ok t -> users_ok t') -> tb_shares t' = tb_shares t ->
  tb_styles t' = tb_styles t \/ (exists id, tb_styles t' = disown_style id <$> tb_styles t) ->
  keeps_ok t t'.
Proof.
  intros Hu Hs Hst [Htu Htr Hts]. split; [by apply Hu| |].
  - unfold roles_ok. by rewrite Hs.
  - destruct Hst as [->|[id ->]]; [done|by apply disown_styles_ok].
Qed.

(** The pages that remove an editor. *)
Lemma ok_remove_editor base c name user t :
  keeps_ok t (user_config_remove_collection_editor base c name user t).2.
Proof.
  unfold user_config_remove_collection_editor. apply ok_after_check; [apply reads_row_or|]. intros u.
  rewrite read_all_run. destruct (removable t (strip name)); [|done].
  apply ok_after_check; [apply editable_state|]. intros _. by apply ok_remove_share.
Qed.
Lemma ok_remove_map_editor base m name user t :
  keeps_ok t (user_config_remove_map_editor base m name user t).2.
Proof.
  unfold user_config_remove_map_editor. apply ok_after_check; [apply reads_row_or|]. intros u.
  rewrite read_all_run. destruct (removable t (strip name)); [|done].
  apply ok_after_check; [apply reads_row_or|]. intros mid. apply ok_after_check; [apply reads_row_or|].
  intros row. apply ok_after_check; [apply reads_guard_or|]. intros _. by apply ok_remove_share.
Qed.
Lemma ok_admin_remove_editor base id c name user t :
  keeps_ok t (admin_user_remove_collection_editor base id c name user t).2.
Proof.
  unfold admin_user_remove_collection_editor. apply ok_after_check; [apply require_admin_check|]. intros _.
  rewrite read_all_run. destruct (removable t (strip name)); [|done]. apply ok_after_check; [apply owned_state|].
  intros _. by apply ok_remove_share.
Qed.
Lemma ok_admin_remove_map_editor base id m name user t :
  keeps_ok t (admin_user_remove_map_editor base id m name user t).2.
Proof.
  unfold admin_user_remove_map_editor. apply ok_after_check; [apply require_admin_check|]. intros _.
  rewrite read_all_run. destruct (removable t (strip name)); [|done].
  apply ok_after_check; [apply reads_row_or|]. intros mid. apply ok_after_check; [apply reads_row_or|].
  intros row. apply ok_after_check; [apply reads_guard_or|]. intros _. by apply ok_remove_share.
Qed.

Section requests.
Context `{RedisServer} `{PostgresServer} `{Entropy} `{Bcrypt} (cfg : Settings).
Context (normalize_raster : json -> exn + json).
Context (run_inline : PropertyIndex.PropertyIndexPayload -> M unit).
Context (drop_indexes : string -> list string -> M unit) (invalidate_tiles_cache : string -> M unit).
Context (image_to_thumbnail : string -> string -> res string).

(** The forms of the administrator write the users only. *)
Lemma user_posts_elsewhere id f user t :
  let t' := (update_user_post id f user t).2 in
  tb_shares t' = tb_shares t /\ tb_styles t' = tb_styles t.
Proof.
  cbn zeta. unfold update_user_post, require_admin, get_current_user_required, get_user_by_id.
  rewrite db_bind_assoc, row_or_run. destruct user as [a|]; [|done]. destruct (is_admin a); [|done].
  rewrite db_ret_run, read_all_run, row_or_run. destruct (tb_users t !! id) as [u|] eqn:Hu; [|done].
  destruct (_ && _); [done|]. unfold update_user, set_password, get_user_by_id.
  rewrite db_bind_assoc, read_all_run, Hu, db_bind_assoc, write_run, db_ret_run.
  case_decide; [done|]. by rewrite !db_bind_assoc, read_all_run, put_user_same.
Qed.
Lemma create_user_elsewhere f user t :
  let t' := (create_user_post f user t).2 in
  tb_shares t' = tb_shares t /\ tb_styles t' = tb_styles t.
Proof.
  cbn zeta. unfold create_user_post, require_admin, get_current_user_required.
  rewrite db_bind_assoc, row_or_run. destruct user as [u|]; [|done]. destruct (is_admin u); [|done].
  rewrite db_ret_run, read_all_run. repeat (case_decide; [done|]). rewrite then_reads by done.
  unfold create_user. rewrite read_all_run. by case_decide.
Qed.

Context (Hrun : forall p, tables_kept (run_inline p)).
Context (Hdrop : forall c l, tables_kept (drop_indexes c l)).
Context (Hinv : forall c, tables_kept (invalidate_tiles_cache c)).

Lemma handle_ok r user w :
  api_ok (w_tables w) ->
  api_ok (w_tables (handle cfg normalize_raster run_inline drop_indexes invalidate_tiles_cache
                      image_to_thumbnail r user w).2).
Proof.
  change (keeps_ok (w_tables w) (w_tables
    (handle cfg normalize_raster run_inline drop_indexes invalidate_tiles_cache
                      image_to_thumbnail r user w).2)).
  assert (api_ok (w_tables w) -> styles_wf (tb_styles (w_tables w))) as Hwf by by intros [_ _ []].
  destruct r; cbn [handle]; rewrite ?forget_m_tables;
    unfold create_collection, replace_collection, patch_collection, delete_collection,
      user_config_reset_tiles, user_config_delete_tiles, user_config_delete_collection,
      admin_user_reset_tiles, admin_user_delete_tiles, admin_user_delete_collection;
    try (rewrite on_tables_run; cbn [snd w_tables with_tables]).
  - eapply (check_then keeps_ok (fun _ => True)); [apply create_checks_run|]. intros u _. eapply stable_create_row with (R := keeps_ok) (P := fun _ => True); first [apply _|done].
  - eapply (check_then keeps_ok (fun _ => True)); [apply editable_state|]. intros _ _. eapply stable_after_replace with (R := keeps_ok) (P := fun _ => True); first [apply _|done].
  - eapply (check_then keeps_ok (fun _ => True)); [apply patch_checks_run|]. intros _ _. eapply stable_after_patch with (R := keeps_ok) (P := fun _ => True); first [apply _|done].
  - eapply (check_then keeps_ok (fun _ => True)); [apply editable_state|]. intros _ _. eapply stable_after_delete with (R := keeps_ok) (P := fun _ => True); first [apply _|done].
  - rewrite forget_tables. apply ok_after_check; [apply editable_state|]. intros _. apply ok_add_share.
  - apply ok_after_check; [apply editable_state|]. intros _. by apply ok_remove_share.
  - rewrite forget_tables. apply ok_after_check; [apply editable_map_state|]. intros _. apply ok_add_share.
  - apply ok_after_check; [apply editable_map_state|]. intros _. by apply ok_remove_share.
  - rewrite forget_tables. apply ok_after_check; [apply editable_view_state|]. intros _. apply ok_add_share.
  - apply ok_after_check; [apply editable_view_state|]. intros _. apply ok_remove_share. by intros [].
  - intros Hok. eapply ok_style_effect; [|exact Hok]. by apply handle_style_effect, Hwf.
  - rewrite forget_tables. destruct (create_user_elsewhere f user (w_tables w)).
    apply ok_users; [apply create_user_post_ok|done|by left].
  - rewrite forget_tables. destruct (user_posts_elsewhere id f user (w_tables w)).
    apply ok_users; [apply update_user_post_ok|done|by left].
  - rewrite forget_tables. destruct (delete_user_post_run id "" user (w_tables w)) as [->|(u & Hu & Ha & ->)];
      [done|]. apply ok_users; [intros Ht; by eapply drop_user_ok|done|right; by exists id].
  - destruct user as [u|]; [|done]. rewrite forget_m_tables.
    eapply stable_change_password with (R := keeps_ok) (P := fun _ => True); apply _.
  - eapply stable_create_map with (P := fun _ => True), _.
  - eapply stable_save_map with (P := fun _ => True), _.
  - eapply stable_upload_thumbnail with (P := fun _ => True), _.
  - eapply moves_delete_map with (P := fun _ => True), _.
  - rewrite forget_tables. eapply moves_set_nickname with (P := fun _ => True), _.
  - rewrite forget_tables. apply ok_remove_editor.
  - rewrite forget_tables. apply ok_remove_map_editor.
  - eapply (check_then keeps_ok (fun _ => True)); [apply reads_row_or|]. intros u _.
    eapply stable_reset_tiles with (P := fun _ => True), _.
  - eapply (check_then keeps_ok (fun _ => True)); [apply config_check|]. intros u _.
    eapply stable_delete_one with (P := fun _ => True), _.
  - eapply (check_then keeps_ok (fun _ => True)); [apply config_check|]. intros u _.
    eapply stable_delete_owned with (P := fun _ => True); first [apply _|done].
  - eapply (check_then keeps_ok (fun _ => True)); [apply require_admin_check|]. intros u _.
    eapply stable_reset_tiles with (P := fun _ => True), _.
  - eapply (check_then keeps_ok (fun _ => True)); [apply admin_check|]. intros u _.
    eapply stable_delete_one with (P := fun _ => True), _.
  - eapply (check_then keeps_ok (fun _ => True)); [apply admin_check|]. intros u _.
    eapply stable_delete_owned with (P := fun _ => True); first [apply _|done].
  - rewrite forget_tables. apply ok_admin_remove_editor.
  - rewrite forget_tables. apply ok_admin_remove_map_editor.
Qed.

(** ** Sequences of requests *)

(** [SessionMiddleware] gives each request the name its caller logged in with;
    [get_current_user] looks it up. *)
Definition caller (t : tables) (name : option string) : option User :=
  match get_current_user_optional (Some name) None t with inr user => user | inl _ => None end.

Lemma caller_named t name u :
  caller t name = Some u -> exists n, name = Some n /\ get_user_by_username t n = Some u.
Proof.
  unfold caller, get_current_user_optional. cbn [default opt_str id]. case_bool_decide as Hn; [done|].
  cbn [negb]. destruct name as [n|]; [|done]. intros Hu. by exists n.
Qed.

Fixpoint run_api (l : list (option string * request)) (w : world) : world :=
  match l with
  | [] => w
  | (name, r) :: l' =>
      run_api l' (handle cfg normalize_raster run_inline drop_indexes invalidate_tiles_cache
                    image_to_thumbnail r (caller (w_tables w) name) w).2
  end.

Lemma run_api_ok l : forall w, api_ok (w_tables w) -> api_ok (w_tables (run_api l w)).
Proof. induction l as [|[n r] l IH]; intros w Hw; [done|]. cbn [run_api]. by apply IH, handle_ok. Qed.

(** C29. The API keeps its tables in order: after any requests of any callers the users
    are keyed by their ids and have distinct, non-empty names, every share has one of
    the two roles, every collection has at most one default style, and there still
    is an administrator. *)
Theorem api_stays_ok (l : list (option string * request)) (w : world) :
  api_ok (w_tables w) -> api_ok (w_tables (run_api l w)).
Proof. apply run_api_ok. Qed.

(** No sender of a request may edit the collection [c]. *)
Definition none_edits (c : string) (senders : list (option string)) (t : tables) : Prop :=
  forall coll id u, tb_collections t !! c = Some coll -> tb_users t !! id = Some u ->
    Some (username u) ∈ map (fmap strip) senders -> can_edit_collection t coll (Some u) = false.

(** The right of an account depends on what [collection_same] keeps. *)
Lemma same_rights c coll t t' u u' :
  c_id coll = c -> collection_same c t t' -> account u' = account u ->
  can_edit_collection t' coll (Some u') = can_edit_collection t coll (Some u)
  /\ can_see_collection t' coll (Some u') = can_see_collection t coll (Some u).
Proof.
  intros <- (Hc & Hs & _) Ha. injection Ha as Hi Hn Ha.
  unfold can_edit_collection, can_see_collection, get_share_role, owns, admin. by rewrite Ha, Hi, Hn, Hs.
Qed.

Lemma same_account c t t' id u' :
  collection_same c t t' -> tb_users t' !! id = Some u' ->
  exists u, tb_users t !! id = Some u /\ account u' = account u.
Proof.
  intros (_ & _ & Hu) Hu'. specialize (Hu id). rewrite Hu' in Hu.
  destruct (tb_users t !! id) as [u|]; [|done]. exists u. split; [done|]. by apply (inj Some) in Hu.
Qed.

Lemma run_api_same c coll l : forall w,
  api_ok (w_tables w) -> tb_collections (w_tables w) !! c = Some coll -> c_id coll = c ->
  none_edits c (map fst l) (w_tables w) ->
  collection_same c (w_tables w) (w_tables (run_api l w)).
Proof.
  induction l as [|[n r] l IH]; intros w Hok Hc Hid Hno; [done|]. cbn [run_api].
  set (w1 := (handle _ _ _ _ _ _ _ _ _).2).
  assert (collection_same c (w_tables w) (w_tables w1)) as Hw1.
  { eapply handle_same; [done..|apply Hok|done|]. destruct (caller (w_tables w) n) as [u|] eqn:Hu; [|done].
    apply caller_named in Hu as (n' & -> & Hu). apply found_by_name in Hu as [Hn [id Hu]].
    eapply Hno; [done..|]. rewrite Hn. by left. }
  etrans; [exact Hw1|]. apply IH; [by apply handle_ok|by rewrite (proj1 Hw1)|done|].
  intros coll' id u' Hcoll' Hu' Hin. destruct (same_account _ _ _ _ _ Hw1 Hu') as (u & Hu & Ha).
  rewrite (proj1 Hw1), Hc in Hcoll'. injection Hcoll' as <-.
  rewrite (proj1 (same_rights c coll _ _ u u' Hid Hw1 Ha)).
  eapply Hno; [done..|]. injection Ha as _ <- _. by right.
Qed.

(** C28. Rights are not gained: when no sender of any of the requests may edit a
    collection, then after all of them, in any order, its row and its shares are
    what they were, and every account may see and edit it exactly when the account
    could before. *)
Theorem rights_not_gained (c : string) (coll : Collection) (l : list (option string * request))
    (w : world) :
  api_ok (w_tables w) -> tb_collections (w_tables w) !! c = Some coll -> c_id coll = c ->
  none_edits c (map fst l) (w_tables w) ->
  let t := w_tables w in let t' := w_tables (run_api l w) in
  tb_collections t' !! c = Some coll
  /\ (forall n, tb_shares t' !! (RESOURCE_TYPE_COLLECTION, c, n)
               = tb_shares t !! (RESOURCE_TYPE_COLLECTION, c, n))
  /\ forall id u', tb_users t' !! id = Some u' ->
       exists u, tb_users t !! id = Some u /\ username u' = username u
         /\ can_edit_collection t' coll (Some u') = can_edit_collection t coll (Some u)
         /\ can_see_collection t' coll (Some u') = can_see_collection t coll (Some u).
Proof.
  intros Hok Hc Hid Hno t t'. pose proof (run_api_same c coll l w Hok Hc Hid Hno) as Hs.
  split_and!; [by rewrite <-Hc; apply Hs|apply Hs|]. intros id u' Hu'.
  destruct (same_account _ _ _ _ _ Hs Hu') as (u & Hu & Ha). exists u.
  split_and!; [done|by injection Ha|by apply same_rights with c|by apply same_rights with c].
Qed.
End requests.

(** ** Listing the collections *)

(** The [WHERE] of the list is the check of the item. *)
Lemma visible_is_seen t user c :
  api_ok t -> (forall u, user = Some u -> exists id, tb_users t !! id = Some u) ->
  visible t user false c = can_see_collection t c user.
Proof.
  intros [Hu Hr _] Hs. unfold visible, can_see_collection. destruct user as [u|].
  - destruct (Hs u eq_refl) as [id Hid]. pose proof (user_named t Hu id u Hid) as Hn.
    cbn [admin]. destruct (is_admin u); [done|].
    unfold visibility_visible_to_anon, visibility_visible_to_logged.
    destruct (decide (c_visibility c = VISIBILITY_PUBLIC)) as [Hp|Hp].
    { rewrite (bool_decide_eq_true_2 (_ ∈ _)) by (rewrite Hp; set_solver).
      by rewrite (bool_decide_eq_true_2 (_ = _)). }
    rewrite (bool_decide_eq_false_2 (_ = VISIBILITY_PUBLIC)) by done.
    destruct (bool_decide (_ ∈ _)); [done|]. destruct (owns _ _); [done|]. cbn [orb].
    unfold get_share_role. rewrite decide_False by done.
    destruct (tb_shares t !! _) as [r|] eqn:Hsh; [|done]. pose proof (Hr _ _ Hsh) as Hrole.
    rewrite decide_False by (intros ->; set_solver). cbn. by rewrite !bool_decide_eq_true_2 by done.
  - cbn [admin]. unfold visibility_visible_to_anon. by destruct (bool_decide _).
Qed.

Lemma order_by_collection_perm `{CollationLaws} sortby desc l :
  order_by_collection sortby desc l ≡ₚ l.
Proof.
  unfold order_by_collection. repeat case_match; first [apply order_by_perm|apply order_by_time_perm].
Qed.

(** C32. A list shows what one may open: the pages of the list of collections are cut
    from an arrangement of exactly the stored collections that pass the filters and
    that the caller may see, and the total is their number. *)
Theorem listing_is_what_one_sees `{CollationLaws} (lq : ListQuery) (user : option User) (t : tables) :
  api_ok t -> (forall u, user = Some u -> exists id, tb_users t !! id = Some u) ->
  lq_only_public lq = false ->
  exists found,
    found ≡ₚ List.filter (fun c => selected t lq c && can_see_collection t c user)
               (map_to_list (tb_collections t)).*2
    /\ list_collections lq user t =
       (let page := drop (lq_offset lq) found in
        match lq_limit lq with Some n => take n page | None => page end, length found).
Proof.
  intros Hok Hs Hpub. set (rows := List.filter (matches t lq user) (map_to_list (tb_collections t)).*2).
  exists (order_by_collection (lq_sortby lq) (lq_sortdesc lq) rows). split.
  - rewrite order_by_collection_perm. unfold rows. erewrite filter_ext; [reflexivity|]. intros c.
    unfold matches. by rewrite Hpub, visible_is_seen.
  - unfold list_collections. fold rows. f_equal. by rewrite order_by_collection_perm.
Qed.

(** ** An example *)

Definition root : User := mkUser 3 "root" true "x" false None.

(** Two users and an administrator, with a private collection of the first. *)
Definition api_tables : tables :=
  with_users (style_tables [demo_collection "roads" 1 "private" "vector"] []) 4
    {[1 := ana; 2 := bo; 3 := root]}.
Definition api_world : world := with_tables empty_world api_tables.

Lemma api_tables_users id u :
  tb_users api_tables !! id = Some u ->
  (id = 1 /\ u = ana) \/ (id = 2 /\ u = bo) \/ (id = 3 /\ u = root).
Proof.
  cbn [api_tables with_users tb_users].
  intros Hu. apply lookup_insert_Some in Hu as [[<- <-]|[_ Hu]]; [tauto|].
  apply lookup_insert_Some in Hu as [[<- <-]|[_ Hu]]; [tauto|].
  apply lookup_singleton_Some in Hu as [<- <-]. tauto.
Qed.
Ltac users_of H := apply api_tables_users in H as [[-> ->]|[[-> ->]|[-> ->]]].

Lemma api_tables_ok : api_ok api_tables.
Proof.
  assert (tb_shares api_tables = ∅ /\ tb_styles api_tables = ∅) as [Hsh Hst] by done.
  split; [|unfold roles_ok; rewrite Hsh; by intros k r; rewrite lookup_empty|rewrite Hst; split].
  - split.
    + intros id u Hu. by users_of Hu.
    + intros id u Hu. by users_of Hu.
    + intros id u Hu. by users_of Hu.
    + intros i j u v Hu Hv. by users_of Hu; users_of Hv.
    + by exists 3, root.
  - intros c s st. by rewrite lookup_empty.
  - intros c s s' st st' _. by rewrite lookup_empty.
Qed.

Definition no_indexes (c : string) (l : list string) : M unit := mret tt.

Definition same_image (data content_type : string) : res string := inr data.

Definition new_collection (c : string) : CollectionCreate :=
  mkCollectionCreate c None None None None None "vector" None None.

Definition intruder : list (option string * request) :=
  [(Some "bo", DeleteCollection "roads"); (Some "bo", ShareCollection "roads" "bo" "editor");
   (None, DeleteCollection "roads"); (Some "bo", CreateCollection (new_collection "rivers"));
   (Some "bo", ShareCollection "rivers" "ana" "viewer")].

Definition run_example (l : list (option string * request)) : world :=
  @run_api reference_server reference_postgres reference_entropy plain_bcrypt default_settings
    any_spec (fun _ => mret tt) no_indexes (fun _ => mret tt) same_image l api_world.

Lemma api_stays_ok_witness :
  api_ok (w_tables (run_example intruder))
  /\ is_Some (tb_collections (w_tables (run_example intruder)) !! "rivers").
Proof.
  split; [|vm_compute; by eexists].
  apply (@api_stays_ok reference_server reference_postgres reference_entropy plain_bcrypt
    default_settings any_spec (fun _ => mret tt) no_indexes (fun _ => mret tt) same_image); try done.
  exact api_tables_ok.
Defined.

Lemma nobody_edits_roads : none_edits "roads" (map fst intruder) api_tables.
Proof.
  intros coll id u Hc Hu Hin.
  assert (coll = demo_collection "roads" 1 "private" "vector") as ->
    by by injection Hc as <-.
  users_of Hu; [set_solver|done|set_solver].
Qed.

Lemma rights_not_gained_witness :
  let t' := w_tables (run_example intruder) in
  tb_collections t' !! "roads" = Some (demo_collection "roads" 1 "private" "vector")
  /\ (forall n, tb_shares t' !! (RESOURCE_TYPE_COLLECTION, "roads", n)
               = tb_shares api_tables !! (RESOURCE_TYPE_COLLECTION, "roads", n))
  /\ forall id u', tb_users t' !! id = Some u' ->
       exists u, tb_users api_tables !! id = Some u /\ username u' = username u
         /\ can_edit_collection t' (demo_collection "roads" 1 "private" "vector") (Some u')
            = can_edit_collection api_tables (demo_collection "roads" 1 "private" "vector") (Some u)
         /\ can_see_collection t' (demo_collection "roads" 1 "private" "vector") (Some u')
            = can_see_collection api_tables (demo_collection "roads" 1 "private" "vector") (Some u).
Proof.
  apply (@rights_not_gained reference_server reference_postgres reference_entropy plain_bcrypt
    default_settings any_spec (fun _ => mret tt) no_indexes (fun _ => mret tt) same_image
    (fun _ => kept_ret tt) (fun _ _ => kept_ret tt) (fun _ => kept_ret tt) "roads"
    (demo_collection "roads" 1 "private" "vector") intruder api_world);
    [exact api_tables_ok|reflexivity|reflexivity|exact nobody_edits_roads].
Defined.

Lemma listing_is_what_one_sees_witness :
  exists found,
    found ≡ₚ List.filter (fun c => selected api_tables (mkListQuery None None None false (Some 10%nat) 0 false false None) c
                                   && can_see_collection api_tables c (Some ana))
               (map_to_list (tb_collections api_tables)).*2
    /\ @list_collections byte_order (mkListQuery None None None false (Some 10%nat) 0 false false None)
         (Some ana) api_tables = (take 10 (drop 0 found), length found).
Proof.
  apply (@listing_is_what_one_sees byte_order byte_order_laws
    (mkListQuery None None None false (Some 10%nat) 0 false false None) (Some ana) api_tables);
    [exact api_tables_ok|intros u [= <-]; by exists 1|reflexivity].
Defined.

(** ** What outlives its resource *)

(** A share outlives its collection: whoever creates the id again shares it with the
    users of the old one. *)
Theorem share_outlives_collection :
  let t' := w_tables (run_example
    [(Some "ana", ShareCollection "roads" "bo" "editor"); (Some "ana", DeleteCollection "roads");
     (Some "root", CreateCollection (new_collection "roads"))]) in
  (fun coll => (c_owner_id coll, can_edit_collection t' coll (Some bo)))
    <$> tb_collections t' !! "roads" = Some (Some 3, true).
Proof. by vm_compute. Qed.

(** A share outlives its user: a new user of the name has the rights of the old. *)
Theorem share_outlives_user :
  let t' := w_tables (run_example
    [(Some "ana", ShareCollection "roads" "bo" "editor"); (Some "root", DeleteUser 2);
     (Some "root", CreateUser (mkUserForm "" "bo" "secret" false true))]) in
  (fun coll => can_edit_collection t' coll (tb_users t' !! 4)) <$> tb_collections t' !! "roads"
  = Some true.
Proof. by vm_compute. Qed.

(** A composite may hold itself: the members are not checked when the request also
    changes the type, nor by a replacement. *)
Theorem composite_of_itself :
  let t' := w_tables (run_example
    [(Some "ana", PatchCollection "roads"
        (mkCollectionPatch None None None None None None None (Some (Some "composite"))
           (Some (Some ["roads"])) None))]) in
  (fun coll => (c_type coll, c_composite_members coll)) <$> tb_collections t' !! "roads"
  = Some ("composite", Some (JList [JObj [("collection_id", JStr "roads")]])).
Proof. by vm_compute. Qed.
