(* ===== verification/PropertyFilters.v ===== *)
(** * Property filters (app/utils/property_filters.py, app/utils/property_filter.py,
    app/db/feature_property_filters.py)

    The query parameters of the item lists become conditions on the rows of
    [features].  A condition is the WHERE clause SQLAlchemy is given; PostgreSQL
    evaluates it, so the meaning of texts, numbers and geometries on the server is
    the class [PostGIS].  [like_esc] is the documented matching of LIKE. *)

From S2P Require Import Prelude PyTime Redis Postgres World Json CopyFormat Subdivide.

(** ** utils/property_filters.py *)

Inductive PropertyOp := EQ | NE | GT | GTE | LT | LTE | LIKE | ILIKE.

#[export] Instance PropertyOp_eq_dec : EqDecision PropertyOp.
Proof. solve_decision. Defined.

Record PropertyFilter := mkFilter { pf_key : string; pf_op : PropertyOp; pf_value : string }.

#[export] Instance PropertyFilter_eq_dec : EqDecision PropertyFilter.
Proof. solve_decision. Defined.

Definition op_values : list (string * PropertyOp) :=
  [("eq", EQ); ("ne", NE); ("gt", GT); ("gte", GTE); ("lt", LT); ("lte", LTE);
   ("like", LIKE); ("ilike", ILIKE)].
Definition op_text (op : PropertyOp) : string :=
  match op with
  | EQ => "eq" | NE => "ne" | GT => "gt" | GTE => "gte" | LT => "lt" | LTE => "lte"
  | LIKE => "like" | ILIKE => "ilike"
  end.

(** ASCII letters, digits and the underscore. *)
Definition alnum_ (c : Ascii.ascii) : bool :=
  let n := Ascii.nat_of_ascii c in
  is_digit c || ((65 <=? n)%nat && (n <=? 90)%nat) || ((97 <=? n)%nat && (n <=? 122)%nat)
  || bool_decide (c = "_"%char).

(** One entry of the parameter. *)
Definition parse_filter (s : string) : option PropertyFilter :=
  let s := strip s in
  if decide (s = "") then None
  else
    match splitn ":" 2 s with
    | [k; o; v] =>
        let key := strip k in
        if decide (key = "") then None
        else (fun op => mkFilter key op v) <$> dict_get (lower (strip o)) op_values
    | _ => None
    end.

Definition parse_filter_param (filters : list string) : list PropertyFilter :=
  omap parse_filter filters.

(** ** utils/property_filter.py *)

(** The replacements that make the wildcards of LIKE literal. *)
Definition escape_like (s : string) : string :=
  replace_char "_" "\_" (replace_char "%" "\%" (replace_char bs "\\" s)).

(** [(pattern, use_like)] *)
Definition property_value_to_like_pattern (value : string) : string * bool :=
  if contains "*" value then (replace_char "*" "%" (escape_like value), true) else (value, false).

(** ** Conditions *)

Record envelope := Envelope { env_minx : string; env_miny : string; env_maxx : string; env_maxy : string }.

Inductive num_op := NGt | NGte | NLt | NLte.

Inductive cond :=
  | IdEq (id : string)
  | IdIn (ids : list string)
  | IdAfter (id : string)                            (* id > :last *)
  | KeyAfter (id : string) (part : Z)                (* id > :i OR (id = :i AND part_index > :p) *)
  | InBox (e : envelope)                             (* geometry && e AND ST_Intersects *)
  | CreatedFrom (t : datetime)
  | CreatedTo (t : datetime)
  | TextEq (key value : string)                      (* properties ->> key = value *)
  | TextNe (key value : string)
  | TextCmp (op : num_op) (key value : string)
  | NumCmp (op : num_op) (key value : string)        (* CAST(properties ->> key AS FLOAT) *)
  | TextLike (key pattern : string)                  (* IS NOT NULL AND LIKE ... ESCAPE *)
  | TextILike (key pattern : string)
  | HasEq (key value : string)                       (* properties ? key AND ... = value *)
  | AnyHasEq (keys : list string) (value : string)
  | FlatILike (pattern : string)                     (* properties_flat *)
  | NotOfJobs (jobs : list string).                  (* bulk_import_job_id IS NULL OR not in *)

(** [float(value)] succeeds: a decimal literal or a name of an infinity or of NaN,
    between spaces. *)
Fixpoint float_digits (after_digit : bool) (s : string) : string * bool :=
  match s with
  | EmptyString => (s, after_digit)
  | String c s' =>
      if is_digit c then float_digits true s'
      else if after_digit && bool_decide (c = "_"%char) then
        match s' with
        | String d _ => if is_digit d then float_digits false s' else (s, true)
        | EmptyString => (s, true)
        end
      else (s, after_digit)
  end.
Definition float_exponent (s : string) : bool :=
  match s with
  | EmptyString => true
  | String c s' =>
      if decide (c = "e"%char) then
        let s' := match s' with
                  | String d r => if decide (d = "+"%char \/ d = "-"%char) then r else s'
                  | EmptyString => s'
                  end in
        match float_digits false s' with (EmptyString, true) => true | _ => false end
      else false
  end.
Definition float_number (s : string) : bool :=
  let (r, int_part) := float_digits false s in
  match r with
  | String "." r' =>
      let (r'', frac) := float_digits false r' in (int_part || frac) && float_exponent r''
  | _ => int_part && float_exponent r
  end.
Definition py_float_ok (value : string) : bool :=
  let s := lower (strip value) in
  let s := match s with
           | String c r => if decide (c = "+"%char \/ c = "-"%char) then r else s
           | EmptyString => s
           end in
  bool_decide (s ∈ ["inf"; "infinity"; "nan"]) || float_number s.

Example py_float_ex :
  map py_float_ok [" -1.5e3 "; "1_000"; ".5"; "5."; "+inf"; "NaN"; "1__0"; "."; "e5"; "12a"; ""]
  = [true; true; true; true; true; true; false; false; false; false; false].
Proof. by vm_compute. Qed.

(** ** db/feature_property_filters.py *)

Definition property_filter_clause (key value : string) : cond :=
  let (pattern, use_like) := property_value_to_like_pattern value in
  if use_like then TextLike key pattern else TextEq key value.

Definition compare_clause (op : num_op) (key value : string) : cond :=
  if py_float_ok value then NumCmp op key value else TextCmp op key value.

Definition structured_filter_clause (f : PropertyFilter) : cond :=
  let key := pf_key f in let value := pf_value f in
  match pf_op f with
  | EQ => TextEq key value
  | NE => TextNe key value
  | LIKE => TextLike key value
  | ILIKE => TextILike key value
  | GT => compare_clause NGt key value
  | GTE => compare_clause NGte key value
  | LT => compare_clause NLt key value
  | LTE => compare_clause NLte key value
  end.

(** The pattern of a full-text search. *)
Definition flat_pattern (q : string) : string := "%" +:+ escape_like (strip q) +:+ "%".

(** ** LIKE with the escape character [\]

    [%] matches any text and [_] any one character; the escape character makes the
    next one literal, and a pattern may not end with it. *)

(** The rest of a text after the other bytes of a character. *)
Fixpoint skip_cont (s : string) : string :=
  match s with
  | String c s' => if is_cont c then skip_cont s' else s
  | EmptyString => EmptyString
  end.

Fixpoint like_esc (p s : string) : bool :=
  match p with
  | EmptyString => match s with EmptyString => true | _ => false end
  | String a p' =>
      if decide (a = bs) then
        match p', s with
        | String b p'', String c s' => bool_decide (b = c) && like_esc p'' s'
        | _, _ => false
        end
      else if decide (a = "%"%char) then
        (fix any (s : string) : bool :=
           like_esc p' s || match s with EmptyString => false | String _ s' => any s' end) s
      else if decide (a = "_"%char) then
        match s with String _ s' => like_esc p' (skip_cont s') | EmptyString => false end
      else
        match s with String b s' => bool_decide (a = b) && like_esc p' s' | EmptyString => false end
  end.

Fixpoint ends_with_escape (p : string) : bool :=
  match p with
  | EmptyString => false
  | String a p' =>
      if decide (a = bs) then
        match p' with String _ p'' => ends_with_escape p'' | EmptyString => true end
      else ends_with_escape p'
  end.

(** What a filter value means: [*] stands for any text, the rest for itself. *)
Fixpoint glob (p s : string) : bool :=
  match p with
  | EmptyString => match s with EmptyString => true | _ => false end
  | String a p' =>
      if decide (a = "*"%char) then
        (fix any (s : string) : bool :=
           glob p' s || match s with EmptyString => false | String _ s' => any s' end) s
      else
        match s with String b s' => bool_decide (a = b) && glob p' s' | EmptyString => false end
  end.

(** ** Lemmas *)

Definition like_char (c : Ascii.ascii) : string :=
  if decide (c = bs) then "\\" else if decide (c = "%"%char) then "\%"
  else if decide (c = "_"%char) then "\_" else if decide (c = "*"%char) then "%" else String c "".

Lemma like_pattern_cons c v :
  replace_char "*" "%" (escape_like (String c v))
  = like_char c +:+ replace_char "*" "%" (escape_like v).
Proof.
  change (String c v) with (String c "" +:+ v). unfold escape_like. rewrite !replace_char_app.
  f_equal. by destruct c as [[] [] [] [] [] [] [] []].
Qed.

Lemma like_any p s :
  like_esc (String "%" p) s
  = like_esc p s || match s with EmptyString => false | String _ s' => like_esc (String "%" p) s' end.
Proof. by destruct s. Qed.
Lemma glob_any p s :
  glob (String "*" p) s
  = glob p s || match s with EmptyString => false | String _ s' => glob (String "*" p) s' end.
Proof. by destruct s. Qed.
Lemma like_plain a p s :
  a <> bs -> a <> "%"%char -> a <> "_"%char ->
  like_esc (String a p) s
  = match s with String b s' => bool_decide (a = b) && like_esc p s' | EmptyString => false end.
Proof. intros. cbn [like_esc]. by rewrite !decide_False by done. Qed.
Lemma like_literal b p s :
  like_esc (String bs (String b p)) s
  = match s with String c s' => bool_decide (b = c) && like_esc p s' | EmptyString => false end.
Proof. done. Qed.
Lemma glob_plain a p s :
  a <> "*"%char ->
  glob (String a p) s
  = match s with String b s' => bool_decide (a = b) && glob p s' | EmptyString => false end.
Proof. intros. cbn [glob]. by rewrite decide_False by done. Qed.

Lemma like_glob v : forall s, like_esc (replace_char "*" "%" (escape_like v)) s = glob v s.
Proof.
  induction v as [|c v IH]; intros s; [done|]. rewrite like_pattern_cons. unfold like_char.
  repeat case_decide; subst; rewrite ?app_str_cons, ?app_str_nil_l.
  4: { induction s as [|d s IHs]; rewrite like_any, glob_any, IH; [done|]. by rewrite IHs. }
  all: rewrite ?like_literal, ?like_plain, glob_plain by done.
  all: destruct s as [|d s]; [done|]; by rewrite IH.
Qed.

Lemma contains_cons c v : contains "*" (String c v) = bool_decide (c = "*"%char) || contains "*" v.
Proof.
  cbn. rewrite andb_true_r. f_equal. apply bool_decide_ext. naive_solver.
Qed.

Lemma glob_literal v : contains "*" v = false -> forall s, glob v s = bool_decide (s = v).
Proof.
  induction v as [|c v IH]; intros Hv s; [by destruct s|].
  rewrite contains_cons in Hv. apply orb_false_iff in Hv as [Hc%bool_decide_eq_false_1 Hv].
  cbn [glob]. rewrite decide_False by done. destruct s as [|d s]; [done|].
  rewrite (IH Hv). apply eq_true_iff_eq. rewrite andb_true_iff, !bool_decide_eq_true. naive_solver.
Qed.

(** What a pattern may hold, the full-text search stays literal. *)
Lemma like_escape_literal q : contains "*" q = false -> forall s,
  like_esc (escape_like q) s = bool_decide (s = q).
Proof.
  intros Hq s. rewrite <-glob_literal, <-like_glob by done. f_equal.
  induction q as [|c q IH]; [done|].
  rewrite contains_cons in Hq. apply orb_false_iff in Hq as [Hc%bool_decide_eq_false_1 Hq].
  rewrite like_pattern_cons, <-IH by done. change (String c q) with (String c "" +:+ q) at 1.
  unfold escape_like at 1. rewrite !replace_char_app. f_equal.
  by destruct c as [[] [] [] [] [] [] [] []].
Qed.

Lemma ends_with_escape_app p s : ends_with_escape p = false -> ends_with_escape (p +:+ s) = ends_with_escape s.
Proof.
  remember (String.length p) as n eqn:Hn. revert p Hn.
  induction (lt_wf n) as [n _ IH]; intros [|a p] -> Hp; [done|]. rewrite app_str_cons. cbn in Hp |- *.
  case_decide as Ha.
  - destruct p as [|b p]; [done|]. rewrite app_str_cons. eapply IH; [|done|done]. cbn. lia.
  - eapply IH; [|done|done]. cbn. lia.
Qed.
