(* ===== verification/FeatureRows.v ===== *)
(** * The rows of [features] and the queries of app/crud/features.py

    A row of [Postgres.frow] keeps its geometry, properties, import job and
    creation time as one text; [part_of] reads them.  PostGIS, the JSON functions
    and the collation of the server are the class [PostGIS].  [fsql] has one
    constructor per statement of app/crud/features.py; the server that runs them is
    the parameter [fexec] of [FeatureServer], and [frun] is the documented result.
    The laws ask for that result where the standard determines it: not for a query
    in which a condition fails on a row of the collection, and up to the order and
    the choice of rows that a query without ORDER BY, or with ties, leaves open. *)

From stdpp Require Import sorting.
From S2P Require Import Prelude PyTime Redis Postgres World Database Json CopyFormat Subdivide.
From S2P Require Import PropertyFilters.

(** ** Rows *)

Record frow_part := Part {
  p_id : string;
  p_collection : string;
  p_index : Z;
  p_geom : option string;              (* hexadecimal EWKB *)
  p_props : option json;
  p_job : option string;
  p_created : Z;
  p_updated : Z
}.

Definition time_of (s : option string) : Z :=
  match s ≫= fromisoformat with Some t => dt_instant t | None => 0 end.

Definition part_of (r : frow) : frow_part :=
  match map copy_field (copy_fields (r_rest r)).1 with
  | [g; p; j; t] =>
      Part (r_id r) (r_collection r) (r_part r) g (p ≫= loads) j (time_of t) (r_updated r)
  | _ => Part (r_id r) (r_collection r) (r_part r) None None None 0 (r_updated r)
  end.

Definition opt_text (s : option string) : cell := match s with Some s => CStr s | None => CNone end.

(** The row an INSERT of the API stores. *)
Definition new_row (id c : string) (i : Z) (g : option string) (props : sql_param)
    (job : option string) (now : datetime) : frow :=
  Row id c i (dt_instant now)
    (encode_copy_row [opt_text g; match props with PText s => CStr s | _ => CNone end;
                      opt_text job; CStr (isoformat now)]).

Definition parts_of (db : database) (c : string) : list frow_part := map part_of (live_rows db c).

(** ** The server's functions *)

Class PostGIS := {
  pg_le : string -> string -> bool;              (* the collation of texts *)
  pg_hits : string -> envelope -> bool;          (* geometry && envelope AND ST_Intersects *)
  pg_contains : string -> string * string -> bool; (* ST_Intersects with a point *)
  pg_text : json -> string;                      (* ->> of a number, an array or an object *)
  pg_flat : json -> string;                      (* jsonb_flat_text *)
  pg_lower : string -> string;
  pg_is_float : string -> bool;                  (* CAST(... AS FLOAT) succeeds *)
  pg_num : num_op -> string -> string -> bool;   (* comparisons of floats *)
  pg_geojson : string -> json;                   (* ST_AsGeoJSON *)
  pg_union : list string -> option string;       (* ST_AsText(ST_Union(...)) *)
  pg_extent : list string -> option (json * json * json * json);
  pg_envelope : list string -> option json;      (* ST_AsGeoJSON(ST_Envelope(ST_Extent)) *)
  pg_force2d : string -> option string;          (* ST_Force2D(ST_GeomFromText(t, 4326)) *)
  pg_subdivide : string -> Z -> list string
}.

Class PostGISLaws `{PostGIS} : Prop := {
  pg_le_refl x : pg_le x x = true;
  pg_le_total x y : pg_le x y = true \/ pg_le y x = true;
  pg_le_trans x y z : pg_le x y = true -> pg_le y z = true -> pg_le x z = true;
  pg_le_antisym x y : pg_le x y = true -> pg_le y x = true -> x = y
}.

Section conditions.
Context `{PostGIS}.

(** [properties ->> key] *)
Definition json_text (j : json) : option string :=
  match j with
  | JNull => None
  | JStr s => Some s
  | JBool b => Some (if b then "true" else "false")
  | JInt z => Some (str_of_Z z)
  | JFloat _ | JList _ | JObj _ => Some (pg_text j)
  end.
Definition prop (p : frow_part) (key : string) : option json :=
  match p_props p with Some (JObj m) => dict_get key m | _ => None end.
Definition prop_text (p : frow_part) (key : string) : option string := prop p key ≫= json_text.

Definition pg_lt (x y : string) : bool := negb (pg_le y x).
Definition text_cmp (op : num_op) (x y : string) : bool :=
  match op with NGt => pg_lt y x | NGte => pg_le y x | NLt => pg_lt x y | NLte => pg_le x y end.

Definition has_eq (p : frow_part) (key value : string) : bool :=
  bool_decide (prop_text p key = Some value).

(** The condition is true of the row. *)
Definition holds (p : frow_part) (c : cond) : bool :=
  match c with
  | IdEq id => bool_decide (p_id p = id)
  | IdIn ids => bool_decide (p_id p ∈ ids)
  | IdAfter id => pg_lt id (p_id p)
  | KeyAfter id i => pg_lt id (p_id p) || (bool_decide (p_id p = id) && (i <? p_index p))
  | InBox e => match p_geom p with Some g => pg_hits g e | None => false end
  | CreatedFrom t => dt_instant t <=? p_created p
  | CreatedTo t => p_created p <=? dt_instant t
  | TextEq key value | HasEq key value => has_eq p key value
  | TextNe key value => match prop_text p key with Some s => negb (bool_decide (s = value)) | None => false end
  | TextCmp op key value => match prop_text p key with Some s => text_cmp op s value | None => false end
  | NumCmp op key value => match prop_text p key with Some s => pg_num op s value | None => false end
  | TextLike key pattern => match prop_text p key with Some s => like_esc pattern s | None => false end
  | TextILike key pattern =>
      match prop_text p key with Some s => like_esc (pg_lower pattern) (pg_lower s) | None => false end
  | AnyHasEq keys value => existsb (fun key => has_eq p key value) keys
  | FlatILike pattern =>
      match p_props p with
      | Some j => like_esc (pg_lower pattern) (pg_lower (pg_flat j))
      | None => false
      end
  | NotOfJobs jobs => match p_job p with Some j => negb (bool_decide (j ∈ jobs)) | None => true end
  end.

(** The server raises when it evaluates the condition on the row. *)
Definition fails (p : frow_part) (c : cond) : bool :=
  match c with
  | NumCmp _ key _ => match prop_text p key with Some s => negb (pg_is_float s) | None => false end
  | TextLike key pattern | TextILike key pattern =>
      match prop_text p key with Some _ => ends_with_escape pattern | None => false end
  | FlatILike pattern => match p_props p with Some _ => ends_with_escape pattern | None => false end
  | _ => false
  end.

Definition selects (w : list cond) (p : frow_part) : bool := forallb (holds p) w.
Definition breaks (w : list cond) (p : frow_part) : bool := existsb (fails p) w.

Definition selected (w : list cond) (l : list frow_part) : list frow_part := List.filter (selects w) l.
End conditions.

(** ** Statements *)

(** A part, as the client reads it. *)
Record part_row := PartRow {
  pr_id : string;
  pr_collection : string;
  pr_index : Z;
  pr_geojson : option json;
  pr_props : option json;
  pr_created : Z;
  pr_updated : Z
}.

(** A feature grouped by the server: [lr_wkt] is the union, [lr_box] the extent. *)
Record logical_row := LogicalRow {
  lr_id : string;
  lr_collection : string;
  lr_wkt : option string;
  lr_box : option (json * json * json * json);
  lr_geojson : option json;
  lr_props : option json;
  lr_created : Z;
  lr_updated : Z
}.

#[warnings="-register-all"]
Inductive fsql : Type -> Type :=
  | CountIds (c : string) (w : list cond) : fsql Z
  | PageById (c : string) (w : list cond) (desc : bool) (lim off : Z) : fsql (list string)
  | FirstIds (c : string) (w : list cond) (desc : bool) (fetch lim off : Z) : fsql (list string)
  | PageByTime (c : string) (w : list cond) (desc : bool) (lim off : Z) : fsql (list string)
  | PageByTimeOnly (c : string) (w : list cond) (desc : bool) (lim off : Z) : fsql (list string)
  | PageByAlias (c : string) (w : list cond) (key : string) (desc : bool) (lim off : Z) : fsql (list string)
  | AnyIds (c : string) (w : list cond) (lim : Z) : fsql (list string)
  | IdsAtPoint (c : string) (point : string * string) : fsql (option string)
  | PartsOf (c : string) (ids : list string) (w : list cond) : fsql (list part_row)
  | NextParts (c : string) (w : list cond) (lim : Z) : fsql (list part_row)
  | NextIds (c : string) (w : list cond) (lim : Z) : fsql (list string)
  | Logical (c id : string) (w : list cond) : fsql (option logical_row)
  | AllLogical (c : string) : fsql (list logical_row)
  | Boxes (c : string) (ids : list string) (w : list cond) : fsql (list logical_row)
  | Envelopes (c : string) : fsql (list logical_row)
  | PropertyKeys (c : string) (sample lim : Z) : fsql (list string)
  | DeleteFeature (c id : string) : fsql Z
  | InsertSubdivided (id c : string) (wkt : option string) (props : sql_param) (now : datetime)
      (max_vertices : Z) : fsql unit
  | InsertParts (id c : string) (values : list (Z * nat * string)) (props : sql_param)
      (now : datetime) : fsql unit
  | AddFeatureCount (c : string) (d : Z) : fsql unit          (* feature_count + d *)
  | SubFeatureCount (c : string) (d : Z) : fsql unit.         (* greatest(0, feature_count - d) *)

(** ** Documented results *)

Section reference.
Context `{PostGIS}.

Definition sort_ids (desc : bool) (l : list string) : list string :=
  let l := merge_sort (fun x y => Is_true (pg_le x y)) l in if desc then reverse l else l.
Definition page {A} (lim off : Z) (l : list A) : list A := take (Z.to_nat lim) (drop (Z.to_nat off) l).

Definition distinct_ids (l : list frow_part) : list string := remove_dups (map p_id l).
Definition of_id (id : string) (l : list frow_part) : list frow_part :=
  List.filter (fun p => bool_decide (p_id p = id)) l.

Definition key_le (x y : string * Z) : bool :=
  pg_lt x.1 y.1 || (bool_decide (x.1 = y.1) && (x.2 <=? y.2)).
Definition part_key (p : frow_part) : string * Z := (p_id p, p_index p).
Definition by_key (l : list frow_part) : list frow_part :=
  merge_sort (fun x y => Is_true (key_le (part_key x) (part_key y))) l.

Definition zmin (l : list Z) : Z := match l with [] => 0 | x :: l => foldr Z.min x l end.
Definition zmax (l : list Z) : Z := match l with [] => 0 | x :: l => foldr Z.max x l end.

Definition created_of (l : list frow_part) (id : string) : Z := zmin (map p_created (of_id id l)).
Definition time_le (x y : Z * string) : bool :=
  (x.1 <? y.1) || ((x.1 =? y.1) && pg_le x.2 y.2).
Definition by_time (desc : bool) (l : list frow_part) : list string :=
  let ks := merge_sort (fun x y => Is_true (time_le x y))
              (map (fun id => (created_of l id, id)) (distinct_ids l)) in
  map snd (if desc then reverse ks else ks).

Definition api_row (p : frow_part) : part_row :=
  PartRow (p_id p) (p_collection p) (p_index p) (pg_geojson <$> p_geom p) (p_props p)
    (p_created p) (p_updated p).

(** [(array_agg(properties ORDER BY part_index))\[1\]] *)
Definition first_props (l : list frow_part) : option json := head (by_key l) ≫= p_props.

Definition logical (l : list frow_part) (id c : string) : logical_row :=
  let ps := of_id id l in
  let geoms := omap p_geom ps in
  LogicalRow id c (pg_union geoms) (pg_extent geoms) (pg_envelope geoms) (first_props ps)
    (zmin (map p_created ps)) (zmax (map p_updated ps)).

(** The rows of an INSERT, and the trigger on [features]. *)
Definition touch (c : string) (f : option Z -> option Z) (db : database) : database :=
  set_collections db
    (alter (fun r => CollRow (feature_count r) (f (features_last_updated_at r))) c (db_collections db)).
Definition greatest (t : Z) (x : option Z) : option Z :=
  Some (match x with Some y => Z.max y t | None => t end).

Fixpoint insert_touched (db : database) (l : list frow) : sql_error + database :=
  match l with
  | [] => inr db
  | r :: l' =>
      match insert_row db r with
      | inl e => inl e
      | inr db' => insert_touched (touch (r_collection r) (greatest (r_updated r)) db') l'
      end
  end.

Definition keep_rows (f : frow -> bool) (c : string) (db : database) : database :=
  match db_parts db !! c with
  | Some name => set_rows db name (List.filter f (rows_of db name))
  | None => set_default db (List.filter f (db_default db))
  end.
Definition is_feature (c id : string) (r : frow) : bool :=
  bool_decide (r_collection r = c) && bool_decide (r_id r = id).
Definition delete_feature_rows (c id : string) (db : database) : database :=
  let db' := keep_rows (fun r => negb (is_feature c id r)) c db in
  if decide (List.filter (is_feature c id) (live_rows db c) = []) then db'
  else touch c (fun _ => max_updated (live_rows db' c)) db'.

Definition parse_error (t : string) : sql_error := CheckViolation ("parse error - invalid geometry: " +:+ t).

Definition subdivided_rows (id c : string) (wkt : option string) (props : sql_param) (now : datetime)
    (max_vertices : Z) : sql_error + list frow :=
  if is_empty_or_null_wkt wkt then inr [new_row id c 0 None props None now]
  else
    match pg_force2d (opt_str wkt) with
    | None => inl (parse_error (opt_str wkt))
    | Some g =>
        inr (imap (fun i g => new_row id c (Z.of_nat i) (Some g) props None now)
               (pg_subdivide g max_vertices))
    end.

Fixpoint part_rows (id c : string) (values : list (Z * nat * string)) (props : sql_param)
    (now : datetime) : sql_error + list frow :=
  match values with
  | [] => inr []
  | (i, _, w) :: values' =>
      match pg_force2d w with
      | None => inl (parse_error w)
      | Some g =>
          match part_rows id c values' props now with
          | inl e => inl e
          | inr l => inr (new_row id c i (Some g) props None now :: l)
          end
      end
  end.

Definition insert_result (db : database) (l : sql_error + list frow) : (sql_error + unit) * database :=
  match l with inl e => (inl e, db) | inr l => run_unit db (insert_touched db l) end.

Definition add_count (f : Z -> Z) (c : string) (db : database) : database :=
  set_collections db
    (alter (fun r => CollRow (f (feature_count r)) (features_last_updated_at r)) c (db_collections db)).

Definition json_keys (j : option json) : list string :=
  match j with Some (JObj m) => map fst m | _ => [] end.

Definition frun {A} (q : fsql A) (db : database) : (sql_error + A) * database :=
  match q with
  | CountIds c w => (inr (Z.of_nat (length (distinct_ids (selected w (parts_of db c))))), db)
  | PageById c w desc lim off =>
      (inr (page lim off (sort_ids desc (distinct_ids (selected w (parts_of db c))))), db)
  | FirstIds c w desc fetch lim off =>
      (inr (page lim off
              (take (Z.to_nat fetch) (sort_ids desc (distinct_ids (selected w (parts_of db c)))))), db)
  | PageByTime c w desc lim off | PageByTimeOnly c w desc lim off =>
      (inr (page lim off (by_time desc (selected w (parts_of db c)))), db)
  | PageByAlias _ _ _ _ _ _ => (inl (UndefinedColumn "props"), db)
  | AnyIds c w lim => (inr (page lim 0 (distinct_ids (selected w (parts_of db c)))), db)
  | IdsAtPoint c point =>
      (inr (head (distinct_ids (List.filter (fun p =>
         match p_geom p with Some g => pg_contains g point | None => false end) (parts_of db c)))), db)
  | PartsOf c ids w => (inr (map api_row (by_key (selected (IdIn ids :: w) (parts_of db c)))), db)
  | NextParts c w lim => (inr (map api_row (page lim 0 (by_key (selected w (parts_of db c))))), db)
  | NextIds c w lim =>
      (inr (page lim 0 (sort_ids false (distinct_ids (selected w (parts_of db c))))), db)
  | Logical c id w =>
      let l := selected w (parts_of db c) in
      (inr (if decide (of_id id l = []) then None else Some (logical l id c)), db)
  | AllLogical c =>
      let l := parts_of db c in (inr (map (fun id => logical l id c) (distinct_ids l)), db)
  | Boxes c ids w =>
      let l := selected (IdIn ids :: w) (parts_of db c) in
      (inr (map (fun id => logical l id c) (distinct_ids l)), db)
  | Envelopes c =>
      let l := parts_of db c in
      (inr (map (fun id => logical l id c) (sort_ids false (distinct_ids l))), db)
  | PropertyKeys c sample lim =>
      let l := parts_of db c in
      let ids := take (Z.to_nat sample) (sort_ids false (distinct_ids (List.filter (fun p =>
                   bool_decide (is_Some (p_props p))) l))) in
      (inr (take (Z.to_nat lim) (sort_ids false (remove_dups
              (concat (map (fun id => json_keys (first_props (of_id id l))) ids))))), db)
  | DeleteFeature c id =>
      (inr (Z.of_nat (length (List.filter (is_feature c id) (live_rows db c)))),
       delete_feature_rows c id db)
  | InsertSubdivided id c wkt props now mv =>
      insert_result db (subdivided_rows id c wkt props now mv)
  | InsertParts id c values props now => insert_result db (part_rows id c values props now)
  | AddFeatureCount c d => (inr tt, add_count (fun n => n + d) c db)
  | SubFeatureCount c d => (inr tt, add_count (fun n => Z.max 0 (n - d)) c db)
  end.
End reference.

(** ** The server interface *)

Definition determined {A} (q : fsql A) : bool :=
  match q with
  | PageByTimeOnly _ _ _ _ _ | AnyIds _ _ _ | IdsAtPoint _ _ | AllLogical _ | Boxes _ _ _
  | PropertyKeys _ _ _ => false
  | _ => true
  end.

(** The rows a statement reads and the conditions it evaluates on them. *)
Definition conditions {A} (q : fsql A) : option (string * list cond) :=
  match q with
  | CountIds c w | PageById c w _ _ _ | FirstIds c w _ _ _ _ | PageByTime c w _ _ _
  | PageByTimeOnly c w _ _ _ | PageByAlias c w _ _ _ _ | AnyIds c w _ | PartsOf c _ w
  | NextParts c w _ | NextIds c w _ | Logical c _ w | Boxes c _ w => Some (c, w)
  | _ => None
  end.

Definition no_breaks `{PostGIS} (w : list cond) (l : list frow_part) : bool :=
  forallb (fun p => negb (breaks w p)) l.

Definition sound `{PostGIS} {A} (q : fsql A) (db : database) : bool :=
  match conditions q with Some (c, w) => no_breaks w (parts_of db c) | None => true end.

Class FeatureServer := fexec : forall {A}, fsql A -> database -> (sql_error + A) * database.

Class FeatureLaws `{PostGIS} `{FeatureServer} : Prop := {
  fexec_run {A} (q : fsql A) db : determined q = true -> sound q db = true -> fexec q db = frun q db;
  fexec_boxes c ids w db : sound (Boxes c ids w) db = true ->
    exists l l', fexec (Boxes c ids w) db = (inr l, db) /\ frun (Boxes c ids w) db = (inr l', db)
      /\ l ≡ₚ l';
  fexec_any c w lim db : sound (AnyIds c w lim) db = true ->
    exists l, fexec (AnyIds c w lim) db = (inr l, db) /\ NoDup l
      /\ l ⊆ distinct_ids (selected w (parts_of db c))
      /\ length l = Nat.min (Z.to_nat lim) (length (distinct_ids (selected w (parts_of db c))));
  fexec_time_only c w desc lim off db : sound (PageByTimeOnly c w desc lim off) db = true ->
    let ps := selected w (parts_of db c) in
    exists l, fexec (PageByTimeOnly c w desc lim off) db = (inr (page lim off l), db)
      /\ l ≡ₚ distinct_ids ps
      /\ StronglySorted (fun x y => (if desc : bool then created_of ps y <= created_of ps x
                                     else created_of ps x <= created_of ps y)) l
}.

(** ** Sorting *)

Section order_lemmas.
Context `{PostGISLaws}.

#[export] Instance pg_le_order : RelDecision (fun x y => Is_true (pg_le x y)).
Proof. intros x y. apply _. Defined.
Definition id_le (x y : string) : Prop := Is_true (pg_le x y).
#[export] Instance id_le_trans : Transitive id_le.
Proof. intros x y z. unfold id_le. rewrite !Is_true_true. apply pg_le_trans. Qed.
#[export] Instance id_le_total : Total id_le.
Proof. intros x y. unfold id_le. rewrite !Is_true_true. apply pg_le_total. Qed.
#[export] Instance id_le_antisymm : AntiSymm (=) id_le.
Proof. intros x y. unfold id_le. rewrite !Is_true_true. apply pg_le_antisym. Qed.

Lemma pg_lt_irrefl x : pg_lt x x = false.
Proof. unfold pg_lt. by rewrite pg_le_refl. Qed.
Lemma pg_lt_le x y : pg_lt x y = true -> pg_le x y = true.
Proof. unfold pg_lt. rewrite negb_true_iff. destruct (pg_le_total x y); congruence. Qed.
Lemma pg_le_lt_or_eq x y : pg_le x y = true -> pg_lt x y = true \/ x = y.
Proof.
  intros Hxy. unfold pg_lt. rewrite negb_true_iff. destruct (pg_le y x) eqn:Hyx; [right|by left].
  by apply pg_le_antisym.
Qed.
Lemma pg_lt_le_trans x y z : pg_lt x y = true -> pg_le y z = true -> pg_lt x z = true.
Proof.
  intros Hxy Hyz. unfold pg_lt in *. apply negb_true_iff in Hxy. apply negb_true_iff.
  destruct (pg_le z x) eqn:Hzx; [|done]. by rewrite (pg_le_trans y z x) in Hxy.
Qed.
Lemma pg_lt_trans x y z : pg_lt x y = true -> pg_lt y z = true -> pg_lt x z = true.
Proof. intros Hxy Hyz. eapply pg_lt_le_trans; [done|]. by apply pg_lt_le. Qed.

Lemma sort_ids_perm desc l : sort_ids desc l ≡ₚ l.
Proof.
  unfold sort_ids. destruct desc; [rewrite reverse_Permutation|]; apply merge_sort_Permutation.
Qed.
Lemma sort_ids_sorted l : StronglySorted id_le (sort_ids false l).
Proof. apply (StronglySorted_merge_sort id_le). Qed.

Lemma distinct_ids_NoDup l : NoDup (distinct_ids l).
Proof. apply NoDup_remove_dups. Qed.
Lemma sort_ids_NoDup desc l : NoDup l -> NoDup (sort_ids desc l).
Proof. by rewrite sort_ids_perm. Qed.
Lemma elem_of_distinct id l : id ∈ distinct_ids l <-> exists p, p ∈ l /\ p_id p = id.
Proof.
  unfold distinct_ids. rewrite elem_of_remove_dups, list_elem_of_fmap. naive_solver.
Qed.
Lemma elem_of_selected w p l : p ∈ selected w l <-> p ∈ l /\ selects w p = true.
Proof. unfold selected. by rewrite !list_elem_of_In, filter_In. Qed.
Lemma elem_of_of_id id p l : p ∈ of_id id l <-> p ∈ l /\ p_id p = id.
Proof. unfold of_id. by rewrite !list_elem_of_In, filter_In, bool_decide_eq_true. Qed.

(** The order of the primary key within a collection. *)
Definition key_order (x y : string * Z) : Prop := Is_true (key_le x y).
Lemma key_le_iff x y :
  key_le x y = true <-> pg_lt x.1 y.1 = true \/ (x.1 = y.1 /\ x.2 <= y.2).
Proof. unfold key_le. rewrite orb_true_iff, andb_true_iff, bool_decide_eq_true, Z.leb_le. done. Qed.
#[export] Instance key_order_trans : Transitive key_order.
Proof.
  intros x y z. unfold key_order. rewrite !Is_true_true, !key_le_iff.
  intros [Hxy|[Hxy ?]] [Hyz|[Hyz ?]].
  - left. by eapply pg_lt_trans.
  - left. by rewrite <-Hyz.
  - left. by rewrite Hxy.
  - right. split; [congruence|lia].
Qed.
#[export] Instance key_order_total : Total key_order.
Proof.
  intros x y. unfold key_order. rewrite !Is_true_true, !key_le_iff.
  destruct (decide (x.1 = y.1)) as [He|He].
  - destruct (decide (x.2 <= y.2)); [by left; right|]. right; right. split; [done|lia].
  - destruct (pg_le_total x.1 y.1) as [Hl|Hl]; destruct (pg_le_lt_or_eq _ _ Hl); naive_solver.
Qed.
#[export] Instance key_order_antisymm : AntiSymm (=) key_order.
Proof.
  intros [x i] [y j]. unfold key_order. rewrite !Is_true_true, !key_le_iff. cbn.
  intros [Hxy|[-> ?]] [Hyx|[Hyx ?]].
  - pose proof (pg_lt_trans _ _ _ Hxy Hyx) as Hx. by rewrite pg_lt_irrefl in Hx.
  - subst. by rewrite pg_lt_irrefl in Hxy.
  - by rewrite pg_lt_irrefl in Hyx.
  - f_equal. lia.
Qed.
End order_lemmas.

(** ** The reference server *)

Definition reference_features `{PostGIS} : FeatureServer := @frun _.

Section reference_laws.
Context `{PostGISLaws}.

Lemma page_sublist {A} lim off (l : list A) : sublist (page lim off l) l.
Proof.
  unfold page. etransitivity; [apply sublist_take|apply sublist_drop].
Qed.

Definition time_order (x y : Z * string) : Prop := Is_true (time_le x y).
Lemma time_le_iff x y : time_le x y = true <-> x.1 < y.1 \/ (x.1 = y.1 /\ pg_le x.2 y.2 = true).
Proof. unfold time_le. rewrite orb_true_iff, andb_true_iff, Z.ltb_lt, Z.eqb_eq. done. Qed.
#[export] Instance time_order_trans : Transitive time_order.
Proof.
  intros x y z. unfold time_order. rewrite !Is_true_true, !time_le_iff.
  intros [?|[? Hxy]] [?|[? Hyz]]; [left; lia|left; lia|left; lia|right]. split; [lia|].
  by eapply pg_le_trans.
Qed.
#[export] Instance time_order_total : Total time_order.
Proof.
  intros x y. unfold time_order. rewrite !Is_true_true, !time_le_iff.
  destruct (Z.lt_trichotomy x.1 y.1) as [?|[He|?]]; [by left; left| |by right; left].
  destruct (pg_le_total x.2 y.2); [left; right|right; right]; done.
Qed.

Definition timed (l : list frow_part) : list (Z * string) :=
  map (fun id => (created_of l id, id)) (distinct_ids l).
Lemma by_time_perm desc l : by_time desc l ≡ₚ distinct_ids l.
Proof.
  unfold by_time. cbv zeta.
  assert (map snd (timed l) = distinct_ids l) as Hl.
  { unfold timed. rewrite map_map. apply map_id. }
  trans (map snd (timed l)); [|by rewrite Hl]. apply Permutation_map.
  destruct desc; [rewrite reverse_Permutation|]; apply merge_sort_Permutation.
Qed.
Lemma StronglySorted_reverse {A} (R : A -> A -> Prop) l :
  StronglySorted R l -> StronglySorted (fun x y => R y x) (reverse l).
Proof.
  induction 1 as [|x l Hl IH Hx]; [constructor|]. rewrite reverse_cons.
  apply StronglySorted_app_2; [|done|repeat constructor].
  intros y z Hy Hz. apply list_elem_of_singleton in Hz as ->.
  rewrite Forall_forall in Hx. apply Hx. by rewrite <-elem_of_reverse.
Qed.
Lemma StronglySorted_weaken {A} (R S : A -> A -> Prop) l :
  (forall x y, x ∈ l -> y ∈ l -> R x y -> S x y) -> StronglySorted R l -> StronglySorted S l.
Proof.
  intros HRS. induction 1 as [|x l Hl IH Hx]; constructor.
  - apply IH. intros. apply HRS; [by apply list_elem_of_further..|done].
  - rewrite Forall_forall in Hx |- *. intros y Hy. apply HRS; [| |by apply Hx].
    + apply list_elem_of_here.
    + by apply list_elem_of_further.
Qed.
Lemma by_time_sorted desc l :
  StronglySorted (fun x y => if desc : bool then created_of l y <= created_of l x
                             else created_of l x <= created_of l y) (by_time desc l).
Proof.
  set (R := fun x y : Z * string => time_order x y /\ x.1 = created_of l x.2 /\ y.1 = created_of l y.2).
  assert (StronglySorted R (merge_sort time_order (timed l))) as Hs.
  { eapply StronglySorted_weaken; [|apply (StronglySorted_merge_sort time_order)].
    intros x y Hx Hy Hxy. rewrite merge_sort_Permutation in Hx, Hy.
    apply list_elem_of_fmap in Hx as (? & -> & _), Hy as (? & -> & _). done. }
  assert (forall x y, R x y -> created_of l x.2 <= created_of l y.2) as HR.
  { intros x y (Hxy & <- & <-). unfold time_order in Hxy.
    rewrite Is_true_true, time_le_iff in Hxy. lia. }
  unfold by_time. cbv zeta. fold (timed l). destruct desc.
  - apply (StronglySorted_fmap snd (fun x y : Z * string => created_of l y.2 <= created_of l x.2));
      [by intros|]. eapply StronglySorted_weaken; [|by apply StronglySorted_reverse].
    intros x y _ _. apply HR.
  - apply (StronglySorted_fmap snd (fun x y : Z * string => created_of l x.2 <= created_of l y.2));
      [by intros|]. eapply StronglySorted_weaken; [|done]. intros x y _ _. apply HR.
Qed.

#[export] Instance reference_features_laws : @FeatureLaws _ reference_features.
Proof.
  split; [done| | |]; intros; cbn.
  - eauto.
  - eexists. split; [reflexivity|]. split_and!.
    + eapply sublist_NoDup; [apply distinct_ids_NoDup|apply page_sublist].
    + intros x. apply sublist_elem, page_sublist.
    + unfold page. by rewrite drop_0, length_take.
  - eexists. split; [reflexivity|]. split; [apply by_time_perm|apply by_time_sorted].
Qed.
End reference_laws.

(** ** What a filter value means *)

Lemma like_pattern_ends v : ends_with_escape (replace_char "*" "%" (escape_like v)) = false.
Proof.
  induction v as [|c v IH]; [done|]. rewrite like_pattern_cons, ends_with_escape_app; [done|].
  by destruct c as [[] [] [] [] [] [] [] []].
Qed.

(** C38. A filter [name=value] selects the rows whose property reads as the value:
    a star stands for any text and every other character for itself, the wildcards
    and the escape character of LIKE included; a row without the property is not
    selected and the server never raises.  The clause is an equality exactly when
    the value has no star, and a LIKE otherwise. *)
Theorem filter_value_reads_as_glob `{PostGIS} (p : frow_part) (key value : string) :
  let c := property_filter_clause key value in
  holds p c = match prop_text p key with Some s => glob value s | None => false end
  /\ fails p c = false
  /\ (c = TextEq key value <-> contains "*" value = false)
  /\ ((exists pattern, c = TextLike key pattern) <-> contains "*" value = true).
Proof.
  cbv zeta. unfold property_filter_clause, property_value_to_like_pattern.
  destruct (contains "*" value) eqn:Hv; cbn [holds fails].
  - rewrite like_pattern_ends. split; [|split; [by case_match|split; [done|by split; eauto]]].
    case_match; [apply like_glob|done].
  - split; [|split; [done|split; [done|by split; [intros [? [=]]|]]]].
    unfold has_eq. destruct (prop_text p key) as [s|]; [|done].
    rewrite glob_literal by done. apply bool_decide_ext. split; congruence.
Qed.
