(* ===== verification/DynamicCache.v ===== *)
(** * The short-lived caches of tiles, searches and item lists
    (app/services/dynamic_tile_cache.py)

    Every access is best effort: a Redis error is a miss or a store that does not
    happen.  [push_tile_job] and [pop_tile_job] are the stack of tile jobs, newest
    first.  An id is put into the pattern of an invalidation as it is, so the
    characters SCAN gives a meaning to keep it: [glob_id_clears_others]. *)

From S2P Require Import Prelude PyTime Redis Postgres World Sha256 Json Accounts.

Definition DYNAMIC_TILE_CACHE_PREFIX : string := "geofastmap:dynamic_tile:v4:".
Definition DYNAMIC_TILE_CACHE_PARAMS_PREFIX : string := "geofastmap:dynamic_tile_p:v4:".
Definition SEARCH_RESULT_PREFIX : string := "geofastmap:search_result:".
Definition ITEMS_LIST_PREFIX : string := "geofastmap:items_list:".
Definition TILE_JOBS_QUEUE_KEY : string := "geofastmap:tile_jobs".

Record tile := Tile { tile_z : Z; tile_x : Z; tile_y : Z }.
Definition tile_text (t : tile) : string :=
  str_of_Z (tile_z t) +:+ ":" +:+ str_of_Z (tile_x t) +:+ ":" +:+ str_of_Z (tile_y t).

Definition cache_key (c : string) (t : tile) : string :=
  DYNAMIC_TILE_CACHE_PREFIX +:+ c +:+ ":" +:+ tile_text t.
Definition params_cache_key (c : string) (t : tile) (params_key : string) : string :=
  DYNAMIC_TILE_CACHE_PARAMS_PREFIX +:+ c +:+ ":" +:+ tile_text t +:+ ":" +:+ params_key.
Definition search_result_key (c params_key : string) : string :=
  SEARCH_RESULT_PREFIX +:+ c +:+ ":" +:+ params_key.
Definition items_list_key (c params_key : string) : string :=
  ITEMS_LIST_PREFIX +:+ c +:+ ":" +:+ params_key.

(** The parameters a key is made of. *)
Record QueryParams := Params {
  qp_limit : option Z;
  qp_offset : Z;
  qp_sortby : option string;
  qp_sortdesc : bool;
  qp_bbox : option string;
  qp_datetime : option string;
  qp_filter : option (list string);
  qp_q : option string;
  qp_ids : option string;
  qp_properties : option string
}.

Definition params_text (p : QueryParams) : string :=
  join "&"
    ["l=" +:+ match qp_limit p with Some n => str_of_Z n | None => "None" end;
     "o=" +:+ str_of_Z (qp_offset p);
     "s=" +:+ opt_str (qp_sortby p);
     "d=" +:+ (if qp_sortdesc p then "True" else "False");
     "b=" +:+ opt_str (qp_bbox p);
     "dt=" +:+ opt_str (qp_datetime p);
     "f=" +:+ join "," (default [] (qp_filter p));
     "q=" +:+ opt_str (qp_q p);
     "ids=" +:+ opt_str (qp_ids p);
     "p=" +:+ opt_str (qp_properties p)].
Definition params_key_from_query (p : QueryParams) : string :=
  str_take 24 (sha256_hex (params_text p)).

Section cache.
Context `{RedisServer} `{Entropy} (cfg : Settings).

(** The four pairs of accessors differ in the key and in the life time. *)
Definition cached (ttl : Z) (key : string) : M (option string) :=
  if ttl <=? 0 then mret None else try_except (redis (Get key)) (fun _ => mret None).
Definition store (ttl : Z) (key payload : string) : M unit :=
  if ttl <=? 0 then mret tt else try_pass (redis (SetEx key payload (Some ttl) false);; mret tt).

Definition params_ttl : Z :=
  if tiles_dynamic_cache_with_params cfg then tiles_dynamic_cache_params_ttl_seconds cfg else 0.

Definition get_tile (c : string) (t : tile) : M (option string) :=
  cached (tiles_dynamic_cache_ttl_seconds cfg) (cache_key c t).
Definition set_tile (c : string) (t : tile) (payload : string) : M unit :=
  store (tiles_dynamic_cache_ttl_seconds cfg) (cache_key c t) payload.
Definition get_tile_with_params (c : string) (t : tile) (params_key : string) : M (option string) :=
  cached params_ttl (params_cache_key c t params_key).
Definition set_tile_with_params (c : string) (t : tile) (params_key payload : string) : M unit :=
  store params_ttl (params_cache_key c t params_key) payload.
Definition get_items_list (c params_key : string) : M (option string) :=
  cached (collections_items_cache_ttl_seconds cfg) (items_list_key c params_key).
Definition set_items_list (c params_key payload : string) : M unit :=
  store (collections_items_cache_ttl_seconds cfg) (items_list_key c params_key) payload.
Definition get_search_result (c params_key : string) : M (option string) :=
  cached (tiles_search_result_cache_ttl_seconds cfg) (search_result_key c params_key).
Definition set_search_result (c params_key payload : string) : M unit :=
  store (tiles_search_result_cache_ttl_seconds cfg) (search_result_key c params_key) payload.

(** ** Jobs for tile workers *)

Definition tile_job (c params_key : string) (t : tile) (now : Z) : json :=
  JObj [("collection_id", JStr c); ("params_key", JStr params_key); ("z", JInt (tile_z t));
        ("x", JInt (tile_x t)); ("y", JInt (tile_y t)); ("enqueued_at", JFloat (float_str now))].

Definition push_tile_job (c params_key : string) (t : tile) : M unit :=
  try_pass
    (now ← get_now;
     let max_jobs := tiles_dynamic_queue_max_jobs cfg in
     redis (Multi
       (WLpush TILE_JOBS_QUEUE_KEY (dumps (tile_job c params_key t now))
        :: if 0 <? max_jobs then [WLtrim TILE_JOBS_QUEUE_KEY 0 (max_jobs - 1)] else []))).

(** [float(job.get("enqueued_at") or 0)], in microseconds. *)
Definition enqueued_at (job : json) : res Z :=
  let! m := as_dict job in
  let j := json_or (default JNull (dict_get "enqueued_at" m)) (JInt 0) in
  match j with
  | JInt z => inr (us z)
  | JBool b => inr (us (if b then 1 else 0))
  | JFloat x | JStr x =>
      match Accounts.float_of x with
      | Some t => inr t
      | None => inl (ValueError ("could not convert string to float: '" +:+ x +:+ "'"))
      end
  | _ => inl (TypeError "float() argument must be a string or a real number")
  end.

Definition stale (job : json) (now : Z) : res bool :=
  let max_age := tiles_dynamic_queue_job_max_age_seconds cfg in
  if 0 <? max_age then
    let! t := enqueued_at job in inr (negb (t =? 0) && (max_age <? now - t))
  else inr false.

(** The loop; the wait of BLPOP is the time its tick takes.  Each turn takes a job
    from the list or ends, so the fuel is the number of jobs a worker skips. *)
Fixpoint pop_loop (fuel : nat) (deadline : Z) : M (option json) :=
  match fuel with
  | O => mret None
  | S fuel' =>
      now ← get_now;
      if deadline - now <=? 0 then mret None
      else
        popped ← redis (Blpop TILE_JOBS_QUEUE_KEY);
        match popped with
        | None => mret None
        | Some payload =>
            job ← lift (json_loads payload);
            now' ← get_now;
            old ← lift (stale job now');
            if (old : bool) then pop_loop fuel' deadline else mret (Some job)
        end
  end.
Definition pop_tile_job (fuel : nat) (timeout : Z) : M (option json) :=
  try_except (now ← get_now; pop_loop fuel (now + Z.max 50000 (us timeout))) (fun _ => mret None).

(** ** Invalidation *)

Definition cache_prefixes : list string :=
  [DYNAMIC_TILE_CACHE_PREFIX; DYNAMIC_TILE_CACHE_PARAMS_PREFIX; SEARCH_RESULT_PREFIX].

Definition invalidation_patterns (c : string) : list string :=
  map (fun p => p +:+ c +:+ ":*") cache_prefixes.

Fixpoint delete_each (keys : list string) : M unit :=
  match keys with
  | [] => mret tt
  | k :: keys' => redis (Del [k]);; delete_each keys'
  end.
Fixpoint delete_matching (patterns : list string) : M unit :=
  match patterns with
  | [] => mret tt
  | p :: patterns' => keys ← redis (Scan p); delete_each keys;; delete_matching patterns'
  end.
Definition invalidate_collection_cache (c : string) : M unit :=
  try_pass (delete_matching (invalidation_patterns c)).
End cache.

(** ** What invalidation reaches *)

(** The keys an invalidation of [c] deletes. *)
Definition invalidated (c k : string) : bool :=
  existsb (fun p => glob_match p k) (invalidation_patterns c).

(** They all are keys of these caches. *)
Lemma invalidated_prefix c k :
  invalidated c k = true -> existsb (fun p => startswith p k) cache_prefixes = true.
Proof.
  unfold invalidated, invalidation_patterns. rewrite !existsb_exists.
  intros (x & Hx & Hk). apply in_map_iff in Hx as (p & <- & Hp). exists p. split; [done|].
  assert (plain_pattern p = true) as Hplain by (by destruct Hp as [<-|[<-|[<-|[]]]]).
  rewrite glob_match_plain in Hk by done. by apply andb_true_iff in Hk as [? _].
Qed.

(** Without special bytes the id is matched as it is. *)
Lemma invalidated_plain c k : plain_pattern c = true ->
  invalidated c k = existsb (fun p => startswith (p +:+ c +:+ ":") k) cache_prefixes.
Proof.
  intros Hc. unfold invalidated, invalidation_patterns, cache_prefixes. cbn [map existsb].
  assert (forall p, plain_pattern p = true ->
    glob_match (p +:+ c +:+ ":*") k = startswith (p +:+ c +:+ ":") k) as Hp.
  { intros p Hp. replace (p +:+ c +:+ ":*") with ((p +:+ c +:+ ":") +:+ "*").
    - apply glob_prefix. by rewrite !plain_pattern_app, Hp, Hc.
    - by rewrite !app_str_assoc. }
  by rewrite !Hp.
Qed.

Lemma startswith_same p s t : startswith (p +:+ s) (p +:+ t) = startswith s t.
Proof.
  induction p as [|a p IH]; [done|]. rewrite !app_str_cons. cbn [startswith].
  by rewrite bool_decide_eq_true_2.
Qed.

(** Ids without a colon end at the first one. *)
Lemma colon_ends_id c c' rest : contains ":" c = false -> contains ":" c' = false ->
  startswith (c +:+ ":") (c' +:+ ":" +:+ rest) = bool_decide (c = c').
Proof.
  revert c'. induction c as [|a c IH]; intros [|b c'] Hc Hc'.
  - by rewrite bool_decide_eq_true_2.
  - cbn in Hc'. apply orb_false_iff in Hc' as [Hb _]. rewrite andb_true_r in Hb.
    rewrite app_str_cons. change ("" +:+ ":") with ":". cbn [startswith]. rewrite Hb. by rewrite bool_decide_eq_false_2.
  - cbn in Hc. apply orb_false_iff in Hc as [Ha _]. rewrite andb_true_r in Ha.
    rewrite app_str_cons. change ("" +:+ ":" +:+ rest) with (String ":" rest). cbn [startswith].
    rewrite bool_decide_eq_false in Ha. rewrite bool_decide_eq_false_2 by congruence.
    by rewrite bool_decide_eq_false_2.
  - cbn in Hc, Hc'. apply orb_false_iff in Hc as [_ Hc], Hc' as [_ Hc'].
    rewrite !app_str_cons. cbn [startswith]. rewrite IH by done.
    destruct (decide (a = b)) as [->|Ha].
    + rewrite bool_decide_eq_true_2 by done. cbn [andb]. apply bool_decide_ext. split; congruence.
    + rewrite (bool_decide_eq_false_2 (a = b)) by done. symmetry. apply bool_decide_eq_false_2. congruence.
Qed.

(** The keys of the collection [c]: of a tile, of a tile with parameters, of a search. *)
Definition cache_keys (c : string) (t : tile) (params_key : string) : list string :=
  [cache_key c t; params_cache_key c t params_key; search_result_key c params_key].

(** A key of [c'] goes with [c] when [c'] continues [c] with a colon. *)
Lemma invalidated_tails c c' t q k : plain_pattern c = true -> k ∈ cache_keys c' t q ->
  exists rest, invalidated c k = startswith (c +:+ ":") (c' +:+ ":" +:+ rest).
Proof.
  intros Hc Hk. rewrite (invalidated_plain _ _ Hc). unfold cache_prefixes. cbn [existsb].
  unfold cache_keys in Hk. rewrite !elem_of_cons, elem_of_nil in Hk. destruct Hk as [->|[->|[->|[]]]].
  - exists (tile_text t). unfold cache_key. by rewrite startswith_same, orb_false_r.
  - exists (tile_text t +:+ ":" +:+ q). unfold params_cache_key. by rewrite startswith_same, orb_false_r.
  - exists q. unfold search_result_key. by rewrite startswith_same, orb_false_r.
Qed.

Lemma invalidated_own c t q k : plain_pattern c = true -> k ∈ cache_keys c t q -> invalidated c k = true.
Proof.
  intros Hc Hk. destruct (invalidated_tails c c t q k Hc Hk) as [rest ->].
  by rewrite startswith_same.
Qed.

Lemma invalidated_other c c' t q k : plain_pattern c = true -> contains ":" c = false ->
  contains ":" c' = false -> c <> c' -> k ∈ cache_keys c' t q -> invalidated c k = false.
Proof.
  intros Hc Hn Hn' Hne Hk. destruct (invalidated_tails c c' t q k Hc Hk) as [rest ->].
  by rewrite colon_ends_id, bool_decide_eq_false_2.
Qed.

Section invalidation.
Context `{RedisLaws} `{Entropy} (cfg : Settings).

(** [ks'] is [ks] without the keys that [f] takes. *)
Definition forgets (f : string -> bool) (now : Z) (ks ks' : keyspace) : Prop :=
  forall k, peek now ks' k = if f k then None else peek now ks k.

Lemma delete_each_run l : forall w, quiet w ->
  exists ks, delete_each l w = (inr tt, with_redis w ks)
    /\ forgets (fun k => bool_decide (k ∈ l)) (w_now w) (w_redis w) ks.
Proof.
  induction l as [|x l IH]; intros w Hq; cbn [delete_each].
  - exists (w_redis w). split; [by destruct w|done].
  - rewrite (bind_redis _ _ _ tt (delete x (w_redis w))); [|done|by rewrite exec_del].
    destruct (IH (with_redis w (delete x (w_redis w))) Hq) as (ks & -> & Hks). exists ks.
    split; [done|]. intros k. rewrite Hks. cbn [with_redis w_redis w_now]. unfold peek.
    destruct (decide (k = x)) as [->|Hx].
    + rewrite lookup_delete_eq, (bool_decide_eq_true_2 (x ∈ x :: l)) by set_solver. by case_bool_decide.
    + rewrite lookup_delete_ne by done. rewrite (bool_decide_ext (k ∈ x :: l) (k ∈ l)) by set_solver. done.
Qed.

Lemma delete_matching_run ps : forall w, quiet w ->
  exists ks, delete_matching ps w = (inr tt, with_redis w ks)
    /\ forgets (fun k => existsb (fun p => glob_match p k) ps) (w_now w) (w_redis w) ks.
Proof.
  induction ps as [|p ps IH]; intros w Hq; cbn [delete_matching].
  - exists (w_redis w). split; [by destruct w|done].
  - destruct (exec_scan p (w_now w) (w_redis w)) as (l & Hl & Hin).
    rewrite (bind_redis _ _ _ l (w_redis w)) by done.
    destruct (delete_each_run l (with_redis w (w_redis w)) Hq) as (ks1 & He & Hks1).
    rewrite bind_run, He. change (with_redis (with_redis w (w_redis w)) ks1) with (with_redis w ks1).
    destruct (IH (with_redis w ks1) Hq) as (ks & -> & Hks). exists ks. split; [done|].
    intros k. rewrite Hks. cbn [with_redis w_now w_redis existsb] in *. rewrite Hks1.
    destruct (existsb _ ps); [by rewrite orb_true_r|]. rewrite orb_false_r.
    case_bool_decide as Hk.
    + apply Hin in Hk as [-> _]. done.
    + destruct (glob_match p k) eqn:Hp; [|done].
      destruct (peek (w_now w) (w_redis w) k) eqn:Hpk; [|done]. destruct Hk. apply Hin. eauto.
Qed.

(** Invalidating deletes what the three patterns of the collection match. *)
Lemma invalidate_run c w : quiet w ->
  exists ks, invalidate_collection_cache c w = (inr tt, with_redis w ks)
    /\ forgets (invalidated c) (w_now w) (w_redis w) ks.
Proof.
  intros Hq. destruct (delete_matching_run (invalidation_patterns c) w Hq) as (ks & Hr & Hks).
  exists ks. split; [|done]. unfold invalidate_collection_cache, try_pass. by apply try_except_ok.
Qed.

(** All entries of a collection with a plain id are forgotten. *)
Lemma forgets_own c now ks ks' : forgets (invalidated c) now ks ks' ->
  plain_pattern c = true -> forall t q k, k ∈ cache_keys c t q -> peek now ks' k = None.
Proof. intros Hks Hc t q k Hk. rewrite Hks. by rewrite (invalidated_own c t q k). Qed.

(** C39. Invalidating a collection, without faults, takes from Redis exactly the keys
    that match one of its three SCAN patterns, in which the id stands unescaped, and all
    of them are keys of the tile and search caches.  For an id without the bytes
    [* ? [ \] every tile, tile with parameters and search result of the collection
    is gone, and when neither id holds a colon those of every other collection
    are as they were. *)
Theorem invalidation_exact (c : string) (w : world) : quiet w ->
  exists ks, invalidate_collection_cache c w = (inr tt, with_redis w ks)
    /\ forgets (invalidated c) (w_now w) (w_redis w) ks
    /\ (forall k, existsb (fun p => startswith p k) cache_prefixes = false ->
          peek (w_now w) ks k = peek (w_now w) (w_redis w) k)
    /\ (plain_pattern c = true -> forall t q k, k ∈ cache_keys c t q -> peek (w_now w) ks k = None)
    /\ (plain_pattern c = true -> contains ":" c = false ->
        forall c' t q k, contains ":" c' = false -> c <> c' -> k ∈ cache_keys c' t q ->
          peek (w_now w) ks k = peek (w_now w) (w_redis w) k).
Proof.
  intros Hq. destruct (invalidate_run c w Hq) as (ks & Hr & Hks). exists ks.
  split; [done|]. split; [exact Hks|]. split; [|split].
  - intros k Hk. rewrite Hks. destruct (invalidated c k) eqn:Hi; [|done].
    apply invalidated_prefix in Hi. congruence.
  - by eapply forgets_own.
  - intros Hc Hn c' t q k Hn' Hne Hk. rewrite Hks. by rewrite (invalidated_other c c' t q k).
Qed.

(** A list of items outlives the change of its collection: what [set_items_list]
    stored is still served after the invalidation. *)
Theorem item_list_stays (c params_key payload : string) (w : world) : quiet w ->
  0 < collections_items_cache_ttl_seconds cfg ->
  exists w', (set_items_list cfg c params_key payload;; invalidate_collection_cache c;;
              get_items_list cfg c params_key) w = (inr (Some payload), w').
Proof.
  intros Hq Ht. unfold set_items_list, get_items_list, store, cached.
  assert ((collections_items_cache_ttl_seconds cfg <=? 0) = false) as -> by (by apply Z.leb_gt).
  set (k := items_list_key c params_key).
  set (w1 := with_redis w (put (w_redis w) k (VStr payload)
                             (Some (w_now w + us (collections_items_cache_ttl_seconds cfg))))).
  assert (live (w_now w) (Entry (VStr payload) (Some (w_now w + us (collections_items_cache_ttl_seconds cfg)))) = true)
    as Hl by (unfold live, us; cbn; apply Z.ltb_lt; lia).
  assert (try_pass (redis (SetEx k payload (Some (collections_items_cache_ttl_seconds cfg)) false);; mret tt) w
          = (inr tt, w1)) as Hs.
  { unfold try_pass. apply try_except_ok. rewrite (bind_redis _ _ _ true (w_redis w1)); [done|done|].
    by rewrite exec_set. }
  rewrite bind_run, Hs.
  destruct (delete_matching_run (invalidation_patterns c) w1 Hq) as (ks & Hr & Hks).
  unfold invalidate_collection_cache, try_pass. rewrite bind_run, (try_except_ok _ _ _ _ _ Hr).
  eexists. apply try_except_ok, redis_ok; [done|]. rewrite exec_get.
  unfold as_str, peek_val. cbn [with_redis w_now w_redis] in *. rewrite Hks.
  assert (existsb (fun p => glob_match p k) (invalidation_patterns c) = false) as ->.
  { destruct (existsb _ _) eqn:Hi; [|done]. by apply invalidated_prefix in Hi. }
  change (w_redis w1) with (put (w_redis w) k (VStr payload)
                             (Some (w_now w + us (collections_items_cache_ttl_seconds cfg)))).
  rewrite peek_put_eq. change (w_now w1) with (w_now w). by rewrite Hl.
Qed.

(** An id is a pattern: a change of the collection ["*"] empties the tile caches of
    every other collection, a change of ["a[1]"] leaves its own tiles, and a change
    of ["a"] takes the tiles of ["a:b"]. *)
Theorem glob_id_clears_others :
  let t := Tile 1 2 3 in
  invalidated "*" (cache_key "roads" t) = true
  /\ invalidated "a[1]" (cache_key "a[1]" t) = false
  /\ invalidated "a" (cache_key "a:b" t) = true.
Proof. split; [|split]; by vm_compute. Qed.

(** Two different queries have the same key: a value is not told from the next one. *)
Theorem cache_keys_collide :
  exists p q : QueryParams, p <> q /\ params_key_from_query p = params_key_from_query q.
Proof.
  exists (Params None 0 None false None None None (Some "a&ids=b") None None),
         (Params None 0 None false None None None (Some "a") (Some "b&ids=") None).
  split; [congruence|]. by vm_compute.
Qed.
End invalidation.

Definition one_tile_world : world :=
  World (put ∅ (cache_key "roads" (Tile 1 2 3)) (VStr "tile") None) 0 [] [] ∅ [] 0 0 [] no_services.

Lemma invalidation_exact_witness :
  exists ks, @invalidate_collection_cache reference_server "roads" one_tile_world
      = (inr tt, with_redis one_tile_world ks)
    /\ forgets (invalidated "roads") (w_now one_tile_world) (w_redis one_tile_world) ks
    /\ (forall k, existsb (fun p => startswith p k) cache_prefixes = false ->
          peek 0 ks k = peek 0 (w_redis one_tile_world) k)
    /\ (plain_pattern "roads" = true -> forall t q k, k ∈ cache_keys "roads" t q -> peek 0 ks k = None)
    /\ (plain_pattern "roads" = true -> contains ":" "roads" = false ->
        forall c' t q k, contains ":" c' = false -> "roads" <> c' -> k ∈ cache_keys c' t q ->
          peek 0 ks k = peek 0 (w_redis one_tile_world) k).
Proof. by apply (@invalidation_exact reference_server _ "roads" one_tile_world). Defined.
