(* ===== verification/Features.v ===== *)
(** * The features of a collection (app/crud/features.py)

    Reads and writes of logical features: the rows of one id.  A page is chosen by
    ids first and built from all the parts of its features afterwards; the union of
    the parts is made by Shapely.  The computations of [TX] are the statements of
    one session; the functions that commit are computations of [M]. *)

From stdpp Require Import sorting.
From S2P Require Import Prelude PyTime Redis Postgres World Database Json Mutex JobStore.
From S2P Require Import BulkActivity CopyFormat Subdivide Collections PropertyFilters FeatureRows DynamicCache.

(** ** Data *)

Record Feature := mkFeature {
  ft_id : string;
  ft_collection : string;
  ft_geometry : option string;                          (* WKTElement *)
  ft_geojson : option json;
  ft_bbox : option (json * json * json * json);
  ft_props : option json;
  ft_created : Z;
  ft_updated : Z
}.

Definition PROPERTIES_READONLY_KEYS : list string := ["id"].
Definition properties_without_readonly (props : option (list (string * json))) :
  option (list (string * json)) :=
  List.filter (fun kv => negb (bool_decide (kv.1 ∈ PROPERTIES_READONLY_KEYS))) <$> props.

(** ** Exact searches *)

(** [_EXACT_SEARCH_TOKEN_RE] *)
Definition alnum (c : Ascii.ascii) : bool := alnum_ c && negb (bool_decide (c = "_"%char)).
Definition token_char (c : Ascii.ascii) : bool :=
  alnum_ c || bool_decide (c ∈ ["."%char; ":"%char; "-"%char]).
Fixpoint all_of (p : Ascii.ascii -> bool) (s : string) : bool :=
  match s with EmptyString => true | String c s' => p c && all_of p s' end.
Definition exact_token (s : string) : bool :=
  match s with
  | String c s' =>
      alnum c && all_of token_char s' && (7 <=? String.length s')%nat && (String.length s' <=? 127)%nat
  | EmptyString => false
  end.
Fixpoint any_of (p : Ascii.ascii -> bool) (s : string) : bool :=
  match s with EmptyString => false | String c s' => p c || any_of p s' end.
Definition free_text_char (c : Ascii.ascii) : bool :=
  bool_decide (c ∈ ["*"%char; "%"%char; " "%char; "009"%char; "010"%char]).
Definition is_exact_search_token (q : option string) : bool :=
  let s := strip (opt_str q) in
  negb (bool_decide (s = "")) && negb (any_of free_text_char s) && exact_token s.

Definition DEFAULT_EXACT_SEARCH_PROPERTY_KEYS : list string :=
  ["car_code"; "cod_imovel"; "COD_IMOVEL"; "codigo"; "code"; "cod_car"; "COD_CAR"; "car"].

(** The loop; [room] is what the limit of 16 keys leaves. *)
Fixpoint search_keys (room : nat) (seen keys : list string) : list string :=
  match room, keys with
  | S room', k :: keys' =>
      match validate_property_index_field k with
      | inl _ => search_keys room seen keys'
      | inr name =>
          if decide (name ∈ seen) then search_keys room seen keys'
          else name :: search_keys room' (name :: seen) keys'
      end
  | _, _ => []
  end.
Definition exact_search_property_keys (property_keys : list string) : list string :=
  search_keys 16 [] (property_keys ++ DEFAULT_EXACT_SEARCH_PROPERTY_KEYS)%list.

(** ** List parameters *)

Record ListArgs := {
  la_limit : Z;
  la_offset : Z;
  la_bbox : option envelope;
  la_start : option datetime;
  la_end : option datetime;
  la_sortby : option string;
  la_sortdesc : bool;
  la_property_filters : list (string * string);
  la_structured : list PropertyFilter;
  la_q : option string;
  la_ids : list string;                     (* [] is None *)
  la_count : option Z;                      (* collection_feature_count *)
  la_geometry : bool;
  la_skip_count : bool;
  la_exclude : list string
}.

(** [bool(q and q.strip())] *)
Definition has_text (q : option string) : bool := negb (bool_decide (strip (opt_str q) = "")).

Definition opt_cond {A} (f : A -> cond) (x : option A) : list cond :=
  match x with Some a => [f a] | None => [] end.
Definition text_conds (q : option string) : list cond :=
  if has_text q then [FlatILike (flat_pattern (opt_str q))] else [].
Definition attribute_conds (props : list (string * string)) (structured : list PropertyFilter) : list cond :=
  (map (fun kv => property_filter_clause kv.1 kv.2) props ++ map structured_filter_clause structured)%list.
Definition query_conds (bbox : option envelope) (dt_start dt_end : option datetime)
    (props : list (string * string)) (structured : list PropertyFilter) (q : option string) : list cond :=
  (opt_cond InBox bbox ++ opt_cond CreatedFrom dt_start ++ opt_cond CreatedTo dt_end
   ++ attribute_conds props structured ++ text_conds q)%list.

(** [j for j in exclude if j] and the clause of the shadow import. *)
Definition shadow_jobs (exclude : list string) : list string :=
  List.filter (fun j => negb (bool_decide (j = ""))) exclude.
Definition shadow_conds (exclude : list string) : list cond :=
  match shadow_jobs exclude with [] => [] | jobs => [NotOfJobs jobs] end.

Definition nonempty {A} (l : list A) : bool := match l with [] => false | _ => true end.
Definition has_filters (a : ListArgs) : bool :=
  nonempty (la_ids a)
  || nonempty (query_conds (la_bbox a) (la_start a) (la_end a) (la_property_filters a)
                 (la_structured a) (la_q a)).
Definition list_conds (a : ListArgs) : list cond :=
  ((if nonempty (la_ids a) then [IdIn (la_ids a)] else [])
   ++ query_conds (la_bbox a) (la_start a) (la_end a) (la_property_filters a) (la_structured a) (la_q a)
   ++ shadow_conds (la_exclude a))%list.

(** [(sortby.strip() if sortby else None) or None] *)
Definition sort_name (sortby : option string) : option string :=
  let s := strip (opt_str sortby) in if decide (s = "") then None else Some s.

(** [safe_json_key], on ASCII texts. *)
Fixpoint keep_chars (p : Ascii.ascii -> bool) (s : string) : string :=
  match s with
  | EmptyString => EmptyString
  | String c s' => if p c then String c (keep_chars p s') else keep_chars p s'
  end.
Definition safe_json_key (s : string) : string := str_take 200 (keep_chars alnum_ s).

(** ** Shapely *)

Class GeometryOps (geom : Type) := {
  unary_union : list geom -> option geom;         (* None: raises *)
  mapping : geom -> option json;
  collect_into : gkind -> list geom -> option geom;   (* MultiPolygon(l), ... *)
  load_wkt : string -> option geom                (* to_shape of a WKTElement *)
}.

Section features.
Context {geom num : Type} `{Shapely geom num} `{GeometryOps geom}.
Context `{RedisServer} `{PostgresServer} `{Entropy} `{PostGIS} `{FeatureServer} (cfg : Settings).
Context (depth : nat).

(** *** [shapely_to_api_geojson] (app/utils/geo.py) *)

(** [_collect]: polygons, lines and points, in the order they are met. *)
Definition kinds : Type := list geom * list geom * list geom.
Fixpoint collect_all (f : geom -> kinds -> option kinds) (gs : list geom) (acc : kinds) : option kinds :=
  match gs with [] => Some acc | g :: gs' => acc' ← f g acc; collect_all f gs' acc' end.
Fixpoint collect (d : nat) (g : geom) (acc : kinds) : option kinds :=
  match d with
  | O => None
  | S d' =>
      let '(polys, lines, points) := acc in
      if is_empty g then Some acc
      else
        match geom_type g with
        | Polygon => Some ((polys ++ [g])%list, lines, points)
        | MultiPolygon => Some ((polys ++ members g)%list, lines, points)
        | LineString => Some (polys, (lines ++ [g])%list, points)
        | MultiLineString => Some (polys, (lines ++ members g)%list, points)
        | Point => Some (polys, lines, (points ++ [g])%list)
        | MultiPoint => Some (polys, lines, (points ++ members g)%list)
        | GeometryCollection => collect_all (collect d') (members g) acc
        | LinearRing => Some acc
        end
  end.

Definition one_or_many (k : gkind) (l : list geom) : option json :=
  match l with
  | [g] => mapping g
  | _ => g ← collect_into k l; mapping g
  end.

Definition homogenized (g : geom) : option json :=
  if negb (bool_decide (geom_type g = GeometryCollection)) then mapping g
  else
    acc ← collect_all (collect depth) (members g) ([], [], []);
    let '(polys, lines, points) := acc in
    match polys, lines, points with
    | _ :: _, [], [] => one_or_many MultiPolygon polys
    | [], _ :: _, [] => one_or_many MultiLineString lines
    | [], [], _ :: _ => one_or_many MultiPoint points
    | _, _, _ => mapping g
    end.
Definition shapely_to_api_geojson (g : geom) : option json :=
  if is_empty g then None
  else match homogenized g with Some j => Some j | None => mapping g end.

(** *** [_parts_to_logical_feature] *)

Definition sort_parts (parts : list part_row) : list part_row :=
  merge_sort (fun x y => Is_true (pr_index x <=? pr_index y)) parts.

Definition part_geom (p : part_row) : option geom :=
  match pr_geojson p with
  | Some j => if json_truthy j then shape j else None
  | None => None
  end.

Definition repair (g : geom) : option geom :=
  g' ← (if is_valid g then Some g else make_valid g); if is_empty g' then None else Some g'.

Definition union_failed : exn := ValueError "unary_union".

Definition union_parts (geoms : list geom) : res (option json) :=
  match geoms with
  | [] => inr None
  | _ =>
      match unary_union geoms with
      | Some g => inr (shapely_to_api_geojson g)
      | None =>
          match omap repair geoms with
          | [] => inr None
          | fixed =>
              match unary_union fixed with
              | Some g => inr (shapely_to_api_geojson g)
              | None => inl union_failed
              end
          end
      end
  end.

Definition parts_to_logical_feature (parts : list part_row) : res Feature :=
  let sorted_parts := sort_parts parts in
  match sorted_parts with
  | [] => inl (ValueError "parts must be non-empty")
  | first :: _ =>
      let! g := union_parts (omap part_geom sorted_parts) in
      inr (mkFeature (pr_id first) (pr_collection first) None g None (pr_props first)
             (zmin (map pr_created sorted_parts)) (zmax (map pr_updated sorted_parts)))
  end.

(** *** [_row_to_logical_feature] without a GeoJSON geometry *)

Definition row_to_logical_feature (r : logical_row) : Feature :=
  mkFeature (lr_id r) (lr_collection r) (if truthy (lr_wkt r) then lr_wkt r else None) None None
    (lr_props r) (lr_created r) (lr_updated r).

(** ** Statements *)

Definition fstmt {A} (q : fsql A) : TX A := fun db =>
  match fexec q db with
  | (inr a, db') => (inr a, db')
  | (inl e, db') => (inl (exn_of_sql e), db')
  end.
Definition lift_tx {A} (r : res A) : TX A := fun db => (r, db).

Definition get_collection_property_keys (c : string) : TX (list string) :=
  fstmt (PropertyKeys c 100 500).
Definition list_features_for_collection (c : string) : TX (list Feature) :=
  rows ← fstmt (AllLogical c); mret (map row_to_logical_feature rows).
Definition find_raster_feature_id_at_point (c lon lat : string) : TX (option string) :=
  fstmt (IdsAtPoint c (lon, lat)).
Definition list_raster_feature_rows_for_collection (c : string) : TX (list logical_row) :=
  fstmt (Envelopes c).

(** *** [resolve_exact_search_feature_ids] *)

Definition resolve_exact_search_feature_ids (c token : string) (property_keys : list string)
    (limit : Z) (exclude : list string) : TX (list string) :=
  let tok := strip token in
  if decide (tok = "") then mret []
  else
    let keys := exact_search_property_keys property_keys in
    let lim := Z.max 1 limit in
    let shadow := shadow_conds exclude in
    ids ← fstmt (AnyIds c (IdEq tok :: shadow) lim);
    if nonempty ids then mret ids
    else
      ids ← (if nonempty keys then fstmt (AnyIds c (shadow ++ [AnyHasEq keys tok])%list lim)
             else mret []);
      if nonempty ids then mret ids
      else fstmt (AnyIds c (shadow ++ [FlatILike ("%" +:+ escape_like tok +:+ "%")])%list lim).

(** *** [resolve_structured_eq_feature_ids] *)

Fixpoint eq_conds (filters : list PropertyFilter) : option (list cond) :=
  match filters with
  | [] => Some []
  | f :: filters' =>
      if negb (bool_decide (pf_op f = EQ)) then None
      else
        let key := strip (pf_key f) in
        if decide (key = "") then None
        else match validate_property_index_field key with
             | inl _ => None
             | inr _ => (HasEq key (pf_value f) ::.) <$> eq_conds filters'
             end
  end.

Definition resolve_structured_eq_feature_ids (c : string) (filters : list PropertyFilter)
    (limit : Z) (exclude : list string) : TX (option (list string)) :=
  match filters with
  | [] => mret None
  | _ =>
      match eq_conds filters with
      | None => mret None
      | Some conds =>
          ids ← fstmt (AnyIds c (shadow_conds exclude ++ conds)%list (Z.max 1 limit)); mret (Some ids)
      end
  end.

(** *** [list_features_paginated] *)

Definition page_ids (c : string) (a : ListArgs) : TX (list string) :=
  let sortby := sort_name (la_sortby a) in
  let shadow := shadow_conds (la_exclude a) in
  let desc := la_sortdesc a in let limit := la_limit a in let offset := la_offset a in
  if negb (has_filters a) && (bool_decide (sortby = None) || bool_decide (sortby = Some "id")) then
    fstmt (FirstIds c shadow desc (limit + offset) limit offset)
  else if negb (has_filters a) && bool_decide (sortby = Some "created_at") then
    fstmt (PageByTime c shadow desc limit offset)
  else if bool_decide (sortby = Some "created_at") then
    fstmt (PageByTimeOnly c (list_conds a) desc limit offset)
  else
    let by_id := fstmt (PageById c (list_conds a) desc limit offset) in
    match sortby with
    | None => by_id
    | Some s =>
        if decide (s = "id") then by_id
        else
          let key := safe_json_key s in
          if decide (key = "") then by_id
          else fstmt (PageByAlias c (list_conds a) key desc limit offset)
    end.

(** The total before the page is read, and whether it is left for later. *)
Definition count_matched (c : string) (a : ListArgs) : TX (Z * bool) :=
  let count := n ← fstmt (CountIds c (list_conds a)); mret (n, false) in
  if la_skip_count a then
    mret match la_count a with
         | Some n => if has_filters a then (0, true) else (n, false)
         | None => (0, true)
         end
  else if has_filters a then count
  else match la_count a with Some n => mret (n, false) | None => count end.

(** A feature of a page without geometries. *)
Definition boxed_feature (r : logical_row) : Feature :=
  mkFeature (lr_id r) (lr_collection r) None None (lr_box r) (lr_props r) (lr_created r) (lr_updated r).

(** [{row.id: row for row in rows}]: the last row of an id. *)
Definition row_by_id (rows : list logical_row) (id : string) : option logical_row :=
  List.find (fun r => bool_decide (lr_id r = id)) (reverse rows).
Definition parts_by_id (rows : list part_row) (id : string) : list part_row :=
  List.filter (fun r => bool_decide (pr_id r = id)) rows.

Fixpoint build_all (rows : list part_row) (ids : list string) : res (list Feature) :=
  match ids with
  | [] => inr []
  | id :: ids' =>
      match parts_by_id rows id with
      | [] => build_all rows ids'
      | parts =>
          let! f := parts_to_logical_feature parts in
          let! l := build_all rows ids' in inr (f :: l)
      end
  end.

(** The second phase: the features of the ids of a page. *)
Definition page_features (c : string) (a : ListArgs) (ids : list string) : TX (list Feature) :=
  let shadow := shadow_conds (la_exclude a) in
  if la_geometry a then
    rows ← fstmt (PartsOf c ids shadow);
    lift_tx (build_all rows ids)
  else
    rows ← fstmt (Boxes c ids shadow);
    mret (omap (fun id => boxed_feature <$> row_by_id rows id) ids).

Definition list_features_paginated (c : string) (a : ListArgs) : TX (list Feature * Z) :=
  counted ← count_matched c a;
  let '(total, deferred) := counted in
  ids ← page_ids c a;
  match ids with
  | [] => mret ([], if deferred : bool then la_offset a else total)
  | _ =>
      let n := Z.of_nat (length ids) in
      let total :=
        if deferred : bool then la_offset a + n + (if n <? la_limit a then 0 else 1) else total in
      features ← page_features c a ids;
      mret (features, total)
  end.

(** *** [stream_features_geojsonl] *)

Record export_row := ExportRow { ex_id : string; ex_geojson : option json; ex_props : option json }.
Definition export_part (r : part_row) : export_row :=
  ExportRow (pr_id r) (pr_geojson r) (pr_props r).
Definition export_feature (f : Feature) : export_row :=
  ExportRow (ft_id f) (ft_geojson f) (ft_props f).

Definition export_batch (batch_size : Z) : Z := Z.max 1 (Z.min batch_size 2000).

(** The batches of a download without a box; [None] when the fuel is used up. *)
Fixpoint stream_parts (fuel : nat) (c : string) (w : list cond) (batch : Z)
    (after : option (string * Z)) : TX (option (list export_row)) :=
  match fuel with
  | O => mret None
  | S fuel' =>
      rows ← fstmt (NextParts c (w ++ match after with
                                      | Some (id, i) => [KeyAfter id i] | None => [] end)%list batch);
      match last rows with
      | None => mret (Some [])
      | Some r =>
          rest ← stream_parts fuel' c w batch (Some (pr_id r, pr_index r));
          mret ((fun l => (map export_part rows ++ l)%list) <$> rest)
      end
  end.

(** With a box, the features with a part in it are streamed whole. *)
Fixpoint stream_in_box (fuel : nat) (c : string) (w : list cond) (batch : Z)
    (after : option string) : TX (option (list export_row)) :=
  match fuel with
  | O => mret None
  | S fuel' =>
      ids ← fstmt (NextIds c (w ++ opt_cond IdAfter after)%list batch);
      match last ids with
      | None => mret (Some [])
      | Some id =>
          parts ← fstmt (PartsOf c ids []);
          features ← lift_tx (build_all parts ids);
          rest ← stream_in_box fuel' c w batch (Some id);
          mret ((fun l => (map export_feature features ++ l)%list) <$> rest)
      end
  end.

Definition stream_features_geojsonl (fuel : nat) (c : string) (bbox : option envelope)
    (dt_start dt_end : option datetime) (props : list (string * string))
    (structured : list PropertyFilter) (q : option string) (batch_size : Z) :
  TX (option (list export_row)) :=
  let w := query_conds bbox dt_start dt_end props structured q in
  match bbox with
  | Some _ => stream_in_box fuel c w (export_batch batch_size) None
  | None => stream_parts fuel c w (export_batch batch_size) None
  end.

(** *** [get_feature] *)

(** [active_shadow_exclude_job_ids] (app/services/shadow_import.py) *)
Definition active_shadow_exclude_job_ids (c : string) : M (list string) :=
  if bulk_replace_shadow_import cfg then get_active_bulk_job_ids cfg c else mret [].

Definition get_feature_tx (jobs : list string) (c id : string) : TX (option Feature) :=
  let w := match jobs with [] => [] | _ => [NotOfJobs jobs] end in
  row ← fstmt (Logical c id w); mret (row_to_logical_feature <$> row).
Definition get_feature (c id : string) : M (option Feature) :=
  jobs ← active_shadow_exclude_job_ids c; transaction (get_feature_tx jobs c id).

(** ** Writes *)

(** [{mb:.0f}]: the nearest integer, ties to even. *)
Definition mebibytes (n : Z) : Z :=
  let m := 1024 * 1024 in
  let q := n / m in let r := n mod m in
  if (2 * r <? m) || ((2 * r =? m) && Z.even q) then q else q + 1.
Definition too_large (n max_bytes : Z) : exn :=
  GeometryTooLargeError
    ("Geometry exceeds maximum size (" +:+ str_of_Z (mebibytes max_bytes) +:+ " MiB): WKB is "
     +:+ str_of_Z n +:+ " bytes, limit is " +:+ str_of_Z max_bytes +:+ " bytes.").

Definition geometry_error : exn := ValueError "invalid geometry".
Definition recursion_error : exn := RuntimeError "maximum recursion depth exceeded".
Definition need {A} (x : option A) (e : exn) : res A :=
  match x with Some a => inr a | None => inl e end.

(** The geometry of a request: parsed, repaired, dropped when empty, and limited. *)
Definition prepared_geometry (geom_dict : option json) : res (option geom) :=
  match geom_dict with
  | None => inr None
  | Some d =>
      if json_truthy d then
        let! g := need (shape d) geometry_error in
        let! g := (if is_valid g then inr g else need (make_valid g) geometry_error) in
        if is_empty g then inr None
        else
          match check_geometry_size_limit cfg (Some g) None with
          | inl (n, max_bytes) => inl (too_large n max_bytes)
          | inr _ => inr (Some g)
          end
      else inr None
  end.

(** [_validate_raster_cog_path_in_properties]; the file system resolves paths. *)
Section cog_paths.
Context (expanduser path_resolve : string -> string).

Definition path_under (root c : string) : bool :=
  bool_decide (c = root) || startswith (if decide (root = "/") then root else root +:+ "/") c.
Definition resolve_stored_cog_path (cog_path storage_root : string) : res string :=
  if decide (strip cog_path = "") then inl (CogPathOutsideStorageError "cog_path is empty")
  else
    let root := path_resolve storage_root in
    let raw := expanduser cog_path in
    let candidate := path_resolve (if startswith "/" raw then raw else root +:+ "/" +:+ raw) in
    if path_under root candidate then inr candidate
    else inl (CogPathOutsideStorageError "cog_path must be under raster storage root").
Definition validate_raster_cog_path_in_properties (props : option (list (string * json))) : res unit :=
  match props ≫= dict_get "raster" with
  | Some (JObj raster) =>
      match dict_get "cog_path" raster with
      | Some (JStr cp) =>
          if decide (strip cp = "") then inr tt
          else let! _ := resolve_stored_cog_path cp (raster_storage_path cfg) in inr tt
      | _ => inr tt
      end
  | _ => inr tt
  end.

(** The INSERT of the parts of a feature. *)
Definition insert_batches (id c : string) (props : option (list (string * json))) (now : datetime) :
  list (list (Z * nat * string)) -> TX unit :=
  fix go bs :=
    match bs with
    | [] => mret tt
    | values :: bs' => fstmt (InsertParts id c values (props_param props) now);; go bs'
    end.

Definition nonempty_wkts (parts : list geom) : list string :=
  map wkt (List.filter (fun p => negb (is_empty p)) parts).
Definition insert_feature (id c : string) (g : option geom) (props : option (list (string * json)))
    (now : datetime) : TX unit :=
  let max_vertices := features_subdivide_max_vertices cfg in
  let direct := fstmt (InsertSubdivided id c (wkt <$> g) (props_param props) now max_vertices) in
  match g with
  | None => direct
  | Some g =>
      n ← lift_tx (need (coord_count depth g) recursion_error);
      if MAX_COORDS_FOR_DB_SUBDIVIDE <? n then
        parts ← lift_tx (need (subdivide_geometry_by_vertices depth g max_vertices) recursion_error);
        insert_batches id c props now (batches 80 (nonempty_wkts parts))
      else direct
  end.

Record FeatureCreate := mkFeatureCreate {
  fc_geometry : option json;
  fc_properties : option (list (string * json));
  fc_collection : string
}.

(** What both create functions and the replacement store. *)
Definition checked (geometry : option json) (properties : option (list (string * json))) :
  res (option geom * option (list (string * json))) :=
  let! g := prepared_geometry geometry in
  let props := properties_without_readonly properties in
  let! _ := validate_raster_cog_path_in_properties props in
  inr (g, props).

Definition create_tx (data : FeatureCreate) (id : string) (now : Z) : TX unit :=
  stored ← lift_tx (checked (fc_geometry data) (fc_properties data));
  insert_feature id (fc_collection data) stored.1 stored.2 (now_utc now);;
  fstmt (AddFeatureCount (fc_collection data) 1).

Definition create_feature_with_id (data : FeatureCreate) (id : string) : M Feature :=
  now ← get_now;
  transaction (create_tx data id now);;
  invalidate_collection_cache (fc_collection data);;
  f ← get_feature (fc_collection data) id;
  match f with Some f => mret f | None => raise AssertionError end.

(** [create_feature]: the same under a new id. *)
Definition create_feature (uuid7 : M string) (data : FeatureCreate) : M Feature :=
  id ← uuid7; create_feature_with_id data id.

Record FeatureReplace := mkFeatureReplace {
  fr_id : string;
  fr_geometry : option json;
  fr_properties : option (list (string * json))
}.

Definition replace_tx (c id : string) (data : FeatureReplace) (now : Z) : TX unit :=
  fstmt (DeleteFeature c id);;
  stored ← lift_tx (checked (fr_geometry data) (fr_properties data));
  insert_feature id c stored.1 stored.2 (now_utc now).

Definition replace_feature (c id : string) (data : FeatureReplace) : M bool :=
  f ← get_feature c id;
  match f with
  | None => mret false
  | Some _ =>
      now ← get_now;
      transaction (replace_tx c id data now);;
      invalidate_collection_cache c;;
      mret true
  end.

(** A field of [FeaturePatch] that the body leaves out is [None]. *)
Record FeaturePatch := mkFeaturePatch {
  fp_geometry : option (option json);
  fp_properties : option (option (list (string * json)))
}.

(** [{**existing, **incoming}] *)
Definition merge_props (existing incoming : list (string * json)) : list (string * json) :=
  foldl (fun m kv => dict_set kv.1 kv.2 m) existing incoming.

(** [geometry_to_geojson] of a WKTElement; a geometry Shapely cannot read raises. *)
Definition geometry_to_geojson (g : option string) : res (option json) :=
  match g with
  | None => inr None
  | Some w => let! g := need (load_wkt w) geometry_error in inr (shapely_to_api_geojson g)
  end.

Definition object_fields (j : option json) : list (string * json) :=
  match j with Some (JObj m) => m | _ => [] end.

Definition patched (f : Feature) (data : FeaturePatch) :
  res (option geom * option (list (string * json))) :=
  let! geom_dict := match fp_geometry data with
                    | Some g => inr g
                    | None => geometry_to_geojson (ft_geometry f)
                    end in
  let incoming := match fp_properties data with
                  | Some props => properties_without_readonly props
                  | None => None
                  end in
  let props := merge_props (object_fields (ft_props f)) (default [] incoming) in
  let! _ := validate_raster_cog_path_in_properties (Some props) in
  let! g := prepared_geometry geom_dict in
  inr (g, Some props).

Definition update_tx (c id : string) (g : option geom) (props : option (list (string * json)))
    (now : Z) : TX unit :=
  fstmt (DeleteFeature c id);; insert_feature id c g props (now_utc now).

Definition update_feature (c id : string) (data : FeaturePatch) : M (option Feature) :=
  f ← get_feature c id;
  match f with
  | None => mret None
  | Some f =>
      stored ← lift (patched f data);
      now ← get_now;
      transaction (update_tx c id stored.1 stored.2 now);;
      invalidate_collection_cache c;;
      get_feature c id
  end.

Definition delete_tx (c id : string) : TX bool :=
  n ← fstmt (DeleteFeature c id);
  if n =? 0 then mret false else fstmt (SubFeatureCount c 1);; mret true.
Definition delete_feature (c id : string) : M bool :=
  deleted ← transaction (delete_tx c id);
  if (deleted : bool) then invalidate_collection_cache c;; mret true else mret false.
End cog_paths.
End features.
