(* ===== verification/FeatureDemo.v ===== *)
(** * Concrete servers for features

    An evaluator of the functions that [FeatureRows] and [Features] take from
    PostgreSQL, PostGIS and shapely, on which the theorems about features are applied:
    geometries are lists of points stored as the text of their GeoJSON, texts are
    ordered byte by byte and [ILIKE] compares them as they are. *)

From S2P Require Import Prelude PyTime Redis Postgres World Database Partitions Json CopyFormat Subdivide.
From S2P Require Import CopyIngest PropertyFilters FeatureRows DynamicCache Features.

Definition points_json (g : list (Z * Z)) : json :=
  JObj [("type", JStr "MultiPoint");
        ("coordinates", JList (map (fun p : Z * Z => JList [JInt p.1; JInt p.2]) g))].

Definition plain_postgis : PostGIS := {|
  pg_le := String.leb;
  pg_hits g e := negb (bool_decide (g = ""));
  pg_contains g p := false;
  pg_text := dumps;
  pg_flat := dumps;
  pg_lower s := s;
  pg_is_float s := true;
  pg_num op x y := bool_decide (x = y);
  pg_geojson g := default JNull (loads g);
  pg_union l := head l;
  pg_extent l := None;
  pg_envelope l := None;
  pg_force2d w := Some (dumps (JObj [("type", JStr "MultiPoint"); ("coordinates", JList [])]));
  pg_subdivide g n := [g]
|}.

#[export] Instance plain_postgis_laws : @PostGISLaws plain_postgis.
Proof.
  split; cbn.
  - intros x. apply Is_true_true. by apply (reflexivity (R := String.le)).
  - apply String.leb_total.
  - intros x y z. rewrite <-!Is_true_true. apply (transitivity (R := String.le)).
  - apply String.leb_antisym.
Qed.

(** The same server with the order of texts turned around. *)
Definition flipped (P : PostGIS) : PostGIS := {|
  pg_le x y := @pg_le P y x; pg_hits := @pg_hits P; pg_contains := @pg_contains P; pg_text := @pg_text P;
  pg_flat := @pg_flat P; pg_lower := @pg_lower P; pg_is_float := @pg_is_float P; pg_num := @pg_num P;
  pg_geojson := @pg_geojson P; pg_union := @pg_union P; pg_extent := @pg_extent P;
  pg_envelope := @pg_envelope P; pg_force2d := @pg_force2d P; pg_subdivide := @pg_subdivide P
|}.
#[export] Instance flipped_laws (P : PostGIS) : @PostGISLaws P -> @PostGISLaws (flipped P).
Proof.
  intros [Hr Ht Htr Ha]. split; cbn; [done| |eauto|eauto]. intros x y. by destruct (Ht x y); auto.
Qed.

(** A server that breaks the ties of an order by creation time one way on the first
    page and the other way on the next ones, as the standard allows. *)
Definition fickle_features (P : PostGIS) : FeatureServer := fun A q =>
  match q in fsql A return database -> (sql_error + A) * database with
  | PageByTimeOnly c w desc lim off => fun db =>
      (inr (page lim off (@by_time (if off =? 0 then P else flipped P) desc (selected w (parts_of db c)))), db)
  | q' => frun q'
  end.
#[export] Instance fickle_laws (P : PostGIS) : @PostGISLaws P -> @FeatureLaws P (fickle_features P).
Proof.
  intros HP. pose proof (@reference_features_laws P HP) as [Hrun Hbox Hany Htime]. split.
  - intros A q db Hd. by destruct q.
  - exact Hbox.
  - exact Hany.
  - intros c w desc lim off db _. cbn. eexists. split; [reflexivity|].
    destruct (off =? 0); (split; [apply by_time_perm|apply by_time_sorted]).
Qed.

Definition plain_geometry : GeometryOps (list (Z * Z)) := {|
  unary_union l := Some (concat l);
  mapping g := Some (points_json g);
  collect_into _ l := Some (concat l);
  load_wkt _ := None
|}.

(** Two towns: [a] in two parts, [b] in one, created at the same time. *)
Definition town (id : string) (i : Z) (name : string) (g : list (Z * Z)) : frow :=
  new_row id "towns" i (Some (dumps (points_json g))) (PText (dumps (JObj [("name", JStr name)]))) None
    (now_utc (us 60)).
Definition towns : list frow :=
  [town "b" 0 "south" [(7, 7)]; town "a" 0 "north" [(1, 2)]; town "a" 1 "north" [(3, 4)]].
Definition towns_db : database := Db ∅ ∅ towns {[ "towns" := CollRow 2 None ]}.

Lemma towns_db_wf : db_wf towns_db.
Proof. split; cbn [towns_db db_parts db_tables db_default]; done. Qed.

#[export] Hint Resolve towns_db_wf : core.
