(* ===== verification/FeaturePaging.v ===== *)
(** * Pages and downloads of features

    What the pages of a list and the batches of a download add up to: by id, the
    pages are the matching features in order without repetition, and a download
    gives every matching part, or every feature of the box, once. *)

From stdpp Require Import sorting.
From S2P Require Import Prelude PyTime Redis Postgres World Database Json Mutex JobStore.
From S2P Require Import BulkActivity CopyFormat Subdivide Collections PropertyFilters FeatureRows.
From S2P Require Import CopyIngest DynamicCache Features FeatureDemo.

Section paging.
Context {geom num : Type} `{Shapely geom num} `{GeometryOps geom}.
Context `{FeatureLaws} `{!PostGISLaws} (depth : nat).

(** ** Sorted lists *)

Lemma by_key_perm l : by_key l ≡ₚ l.
Proof. apply merge_sort_Permutation. Qed.

Definition part_order (x y : frow_part) : Prop := key_order (part_key x) (part_key y).
#[local] Instance part_order_trans : Transitive part_order.
Proof. intros x y z. apply key_order_trans. Qed.
#[local] Instance part_order_total : Total part_order.
Proof. intros x y. apply key_order_total. Qed.
Lemma by_key_sorted l : StronglySorted part_order (by_key l).
Proof. apply (StronglySorted_merge_sort part_order). Qed.

Lemma filter_perm {A} (f : A -> bool) l l' : l ≡ₚ l' -> List.filter f l ≡ₚ List.filter f l'.
Proof. induction 1; cbn; repeat case_match; eauto using Permutation. Qed.
Lemma filter_sorted {A} (R : A -> A -> Prop) (f : A -> bool) l :
  StronglySorted R l -> StronglySorted R (List.filter f l).
Proof.
  induction 1 as [|x l Hl IH Hx]; cbn; [constructor|]. case_match; [|done]. constructor; [done|].
  rewrite Forall_forall in Hx |- *. intros y Hy. apply Hx.
  rewrite list_elem_of_In in Hy |- *. by apply filter_In in Hy as [??].
Qed.

Definition unique_parts (l : list frow_part) : Prop := NoDup (map part_key l).

Lemma unique_parts_eq l x y :
  unique_parts l -> x ∈ l -> y ∈ l -> part_key x = part_key y -> x = y.
Proof.
  intros Hl Hx Hy Hk. induction l as [|z l IH]; [by apply not_elem_of_nil in Hx|].
  unfold unique_parts in Hl. cbn in Hl. apply NoDup_cons in Hl as [Hz Hl].
  apply elem_of_cons in Hx as [->|Hx]; apply elem_of_cons in Hy as [->|Hy].
  - done.
  - destruct Hz. rewrite Hk. by apply list_elem_of_fmap_2.
  - destruct Hz. rewrite <-Hk. by apply list_elem_of_fmap_2.
  - by apply IH.
Qed.

(** A list of parts sorted by key is determined by its elements. *)
Lemma sorted_parts_unique l k k' :
  unique_parts l -> k ≡ₚ l -> k' ≡ₚ l -> StronglySorted part_order k ->
  StronglySorted part_order k' -> k = k'.
Proof.
  intros Hl Hk Hk' Hs Hs'. eapply StronglySorted_unique_strong; [|done..|by rewrite Hk'].
  intros x y Hx Hy Hxy Hyx. rewrite Hk in Hx. rewrite Hk' in Hy.
  apply (unique_parts_eq l); [done..|]. by apply key_order_antisymm.
Qed.
Lemma by_key_filter f l :
  unique_parts l -> by_key (List.filter f l) = List.filter f (by_key l).
Proof.
  intros Hl. apply (sorted_parts_unique (List.filter f l)).
  - eapply sublist_NoDup; [exact Hl|]. clear. induction l as [|x l IH]; cbn; [constructor|].
    case_match; cbn; by constructor.
  - apply by_key_perm.
  - apply filter_perm, by_key_perm.
  - apply by_key_sorted.
  - apply filter_sorted, by_key_sorted.
Qed.

Lemma sort_ids_unique l l' : l ≡ₚ l' -> sort_ids false l = sort_ids false l'.
Proof.
  intros Hl. apply (StronglySorted_unique id_le); try apply sort_ids_sorted.
  by rewrite !sort_ids_perm.
Qed.
Lemma sort_ids_filter f l : sort_ids false (List.filter f l) = List.filter f (sort_ids false l).
Proof.
  apply (StronglySorted_unique id_le).
  - apply sort_ids_sorted.
  - apply filter_sorted, sort_ids_sorted.
  - rewrite sort_ids_perm. by apply filter_perm; rewrite sort_ids_perm.
Qed.
Lemma sort_ids_desc l : sort_ids true l = reverse (sort_ids false l).
Proof. done. Qed.

(** In a list without repetitions, what comes after an element is what is greater. *)
Lemma filter_after {A} (f : A -> bool) (pre post : list A) x :
  (forall y, y ∈ (pre ++ [x])%list -> f y = false) -> (forall y, y ∈ post -> f y = true) ->
  List.filter f (pre ++ x :: post)%list = post.
Proof.
  intros Hpre Hpost. induction pre as [|z pre IH]; cbn.
  - rewrite (Hpre x) by set_solver. clear Hpre. induction post as [|y post IH]; [done|]. cbn.
    rewrite Hpost by apply list_elem_of_here. f_equal. apply IH. intros.
    by apply Hpost, list_elem_of_further.
  - rewrite (Hpre z) by set_solver. apply IH. intros. apply Hpre. set_solver.
Qed.

Lemma sorted_after {A} (R : A -> A -> Prop) (pre post : list A) x y :
  StronglySorted R (pre ++ x :: post)%list -> y ∈ post -> R x y.
Proof.
  intros (_ & _ & Hs)%StronglySorted_app Hy. apply StronglySorted_cons in Hs as [Hx _].
  rewrite Forall_forall in Hx. by apply Hx.
Qed.
Lemma sorted_upto {A} (R : A -> A -> Prop) (pre post : list A) x y :
  Reflexive R -> StronglySorted R (pre ++ x :: post)%list -> y ∈ (pre ++ [x])%list -> R y x.
Proof.
  intros Hr (Hs & _ & _)%StronglySorted_app [Hy|Hy]%elem_of_app.
  - apply Hs; [done|apply list_elem_of_here].
  - by apply list_elem_of_singleton in Hy as ->.
Qed.

(** ** Conditions *)

Lemma selects_app w w' p : selects (w ++ w')%list p = selects w p && selects w' p.
Proof. apply forallb_app. Qed.
Lemma selected_app w w' l : selected (w ++ w')%list l = List.filter (selects w') (selected w l).
Proof.
  unfold selected. induction l as [|p l IH]; [done|]. cbn. rewrite selects_app.
  destruct (selects w p); cbn; [by rewrite IH|done].
Qed.
Lemma no_breaks_app w w' l : no_breaks (w ++ w')%list l = no_breaks w l && no_breaks w' l.
Proof.
  unfold no_breaks. induction l as [|p l IH]; [done|]. cbn. unfold breaks at 1.
  rewrite existsb_app, negb_orb, IH. fold (breaks w p) (breaks w' p).
  destruct (breaks w p), (breaks w' p); cbn; by rewrite ?andb_false_r.
Qed.
Lemma no_breaks_safe w l : forallb (fun c => negb (existsb (fun p => fails p c) l)) w = true ->
  no_breaks w l = true.
Proof.
  intros Hw. unfold no_breaks. apply forallb_forall. intros p Hp. apply negb_true_iff.
  unfold breaks. apply not_true_iff_false. intros (c & Hc & Hf)%existsb_exists.
  rewrite forallb_forall in Hw. specialize (Hw c Hc). apply negb_true_iff in Hw.
  apply not_true_iff_false in Hw. apply Hw. apply existsb_exists. eauto.
Qed.
Lemma no_breaks_nil l : no_breaks [] l = true.
Proof. by apply no_breaks_safe. Qed.
Lemma no_breaks_shadow exclude l : no_breaks (shadow_conds exclude) l = true.
Proof.
  unfold shadow_conds. destruct (shadow_jobs exclude); [apply no_breaks_nil|].
  apply no_breaks_safe. cbn. rewrite andb_true_r, negb_true_iff. apply not_true_iff_false.
  by intros (p & _ & [=])%existsb_exists.
Qed.
Lemma unique_selected w l : unique_parts l -> unique_parts (selected w l).
Proof.
  intros Hl. eapply sublist_NoDup; [exact Hl|]. clear. unfold selected.
  induction l as [|x l IH]; cbn; [constructor|]. case_match; cbn; by constructor.
Qed.

Lemma fstmt_run {A} (q : fsql A) db :
  determined q = true -> sound q db = true ->
  fstmt q db = match frun q db with (inr a, db') => (inr a, db') | (inl e, db') => (inl (exn_of_sql e), db') end.
Proof. intros Hd Hs. unfold fstmt. by rewrite fexec_run. Qed.

(** ** Downloads *)

Definition after_key (after : option (string * Z)) : list cond :=
  match after with Some (id, i) => [KeyAfter id i] | None => [] end.

Lemma key_after_spec p id i : holds p (KeyAfter id i) = negb (key_le (part_key p) (id, i)).
Proof.
  apply eq_true_iff_eq. cbn [holds].
  rewrite negb_true_iff, <-not_true_iff_false, key_le_iff, orb_true_iff, andb_true_iff,
    bool_decide_eq_true, Z.ltb_lt. cbn. split.
  - intros [Hlt|[-> Hi]] [Hp|[Hp ?]].
    + pose proof (pg_lt_trans _ _ _ Hlt Hp) as Hx. by rewrite pg_lt_irrefl in Hx.
    + by rewrite Hp, pg_lt_irrefl in Hlt.
    + by rewrite pg_lt_irrefl in Hp.
    + lia.
  - intros Hn. destruct (key_order_total (part_key p) (id, i)) as [Hk|Hk];
      unfold key_order in Hk; rewrite Is_true_true, key_le_iff in Hk; cbn in Hk; [by destruct Hn|].
    destruct Hk as [Hk|[Hid Hk]]; [by left|right]. split; [done|].
    destruct (decide (i = p_index p)) as [Hi|]; [|lia]. destruct Hn. right. split; [done|lia].
Qed.

Lemma after_rows l pre x post :
  unique_parts l -> by_key l = (pre ++ x :: post)%list ->
  by_key (List.filter (selects (after_key (Some (part_key x)))) l) = post.
Proof.
  intros Hl Hs. rewrite by_key_filter by done. rewrite Hs.
  pose proof (by_key_sorted l) as Hso. rewrite Hs in Hso.
  assert (forall y, selects (after_key (Some (part_key x))) y = negb (key_le (part_key y) (part_key x))) as Hsel.
  { intros y. unfold selects. cbn [after_key part_key forallb]. by rewrite andb_true_r, key_after_spec. }
  apply filter_after; intros y Hy; rewrite Hsel.
  - apply negb_false_iff, Is_true_true. apply (sorted_upto part_order pre post); [|done|done].
    intros z. destruct (part_order_total z z); done.
  - apply negb_true_iff, not_true_iff_false. intros Hle.
    assert (part_key y = part_key x) as He.
    { apply key_order_antisymm; [by apply Is_true_true|]. by eapply (sorted_after part_order). }
    assert (NoDup (map part_key (by_key l))) as Hn by (by rewrite by_key_perm).
    rewrite Hs, map_app in Hn. cbn in Hn. apply NoDup_app in Hn as (_ & _ & Hn).
    apply NoDup_cons in Hn as [Hn _]. apply Hn. rewrite <-He. by apply list_elem_of_fmap_2.
Qed.

Lemma sound_after c w batch after db :
  no_breaks w (parts_of db c) = true ->
  sound (NextParts c (w ++ after_key after)%list batch) db = true.
Proof.
  intros Hw. unfold sound, conditions. rewrite no_breaks_app, Hw. cbn.
  apply no_breaks_safe. destruct after as [[]|]; [|done]. cbn. rewrite andb_true_r, negb_true_iff.
  apply not_true_iff_false. by intros (p & _ & [=])%existsb_exists.
Qed.

Definition last_key (l : list frow_part) : option (string * Z) := part_key <$> last l.

Lemma stream_parts_rest c w batch db pre post fuel :
  unique_parts (parts_of db c) -> no_breaks w (parts_of db c) = true -> 1 <= batch ->
  by_key (selected w (parts_of db c)) = (pre ++ post)%list -> (length post < fuel)%nat ->
  stream_parts fuel c w batch (last_key pre) db
  = (inr (Some (map export_part (map api_row post))), db).
Proof.
  intros Hu Hw Hb. revert pre post. induction fuel as [|fuel IH]; intros pre post Hs Hf; [lia|].
  cbn [stream_parts]. change (match last_key pre with Some (id, i) => _ | None => _ end)
    with (after_key (last_key pre)).
  rewrite tx_bind_run, fstmt_run by (done || by apply sound_after). cbn [frun].
  assert (by_key (selected (w ++ after_key (last_key pre))%list (parts_of db c)) = post) as ->.
  { unfold last_key. destruct (last pre) as [x|] eqn:Hx.
    - apply last_Some in Hx as [pre' ->]. rewrite <-app_assoc in Hs. rewrite selected_app.
      eapply after_rows; [by apply unique_selected|done].
    - apply last_None in Hx as ->. cbn [fmap option_fmap option_map after_key]. by rewrite app_nil_r. }
  set (rows := take (Z.to_nat batch) post). unfold page. rewrite drop_0. fold rows.
  change (map api_row rows) with (api_row <$> rows). rewrite fmap_last.
  destruct (last rows) as [x|] eqn:Hx; cbn [fmap option_fmap option_map].
  - assert (last_key (pre ++ rows)%list = Some (part_key x)) as Hk.
    { unfold last_key. by rewrite last_app, Hx. }
    rewrite tx_bind_run. change (Some (pr_id (api_row x), pr_index (api_row x))) with (Some (part_key x)).
    rewrite <-Hk, (IH _ (drop (Z.to_nat batch) post)).
    + cbn. rewrite <-map_app. unfold rows. rewrite <-map_app, take_drop. done.
    + rewrite <-app_assoc. unfold rows. by rewrite take_drop.
    + rewrite length_drop. destruct post as [|y post]; [|cbn in *; lia].
      unfold rows in Hx. by rewrite take_nil in Hx.
  - apply last_None in Hx. destruct post as [|y post]; [done|]. exfalso.
    unfold rows in Hx. destruct (Z.to_nat batch) eqn:Hbn; [lia|done].
Qed.

(** C10. A download without a box gives every matching part exactly once, in the order
    of the primary key, whatever the size of the batches; it ends after at most as
    many batches as there are parts. *)
Theorem download_complete (fuel : nat) (c : string) (dt_start dt_end : option datetime)
    (props : list (string * string)) (structured : list PropertyFilter) (q : option string)
    (batch_size : Z) (db : database) :
  let w := query_conds None dt_start dt_end props structured q in
  unique_parts (parts_of db c) -> no_breaks w (parts_of db c) = true ->
  (length (selected w (parts_of db c)) < fuel)%nat ->
  stream_features_geojsonl depth fuel c None dt_start dt_end props structured q batch_size db
  = (inr (Some (map export_part (map api_row (by_key (selected w (parts_of db c)))))), db).
Proof.
  intros w Hu Hw Hf. unfold stream_features_geojsonl.
  apply (stream_parts_rest c _ _ db []); [done..| |done|].
  - unfold export_batch. lia.
  - by rewrite by_key_perm.
Qed.

(** *** Features built from all their parts *)

(** The feature of an id, from the rows [w] leaves visible. *)
Definition whole (c : string) (w : list cond) (db : database) (id : string) : res Feature :=
  parts_to_logical_feature depth (map api_row (by_key (of_id id (selected w (parts_of db c))))).

Lemma parts_by_id_rows (l : list frow_part) id :
  parts_by_id (map api_row l) id = map api_row (of_id id l).
Proof.
  unfold parts_by_id, of_id. induction l as [|p l IH]; [done|]. cbn. rewrite IH. by case_bool_decide.
Qed.
Lemma filter_filter {A} (f g : A -> bool) l :
  List.filter f (List.filter g l) = List.filter (fun x => g x && f x) l.
Proof.
  induction l as [|x l IH]; [done|]. cbn. destruct (g x); cbn; [|done]. by rewrite IH.
Qed.

Lemma of_id_page c ids w db id :
  id ∈ ids ->
  of_id id (selected (IdIn ids :: w) (parts_of db c)) = of_id id (selected w (parts_of db c)).
Proof.
  intros Hid. unfold selected, of_id. rewrite !filter_filter. apply filter_ext. intros p. cbn.
  destruct (decide (p_id p = id)) as [->|Hn].
  - by rewrite !bool_decide_eq_true_2, !andb_true_r by done.
  - by rewrite (bool_decide_eq_false_2 (p_id p = id)), !andb_false_r by done.
Qed.

Lemma page_parts c ids w db id :
  unique_parts (parts_of db c) -> id ∈ ids ->
  parts_by_id (map api_row (by_key (selected (IdIn ids :: w) (parts_of db c)))) id
  = map api_row (by_key (of_id id (selected w (parts_of db c)))).
Proof.
  intros Hu Hid. rewrite parts_by_id_rows. unfold of_id at 1.
  rewrite <-by_key_filter by (by apply unique_selected). do 2 f_equal. by apply of_id_page.
Qed.

Definition all_ids (c : string) (w : list cond) (db : database) : list string :=
  distinct_ids (selected w (parts_of db c)).

(** [fs] are the features of [ids]. *)
Definition features_of (c : string) (w : list cond) (db : database) (ids : list string)
    (fs : list Feature) : Prop :=
  Forall2 (fun id f => whole c w db id = inr f) ids fs.

Lemma build_page c ids w db l fs :
  unique_parts (parts_of db c) -> l ⊆ ids -> (forall id, id ∈ l -> id ∈ all_ids c w db) ->
  features_of c w db l fs ->
  build_all depth (map api_row (by_key (selected (IdIn ids :: w) (parts_of db c)))) l = inr fs.
Proof.
  intros Hu Hl Hin. induction 1 as [|id f l fs Hf _ IH]; [done|]. cbn [build_all].
  rewrite page_parts by (done || apply Hl, list_elem_of_here).
  assert (of_id id (selected w (parts_of db c)) <> []) as Hne.
  { assert (id ∈ all_ids c w db) as Hid by apply Hin, list_elem_of_here.
    apply elem_of_distinct in Hid as (p & Hp & Hpid).
    intros Hnil. assert (p ∈ of_id id (selected w (parts_of db c))) as Hp' by by apply elem_of_of_id.
    rewrite Hnil in Hp'. by apply not_elem_of_nil in Hp'. }
  destruct (map api_row (by_key (of_id _ _))) as [|r rows] eqn:Hr.
  - apply map_eq_nil in Hr. pose proof (by_key_perm (of_id id (selected w (parts_of db c)))) as Hp.
    rewrite Hr in Hp. by apply Permutation_nil_l in Hp.
  - unfold whole in Hf. rewrite Hr in Hf. rewrite Hf. cbn [res_bind].
    rewrite IH; [done| |].
    + intros x Hx. apply Hl. by apply list_elem_of_further.
    + intros x Hx. apply Hin. by apply list_elem_of_further.
Qed.

(** *** Downloads with a box *)

Lemma after_ids l pre x post :
  sort_ids false l = (pre ++ x :: post)%list -> NoDup l ->
  sort_ids false (List.filter (pg_lt x) l) = post.
Proof.
  intros Hs Hn. rewrite sort_ids_filter, Hs.
  pose proof (sort_ids_sorted l) as Hso. rewrite Hs in Hso.
  apply filter_after; intros y Hy.
  - unfold pg_lt. apply negb_false_iff, Is_true_true. apply (sorted_upto id_le pre post); [|done|done].
    intros z. by destruct (id_le_total z z).
  - unfold pg_lt. apply negb_true_iff, not_true_iff_false. intros Hle.
    assert (y = x) as ->.
    { apply id_le_antisymm; [by apply Is_true_true|]. by eapply (sorted_after id_le). }
    assert (NoDup (sort_ids false l)) as Hn' by by apply sort_ids_NoDup.
    rewrite Hs in Hn'. apply NoDup_app in Hn' as (_ & _ & Hn'). by apply NoDup_cons in Hn' as [? _].
Qed.

Lemma distinct_after w x l :
  distinct_ids (selected (w ++ [IdAfter x])%list l) ≡ₚ List.filter (pg_lt x) (distinct_ids (selected w l)).
Proof.
  apply NoDup_Permutation.
  - apply distinct_ids_NoDup.
  - apply NoDup_ListNoDup, List.NoDup_filter, NoDup_ListNoDup, distinct_ids_NoDup.
  - intros id. rewrite elem_of_distinct, !list_elem_of_In, filter_In, <-list_elem_of_In, elem_of_distinct.
    rewrite selected_app. split.
    + intros (p & Hp & <-). rewrite list_elem_of_In, filter_In, <-list_elem_of_In in Hp.
      destruct Hp as [Hp Hx]. unfold selects in Hx. cbn in Hx. rewrite andb_true_r in Hx. eauto.
    + intros [(p & Hp & <-) Hx]. exists p. split; [|done].
      rewrite list_elem_of_In, filter_In, <-list_elem_of_In. split; [done|].
      unfold selects. cbn. by rewrite Hx.
Qed.

Lemma sound_ids c w batch after db :
  no_breaks w (parts_of db c) = true ->
  sound (NextIds c (w ++ opt_cond IdAfter after)%list batch) db = true.
Proof.
  intros Hw. unfold sound, conditions. rewrite no_breaks_app, Hw. cbn.
  apply no_breaks_safe. destruct after as [id|]; [|done]. cbn. rewrite andb_true_r, negb_true_iff.
  apply not_true_iff_false. by intros (p & _ & [=])%existsb_exists.
Qed.

Lemma all_ids_visible c w db id : id ∈ all_ids c w db -> id ∈ all_ids c [] db.
Proof.
  unfold all_ids. rewrite !elem_of_distinct. intros (p & [Hp _]%elem_of_selected & Hid).
  exists p. split; [|done]. by apply elem_of_selected.
Qed.

Lemma stream_ids_rest c w batch db pre post fs fuel :
  unique_parts (parts_of db c) -> no_breaks w (parts_of db c) = true -> 1 <= batch ->
  sort_ids false (all_ids c w db) = (pre ++ post)%list -> features_of c [] db post fs ->
  (length post < fuel)%nat ->
  stream_in_box depth fuel c w batch (last pre) db = (inr (Some (map export_feature fs)), db).
Proof.
  intros Hu Hw Hb. revert pre post fs. induction fuel as [|fuel IH]; intros pre post fs Hs Hfs Hf; [lia|].
  cbn [stream_in_box].
  rewrite tx_bind_run, fstmt_run by (done || by apply sound_ids). cbn [frun].
  assert (sort_ids false (distinct_ids (selected (w ++ opt_cond IdAfter (last pre))%list (parts_of db c)))
          = post) as ->.
  { destruct (last pre) as [x|] eqn:Hx.
    - apply last_Some in Hx as [pre' ->]. rewrite <-app_assoc in Hs. cbn [opt_cond].
      erewrite sort_ids_unique by apply distinct_after.
      eapply after_ids; [done|apply distinct_ids_NoDup].
    - apply last_None in Hx as ->. cbn [opt_cond]. by rewrite app_nil_r. }
  set (ids := take (Z.to_nat batch) post). unfold page. rewrite drop_0. fold ids.
  destruct (last ids) as [x|] eqn:Hx.
  - assert (last (pre ++ ids)%list = Some x) as Hk by by rewrite last_app, Hx.
    rewrite <-(take_drop (Z.to_nat batch) post) in Hfs. fold ids in Hfs.
    apply Forall2_app_inv_l in Hfs as (fs1 & fs2 & Hfs1 & Hfs2 & ->).
    rewrite tx_bind_run, fstmt_run by (done || apply no_breaks_nil). cbn [frun].
    rewrite tx_bind_run. unfold lift_tx.
    rewrite (build_page c ids [] db ids fs1); [|done|done| |done].
    + rewrite tx_bind_run, <-Hk, (IH _ (drop (Z.to_nat batch) post) fs2).
      * cbn. by rewrite map_app.
      * rewrite <-app_assoc. unfold ids. by rewrite take_drop.
      * done.
      * rewrite length_drop. destruct post as [|y post]; [|cbn in *; lia].
        unfold ids in Hx. by rewrite take_nil in Hx.
    + intros id Hid. apply (all_ids_visible c w). rewrite <-(sort_ids_perm false), Hs.
      apply elem_of_app. right. unfold ids in Hid. rewrite <-(take_drop (Z.to_nat batch) post).
      apply elem_of_app. by left.
  - apply last_None in Hx. destruct post as [|y post]; [by inversion Hfs|]. exfalso.
    unfold ids in Hx. destruct (Z.to_nat batch) eqn:Hbn; [lia|done].
Qed.

(** C11. A download with a box gives every feature with a matching part exactly once, in
    the order of the ids, each built from all its parts and not only from those in the
    box. *)
Theorem box_download_complete (fuel : nat) (c : string) (e : envelope) (dt_start dt_end : option datetime)
    (props : list (string * string)) (structured : list PropertyFilter) (q : option string)
    (batch_size : Z) (db : database) (fs : list Feature) :
  let w := query_conds (Some e) dt_start dt_end props structured q in
  let ids := sort_ids false (all_ids c w db) in
  unique_parts (parts_of db c) -> no_breaks w (parts_of db c) = true ->
  features_of c [] db ids fs -> (length ids < fuel)%nat ->
  stream_features_geojsonl depth fuel c (Some e) dt_start dt_end props structured q batch_size db
  = (inr (Some (map export_feature fs)), db).
Proof.
  intros w ids Hu Hw Hfs Hf. unfold stream_features_geojsonl.
  apply (stream_ids_rest c _ _ db [] ids); try done. unfold export_batch. lia.
Qed.

(** ** Lists *)

Definition at_page (a : ListArgs) (limit offset : Z) : ListArgs := {|
  la_limit := limit; la_offset := offset; la_bbox := la_bbox a; la_start := la_start a;
  la_end := la_end a; la_sortby := la_sortby a; la_sortdesc := la_sortdesc a;
  la_property_filters := la_property_filters a; la_structured := la_structured a; la_q := la_q a;
  la_ids := la_ids a; la_count := la_count a; la_geometry := la_geometry a;
  la_skip_count := la_skip_count a; la_exclude := la_exclude a |}.

(** The list is ordered by id: no order is asked for, or one no column answers to. *)
Definition ordered_by_id (a : ListArgs) : bool :=
  match sort_name (la_sortby a) with
  | None => true
  | Some s => bool_decide (s = "id") || (negb (bool_decide (s = "created_at"))
                                         && bool_decide (safe_json_key s = ""))
  end.

Lemma page_take {A} lim off (l : list A) :
  0 <= lim -> 0 <= off -> page lim off (take (Z.to_nat (lim + off)) l) = page lim off l.
Proof.
  intros ??. unfold page. rewrite skipn_firstn_comm, firstn_firstn.
  f_equal. lia.
Qed.

Lemma no_filter_conds a : has_filters a = false -> list_conds a = shadow_conds (la_exclude a).
Proof.
  unfold has_filters, list_conds. rewrite orb_false_iff. intros [Hi Hq].
  rewrite Hi. by destruct (query_conds _ _ _ _ _ _).
Qed.
Lemma has_filters_page a limit offset : has_filters (at_page a limit offset) = has_filters a.
Proof. done. Qed.
Lemma list_conds_page a limit offset : list_conds (at_page a limit offset) = list_conds a.
Proof. done. Qed.

Definition listed (c : string) (a : ListArgs) (db : database) : list string :=
  sort_ids (la_sortdesc a) (all_ids c (list_conds a) db).

Lemma page_ids_by_id c a db :
  ordered_by_id a = true -> no_breaks (list_conds a) (parts_of db c) = true ->
  0 <= la_limit a -> 0 <= la_offset a ->
  page_ids c a db = (inr (page (la_limit a) (la_offset a) (listed c a db)), db).
Proof.
  intros Ho Hw Hl Hoff. unfold page_ids. cbv zeta.
  assert (fstmt (PageById c (list_conds a) (la_sortdesc a) (la_limit a) (la_offset a)) db
          = (inr (page (la_limit a) (la_offset a) (listed c a db)), db)) as Hpage.
  { by rewrite fstmt_run. }
  assert (has_filters a = false ->
          fstmt (FirstIds c (shadow_conds (la_exclude a)) (la_sortdesc a)
              (la_limit a + la_offset a) (la_limit a) (la_offset a)) db
          = (inr (page (la_limit a) (la_offset a) (listed c a db)), db)) as Hfirst.
  { intros Hf. rewrite fstmt_run by (done || apply no_breaks_shadow). cbn [frun].
    rewrite page_take by done. unfold listed. by rewrite no_filter_conds. }
  unfold ordered_by_id in Ho. destruct (sort_name (la_sortby a)) as [s|]; cbn in *.
  - destruct (decide (s = "id")) as [->|Hs].
    { destruct (has_filters a); cbn; [done|]. by apply Hfirst. }
    rewrite (bool_decide_eq_false_2 (s = "id")) in Ho by done. cbn in Ho.
    apply andb_true_iff in Ho as [Hc%negb_true_iff%bool_decide_eq_false_1 Hk%bool_decide_eq_true_1].
    rewrite !bool_decide_eq_false_2 by congruence. cbn [orb]. rewrite !andb_false_r.
    by rewrite decide_True.
  - destruct (has_filters a); cbn; [done|]. by apply Hfirst.
Qed.

(** *** Ids of built features *)

Lemma whole_id c w db id f : whole c w db id = inr f -> ft_id f = id.
Proof.
  unfold whole, parts_to_logical_feature. cbv zeta.
  destruct (sort_parts _) as [|r rows] eqn:Hr; [done|].
  destruct (union_parts _ _) as [e|g]; [done|]. cbn. intros [= <-]. cbn.
  assert (r ∈ map api_row (by_key (of_id id (selected w (parts_of db c))))) as Hin.
  { unfold sort_parts in Hr. match type of Hr with merge_sort ?R ?l = _ =>
      pose proof (merge_sort_Permutation R l) as Hp end.
    rewrite Hr in Hp. rewrite <-Hp. apply list_elem_of_here. }
  apply list_elem_of_fmap in Hin as (p & -> & Hp). rewrite by_key_perm in Hp.
  by apply elem_of_of_id in Hp as [_ <-].
Qed.
Lemma features_of_ids c w db ids fs : features_of c w db ids fs -> map ft_id fs = ids.
Proof. induction 1 as [|id f ids fs Hf _ IH]; [done|]. cbn. by rewrite IH, (whole_id _ _ _ _ _ Hf). Qed.

Lemma Forall2_page {A B} (P : A -> B -> Prop) lim off l k :
  Forall2 P l k -> Forall2 P (page lim off l) (page lim off k).
Proof. intros Hl. unfold page. by apply Forall2_take, Forall2_drop. Qed.

Lemma page_map {A B} (f : A -> B) lim off l : page lim off (map f l) = map f (page lim off l).
Proof. unfold page. by rewrite skipn_map, firstn_map. Qed.

(** *** Features without geometries *)

Definition box_of (c : string) (w : list cond) (db : database) (id : string) : Feature :=
  boxed_feature (logical (selected w (parts_of db c)) id c).

Lemma find_unique {A} (key : A -> string) (l : list A) r :
  NoDup (map key l) -> r ∈ l -> List.find (fun x => bool_decide (key x = key r)) l = Some r.
Proof.
  induction l as [|x l IH]; intros Hn Hr; [by apply not_elem_of_nil in Hr|]. cbn in Hn |- *.
  apply NoDup_cons in Hn as [Hx Hn]. case_bool_decide as Hk.
  - apply elem_of_cons in Hr as [->|Hr]; [done|]. destruct Hx. rewrite Hk. by apply list_elem_of_fmap_2.
  - apply elem_of_cons in Hr as [->|Hr]; [done|]. by apply IH.
Qed.

Lemma elem_of_page_ids c ids w db id :
  id ∈ ids -> id ∈ all_ids c w db -> id ∈ distinct_ids (selected (IdIn ids :: w) (parts_of db c)).
Proof.
  intros Hid. unfold all_ids. rewrite !elem_of_distinct.
  intros (p & [Hp Hs]%elem_of_selected & <-). exists p. split; [|done]. apply elem_of_selected.
  split; [done|]. unfold selects in *. cbn. by rewrite bool_decide_eq_true_2, Hs.
Qed.

Lemma box_page c ids w db :
  no_breaks w (parts_of db c) = true -> (forall id, id ∈ ids -> id ∈ all_ids c w db) ->
  exists rows, fstmt (Boxes c ids w) db = (inr rows, db)
    /\ omap (fun id => boxed_feature <$> row_by_id rows id) ids = map (box_of c w db) ids.
Proof.
  intros Hw Hin. destruct (fexec_boxes c ids w db Hw) as (rows & l' & Hx & Hl' & Hp).
  cbn in Hl'. injection Hl' as <-. exists rows. split; [by unfold fstmt; rewrite Hx|].
  set (l := selected (IdIn ids :: w) (parts_of db c)) in *.
  assert (NoDup (map lr_id (reverse rows))) as Hn.
  { rewrite reverse_Permutation, Hp, map_map. cbn. rewrite map_id. apply distinct_ids_NoDup. }
  assert (forall id, id ∈ ids -> row_by_id rows id = Some (logical l id c)) as Hrow.
  { intros id Hid. unfold row_by_id.
    apply (find_unique lr_id _ (logical l id c)); [done|]. rewrite reverse_Permutation, Hp.
    apply (list_elem_of_fmap_2 (fun id => logical l id c)). by apply elem_of_page_ids, Hin. }
  assert (forall k, k ⊆ ids -> omap (fun id => boxed_feature <$> row_by_id rows id) k
                               = map (box_of c w db) k) as Hk; [|by apply Hk].
  induction k as [|id k IH]; intros Hks; [done|]. cbn. rewrite Hrow by (apply Hks, list_elem_of_here).
  cbn. rewrite IH by (intros x Hx'; apply Hks; by apply list_elem_of_further). f_equal.
  unfold box_of, logical. subst l. rewrite of_id_page; [done|apply Hks, list_elem_of_here].
Qed.

(** *** The total *)

Definition exact_total (a : ListArgs) : bool :=
  negb (la_skip_count a) && (has_filters a || bool_decide (la_count a = None)).
Definition given_total (a : ListArgs) : option Z :=
  if negb (has_filters a) then la_count a else None.

(** What the response says of [n] features in the whole list when a page has [k]. *)
Definition total_of (a : ListArgs) (n k : Z) : Z :=
  if exact_total a then n
  else match given_total a with
       | Some m => m
       | None => if k =? 0 then la_offset a else la_offset a + k + (if k <? la_limit a then 0 else 1)
       end.

Lemma count_matched_run c a db :
  no_breaks (list_conds a) (parts_of db c) = true ->
  count_matched c a db
  = (inr (if exact_total a then (Z.of_nat (length (listed c a db)), false)
          else match given_total a with Some m => (m, false) | None => (0, true) end), db).
Proof.
  intros Hw. unfold count_matched, exact_total, given_total.
  assert ((n ← fstmt (CountIds c (list_conds a)); mret (n, false)) db
          = (inr (Z.of_nat (length (listed c a db)), false), db)) as Hc.
  { rewrite tx_bind_run, fstmt_run by done. cbn [frun]. unfold listed. by rewrite sort_ids_perm. }
  destruct (la_skip_count a), (la_count a), (has_filters a); done.
Qed.

Definition all_conds (a : ListArgs) : list cond := shadow_conds (la_exclude a).

Lemma listed_visible c a db id : id ∈ listed c a db -> id ∈ all_ids c (all_conds a) db.
Proof.
  unfold listed, all_ids. rewrite sort_ids_perm, !elem_of_distinct.
  intros (p & [Hp Hs]%elem_of_selected & Hid). exists p. split; [|done]. apply elem_of_selected.
  split; [done|]. unfold list_conds in Hs. rewrite !selects_app, !andb_true_iff in Hs.
  unfold all_conds. apply Hs.
Qed.

(** [fs] are the features of the whole list, as a page shows them. *)
Definition built (c : string) (a : ListArgs) (db : database) (fs : list Feature) : Prop :=
  map ft_id fs = listed c a db
  /\ (if la_geometry a then features_of c (all_conds a) db (listed c a db) fs
      else fs = map (box_of c (all_conds a) db) (listed c a db)).

(** The features of a list can be built when those of its ids can. *)
Definition buildable (c : string) (a : ListArgs) (db : database) : Prop :=
  la_geometry a = true -> forall id, id ∈ listed c a db -> exists f, whole c (all_conds a) db id = inr f.

Lemma buildable_built c a db : buildable c a db -> exists fs, built c a db fs.
Proof.
  unfold buildable, built. intros Hg. destruct (la_geometry a) eqn:Hge.
  - assert (exists fs, features_of c (all_conds a) db (listed c a db) fs) as [fs Hfs].
    { specialize (Hg eq_refl). set (ids := listed c a db) in *. clearbody ids.
      induction ids as [|id ids IH]; [exists []; constructor|].
      destruct (Hg id) as [f Hf]; [apply list_elem_of_here|].
      destruct IH as [fs Hfs]; [intros; apply Hg; by apply list_elem_of_further|].
      exists (f :: fs). by constructor. }
    exists fs. split; [by eapply features_of_ids|done].
  - eexists. split; [|reflexivity]. rewrite map_map. apply map_id.
Qed.

Lemma buildable_check c a db :
  forallb (fun id => match whole c (all_conds a) db id with inr _ => true | inl _ => false end)
    (listed c a db) = true -> buildable c a db.
Proof.
  intros Hb _ id Hid. rewrite forallb_forall in Hb. specialize (Hb id).
  rewrite list_elem_of_In in Hid. specialize (Hb Hid). destruct (whole _ _ _ _); [done|by eexists].
Qed.

Lemma page_features_run c a db fs :
  unique_parts (parts_of db c) -> built c a db fs ->
  page_features depth c a (page (la_limit a) (la_offset a) (listed c a db)) db
  = (inr (page (la_limit a) (la_offset a) fs), db).
Proof.
  intros Hu [_ Hfs]. unfold page_features. fold (all_conds a).
  assert (forall id, id ∈ page (la_limit a) (la_offset a) (listed c a db) -> id ∈ all_ids c (all_conds a) db) as Hin.
  { intros id Hid. apply listed_visible. eapply sublist_elem; [apply page_sublist|exact Hid]. }
  destruct (la_geometry a).
  - rewrite tx_bind_run, fstmt_run by (done || apply no_breaks_shadow). cbn [frun]. unfold lift_tx.
    rewrite (build_page c _ (all_conds a) db (page (la_limit a) (la_offset a) (listed c a db))
               (page (la_limit a) (la_offset a) fs)); [done..|exact Hin|by apply Forall2_page].
  - destruct (box_page c (page (la_limit a) (la_offset a) (listed c a db)) (all_conds a) db)
      as (rows & Hr & Hf); [apply no_breaks_shadow|exact Hin|].
    by rewrite tx_bind_run, Hr, Hf, Hfs, page_map.
Qed.

(** One page. *)
Lemma page_run c a db fs :
  ordered_by_id a = true -> unique_parts (parts_of db c) -> no_breaks (list_conds a) (parts_of db c) = true ->
  built c a db fs -> 0 <= la_limit a -> 0 <= la_offset a ->
  let fs' := page (la_limit a) (la_offset a) fs in
  list_features_paginated depth c a db
  = (inr (fs', total_of a (Z.of_nat (length fs)) (Z.of_nat (length fs'))), db).
Proof.
  intros Ho Hu Hw Hb Hl Hoff fs'. pose proof Hb as [Hids _].
  assert (length (listed c a db) = length fs) as Hlen by by rewrite <-Hids, length_map.
  assert (map ft_id fs' = page (la_limit a) (la_offset a) (listed c a db)) as Hpage
    by (unfold fs'; by rewrite <-page_map, Hids).
  assert (length (page (la_limit a) (la_offset a) (listed c a db)) = length fs') as Hplen
    by by rewrite <-Hpage, length_map.
  unfold list_features_paginated. rewrite tx_bind_run, count_matched_run, Hlen by done. unfold total_of.
  pose proof (page_ids_by_id c a db Ho Hw Hl Hoff) as Hids'.
  pose proof (page_features_run c a db fs Hu Hb) as Hbuild. fold fs' in Hbuild.
  destruct (page (la_limit a) (la_offset a) (listed c a db)) as [|id rest] eqn:Hp.
  - destruct fs' as [|f fs'']; [|done]. cbn [length Z.of_nat Z.eqb].
    destruct (exact_total a); [|destruct (given_total a)];
      cbv beta iota; rewrite tx_bind_run, Hids'; done.
  - assert ((Z.of_nat (length fs') =? 0) = false) as ->.
    { apply Z.eqb_neq. rewrite <-Hplen. cbn [length]. lia. }
    destruct (exact_total a); [|destruct (given_total a)];
      cbv beta iota; rewrite tx_bind_run, Hids', tx_bind_run, Hbuild, ?Hplen; done.
Qed.

(** C9. The pages of a list ordered by id are the slices of one list of features, when
    every matching feature can be built and no condition makes the server raise: the
    matching ones, in the order of their ids and without repetition, each built from
    all its visible parts - those outside of the box and of the other conditions
    included - or, without geometries, from their box; the total is their number when it is counted, and when the
    count is skipped it announces a next page exactly after a full one. *)
Theorem page_is_slice (c : string) (a : ListArgs) (db : database) :
  ordered_by_id a = true -> unique_parts (parts_of db c) -> no_breaks (list_conds a) (parts_of db c) = true ->
  (la_geometry a = true -> forall id, id ∈ listed c a db ->
     exists f, whole c (all_conds a) db id = inr f) ->
  exists fs, map ft_id fs = listed c a db /\ NoDup (map ft_id fs)
    /\ (if la_geometry a
        then Forall2 (fun id f => whole c (all_conds a) db id = inr f) (listed c a db) fs
        else fs = map (box_of c (all_conds a) db) (listed c a db))
    /\ forall limit offset, 0 < limit -> 0 <= offset ->
       let fs' := page limit offset fs in
       list_features_paginated depth c (at_page a limit offset) db
       = (inr (fs', total_of (at_page a limit offset) (Z.of_nat (length fs)) (Z.of_nat (length fs'))), db).
Proof.
  intros Ho Hu Hw Hg. destruct (buildable_built c a db Hg) as [fs Hb]. pose proof Hb as [Hids _].
  exists fs. split; [done|]. rewrite Hids.
  split; [apply sort_ids_NoDup, distinct_ids_NoDup|]. split; [apply Hb|]. intros limit offset Hl Hoff.
  apply (page_run c (at_page a limit offset) db fs); [done..|cbn; lia|done].
Qed.
End paging.

(** ** Sorting by other columns *)

(** A list asks for a property as its sort key. *)
Definition sorted_by_property (a : ListArgs) : bool :=
  match sort_name (la_sortby a) with
  | Some s => negb (bool_decide (s = "id")) && negb (bool_decide (s = "created_at"))
              && negb (bool_decide (safe_json_key s = ""))
  | None => false
  end.

(** Sorting by a property never gives a page: the ORDER BY names the alias of a
    selected column inside an expression, which PostgreSQL refuses, so every such list
    fails whatever the collection holds. *)
Theorem sort_by_property_refused `{FeatureLaws} {geom num} `{Shapely geom num} `{GeometryOps geom}
    (depth : nat) (c : string) (a : ListArgs) (db : database) :
  sorted_by_property a = true -> no_breaks (list_conds a) (parts_of db c) = true ->
  list_features_paginated depth c a db = (inl (exn_of_sql (UndefinedColumn "props")), db).
Proof.
  intros Hs Hw. unfold list_features_paginated. rewrite tx_bind_run, count_matched_run by done.
  assert (page_ids c a db = (inl (exn_of_sql (UndefinedColumn "props")), db)) as Hp.
  { unfold sorted_by_property in Hs. unfold page_ids. cbv zeta.
    destruct (sort_name (la_sortby a)) as [s|]; [|done].
    rewrite !andb_true_iff, !negb_true_iff, !bool_decide_eq_false in Hs. destruct Hs as [[Hi Hc] Hk].
    rewrite !(bool_decide_eq_false_2 (Some s = _)) by congruence.
    rewrite !andb_false_r. rewrite !decide_False by done. by rewrite fstmt_run. }
  destruct (exact_total a); [|destruct (given_total a)]; cbv beta iota; by rewrite tx_bind_run, Hp.
Qed.

(** ** Witnesses *)

Definition demo_args : ListArgs := {|
  la_limit := 1; la_offset := 0; la_bbox := None; la_start := None; la_end := None; la_sortby := None;
  la_sortdesc := false; la_property_filters := []; la_structured := []; la_q := None; la_ids := [];
  la_count := Some 2; la_geometry := true; la_skip_count := false; la_exclude := [] |}.
Definition north_args : ListArgs := {|
  la_limit := 1; la_offset := 0; la_bbox := None; la_start := None; la_end := None;
  la_sortby := Some "created_at"; la_sortdesc := false; la_property_filters := [];
  la_structured := []; la_q := None; la_ids := ["a"; "b"];
  la_count := Some 2; la_geometry := true; la_skip_count := false; la_exclude := [] |}.

(** A filtered list sorted by creation time has no second sort key, so features of one
    import tie and the server may order the ties differently for each page: here both
    pages hold the feature [b], and [a] is on none. *)
Theorem time_pages_may_repeat :
  exists (P : PostGIS) (F : FeatureServer), @PostGISLaws P /\ @FeatureLaws P F
  /\ exists f, ft_id f = "b"
    /\ forall offset, offset = 0 \/ offset = 1 ->
       @list_features_paginated _ _ demo_shapely plain_geometry F 9 "towns"
         (at_page north_args 1 offset) towns_db = (inr ([f], 2), towns_db).
Proof.
  exists (flipped plain_postgis), (fickle_features (flipped plain_postgis)).
  split; [apply flipped_laws, plain_postgis_laws|]. split; [apply fickle_laws, flipped_laws, plain_postgis_laws|].
  eexists. split; [|intros offset [-> | ->]; vm_compute; reflexivity]. reflexivity.
Qed.

(** A download does not leave out the rows of a running shadow import, as the lists do:
    here the only feature of the list is [a], and the download gives [b] too. *)
Definition import_db : database :=
  Db ∅ ∅ [town "a" 0 "north" [(1, 2)]; new_row "b" "towns" 0 None PNone (Some "j1") (now_utc (us 60))]
    {[ "towns" := CollRow 1 None ]}.
Definition import_args : ListArgs := {|
  la_limit := 10; la_offset := 0; la_bbox := None; la_start := None; la_end := None; la_sortby := None;
  la_sortdesc := false; la_property_filters := []; la_structured := []; la_q := None; la_ids := [];
  la_count := None; la_geometry := false; la_skip_count := false; la_exclude := ["j1"] |}.

Theorem download_shows_running_import :
  exists f rows,
    @list_features_paginated _ _ demo_shapely plain_geometry (@reference_features plain_postgis) 9 "towns"
      import_args import_db = (inr ([f], 1), import_db)
    /\ @stream_features_geojsonl _ _ demo_shapely plain_geometry (@reference_features plain_postgis) 9 3
         "towns" None None None [] [] None 500 import_db = (inr (Some rows), import_db)
    /\ ft_id f = "a" /\ map ex_id rows = ["a"; "b"].
Proof. eexists _, _. split_and!; by vm_compute. Qed.

Lemma unique_towns : unique_parts (parts_of towns_db "towns").
Proof. apply (bool_decide_unpack _). by vm_compute. Qed.

Abbreviation demo_server := (@reference_features plain_postgis).

Lemma download_complete_witness :
  @stream_features_geojsonl _ _ demo_shapely plain_geometry demo_server 9 4 "towns" None None None
    [("name", "north")] [] None 1 towns_db
  = (inr (Some (map export_part (map (@FeatureRows.api_row plain_postgis) (@by_key plain_postgis
       (@selected plain_postgis (query_conds None None None [("name", "north")] [] None)
          (parts_of towns_db "towns")))))), towns_db).
Proof.
  apply (@download_complete _ _ demo_shapely plain_geometry plain_postgis demo_server _ _
    9 4 "towns" None None [("name", "north")] [] None 1 towns_db).
  - exact unique_towns.
  - by vm_compute.
  - apply Nat.ltb_lt. by vm_compute.
Defined.

(** The features of the towns, as the lists give them. *)
Definition town_feature (id name : string) (g : list (Z * Z)) : Feature :=
  mkFeature id "towns" None (Some (points_json g)) None (Some (JObj [("name", JStr name)])) (us 60) (us 60).
Definition north : Feature := town_feature "a" "north" [(1, 2); (3, 4)].
Definition south : Feature := town_feature "b" "south" [(7, 7)].

Lemma towns_whole w : (w = [] \/ w = shadow_conds []) ->
  @features_of _ _ demo_shapely plain_geometry plain_postgis 9 "towns" w towns_db ["a"; "b"] [north; south].
Proof. intros [-> | ->]; repeat constructor; by vm_compute. Qed.

Lemma box_download_complete_witness :
  @stream_features_geojsonl _ _ demo_shapely plain_geometry demo_server 9 3 "towns"
    (Some (Envelope "0" "0" "9" "9")) None None [] [] None 1 towns_db
  = (inr (Some (map export_feature [north; south])), towns_db).
Proof.
  apply (@box_download_complete _ _ demo_shapely plain_geometry plain_postgis demo_server _ _
    9 3 "towns" (Envelope "0" "0" "9" "9") None None [] [] None 1 towns_db [north; south]).
  - exact unique_towns.
  - by vm_compute.
  - apply towns_whole. by left.
  - apply Nat.ltb_lt. by vm_compute.
Defined.

Lemma page_is_slice_witness :
  exists fs, map ft_id fs = ["a"; "b"] /\ NoDup (map ft_id fs)
    /\ Forall2 (fun id f => @whole _ _ demo_shapely plain_geometry plain_postgis 9 "towns" [] towns_db id = inr f)
         ["a"; "b"] fs
    /\ forall limit offset, 0 < limit -> 0 <= offset ->
       let fs' := page limit offset fs in
       @list_features_paginated _ _ demo_shapely plain_geometry demo_server 9 "towns"
         (at_page demo_args limit offset) towns_db
       = (inr (fs', total_of (at_page demo_args limit offset) (Z.of_nat (length fs))
                      (Z.of_nat (length fs'))), towns_db).
Proof.
  apply (@page_is_slice _ _ demo_shapely plain_geometry plain_postgis demo_server _ _
    9 "towns" demo_args towns_db).
  - done.
  - exact unique_towns.
  - by vm_compute.
  - intros _ id Hid.
    assert (id ∈ ["a"; "b"]) as Hid' by exact Hid. pose proof (towns_whole _ (or_intror eq_refl)) as Hf.
    apply (Forall2_lookup_l _ _ _ 0) with (x := "a") in Hf as Ha; [|done].
    apply (Forall2_lookup_l _ _ _ 1) with (x := "b") in Hf as Hb; [|done].
    destruct Ha as (fa & _ & Ha), Hb as (fb & _ & Hb).
    apply elem_of_cons in Hid' as [-> | ->%list_elem_of_singleton]; eauto.
Defined.

Lemma sort_by_property_refused_witness :
  @list_features_paginated _ _ demo_shapely plain_geometry demo_server 9 "towns"
    {| la_limit := 1; la_offset := 0; la_bbox := None; la_start := None; la_end := None;
       la_sortby := Some "name"; la_sortdesc := false; la_property_filters := []; la_structured := [];
       la_q := None; la_ids := []; la_count := Some 2; la_geometry := true; la_skip_count := false;
       la_exclude := [] |} towns_db
  = (inl (exn_of_sql (UndefinedColumn "props")), towns_db).
Proof.
  apply (@sort_by_property_refused plain_postgis demo_server _ _ _ demo_shapely plain_geometry).
  - by vm_compute.
  - by vm_compute.
Defined.
