(* ===== verification/FeatureWrites.v ===== *)
(** * What the writes of features do to the database

    One feature is the rows of its id.  Creating, replacing, updating and deleting a
    feature change the rows of that id only; the cached number of features of the
    collection follows. *)

From stdpp Require Import sorting.
From S2P Require Import Prelude PyTime Redis Postgres World Database Json Mutex JobStore.
From S2P Require Import BulkActivity CopyFormat Subdivide Collections PropertyFilters FeatureRows.
From S2P Require Import CopyIngest DynamicCache Features FeatureDemo.

(** ** Rows of the database *)

Definition rows_of_id (db : database) (c id : string) : list frow :=
  List.filter (fun r => bool_decide (r_id r = id)) (live_rows db c).

Definition ids_of (db : database) (c : string) : list string := remove_dups (map r_id (live_rows db c)).

(** Everything but the rows of [c]. *)
Record same_elsewhere (c : string) (db db' : database) : Prop := {
  se_wf : db_wf db';
  se_rows c' : c' <> c -> live_rows db' c' = live_rows db c';
  se_parts : db_parts db' = db_parts db
}.

Definition count_of (db : database) (c : string) : option Z := feature_count <$> db_collections db !! c.

Lemma of_coll_app c l k : of_coll c (l ++ k)%list = (of_coll c l ++ of_coll c k)%list.
Proof. apply List.filter_app. Qed.
Lemma of_coll_other_row c r : r_collection r <> c -> of_coll c [r] = [].
Proof. intros Hr. unfold of_coll. cbn. by rewrite bool_decide_eq_false_2. Qed.
Lemma of_coll_own_row c r : r_collection r = c -> of_coll c [r] = [r].
Proof. intros Hr. unfold of_coll. cbn. by rewrite bool_decide_eq_true_2. Qed.

Lemma keys_unique_snoc l r :
  keys_unique l = true -> row_key r ∉ map row_key l -> keys_unique (l ++ [r])%list = true.
Proof.
  unfold keys_unique. rewrite !bool_decide_eq_true, map_app. intros Hl Hr. apply NoDup_app.
  split_and!; [done| |apply NoDup_singleton]. intros k Hk Hk'.
  apply list_elem_of_singleton in Hk' as ->. done.
Qed.

Lemma live_rows_collection db c r : r ∈ live_rows db c -> r_collection r = c.
Proof.
  unfold live_rows. rewrite list_elem_of_In.
  destruct (db_parts db !! c); unfold of_coll; intros [_ Hr]%filter_In; by apply bool_decide_eq_true_1 in Hr.
Qed.

(** A new key of a collection is new in the table its row goes to. *)
Lemma fresh_in_table db c n t r :
  db_wf db -> db_parts db !! c = Some n -> db_tables db !! n = Some t ->
  row_key r ∉ map row_key (live_rows db c) -> row_key r ∉ map row_key (t_rows t).
Proof.
  intros Hw Hn Ht. unfold live_rows, rows_of. rewrite Hn, Ht.
  destruct (wf_part _ Hw _ _ Hn) as (t' & Ht' & _ & Hc). simplify_eq. by rewrite of_coll_all.
Qed.

Lemma insert_row_part db r n :
  db_wf db -> db_parts db !! r_collection r = Some n ->
  row_key r ∉ map row_key (live_rows db (r_collection r)) ->
  exists db', insert_row db r = inr db' /\ same_elsewhere (r_collection r) db db'
    /\ live_rows db' (r_collection r) = (live_rows db (r_collection r) ++ [r])%list
    /\ db_collections db' = db_collections db.
Proof.
  intros Hw Hn Hr. set (c := r_collection r) in *. unfold insert_row. fold c. rewrite Hn.
  destruct (wf_part _ Hw _ _ Hn) as (t & Ht & Hk & Hc).
  assert (rows_of db n = t_rows t) as Hrn by (unfold rows_of; by rewrite Ht).
  rewrite Hrn, bool_decide_eq_false_2 by (by eapply fresh_in_table).
  eexists. split; [reflexivity|]. unfold set_rows. rewrite Ht.
  set (t' := Table _ _ _). set (db' := Db _ _ _ _).
  assert (forall c', live_rows db' c' = if decide (c' = c) then (live_rows db c ++ [r])%list
                                        else live_rows db c') as Hlive.
  { intros c'. unfold live_rows, rows_of. cbn [db' db_parts db_tables db_default]. case_decide as Hc'.
    - subst c'. rewrite Hn, lookup_insert_eq, Ht. cbn [t' t_rows].
      by rewrite of_coll_app, (of_coll_own_row c).
    - destruct (db_parts db !! c') as [n'|] eqn:Hn'; [|done].
      rewrite lookup_insert_ne; [done|]. intros ->. apply Hc'. by eapply (wf_inj _ Hw). }
  split_and!; [split|by rewrite Hlive, decide_True|done].
  + split; cbn [db' db_parts db_tables db_default].
    * apply Hw.
    * intros c' n' Hn'. destruct (decide (n' = n)) as [->|Hne].
      -- rewrite lookup_insert_eq. exists t'. split; [done|]. cbn.
         assert (c' = c) as -> by (by eapply (wf_inj _ Hw)). split.
         ++ apply keys_unique_snoc; [done|]. by eapply fresh_in_table.
         ++ apply Forall_app. split; [done|by constructor].
      -- rewrite lookup_insert_ne by done. by apply Hw.
    * apply Hw.
    * apply Hw.
  + intros c' Hc'. by rewrite Hlive, decide_False.
  + done.
Qed.

Lemma insert_row_default db r :
  db_wf db -> db_parts db !! r_collection r = None ->
  row_key r ∉ map row_key (live_rows db (r_collection r)) ->
  exists db', insert_row db r = inr db' /\ same_elsewhere (r_collection r) db db'
    /\ live_rows db' (r_collection r) = (live_rows db (r_collection r) ++ [r])%list
    /\ db_collections db' = db_collections db.
Proof.
  intros Hw Hn Hr. set (c := r_collection r) in *. unfold insert_row. fold c. rewrite Hn.
  assert (live_rows db c = of_coll c (db_default db)) as Hlc by (unfold live_rows; by rewrite Hn).
  assert (row_key r ∉ map row_key (db_default db)) as Hd.
  { intros (r' & Hk & Hin)%list_elem_of_fmap. apply Hr. rewrite Hlc. rewrite Hk.
    apply list_elem_of_fmap_2. unfold of_coll. rewrite list_elem_of_In, filter_In, <-list_elem_of_In.
    split; [done|]. apply bool_decide_eq_true_2. unfold row_key in Hk. unfold c. congruence. }
  rewrite bool_decide_eq_false_2 by done. eexists. split; [reflexivity|].
  set (db' := set_default _ _).
  assert (forall c', live_rows db' c' = if decide (c' = c) then (live_rows db c ++ [r])%list
                                        else live_rows db c') as Hlive.
  { intros c'. unfold live_rows at 1. cbn [db' set_default db_parts db_default]. case_decide as Hc'.
    - subst c'. by rewrite Hn, Hlc, of_coll_app, (of_coll_own_row c).
    - unfold live_rows. destruct (db_parts db !! c') as [n'|]; [done|].
      by rewrite of_coll_app, of_coll_other_row, app_nil_r. }
  split_and!; [split|by rewrite Hlive, decide_True|done].
  + split; cbn [db' set_default db_parts db_tables db_default].
    * apply Hw.
    * apply Hw.
    * intros c' n' Hn'. rewrite of_coll_app, (wf_default _ Hw _ _ Hn'), of_coll_other_row; [done|].
      fold c. intros ->. congruence.
    * apply keys_unique_snoc; [apply Hw|done].
  + intros c' Hc'. by rewrite Hlive, decide_False.
  + done.
Qed.

Lemma insert_row_spec db r :
  db_wf db -> row_key r ∉ map row_key (live_rows db (r_collection r)) ->
  exists db', insert_row db r = inr db' /\ same_elsewhere (r_collection r) db db'
    /\ live_rows db' (r_collection r) = (live_rows db (r_collection r) ++ [r])%list
    /\ db_collections db' = db_collections db.
Proof.
  intros Hw Hr. destruct (db_parts db !! r_collection r) as [n|] eqn:Hn.
  - by apply (insert_row_part db r n).
  - by apply insert_row_default.
Qed.

(** *** Inserting the rows of one collection *)

Lemma live_rows_collections db x c : live_rows (set_collections db x) c = live_rows db c.
Proof. done. Qed.
Lemma db_wf_collections db x : db_wf db -> db_wf (set_collections db x).
Proof. intros []. by split. Qed.
Lemma same_elsewhere_collections c db db' x :
  same_elsewhere c db db' -> same_elsewhere c db (set_collections db' x).
Proof. intros []. split; [by apply db_wf_collections|done|done]. Qed.
Lemma same_elsewhere_refl c db : db_wf db -> same_elsewhere c db db.
Proof. by split. Qed.
Lemma same_elsewhere_trans c db1 db2 db3 :
  same_elsewhere c db1 db2 -> same_elsewhere c db2 db3 -> same_elsewhere c db1 db3.
Proof.
  intros [? H1 P1] [? H2 P2]. split; [done| |congruence]. intros c' Hc'. by rewrite H2, H1.
Qed.

Lemma count_touch c f db c' : count_of (touch c f db) c' = count_of db c'.
Proof.
  unfold count_of, touch. cbn. destruct (decide (c' = c)) as [->|Hc].
  - rewrite lookup_alter_eq. by destruct (db_collections db !! c).
  - by rewrite lookup_alter_ne.
Qed.

Lemma insert_touched_spec c rows : forall db,
  db_wf db -> Forall (fun r => r_collection r = c) rows ->
  NoDup (map row_key (live_rows db c ++ rows)%list) ->
  exists db', insert_touched db rows = inr db' /\ same_elsewhere c db db'
    /\ live_rows db' c = (live_rows db c ++ rows)%list
    /\ (forall c', count_of db' c' = count_of db c').
Proof.
  induction rows as [|r rows IH]; intros db Hw Hc Hk.
  { exists db. split_and!; [done|by apply same_elsewhere_refl|by rewrite app_nil_r|done]. }
  apply Forall_cons in Hc as [Hr Hc]. cbn [insert_touched].
  destruct (insert_row_spec db r) as (db1 & Hi & Hse & Hl & Hco); [done| |].
  { rewrite Hr. rewrite map_app in Hk. apply NoDup_app in Hk as (_ & Hk & _).
    intros Hin. apply (Hk _ Hin). apply list_elem_of_here. }
  rewrite Hi. rewrite Hr in *. set (db2 := touch c (greatest (r_updated r)) db1).
  assert (same_elsewhere c db db2) as Hse2 by by apply same_elsewhere_collections.
  assert (live_rows db2 c = (live_rows db c ++ [r])%list) as Hl2 by done.
  destruct (IH db2) as (db' & Hi' & Hse' & Hl' & Hco'); [by destruct Hse2|done| |].
  { by rewrite Hl2, <-app_assoc. }
  exists db'. split; [done|]. split; [by eapply same_elsewhere_trans|]. split.
  - by rewrite Hl', Hl2, <-app_assoc.
  - intros c'. rewrite Hco'. unfold db2. rewrite count_touch. unfold count_of. by rewrite Hco.
Qed.

(** *** Deleting rows *)

Lemma filter_of_coll f c l : of_coll c (List.filter f l) = List.filter f (of_coll c l).
Proof.
  unfold of_coll. induction l as [|r l IH]; [done|]. cbn.
  destruct (f r) eqn:Hf, (bool_decide (r_collection r = c)) eqn:Hc; cbn; rewrite ?Hf, ?Hc, ?IH; done.
Qed.
Lemma filter_keeps f (l : list frow) : (forall r, r ∈ l -> f r = true) -> List.filter f l = l.
Proof.
  induction l as [|r l IH]; intros Hf; [done|]. cbn. rewrite Hf by apply list_elem_of_here.
  rewrite IH; [done|]. intros. by apply Hf, list_elem_of_further.
Qed.
Lemma filter_sub {A} (f : A -> bool) l : sublist (List.filter f l) l.
Proof. induction l as [|x l IH]; [constructor|]. cbn. case_match; by constructor. Qed.

Lemma live_filter_default db f c c' :
  (forall r, r_collection r <> c -> f r = true) -> db_parts db !! c = None ->
  live_rows (set_default db (List.filter f (db_default db))) c'
  = if decide (c' = c) then List.filter f (live_rows db c) else live_rows db c'.
Proof.
  intros Hf Hn. unfold live_rows at 1. cbn [set_default db_parts db_default]. case_decide as Hc.
  - subst. rewrite Hn. unfold live_rows. by rewrite Hn, filter_of_coll.
  - unfold live_rows at 1. destruct (db_parts db !! c') as [n'|]; [done|].
    rewrite filter_of_coll. apply filter_keeps. intros r Hr. apply Hf.
    unfold of_coll in Hr. rewrite list_elem_of_In in Hr.
    apply filter_In in Hr as [_ Hr%bool_decide_eq_true_1]. congruence.
Qed.

Lemma keep_rows_default db f c :
  db_wf db -> (forall r, r_collection r <> c -> f r = true) -> db_parts db !! c = None ->
  same_elsewhere c db (set_default db (List.filter f (db_default db))).
Proof.
  intros Hw Hf Hn. split; [split|..].
  - apply Hw.
  - apply Hw.
  - intros c' n' Hn'. change (of_coll c' (List.filter f (db_default db)) = []).
    by rewrite filter_of_coll, (wf_default _ Hw _ _ Hn').
  - eapply keys_unique_sublist; [apply filter_sub|apply Hw].
  - intros c' Hc'. by rewrite (live_filter_default _ _ c), decide_False.
  - done.
Qed.

Lemma keep_rows_part db f c n t :
  db_wf db -> db_parts db !! c = Some n -> db_tables db !! n = Some t ->
  let db' := set_rows db n (List.filter f (t_rows t)) in
  same_elsewhere c db db' /\ live_rows db' c = List.filter f (live_rows db c).
Proof.
  intros Hw Hn Ht db'. unfold db', set_rows. rewrite Ht. set (t' := Table _ _ _). set (d := Db _ _ _ _).
  destruct (wf_part _ Hw _ _ Hn) as (t0 & Ht0 & Hk & Hc). simplify_eq.
  split; [split; [split|..]|].
  - apply Hw.
  - intros c' n' Hn'. cbn [d db_parts db_tables]. destruct (decide (n' = n)) as [->|Hne].
    + rewrite lookup_insert_eq. exists t'. split; [done|].
      assert (c' = c) as -> by (by eapply (wf_inj _ Hw)). cbn. split.
      * eapply keys_unique_sublist; [apply filter_sub|done].
      * eapply sublist_Forall; [apply filter_sub|done].
    + rewrite lookup_insert_ne by done. by apply Hw.
  - apply Hw.
  - apply Hw.
  - intros c' Hc'. unfold live_rows, rows_of. cbn [d db_parts db_tables db_default].
    destruct (db_parts db !! c') as [n'|] eqn:Hn'; [|done].
    rewrite lookup_insert_ne; [done|]. intros ->. apply Hc'. by eapply (wf_inj _ Hw).
  - done.
  - unfold live_rows, rows_of. cbn [d db_parts db_tables]. rewrite Hn, lookup_insert_eq, Ht.
    apply filter_of_coll.
Qed.

Lemma keep_rows_spec db f c :
  db_wf db -> (forall r, r_collection r <> c -> f r = true) ->
  same_elsewhere c db (keep_rows f c db)
  /\ live_rows (keep_rows f c db) c = List.filter f (live_rows db c)
  /\ db_collections (keep_rows f c db) = db_collections db.
Proof.
  intros Hw Hf. unfold keep_rows. destruct (db_parts db !! c) as [n|] eqn:Hn.
  - destruct (wf_part _ Hw _ _ Hn) as (t & Ht & _). unfold rows_of. rewrite Ht.
    destruct (keep_rows_part db f c n t) as [Hs Hl]; [done..|]. split_and!; [done|done|].
    unfold set_rows. by rewrite Ht.
  - split; [by apply keep_rows_default|]. split; [|done].
    by rewrite (live_filter_default _ _ c), decide_True.
Qed.

Definition other_id (id : string) (r : frow) : bool := negb (bool_decide (r_id r = id)).

Lemma delete_feature_rows_spec db c id :
  db_wf db ->
  let db' := delete_feature_rows c id db in
  same_elsewhere c db db' /\ live_rows db' c = List.filter (other_id id) (live_rows db c)
  /\ (forall c', count_of db' c' = count_of db c').
Proof.
  intros Hw db'.
  destruct (keep_rows_spec db (fun r => negb (is_feature c id r)) c Hw) as (Hs & Hl & Hco).
  { intros r Hr. unfold is_feature. by rewrite bool_decide_eq_false_2. }
  set (k := keep_rows _ c db) in *.
  assert (List.filter (fun r => negb (is_feature c id r)) (live_rows db c)
          = List.filter (other_id id) (live_rows db c)) as Hf.
  { apply filter_ext_in. intros r Hr. unfold is_feature, other_id.
    rewrite bool_decide_eq_true_2; [done|]. apply (live_rows_collection db). by apply list_elem_of_In. }
  rewrite Hf in Hl. unfold db', delete_feature_rows. fold k. case_decide.
  - split_and!; [done|done|]. intros c'. unfold count_of. by rewrite Hco.
  - split_and!; [by apply same_elsewhere_collections|done|].
    intros c'. rewrite count_touch. unfold count_of. by rewrite Hco.
Qed.

(** ** One feature *)

(** The write gives the feature [id] of [c] the rows [l] and changes no other rows. *)
Record stores (c id : string) (l : list frow) (db db' : database) : Prop := {
  st_elsewhere : same_elsewhere c db db';
  st_rows id' : rows_of_id db' c id' = if decide (id' = id) then l else rows_of_id db c id'
}.

Definition count_exact (db : database) (c : string) : Prop :=
  count_of db c = Some (Z.of_nat (length (ids_of db c))).

Lemma rows_of_id_app l k id :
  List.filter (fun r => bool_decide (r_id r = id)) (l ++ k)%list
  = (List.filter (fun r => bool_decide (r_id r = id)) l
     ++ List.filter (fun r => bool_decide (r_id r = id)) k)%list.
Proof. apply List.filter_app. Qed.
Lemma rows_of_own id l : Forall (fun r => r_id r = id) l ->
  List.filter (fun r => bool_decide (r_id r = id)) l = l.
Proof.
  intros Hl. apply filter_keeps. intros r Hr. apply bool_decide_eq_true_2.
  rewrite Forall_forall in Hl. by apply Hl.
Qed.
Lemma rows_of_none id l : Forall (fun r => r_id r <> id) l ->
  List.filter (fun r => bool_decide (r_id r = id)) l = [].
Proof.
  induction 1 as [|r l Hr _ IH]; [done|]. cbn. by rewrite bool_decide_eq_false_2.
Qed.
Lemma elem_of_bfilter {A} (f : A -> bool) x l : x ∈ List.filter f l <-> x ∈ l /\ f x = true.
Proof. by rewrite !list_elem_of_In, filter_In. Qed.

Lemma no_rows_of_id db c id : rows_of_id db c id = [] -> Forall (fun r => r_id r <> id) (live_rows db c).
Proof.
  intros Hn. apply Forall_forall. intros r Hr Hid.
  assert (r ∈ rows_of_id db c id) as Hin.
  { unfold rows_of_id. rewrite elem_of_bfilter. by rewrite bool_decide_eq_true_2. }
  rewrite Hn in Hin. by apply not_elem_of_nil in Hin.
Qed.

(** Rows appended under a new id. *)
Lemma appended_stores c id l db db' :
  same_elsewhere c db db' -> rows_of_id db c id = [] -> Forall (fun r => r_id r = id) l ->
  live_rows db' c = (live_rows db c ++ l)%list -> stores c id l db db'.
Proof.
  intros Hs Hn Hl Hlive. split; [done|]. intros id'. unfold rows_of_id at 1.
  rewrite Hlive, rows_of_id_app. fold (rows_of_id db c id'). case_decide as Hid.
  - subst. by rewrite Hn, rows_of_own.
  - rewrite (rows_of_none id' l); [by rewrite app_nil_r|].
    eapply Forall_impl; [exact Hl|]. cbn. congruence.
Qed.
Lemma deleted_stores c id db db' :
  same_elsewhere c db db' -> live_rows db' c = List.filter (other_id id) (live_rows db c) ->
  stores c id [] db db'.
Proof.
  intros Hs Hlive. split; [done|]. intros id'. unfold rows_of_id. rewrite Hlive.
  clear Hlive. induction (live_rows db c) as [|r l IH]; [by case_decide|]. cbn. unfold other_id in *.
  destruct (decide (r_id r = id)) as [Hr|Hr].
  - rewrite (bool_decide_eq_true_2 (r_id r = id)) by done. cbn. rewrite IH. case_decide; [done|].
    by rewrite bool_decide_eq_false_2 by congruence.
  - rewrite (bool_decide_eq_false_2 (r_id r = id)) by done. cbn. case_bool_decide; rewrite IH.
    + by rewrite !decide_False by congruence.
    + done.
Qed.
Lemma stores_trans c id l db1 db2 db3 :
  stores c id [] db1 db2 -> stores c id l db2 db3 -> stores c id l db1 db3.
Proof.
  intros [? H1] [? H2]. split; [by eapply same_elsewhere_trans|]. intros id'. rewrite H2.
  case_decide; [done|]. by rewrite H1, decide_False.
Qed.

(** *** The number of features *)

Lemma elem_of_ids db c id : id ∈ ids_of db c <-> rows_of_id db c id <> [].
Proof.
  unfold ids_of. rewrite elem_of_remove_dups, list_elem_of_fmap. split.
  - intros (r & -> & Hr) Hn. apply no_rows_of_id in Hn. rewrite Forall_forall in Hn. by apply (Hn r).
  - intros Hn. destruct (rows_of_id db c id) as [|r l] eqn:Hr; [done|].
    assert (r ∈ rows_of_id db c id) as Hin by (rewrite Hr; apply list_elem_of_here).
    unfold rows_of_id in Hin. rewrite elem_of_bfilter in Hin.
    destruct Hin as [Hin Hid%bool_decide_eq_true_1]. eauto.
Qed.

Lemma ids_of_stores c id l db db' :
  stores c id l db db' ->
  ids_of db' c ≡ₚ (if decide (l = []) then [] else [id]) ++ List.filter (fun x => negb (bool_decide (x = id))) (ids_of db c).
Proof.
  intros [_ Hs]. apply NoDup_Permutation.
  - apply NoDup_remove_dups.
  - apply NoDup_app. split_and!.
    + case_decide; [constructor|apply NoDup_singleton].
    + intros x Hx. case_decide; [by apply not_elem_of_nil in Hx|].
      apply list_elem_of_singleton in Hx as ->. rewrite elem_of_bfilter.
      intros [_ Hx]. by rewrite bool_decide_eq_true_2 in Hx.
    + apply NoDup_ListNoDup, List.NoDup_filter, NoDup_ListNoDup, NoDup_remove_dups.
  - intros x. rewrite elem_of_ids, Hs, elem_of_app, (elem_of_bfilter _ x), elem_of_ids.
    destruct (decide (x = id)) as [->|Hx].
    + rewrite bool_decide_eq_true_2 by done. cbn. destruct (decide (l = [])); set_solver.
    + rewrite bool_decide_eq_false_2 by done. cbn. destruct (decide (l = [])); set_solver.
Qed.

Lemma filter_absent (l : list string) id :
  id ∉ l -> List.filter (fun x => negb (bool_decide (x = id))) l = l.
Proof.
  induction l as [|x l IH]; intros Hid; [done|]. cbn. rewrite bool_decide_eq_false_2 by set_solver.
  cbn. rewrite IH; [done|set_solver].
Qed.
Lemma filter_present (l : list string) id :
  NoDup l -> id ∈ l ->
  length l = S (length (List.filter (fun x => negb (bool_decide (x = id))) l)).
Proof.
  induction 1 as [|x l Hx Hl IH]; intros Hid; [by apply not_elem_of_nil in Hid|]. cbn.
  destruct (decide (x = id)) as [->|Hne].
  - rewrite bool_decide_eq_true_2 by done. cbn. by rewrite filter_absent.
  - rewrite bool_decide_eq_false_2 by done. cbn. rewrite <-IH; [done|]. set_solver.
Qed.

(** How the number of features changes. *)
Lemma ids_length c id l db db' :
  stores c id l db db' ->
  Z.of_nat (length (ids_of db' c))
  = Z.of_nat (length (ids_of db c)) + (if decide (l = []) then 0 else 1)
    - (if decide (rows_of_id db c id = []) then 0 else 1).
Proof.
  intros Hs. pose proof (ids_of_stores _ _ _ _ _ Hs) as Hp. apply Permutation_length in Hp.
  rewrite Hp, length_app. destruct (decide (rows_of_id db c id = [])) as [Hn|Hn].
  - rewrite filter_absent by (rewrite elem_of_ids; by intros Hn'). destruct (decide (l = [])); cbn; lia.
  - rewrite (filter_present (ids_of db c) id); [|apply NoDup_remove_dups|by apply elem_of_ids].
    destruct (decide (l = [])); cbn; lia.
Qed.

(** ** The writes *)

Section writes.
Context {geom num : Type} `{Shapely geom num} `{GeometryOps geom}.
Context `{FeatureLaws} (cfg : Settings) (depth : nat) (expanduser path_resolve : string -> string).

Lemma fstmt_plain {A} (q : fsql A) db r db' :
  determined q = true -> conditions q = None -> frun q db = (inr r, db') -> fstmt q db = (inr r, db').
Proof. intros Hd Hc Hr. unfold fstmt. rewrite fexec_run, Hr; [done|done|]. unfold sound. by rewrite Hc. Qed.

(** The rows a feature is stored as. *)
Definition stored_rows (id c : string) (g : option geom) (props : option (list (string * json)))
    (now : Z) : res (list frow) :=
  let max_vertices := features_subdivide_max_vertices cfg in
  let of_server (l : sql_error + list frow) : res (list frow) :=
    match l with inl e => inl (exn_of_sql e) | inr l => inr l end in
  let direct :=
    of_server (subdivided_rows id c (wkt <$> g) (props_param props) (now_utc now) max_vertices) in
  match g with
  | None => direct
  | Some g =>
      let! n := need (coord_count depth g) recursion_error in
      if MAX_COORDS_FOR_DB_SUBDIVIDE <? n then
        let! parts := need (subdivide_geometry_by_vertices depth g max_vertices) recursion_error in
        of_server (part_rows id c (mjoin (batches 80 (nonempty_wkts parts))) (props_param props) (now_utc now))
      else direct
  end.

Lemma part_rows_app id c v v' props now l :
  part_rows id c (v ++ v')%list props now = inr l ->
  exists l1 l2, part_rows id c v props now = inr l1 /\ part_rows id c v' props now = inr l2
    /\ l = (l1 ++ l2)%list.
Proof.
  revert l. induction v as [|[[i n] w] v IH]; intros l; cbn [app part_rows].
  - intros Hl. by exists [], l.
  - destruct (pg_force2d w) as [g|]; [|done].
    destruct (part_rows id c (v ++ v') props now) as [e|l'] eqn:Hv; [done|]. intros [= <-].
    destruct (IH _ eq_refl) as (l1 & l2 & -> & -> & ->). by eexists _, l2.
Qed.

Lemma insert_result_ok db l c :
  db_wf db -> Forall (fun r => r_collection r = c) l -> NoDup (map row_key (live_rows db c ++ l)%list) ->
  exists db', insert_result db (inr l) = (inr tt, db') /\ same_elsewhere c db db'
    /\ live_rows db' c = (live_rows db c ++ l)%list /\ (forall c', count_of db' c' = count_of db c').
Proof.
  intros Hw Hc Hk. destruct (insert_touched_spec c l db) as (db' & Hi & Hrest); [done..|].
  exists db'. unfold insert_result. by rewrite Hi.
Qed.

Lemma insert_batches_spec id c props now bs : forall db l,
  db_wf db -> part_rows id c (mjoin bs) (props_param props) now = inr l ->
  Forall (fun r => r_collection r = c) l -> NoDup (map row_key (live_rows db c ++ l)%list) ->
  exists db', insert_batches id c props now bs db = (inr tt, db') /\ same_elsewhere c db db'
    /\ live_rows db' c = (live_rows db c ++ l)%list /\ (forall c', count_of db' c' = count_of db c').
Proof.
  induction bs as [|b bs IH]; intros db l Hw Hl Hc Hk.
  - injection Hl as <-. exists db. split_and!; [done|by apply same_elsewhere_refl|by rewrite app_nil_r|done].
  - cbn in Hl. apply part_rows_app in Hl as (l1 & l2 & Hr1 & Hr2 & ->).
    apply Forall_app in Hc as [Hc1 Hc2]. rewrite (assoc_L (++)) in Hk.
    destruct (insert_result_ok db l1 c Hw Hc1) as (db1 & Hi & Hs & Hlive & Hco).
    { rewrite map_app in Hk. by apply NoDup_app in Hk as (Hk & _ & _). }
    destruct (IH db1 l2) as (db2 & Hi2 & Hs2 & Hlive2 & Hco2); [by destruct Hs|done|done| |].
    { by rewrite Hlive. }
    exists db2. cbn [insert_batches]. rewrite tx_bind_run.
    rewrite (fstmt_plain _ db tt db1); [|done|done|by cbn; rewrite Hr1].
    split; [done|]. split; [by eapply same_elsewhere_trans|]. split.
    + by rewrite Hlive2, Hlive, (assoc_L (++)).
    + intros c'. by rewrite Hco2, Hco.
Qed.

(** The rows of one feature: its collection, its id and distinct part numbers. *)
Definition own_rows (c id : string) (l : list frow) : Prop :=
  Forall (fun r => r_collection r = c /\ r_id r = id) l /\ NoDup (map r_part l).

Lemma imap_rows id c props now l : forall k,
  own_rows c id (imap (fun i g => new_row id c (Z.of_nat (k + i)) (Some g) props None now) l)
  /\ Forall (fun z => Z.of_nat k <= z) (map r_part (imap (fun i g => new_row id c (Z.of_nat (k + i)) (Some g) props None now) l)).
Proof.
  induction l as [|g l IH]; intros k; [by repeat constructor|]. rewrite imap_cons.
  assert (imap ((fun i g => new_row id c (Z.of_nat (k + i)) (Some g) props None now) ∘ S) l
          = imap (fun i g => new_row id c (Z.of_nat (S k + i)) (Some g) props None now) l) as ->.
  { apply imap_ext. intros i x _. cbn. do 2 f_equal. lia. }
  destruct (IH (S k)) as [[Hf Hn] Hb]. split; [split|].
  - constructor; [done|apply Hf].
  - cbn [map]. constructor; [|apply Hn]. intros Hin. rewrite Forall_forall in Hb.
    specialize (Hb _ Hin). cbn in Hb. lia.
  - cbn [map]. constructor; [cbn; lia|]. eapply Forall_impl; [exact Hb|]. cbn. lia.
Qed.

Lemma subdivided_own id c w props now mv l :
  subdivided_rows id c w props now mv = inr l -> own_rows c id l.
Proof.
  unfold subdivided_rows. destruct (is_empty_or_null_wkt w).
  - intros [= <-]. split; cbn; [by repeat constructor|apply NoDup_singleton].
  - destruct (pg_force2d (opt_str w)) as [g|]; [|done]. intros [= <-]. apply (imap_rows _ _ _ _ _ 0).
Qed.
Lemma part_rows_own id c values props now l :
  part_rows id c values props now = inr l -> NoDup (map part_idx values) -> own_rows c id l.
Proof.
  intros Hl Hn.
  assert (Forall (fun r => r_collection r = c /\ r_id r = id) l /\ map r_part l = map part_idx values) as [Hf Hp].
  { clear Hn. revert l Hl. induction values as [|[[i n] w] values IH]; intros l Hl; cbn in Hl.
    - by injection Hl as <-.
    - destruct (pg_force2d w) as [g|]; [|done].
      destruct (part_rows id c values props now) as [e|l']; [done|]. injection Hl as <-.
      destruct (IH l' eq_refl) as [Hf Hp]. split; [by constructor|]. cbn. by rewrite Hp. }
  split; [done|]. by rewrite Hp.
Qed.

Lemma stored_rows_own id c g props now l : stored_rows id c g props now = inr l -> own_rows c id l.
Proof.
  assert (forall w mv, match subdivided_rows id c w (props_param props) (now_utc now) mv with
                       | inl e => inl (exn_of_sql e) | inr l => inr l end = inr l -> own_rows c id l) as Hdir.
  { intros w mv Hl. destruct (subdivided_rows _ _ _ _ _ _) eqn:Hs; [done|]. injection Hl as ->.
    by eapply subdivided_own. }
  unfold stored_rows. destruct g as [g|]; [|apply Hdir].
  destruct (coord_count depth g) as [n|]; [|done]. cbn [need res_bind].
  destruct (MAX_COORDS_FOR_DB_SUBDIVIDE <? n); [|apply Hdir].
  destruct (subdivide_geometry_by_vertices _ _ _) as [parts|]; [|done]. cbn [need res_bind].
  destruct (part_rows _ _ _ _ _) as [e|l'] eqn:Hp; [done|]. intros [= ->].
  eapply part_rows_own; [done|]. unfold batches.
  destruct (part_batches_spec (length (nonempty_wkts parts)) 0 80 (nonempty_wkts parts)) as (_ & Hs & _); [lia|lia|].
  clear -Hs. induction Hs as [|z k _ IH Hz]; constructor; [|done].
  rewrite Forall_forall in Hz. intros Hin. specialize (Hz _ Hin). lia.
Qed.

Lemma own_rows_fresh db c id l :
  db_wf db -> own_rows c id l -> rows_of_id db c id = [] ->
  NoDup (map row_key (live_rows db c)) -> NoDup (map row_key (live_rows db c ++ l)%list).
Proof.
  intros Hw [Hf Hp] Hn Hk. rewrite map_app. apply NoDup_app. split_and!; [done| |].
  - intros k (r & -> & Hr)%list_elem_of_fmap (r' & Hk' & Hr')%list_elem_of_fmap.
    apply no_rows_of_id in Hn. rewrite Forall_forall in Hn. apply (Hn r Hr).
    rewrite Forall_forall in Hf. destruct (Hf r' Hr') as [_ <-]. unfold row_key in Hk'. congruence.
  - clear Hf. induction l as [|r l IH]; [constructor|]. cbn in Hp |- *. apply NoDup_cons in Hp as [Hr Hp].
    constructor; [|by apply IH]. intros (r' & Hk' & Hr')%list_elem_of_fmap. apply Hr.
    unfold row_key in Hk'. injection Hk' as _ _ ->. by apply list_elem_of_fmap_2.
Qed.

Lemma live_keys db c : db_wf db -> NoDup (map row_key (live_rows db c)).
Proof.
  intros Hw. unfold live_rows. assert (forall l, keys_unique l = true -> NoDup (map row_key (of_coll c l))) as Hof.
  { intros l Hl. pose proof (keys_unique_sublist _ _ (of_coll_sublist c l) Hl) as Hk.
    by apply bool_decide_eq_true_1 in Hk. }
  destruct (db_parts db !! c) as [n|] eqn:Hn; apply Hof; [|apply Hw].
  destruct (wf_part _ Hw _ _ Hn) as (t & Ht & Hk & _). unfold rows_of. by rewrite Ht.
Qed.

(** Inserting a feature under an id that has no rows. *)
Lemma insert_feature_spec id c g props now l db :
  db_wf db -> rows_of_id db c id = [] -> stored_rows id c g props now = inr l ->
  exists db', insert_feature cfg depth id c g props (now_utc now) db = (inr tt, db')
    /\ stores c id l db db' /\ (forall c', count_of db' c' = count_of db c').
Proof.
  intros Hw Hn Hl. pose proof (stored_rows_own _ _ _ _ _ _ Hl) as Hown.
  pose proof (own_rows_fresh db c id l Hw Hown Hn (live_keys db c Hw)) as Hk.
  assert (Forall (fun r => r_collection r = c) l) as Hc by (eapply Forall_impl; [apply Hown|naive_solver]).
  assert (Forall (fun r => r_id r = id) l) as Hid by (eapply Forall_impl; [apply Hown|naive_solver]).
  enough (exists db', insert_feature cfg depth id c g props (now_utc now) db = (inr tt, db')
    /\ same_elsewhere c db db' /\ live_rows db' c = (live_rows db c ++ l)%list
    /\ (forall c', count_of db' c' = count_of db c')) as (db' & Hi & Hs & Hlive & Hco).
  { exists db'. split; [done|]. split; [|done]. by apply appended_stores. }
  assert (forall w, match subdivided_rows id c w (props_param props) (now_utc now) (features_subdivide_max_vertices cfg) with
            | inl e => inl (exn_of_sql e) | inr l => inr l end = inr l ->
          exists db', fstmt (InsertSubdivided id c w (props_param props) (now_utc now)
                               (features_subdivide_max_vertices cfg)) db = (inr tt, db')
    /\ same_elsewhere c db db' /\ live_rows db' c = (live_rows db c ++ l)%list
    /\ (forall c', count_of db' c' = count_of db c')) as Hdir.
  { intros w Hs. destruct (subdivided_rows _ _ _ _ _ _) as [|l'] eqn:Hsub; [done|]. injection Hs as ->.
    destruct (insert_result_ok db l c Hw Hc Hk) as (db' & Hi & Hrest). exists db'. split; [|done].
    apply fstmt_plain; [done|done|]. cbn [frun]. by rewrite Hsub. }
  unfold stored_rows in Hl. unfold insert_feature. destruct g as [g|]; [|by apply Hdir].
  destruct (coord_count depth g) as [n|]; [|done]. cbn [need res_bind] in Hl.
  rewrite tx_bind_run. unfold lift_tx at 1. cbn [need].
  destruct (MAX_COORDS_FOR_DB_SUBDIVIDE <? n); [|by apply Hdir].
  destruct (subdivide_geometry_by_vertices _ _ _) as [parts|]; [|done]. cbn [need res_bind] in Hl.
  destruct (part_rows _ _ _ _ _) as [|l'] eqn:Hp; [done|]. injection Hl as ->.
  rewrite tx_bind_run. unfold lift_tx at 1. cbn [need]. by apply insert_batches_spec.
Qed.

(** *** The counter *)

Lemma count_add f c db c' :
  count_of (add_count f c db) c' = if decide (c' = c) then f <$> count_of db c else count_of db c'.
Proof.
  unfold count_of, add_count. cbn. case_decide as Hc.
  - subst. rewrite lookup_alter_eq. by destruct (db_collections db !! c).
  - by rewrite lookup_alter_ne.
Qed.
Lemma stores_count c id l db db' f : stores c id l db db' -> stores c id l db (add_count f c db').
Proof. intros [Hs Hr]. split; [by apply same_elsewhere_collections|exact Hr]. Qed.

Lemma count_after c id l db db' n :
  stores c id l db db' -> count_exact db c ->
  count_of db' c = Some (Z.of_nat (length (ids_of db c)) + n) ->
  n = (if decide (l = []) then 0 else 1) - (if decide (rows_of_id db c id = []) then 0 else 1) ->
  count_exact db' c.
Proof. intros Hs He Hc Hn. unfold count_exact. rewrite Hc, (ids_length _ _ _ _ _ Hs). f_equal. lia. Qed.

(** ** The abstract writes *)

Inductive write_op :=
  | OpCreate (geometry : option json) (props : option (list (string * json)))
  | OpReplace (geometry : option json) (props : option (list (string * json)))
  | OpUpdate (g : option geom) (props : option (list (string * json)))
  | OpDelete.

Definition run_write (op : write_op) (c id : string) (now : Z) : TX bool :=
  match op with
  | OpCreate g props =>
      create_tx cfg depth expanduser path_resolve (mkFeatureCreate g props c) id now;; mret true
  | OpReplace g props =>
      replace_tx cfg depth expanduser path_resolve c id (mkFeatureReplace id g props) now;; mret true
  | OpUpdate g props => update_tx cfg depth c id g props now;; mret true
  | OpDelete => delete_tx c id
  end.

(** The rows the feature has afterwards. *)
Definition rows_written (op : write_op) (c id : string) (now : Z) : res (list frow) :=
  match op with
  | OpCreate g props | OpReplace g props =>
      let! x := checked cfg expanduser path_resolve g props in stored_rows id c x.1 x.2 now
  | OpUpdate g props => stored_rows id c g props now
  | OpDelete => inr []
  end.

Definition applies (op : write_op) (db : database) (c id : string) : Prop :=
  match op with OpCreate _ _ => rows_of_id db c id = [] | _ => rows_of_id db c id <> [] end.
Definition keeps_rows (op : write_op) (l : list frow) : Prop :=
  match op with OpDelete => True | _ => l <> [] end.

Lemma delete_statement c id db :
  fstmt (DeleteFeature c id) db
  = (inr (Z.of_nat (length (List.filter (is_feature c id) (live_rows db c)))), delete_feature_rows c id db).
Proof. by apply fstmt_plain. Qed.
Lemma add_statement c n db : fstmt (AddFeatureCount c n) db = (inr tt, add_count (fun k => k + n) c db).
Proof. by apply fstmt_plain. Qed.
Lemma sub_statement c n db :
  fstmt (SubFeatureCount c n) db = (inr tt, add_count (fun k => Z.max 0 (k - n)) c db).
Proof. by apply fstmt_plain. Qed.

(** Deleting the rows of an id, then storing new ones. *)
Lemma rewrite_feature c id g props now l db :
  db_wf db -> stored_rows id c g props now = inr l ->
  exists db', (fstmt (DeleteFeature c id);; insert_feature cfg depth id c g props (now_utc now)) db
      = (inr tt, db')
    /\ stores c id l db db' /\ (forall c', count_of db' c' = count_of db c').
Proof.
  intros Hw Hl. destruct (delete_feature_rows_spec db c id Hw) as (Hs & Hlive & Hco).
  set (db1 := delete_feature_rows c id db) in *.
  pose proof (deleted_stores _ _ _ _ Hs Hlive) as Hd.
  destruct (insert_feature_spec id c g props now l db1) as (db2 & Hi & Hst & Hco2); [by destruct Hs| |done|].
  { rewrite (st_rows _ _ _ _ _ Hd). by rewrite decide_True. }
  exists db2. rewrite tx_bind_run, delete_statement. fold db1. split; [done|].
  split; [by eapply stores_trans|]. intros c'. by rewrite Hco2.
Qed.

Lemma deleted_count db c id :
  length (List.filter (is_feature c id) (live_rows db c)) = length (rows_of_id db c id).
Proof.
  unfold rows_of_id. f_equal. apply filter_ext_in. intros r Hr. unfold is_feature.
  rewrite bool_decide_eq_true_2; [done|]. apply (live_rows_collection db). by apply list_elem_of_In.
Qed.

(** What a write of the rows [l] to the feature [id] of [c] has to do. *)
Definition written (c id : string) (l : list frow) (db db' : database) : Prop :=
  stores c id l db db' /\ count_exact db' c /\ (forall c', c' <> c -> count_of db' c' = count_of db c').

Lemma rewritten c id l db db' :
  stores c id l db db' -> (forall c', count_of db' c' = count_of db c') -> count_exact db c ->
  rows_of_id db c id <> [] -> l <> [] -> written c id l db db'.
Proof.
  intros Hs Hco He Ha Hk. split; [done|]. split; [|by intros c' _].
  eapply (count_after _ id l _ _ 0); [done|done| |by rewrite !decide_False].
  by rewrite Hco, Z.add_0_r.
Qed.

Lemma create_refines c id g props now l db :
  db_wf db -> rows_of_id db c id = [] -> rows_written (OpCreate g props) c id now = inr l -> l <> [] ->
  count_exact db c ->
  exists db', run_write (OpCreate g props) c id now db = (inr true, db') /\ written c id l db db'.
Proof.
  intros Hw Ha Hl Hk He. cbn [rows_written run_write] in *. unfold create_tx.
  cbn [fc_geometry fc_properties fc_collection].
  destruct (checked _ _ _ g props) as [e|[g' props']]; [done|]. cbn [res_bind fst snd] in Hl.
  destruct (insert_feature_spec id c g' props' now l db Hw Ha Hl) as (db1 & Hi & Hs & Hco).
  exists (add_count (fun n => n + 1) c db1).
  rewrite !tx_bind_run. unfold lift_tx at 1. cbn beta iota. rewrite tx_bind_run. cbn [fst snd].
  rewrite Hi. cbn beta iota. rewrite add_statement. split; [done|].
  split; [by apply stores_count|]. split.
  - eapply (count_after _ id l _ _ 1); [by apply stores_count|done| |].
    + by rewrite count_add, decide_True, Hco, He.
    + by rewrite decide_False, decide_True.
  - intros c' Hc'. by rewrite count_add, decide_False, Hco.
Qed.

Lemma replace_refines c id g props now l db :
  db_wf db -> rows_of_id db c id <> [] -> rows_written (OpReplace g props) c id now = inr l -> l <> [] ->
  count_exact db c ->
  exists db', run_write (OpReplace g props) c id now db = (inr true, db') /\ written c id l db db'.
Proof.
  intros Hw Ha Hl Hk He. cbn [rows_written run_write] in *. unfold replace_tx.
  cbn [fr_geometry fr_properties].
  destruct (checked _ _ _ g props) as [e|[g' props']]; [done|]. cbn [res_bind fst snd] in Hl.
  destruct (rewrite_feature c id g' props' now l db Hw Hl) as (db1 & Hi & Hs & Hco).
  exists db1. split; [|by apply rewritten].
  rewrite tx_bind_run in Hi. rewrite !tx_bind_run.
  destruct (fstmt (DeleteFeature c id) db) as [[e|n] db2]; [done|].
  unfold lift_tx at 1. cbn beta iota. rewrite tx_bind_run. cbn [fst snd]. by rewrite Hi.
Qed.

Lemma update_refines c id g props now l db :
  db_wf db -> rows_of_id db c id <> [] -> rows_written (OpUpdate g props) c id now = inr l -> l <> [] ->
  count_exact db c ->
  exists db', run_write (OpUpdate g props) c id now db = (inr true, db') /\ written c id l db db'.
Proof.
  intros Hw Ha Hl Hk He. cbn [rows_written run_write] in *. unfold update_tx.
  destruct (rewrite_feature c id g props now l db Hw Hl) as (db1 & Hi & Hs & Hco).
  exists db1. split; [|by apply rewritten]. by rewrite tx_bind_run, Hi.
Qed.

Lemma delete_refines c id now db :
  db_wf db -> rows_of_id db c id <> [] -> count_exact db c ->
  exists db', run_write OpDelete c id now db = (inr true, db') /\ written c id [] db db'.
Proof.
  intros Hw Ha He. destruct (delete_feature_rows_spec db c id Hw) as (Hs & Hlive & Hco).
  set (db1 := delete_feature_rows c id db) in *.
  pose proof (stores_count _ _ _ _ _ (fun n => Z.max 0 (n - 1)) (deleted_stores _ _ _ _ Hs Hlive)) as Hd.
  exists (add_count (fun n => Z.max 0 (n - 1)) c db1). cbn [run_write]. unfold delete_tx.
  rewrite tx_bind_run, delete_statement, deleted_count. fold db1.
  assert ((Z.of_nat (length (rows_of_id db c id)) =? 0) = false) as ->.
  { apply Z.eqb_neq. destruct (rows_of_id db c id); cbn; [done|lia]. }
  rewrite tx_bind_run, sub_statement. split; [done|]. split; [done|].
  split; [|by intros c' Hc'; rewrite count_add, decide_False, Hco].
  assert (0 < length (ids_of db c))%nat as Hpos.
  { apply (elem_of_ids db c id) in Ha. destruct (ids_of db c); [by apply not_elem_of_nil in Ha|cbn; lia]. }
  eapply (count_after _ id [] _ _ (-1)); [done|done| |by rewrite decide_True, decide_False].
  rewrite count_add, decide_True, Hco, He by done. cbn. f_equal. lia.
Qed.

(** C8. Every write of a feature through the API does to the collection what it does to
    a map from ids to features: it gives the written id its new rows, or none, leaves
    every other feature and every other collection alone, and keeps the cached number
    of features equal to the number of features there are. *)
Theorem feature_writes_refine (op : write_op) (c id : string) (now : Z) (l : list frow) (db : database) :
  db_wf db -> applies op db c id -> rows_written op c id now = inr l -> keeps_rows op l ->
  count_exact db c ->
  exists db', run_write op c id now db = (inr true, db') /\ written c id l db db'.
Proof.
  intros Hw Ha Hl Hk He. destruct op.
  - by apply create_refines.
  - by apply replace_refines.
  - by apply update_refines.
  - injection Hl as <-. by apply delete_refines.
Qed.
End writes.

(** ** Witness *)

Definition renamed_north : list frow :=
  [new_row "a" "towns" 0 (Some (dumps (points_json []))) (PText (dumps (JObj [("name", JStr "n")]))) None
     (now_utc (us 90))].

Lemma towns_counted : count_exact towns_db "towns".
Proof. by vm_compute. Qed.

Lemma feature_writes_refine_witness :
  let run := @run_write _ _ demo_shapely (@reference_features plain_postgis)
               default_settings 9 (fun p => p) (fun p => p) in
  (exists db', run (OpReplace (Some (points_json [(1, 1)])) (Some [("id", JStr "z"); ("name", JStr "n")]))
                 "towns" "a" (us 90) towns_db = (inr true, db')
     /\ written "towns" "a" renamed_north towns_db db')
  /\ exists db', run OpDelete "towns" "b" (us 90) towns_db = (inr true, db')
     /\ written "towns" "b" [] towns_db db'.
Proof.
  split; apply (@feature_writes_refine _ _ demo_shapely plain_postgis
    (@reference_features plain_postgis)); try exact towns_counted; try apply _; try done.
  all: by vm_compute.
Defined.
