(* ===== verification/UploadSessions.v ===== *)
(** * Uploads in parts and the requests that queue an import

    app/services/bulk_upload_sessions.py, app/services/bulk_import_params.py,
    app/services/collection_type_guard.py and the upload endpoints of
    app/api/routes/items.py.  A session is a JSON object in Redis with a time to live;
    the parts are files under the directory of the session.  A request body is a list
    of fields; an uploaded file is its content.  The record of an answer leaves out the
    links and the constants. *)

From stdpp Require Import sorting.
From S2P Require Import Prelude PyTime Redis Postgres Tables World Json Mutex JobStore BulkQueue.
From S2P Require Import Queue Database Partitions Subdivide CopyFormat CopyIngest BulkStorage Session Permissions Styles Collections MapPublishing PropertyFilters.

(** ** app/services/collection_type_guard.py *)

Definition collection_type_in (types : list string) (detail : string) (c : Collection) : DB unit :=
  guard_or (bool_decide (c_type c ∈ types)) 400 detail.
Definition ensure_vector_collection : Collection -> DB unit :=
  collection_type_in [COLLECTION_TYPE_VECTOR; COLLECTION_TYPE_COMPOSITE]
    "This endpoint is only available for vector collections.".
Definition ensure_vector_data_collection : Collection -> DB unit :=
  collection_type_in [COLLECTION_TYPE_VECTOR]
    "This endpoint is only available for vector collections with stored features.".
Definition ensure_composite_collection : Collection -> DB unit :=
  collection_type_in [COLLECTION_TYPE_COMPOSITE]
    "This endpoint is only available for composite collections.".
Definition ensure_raster_collection : Collection -> DB unit :=
  collection_type_in [COLLECTION_TYPE_RASTER]
    "This endpoint is only available for raster collections.".

(** ** app/services/bulk_import_params.py *)

Definition BULK_IMPORT_MODES : list string := ["append"; "replace"; "replace_filtered"].
Definition BULK_COPY_MODES : list string := ["append"; "replace"].

(** [str.splitlines] up to the lines that are empty; the separators outside of ASCII
    are given as their bytes. *)
Fixpoint split_lines (cur s : string) : list string :=
  match s with
  | EmptyString => [String.rev cur]
  | String "194" (String "133" s') => String.rev cur :: split_lines "" s'
  | String "226" (String "128" (String "168" s')) | String "226" (String "128" (String "169" s')) =>
      String.rev cur :: split_lines "" s'
  | String c s' =>
      if decide (c ∈ ["010"; "011"; "012"; "013"; "028"; "029"; "030"]%char)
      then String.rev cur :: split_lines "" s'
      else split_lines (String c cur) s'
  end.

(** [[line.strip() for line in s.splitlines() if line.strip()]] *)
Definition stripped_lines (s : string) : list string :=
  List.filter (fun l => negb (bool_decide (l = ""))) (map strip (split_lines "" s)).

(** What a [for] loop goes through. *)
Fixpoint characters (s : string) : list json :=
  match s with EmptyString => [] | String c s' => JStr (String c "") :: characters s' end.
Definition json_iter (j : json) : res (list json) :=
  match j with
  | JList l => inr l
  | JStr s => inr (characters s)
  | JObj m => inr (map (fun kv => JStr kv.1) m)
  | _ => inl (TypeError "object is not iterable")
  end.

Definition filter_item (item : json) : list string :=
  match item with
  | JStr s => if contains (String "010" "") s then stripped_lines s
              else if decide (strip s = "") then [] else [strip s]
  | _ => []
  end.
Definition normalize_replace_filters_raw (raw : json) : res (list string) :=
  match raw with
  | JNull => inr []
  | JStr s => inr (stripped_lines s)
  | _ => let! l := json_iter raw in inr (concat (map filter_item l))
  end.

Definition bad_request {A} (detail : string) : res A := inl (HTTPException 400 (JStr detail)).

Definition parsed_replace_filters : list string -> list PropertyFilter := parse_filter_param.
Definition filter_line (pf : PropertyFilter) : string :=
  pf_key pf +:+ ":" +:+ op_text (pf_op pf) +:+ ":" +:+ pf_value pf.

Definition validate_bulk_import_mode_and_filters (cfg : Settings) (mode : string) (replace_filters_raw : json) :
  res (string * list string) :=
  let mode := strip (if decide (mode = "") then "append" else mode) in
  if decide (mode ∉ BULK_IMPORT_MODES) then
    bad_request "mode must be 'append', 'replace', or 'replace_filtered'"
  else if bulk_copy_ingest_enabled cfg && bool_decide (mode ∉ BULK_COPY_MODES) then
    bad_request "mode must be 'append' or 'replace' for bulk file upload (replace_filtered is not supported)"
  else
    let! lines := normalize_replace_filters_raw replace_filters_raw in
    if decide (mode = "replace_filtered") then
      match parse_filter_param lines with
      | [] => bad_request "replace_filtered requires at least one valid filter (key:op:value per line)"
      | parsed => inr (mode, map filter_line parsed)
      end
    else
      match lines with
      | [] => inr (mode, [])
      | _ => bad_request "replace_filters is only allowed when mode is replace_filtered"
      end.

Definition parse_queue_compute_tiles (value : json) (default : bool) : bool :=
  match value with
  | JNull => default
  | JBool b => b
  | _ => negb (bool_decide (lower (json_str value) ∈ ["false"; "0"; "no"; ""]))
  end.

(** ** app/services/bulk_upload_sessions.py *)

Definition UPLOAD_SESSION_PREFIX : string := "geofastmap:bulk_upload_session:".
Definition session_key (upload_id : string) : string := UPLOAD_SESSION_PREFIX +:+ upload_id.

(** [d.update(patch)] *)
Definition dict_update (d patch : list (string * json)) : list (string * json) :=
  foldl (fun m kv => dict_set kv.1 kv.2 m) d patch.

Section sessions.
Context `{RedisServer} `{Entropy} (cfg : Settings).

Definition write_session (upload_id : string) (s : list (string * json)) : M unit :=
  run_redis_retry cfg
    (redis (SetEx (session_key upload_id) (dumps_compact (JObj s))
              (Some (bulk_upload_session_ttl_seconds cfg)) false);; mret tt) None.

Record new_session := NewSession {
  ns_collection_id : string;
  ns_owner_id : option Z;
  ns_filename : string;
  ns_mode : string;
  ns_batch_size : Z;
  ns_queue_compute_tiles : bool;
  ns_upload_kind : string;
  ns_extra : list (string * json)
}.

Definition owner_json (x : option Z) : json := match x with Some z => JInt z | None => JNull end.

Definition session_payload (upload_id now : string) (n : new_session) : list (string * json) :=
  dict_update
    [("upload_id", JStr upload_id); ("collection_id", JStr (ns_collection_id n));
     ("owner_id", owner_json (ns_owner_id n)); ("filename", JStr (ns_filename n));
     ("mode", JStr (ns_mode n)); ("batch_size", JInt (ns_batch_size n));
     ("queue_compute_tiles", JBool (ns_queue_compute_tiles n)); ("created_at", JStr now);
     ("updated_at", JStr now); ("status", JStr "pending_parts"); ("parts", JList []);
     ("upload_kind", JStr (ns_upload_kind n))]
    (ns_extra n).

Definition create_upload_session (n : new_session) : M (string * list (string * json)) :=
  upload_id ← uuid4;
  now ← get_now;
  let payload := session_payload upload_id (isoformat_z (utcnow now)) n in
  write_session upload_id payload;;
  mret (upload_id, payload).

Definition get_upload_session (upload_id : string) : M (option json) :=
  raw ← run_redis_retry cfg (redis (Get (session_key upload_id))) None;
  mret match raw with
       | None => None
       | Some text => if decide (text = "") then None else loads text
       end.

(** A session that is there, as a dict; [None] for a falsy one. *)
Definition session_fields (s : option json) : res (option (list (string * json))) :=
  match s with
  | None => inr None
  | Some j => if json_truthy j then let! m := as_dict j in inr (Some m) else inr None
  end.

Definition update_upload_session (upload_id : string) (patch : list (string * json)) :
  M (option (list (string * json))) :=
  s ← get_upload_session upload_id;
  s ← lift (session_fields s);
  match s with
  | None => mret None
  | Some s =>
      now ← get_now;
      let s := dict_set "updated_at" (JStr (isoformat_z (utcnow now))) (dict_update s patch) in
      write_session upload_id s;;
      mret (Some s)
  end.

Definition field (f : string) (m : list (string * json)) : json := default JNull (dict_get f m).

(** [[int(x) for x in (j or [])]] *)
Fixpoint ints (l : list json) : res (list Z) :=
  match l with
  | [] => inr []
  | j :: l' => let! z := json_int j in let! r := ints l' in inr (z :: r)
  end.
Definition ints_of (j : json) : res (list Z) :=
  if json_truthy j then let! l := json_iter j in ints l else inr [].

Definition add_uploaded_part (upload_id : string) (part_no : Z) : M (option (list (string * json))) :=
  s ← get_upload_session upload_id;
  s ← lift (session_fields s);
  match s with
  | None => mret None
  | Some s =>
      parts ← lift (ints_of (field "parts" s));
      let parts := sorted_set_z (part_no :: parts) in
      update_upload_session upload_id
        (dict_set "status" (JStr "pending_parts") (dict_set "parts" (JList (map JInt parts)) s))
  end.

Definition delete_upload_session (upload_id : string) : M unit :=
  run_redis_retry cfg (redis (Del [session_key upload_id])) None.
End sessions.

(** ** The upload endpoints of app/api/routes/items.py *)

(** [PathLib(filename).suffix.lower()], or [".geojson"] for a format that is not read. *)
Definition path_name (path : string) : string :=
  default "" (last (List.filter (fun p => negb (bool_decide (p ∈ [""; "."]))) (split "/" path))).
Definition path_suffix (path : string) : string :=
  let name := path_name path in
  match split "." name with
  | [] | [_] => ""
  | first :: rest =>
      let ext := default "" (last rest) in
      if bool_decide (ext = "") || bool_decide (String.length name = S (String.length ext)) then ""
      else "." +:+ ext
  end.
Definition upload_formats : list string :=
  [".kml"; ".gpkg"; ".geojson"; ".json"; ".geojsonl"; ".geojsonseq"; ".jsonl"; ".zip"].
Definition upload_suffix (filename : string) : string :=
  let suffix := lower (path_suffix filename) in
  if decide (suffix ∈ upload_formats) then suffix else ".geojson".

Section endpoints.
Context `{RedisServer} `{Entropy} (cfg : Settings).
Context (zip_names : string -> option (list string)).

Definition http_error {A} (code : Z) (detail : string) : M A := raise (HTTPException code (JStr detail)).

(** The collection the caller may load features into. *)
Definition import_target (c : string) (user : option User) : M Collection :=
  on_tables
    (t ← read_all;
     coll ← row_or (tb_collections t !! c) 404 "Collection not found";
     ensure_vector_data_collection coll;;
     guard_or (can_edit_collection t coll user) 403 "You do not have permission to edit this collection";;
     mret coll).

(** The session of the path, when it belongs to the collection. *)
Definition found_session (c upload_id : string) : M (list (string * json)) :=
  s ← get_upload_session cfg upload_id;
  s ← lift (session_fields s);
  match s with
  | Some s =>
      if match field "collection_id" s with JStr c' => bool_decide (c' = c) | _ => false end then mret s
      else http_error 404 "Upload session not found"
  | None => http_error 404 "Upload session not found"
  end.

Definition caller_id (user : option User) : option Z := user_id <$> user.

Definition create_bulk_upload_session (c : string) (body : list (string * json)) (user : option User) :
  M string :=
  import_target c user;;
  checked ← lift (validate_bulk_import_mode_and_filters cfg
                    (json_str (json_or (field "mode" body) (JStr "append"))) (field "replace_filters" body));
  batch_size ← lift (json_int (json_or (field "batch_size" body) (JInt (bulk_import_batch_size cfg))));
  if (batch_size <? 1) || (100000 <? batch_size) then http_error 400 "batch_size out of range"
  else
    s ← create_upload_session cfg {|
      ns_collection_id := c;
      ns_owner_id := caller_id user;
      ns_filename := json_str (json_or (field "filename" body) (JStr "upload.geojson"));
      ns_mode := checked.1;
      ns_batch_size := batch_size;
      ns_queue_compute_tiles := parse_queue_compute_tiles (field "queue_compute_tiles" body) false;
      ns_upload_kind := "vector_bulk";
      ns_extra := match checked.2 with
                  | [] => []
                  | lines => [("replace_filters", JStrs lines)]
                  end |};
    mret s.1.

(** [s.get("owner_id") is not None and current_user and int(...) != int(...)] *)
Definition other_owner (s : list (string * json)) (user : option User) : res bool :=
  match field "owner_id" s, user with
  | JNull, _ | _, None => inr false
  | owner, Some u => let! z := json_int owner in inr (negb (z =? user_id u))
  end.

Definition upload_bulk_session_part (c upload_id : string) (part_no : Z) (content : string)
    (user : option User) : M (list Z) :=
  import_target c user;;
  s ← found_session c upload_id;
  other ← lift (other_owner s user);
  if (other : bool) then http_error 403 "Upload session owner mismatch"
  else
    storage ← lift (get_bulk_storage cfg);
    part_path ← get_chunk_part_path storage upload_id part_no;
    write_file part_path content;;
    s2 ← add_uploaded_part cfg upload_id part_no;
    match s2 with
    | Some s2 => lift (ints_of (field "parts" s2))
    | None => mret [part_no]
    end.

(** The members of a zip with a shapefile; an archive that cannot be read has none. *)
Definition zip_inner_shp_paths (suffix write_path : string) : M (option (list string)) :=
  if decide (suffix = ".zip") then
    names ← zip_members zip_names write_path;
    mret match names with Some (_ :: _) => names | _ => None end
  else mret None.

(** [register_bulk_import_job] and [enqueue]; the upload is deleted when they fail. *)
Definition queue_import (storage : storage_backend) (p : BulkJobPayload) (unavailable : string) : M unit :=
  try_except (register_bulk_import_job cfg (bp_job_id p) (bp_storage_key p);; enqueue cfg p)
    (fun e =>
       try_pass (storage_delete storage (bp_storage_key p));;
       http_error 503 (unavailable +:+ exn_str e)).

Definition import_payload (job_id c storage_key mode : string) (batch_size : Z) (owner : option Z)
    (tiles : bool) (zip : option (list string)) (filters : list string) : BulkJobPayload :=
  BulkPayload job_id c storage_key mode batch_size owner tiles zip "single" None None None true
    match filters with [] => None | _ => Some filters end.

(** [rf_raw] *)
Definition session_filters (body s : list (string * json)) : res json :=
  match field "replace_filters" body with
  | JNull =>
      if json_truthy (field "replace_filters" s)
      then let! l := expect_strs (field "replace_filters" s) in inr (JStr (join (String "010" "") l))
      else inr JNull
  | raw => inr raw
  end.

Definition complete_bulk_upload_session (c upload_id : string) (body : list (string * json))
    (user : option User) : M string :=
  import_target c user;;
  s ← found_session c upload_id;
  parts ← lift (ints_of (json_or (field "parts" body) (field "parts" s)));
  if decide (parts = []) then http_error 400 "No uploaded parts"
  else
    let suffix := upload_suffix (json_str (json_or (field "filename" s) (JStr "upload.geojson"))) in
    job ← create_job cfg c (caller_id user) None;
    let storage_key := job_id job +:+ suffix in
    storage ← lift (get_bulk_storage cfg);
    write_path ← try_finally
      (try_except (assemble_chunk_parts storage upload_id parts storage_key)
         (fun e => http_error 500 ("Failed assembling upload: " +:+ exn_str e)))
      (delete_upload_parts storage upload_id;; delete_upload_session cfg upload_id);
    zip ← zip_inner_shp_paths suffix write_path;
    raw ← lift (session_filters body s);
    checked ← lift (validate_bulk_import_mode_and_filters cfg
      (json_str (json_or (field "mode" body) (JStr (json_str (json_or (field "mode" s) (JStr "append")))))) raw);
    let tiles := match field "queue_compute_tiles" body with
                 | JNull => parse_queue_compute_tiles (field "queue_compute_tiles" s) false
                 | qt => parse_queue_compute_tiles qt false
                 end in
    batch_size ← lift (json_int (json_or (field "batch_size" s) (JInt (bulk_import_batch_size cfg))));
    queue_import storage
      (import_payload (job_id job) c storage_key checked.1 batch_size (caller_id user) tiles zip checked.2)
      "Bulk queue unavailable: ";;
    mret (job_id job).

Definition abort_bulk_upload_session (c upload_id : string) (user : option User) : M unit :=
  import_target c user;;
  found_session c upload_id;;
  storage ← lift (get_bulk_storage cfg);
  delete_upload_parts storage upload_id;;
  delete_upload_session cfg upload_id.

(** [batch_size] is [None] or between 1 and 100000, as the form declares. *)
Definition bulk_import_items (c filename content mode : string) (replace_filters : option string)
    (batch_size : option Z) (queue_compute_tiles : option string) (user : option User) : M string :=
  import_target c user;;
  checked ← lift (validate_bulk_import_mode_and_filters cfg mode
                    match replace_filters with Some s => JStr s | None => JNull end);
  job ← create_job cfg c (caller_id user) None;
  let suffix := upload_suffix (if decide (filename = "") then "upload" else filename) in
  let storage_key := job_id job +:+ suffix in
  storage ← lift (get_bulk_storage cfg);
  write_path ← get_write_path storage storage_key;
  write_file write_path content;;
  zip ← zip_inner_shp_paths suffix write_path;
  queue_import storage
    (import_payload (job_id job) c storage_key checked.1
       (default (bulk_import_batch_size cfg) batch_size) (caller_id user)
       (parse_queue_compute_tiles match queue_compute_tiles with Some s => JStr s | None => JNull end false)
       zip checked.2)
    "Bulk queue unavailable after retries: ";;
  mret (job_id job).
End endpoints.

(** ** Sessions in Redis *)

Lemma dict_set_keys {A} f (x : A) m g : g ∈ map fst (dict_set f x m) -> g = f \/ g ∈ map fst m.
Proof.
  induction m as [|[h y] m IH]; cbn [dict_set map fst].
  - intros ->%list_elem_of_singleton. by left.
  - case_decide as Hf; cbn [map fst]; rewrite !elem_of_cons; [naive_solver|].
    intros [->|Hg]; [auto|]. destruct (IH Hg); auto.
Qed.
Lemma dict_set_NoDup {A} f (x : A) m : NoDup (map fst m) -> NoDup (map fst (dict_set f x m)).
Proof.
  induction m as [|[h y] m IH]; cbn [dict_set map fst]; [intros _; apply NoDup_singleton|].
  intros [Hh Hm]%NoDup_cons. case_decide as Hf; cbn [map fst]; [subst; by constructor|].
  constructor; [|by apply IH]. intros [->|Hg]%dict_set_keys; [done|by apply Hh].
Qed.
Lemma jwf_obj m :
  jwf (JObj m) = true <-> NoDup (map fst m) /\ Forall (fun kv => ascii_str kv.1 = true /\ jwf kv.2 = true) m.
Proof.
  cbn [jwf]. rewrite andb_true_iff, bool_decide_eq_true. f_equiv. rewrite Forall_forall, forallb_forall.
  split; intros Hm [f x] Hx; specialize (Hm (f, x)); rewrite list_elem_of_In in *; cbn in *.
  - apply andb_true_iff. auto.
  - apply andb_true_iff. auto.
Qed.
Lemma jwf_dict_set f x m :
  ascii_str f = true -> jwf x = true -> jwf (JObj m) = true -> jwf (JObj (dict_set f x m)) = true.
Proof.
  rewrite !jwf_obj. intros Hf Hx [Hn Hm]. split; [by apply dict_set_NoDup|]. clear Hn.
  induction Hm as [|[g y] m Hg Hm IH]; cbn [dict_set]; [by repeat constructor|].
  case_decide as Hfg; [subst g|]; constructor; done || by split.
Qed.
Lemma jwf_dict_update d p : jwf (JObj d) = true -> jwf (JObj p) = true -> jwf (JObj (dict_update d p)) = true.
Proof.
  intros Hd [_ Hp]%jwf_obj. unfold dict_update. revert d Hd.
  induction Hp as [|[f x] p [Hf Hx] Hp IH]; intros d Hd; [done|]. cbn. apply IH. by apply jwf_dict_set.
Qed.
Lemma dict_get_update f d p :
  NoDup (map fst p) ->
  dict_get f (dict_update d p) = match dict_get f p with Some x => Some x | None => dict_get f d end.
Proof.
  unfold dict_update. revert d. induction p as [|[g x] p IH]; intros d Hp; [done|].
  cbn [map fst] in Hp. apply NoDup_cons in Hp as [Hg Hp]. cbn [foldl fst snd dict_get].
  rewrite IH, dict_get_set by done. case_decide as Hfg; [|done].
  subst g. destruct (dict_get f p) eqn:Hf; [|done]. destruct Hg. clear -Hf.
  induction p as [|[h y] p IH]; [done|]. cbn in *. case_decide; [subst; apply list_elem_of_here|].
  apply list_elem_of_further. by apply IH.
Qed.

Lemma ascii_pad n z s : ascii_str (pad n z s) = ascii_str s.
Proof.
  revert z s. induction n as [|n IH]; intros z s; [done|]. cbn [pad]. rewrite IH. cbn [ascii_str].
  pose proof (Z.mod_pos_bound z 10 ltac:(lia)) as Hz. set (d := z mod 10) in *. clearbody d.
  assert (d = 0 \/ d = 1 \/ d = 2 \/ d = 3 \/ d = 4 \/ d = 5 \/ d = 6 \/ d = 7 \/ d = 8 \/ d = 9) as Hd by lia.
  by destruct_or! Hd; subst d.
Qed.
Lemma ascii_iso t : ascii_str (isoformat_z (utcnow t)) = true.
Proof.
  unfold isoformat_z, isoformat_then, iso_body. cbv zeta.
  repeat (rewrite ascii_pad; cbn [ascii_str]). case_match; [done|]. cbn [ascii_str]. by rewrite ascii_pad.
Qed.

Section stored.
Context `{RedisLaws} `{Entropy} (cfg : Settings).
Context (Httl : 0 < bulk_upload_session_ttl_seconds cfg).

Definition session_at (u : string) (s : list (string * json)) (w : world) : Prop :=
  peek_val (w_now w) (w_redis w) (session_key u) = Some (VStr (dumps_compact (JObj s))).

(** A session of the options [n] with the parts [parts]: every field has its type, and the
    parts are distinct numbers in increasing order. *)
Record session_ok (n : new_session) (parts : list Z) (s : list (string * json)) : Prop := {
  so_wf : jwf (JObj s) = true;
  so_collection : field "collection_id" s = JStr (ns_collection_id n);
  so_owner : field "owner_id" s = owner_json (ns_owner_id n);
  so_filename : field "filename" s = JStr (ns_filename n);
  so_mode : field "mode" s = JStr (ns_mode n);
  so_batch : field "batch_size" s = JInt (ns_batch_size n);
  so_tiles : field "queue_compute_tiles" s = JBool (ns_queue_compute_tiles n);
  so_filters : field "replace_filters" s = field "replace_filters" (ns_extra n);
  so_parts : field "parts" s = JList (map JInt parts);
  so_sorted : StronglySorted Z.lt parts
}.

(** All that a session holds: the options it was created with, its id and time, the
    fields its kind of upload adds, and nothing else. *)
Definition base_fields : list string :=
  ["upload_id"; "collection_id"; "owner_id"; "filename"; "mode"; "batch_size"; "queue_compute_tiles";
   "created_at"; "updated_at"; "status"; "parts"; "upload_kind"].

Record session_holds (u now : string) (n : new_session) (parts : list Z) (s : list (string * json)) : Prop := {
  sh_wf : jwf (JObj s) = true;
  sh_id : field "upload_id" s = JStr u;
  sh_collection : field "collection_id" s = JStr (ns_collection_id n);
  sh_owner : field "owner_id" s = owner_json (ns_owner_id n);
  sh_filename : field "filename" s = JStr (ns_filename n);
  sh_mode : field "mode" s = JStr (ns_mode n);
  sh_batch : field "batch_size" s = JInt (ns_batch_size n);
  sh_tiles : field "queue_compute_tiles" s = JBool (ns_queue_compute_tiles n);
  sh_created : field "created_at" s = JStr now;
  sh_updated : field "updated_at" s = JStr now;
  sh_status : field "status" s = JStr "pending_parts";
  sh_kind : field "upload_kind" s = JStr (ns_upload_kind n);
  sh_extra f : f ∉ base_fields -> dict_get f s = dict_get f (ns_extra n);
  sh_parts : field "parts" s = JList (map JInt parts);
  sh_sorted : StronglySorted Z.lt parts
}.

(** Options that JSON holds: plain texts, and extra fields of other names. *)
Definition storable_session (n : new_session) : Prop :=
  ascii_str (ns_collection_id n) = true /\ ascii_str (ns_filename n) = true
  /\ ascii_str (ns_mode n) = true /\ ascii_str (ns_upload_kind n) = true
  /\ jwf (JObj (ns_extra n)) = true /\ Forall (fun kv => kv.1 ∉ base_fields) (ns_extra n).

Definition ascii_session (n : new_session) : Prop :=
  ascii_str (ns_collection_id n) = true /\ ascii_str (ns_filename n) = true
  /\ ascii_str (ns_mode n) = true /\ ascii_str (ns_upload_kind n) = true
  /\ (ns_extra n = [] \/ exists l, forallb ascii_str l = true /\ ns_extra n = [("replace_filters", JStrs l)]).

Lemma session_get u s w :
  quiet w -> session_at u s w -> jwf (JObj s) = true ->
  get_upload_session cfg u w = (inr (Some (JObj s)), w).
Proof.
  intros Hq Hs Hwf. unfold get_upload_session. rewrite bind_run.
  rewrite (run_redis_retry_ok _ _ _ _ (Some (dumps_compact (JObj s))) w).
  - rewrite ret_run. rewrite decide_False by done. by rewrite loads_dumps_compact.
  - rewrite (redis_ok _ _ (Some (dumps_compact (JObj s))) (w_redis w)); [by rewrite with_redis_same|done|].
    autorewrite with redis_exec. unfold as_str. by rewrite Hs.
Qed.

Definition session_ks (u : string) (s : list (string * json)) (w : world) : keyspace :=
  put (w_redis w) (session_key u) (VStr (dumps_compact (JObj s)))
    (Some (w_now w + us (bulk_upload_session_ttl_seconds cfg))).
Lemma session_write u s w :
  quiet w -> write_session cfg u s w = (inr tt, with_redis w (session_ks u s w)).
Proof.
  intros Hq. unfold write_session. apply run_redis_retry_ok.
  rewrite (bind_redis _ _ _ true (session_ks u s w)); [done|done|]. by autorewrite with redis_exec.
Qed.
Lemma session_written u s w : session_at u s (with_redis w (session_ks u s w)).
Proof.
  unfold session_at, session_ks. cbn [with_redis w_now w_redis]. rewrite peek_val_put_eq.
  assert (live (w_now w) (Entry (VStr (dumps_compact (JObj s)))
            (Some (w_now w + us (bulk_upload_session_ttl_seconds cfg)))) = true) as ->; [|done].
  unfold live, us. cbn. apply Z.ltb_lt. lia.
Qed.
Lemma session_ks_frame u s w k : k <> session_key u -> session_ks u s w !! k = w_redis w !! k.
Proof. intros Hk. unfold session_ks, put. by rewrite lookup_insert_ne. Qed.

Definition upload_run_ok (ks : keyspace) (u : string) (s : list (string * json)) (w : world) : Prop :=
  session_at u s (with_redis w ks) /\ forall k, k <> session_key u -> ks !! k = w_redis w !! k.
Lemma session_write_ok u s w : upload_run_ok (session_ks u s w) u s w.
Proof. split; [apply session_written|apply session_ks_frame]. Qed.

Lemma ascii_payload u now n :
  ascii_str u = true -> ascii_str now = true -> ascii_session n ->
  jwf (JObj (session_payload u now n)) = true.
Proof.
  intros Hu Hnow (Hc & Hf & Hm & Hk & He). apply jwf_dict_update.
  - cbn [jwf map fst forallb]. rewrite Hu, Hnow, Hc, Hf, Hm, Hk. by destruct (ns_owner_id n).
  - destruct He as [->|(l & Hl & ->)]; [done|]. apply jwf_cons; [done|by apply jwf_strs|done..].
Qed.

Lemma payload_ok u now n :
  ascii_str u = true -> ascii_str now = true -> ascii_session n -> session_ok n [] (session_payload u now n).
Proof.
  intros Hu Hnow Hn. assert (forall f, dict_get f (ns_extra n) = None \/ f = "replace_filters") as He.
  { intros f. destruct Hn as (_ & _ & _ & _ & [->|(l & _ & ->)]); [by left|].
    destruct (decide (f = "replace_filters")) as [->|Hf]; [by right|left]. cbn. by rewrite decide_False. }
  assert (NoDup (map fst (ns_extra n))) as Hd.
  { destruct Hn as (_ & _ & _ & _ & [->|(l & _ & ->)]); [constructor|apply NoDup_singleton]. }
  split; [by apply ascii_payload| | | | | | | | |constructor];
    unfold field, session_payload; rewrite dict_get_update by done.
  1-6: match goal with |- context [dict_get ?f (ns_extra _)] => destruct (He f) as [->|]; done end.
  - by destruct (dict_get "replace_filters" (ns_extra n)).
  - by destruct (He "parts") as [->|].
Qed.

Lemma session_create_run n w :
  quiet w -> ascii_session n -> ascii_str (uuid4_nth (w_uuids w)) = true ->
  exists s ks, create_upload_session cfg n w
      = (inr (uuid4_nth (w_uuids w), s), with_redis (draw_uuid w) ks)
    /\ session_ok n [] s /\ upload_run_ok ks (uuid4_nth (w_uuids w)) s w.
Proof.
  intros Hq Hn Hu. set (u := uuid4_nth (w_uuids w)).
  set (s := session_payload u (isoformat_z (utcnow (w_now w))) n).
  exists s, (session_ks u s w). split; [|split].
  - unfold create_upload_session. rewrite bind_run. cbn [uuid4]. rewrite bind_run, get_now_run.
    rewrite bind_run. fold u. fold s. rewrite session_write by done. done.
  - apply payload_ok; [done|apply ascii_iso|done].
  - apply session_write_ok.
Qed.

(** What a stored list of parts reads as. *)
Lemma ints_ints l : ints (map JInt l) = inr l.
Proof. induction l as [|z l IH]; [done|]. cbn. by rewrite IH. Qed.
Lemma parts_read n parts s : session_ok n parts s -> ints_of (field "parts" s) = inr parts.
Proof. intros Hs. rewrite (so_parts _ _ _ Hs). unfold ints_of. destruct parts; [done|]. cbn. by rewrite ints_ints. Qed.

Lemma session_truthy n parts s : session_ok n parts s -> session_fields (Some (JObj s)) = inr (Some s).
Proof. intros Hs. pose proof (so_batch _ _ _ Hs). by destruct s. Qed.

Lemma jwf_ints l : jwf (JList (map JInt l)) = true.
Proof. induction l; done. Qed.

(** The session with other parts. *)
Definition put_parts (s : list (string * json)) (parts : list Z) (now : string) : list (string * json) :=
  dict_set "updated_at" (JStr now)
    (dict_update s (dict_set "status" (JStr "pending_parts") (dict_set "parts" (JList (map JInt parts)) s))).

Lemma put_parts_wf s parts now :
  jwf (JObj s) = true -> ascii_str now = true -> jwf (JObj (put_parts s parts now)) = true.
Proof.
  intros Hs Hnow. apply jwf_dict_set; [done|done|]. apply jwf_dict_update; [done|].
  repeat apply jwf_dict_set; auto using jwf_ints.
Qed.

Lemma put_parts_get s parts now f : jwf (JObj s) = true ->
  dict_get f (put_parts s parts now)
  = if decide (f = "updated_at") then Some (JStr now)
    else if decide (f = "status") then Some (JStr "pending_parts")
    else if decide (f = "parts") then Some (JList (map JInt parts)) else dict_get f s.
Proof.
  intros Hs. set (p := dict_set "status" (JStr "pending_parts") (dict_set "parts" (JList (map JInt parts)) s)).
  assert (NoDup (map fst p)) as Hn.
  { assert (jwf (JObj p) = true) as Hp by (repeat apply jwf_dict_set; auto using jwf_ints).
    by apply jwf_obj in Hp as [? _]. }
  unfold put_parts. fold p. rewrite dict_get_set. case_decide; [done|].
  rewrite dict_get_update by done. unfold p. rewrite !dict_get_set.
  repeat (case_decide; [done|]). by destruct (dict_get f s).
Qed.

Lemma session_put n parts s parts' now :
  session_ok n parts s -> StronglySorted Z.lt parts' -> ascii_str now = true ->
  session_ok n parts' (put_parts s parts' now).
Proof.
  intros Hs Hp Hnow. pose proof (so_wf _ _ _ Hs) as Hwf.
  split; try (unfold field; rewrite put_parts_get by done; apply Hs); [by apply put_parts_wf| |done].
  unfold field. by rewrite put_parts_get.
Qed.

Lemma holds_put u now n parts s parts' :
  session_holds u now n parts s -> StronglySorted Z.lt parts' -> ascii_str now = true ->
  session_holds u now n parts' (put_parts s parts' now).
Proof.
  intros Hs Hp Hnow. pose proof (sh_wf _ _ _ _ _ Hs) as Hwf. split.
  1: by apply put_parts_wf.
  12: { intros f Hf. rewrite put_parts_get by done. rewrite !decide_False; [by apply Hs|..];
        intros ->; apply Hf; unfold base_fields; set_solver. }
  13: done.
  all: unfold field; rewrite put_parts_get by done; try done; apply Hs.
Qed.

(** Adding a part stores the session with it and changes no other key; the answer is
    what is stored. *)
Lemma add_part_stores (u : string) (parts : list Z) (s : list (string * json)) (part_no : Z) (w : world) :
  quiet w -> session_at u s w -> jwf (JObj s) = true -> s <> [] -> ints_of (field "parts" s) = inr parts ->
  let s' := put_parts s (sorted_set_z (part_no :: parts)) (isoformat_z (utcnow (w_now w))) in
  add_uploaded_part cfg u part_no w = (inr (Some s'), with_redis w (session_ks u s' w)).
Proof.
  intros Hq Hs Hwf Hne Hp. cbv zeta. unfold add_uploaded_part.
  assert (session_fields (Some (JObj s)) = inr (Some s)) as Hf by by destruct s.
  rewrite bind_run, (session_get u s), bind_run, lift_run, Hf by done.
  rewrite bind_run, lift_run, Hp. unfold update_upload_session.
  rewrite bind_run, (session_get u s), bind_run, lift_run, Hf, bind_run, get_now_run by done. cbv zeta.
  by rewrite bind_run, session_write.
Qed.

Lemma add_part_run (u : string) (n : new_session) (parts : list Z) (s : list (string * json))
    (part_no : Z) (w : world) :
  quiet w -> session_at u s w -> session_ok n parts s ->
  exists s' ks, add_uploaded_part cfg u part_no w = (inr (Some s'), with_redis w ks)
    /\ session_ok n (sorted_set_z (part_no :: parts)) s' /\ upload_run_ok ks u s' w.
Proof.
  intros Hq Hs Hok. eexists _, _. split; [|split; [|apply session_write_ok]].
  - apply add_part_stores; [done|done|apply Hok| |by eapply parts_read].
    intros ->. by pose proof (so_batch _ _ _ Hok).
  - apply (session_put n parts); [done|apply sorted_set_z_spec|apply ascii_iso].
Qed.

(** [add_uploaded_part] for each of [nums]. *)
Fixpoint add_parts (u : string) (nums : list Z) : M unit :=
  match nums with [] => mret tt | k :: nums' => add_uploaded_part cfg u k;; add_parts u nums' end.

Lemma add_parts_run u now n nums : forall parts s w,
  quiet w -> session_at u s w -> now = isoformat_z (utcnow (w_now w)) -> session_holds u now n parts s ->
  exists s' parts' ks, add_parts u nums w = (inr tt, with_redis w ks) /\ session_holds u now n parts' s'
    /\ upload_run_ok ks u s' w /\ forall k, k ∈ parts' <-> k ∈ nums \/ k ∈ parts.
Proof.
  induction nums as [|x nums IH]; intros parts s w Hq Hs Hnow Hok; cbn [add_parts].
  - exists s, parts, (w_redis w). split; [by destruct w|]. split; [done|]. split; [done|]. set_solver.
  - set (s1 := put_parts s (sorted_set_z (x :: parts)) (isoformat_z (utcnow (w_now w)))).
    assert (add_uploaded_part cfg u x w = (inr (Some s1), with_redis w (session_ks u s1 w))) as Ha.
    { apply add_part_stores; [done|done|apply Hok| |].
      - intros ->. by pose proof (sh_batch _ _ _ _ _ Hok).
      - rewrite (sh_parts _ _ _ _ _ Hok). unfold ints_of. destruct parts; [done|]. cbn. by rewrite ints_ints. }
    assert (session_holds u now n (sorted_set_z (x :: parts)) s1) as Hok1.
    { unfold s1. rewrite <-Hnow. apply (holds_put _ _ _ parts); [done|apply sorted_set_z_spec|].
      rewrite Hnow. apply ascii_iso. }
    rewrite bind_run, Ha. pose proof (session_write_ok u s1 w) as [Hs1 Hf1].
    destruct (IH _ s1 (with_redis w (session_ks u s1 w)) Hq Hs1 Hnow Hok1)
      as (s' & parts' & ks & Hr & Hok' & [Hs' Hf] & Hin).
    exists s', parts', ks. split; [exact Hr|]. split; [done|]. split.
    + split; [exact Hs'|]. intros k Hk. rewrite Hf by done. by apply Hf1.
    + intros k. rewrite Hin. destruct (sorted_set_z_spec (x :: parts)) as [_ ->]. set_solver.
Qed.

Lemma dict_get_absent {A} f (m : list (string * A)) : f ∉ map fst m -> dict_get f m = None.
Proof.
  induction m as [|[g x] m IH]; [done|]. cbn [map fst dict_get]. intros [Hg Hm]%not_elem_of_cons.
  rewrite decide_False by done. by apply IH.
Qed.

Lemma payload_holds u now n :
  ascii_str u = true -> ascii_str now = true -> storable_session n ->
  session_holds u now n [] (session_payload u now n).
Proof.
  intros Hu Hnow (Hc & Hf & Hm & Hk & He & Hd). pose proof He as [Hn _]%jwf_obj.
  assert (forall f, f ∈ base_fields -> dict_get f (ns_extra n) = None) as Hb.
  { intros f Hfb. apply dict_get_absent. intros (kv & -> & Hkv)%list_elem_of_fmap.
    rewrite Forall_forall in Hd. by apply (Hd kv). }
  split; [|..|by constructor].
  { apply jwf_dict_update; [|done]. cbn [jwf map fst forallb]. rewrite Hu, Hnow, Hc, Hf, Hm, Hk.
    by destruct (ns_owner_id n). }
  12: { intros f Hfb. unfold session_payload. rewrite dict_get_update by done.
        destruct (dict_get f (ns_extra n)); [done|]. apply dict_get_absent. exact Hfb. }
  all: unfold field, session_payload; rewrite dict_get_update, Hb by (done || unfold base_fields; set_solver); done.
Qed.

(** C36. A session keeps its type through its life, without faults and for a session
    whose own texts are ASCII and whose extra fields have names of their own: whatever
    parts are added, in any order and as often as one likes, what Redis holds is well
    formed and has every field it was created with - its id, owner, collection, file
    name, options, kind of upload, time and the extra fields of its kind - with the
    value it was created with, the status ["pending_parts"], the parts as distinct
    numbers in increasing order, exactly the ones added, and no other field; no other
    key changes. *)
Theorem session_keeps_type (n : new_session) (nums : list Z) (w : world) :
  quiet w -> storable_session n -> ascii_str (uuid4_nth (w_uuids w)) = true ->
  exists s parts ks,
    (created ← create_upload_session cfg n; add_parts created.1 nums) w
      = (inr tt, with_redis (draw_uuid w) ks)
    /\ session_holds (uuid4_nth (w_uuids w)) (isoformat_z (utcnow (w_now w))) n parts s
    /\ upload_run_ok ks (uuid4_nth (w_uuids w)) s w
    /\ forall k, k ∈ parts <-> k ∈ nums.
Proof.
  intros Hq Hn Hu. set (u := uuid4_nth (w_uuids w)). set (now := isoformat_z (utcnow (w_now w))).
  set (s0 := session_payload u now n). set (ks0 := session_ks u s0 w).
  assert (create_upload_session cfg n w = (inr (u, s0), with_redis (draw_uuid w) ks0)) as Hr.
  { unfold create_upload_session. rewrite bind_run. cbn [uuid4]. rewrite bind_run, get_now_run.
    rewrite bind_run. fold u now s0. by rewrite session_write. }
  pose proof (session_write_ok u s0 w) as [Hs Hf].
  destruct (add_parts_run u now n nums [] s0 (with_redis (draw_uuid w) ks0))
    as (s & parts & ks & Hr' & Hok' & [Hs' Hf'] & Hin);
    [done|exact Hs|done|by apply payload_holds; [|apply ascii_iso|]|].
  exists s, parts, ks. rewrite bind_run, Hr. split; [exact Hr'|]. split; [done|]. split.
  - split; [exact Hs'|]. intros k Hk. rewrite Hf' by done. by apply Hf.
  - intros k. rewrite Hin. set_solver.
Qed.

Lemma session_delete_run u w :
  quiet w -> delete_upload_session cfg u w = (inr tt, with_redis w (delete (session_key u) (w_redis w))).
Proof.
  intros Hq. unfold delete_upload_session. apply run_redis_retry_ok, redis_ok; [done|].
  by autorewrite with redis_exec.
Qed.
End stored.

(** ** A whole upload *)

Fixpoint no_zeros (s : string) : string := match s with String "0" s' => no_zeros s' | _ => s end.
Lemma no_zeros_app k s : no_zeros (zeros k +:+ s) = no_zeros s.
Proof. by induction k. Qed.
Lemma no_zeros_digits n : 1 <= n -> no_zeros (str_of_Z n) = str_of_Z n.
Proof.
  intros Hn. destruct (str_of_Z_shape n) as (sg & c & d & Hz & Hsg & Hc & Hd & H0). rewrite Hz.
  destruct Hsg as [-> | ->]; [|done]. destruct (decide (c = "0"%char)) as [->|Hne].
  - rewrite (H0 eq_refl) in Hz. assert (n = 0) as ->; [|lia]. by apply str_of_Z_inj.
  - clear Hz. cbn. destruct c as [[][][][][][][][]]; done.
Qed.
Lemma zfill_inj w n m : 1 <= n -> 1 <= m -> zfill w n = zfill w m -> n = m.
Proof.
  intros Hn Hm Hz. apply str_of_Z_inj. rewrite <-(no_zeros_digits n), <-(no_zeros_digits m) by done.
  unfold zfill in Hz. rewrite <-(no_zeros_app (w - String.length (str_of_Z n))), Hz. by rewrite no_zeros_app.
Qed.

Lemma app_str_inj_l a b c : a +:+ b = a +:+ c -> b = c.
Proof. induction a as [|x a IH]; [done|]. intros [= Hbc]. by apply IH. Qed.
Lemma startswith_skip a b c : startswith (a +:+ b) (a +:+ c) = startswith b c.
Proof. induction a as [|x a IH]; [done|]. rewrite !app_str_cons. cbn. by rewrite bool_decide_eq_true_2, IH. Qed.

Section directory.
Context (base u dir : string).
Context (Hbase : rstrip_slash base <> "") (Hdir : Filesystem.upload_dir base u = inr dir).

Lemma dir_shape : dir = rstrip_slash base +:+ "/_uploads/" +:+ u.
Proof.
  unfold Filesystem.upload_dir in Hdir. destruct (_ || _); [done|]. injection Hdir as <-. unfold path_join.
  rewrite (decide_False (P := rstrip_slash base = "")) by done.
  rewrite decide_False by (by destruct (rstrip_slash base)). by rewrite !app_str_assoc.
Qed.
Lemma part_file_shape k : part_file dir k = dir +:+ "/" +:+ Filesystem.part_name k.
Proof.
  unfold part_file, path_join. rewrite decide_False; [done|]. rewrite dir_shape. by destruct (rstrip_slash base).
Qed.
Lemma part_file_below k : startswith (dir +:+ "/") (part_file dir k) = true.
Proof. rewrite part_file_shape, <-app_str_assoc. apply startswith_app. Qed.
Lemma part_file_inj j k : 1 <= j -> 1 <= k -> part_file dir j = part_file dir k -> j = k.
Proof.
  intros Hj Hk. rewrite !part_file_shape. intros Hp%app_str_inj_l%app_str_inj_l%app_str_inj_l.
  apply (zfill_inj 8); [done..|]. by apply app_str_inj_r in Hp.
Qed.
Lemma part_path_run k : 1 <= k -> Filesystem.part_path base u k = inr (part_file dir k).
Proof. intros Hk. unfold Filesystem.part_path. by rewrite (proj2 (Z.ltb_ge k 1)), Hdir. Qed.

Lemma contains_slash_app s t : contains "/" (s +:+ "/" +:+ t) = true.
Proof.
  induction s as [|c s IH]; [done|]. rewrite app_str_cons. cbn [contains]. rewrite IH. apply orb_true_r.
Qed.

(** A key without a slash is stored next to the directories of the uploads. *)
Lemma key_path key :
  contains ".." key = false -> contains "/" key = false ->
  Filesystem.path_of base key = inr (rstrip_slash base +:+ "/" +:+ key)
  /\ startswith (dir +:+ "/") (rstrip_slash base +:+ "/" +:+ key) = false.
Proof.
  intros Hd Hs. split.
  - unfold Filesystem.path_of. rewrite Hd. assert (startswith "/" key = false) as ->.
    { destruct key as [|c key]; [done|]. cbn [contains] in Hs. by apply orb_false_iff in Hs as [? _]. }
    cbn. unfold path_join. by rewrite decide_False.
  - rewrite dir_shape, app_str_assoc, startswith_skip. destruct (startswith _ _) eqn:He; [|done].
    apply startswith_split in He as [t Ht]. injection Ht as Hk.
    assert (key = "_uploads" +:+ "/" +:+ ((u +:+ "/") +:+ t)) as -> by exact Hk.
    by rewrite contains_slash_app in Hs.
Qed.
End directory.

Section whole_upload.
Context `{RedisLaws} `{Entropy} (cfg : Settings) (zip_names : string -> option (list string)).
Context (Httl : 0 < bulk_upload_session_ttl_seconds cfg) (Hredis : is_redis cfg = true).
Context (Hstore : bulk_storage_type cfg = "filesystem").
Context (Hbase : rstrip_slash (bulk_storage_path cfg) <> "").

(** The caller may load features into [c]. *)
Definition may_import (c : string) (user : option User) (t : tables) : Prop :=
  exists coll, tb_collections t !! c = Some coll /\ c_type coll = COLLECTION_TYPE_VECTOR
    /\ can_edit_collection t coll user = true.

Lemma import_target_run c user w :
  may_import c user (w_tables w) -> exists coll, import_target c user w = (inr coll, w).
Proof.
  intros (coll & Hc & Ht & Hu). exists coll. unfold import_target.
  rewrite on_tables_run, read_all_run, Hc, row_or_run.
  unfold ensure_vector_data_collection, collection_type_in. rewrite guard_or_run.
  rewrite bool_decide_eq_true_2 by (rewrite Ht; set_solver). rewrite guard_or_run, Hu.
  by destruct w as [?????????[]].
Qed.

(** The world [w0] with another keyspace and other files. *)
Definition at_ (w0 : world) (ks : keyspace) (fs : gmap string string) : world :=
  with_files (with_redis w0 ks) fs.

Definition content_of (ups : list (Z * string)) (k : Z) : string :=
  foldl (fun s p => if p.1 =? k then p.2 else s) "" ups.
Lemma content_of_snoc ups k s j :
  content_of (ups ++ [(k, s)])%list j = if k =? j then s else content_of ups j.
Proof. unfold content_of. by rewrite foldl_app. Qed.

(** After the uploads [ups] of the session [u]. *)
Record uploading (w0 : world) (n : new_session) (u dir : string) (ups : list (Z * string))
    (ks : keyspace) (fs : gmap string string) : Prop := {
  up_session : exists s parts, session_at u s (with_redis w0 ks) /\ session_ok n parts s
               /\ forall k, k ∈ parts <-> k ∈ map fst ups;
  up_redis k : k <> session_key u -> ks !! k = w_redis w0 !! k;
  up_parts k : k ∈ map fst ups -> 1 <= k /\ fs !! part_file dir k = Some (content_of ups k);
  up_files p : startswith (dir +:+ "/") p = false -> fs !! p = w_files w0 !! p
}.

Lemma found_session_run c u n parts s w :
  quiet w -> session_at u s w -> session_ok n parts s -> ns_collection_id n = c ->
  found_session cfg c u w = (inr s, w).
Proof.
  intros Hq Hs Hok Hc. unfold found_session. rewrite bind_run, (session_get cfg u s) by (done || apply Hok).
  rewrite bind_run, lift_run, (session_truthy n parts s Hok). cbn [lift].
  rewrite (so_collection _ _ _ Hok), Hc. by rewrite bool_decide_eq_true_2.
Qed.
Lemma storage_run : get_bulk_storage cfg = inr (Filesystem.backend (bulk_storage_path cfg)).
Proof. unfold get_bulk_storage. by rewrite decide_True. Qed.

Lemma same_user (user : option User) n parts s :
  session_ok n parts s -> ns_owner_id n = caller_id user -> other_owner s user = inr false.
Proof.
  intros Hok Ho. unfold other_owner. rewrite (so_owner _ _ _ Hok), Ho.
  destruct user as [u|]; [|done]. cbn. by rewrite Z.eqb_refl.
Qed.

(** One part more. *)
Lemma part_uploaded w0 n u dir ups ks fs c user k content :
  quiet w0 -> Filesystem.upload_dir (bulk_storage_path cfg) u = inr dir ->
  may_import c user (w_tables w0) -> ns_collection_id n = c -> ns_owner_id n = caller_id user -> 1 <= k ->
  uploading w0 n u dir ups ks fs ->
  exists parts ks', upload_bulk_session_part cfg c u k content user (at_ w0 ks fs)
      = (inr parts, at_ w0 ks' (<[part_file dir k := content]> fs))
    /\ uploading w0 n u dir (ups ++ [(k, content)])%list ks' (<[part_file dir k := content]> fs).
Proof.
  intros Hq Hd Hm Hc Ho Hk [(s & parts & Hs & Hok & Hin) Hks Hfs Hother].
  set (w := at_ w0 ks fs). set (fs' := <[part_file dir k := content]> fs).
  destruct (import_target_run c user w Hm) as [coll Ht].
  destruct (add_part_run cfg Httl u n parts s k (at_ w0 ks fs')) as (s' & ks' & Ha & Hok' & Hrun);
    [done|exact Hs|done|].
  exists (sorted_set_z (k :: parts)), ks'. split.
  - unfold upload_bulk_session_part. rewrite bind_run, Ht.
    rewrite bind_run, (found_session_run c u n parts s) by done.
    rewrite bind_run, (same_user user n parts s), lift_run by done. cbn beta iota.
    rewrite bind_run, lift_run, storage_run. cbn [get_chunk_part_path Filesystem.backend].
    rewrite bind_run, lift_run, (part_path_run _ _ dir Hd) by done. unfold write_file.
    rewrite bind_run, modify_run. rewrite bind_run.
    change (with_files w (<[part_file dir k:=content]> (w_files w))) with (at_ w0 ks fs').
    rewrite Ha. rewrite lift_run, (parts_read n _ s' Hok'). reflexivity.
  - destruct Hrun as [Hs' Hframe]. split.
    + exists s', (sorted_set_z (k :: parts)). split; [exact Hs'|]. split; [done|].
      intros j. rewrite map_app, elem_of_app. destruct (sorted_set_z_spec (k :: parts)) as [_ ->].
      rewrite elem_of_cons, Hin. cbn. rewrite list_elem_of_singleton. tauto.
    + intros j Hj. rewrite Hframe by done. by apply Hks.
    + intros j. rewrite map_app, elem_of_app, content_of_snoc. cbn. rewrite list_elem_of_singleton.
      intros Hj. destruct (Z.eqb_spec k j) as [->|Hne].
      * split; [done|]. unfold fs'. by rewrite lookup_insert_eq.
      * destruct Hj as [Hj|Hj]; [|done]. destruct (Hfs j Hj) as [Hj1 Hj2]. split; [done|].
        unfold fs'. rewrite lookup_insert_ne; [done|].
        intros He. apply Hne. by apply (part_file_inj _ _ dir Hbase Hd).
    + intros p Hp. unfold fs'. rewrite lookup_insert_ne; [by apply Hother|]. intros <-.
      by rewrite (part_file_below _ _ _ Hbase Hd) in Hp.
Qed.

(** The parts of a session, in the order they arrive. *)
Fixpoint upload_parts (c u : string) (user : option User) (ups : list (Z * string)) : M unit :=
  match ups with
  | [] => mret tt
  | (k, content) :: ups' =>
      upload_bulk_session_part cfg c u k content user;; upload_parts c u user ups'
  end.

Lemma parts_uploaded w0 n u dir c user :
  quiet w0 -> Filesystem.upload_dir (bulk_storage_path cfg) u = inr dir ->
  may_import c user (w_tables w0) -> ns_collection_id n = c -> ns_owner_id n = caller_id user ->
  forall ups' ups ks fs, Forall (fun p => 1 <= p.1) ups' -> uploading w0 n u dir ups ks fs ->
  exists ks' fs', upload_parts c u user ups' (at_ w0 ks fs) = (inr tt, at_ w0 ks' fs')
    /\ uploading w0 n u dir (ups ++ ups')%list ks' fs'.
Proof.
  intros Hq Hd Hm Hc Ho. induction ups' as [|[k s] ups' IH]; intros ups ks fs Hk Hup.
  - exists ks, fs. by rewrite app_nil_r.
  - apply Forall_cons in Hk as [Hk1 Hk]. cbn [upload_parts].
    destruct (part_uploaded w0 n u dir ups ks fs c user k s) as (parts & ks1 & Hr & Hup1); [done..|].
    rewrite bind_run, Hr. destruct (IH _ _ _ Hk Hup1) as (ks' & fs' & Hr' & Hup').
    exists ks', fs'. split; [done|]. by rewrite <-app_assoc in Hup'.
Qed.

(** *** Completing *)

(** The options of a session a COPY import can be queued with. *)
Definition copy_options (c : string) (user : option User) (n : new_session) : Prop :=
  ns_collection_id n = c /\ ns_owner_id n = caller_id user /\ ns_mode n ∈ BULK_COPY_MODES
  /\ ns_extra n = [] /\ 1 <= ns_batch_size n.

Lemma options_checked c user n :
  copy_options c user n ->
  validate_bulk_import_mode_and_filters cfg
    (json_str (json_or JNull (JStr (json_str (json_or (JStr (ns_mode n)) (JStr "append")))))) JNull
  = inr (ns_mode n, []).
Proof.
  intros (_ & _ & Hm & _ & _). unfold BULK_COPY_MODES in Hm.
  assert (ns_mode n = "append" \/ ns_mode n = "replace") as [-> | ->] by set_solver;
    unfold validate_bulk_import_mode_and_filters; cbn; by destruct (bulk_copy_ingest_enabled cfg).
Qed.

(** The shapefiles of an uploaded archive. *)
Definition shapefiles (suffix content : string) : option (list string) :=
  if decide (suffix = ".zip") then
    match names ← zip_names content; Some (List.filter (fun m => endswith ".shp" (lower m)) names) with
    | Some ((_ :: _) as l) => Some l
    | _ => None
    end
  else None.
Lemma shapefiles_run suffix path content w :
  w_files w !! path = Some content ->
  zip_inner_shp_paths zip_names suffix path w = (inr (shapefiles suffix content), w).
Proof.
  intros Hp. unfold zip_inner_shp_paths, shapefiles. case_decide; [|done].
  unfold zip_members. rewrite bind_run, bind_run, gets_run, Hp. change (default "" (Some content)) with content.
  rewrite ret_run. destruct (zip_names content) as [l|]; [|done]. cbn. by destruct (List.filter _ l).
Qed.

(** The directory of an upload is removed with everything in it. *)
Definition without_dir (dir : string) (fs : gmap string string) : gmap string string :=
  filter (fun kv => startswith (dir +:+ "/") kv.1 = false) fs.
Lemma without_dir_below dir fs p : startswith (dir +:+ "/") p = true -> without_dir dir fs !! p = None.
Proof. intros Hp. apply map_lookup_filter_None. right. intros x _. cbn. by rewrite Hp. Qed.
Lemma without_dir_elsewhere dir fs p :
  startswith (dir +:+ "/") p = false -> without_dir dir fs !! p = fs !! p.
Proof.
  intros Hp. unfold without_dir. rewrite map_lookup_filter. destruct (fs !! p) as [x|]; [|done]. cbn.
  by rewrite option_guard_True.
Qed.
Lemma delete_parts_run u dir w :
  Filesystem.upload_dir (bulk_storage_path cfg) u = inr dir ->
  Filesystem.delete_parts (bulk_storage_path cfg) u w = (inr tt, with_files w (without_dir dir (w_files w))).
Proof. intros Hd. unfold Filesystem.delete_parts. by rewrite bind_run, lift_run, Hd. Qed.

(** Queueing an import in Redis. *)
Lemma queue_import_run storage p msg w l :
  quiet w -> queue_of (w_now w) (w_redis w) = inr l ->
  exists ks, queue_import cfg storage p msg w = (inr tt, with_redis w ks)
    /\ queue_of (w_now w) ks = inr (encode p :: l).
Proof.
  intros Hq Hl.
  set (ks1 := put (w_redis w) (reg_key (bp_job_id p)) (VStr (bp_storage_key p)) (Some (w_now w + us (86400 * 8)))).
  assert (register_bulk_import_job cfg (bp_job_id p) (bp_storage_key p) w = (inr tt, with_redis w ks1)) as Hr.
  { unfold register_bulk_import_job. rewrite Hredis. apply run_redis_retry_ok.
    rewrite (bind_redis _ _ _ true ks1); [done|done|]. by autorewrite with redis_exec. }
  destruct (enqueue_pushes cfg Hredis (with_redis w ks1) p l) as (ks & He & Hks); [done| |].
  { unfold queue_of, queue_at, as_list in *. cbn [with_redis w_now w_redis]. unfold ks1.
    by rewrite peek_val_put_ne. }
  exists ks. split; [|exact Hks]. unfold queue_import. apply try_except_ok. by rewrite bind_run, Hr.
Qed.
(** What completing needs of the store: the records of a new job are free, and the queue
    is a list. *)
Record store_ready (c id : string) (w : world) (queue jobs : list string) : Prop := {
  sr_job : peek (w_now w) (w_redis w) (redis_key id) = None;
  sr_index : as_list (w_now w) (w_redis w) (jobs_by_collection_key c) = inr jobs;
  sr_queue : queue_of (w_now w) (w_redis w) = inr queue;
  sr_range : dt_range (utcnow (w_now w))
}.

(** The payload an upload is queued with. *)
Definition upload_job (c id : string) (user : option User) (n : new_session) (content : string) :
  BulkJobPayload :=
  let suffix := upload_suffix (json_str (json_or (JStr (ns_filename n)) (JStr "upload.geojson"))) in
  import_payload id c (id +:+ suffix) (ns_mode n) (ns_batch_size n) (caller_id user)
    (ns_queue_compute_tiles n) (shapefiles suffix content) [].

(** The job of a completed upload, and the file put together. *)
Lemma assembled_run w0 u dir ups ks fs out_path key parts :
  Filesystem.upload_dir (bulk_storage_path cfg) u = inr dir ->
  Filesystem.path_of (bulk_storage_path cfg) key = inr out_path ->
  startswith (dir +:+ "/") out_path = false ->
  parts <> [] -> (forall k, k ∈ parts -> 1 <= k /\ fs !! part_file dir k = Some (content_of ups k)) ->
  Filesystem.assemble (bulk_storage_path cfg) u parts key (at_ w0 ks fs)
  = (inr out_path,
     at_ w0 ks (<[out_path := String.concat "" (map (content_of ups) (sorted_set_z parts))]> fs)).
Proof.
  intros Hd Hp Hout Hne Hfs. unfold Filesystem.assemble. destruct parts as [|k0 parts]; [done|].
  unfold Filesystem.path_m. rewrite bind_run, lift_run, Hp. unfold write_file. rewrite bind_run, modify_run.
  rewrite bind_run, (append_parts_run _ u dir out_path (content_of ups) _ "" _ Hd).
  - rewrite ret_run, with_files_files, with_files_twice, insert_insert_eq. by rewrite fold_contents.
  - apply parts_ready_write. apply Forall_forall. intros k Hk.
    destruct (sorted_set_z_spec (k0 :: parts)) as [_ Hs]. apply Hs, Hfs in Hk as [Hk1 Hk2].
    split; [done|]. split; [|done]. intros He. rewrite <-He in Hout.
    by rewrite (part_file_below _ _ _ Hbase Hd) in Hout.
  - by rewrite with_files_files, lookup_insert_eq.
Qed.

Lemma peek_same now (ks ks' : keyspace) k : ks !! k = ks' !! k -> peek now ks k = peek now ks' k.
Proof. intros Hk. unfold peek. by rewrite Hk. Qed.
Lemma as_list_same now (ks ks' : keyspace) k : ks !! k = ks' !! k -> as_list now ks k = as_list now ks' k.
Proof. intros Hk. unfold as_list, peek_val. by rewrite (peek_same _ _ _ _ Hk). Qed.

(** Up to the assembled file: the job is there, the session and its parts are gone. *)
Lemma job_created w0 n u dir ups ks fs c user queue l :
  let id := uuid4_nth (w_uuids w0) in
  quiet w0 -> store_ready c id w0 queue l -> uploading w0 n u dir ups ks fs ->
  exists ks1, create_job cfg c (caller_id user) None (at_ w0 ks fs)
      = (inr (new_job id c (caller_id user) None (w_now w0)), at_ (draw_uuid w0) ks1 fs)
    /\ queue_of (w_now w0) ks1 = inr queue.
Proof.
  intros id Hq [Hjob Hidx Hqueue Hrange] [_ Hks _ _].
  destruct (create_job_quiet cfg Hredis (at_ w0 ks fs) c (caller_id user) None l)
    as (ks1 & Hc & _ & _ & Hf); [done| | |done|].
  - by rewrite (peek_same _ _ (w_redis w0)) by (by apply Hks).
  - by rewrite (as_list_same _ _ (w_redis w0)) by (by apply Hks).
  - exists ks1. split; [exact Hc|]. unfold queue_at. rewrite (as_list_same _ _ (w_redis w0)); [done|].
    rewrite Hf by done. by apply Hks.
Qed.

Definition upload_file (c id : string) (user : option User) (n : new_session) : string :=
  rstrip_slash (bulk_storage_path cfg) +:+ "/" +:+ bp_storage_key (upload_job c id user n "").

Lemma json_or_int z d : z <> 0 -> json_or (JInt z) d = JInt z.
Proof. intros Hz. unfold json_or. cbn. by rewrite (proj2 (Z.eqb_neq z 0)). Qed.

(** The [finally] clause around the assembly. *)
Lemma finished_run w0 u dir ups ks fs out_path key parts h :
  quiet w0 -> Filesystem.upload_dir (bulk_storage_path cfg) u = inr dir ->
  Filesystem.path_of (bulk_storage_path cfg) key = inr out_path ->
  startswith (dir +:+ "/") out_path = false -> parts <> [] ->
  (forall k, k ∈ parts -> 1 <= k /\ fs !! part_file dir k = Some (content_of ups k)) ->
  let storage := Filesystem.backend (bulk_storage_path cfg) in
  try_finally (try_except (assemble_chunk_parts storage u parts key) h)
    (delete_upload_parts storage u;; delete_upload_session cfg u) (at_ w0 ks fs)
  = (inr out_path, at_ w0 (delete (session_key u) ks)
      (without_dir dir (<[out_path := String.concat "" (map (content_of ups) (sorted_set_z parts))]> fs))).
Proof.
  intros Hq Hd Hp Hout Hne Hfs storage. unfold try_finally.
  rewrite (try_except_ok _ _ _ out_path _ (assembled_run w0 u dir ups ks fs out_path key parts Hd Hp Hout Hne Hfs)).
  cbn [storage delete_upload_parts Filesystem.backend].
  rewrite bind_run, (delete_parts_run u dir) by done. by rewrite session_delete_run.
Qed.

Lemma complete_run w0 n u dir ups ks fs c user queue l :
  let id := uuid4_nth (w_uuids w0) in
  let key := bp_storage_key (upload_job c id user n "") in
  quiet w0 -> Filesystem.upload_dir (bulk_storage_path cfg) u = inr dir ->
  may_import c user (w_tables w0) -> copy_options c user n -> ups <> [] ->
  contains ".." key = false -> contains "/" key = false ->
  store_ready c id w0 queue l -> uploading w0 n u dir ups ks fs ->
  exists parts content ks' fs',
    StronglySorted Z.lt parts /\ (forall k, k ∈ parts <-> k ∈ map fst ups)
    /\ content = String.concat "" (map (content_of ups) parts)
    /\ complete_bulk_upload_session cfg zip_names c u [] user (at_ w0 ks fs)
       = (inr id, at_ (draw_uuid w0) ks' fs')
    /\ queue_of (w_now w0) ks' = inr (encode (upload_job c id user n content) :: queue)
    /\ fs' !! upload_file c id user n = Some content
    /\ (forall k, fs' !! part_file dir k = None).
Proof.
  intros id key Hq Hd Hm Hn Hne Hdd Hss Hsr Hup.
  destruct (key_path _ u dir Hbase Hd key Hdd Hss) as [Hpath Hbelow].
  fold (upload_file c id user n) in Hpath, Hbelow. set (out_path := upload_file c id user n) in *.
  pose proof Hup as [(s & parts & Hs & Hok & Hin) Hks Hfs Hother].
  assert (parts <> []) as Hpne.
  { intros ->. destruct ups as [|[k x] ups]; [done|]. destruct (Hin k) as [_ Hk].
    apply (not_elem_of_nil k), Hk, list_elem_of_here. }
  destruct (import_target_run c user (at_ w0 ks fs) Hm) as [coll Ht].
  destruct (job_created w0 n u dir ups ks fs c user queue l Hq Hsr Hup) as (ks1 & Hj & Hq1).
  set (content := String.concat "" (map (content_of ups) (sorted_set_z parts))).
  set (fs1 := <[out_path := content]> fs). set (fs2 := without_dir dir fs1).
  set (ks2 := delete (session_key u) ks1).
  assert (fs2 !! out_path = Some content) as Hout.
  { unfold fs2. rewrite without_dir_elsewhere by done. unfold fs1. by rewrite lookup_insert_eq. }
  destruct (queue_import_run (Filesystem.backend (bulk_storage_path cfg)) (upload_job c id user n content)
              "Bulk queue unavailable: " (at_ (draw_uuid w0) ks2 fs2) queue) as (ks' & Hqi & Hq'); [done| |].
  { unfold queue_at. rewrite (as_list_same _ _ ks1); [exact Hq1|]. unfold ks2. cbn. by rewrite lookup_delete_ne. }
  exists (sorted_set_z parts), content, ks', fs2.
  destruct (sorted_set_z_spec parts) as [Hsort Helem]. split; [done|].
  split; [intros k; by rewrite Helem, Hin|]. split; [done|]. split.
  2: { split; [exact Hq'|]. split; [done|]. intros k. apply without_dir_below.
       by apply (part_file_below (bulk_storage_path cfg) u). }
  destruct Hn as (Hc & Ho & Hmode & Hex & Hb).
  unfold complete_bulk_upload_session. rewrite bind_run, Ht.
  rewrite bind_run, (found_session_run c u n parts s) by done.
  change (json_or (field "parts" []) (field "parts" s)) with (field "parts" s).
  rewrite bind_run, (parts_read n parts s Hok), lift_run. rewrite decide_False by done.
  rewrite (so_filename _ _ _ Hok), bind_run, Hj. cbv zeta. cbn [job_id new_job].
  rewrite bind_run, lift_run, storage_run. change (id +:+ _) with key.
  rewrite bind_run, (finished_run (draw_uuid w0) u dir ups ks1 fs out_path key parts)
    by (done || (intros k Hk; apply Hfs; by apply Hin)).
  rewrite bind_run, (shapefiles_run _ _ content) by exact Hout.
  assert (session_filters [] s = inr JNull) as Hf.
  { unfold session_filters. cbn. rewrite (so_filters _ _ _ Hok), Hex. done. }
  rewrite bind_run, Hf, lift_run. rewrite (so_mode _ _ _ Hok), bind_run.
  change (field "mode" []) with JNull.
  rewrite (options_checked c user n), lift_run by done.
  rewrite (so_batch _ _ _ Hok), (so_tiles _ _ _ Hok). rewrite json_or_int by lia.
  cbn [json_int]. rewrite bind_run, lift_run. cbn [fst snd].
  change (field "queue_compute_tiles" []) with JNull. cbn [parse_queue_compute_tiles].
  rewrite bind_run.
  lazymatch goal with |- context [queue_import ?a ?b ?p ?m ?w] =>
    change (queue_import a b p m w) with (queue_import cfg (Filesystem.backend (bulk_storage_path cfg))
      (upload_job c id user n content) m (at_ (draw_uuid w0) ks2 fs2)) end.
  by rewrite Hqi.
Qed.
(** *** From the first request to the queue *)

Lemma validated_copy mode raw m l :
  bulk_copy_ingest_enabled cfg = true ->
  validate_bulk_import_mode_and_filters cfg mode raw = inr (m, l) ->
  m ∈ BULK_COPY_MODES /\ m = strip (if decide (mode = "") then "append" else mode) /\ l = [].
Proof.
  intros Hcopy. unfold validate_bulk_import_mode_and_filters. cbv zeta. set (md := strip _).
  case_decide as Hin; [done|]. rewrite Hcopy. cbn [andb]. case_bool_decide as Hm; [done|].
  destruct (normalize_replace_filters_raw raw) as [e|lines]; [done|]. cbn [res_bind].
  rewrite decide_False by (intros He; rewrite He in Hm; unfold BULK_COPY_MODES in Hm; set_solver).
  destruct lines; [|done]. by intros [= <- <-].
Qed.

Definition asked_filename (body : list (string * json)) : string :=
  json_str (json_or (field "filename" body) (JStr "upload.geojson")).
Definition asked_mode (body : list (string * json)) : string :=
  let mode := json_str (json_or (field "mode" body) (JStr "append")) in
  strip (if decide (mode = "") then "append" else mode).

(** The session a request asks for, when its batch size reads as [batch]. *)
Definition asked (c : string) (body : list (string * json)) (user : option User) (batch : Z) : new_session :=
  {| ns_collection_id := c; ns_owner_id := caller_id user; ns_filename := asked_filename body;
     ns_mode := asked_mode body; ns_batch_size := batch;
     ns_queue_compute_tiles := parse_queue_compute_tiles (field "queue_compute_tiles" body) false;
     ns_upload_kind := "vector_bulk"; ns_extra := [] |}.
Definition asked_batch (body : list (string * json)) (batch : Z) : Prop :=
  json_int (json_or (field "batch_size" body) (JInt (bulk_import_batch_size cfg))) = inr batch
  /\ 1 <= batch <= 100000.

(** A session that was created has the options that were asked for, and a COPY import
    can be queued with them. *)
Lemma create_inv c body user w u w' :
  bulk_copy_ingest_enabled cfg = true -> may_import c user (w_tables w) ->
  create_bulk_upload_session cfg c body user w = (inr u, w') ->
  exists batch s, asked_batch body batch /\ copy_options c user (asked c body user batch)
    /\ create_upload_session cfg (asked c body user batch) w = (inr (u, s), w').
Proof.
  intros Hcopy Hm. destruct (import_target_run c user w Hm) as [coll Ht].
  unfold create_bulk_upload_session. rewrite bind_run, Ht, bind_run, lift_run.
  destruct (validate_bulk_import_mode_and_filters _ _ _) as [e|[m l]] eqn:Hv; [done|].
  apply validated_copy in Hv as (Hmode & Hmd & ->); [|done]. rewrite bind_run, lift_run.
  destruct (json_int _) as [e|b] eqn:Hj; [done|]. destruct (_ || _) eqn:Hb; [done|].
  apply orb_false_iff in Hb as [Hb Hb']. apply Z.ltb_ge in Hb, Hb'. cbn [fst snd]. rewrite bind_run.
  assert (NewSession c (caller_id user) (json_str (json_or (field "filename" body) (JStr "upload.geojson"))) m b
    (parse_queue_compute_tiles (field "queue_compute_tiles" body) false) "vector_bulk" [] = asked c body user b) as Hn
    by by rewrite Hmd.
  rewrite Hn. destruct (create_upload_session cfg (asked c body user b) w) as [[e|[u' s]] w1] eqn:Hr; [done|].
  rewrite ret_run. intros [= <- <-]. exists b, s. split; [done|]. split; [|done].
  split; [done|]. split; [done|]. split; [|done]. cbn. unfold asked_mode. by rewrite <-Hmd.
Qed.

Record names_ok (u dir id : string) : Prop := {
  no_ascii : ascii_str u = true;
  no_dir : Filesystem.upload_dir (bulk_storage_path cfg) u = inr dir;
  no_key suffix : suffix ∈ upload_formats ->
    contains ".." (id +:+ suffix) = false /\ contains "/" (id +:+ suffix) = false
}.

Lemma upload_suffix_known filename : upload_suffix filename ∈ upload_formats.
Proof. unfold upload_suffix. cbv zeta. case_decide; [done|]. unfold upload_formats. set_solver. Qed.

Lemma copy_ascii c user n :
  copy_options c user n -> ascii_str c = true -> ascii_str (ns_filename n) = true ->
  ns_upload_kind n = "vector_bulk" -> ascii_session n.
Proof.
  intros (Hcn & _ & Hm & He & _) Hc Hf Hk. split; [by rewrite Hcn|]. split; [done|].
  assert (ns_mode n = "append" \/ ns_mode n = "replace") as Hcases by (unfold BULK_COPY_MODES in Hm; set_solver).
  split; [by destruct Hcases as [-> | ->]|]. rewrite Hk. auto.
Qed.

Lemma suffix_default f :
  upload_suffix (json_str (json_or (JStr f) (JStr "upload.geojson"))) = upload_suffix f.
Proof. by destruct f. Qed.

(** C3. An upload in parts reaches the import queue whole.  Without faults, for a
    caller who may import into a vector collection, with ASCII names and stores that
    hold nothing of the new session yet: after the request that creates the session, the
    parts may come in any order and be sent again; the completing request, which names
    no options of its own, puts one job on the queue with exactly the options asked for
    when the session was created - the mode, the batch size, whether tiles are computed,
    the owner and the suffix of the file name - whose file holds the latest content of
    every part in the order of their numbers, and leaves no part behind. *)
Theorem resumable_upload (c : string) (body : list (string * json)) (user : option User)
    (ups : list (Z * string)) (w0 w1 : world) (u dir : string) (queue jobs : list string) :
  let id := uuid4_nth (S (w_uuids w0)) in
  quiet w0 -> bulk_copy_ingest_enabled cfg = true -> may_import c user (w_tables w0) ->
  create_bulk_upload_session cfg c body user w0 = (inr u, w1) ->
  names_ok u dir id -> ascii_str c = true -> ascii_str (asked_filename body) = true ->
  store_ready c id w0 queue jobs -> ups <> [] -> Forall (fun p => 1 <= p.1) ups ->
  exists batch parts content w2,
    let suffix := upload_suffix (asked_filename body) in
    asked_batch body batch /\ asked_mode body ∈ BULK_COPY_MODES
    /\ StronglySorted Z.lt parts /\ (forall k, k ∈ parts <-> k ∈ map fst ups)
    /\ content = String.concat "" (map (content_of ups) parts)
    /\ (upload_parts c u user ups;; complete_bulk_upload_session cfg zip_names c u [] user) w1 = (inr id, w2)
    /\ queue_of (w_now w2) (w_redis w2) = inr (encode (import_payload id c (id +:+ suffix) (asked_mode body)
         batch (caller_id user) (parse_queue_compute_tiles (field "queue_compute_tiles" body) false)
         (shapefiles suffix content) []) :: queue)
    /\ w_files w2 !! (rstrip_slash (bulk_storage_path cfg) +:+ "/" +:+ id +:+ suffix) = Some content
    /\ (forall k, w_files w2 !! part_file dir k = None).
Proof.
  intros id Hq Hcopy Hm Hcreate [Hu Hd Hkey] Hc Hf [Hj Hidx Hqueue Hrange] Hne Hk.
  destruct (create_inv _ _ _ _ _ _ Hcopy Hm Hcreate) as (b & s0 & Hb & Hn & Hr).
  set (n := asked c body user b) in *.
  assert (u = uuid4_nth (w_uuids w0)) as Hue.
  { unfold create_upload_session in Hr. rewrite bind_run in Hr. cbn [uuid4] in Hr.
    rewrite bind_run, get_now_run, bind_run, session_write in Hr by done. by injection Hr as <- _ _. }
  destruct (session_create_run cfg Httl n w0 Hq) as (s & ks & Hr' & Hok & Hs & Hfr);
    [by eapply copy_ascii|by rewrite <-Hue|].
  rewrite Hr in Hr'. injection Hr' as _ -> ->. rewrite <-Hue in *.
  set (w' := draw_uuid w0). assert (with_redis w' ks = at_ w' ks (w_files w')) as -> by (unfold w'; by destruct w0 as [?????????[]]).
  destruct (parts_uploaded w' n u dir c user Hq Hd Hm (proj1 Hn) (proj1 (proj2 Hn)) ups [] ks (w_files w'))
    as (ks1 & fs1 & Hp & Hup); [done| |].
  { split; [exists s, []; split; [exact Hs|]; by split| |set_solver|done]. intros k Hk'. by apply Hfr. }
  destruct (Hkey (upload_suffix (json_str (json_or (JStr (ns_filename n)) (JStr "upload.geojson")))))
    as [Hdd Hss]; [apply upload_suffix_known|].
  destruct (complete_run w' n u dir ups ks1 fs1 c user queue jobs)
    as (parts & content & ks' & fs' & Hsort & Hin & Hcont & Hcomp & Hq' & Hout & Hgone); try done.
  exists b, parts, content, (at_ (draw_uuid w') ks' fs'). cbv zeta.
  pose proof (suffix_default (asked_filename body)) as Hsf.
  unfold upload_file, upload_job in Hq', Hout. cbn [n asked ns_filename] in Hq', Hout. rewrite Hsf in Hq', Hout.
  split; [done|]. split; [by apply Hn|]. split; [done|]. split; [done|]. split; [done|].
  split; [by rewrite bind_run, Hp|]. split; [exact Hq'|]. split; [exact Hout|done].
Qed.
End whole_upload.

(** ** Examples *)

Definition boss : User := mkUser 3 "boss" true "x" false None.
Definition upload_tables : tables :=
  with_users (style_tables [demo_collection "roads" 1 "private" "vector"] []) 4 {[1 := ana; 3 := boss]}.
Definition upload_world : world := with_tables empty_world upload_tables.

Definition create_roads := @create_bulk_upload_session reference_server reference_entropy default_settings.
Definition send_part := @upload_bulk_session_part reference_server reference_entropy default_settings.
Definition complete := @complete_bulk_upload_session reference_server reference_entropy default_settings
  (fun _ => None).

(** [ana] starts an upload. *)
Definition started : world := (create_roads "roads" [("filename", JStr "r.geojson")] (Some ana) upload_world).2.

(** [ana] starts an upload with options. *)
Definition asked_world : world :=
  (create_roads "roads" [("filename", JStr "r.geojson"); ("mode", JStr "replace"); ("batch_size", JInt 500)]
     (Some ana) upload_world).2.

Lemma resumable_upload_witness :
  let ups := [(2, "c"); (1, "a"); (2, "b")] in
  let body := [("filename", JStr "r.geojson"); ("mode", JStr "replace"); ("batch_size", JInt 500)] in
  exists batch parts content w2,
    asked_batch default_settings body batch /\ asked_mode body ∈ BULK_COPY_MODES
    /\ StronglySorted Z.lt parts /\ (forall k, k ∈ parts <-> k ∈ map fst ups)
    /\ content = String.concat "" (map (content_of ups) parts)
    /\ (@upload_parts reference_server reference_entropy default_settings "roads" "job-0" (Some ana) ups;;
        complete "roads" "job-0" [] (Some ana)) asked_world = (inr "job-1", w2)
    /\ queue_of (w_now w2) (w_redis w2)
       = inr [encode (import_payload "job-1" "roads" "job-1.geojson" "replace" batch (Some 1) false None [])]
    /\ w_files w2 !! "/data/bulk-uploads/job-1.geojson" = Some content
    /\ (forall k, w_files w2 !! part_file "/data/bulk-uploads/_uploads/job-0" k = None).
Proof.
  apply (@resumable_upload reference_server _ reference_entropy default_settings (fun _ => None)
    eq_refl eq_refl eq_refl ltac:(done) "roads"
    [("filename", JStr "r.geojson"); ("mode", JStr "replace"); ("batch_size", JInt 500)] (Some ana)
    [(2, "c"); (1, "a"); (2, "b")] upload_world asked_world "job-0" "/data/bulk-uploads/_uploads/job-0" [] []).
  - done.
  - done.
  - eexists. split_and!; by vm_compute.
  - unfold asked_world. apply run_fst. by vm_compute.
  - split; [done|by vm_compute|]. intros suffix Hs.
    assert (Forall (fun x => contains ".." ("job-1" +:+ x) = false /\ contains "/" ("job-1" +:+ x) = false)
              upload_formats) as Hall by (repeat constructor).
    rewrite Forall_forall in Hall. by apply Hall.
  - done.
  - done.
  - split; [by vm_compute|by vm_compute|by vm_compute|]. split; by vm_compute.
  - done.
  - repeat constructor; done.
Defined.

Lemma session_keeps_type_witness :
  let n := NewSession "dem" (Some 1) "r.zip" "append" 1000 false "raster_batch"
             [("is_dem", JBool true); ("dem_encoding", JNull); ("source_crs", JStr "EPSG:4326")] in
  exists s parts ks,
    (created ← @create_upload_session reference_server reference_entropy default_settings n;
     @add_parts reference_server reference_entropy default_settings created.1 [2; 1; 2]) upload_world
      = (inr tt, with_redis (draw_uuid upload_world) ks)
    /\ session_holds "job-0" (isoformat_z (utcnow 0)) n parts s /\ upload_run_ok ks "job-0" s upload_world
    /\ forall k, k ∈ parts <-> k ∈ [2; 1; 2].
Proof.
  apply (@session_keeps_type reference_server _ reference_entropy default_settings eq_refl).
  - done.
  - split_and!; [done..|by vm_compute|]. unfold base_fields. repeat constructor; set_solver.
  - done.
Defined.

(** Completing with a mode that is refused: the parts and the session are deleted before
    the mode is looked at, so the upload is lost, and its job stays pending with nothing
    queued. *)
Theorem bad_mode_loses_upload :
  exists w1 w2 parts,
    send_part "roads" "job-0" 1 "data" (Some ana) started = (inr parts, w1)
    /\ w_files w1 !! "/data/bulk-uploads/_uploads/job-0/part-00000001.bin" = Some "data"
    /\ complete "roads" "job-0" [("mode", JStr "merge")] (Some ana) w1
       = (inl (HTTPException 400 (JStr "mode must be 'append', 'replace', or 'replace_filtered'")), w2)
    /\ w_files w2 !! "/data/bulk-uploads/_uploads/job-0/part-00000001.bin" = None
    /\ peek (w_now w2) (w_redis w2) (session_key "job-0") = None
    /\ queue_of (w_now w2) (w_redis w2) = inr []
    /\ (exists j w3, @get_job reference_server reference_entropy default_settings "job-1" w2 = (inr (Some j), w3)
          /\ status j = "pending").
Proof.
  do 3 eexists. split; [apply run_fst; by vm_compute|]. split; [by vm_compute|].
  split; [apply run_fst; by vm_compute|]. split; [by vm_compute|]. split; [by vm_compute|].
  split; [by vm_compute|]. do 2 eexists. split; [apply run_fst; by vm_compute|]. by vm_compute.
Qed.

(** Only the parts of an upload are checked for their owner: somebody else who may edit
    the collection cannot send a part, but can complete the upload, or abort it. *)
Theorem others_complete_upload :
  exists w1 w2 w3 w4 parts,
    send_part "roads" "job-0" 1 "data" (Some ana) started = (inr parts, w1)
    /\ send_part "roads" "job-0" 2 "more" (Some boss) w1
       = (inl (HTTPException 403 (JStr "Upload session owner mismatch")), w2)
    /\ complete "roads" "job-0" [] (Some boss) w1 = (inr "job-1", w3)
    /\ @abort_bulk_upload_session reference_server reference_entropy default_settings "roads" "job-0"
         (Some boss) w1 = (inr tt, w4).
Proof.
  do 5 eexists. split; [apply run_fst; by vm_compute|]. split_and!; apply run_fst; by vm_compute.
Qed.

(** A part that is missing in the middle is not noticed: parts 1 and 3 make a file. *)
Theorem gap_not_noticed :
  exists w1 w2 w3 parts parts',
    send_part "roads" "job-0" 1 "ab" (Some ana) started = (inr parts, w1)
    /\ send_part "roads" "job-0" 3 "ef" (Some ana) w1 = (inr parts', w2)
    /\ complete "roads" "job-0" [] (Some ana) w2 = (inr "job-1", w3)
    /\ w_files w3 !! "/data/bulk-uploads/job-1.geojson" = Some "abef".
Proof.
  do 5 eexists. split; [apply run_fst; by vm_compute|]. split; [apply run_fst; by vm_compute|].
  split; [apply run_fst; by vm_compute|]. by vm_compute.
Qed.
