(* ===== verification/CompositeItems.v ===== *)
(** * The features of composite collections (app/services/composite_items.py)

    A composite collection has no features of its own: a list of it asks its members
    in turn and joins what they answer.  An item of it is named [member:feature].
    The fetches the source starts together on one session run one after the other. *)

From S2P Require Import Prelude PyTime Redis Postgres Tables World Database Json JobStore BulkActivity.
From S2P Require Import SideQueues CopyFormat Subdivide CopyIngest Session Styles Collections PropertyFilters FeatureRows.
From S2P Require Import DynamicCache Features FeatureDemo FeaturePaging.

(** ** Item ids *)

Definition COMPOSITE_ITEM_SEP : Ascii.ascii := ":"%char.
Definition format_composite_item_id (member_collection_id feature_id : string) : string :=
  member_collection_id +:+ String COMPOSITE_ITEM_SEP feature_id.

(** [partition] cuts at the first separator. *)
Definition parse_composite_item_id (item_id : string) : option (string * string) :=
  match splitn COMPOSITE_ITEM_SEP 1 item_id with
  | [member_id; feature_id] =>
      if bool_decide (member_id = "") || bool_decide (feature_id = "") then None
      else Some (member_id, feature_id)
  | _ => None
  end.

Definition composite_member_ids (c : Collection) : list string :=
  PropertyIndex.member_collection_ids
    (PropertyIndex.parse_composite_members (default JNull (c_composite_members c))).

(** ** Python's comparison of JSON values *)

Inductive number := NaN | Infinite (negative : bool) | Dyadic (mantissa exponent : Z).
Definition number_of (j : json) : option number :=
  match j with
  | JBool b => Some (Dyadic (if b then 1 else 0) 0)
  | JInt z => Some (Dyadic z 0)
  | JFloat x =>
      Some match float_of x with
           | FNan => NaN
           | FInf => Infinite (startswith "-" x)
           | FNum neg m e => Dyadic (if neg then - m else m) e
           end
  | _ => None
  end.
Definition number_cmp (x y : number) : option comparison :=
  match x, y with
  | NaN, _ | _, NaN => None
  | Infinite a, Infinite b => Some (if a then (if b then Eq else Lt) else (if b then Gt else Eq))
  | Infinite a, Dyadic _ _ => Some (if a then Lt else Gt)
  | Dyadic _ _, Infinite b => Some (if b then Gt else Lt)
  | Dyadic m e, Dyadic n f => Some (Z.compare (m * 2 ^ (e - Z.min e f)) (n * 2 ^ (f - Z.min e f)))
  end.
Definition same_number (x y : number) : bool := bool_decide (number_cmp x y = Some Eq).
Definition number_lt (x y : number) : bool := bool_decide (number_cmp x y = Some Lt).

(** [x == y] *)
Fixpoint json_eq (x y : json) {struct x} : bool :=
  match x, y with
  | JNull, JNull => true
  | JStr s, JStr t => bool_decide (s = t)
  | JList l, JList m =>
      (fix go (l m : list json) : bool :=
         match l, m with
         | [], [] => true
         | a :: l', b :: m' => json_eq a b && go l' m'
         | _, _ => false
         end) l m
  | JObj l, JObj m =>
      (length l =? length m)%nat
      && (fix go (l : list (string * json)) : bool :=
            match l with
            | [] => true
            | (k, a) :: l' => match dict_get k m with Some b => json_eq a b | None => false end && go l'
            end) l
  | _, _ => match number_of x, number_of y with Some a, Some b => same_number a b | _, _ => false end
  end.

(** [x < y]; [None] is a [TypeError]. *)
Fixpoint json_lt (x y : json) {struct x} : option bool :=
  match x, y with
  | JStr s, JStr t => Some (String.ltb s t)
  | JList l, JList m =>
      (fix go (l m : list json) : option bool :=
         match l, m with
         | [], [] => Some false
         | [], _ :: _ => Some true
         | _ :: _, [] => Some false
         | a :: l', b :: m' => if json_eq a b then go l' m' else json_lt a b
         end) l m
  | _, _ => match number_of x, number_of y with Some a, Some b => Some (number_lt a b) | _, _ => None end
  end.

(** [l.sort(key=..., reverse=...)]: stable, with the [TypeError] of a comparison.
    Values that Python cannot order consistently (NaN, arrays of different kinds) are
    left in an order of this definition's own. *)
Section sort.
Context {A : Type} (lt : A -> A -> option bool).

Fixpoint sort_insert (x : A) (l : list A) : option (list A) :=
  match l with
  | [] => Some [x]
  | y :: l' =>
      b ← lt y x;
      if (b : bool) then (y ::.) <$> sort_insert x l' else Some (x :: l)
  end.
Fixpoint sort_up (l : list A) : option (list A) :=
  match l with [] => Some [] | x :: l' => r ← sort_up l'; sort_insert x r end.
Definition py_sort (rev : bool) (l : list A) : option (list A) :=
  if rev then reverse <$> sort_up (reverse l) else sort_up l.
End sort.

(** ** Lists *)

Section composite.
Context {geom num : Type} `{Shapely geom num} `{GeometryOps geom}.
Context `{RedisServer} `{Entropy} `{PostGIS} `{FeatureServer} (cfg : Settings).
Context (depth : nat).

(** [coll.feature_count if coll else None]; the counts of the rows are kept with the
    features. *)
Definition member_feature_count (mid : string) : M (option Z) := fun w =>
  (inr match tb_collections (w_tables w) !! mid with
       | Some _ => Some (match db_collections (w_db w) !! mid with Some r => feature_count r | None => 0 end)
       | None => None
       end, w).

Fixpoint composite_feature_count (member_ids : list string) : M Z :=
  match member_ids with
  | [] => mret 0
  | mid :: mids =>
      n ← member_feature_count mid; total ← composite_feature_count mids; mret (default 0 n + total)
  end.

(** The keywords of [_list_query_kwargs], the ones [_member_count] leaves out, and the
    ones it gives itself. *)
Definition list_query_kwargs : list string :=
  ["limit"; "offset"; "bbox"; "datetime_start"; "datetime_end"; "sortby"; "sortdesc";
   "property_filters"; "structured_filters"; "fulltext_q"; "feature_ids"; "include_geometry";
   "skip_count"; "exclude_bulk_job_ids"].
Definition left_out_kwargs : list string := ["limit"; "offset"; "skip_count"; "include_geometry"].
Definition own_kwargs : list string :=
  ["limit"; "offset"; "collection_feature_count"; "skip_count"; "exclude_bulk_job_ids"].

(** A call [f( **given, **passed)]: a keyword that is given twice is an error. *)
Definition repeated_keyword (given passed : list string) : option string :=
  List.find (fun k => bool_decide (k ∈ given)) passed.
Definition call_checked (function : string) (given passed : list string) : res unit :=
  match repeated_keyword given passed with
  | None => inr tt
  | Some k =>
      inl (TypeError (function +:+ "() got multiple values for keyword argument '" +:+ k +:+ "'"))
  end.

(** *** [feature_ids] *)

Definition wanted (member_ids : list string) (fid : string) : list (string * string) :=
  match parse_composite_item_id fid with
  | Some p => [p]
  | None => map (fun mid => (mid, fid)) member_ids
  end.

Fixpoint named_features (member_ids : list string) (ids : list (string * string)) :
  M (list (string * Feature)) :=
  match ids with
  | [] => mret []
  | (mid, fid) :: ids' =>
      if decide (mid ∈ member_ids) then
        f ← get_feature cfg mid fid;
        rest ← named_features member_ids ids';
        mret (match f with Some f => (mid, f) :: rest | None => rest end)
      else named_features member_ids ids'
  end.

(** *** The order of a merged list *)

Inductive sort_key := KTime (t : Z) | KText (s : string) | KJson (j : json).
Definition key_lt (x y : sort_key) : option bool :=
  match x, y with
  | KTime t, KTime u => Some (t <? u)
  | KText s, KText t => Some (String.ltb s t)
  | KJson i, KJson j => json_lt i j
  | _, _ => None
  end.

Definition properties_of (f : Feature) : res (list (string * json)) :=
  let props := default JNull (ft_props f) in if json_truthy props then as_dict props else inr [].
Definition key_of (name : string) (row : string * Feature) : res sort_key :=
  if decide (name = "created_at") then inr (KTime (ft_created row.2))
  else if decide (name = "id") then inr (KText (format_composite_item_id row.1 (ft_id row.2)))
  else let! props := properties_of row.2 in inr (KJson (default JNull (dict_get name props))).
Fixpoint keys_of (name : string) (rows : list (string * Feature)) :
  res (list (sort_key * (string * Feature))) :=
  match rows with
  | [] => inr []
  | r :: rows' => let! k := key_of name r in let! l := keys_of name rows' in inr ((k, r) :: l)
  end.
Definition sort_rows (name : string) (desc : bool) (rows : list (string * Feature)) :
  res (list (string * Feature)) :=
  let! keyed := keys_of name rows in
  match py_sort (fun x y => key_lt x.1 y.1) desc keyed with
  | Some l => inr (map snd l)
  | None => inl (TypeError "'<' not supported between instances")
  end.

Section one_list.
Context (a : ListArgs).

(** The arguments of the list of one member. *)
Definition member_args (limit offset : Z) (count : option Z) (geometry skip_count : bool)
    (exclude : list string) : ListArgs := {|
  la_limit := limit; la_offset := offset; la_bbox := la_bbox a; la_start := la_start a;
  la_end := la_end a; la_sortby := la_sortby a; la_sortdesc := la_sortdesc a;
  la_property_filters := la_property_filters a; la_structured := la_structured a; la_q := la_q a;
  la_ids := []; la_count := count; la_geometry := geometry; la_skip_count := skip_count;
  la_exclude := exclude |}.

Definition list_member (mid : string) (limit offset : Z) (count : option Z)
    (geometry skip_count : bool) : M (list Feature * Z) :=
  jobs ← active_shadow_exclude_job_ids cfg mid;
  transaction (list_features_paginated depth mid (member_args limit offset count geometry skip_count jobs)).

Definition member_count (mid : string) : M Z :=
  count ← member_feature_count mid;
  jobs ← active_shadow_exclude_job_ids cfg mid;
  let passed := List.filter (fun k => negb (bool_decide (k ∈ left_out_kwargs))) list_query_kwargs in
  lift (call_checked "list_features_paginated" own_kwargs passed);;
  r ← transaction (list_features_paginated depth mid (member_args 1 0 count true false jobs));
  mret r.2.

Fixpoint member_counts (member_ids : list string) : M Z :=
  match member_ids with
  | [] => mret 0
  | mid :: mids => n ← member_count mid; total ← member_counts mids; mret (n + total)
  end.

(** *** Lists ordered by id, without filters: the members one after the other *)

Fixpoint walk_members (member_ids : list string) (limit offset : Z) :
  M (list (string * Feature)) :=
  match member_ids with
  | [] => mret []
  | mid :: mids =>
      if limit <=? 0 then mret []
      else
        count ← member_feature_count mid;
        member_total ← (if la_skip_count a then mret (default 0 count) else member_count mid);
        if member_total <=? offset then walk_members mids limit (offset - member_total)
        else
          r ← list_member mid limit offset count (la_geometry a) true;
          rest ← walk_members mids (limit - Z.of_nat (length r.1)) 0;
          mret (map (pair mid) r.1 ++ rest)%list
  end.

(** *** Other lists: the first features of each member, merged *)

Definition fetch_limit : Z :=
  Z.min (Z.max (la_limit a + la_offset a) (composite_items_merge_cap cfg)) (items_max_limit cfg).

Fixpoint fetch_members (member_ids : list string) : M (list (string * Feature)) :=
  match member_ids with
  | [] => mret []
  | mid :: mids =>
      count ← member_feature_count mid;
      r ← list_member mid fetch_limit 0 count (la_geometry a) true;
      rest ← fetch_members mids;
      mret (map (pair mid) r.1 ++ rest)%list
  end.
End one_list.

(** *** [list_composite_features_paginated] *)

(** [(sortby or "").strip() or "id"] *)
Definition sort_column (a : ListArgs) : string := str_or (strip (opt_str (la_sortby a))) "id".

Definition one_by_one (a : ListArgs) : bool :=
  bool_decide (sort_column a = "id") && negb (nonempty (la_property_filters a))
  && negb (nonempty (la_structured a)) && negb (truthy (la_q a))
  && match la_bbox a with None => true | Some _ => false end.

Definition list_composite_features_paginated (member_ids : list string) (a : ListArgs) :
  M (list (string * Feature) * Z) :=
  match member_ids with
  | [] => mret ([], 0)
  | _ =>
      match concat (map (wanted member_ids) (la_ids a)) with
      | (_ :: _) as parsed_ids =>
          out ← named_features member_ids parsed_ids;
          mret (take (Z.to_nat (la_limit a)) out, Z.of_nat (length out))
      | [] =>
          total ← (if la_skip_count a then composite_feature_count member_ids
                   else member_counts a member_ids);
          if one_by_one a then
            out ← walk_members a member_ids (la_limit a) (la_offset a); mret (out, total)
          else
            rows ← fetch_members a member_ids;
            merged ← lift (sort_rows (sort_column a) (la_sortdesc a) rows);
            mret (page (la_limit a) (la_offset a) merged,
                  if la_skip_count a && (total =? 0) then Z.of_nat (length merged) else total)
      end
  end.

(** ** One item, the property names, and downloads *)

Fixpoint first_feature (member_ids : list string) (item_id : string) : M (option (string * Feature)) :=
  match member_ids with
  | [] => mret None
  | mid :: mids =>
      f ← get_feature cfg mid item_id;
      match f with Some f => mret (Some (mid, f)) | None => first_feature mids item_id end
  end.
Definition get_composite_feature (member_ids : list string) (item_id : string) :
  M (option (string * Feature)) :=
  match parse_composite_item_id item_id with
  | Some (mid, fid) =>
      if decide (mid ∈ member_ids) then f ← get_feature cfg mid fid; mret (pair mid <$> f)
      else mret None
  | None => first_feature member_ids item_id
  end.

Fixpoint members_property_keys (member_ids : list string) : M (list string) :=
  match member_ids with
  | [] => mret []
  | mid :: mids =>
      keys ← transaction (get_collection_property_keys mid);
      rest ← members_property_keys mids; mret (keys ++ rest)%list
  end.
Definition get_composite_property_keys (member_ids : list string) (configured_fields : list string) :
  M (list string) :=
  keys ← members_property_keys member_ids; mret (sorted_set (configured_fields ++ keys)%list).

(** [props.setdefault(key, value)] *)
Definition set_default (key : string) (value : json) (props : list (string * json)) : list (string * json) :=
  match dict_get key props with Some _ => props | None => dict_set key value props end.
Definition member_props (mid fid : string) (props : list (string * json)) : list (string * json) :=
  set_default "_member_feature_id" (JStr fid) (set_default "_member_collection_id" (JStr mid) props).

Definition box_json (b : json * json * json * json) : json :=
  let '(x, y, z, t) := b in JList [x; y; z; t].

(** [getattr(feature, "geometry_geojson", None) or geometry_to_geojson(feature.geometry)] *)
Definition feature_geojson (f : Feature) : res (option json) :=
  match ft_geojson f with
  | Some j => if json_truthy j then inr (Some j) else geometry_to_geojson depth (ft_geometry f)
  | None => geometry_to_geojson depth (ft_geometry f)
  end.

Definition composite_feature_to_geojson (member_id : string) (f : Feature)
    (properties_include : option (list string)) : res json :=
  let! geometry := feature_geojson f in
  let! props := properties_of f in
  let props := member_props member_id (ft_id f) props in
  let props := match properties_include with
               | Some keys =>
                   List.filter (fun kv => bool_decide (kv.1 ∈ keys) || startswith "_member" kv.1) props
               | None => props
               end in
  inr (JObj ([("type", JStr "Feature");
              ("id", JStr (format_composite_item_id member_id (ft_id f)));
              ("geometry", default JNull geometry); ("properties", JObj props)]
             ++ match ft_bbox f with Some b => [("bbox", box_json b)] | None => [] end)%list).

(** The rows of a download.  A row is an object and has no [decode], so the rows of the
    members are passed on as they are. *)
Fixpoint stream_composite_features_geojsonl (fuel : nat) (member_ids : list string)
    (bbox : option envelope) (dt_start dt_end : option datetime) (props : list (string * string))
    (structured : list PropertyFilter) (q : option string) (batch_size : Z) :
  TX (option (list export_row)) :=
  match member_ids with
  | [] => mret (Some [])
  | mid :: mids =>
      rows ← stream_features_geojsonl depth fuel mid bbox dt_start dt_end props structured q batch_size;
      rest ← stream_composite_features_geojsonl fuel mids bbox dt_start dt_end props structured q batch_size;
      mret (l ← rows; r ← rest; Some (l ++ r)%list)
  end.
End composite.

(** ** Item ids *)

Lemma rev_app_acc s u t : String.rev_app s u +:+ t = String.rev_app s (u +:+ t).
Proof. revert u. induction s as [|c s IH]; intros u; [done|]. cbn [String.rev_app]. by rewrite IH. Qed.
Lemma rev_cons_app c s t : String.rev (String c s) +:+ t = String.rev s +:+ String c t.
Proof. unfold String.rev. cbn [String.rev_app]. by rewrite !rev_app_acc. Qed.

Lemma contains_char_cons sep c s :
  contains (String sep "") (String c s) = bool_decide (sep = c) || contains (String sep "") s.
Proof. cbn. by destruct s; rewrite andb_true_r. Qed.

(** A cut at the first separator. *)
Lemma splitn_go_cut sep cur s a b :
  splitn_go sep 1 cur s = [a; b] <->
  exists m, a = String.rev cur +:+ m /\ s = m +:+ String sep b /\ contains (String sep "") m = false.
Proof.
  revert cur. induction s as [|c s IH]; intros cur; cbn [splitn_go].
  - split; [done|]. intros ([|x m] & _ & Hs & _); done.
  - destruct (decide (c = sep)) as [->|Hc].
    + assert (splitn_go sep 0 "" s = [s]) as Hs by by destruct s.
      rewrite Hs. split.
      * intros [= <- <-]. exists "". by rewrite app_str_nil_r.
      * intros ([|x m] & -> & Hm & Hn).
        -- rewrite app_str_nil_l in Hm. injection Hm as ->. by rewrite app_str_nil_r.
        -- rewrite app_str_cons in Hm. injection Hm as <- _.
           rewrite contains_char_cons, bool_decide_eq_true_2 in Hn by done. done.
    + rewrite IH. split.
      * intros (m & -> & -> & Hn). exists (String c m). rewrite rev_cons_app. split; [done|].
        split; [done|]. rewrite contains_char_cons, Hn, bool_decide_eq_false_2 by congruence. done.
      * intros ([|x m] & -> & Hm & Hn).
        -- rewrite app_str_nil_l in Hm. congruence.
        -- rewrite app_str_cons in Hm. injection Hm as <- ->. exists m. rewrite rev_cons_app.
           rewrite contains_char_cons in Hn. apply orb_false_iff in Hn as [_ Hn]. done.
Qed.

(** The id of an item of a composite collection is read back as the member and the
    feature it was made of exactly when neither is empty and the member has no colon,
    and nothing else is read as such an id. *)
Theorem composite_id_roundtrip (item_id member_id feature_id : string) :
  parse_composite_item_id item_id = Some (member_id, feature_id)
  <-> item_id = format_composite_item_id member_id feature_id
      /\ contains ":" member_id = false /\ member_id <> "" /\ feature_id <> "".
Proof.
  unfold parse_composite_item_id, format_composite_item_id, splitn, COMPOSITE_ITEM_SEP.
  transitivity (splitn_go ":" 1 "" item_id = [member_id; feature_id] /\ member_id <> "" /\ feature_id <> "").
  - destruct (splitn_go ":" 1 "" item_id) as [|x [|y [|z l]]]; try (split; [done|intros [[=] _]]).
    repeat case_bool_decide; cbn; naive_solver.
  - rewrite splitn_go_cut. cbn [String.rev String.rev_app]. naive_solver.
Qed.

(** ** The pages of a composite collection *)

Section pages.
Context {geom num : Type} `{Shapely geom num} `{GeometryOps geom}.
Context `{RedisServer} `{Entropy} `{FeatureLaws} `{!PostGISLaws} (cfg : Settings).
Context (depth : nat).

(** The list of a member. *)
Definition of_member (a : ListArgs) : ListArgs := member_args a (la_limit a) (la_offset a) None (la_geometry a) true [].

(** A member whose features can be listed, and whose row counts them. *)
Record member_ok (a : ListArgs) (w : world) (mid : string) : Prop := {
  mo_row : is_Some (tb_collections (w_tables w) !! mid);
  mo_count : member_feature_count mid w = (inr (Some (Z.of_nat (length (listed mid (of_member a) (w_db w))))), w);
  mo_unique : unique_parts (parts_of (w_db w) mid);
  mo_build : buildable depth mid (of_member a) (w_db w)
}.

(** The ids of the whole list. *)
Definition composite_listed (a : ListArgs) (db : database) (mids : list string) : list (string * string) :=
  concat (map (fun mid => map (pair mid) (listed mid (of_member a) db)) mids).

Lemma page_app {A} lim off (l k : list A) :
  0 <= lim -> 0 <= off ->
  page lim off (l ++ k)%list
  = if Z.of_nat (length l) <=? off then page lim (off - Z.of_nat (length l)) k
    else (page lim off l ++ page (lim - Z.of_nat (length (page lim off l))) 0 k)%list.
Proof.
  intros Hl Ho. unfold page. destruct (Z.leb_spec (Z.of_nat (length l)) off).
  - rewrite drop_app_ge by lia. do 2 f_equal. lia.
  - rewrite drop_app_le by lia. rewrite take_app. f_equal. f_equal.
    rewrite length_take, length_drop. lia.
Qed.
Lemma page_nil {A} lim off : page lim off (@nil A) = [].
Proof. unfold page. by rewrite drop_nil, take_nil. Qed.
Lemma page_nothing {A} lim off (l : list A) : lim <= 0 -> page lim off l = [].
Proof. intros Hl. unfold page. by replace (Z.to_nat lim) with 0%nat by lia. Qed.

Lemma one_by_one_conds a :
  one_by_one a = true -> la_start a = None -> la_end a = None ->
  ordered_by_id (of_member a) = true /\ list_conds (of_member a) = [].
Proof.
  unfold one_by_one. rewrite !andb_true_iff, !negb_true_iff. intros [[[[Hs Hp] Hf] Hq] Hb] Hst Hen.
  apply bool_decide_eq_true_1 in Hs. split.
  - unfold ordered_by_id, sort_name. cbn [la_sortby of_member member_args]. unfold sort_column, str_or in Hs.
    destruct (decide _) as [|Hn]; [done|]. by rewrite Hs, bool_decide_eq_true_2.
  - unfold list_conds, query_conds, of_member, member_args; cbn.
    destruct (la_property_filters a), (la_structured a), (la_bbox a); try done.
    rewrite Hst, Hen. cbn. unfold text_conds, has_text. destruct (la_q a) as [q|]; [|done].
    cbn in Hq |- *. apply negb_false_iff, bool_decide_eq_true_1 in Hq. by rewrite Hq.
Qed.

Context (Hshadow : bulk_replace_shadow_import cfg = false).

Lemma list_member_run a w mid limit offset count fs :
  db_quiet w -> one_by_one a = true -> la_start a = None -> la_end a = None ->
  unique_parts (parts_of (w_db w) mid) -> built depth mid (of_member a) (w_db w) fs ->
  0 <= limit -> 0 <= offset ->
  exists n, list_member cfg depth a mid limit offset count (la_geometry a) true w
            = (inr (page limit offset fs, n), w).
Proof.
  intros Hq Ho Hst Hen Hu Hb Hl Hoff. destruct (one_by_one_conds a Ho Hst Hen) as [Hord Hc].
  set (b := member_args a limit offset count (la_geometry a) true []).
  assert (no_breaks (list_conds b) (parts_of (w_db w) mid) = true) as Hw.
  { change (list_conds b) with (list_conds (of_member a)). by rewrite Hc, no_breaks_nil. }
  pose proof (page_run depth mid b (w_db w) fs Hord Hu Hw Hb Hl Hoff) as Hr.
  eexists. unfold list_member, active_shadow_exclude_job_ids. rewrite Hshadow, bind_run, ret_run.
  fold b. rewrite (transaction_ok _ w _ _ Hq Hr). by destruct w as [?????????[]].
Qed.

(** The lists of the members, built. *)
Definition built_members (a : ListArgs) (db : database) (mids : list string) (fss : list (list Feature)) : Prop :=
  Forall2 (fun mid fs => built depth mid (of_member a) db fs) mids fss.
Definition joined (mids : list string) (fss : list (list Feature)) : list (string * Feature) :=
  concat (zip_with (fun mid fs => map (pair mid) fs) mids fss).

Lemma members_built a w mids :
  Forall (member_ok a w) mids -> exists fss, built_members a (w_db w) mids fss.
Proof.
  induction 1 as [|mid mids Hm _ [fss IH]]; [exists []; constructor|].
  destruct (buildable_built _ _ _ _ (mo_build _ _ _ Hm)) as [fs Hfs].
  exists (fs :: fss). by constructor.
Qed.

Lemma joined_ids a db mids fss :
  built_members a db mids fss ->
  map (fun r => (r.1, ft_id r.2)) (joined mids fss) = composite_listed a db mids.
Proof.
  induction 1 as [|mid fs mids fss [Hfs _] _ IH]; [done|]. unfold joined, composite_listed in *. cbn.
  by rewrite map_app, IH, map_map, <-Hfs, map_map.
Qed.

Lemma composite_listed_NoDup a db mids : NoDup mids -> NoDup (composite_listed a db mids).
Proof.
  unfold composite_listed. induction 1 as [|mid mids Hx Hn IH]; [constructor|]. cbn. apply NoDup_app.
  split; [|split; [|done]].
  - apply NoDup_fmap; [by intros ?? [=]|]. apply sort_ids_NoDup, distinct_ids_NoDup.
  - intros [m f] (id & [= -> ->] & _)%list_elem_of_fmap Hin. apply Hx.
    apply list_elem_of_In, in_concat in Hin as (l & (m' & <- & Hm)%in_map_iff & Hl).
    apply in_map_iff in Hl as (id' & [= -> ->] & _). by apply list_elem_of_In.
Qed.

Lemma member_count_length a w mid fs :
  member_ok a w mid -> built depth mid (of_member a) (w_db w) fs ->
  member_feature_count mid w = (inr (Some (Z.of_nat (length fs))), w).
Proof. intros Hm [Hids _]. by rewrite (mo_count _ _ _ Hm), <-Hids, length_map. Qed.

Lemma walk_run a w mids fss limit offset :
  db_quiet w -> one_by_one a = true -> la_start a = None -> la_end a = None -> la_skip_count a = true ->
  Forall (member_ok a w) mids -> built_members a (w_db w) mids fss -> 0 <= limit -> 0 <= offset ->
  walk_members cfg depth a mids limit offset w = (inr (page limit offset (joined mids fss)), w).
Proof.
  intros Hq Ho Hst Hen Hs Hm Hb. revert Hm limit offset.
  induction Hb as [|mid fs mids fss Hfs Hb IH]; intros Hm limit offset Hl Hoff; cbn [walk_members].
  { change (joined [] []) with (@nil (string * Feature)). by rewrite page_nil. }
  apply Forall_cons in Hm as [Hmid Hm]. destruct (Z.leb_spec limit 0).
  { by rewrite page_nothing. }
  rewrite bind_run, (member_count_length a w mid fs) by done. rewrite Hs, bind_run, ret_run.
  cbn [default from_option id]. unfold joined. cbn [zip_with concat]. rewrite page_app, length_map by lia.
  destruct (Z.leb_spec (Z.of_nat (length fs)) offset).
  { apply IH; [done|lia|lia]. }
  destruct (list_member_run a w mid limit offset (Some (Z.of_nat (length fs))) fs) as [n Hr];
    [done..|exact (mo_unique _ _ _ Hmid)|done|done|done|].
  rewrite bind_run, Hr, bind_run. cbn [fst]. rewrite page_map, length_map.
  rewrite IH; [done|done| |lia]. unfold page. rewrite length_take. lia.
Qed.

Lemma feature_counts_run a w mids fss :
  Forall (member_ok a w) mids -> built_members a (w_db w) mids fss ->
  composite_feature_count mids w = (inr (Z.of_nat (length (joined mids fss))), w).
Proof.
  intros Hm Hb. revert Hm. induction Hb as [|mid fs mids fss Hfs Hb IH]; intros Hm; [done|].
  apply Forall_cons in Hm as [Hmid Hm]. cbn [composite_feature_count].
  rewrite bind_run, (member_count_length a w mid fs), bind_run, IH by done.
  unfold joined. cbn [zip_with concat default from_option id]. rewrite length_app, length_map, ret_run.
  unfold id. do 2 f_equal. lia.
Qed.

(** C22. The pages of a composite collection listed by id without filters and without
    counting are the slices of one list: the features of the first member in the order
    of their ids, then those of the second, and so on, none twice; the total is the
    length of that list.  The cached counts of the members have to be right. *)
Theorem composite_page_is_slice (a : ListArgs) (w : world) (mids : list string) :
  db_quiet w -> one_by_one a = true -> la_start a = None -> la_end a = None -> la_skip_count a = true ->
  la_ids a = [] -> Forall (member_ok a w) mids -> NoDup mids ->
  exists rows,
    map (fun r => (r.1, ft_id r.2)) rows = composite_listed a (w_db w) mids
    /\ NoDup (map (fun r => (r.1, ft_id r.2)) rows)
    /\ forall limit offset, 0 <= limit -> 0 <= offset ->
       list_composite_features_paginated cfg depth mids (at_page a limit offset) w
       = (inr (page limit offset rows, Z.of_nat (length rows)), w).
Proof.
  intros Hq Ho Hst Hen Hs Hi Hm Hn. destruct (members_built a w mids Hm) as [fss Hb].
  exists (joined mids fss). pose proof (joined_ids a (w_db w) mids fss Hb) as Hj. split; [done|].
  rewrite Hj. split; [by apply composite_listed_NoDup|]. intros limit offset Hl Hoff.
  destruct mids as [|mid mids].
  { inversion Hb; subst. change (joined [] []) with (@nil (string * Feature)). by rewrite page_nil. }
  unfold list_composite_features_paginated. cbn [la_ids at_page]. rewrite Hi. cbn [map concat].
  change (one_by_one (at_page a limit offset)) with (one_by_one a).
  change (la_skip_count (at_page a limit offset)) with (la_skip_count a). rewrite Hs, Ho.
  rewrite bind_run, (feature_counts_run a w (mid :: mids) fss) by done.
  change (walk_members cfg depth (at_page a limit offset)) with (walk_members cfg depth a).
  rewrite bind_run, (walk_run a w (mid :: mids) fss); done.
Qed.
End pages.

(** ** Defects and examples *)

(** A composite list that counts its features never succeeds: [_member_count] gives
    [exclude_bulk_job_ids] itself and once more with the keywords it passes on. *)
Theorem composite_count_fails {geom num : Type} `{Shapely geom num} `{GeometryOps geom}
    `{RedisServer} `{Entropy} `{PostGIS} `{FeatureServer}
    (cfg : Settings) (depth : nat) (a : ListArgs) (mids : list string) (w : world) :
  mids <> [] -> la_ids a = [] -> la_skip_count a = false ->
  exists e w', list_composite_features_paginated cfg depth mids a w = (inl e, w').
Proof.
  intros Hm Hi Hs. destruct mids as [|mid mids]; [done|].
  unfold list_composite_features_paginated. rewrite Hi, Hs. cbn [map concat member_counts].
  unfold member_count, member_feature_count. rewrite !bind_run.
  destruct (active_shadow_exclude_job_ids cfg mid w) as [[e|jobs] w']; by eexists _, _.
Qed.

Definition hamlet : frow :=
  new_row "a" "hamlets" 0 (Some (dumps (points_json [(5, 5)])))
    (PText (dumps (JObj [("name", JStr "west")]))) None (now_utc (us 90)).
Definition members_db : database :=
  Db ∅ ∅ (towns ++ [hamlet])%list {[ "towns" := CollRow 2 None; "hamlets" := CollRow 1 None ]}.
Definition merged : Collection :=
  mkCollection "merged" None None None None None (Some 2) "private" false "composite"
    (Some (JList [JObj [("collection_id", JStr "towns")]; JObj [("collection_id", JStr "hamlets")]])) None 0.
Definition members_tables : tables :=
  style_tables [demo_collection "towns" 1 "private" "vector"; demo_collection "hamlets" 1 "private" "vector"; merged] [].
Definition members_world : world := with_db (with_tables empty_world members_tables) members_db.

Definition merged_args : ListArgs := {|
  la_limit := 2; la_offset := 0; la_bbox := None; la_start := None; la_end := None; la_sortby := None;
  la_sortdesc := false; la_property_filters := []; la_structured := []; la_q := None; la_ids := [];
  la_count := None; la_geometry := true; la_skip_count := true; la_exclude := [] |}.
Definition list_merged (a : ListArgs) : M (list (string * Feature) * Z) :=
  @list_composite_features_paginated _ _ demo_shapely plain_geometry reference_server
    reference_entropy demo_server default_settings 9 (composite_member_ids merged) a.

(** With a time interval the members are still skipped by their full counts: here no
    feature of [towns] is in the interval, and the first two pages of one feature both
    hold the feature of [hamlets]. *)
Theorem dated_composite_pages_repeat :
  let a := {|
    la_limit := 1; la_offset := 0; la_bbox := None; la_start := Some (now_utc (us 80)); la_end := None;
    la_sortby := None; la_sortdesc := false; la_property_filters := []; la_structured := []; la_q := None;
    la_ids := []; la_count := None; la_geometry := false; la_skip_count := true; la_exclude := [] |} in
  exists row, ft_id row.2 = "a" /\ row.1 = "hamlets"
    /\ forall offset, offset = 0 \/ offset = 1 ->
       list_merged (at_page a 1 offset) members_world = (inr ([row], 3), members_world).
Proof.
  eexists. split; [|split; [|intros offset [-> | ->]; vm_compute; reflexivity]]; reflexivity.
Qed.

(** The rows of a download keep the ids of the members, so features of two members can
    have the same id. *)
Theorem composite_download_ids_collide :
  exists rows, @stream_composite_features_geojsonl _ _ demo_shapely plain_geometry demo_server 9 4
    (composite_member_ids merged) None None None [("name", "*t*")] [] None 2000 members_db
    = (inr (Some rows), members_db) /\ map ex_id rows = ["a"; "a"; "b"; "a"].
Proof. eexists. split; by vm_compute. Qed.

Lemma unique_member mid : mid ∈ ["towns"; "hamlets"] -> unique_parts (parts_of members_db mid).
Proof.
  intros Hm. assert (mid = "towns" \/ mid = "hamlets") as [-> | ->] by set_solver;
    apply (bool_decide_unpack _); by vm_compute.
Qed.

Lemma demo_member mid :
  mid ∈ ["towns"; "hamlets"] ->
  @member_ok _ _ demo_shapely plain_geometry plain_postgis 9 merged_args members_world mid.
Proof.
  intros Hm. pose proof (unique_member mid Hm) as Hu.
  assert (mid = "towns" \/ mid = "hamlets") as [-> | ->] by set_solver.
  all: split; [by eexists|by vm_compute|exact Hu|].
  all: apply buildable_check; by vm_compute.
Qed.

Lemma composite_page_is_slice_witness :
  exists rows,
    map (fun r => (r.1, ft_id r.2)) rows = [("towns", "a"); ("towns", "b"); ("hamlets", "a")]
    /\ NoDup (map (fun r => (r.1, ft_id r.2)) rows)
    /\ forall limit offset, 0 <= limit -> 0 <= offset ->
       list_merged (at_page merged_args limit offset) members_world
       = (inr (page limit offset rows, Z.of_nat (length rows)), members_world).
Proof.
  apply (@composite_page_is_slice _ _ demo_shapely plain_geometry reference_server
    reference_entropy plain_postgis demo_server _ _ default_settings 9 eq_refl merged_args members_world
    (composite_member_ids merged)); try done.
  - repeat (apply Forall_cons; split; [apply demo_member; by apply (bool_decide_unpack _)|]). apply Forall_nil, I.
  - apply (bool_decide_unpack _). by vm_compute.
Defined.
