(* ===== verification/ItemParams.v ===== *)
(** * The query parameters of item requests

    app/utils/datetime_parse.py, app/services/items_query_guards.py and the parts of
    app/api/routes/items.py that read the parameters of a list or a download. *)

From S2P Require Import Prelude PyTime Redis Postgres World Database Json PropertyFilters UploadSessions.

(** ** [datetime.strptime] *)

(** The directives the formats use; a letter of the format matches either case. *)
Inductive directive := DYear | DMonth | DDay | DHour | DMinute | DSecond | DFraction | DZone | DLit (c : Ascii.ascii).

Record parsed := mkParsed {
  ps_year : Z; ps_month : Z; ps_day : Z; ps_hour : Z; ps_minute : Z; ps_second : Z; ps_us : Z;
  ps_zone : option Z
}.
Definition nothing_parsed : parsed := mkParsed 1900 1 1 0 0 0 0 None.

(** One or two digits of a number between [lo] and [hi]. *)
Definition two_digits (lo hi : Z) (s : string) : option (Z * string) :=
  match s with
  | String a r =>
      x ← digit_val a;
      let one := if lo <=? x then Some (x, r) else None in
      match r with
      | String b r' =>
          match digit_val b with
          | Some y => let n := 10 * x + y in if (lo <=? n) && (n <=? hi) then Some (n, r') else one
          | None => one
          end
      | EmptyString => one
      end
  | EmptyString => None
  end.

(** At most [n] digits, as a number and their count. *)
Fixpoint some_digits (n : nat) (acc : Z) (k : nat) (s : string) : Z * nat * string :=
  match n, s with
  | S n', String c s' =>
      match digit_val c with
      | Some d => some_digits n' (10 * acc + d) (S k) s'
      | None => (acc, k, s)
      end
  | _, _ => (acc, k, s)
  end.
Definition fraction (s : string) : option (Z * string) :=
  match some_digits 6 0 0 s with
  | (_, O, _) => None
  | (x, k, r) => Some (x * 10 ^ (6 - Z.of_nat k), r)
  end.

Definition read_colon (s : string) : bool * string :=
  match s with String ":" r => (true, r) | _ => (false, s) end.
Definition two_of_sixty (s : string) : option (Z * string) :=
  '(x, r) ← read_digits 2 0 s; if x <? 60 then Some (x, r) else None.

(** [%z]: the seconds and their fraction are optional, and there are colons between all
    the numbers or none. *)
Definition zone (s : string) : option (Z * string) :=
  match s with
  | String "Z" r => Some (0, r)
  | String c r =>
      sgn ← (if decide (c = "+"%char) then Some 1 else if decide (c = "-"%char) then Some (-1) else None);
      '(hh, r) ← read_digits 2 0 r;
      let (colon, r) := read_colon r in
      '(mm, r) ← two_of_sixty r;
      let (colon', r') := read_colon r in
      '(secs, us, r) ←
        match two_of_sixty r' with
        | Some (ss, r'') =>
            if Bool.eqb colon colon' then
              match r'' with
              | String "." r''' => match fraction r''' with
                                   | Some (us, q) => Some (ss, us, q)
                                   | None => Some (ss, 0, r'')
                                   end
              | _ => Some (ss, 0, r'')
              end
            else None
        | None => Some (0, 0, r)
        end;
      let off := ((hh * 60 + mm) * 60 + secs) * 1000000 + us in
      if off <? us_per_day then Some (sgn * off, r) else None
  | EmptyString => None
  end.

Definition read_directive (d : directive) (s : string) (p : parsed) : option (parsed * string) :=
  match d with
  | DYear => '(x, r) ← read_digits 4 0 s;
      Some (mkParsed x (ps_month p) (ps_day p) (ps_hour p) (ps_minute p) (ps_second p) (ps_us p) (ps_zone p), r)
  | DMonth => '(x, r) ← two_digits 1 12 s;
      Some (mkParsed (ps_year p) x (ps_day p) (ps_hour p) (ps_minute p) (ps_second p) (ps_us p) (ps_zone p), r)
  | DDay =>
      '(x, r) ← match s with
                | String " " (String c r) =>
                    y ← digit_val c; if 1 <=? y then Some (y, r) else None
                | _ => two_digits 1 31 s
                end;
      Some (mkParsed (ps_year p) (ps_month p) x (ps_hour p) (ps_minute p) (ps_second p) (ps_us p) (ps_zone p), r)
  | DHour => '(x, r) ← two_digits 0 23 s;
      Some (mkParsed (ps_year p) (ps_month p) (ps_day p) x (ps_minute p) (ps_second p) (ps_us p) (ps_zone p), r)
  | DMinute => '(x, r) ← two_digits 0 59 s;
      Some (mkParsed (ps_year p) (ps_month p) (ps_day p) (ps_hour p) x (ps_second p) (ps_us p) (ps_zone p), r)
  | DSecond => '(x, r) ← two_digits 0 61 s;
      Some (mkParsed (ps_year p) (ps_month p) (ps_day p) (ps_hour p) (ps_minute p) x (ps_us p) (ps_zone p), r)
  | DFraction => '(x, r) ← fraction s;
      Some (mkParsed (ps_year p) (ps_month p) (ps_day p) (ps_hour p) (ps_minute p) (ps_second p) x (ps_zone p), r)
  | DZone => '(x, r) ← zone s;
      Some (mkParsed (ps_year p) (ps_month p) (ps_day p) (ps_hour p) (ps_minute p) (ps_second p) (ps_us p) (Some x), r)
  | DLit c =>
      match s with
      | String a r => if decide (lower_ascii a = lower_ascii c) then Some (p, r) else None
      | EmptyString => None
      end
  end.

Fixpoint read_format (ds : list directive) (s : string) (p : parsed) : option parsed :=
  match ds with
  | [] => if decide (s = "") then Some p else None
  | d :: ds' => '(p, r) ← read_directive d s p; read_format ds' r p
  end.

(** [datetime.strptime(s, fmt)]; [None] is [ValueError]. *)
Definition strptime (ds : list directive) (s : string) : option datetime :=
  p ← read_format ds s nothing_parsed;
  let d := Date (ps_year p) (ps_month p) (ps_day p) in
  if date_valid d && (ps_second p <? 60) then
    Some (DT ((toordinal d - epoch_ord) * us_per_day
              + ((ps_hour p * 60 + ps_minute p) * 60 + ps_second p) * 1000000 + ps_us p) (ps_zone p))
  else None.

(** ** app/utils/datetime_parse.py *)

Definition date_format : list directive := [DYear; DLit "-"; DMonth; DLit "-"; DDay].
Definition minute_format : list directive := (date_format ++ [DLit "T"; DHour; DLit ":"; DMinute])%list.
Definition second_format : list directive := (minute_format ++ [DLit ":"; DSecond])%list.
Definition instant_formats : list (list directive) :=
  [(second_format ++ [DZone])%list; (second_format ++ [DLit "."; DFraction; DZone])%list;
   second_format; minute_format; date_format].

Definition first_format (s : string) : list (list directive) -> option datetime :=
  fix go fmts :=
    match fmts with
    | [] => None
    | fmt :: fmts' => match strptime fmt s with Some d => Some (default_utc d) | None => go fmts' end
    end.
Definition parse_instant (s : string) : option datetime :=
  if decide (s = "") then None else first_format (replace_z s) instant_formats.

Definition parse_datetime_param (value : string) : option datetime * option datetime :=
  let value := strip value in
  match splitn "/" 1 value with
  | [b; e] =>
      match parse_instant (strip b), parse_instant (strip e) with
      | Some s, Some t => (Some s, Some t)
      | _, _ => (None, None)
      end
  | _ => match parse_instant value with Some s => (Some s, Some s) | None => (None, None) end
  end.

Example datetime_params :
  map (fun s => (parse_datetime_param s).1)
    ["2024-01-01"; "2024-1-1t12:30"; "2024-01-01T12:30:15Z"; "2024-01-01T12:30:15.5+02:00";
     "2024-01-01T12:30:15.5"; "2024-02-30"; "2024-01-01/"]
  = [Some (DT 1704067200000000 (Some 0)); Some (DT 1704112200000000 (Some 0));
     Some (DT 1704112215000000 (Some 0)); Some (DT 1704112215500000 (Some 7200000000)); None; None; None].
Proof. by vm_compute. Qed.

(** ** app/services/items_query_guards.py *)

Definition timeout_fragments : list string :=
  ["lock timeout"; "locknotavailable"; "canceling statement"; "query_canceled"; "statement timeout"].
Definition is_items_query_timeout_error (e : exn) : bool :=
  existsb (fun frag => contains frag (lower (exn_str e))) timeout_fragments.

(** The two limits in milliseconds. *)
Definition items_query_timeouts (cfg : Settings) (during_bulk : bool) : Z * Z :=
  let ms (t d : Z) := int_or t d / 1000 in
  (Z.max 100 (ms (items_list_lock_timeout_seconds cfg) (us 3)),
   Z.max 500 (if during_bulk then ms (items_list_during_bulk_statement_timeout_seconds cfg) (us 8)
              else ms (items_list_statement_timeout_seconds cfg) (us 30))).

(** ** Parameters of app/api/routes/items.py *)

Definition ITEMS_RESERVED_PARAMS : list string :=
  ["limit"; "offset"; "bbox"; "datetime"; "sortby"; "sortdesc"; "properties"; "filter"; "q"; "f";
   "bbox_only"; "force"; "geometry"; "skip_count"].

(** [request.query_params]: the last value of a name. *)
Definition query_params (query : list (string * string)) : list (string * string) :=
  foldl (fun m kv => dict_set kv.1 kv.2 m) [] query.
Definition legacy_filters (query : list (string * string)) : list (string * string) :=
  List.filter (fun kv => negb (bool_decide (lower kv.1 ∈ ITEMS_RESERVED_PARAMS))) (query_params query).

Definition bbox_tuple (bbox : option string) : option envelope :=
  match map strip (split "," (opt_str bbox)) with
  | [a; b; c; d] => if forallb py_float_ok [a; b; c; d] then Some (Envelope a b c d) else None
  | _ => None
  end.

Definition datetime_bounds (datetime_param : option string) : option datetime * option datetime :=
  if truthy datetime_param then parse_datetime_param (opt_str datetime_param) else (None, None).

(** [[x for s in filter_param for x in s.strip().split("\n") if x.strip()]] *)
Definition filter_lines (filter_param : list string) : list string :=
  List.filter (fun x => negb (bool_decide (strip x = "")))
    (concat (map (fun s => split "010" (strip s)) filter_param)).

Definition FULLTEXT_MIN_LENGTH : Z := 4.
Fixpoint str_chars (s : string) : Z :=
  match s with EmptyString => 0 | String c s' => (if is_cont c then 0 else 1) + str_chars s' end.
Definition too_short (q : option string) : bool :=
  let s := strip (opt_str q) in negb (bool_decide (s = "")) && (str_chars s <? FULLTEXT_MIN_LENGTH).
Definition fulltext_of (q : option string) : option string :=
  let s := strip (opt_str q) in if decide (s = "") then None else Some s.

(** [{p.strip() for p in properties.split(",") if p.strip()}] *)
Definition props_include_set (properties : option string) : option (list string) :=
  if truthy properties then
    Some (List.filter (fun p => negb (bool_decide (p = ""))) (map strip (split "," (opt_str properties))))
  else None.
