(* ===== verification/Items.v ===== *)
(** * Reading and writing features over HTTP (app/api/routes/items.py)

    The JSON answers of the endpoints on the items of a collection.  A request carries
    the parameters the framework has read and the query string as a list; the links of
    an answer are the offsets they lead to.  [admitted] says whether the gate of
    app/services/db_load_gate.py (LoadGate.v) gave the list a slot.  The timeouts set
    for a list are the server's: their errors come from its schedule. *)

From S2P Require Import Prelude PyTime Redis Postgres Tables World Database Json Mutex JobStore BulkActivity.
From S2P Require Import SideQueues CopyFormat Subdivide Session Permissions Collections PropertyFilters FeatureRows.
From S2P Require Import DynamicCache Features UploadSessions CompositeItems ItemParams.

(** ** app/schemas/feature.py *)

Record FeatureRead := mkRead {
  rd_id : string;
  rd_collection : string;
  rd_geometry : option (list (string * json));
  rd_properties : option (list (string * json));
  rd_created : Z;
  rd_updated : Z;
  rd_bbox : option (json * json * json * json)
}.

(** [Geometry.model_validate(d).model_dump()]: the declared fields first, nulls dropped. *)
Definition not_null (kv : string * json) : bool := match kv.2 with JNull => false | _ => true end.
Definition validated_geometry (m : list (string * json)) : option (list (string * json)) :=
  match dict_get "type" m with
  | Some (JStr ty) =>
      let get k := match dict_get k m with Some j => [(k, j)] | None => [] end in
      Some (List.filter not_null
              (("type", JStr ty) :: get "coordinates" ++ get "geometries"
               ++ List.filter (fun kv => bool_decide (kv.1 ∉ ["type"; "coordinates"; "geometries"])) m)%list)
  | _ => None
  end.

(** ** app/utils/geo.py: [bbox_from_geometries] *)

Definition is_number (j : json) : bool :=
  match j with JBool _ | JInt _ | JFloat _ => true | _ => false end.
Fixpoint flatten_coords (c : json) : list json :=
  match c with
  | JList l =>
      match l with
      | x :: y :: _ => if is_number x then [x; y] else concat (map flatten_coords l)
      | _ => concat (map flatten_coords l)
      end
  | _ => []
  end.
Fixpoint pairs {A} (l : list A) : list (A * A) :=
  match l with x :: y :: l' => (x, y) :: pairs l' | _ => [] end.
Definition geometry_points (g : option (list (string * json))) : list (json * json) :=
  match g with
  | Some m => match dict_get "coordinates" m with Some c => pairs (flatten_coords c) | None => [] end
  | None => []
  end.

(** [min(l)] and [max(l)] *)
Fixpoint py_best (better : json -> json -> option bool) (best : json) (l : list json) : option json :=
  match l with
  | [] => Some best
  | x :: l' => b ← better x best; py_best better (if (b : bool) then x else best) l'
  end.
Definition not_ordered : exn := TypeError "'<' not supported between instances".
Definition py_min (l : list json) : res json :=
  match l with
  | [] => inl (ValueError "min() iterable argument is empty")
  | x :: l' => match py_best json_lt x l' with Some y => inr y | None => inl not_ordered end
  end.
Definition py_max (l : list json) : res json :=
  match l with
  | [] => inl (ValueError "max() iterable argument is empty")
  | x :: l' => match py_best (fun a b => json_lt b a) x l' with Some y => inr y | None => inl not_ordered end
  end.

Definition four (a b c d : res json) : res json :=
  let! a := a in let! b := b in let! c := c in let! d := d in inr (JList [a; b; c; d]).
Definition bbox_from_geometries (gs : list (option (list (string * json)))) : res json :=
  let ps := concat (map geometry_points gs) in
  match ps with
  | [] => inr JNull
  | _ => four (py_min (map fst ps)) (py_min (map snd ps)) (py_max (map fst ps)) (py_max (map snd ps))
  end.

(** ** Requests and answers *)

Record ItemsQuery := mkItemsQuery {
  iq_limit : option Z;
  iq_offset : Z;
  iq_bbox : option string;
  iq_datetime : option string;
  iq_sortby : option string;
  iq_sortdesc : bool;
  iq_properties : option string;
  iq_filter : list string;
  iq_q : option string;
  iq_bbox_only : bool;
  iq_geometry : option bool;
  iq_skip_count : option bool;
  iq_query : list (string * string)
}.

Record items_page := mkPage {
  pg_features : list FeatureRead;
  pg_bbox : json;
  pg_matched : Z;
  pg_returned : Z;
  pg_next : option Z;
  pg_prev : option Z
}.
Inductive items_answer :=
  | CachedBody (body : string)
  | BoxAnswer (bbox : json) (matched : Z)
  | PageAnswer (p : items_page).

(** [FeatureGeoJSON] *)
Record feature_answer := mkFeatureAnswer {
  fa_id : string;
  fa_geometry : option (list (string * json));
  fa_properties : option (list (string * json))
}.
Inductive item_answer := ItemBox (bbox : json) | ItemFeature (f : feature_answer).

Definition is_composite_collection (c : Collection) : bool := bool_decide (c_type c = COLLECTION_TYPE_COMPOSITE).
Definition cannot_edit : string := "You do not have permission to edit this collection".

(** The collection of a request that reads, or changes, its features. *)
Definition readable_collection (c : string) (user : option User) (hidden : string) : DB Collection :=
  t ← read_all;
  coll ← row_or (tb_collections t !! c) 404 "Collection not found";
  guard_or (can_see_collection t coll user) 404 hidden;;
  mret coll.
Definition writable_collection (c : string) (user : option User) (data_only : bool) : DB Collection :=
  t ← read_all;
  coll ← row_or (tb_collections t !! c) 404 "Collection not found";
  (if data_only then ensure_vector_data_collection coll else mret tt);;
  guard_or (can_edit_collection t coll user) 403 cannot_edit;;
  mret coll.

(** The query of a link to another offset, [sorted(q.items())]. *)
Fixpoint insert_pair (x : string * string) (l : list (string * string)) : list (string * string) :=
  match l with
  | [] => [x]
  | y :: l' => if String.leb x.1 y.1 then x :: l else y :: insert_pair x l'
  end.
Definition page_href (query : list (string * string)) (new_offset limit : Z) : list (string * string) :=
  foldr insert_pair []
    (dict_set "limit" (str_of_Z limit) (dict_set "offset" (str_of_Z new_offset) (query_params query))).

Section items.
Context {geom num : Type} `{Shapely geom num} `{GeometryOps geom}.
Context `{RedisServer} `{PostgresServer} `{Entropy} `{PostGIS} `{FeatureServer} (cfg : Settings).
Context (depth : nat).

(** *** From rows to answers *)

Definition geometry_model (geom_dict : option json) : option (list (string * json)) :=
  let parsed := match geom_dict with
                | Some (JStr s) => if decide (s = "") then None else loads s
                | g => g
                end in
  match parsed with
  | Some (JObj ((_ :: _) as m)) =>
      let collection :=
        match dict_get "type" m with Some (JStr ty) => bool_decide (ty = "GeometryCollection") | _ => false end in
      let m := if collection && negb (json_truthy (default JNull (dict_get "coordinates" m))) then
                 match shape (JObj m) ≫= shapely_to_api_geojson depth with
                 | Some (JObj ((_ :: _) as m')) => m'
                 | _ => m
                 end
               else m in
      validated_geometry m
  | _ => None
  end.

(** [feature.properties] restricted to the names asked for; another value than an
    object is refused by the schema. *)
Definition read_properties (f : Feature) (include : option (list string)) :
  res (option (list (string * json))) :=
  match ft_props f, include with
  | None, _ | Some JNull, _ => inr None
  | Some (JObj m), Some keys =>
      inr (Some (match m with [] => [] | _ => List.filter (fun kv => bool_decide (kv.1 ∈ keys)) m end))
  | Some (JObj m), None => inr (Some m)
  | Some _, _ => inl (ValueError "Input should be a valid dictionary")
  end.

Definition feature_to_read (f : Feature) (include : option (list string)) : res FeatureRead :=
  let! geometry := match ft_bbox f with
                   | Some _ => inr None
                   | None => let! g := feature_geojson depth f in inr (geometry_model g)
                   end in
  let! props := read_properties f include in
  inr (mkRead (ft_id f) (ft_collection f) geometry props (ft_created f) (ft_updated f) (ft_bbox f)).

Fixpoint read_all_features (fs : list Feature) (include : option (list string)) : res (list FeatureRead) :=
  match fs with
  | [] => inr []
  | f :: fs' =>
      let! r := feature_to_read f include in
      let! rs := read_all_features fs' include in inr (r :: rs)
  end.

Definition composite_read (mid : string) (f : Feature) (r : FeatureRead) : FeatureRead :=
  mkRead (format_composite_item_id mid (ft_id f)) (rd_collection r) (rd_geometry r)
    (Some (dict_set "_member_feature_id" (JStr (ft_id f))
             (dict_set "_member_collection_id" (JStr mid) (default [] (rd_properties r)))))
    (rd_created r) (rd_updated r) (rd_bbox r).
Fixpoint read_members (rows : list (string * Feature)) (include : option (list string)) : res (list FeatureRead) :=
  match rows with
  | [] => inr []
  | (mid, f) :: rows' =>
      let! r := feature_to_read f include in
      let! rs := read_members rows' include in inr (composite_read mid f r :: rs)
  end.

(** A member of [features_geojson]. *)
Definition page_feature (r : FeatureRead) : json :=
  let props := default [] (rd_properties r) in
  let props := match dict_get "id" props with
               | Some _ => props | None => dict_set "id" (JStr (rd_id r)) props end in
  JObj ([("type", JStr "Feature"); ("id", JStr (rd_id r));
         ("geometry", match rd_geometry r with Some g => JObj g | None => JNull end);
         ("properties", JObj props)]
        ++ match rd_bbox r with Some b => [("bbox", box_json b)] | None => [] end)%list.

Definition first4 (b : json * json * json * json) : json := let '(x, _, _, _) := b in x.
Definition second4 (b : json * json * json * json) : json := let '(_, x, _, _) := b in x.
Definition third4 (b : json * json * json * json) : json := let '(_, _, x, _) := b in x.
Definition fourth4 (b : json * json * json * json) : json := let '(_, _, _, x) := b in x.
Definition extent_bbox (rs : list FeatureRead) : res json :=
  match omap rd_bbox rs with
  | [] => bbox_from_geometries (map rd_geometry rs)
  | bs => four (py_min (map first4 bs)) (py_min (map second4 bs)) (py_max (map third4 bs)) (py_max (map fourth4 bs))
  end.

(** *** [list_items] *)

Section listing.
Context (dump_page : items_page -> string).       (* orjson.dumps of the answer *)
Context (c : string) (q : ItemsQuery) (user : option User).

Definition page_limit : Z := Z.min (default (items_default_limit cfg) (iq_limit q)) (items_max_limit cfg).
Definition page_lines : list string := filter_lines (iq_filter q).
Definition page_filters : list PropertyFilter := parse_filter_param page_lines.
Definition page_legacy : list (string * string) := legacy_filters (iq_query q).
Definition page_include : option (list string) := props_include_set (iq_properties q).
Definition include_geometry : bool := default true (iq_geometry q).
Definition skip_count_eff : bool := default false (iq_skip_count q).

Definition page_key : string :=
  params_key_from_query (Params (Some page_limit) (iq_offset q) (iq_sortby q) (iq_sortdesc q) (iq_bbox q)
    (iq_datetime q) (match page_lines with [] => None | l => Some l end) (iq_q q) None (iq_properties q)).

(** The arguments of the list of the collection. *)
Definition page_args (text : option string) (structured : list PropertyFilter) (ids : list string)
    (count : option Z) (skip_count : bool) (exclude : list string) : ListArgs := {|
  la_limit := page_limit; la_offset := iq_offset q; la_bbox := bbox_tuple (iq_bbox q);
  la_start := (datetime_bounds (iq_datetime q)).1; la_end := (datetime_bounds (iq_datetime q)).2;
  la_sortby := iq_sortby q; la_sortdesc := iq_sortdesc q; la_property_filters := page_legacy;
  la_structured := structured; la_q := text; la_ids := ids; la_count := count;
  la_geometry := include_geometry; la_skip_count := skip_count; la_exclude := exclude |}.

(** Ids resolved ahead of the list, by a search token or by [eq] filters, with the text
    and the filters that are left. *)
Record search := mkSearch {
  sr_ids : option (list string);
  sr_text : option string;
  sr_filters : list PropertyFilter
}.
Definition resolve_ids (coll : Collection) (exclude : list string) : M search :=
  let text := fulltext_of (iq_q q) in
  let composite := is_composite_collection coll in
  let limit := Z.max page_limit 50 in
  if truthy text && is_exact_search_token text && negb composite then
    keys ← lift (normalize_property_index_fields (c_index_fields coll));
    ids ← transaction (resolve_exact_search_feature_ids c (opt_str text) keys limit exclude);
    mret (mkSearch (Some ids) None page_filters)
  else if nonempty page_filters && negb composite && negb (truthy text) && negb (nonempty page_legacy) then
    ids ← (match eq_conds page_filters with
           | None => mret None
           | Some _ => transaction (resolve_structured_eq_feature_ids c page_filters limit exclude)
           end);
    mret (match ids with
          | Some ids => mkSearch (Some ids) text []
          | None => mkSearch None text page_filters
          end)
  else mret (mkSearch None text page_filters).

Definition load_page (coll : Collection) (count : option Z) (s : search) (exclude : list string) : M (list FeatureRead * Z) :=
  if is_composite_collection coll then
    r ← list_composite_features_paginated cfg depth (composite_member_ids coll)
          (page_args (sr_text s) (sr_filters s) [] None skip_count_eff []);
    rows ← lift (read_members r.1 page_include);
    mret (rows, r.2)
  else
    match sr_ids s with
    | Some [] => mret ([], 0)
    | Some ids =>
        r ← transaction (list_features_paginated depth c
              (page_args None (sr_filters s) ids (Some (Z.of_nat (length ids))) true exclude));
        rows ← lift (read_all_features r.1 page_include); mret (rows, r.2)
    | None =>
        r ← transaction (list_features_paginated depth c
              (page_args (sr_text s) (sr_filters s) [] count skip_count_eff exclude));
        rows ← lift (read_all_features r.1 page_include); mret (rows, r.2)
    end.

(** The errors of the list that become answers. *)
Definition list_failed (e : exn) : M (list FeatureRead * Z) :=
  match e with
  | DBError _ | IntegrityError _ =>
      if is_items_query_timeout_error e then
        http_error 503 ("Items list query timed out. Narrow filters or retry; the server did not keep "
                        +:+ "holding a DB connection.")
      else raise e
  | _ => raise e
  end.

Definition page_of (rows : list FeatureRead) (matched : Z) (extent : json) : items_page :=
  let n := Z.of_nat (length rows) in
  mkPage rows extent matched n
    (if iq_offset q + n <? matched then Some (iq_offset q + page_limit) else None)
    (if 0 <? iq_offset q then Some (Z.max 0 (iq_offset q - page_limit)) else None).

Definition feature_collection (rows : list FeatureRead) : json :=
  JObj [("type", JStr "FeatureCollection"); ("features", JList (map page_feature rows))].
Definition has_geometry (r : FeatureRead) : bool :=
  match rd_geometry r with Some (_ :: _) => true | _ => false end.

(** The answer made of a page; the page is kept for later requests. *)
Definition answer_page (rows : list FeatureRead) (matched : Z) : M items_answer :=
  extent ← lift (extent_bbox rows);
  if iq_bbox_only q then mret (BoxAnswer extent matched)
  else
    (if include_geometry && (0 <? tiles_search_result_cache_ttl_seconds cfg) && existsb has_geometry rows
     then set_search_result cfg c page_key (dumps (feature_collection rows)) else mret tt);;
    let p := page_of rows matched extent in
    set_items_list cfg c page_key (dump_page p);;
    mret (PageAnswer p).

Definition list_items (admitted : bool) : M items_answer :=
  coll ← on_tables (readable_collection c user "Collection not found");
  feature_count ← member_feature_count c;
  if too_short (iq_q q) then
    http_error 400 ("Full-text search (q) requires at least " +:+ str_of_Z FULLTEXT_MIN_LENGTH +:+ " characters.")
  else
    cached ← (if iq_bbox_only q then mret None else get_items_list cfg c page_key);
    if truthy cached then mret (CachedBody (opt_str cached))
    else
      bulk_busy ← collection_has_destructive_bulk_activity cfg c;
      exclude ← active_shadow_exclude_job_ids cfg c;
      s ← resolve_ids coll exclude;
      r ← (if admitted then try_except (load_page coll feature_count s exclude) list_failed
           else http_error 503 "Items list is busy; try again in a moment.");
      answer_page r.1 r.2.
End listing.

(** *** [get_collection_queryables] *)

Definition get_collection_queryables (c : string) (user : option User) : M (list string) :=
  coll ← on_tables (readable_collection c user "Collection not found");
  configured ← lift (normalize_property_index_fields (c_index_fields coll));
  if is_composite_collection coll then get_composite_property_keys (composite_member_ids coll) configured
  else
    match configured with
    | [] => transaction (get_collection_property_keys c)
    | _ => mret configured
    end.

(** *** [download_items_data] *)

(** One line of the download; a row that has an id gets it as a property. *)
Definition download_line (include : option (list string)) (r : export_row) : res json :=
  let! props := let j := default JNull (ex_props r) in if json_truthy j then as_dict j else inr [] in
  let props := match include with
               | Some keys => List.filter (fun kv => bool_decide (kv.1 ∈ keys)) props
               | None => props
               end in
  let props := match dict_get "id" props with
               | Some _ => props | None => dict_set "id" (JStr (ex_id r)) props end in
  inr (JObj [("type", JStr "Feature"); ("id", JStr (ex_id r)); ("geometry", default JNull (ex_geojson r));
             ("properties", JObj props)]).
Fixpoint download_lines (include : option (list string)) (rows : list export_row) : res (list json) :=
  match rows with
  | [] => inr []
  | r :: rows' =>
      let! j := download_line include r in let! l := download_lines include rows' in inr (j :: l)
  end.

(** The buffer of the download: lines are joined until they fill a chunk. *)
Definition GEOJSONL_BATCH_SIZE : Z := 2000.
Definition GEOJSONL_CHUNK_TARGET : Z := 256 * 1024.
Fixpoint chunks (target : Z) (buf : string) (lines : list string) : list string :=
  match lines with
  | [] => if decide (buf = "") then [] else [buf]
  | l :: lines' =>
      let buf := buf +:+ l in
      if target <=? Z.of_nat (String.length buf) then buf :: chunks target "" lines'
      else chunks target buf lines'
  end.

Section download.
Context (orjson : json -> string).                 (* orjson.dumps *)
Definition geojson_line (j : json) : string := orjson j +:+ String "010" "".

Definition download_rows (fuel : nat) (c : string) (coll : Collection) (q : ItemsQuery) : TX (option (list export_row)) :=
  let b := datetime_bounds (iq_datetime q) in
  let text := fulltext_of (iq_q q) in
  if is_composite_collection coll then
    stream_composite_features_geojsonl depth fuel (composite_member_ids coll) (bbox_tuple (iq_bbox q)) b.1 b.2
      (page_legacy q) (page_filters q) text GEOJSONL_BATCH_SIZE
  else
    stream_features_geojsonl depth fuel c (bbox_tuple (iq_bbox q)) b.1 b.2
      (page_legacy q) (page_filters q) text GEOJSONL_BATCH_SIZE.

Definition downloadable_collection (c : string) (user : option User) : DB Collection :=
  t ← read_all;
  coll ← row_or (tb_collections t !! c) 404 "Collection not found";
  guard_or (bool_decide (is_Some user)) 401 "Login required";;
  guard_or (can_see_collection t coll user) 404 "Collection not found";;
  mret coll.

Definition download_items_data (fuel : nat) (c : string) (q : ItemsQuery) (user : option User) :
  M (option (list string)) :=
  coll ← on_tables (downloadable_collection c user);
  if too_short (iq_q q) then http_error 400 "Full-text search (q) requires at least 4 characters."
  else
    rows ← transaction (download_rows fuel c coll q);
    match rows with
    | None => mret None
    | Some rows =>
        lines ← lift (download_lines (page_include q) rows);
        mret (Some (chunks GEOJSONL_CHUNK_TARGET "" (map geojson_line lines)))
    end.
End download.

(** *** One feature *)

Definition found_item (coll : Collection) (c feature_id : string) : M (Feature * string) :=
  f ← get_feature cfg c feature_id;
  match f with
  | Some f => mret (f, feature_id)
  | None =>
      found ← (if is_composite_collection coll
               then get_composite_feature cfg (composite_member_ids coll) feature_id else mret None);
      match found with
      | Some (mid, f) => mret (f, format_composite_item_id mid (ft_id f))
      | None => http_error 404 "Feature not found"
      end
  end.

Definition get_item (c feature_id : string) (bbox_only : bool) (user : option User) : M item_answer :=
  coll ← on_tables (readable_collection c user "Feature not found");
  found ← found_item coll c feature_id;
  let '(f, item_id) := found in
  geom ← lift (geometry_to_geojson depth (ft_geometry f));
  if bbox_only then
    b ← lift (bbox_from_geometries
          [match geom with Some (JObj m) => Some m | _ => None end]);
    mret (ItemBox b)
  else
    props ← lift (properties_of f);
    let composite := is_composite_collection coll in
    let props :=
      if composite then
        match parse_composite_item_id item_id with
        | Some (mid, fid) => member_props mid fid props
        | None => props
        end
      else props in
    mret (ItemFeature (mkFeatureAnswer (if composite then item_id else ft_id f) (geometry_model geom) (Some props))).

(** *** Writes *)

Section writes.
Context (expanduser path_resolve : string -> string) (uuid7 : M string).

(** A path outside of the raster storage is refused. *)
Definition cog_checked {A} (m : M A) : M A :=
  try_except m (fun e =>
    match e with
    | CogPathOutsideStorageError _ => http_error 400 (exn_str e)
    | _ => raise e
    end).

Definition replace_item (c feature_id : string) (payload : FeatureReplace) (user : option User) : M unit :=
  if decide (fr_id payload <> feature_id) then http_error 400 "Feature id in body must match path"
  else
    on_tables (writable_collection c user true);;
    updated ← cog_checked (replace_feature cfg depth expanduser path_resolve c feature_id payload);
    if (updated : bool) then mret tt else http_error 404 "Feature not found".

Definition patch_item (c feature_id : string) (payload : FeaturePatch) (user : option User) : M feature_answer :=
  on_tables (writable_collection c user false);;
  f ← cog_checked (update_feature cfg depth expanduser path_resolve c feature_id payload);
  match f with
  | None => http_error 404 "Feature not found"
  | Some f =>
      geom ← lift (geometry_to_geojson depth (ft_geometry f));
      props ← lift (read_properties f None);
      mret (mkFeatureAnswer (ft_id f) (geometry_model geom) props)
  end.

Definition create_item (c : string) (payload : FeatureCreate) (user : option User) : M FeatureRead :=
  if decide (fc_collection payload <> c) then http_error 400 "collection_id in path and body must match"
  else
    on_tables (writable_collection c user true);;
    f ← cog_checked (create_feature cfg depth expanduser path_resolve uuid7 payload);
    lift (feature_to_read f None).

Definition delete_item (c feature_id : string) (user : option User) : M unit :=
  on_tables (writable_collection c user false);;
  deleted ← delete_feature c feature_id;
  if (deleted : bool) then mret tt else http_error 404 "Feature not found".
End writes.
End items.
