(* ===== verification/ItemAccess.v ===== *)
(** * Who may read and write features, and what a write request does

    The requests on the items of a collection are checked before anything is read or
    written; a write that is allowed does to the database what the writes of
    [FeatureWrites] do, and empties the caches of tiles and searches of the
    collection. *)

From S2P Require Import Prelude PyTime Redis Postgres Tables World Database Json Mutex JobStore BulkActivity.
From S2P Require Import CopyFormat Subdivide CopyIngest Session Permissions Styles Collections PropertyFilters.
From S2P Require Import FeatureRows DynamicCache Features FeatureDemo FeaturePaging FeatureWrites UploadSessions CompositeItems ItemParams Items.

(** ** Requests *)

Inductive item_request :=
  | ListItems (q : ItemsQuery) (admitted : bool)
  | Queryables
  | DownloadItems (fuel : nat) (q : ItemsQuery)
  | GetItem (id : string) (bbox_only : bool)
  | PutItem (id : string) (payload : FeatureReplace)
  | PatchItem (id : string) (payload : FeaturePatch)
  | PostItem (payload : FeatureCreate)
  | DeleteItem (id : string).
Definition is_read (r : item_request) : bool :=
  match r with ListItems _ _ | Queryables | DownloadItems _ _ | GetItem _ _ => true | _ => false end.

Section access.
Context {geom num : Type} `{Shapely geom num} `{GeometryOps geom}.
Context `{RedisServer} `{Entropy} `{PostGIS} `{FeatureServer} (cfg : Settings) (depth : nat).
Context (dump_page : items_page -> string) (orjson : json -> string).
Context (expanduser path_resolve : string -> string) (uuid7 : M string).

(** The effect of a request on the world, without its answer. *)
Definition handle_item (r : item_request) (c : string) (user : option User) : M unit :=
  match r with
  | ListItems q admitted => list_items cfg depth dump_page c q user admitted;; mret tt
  | Queryables => get_collection_queryables c user;; mret tt
  | DownloadItems fuel q => download_items_data depth orjson fuel c q user;; mret tt
  | GetItem id bbox_only => get_item cfg depth c id bbox_only user;; mret tt
  | PutItem id payload => replace_item cfg depth expanduser path_resolve c id payload user
  | PatchItem id payload => patch_item cfg depth expanduser path_resolve c id payload user;; mret tt
  | PostItem payload => create_item cfg depth expanduser path_resolve uuid7 c payload user;; mret tt
  | DeleteItem id => delete_item c id user
  end.

Definition item_allowed (r : item_request) (t : tables) (c : string) (user : option User) : bool :=
  match tb_collections t !! c with
  | Some coll => (if is_read r then can_see_collection else can_edit_collection) t coll user
  | None => false
  end.

(** The check in front of a request refuses it. *)
Definition refuses {A} (m : DB A) (t : tables) : Prop :=
  exists code detail, m t = (inl (HTTPException code (JStr detail)), t) /\ code ∈ [400; 401; 403; 404].
Definition refused {A} (m : M A) (w : world) : Prop :=
  exists code detail, m w = (inl (HTTPException code (JStr detail)), w) /\ code ∈ [400; 401; 403; 404].

Lemma refuses_row {A B} (x : option A) code d (f : A -> DB B) t :
  code ∈ [400; 401; 403; 404] -> (forall a, x = Some a -> refuses (f a) t) -> refuses (row_or x code d ≫= f) t.
Proof. intros Hc Hf. destruct x as [a|]; [by apply (Hf a)|]. by exists code, d. Qed.
Lemma refuses_guard {B} b code d (f : unit -> DB B) t :
  code ∈ [400; 401; 403; 404] -> (b = true -> refuses (f tt) t) -> refuses (guard_or b code d ≫= f) t.
Proof. intros Hc Hf. destruct b; [by apply Hf|]. by exists code, d. Qed.

Lemma readable_refuses c user hidden t :
  item_allowed Queryables t c user = false -> refuses (readable_collection c user hidden) t.
Proof.
  unfold item_allowed, readable_collection. intros Ha. unfold refuses. rewrite read_all_run.
  apply refuses_row; [set_solver|]. intros coll Hc. rewrite Hc in Ha. cbn in Ha.
  apply refuses_guard; [set_solver|]. by rewrite Ha.
Qed.
Lemma downloadable_refuses c user t :
  item_allowed Queryables t c user = false -> refuses (downloadable_collection c user) t.
Proof.
  unfold item_allowed, downloadable_collection. intros Ha. unfold refuses. rewrite read_all_run.
  apply refuses_row; [set_solver|]. intros coll Hc. rewrite Hc in Ha. cbn in Ha.
  apply refuses_guard; [set_solver|]. intros _. apply refuses_guard; [set_solver|]. by rewrite Ha.
Qed.
Lemma writable_refuses c user data_only t id :
  item_allowed (DeleteItem id) t c user = false -> refuses (writable_collection c user data_only) t.
Proof.
  unfold item_allowed, writable_collection. intros Ha. unfold refuses. rewrite read_all_run.
  apply refuses_row; [set_solver|]. intros coll Hc. rewrite Hc in Ha. cbn in Ha.
  assert (refuses (guard_or (can_edit_collection t coll user) 403 cannot_edit;; mret coll) t) as Hg
    by (apply refuses_guard; [set_solver|]; by rewrite Ha).
  destruct data_only; [|exact Hg].
  apply refuses_guard; [set_solver|]. intros _. exact Hg.
Qed.

Lemma refused_bind {A B} (m : M A) (f : A -> M B) w : refused m w -> refused (m ≫= f) w.
Proof. intros (code & d & Hm & Hc). exists code, d. by rewrite bind_run, Hm. Qed.
Lemma refused_tables {A} (m : DB A) w : refuses m (w_tables w) -> refused (on_tables m) w.
Proof.
  intros (code & d & Hm & Hc). exists code, d. rewrite on_tables_run, Hm. split; [|done].
  by destruct w as [?????????[]].
Qed.

(** C23. Every request on the features of a collection is checked first: a caller who may
    not see the collection gets no list, download, item or property names, one who may
    not edit it writes nothing, and neither does a request for a collection that is not
    there; the answer is an HTTP error and the world is as it was. *)
Theorem items_access_checked (r : item_request) (c : string) (user : option User) (w : world) :
  item_allowed r (w_tables w) c user = false -> refused (handle_item r c user) w.
Proof.
  intros Ha. destruct r; cbn [handle_item]; repeat apply refused_bind.
  1-4: apply refused_tables; (apply readable_refuses || apply downloadable_refuses); exact Ha.
  1: unfold replace_item; case_decide; [by eexists 400, _; split; [|set_solver]|].
  3: unfold create_item; case_decide; [by eexists 400, _; split; [|set_solver]|].
  all: repeat apply refused_bind; apply refused_tables; eapply (writable_refuses _ _ _ _ ""); exact Ha.
Qed.
End access.

(** ** What an allowed write does *)

Section writes.
Context {geom num : Type} `{Shapely geom num} `{GeometryOps geom}.
Context `{RedisLaws} `{Entropy} `{FeatureLaws} (cfg : Settings) (depth : nat).
Context (expanduser path_resolve : string -> string).

(** The requests that replace and delete a feature, and what they write. *)
Inductive feature_request :=
  | Replace (payload : FeatureReplace)
  | Delete.
Definition request_op (r : feature_request) : write_op (geom := geom) :=
  match r with Replace p => OpReplace (fr_geometry p) (fr_properties p) | Delete => OpDelete end.
Definition send (r : feature_request) (c id : string) (user : option User) : M unit :=
  match r with
  | Replace p => replace_item cfg depth expanduser path_resolve c id p user
  | Delete => delete_item c id user
  end.
(** The body names the feature of the path and the collection takes the request. *)
Definition well_addressed (r : feature_request) (id : string) (coll : Collection) : Prop :=
  match r with Replace p => fr_id p = id /\ c_type coll = COLLECTION_TYPE_VECTOR | Delete => True end.

Lemma writable_run c coll user data_only t :
  tb_collections t !! c = Some coll -> can_edit_collection t coll user = true ->
  (data_only = true -> c_type coll = COLLECTION_TYPE_VECTOR) ->
  writable_collection c user data_only t = (inr coll, t).
Proof.
  intros Hc He Hd. unfold writable_collection. rewrite read_all_run, row_or_run, Hc.
  assert ((guard_or (can_edit_collection t coll user) 403 cannot_edit;; mret coll) t = (inr coll, t)) as Hg
    by by rewrite guard_or_run, He.
  destruct data_only; [|exact Hg]. unfold ensure_vector_data_collection, collection_type_in.
  rewrite guard_or_run, bool_decide_eq_true_2; [exact Hg|]. rewrite Hd by done. set_solver.
Qed.

Lemma part_of_id r : p_id (part_of r) = r_id r.
Proof. unfold part_of. by destruct (map copy_field _) as [|? [|? [|? [|? [|? ?]]]]]. Qed.

(** A feature that has rows is found. *)
Lemma get_feature_there c id w :
  db_quiet w -> bulk_replace_shadow_import cfg = false -> rows_of_id (w_db w) c id <> [] ->
  exists f, get_feature cfg c id w = (inr (Some f), w).
Proof.
  intros Hq Hs Hr. unfold get_feature, active_shadow_exclude_job_ids. rewrite Hs, bind_run, ret_run.
  assert (exists f, get_feature_tx [] c id (w_db w) = (inr (Some f), w_db w)) as [f Hf].
  { unfold get_feature_tx. rewrite tx_bind_run. unfold fstmt.
    rewrite fexec_run; [|done|apply no_breaks_nil]. cbn [frun]. case_decide as Hd; [|by eexists].
    apply elem_of_ids in Hr. unfold ids_of in Hr.
    apply elem_of_remove_dups, list_elem_of_fmap in Hr as (r & -> & Hin).
    assert (part_of r ∈ of_id (r_id r) (selected [] (parts_of (w_db w) c))) as Hp.
    { apply elem_of_of_id. split; [|apply part_of_id]. apply elem_of_selected.
      split; [|done]. by apply list_elem_of_fmap_2. }
    rewrite Hd in Hp. by apply not_elem_of_nil in Hp. }
  exists f. rewrite (transaction_ok _ w _ _ Hq Hf). by destruct w as [?????????[]].
Qed.

(** C7. An allowed request that replaces or deletes a feature that is there succeeds,
    when shadow imports are off, the stored count of the collection is exact and the
    body of a replacement names the feature and can be stored as rows: the feature
    has the new rows, or none, every other feature and collection is as it was, and
    the stored count is exact again.  Of Redis, exactly the keys the invalidation
    of the collection matches are gone - for an id without the bytes [* ? [ \] all
    its cached tiles and searches - and nothing else has changed. *)
Theorem item_write_refines (r : feature_request) (c id : string) (user : option User) (coll : Collection)
    (l : list frow) (w : world) :
  quiet w -> db_quiet w -> bulk_replace_shadow_import cfg = false ->
  tb_collections (w_tables w) !! c = Some coll -> can_edit_collection (w_tables w) coll user = true ->
  well_addressed r id coll ->
  db_wf (w_db w) -> count_exact (w_db w) c -> rows_of_id (w_db w) c id <> [] ->
  rows_written cfg depth expanduser path_resolve (request_op r) c id (w_now w) = inr l ->
  keeps_rows (request_op r) l ->
  exists db' ks, send r c id user w = (inr tt, with_redis (with_db w db') ks)
    /\ written c id l (w_db w) db'
    /\ forgets (invalidated c) (w_now w) (w_redis w) ks
    /\ (plain_pattern c = true -> forall t q k, k ∈ cache_keys c t q -> peek (w_now w) ks k = None).
Proof.
  intros Hq Hdq Hsh Hc He Had Hw Hco Hr Hl Hk. destruct r as [p|]; cbn [send request_op] in *.
  - destruct Had as [Hid Hty].
    destruct (replace_refines cfg depth expanduser path_resolve c id _ _ (w_now w) l (w_db w) Hw Hr Hl Hk Hco)
      as (db' & Hrun & Hwr). destruct (invalidate_run c (with_db w db') Hq) as (ks & Hinv & Hks).
    exists db', ks. split; [|split; [done|split; [done|by eapply forgets_own]]]. unfold replace_item. rewrite decide_False by (intros ?; done).
    rewrite bind_run, on_tables_run, (writable_run c coll user true) by done. cbn [fst snd].
    assert (with_tables w (w_tables w) = w) as -> by by destruct w as [?????????[]].
    assert (replace_tx cfg depth expanduser path_resolve c id p (w_now w) (w_db w) = (inr tt, db')) as Htx.
    { cbn [run_write] in Hrun. rewrite tx_bind_run in Hrun. destruct p as [pid g props]. cbn in *. subst pid.
      destruct (replace_tx _ _ _ _ _ _ _ _ _) as [[e|[]] db1]; [done|]. by injection Hrun as ->. }
    assert (replace_feature cfg depth expanduser path_resolve c id p w
            = (inr true, with_redis (with_db w db') ks)) as Hrep.
    { destruct (get_feature_there c id w) as [f Hf]; [done..|]. unfold replace_feature.
      rewrite bind_run, Hf, bind_run, get_now_run, bind_run.
      by rewrite (transaction_ok _ w _ _ Hdq Htx), bind_run, Hinv. }
    unfold cog_checked. by rewrite bind_run, (try_except_ok _ _ _ _ _ Hrep).
  - injection Hl as <-.
    destruct (delete_refines cfg depth expanduser path_resolve c id (w_now w) (w_db w) Hw Hr Hco) as (db' & Hrun & Hwr).
    destruct (invalidate_run c (with_db w db') Hq) as (ks & Hinv & Hks).
    exists db', ks. split; [|split; [done|split; [done|by eapply forgets_own]]]. unfold delete_item.
    rewrite bind_run, on_tables_run, (writable_run c coll user false) by done. cbn [fst snd].
    assert (with_tables w (w_tables w) = w) as -> by by destruct w as [?????????[]].
    cbn [run_write] in Hrun. unfold delete_feature. rewrite bind_run, bind_run, (transaction_ok _ w _ _ Hdq Hrun).
    by rewrite bind_run, Hinv.
Qed.
End writes.

(** ** Witnesses *)

Definition towns_world : world :=
  with_db (with_tables empty_world (style_tables [demo_collection "towns" 1 "private" "vector"] [])) towns_db.

Lemma items_access_checked_witness :
  refused (@handle_item _ _ demo_shapely plain_geometry reference_server reference_entropy
    (@reference_features plain_postgis) default_settings 9 (fun _ => "") dumps (fun p => p) (fun p => p) (mret "x")
    (DeleteItem "a") "towns" (Some bo)) towns_world.
Proof.
  apply (@items_access_checked _ _ demo_shapely plain_geometry reference_server reference_entropy
    (@reference_features plain_postgis) default_settings 9 (fun _ => "") dumps (fun p => p) (fun p => p) (mret "x")
    (DeleteItem "a") "towns" (Some bo) towns_world). by vm_compute.
Defined.

Lemma item_write_refines_witness :
  exists db' ks,
    @send _ _ demo_shapely reference_server reference_entropy (@reference_features plain_postgis)
      default_settings 9 (fun p => p) (fun p => p)
      (Replace (mkFeatureReplace "a" (Some (points_json [(1, 1)])) (Some [("name", JStr "n")])))
      "towns" "a" (Some ana) towns_world
    = (inr tt, with_redis (with_db towns_world db') ks)
    /\ written "towns" "a"
         [new_row "a" "towns" 0 (Some (dumps (points_json []))) (PText (dumps (JObj [("name", JStr "n")]))) None
            (now_utc 0)] towns_db db'
    /\ forgets (invalidated "towns") 0 ∅ ks
    /\ (plain_pattern "towns" = true -> forall t q k, k ∈ cache_keys "towns" t q -> peek 0 ks k = None).
Proof.
  apply (@item_write_refines _ _ demo_shapely reference_server _ reference_entropy plain_postgis
    (@reference_features plain_postgis) _ default_settings 9 (fun p => p) (fun p => p)
    (Replace (mkFeatureReplace "a" (Some (points_json [(1, 1)])) (Some [("name", JStr "n")])))
    "towns" "a" (Some ana) (demo_collection "towns" 1 "private" "vector") _ towns_world);
    try exact towns_counted; try done.
  all: by vm_compute.
Defined.
