(* ===== verification/ItemPages.v ===== *)
(** * Following the pages of a list of features, and defects of the lists

    The next link of a page of [Items.list_items] leads to the offset after it.
    [follow] requests the pages one after the other; the theorem says that this gives
    every feature once.  The examples show what the cache of lists and the search by
    equality do. *)

From S2P Require Import Prelude PyTime Redis Postgres Tables World Database Json Mutex JobStore BulkActivity.
From S2P Require Import SideQueues CopyFormat Subdivide CopyIngest Session Permissions Styles Collections PropertyFilters.
From S2P Require Import FeatureRows DynamicCache Features FeatureDemo FeaturePaging UploadSessions CompositeItems ItemParams Items ItemAccess.

(** ** Extents *)

(** Every coordinate is a number. *)
Definition numeric (p : json * json) : bool := is_number p.1 && is_number p.2.
Definition located (r : FeatureRead) : bool :=
  forallb numeric (geometry_points (rd_geometry r))
  && match rd_bbox r with Some (a, b, c, d) => forallb is_number [a; b; c; d] | None => true end.

Lemma number_lt_some x y : is_number x = true -> is_number y = true -> exists b, json_lt x y = Some b.
Proof. destruct x, y; try done; intros _ _; by eexists. Qed.

Lemma best_number (better : json -> json -> option bool) x l :
  (forall a b, is_number a = true -> is_number b = true -> exists r, better a b = Some r) ->
  is_number x = true -> Forall (fun y => is_number y = true) l -> exists y, py_best better x l = Some y.
Proof.
  intros Hb Hx Hl. revert x Hx. induction Hl as [|y l Hy _ IH]; intros x Hx; cbn; [by eexists|].
  destruct (Hb y x Hy Hx) as [r ->]. cbn. apply IH. by destruct r.
Qed.
Lemma min_number x l : Forall (fun y => is_number y = true) (x :: l) -> exists y, py_min (x :: l) = inr y.
Proof.
  intros [Hx Hl]%Forall_cons. cbn [py_min].
  destruct (best_number json_lt x l number_lt_some Hx Hl) as [y ->]. by eexists.
Qed.
Lemma max_number x l : Forall (fun y => is_number y = true) (x :: l) -> exists y, py_max (x :: l) = inr y.
Proof.
  intros [Hx Hl]%Forall_cons. cbn [py_max].
  destruct (best_number (fun a b => json_lt b a) x l) as [y ->]; [|done|done|by eexists].
  intros a b Ha Hb. by apply number_lt_some.
Qed.
Lemma four_ok a b c d :
  (exists x, a = inr x) -> (exists x, b = inr x) -> (exists x, c = inr x) -> (exists x, d = inr x) ->
  exists e, four a b c d = inr e.
Proof. intros [? ->] [? ->] [? ->] [? ->]. by eexists. Qed.

Lemma numbers_of {A} (f : A -> json) (l : list A) :
  Forall (fun x => is_number (f x) = true) l -> Forall (fun y => is_number y = true) (map f l).
Proof. by rewrite Forall_map. Qed.

Lemma extent_known rs : Forall (fun r => located r = true) rs -> exists e, extent_bbox rs = inr e.
Proof.
  intros Hl. unfold extent_bbox. destruct (omap rd_bbox rs) as [|b bs] eqn:Hb.
  - unfold bbox_from_geometries.
    assert (Forall (fun p => numeric p = true) (concat (map geometry_points (map rd_geometry rs)))) as Hp.
    { clear Hb. induction Hl as [|r rs Hr _ IH]; [constructor|]. cbn. apply Forall_app. split; [|done].
      apply andb_true_iff in Hr as [Hr _]. rewrite forallb_forall in Hr.
      apply Forall_forall. intros p Hp%list_elem_of_In. by apply Hr. }
    destruct (concat _) as [|p ps]; [by eexists|].
    apply four_ok; (apply min_number || apply max_number); apply (numbers_of _ (p :: ps));
      (eapply Forall_impl; [exact Hp|]); by intros ? [??]%andb_true_iff.
  - assert (Forall (fun b => is_number (first4 b) && is_number (second4 b) && is_number (third4 b)
                             && is_number (fourth4 b) = true) (b :: bs)) as Hn.
    { rewrite <-Hb. clear Hb. induction Hl as [|r rs Hr _ IH]; [constructor|]. cbn.
      apply andb_true_iff in Hr as [_ Hr]. destruct (rd_bbox r) as [[[[? ?] ?] ?]|]; [|done].
      constructor; [|done]. cbn in *. by rewrite !andb_true_r, <-!andb_assoc in *. }
    apply four_ok; (apply min_number || apply max_number); apply (numbers_of _ (b :: bs));
      (eapply Forall_impl; [exact Hn|]); by intros ? [[[??]%andb_true_iff ?]%andb_true_iff ?]%andb_true_iff.
Qed.

(** ** Following the next links *)

Lemma readable_run c coll user hidden t :
  tb_collections t !! c = Some coll -> can_see_collection t coll user = true ->
  readable_collection c user hidden t = (inr coll, t).
Proof.
  intros Hc Hs. unfold readable_collection. by rewrite read_all_run, row_or_run, Hc, guard_or_run, Hs.
Qed.

Section follow.
Context {geom num : Type} `{Shapely geom num} `{GeometryOps geom}.
Context `{RedisServer} `{Entropy} `{FeatureLaws} `{!PostGISLaws} (cfg : Settings).
Context (depth : nat) (dump_page : items_page -> string).
Context (c : string) (q : ItemsQuery) (user : option User).

(** The same request with another offset, as the links of a page make it. *)
Definition at_offset (offset : Z) : ItemsQuery :=
  mkItemsQuery (iq_limit q) offset (iq_bbox q) (iq_datetime q) (iq_sortby q) (iq_sortdesc q)
    (iq_properties q) (iq_filter q) (iq_q q) (iq_bbox_only q) (iq_geometry q) (iq_skip_count q) (iq_query q).

(** The client asks for the page of an offset and goes on to the next link; [None]
    when the fuel is used up. *)
Fixpoint follow (fuel : nat) (offset : Z) : M (option (list FeatureRead)) :=
  match fuel with
  | O => mret None
  | S fuel' =>
      a ← list_items cfg depth dump_page c (at_offset offset) user true;
      match a with
      | PageAnswer p =>
          match pg_next p with
          | None => mret (Some (pg_features p))
          | Some next => rest ← follow fuel' next; mret ((pg_features p ++.)%list <$> rest)
          end
      | _ => mret None
      end
  end.

(** A list of features by id: no text, no structured filter, the count not skipped. *)
Definition plain_list : bool :=
  negb (iq_bbox_only q) && bool_decide (fulltext_of (iq_q q) = None) && negb (nonempty (page_filters q))
  && negb (skip_count_eff q).

(** The arguments of the list of the collection. *)
Definition list_args (count : option Z) : ListArgs := page_args cfg q None [] [] count false [].

Context (w : world) (coll : Collection) (count : Z).

(** A vector collection that the caller may see, in a world where nothing else happens
    and no list is kept; the cached count is right when the list has no filter. *)
Record listable : Prop := {
  li_quiet : db_quiet w;
  li_row : tb_collections (w_tables w) !! c = Some coll;
  li_seen : can_see_collection (w_tables w) coll user = true;
  li_vector : is_composite_collection coll = false;
  li_no_list_cache : collections_items_cache_ttl_seconds cfg <= 0;
  li_no_search_cache : tiles_search_result_cache_ttl_seconds cfg <= 0;
  li_no_shadow : bulk_replace_shadow_import cfg = false;
  li_flag : exists b, collection_has_destructive_bulk_activity cfg c w = (inr b, w);
  li_count : member_feature_count c w = (inr (Some count), w);
  li_plain : plain_list = true;
  li_limit : 0 < page_limit cfg q;
  li_order : ordered_by_id (list_args (Some count)) = true;
  li_unique : unique_parts (parts_of (w_db w) c);
  li_sound : no_breaks (list_conds (list_args (Some count))) (parts_of (w_db w) c) = true;
  li_right : has_filters (list_args (Some count)) = false ->
    count = Z.of_nat (length (listed c (list_args (Some count)) (w_db w)))
}.

(** The features of the list can be read and shown. *)
Definition shown (fs : list Feature) (rows : list FeatureRead) : Prop :=
  built depth c (list_args (Some count)) (w_db w) fs
  /\ read_all_features depth fs (page_include q) = inr rows
  /\ Forall (fun r => located r = true) rows.

Lemma read_all_ids fs include rows :
  read_all_features depth fs include = inr rows -> map rd_id rows = map ft_id fs.
Proof.
  revert rows. induction fs as [|f fs IH]; intros rows; cbn; [by intros [= <-]|].
  unfold feature_to_read at 1. intros Hr.
  destruct (match ft_bbox f with Some _ => _ | None => _ end) as [e|g]; [done|]. cbn in Hr.
  destruct (read_properties f include) as [e|p]; [done|]. cbn in Hr.
  destruct (read_all_features depth fs include) as [e|rs]; [done|]. cbn in Hr. injection Hr as <-.
  cbn. by rewrite (IH rs eq_refl).
Qed.

Lemma read_all_app fs gs include rows :
  read_all_features depth (fs ++ gs)%list include = inr rows ->
  exists r1 r2, rows = (r1 ++ r2)%list /\ read_all_features depth fs include = inr r1
    /\ read_all_features depth gs include = inr r2 /\ length r1 = length fs /\ length r2 = length gs.
Proof.
  intros Hr. assert (length rows = length (fs ++ gs)%list) as Hlen
    by (by rewrite <-(length_map rd_id), (read_all_ids _ _ _ Hr), length_map).
  revert rows Hr Hlen. induction fs as [|f fs IH]; intros rows Hr Hlen; cbn in Hr |- *.
  - exists [], rows. done.
  - destruct (feature_to_read depth f include) as [e|r]; [done|]. cbn in Hr.
    destruct (read_all_features depth (fs ++ gs)%list include) as [e|rs] eqn:Hrs; [done|]. cbn in Hr.
    injection Hr as <-. cbn in Hlen.
    destruct (IH rs eq_refl ltac:(lia)) as (r1 & r2 & -> & H1' & H2' & Hl1 & Hl2).
    exists (r :: r1), r2. rewrite H1'. cbn. by rewrite Hl1.
Qed.

Lemma read_all_page fs include rows lim off :
  read_all_features depth fs include = inr rows ->
  read_all_features depth (page lim off fs) include = inr (page lim off rows).
Proof.
  intros Hr. unfold page. set (n := Z.to_nat off). set (m := Z.to_nat lim).
  rewrite <-(take_drop n fs) in Hr.
  destruct (read_all_app _ _ _ _ Hr) as (r1 & r2 & -> & _ & Hd & Hl1 & Hl2).
  assert (drop n (r1 ++ r2)%list = r2) as Hdr.
  { rewrite length_take in Hl1. rewrite length_drop in Hl2. destruct (decide (n <= length fs)%nat).
    - rewrite drop_app_ge by lia. by replace (n - length r1)%nat with 0%nat by lia.
    - rewrite drop_ge by (rewrite length_app; lia). destruct r2; [done|cbn in Hl2; lia]. }
  rewrite Hdr. rewrite <-(take_drop m (drop n fs)) in Hd.
  destruct (read_all_app _ _ _ _ Hd) as (s1 & s2 & -> & Hs & _ & Hl3 & Hl4). rewrite Hs. f_equal.
  rewrite length_take in Hl3. rewrite length_drop in Hl4. destruct (decide (m <= length (drop n fs))%nat).
  - by rewrite take_app_length' by lia.
  - rewrite take_ge by (rewrite length_app; lia). destruct s2; [by rewrite app_nil_r|cbn in Hl4; lia].
Qed.

Lemma not_short text : fulltext_of text = None -> too_short text = false.
Proof. unfold fulltext_of, too_short. by destruct (decide _) as [->|]. Qed.
Lemma no_list_cached key w' :
  collections_items_cache_ttl_seconds cfg <= 0 -> get_items_list cfg c key w' = (inr None, w').
Proof. intros Ht. unfold get_items_list, cached. by rewrite (proj2 (Z.leb_le _ _) Ht). Qed.

(** One page. *)
Lemma list_items_run fs rows offset :
  listable -> shown fs rows -> 0 <= offset ->
  exists extent,
    list_items cfg depth dump_page c (at_offset offset) user true w
    = (inr (PageAnswer (page_of cfg (at_offset offset) (page (page_limit cfg q) offset rows)
                          (Z.of_nat (length rows)) extent)), w).
Proof.
  intros L (Hb & Hr & Hloc) Ho.
  destruct (extent_known (page (page_limit cfg q) offset rows)) as [extent He].
  { apply Forall_take, Forall_drop, Hloc. }
  exists extent. pose proof (li_plain L) as Hp. unfold plain_list in Hp.
  rewrite !andb_true_iff, !negb_true_iff, bool_decide_eq_true in Hp. destruct Hp as [[[Hbox Htext] Hfil] Hskip].
  unfold list_items. change (iq_q (at_offset offset)) with (iq_q q).
  change (iq_bbox_only (at_offset offset)) with (iq_bbox_only q).
  rewrite bind_run, on_tables_run, (readable_run _ coll _ _ _ (li_row L) (li_seen L)). cbn [fst snd].
  assert (with_tables w (w_tables w) = w) as -> by by destruct w as [?????????[]].
  rewrite bind_run, (li_count L), (not_short _ Htext), Hbox.
  rewrite bind_run, (no_list_cached _ _ (li_no_list_cache L)). cbn [truthy].
  destruct (li_flag L) as [b Hflag]. rewrite bind_run, Hflag.
  unfold active_shadow_exclude_job_ids. rewrite (li_no_shadow L), bind_run, ret_run.
  unfold resolve_ids. change (iq_q (at_offset offset)) with (iq_q q).
  change (page_filters (at_offset offset)) with (page_filters q). rewrite Htext, Hfil. cbn [truthy andb].
  rewrite bind_run, ret_run.
  destruct (page_filters q); [|done].
  rewrite bind_run, (try_except_ok _ _ _ (page (page_limit cfg q) offset rows, Z.of_nat (length rows)) w).
  - unfold answer_page. cbn [fst snd]. rewrite bind_run. unfold lift. rewrite He.
    change (iq_bbox_only (at_offset offset)) with (iq_bbox_only q). rewrite Hbox.
    assert ((0 <? tiles_search_result_cache_ttl_seconds cfg) = false) as -> by (apply Z.ltb_ge, L).
    rewrite andb_false_r. cbn [andb]. rewrite bind_run, ret_run. unfold set_items_list, store.
    rewrite (proj2 (Z.leb_le _ _) (li_no_list_cache L)). by rewrite bind_run, ret_run.
  - unfold load_page. rewrite (li_vector L). cbn [sr_ids sr_text sr_filters].
    change (skip_count_eff (at_offset offset)) with (skip_count_eff q). rewrite Hskip.
    set (a := page_args cfg (at_offset offset) None [] [] (Some count) false []).
    pose proof (page_run depth c a (w_db w) fs (li_order L) (li_unique L) (li_sound L) Hb) as Hpage.
    specialize (Hpage (Z.lt_le_incl _ _ (li_limit L)) Ho).
    rewrite bind_run, (transaction_ok _ w _ (w_db w) (li_quiet L) Hpage).
    assert (with_db w (w_db w) = w) as -> by by destruct w as [?????????[]].
    rewrite bind_run. unfold lift. cbn [fst snd].
    change (page_include (at_offset offset)) with (page_include q).
    change (la_limit a) with (page_limit cfg q). change (la_offset a) with offset.
    rewrite (read_all_page _ _ _ _ _ Hr), ret_run. do 3 f_equal.
    assert (length rows = length fs) as -> by
      (by rewrite <-(length_map rd_id), (read_all_ids _ _ _ Hr), length_map).
    unfold total_of. change (exact_total a) with (has_filters a || false). rewrite orb_false_r.
    destruct (has_filters a) eqn:Hf; [done|]. unfold given_total. rewrite Hf. cbn.
    rewrite (li_right L Hf). destruct Hb as [Hids _]. by rewrite <-Hids, length_map.
Qed.

Lemma follow_from fs rows fuel offset :
  listable -> shown fs rows -> 0 <= offset -> offset <= Z.of_nat (length rows) ->
  Z.of_nat (length rows) - offset < Z.of_nat fuel ->
  follow fuel offset w = (inr (Some (drop (Z.to_nat offset) rows)), w).
Proof.
  intros L Hs. revert offset. induction fuel as [|fuel IH]; intros offset Ho Hoff Hf; [lia|]. cbn [follow].
  destruct (list_items_run fs rows offset L Hs Ho) as [extent Hrun]. rewrite bind_run, Hrun.
  set (l := page (page_limit cfg q) offset rows). cbn [page_of pg_next pg_features].
  change (iq_offset (at_offset offset)) with offset.
  change (page_limit cfg (at_offset offset)) with (page_limit cfg q).
  pose proof (li_limit L) as Hlim.
  assert (length l = Nat.min (Z.to_nat (page_limit cfg q)) (length rows - Z.to_nat offset)) as Hl
    by (unfold l, page; by rewrite length_take, length_drop).
  destruct (Z.ltb_spec (offset + Z.of_nat (length l)) (Z.of_nat (length rows))).
  - assert (offset + page_limit cfg q < Z.of_nat (length rows)) as Hn by lia.
    rewrite bind_run, IH by lia. rewrite ret_run. cbn [fmap option_fmap option_map]. do 3 f_equal.
    unfold l, page. replace (Z.to_nat (offset + page_limit cfg q))
      with (Z.to_nat offset + Z.to_nat (page_limit cfg q))%nat by lia.
    by rewrite <-drop_drop, take_drop.
  - rewrite ret_run. do 3 f_equal. unfold l, page. apply take_ge. rewrite length_drop. lia.
Qed.

(** C24. Where lists are not kept, the next links of a list give all of it.  For a vector
    collection that the caller may see, with both caches of lists and searches turned off
    and shadow imports off, a list ordered by id that has no [filter] parameters and no
    text search and does not skip its count, whose features can be shown and whose stored
    count is right when it is used: following the next links from the first page on gives
    every feature that matches its box, times and name filters exactly once, in the order
    of the ids, and ends after at most one request more than there are features.  (Kept
    lists, filters by equality and several [filter] parameters break this:
    [kept_list_shows_deleted], [equality_filter_cuts_list], [next_link_loses_filters].) *)
Theorem next_links_give_all (fs : list Feature) (rows : list FeatureRead) :
  listable -> shown fs rows ->
  map rd_id rows = listed c (list_args (Some count)) (w_db w) /\ NoDup (map rd_id rows)
  /\ forall fuel, (length rows < fuel)%nat -> follow fuel 0 w = (inr (Some rows), w).
Proof.
  intros L Hs. pose proof Hs as ((Hids & _) & Hr & _). rewrite (read_all_ids _ _ _ Hr), Hids.
  split; [done|]. split; [apply sort_ids_NoDup, distinct_ids_NoDup|]. intros fuel Hf.
  rewrite (follow_from fs rows fuel 0 L Hs) by lia. done.
Qed.
End follow.

(** ** Examples *)

Definition no_query : ItemsQuery :=
  mkItemsQuery None 0 None None None false None [] None false None None [].
Definition with_limit (limit : Z) (q : ItemsQuery) : ItemsQuery :=
  mkItemsQuery (Some limit) (iq_offset q) (iq_bbox q) (iq_datetime q) (iq_sortby q) (iq_sortdesc q)
    (iq_properties q) (iq_filter q) (iq_q q) (iq_bbox_only q) (iq_geometry q) (iq_skip_count q) (iq_query q).
(** [?name=value] *)
Definition with_name (value : string) (q : ItemsQuery) : ItemsQuery :=
  mkItemsQuery (iq_limit q) (iq_offset q) (iq_bbox q) (iq_datetime q) (iq_sortby q) (iq_sortdesc q)
    (iq_properties q) (iq_filter q) (iq_q q) (iq_bbox_only q) (iq_geometry q) (iq_skip_count q)
    [("name", value)].
Definition ids_of (p : items_page) : string := join " " (map rd_id (pg_features p)).

Definition list_demo (cfg : Settings) (c : string) (q : ItemsQuery) (user : option User) : M items_answer :=
  @list_items _ _ demo_shapely plain_geometry reference_server reference_entropy demo_server cfg 9
    ids_of c q user true.

Definition no_caches : Settings := settings_with_caches 0 0.
Definition town_read (f : Feature) : FeatureRead :=
  mkRead (ft_id f) "towns" (match ft_geojson f with Some (JObj m) => Some m | _ => None end)
    (match ft_props f with Some (JObj m) => Some m | _ => None end) (us 60) (us 60) None.

Lemma next_links_give_all_witness :
  map rd_id [town_read north; town_read south] = ["a"; "b"]
  /\ NoDup (map rd_id [town_read north; town_read south])
  /\ forall fuel, (2 < fuel)%nat ->
     @follow _ _ demo_shapely plain_geometry reference_server reference_entropy demo_server no_caches 9
       ids_of "towns" (with_limit 1 no_query) (Some ana) fuel 0 towns_world
     = (inr (Some [town_read north; town_read south]), towns_world).
Proof.
  apply (@next_links_give_all _ _ demo_shapely plain_geometry reference_server reference_entropy plain_postgis
    demo_server _ _ no_caches 9 ids_of "towns" (with_limit 1 no_query) (Some ana) towns_world
    (demo_collection "towns" 1 "private" "vector") 2 [north; south]).
  - split; try done; try exact unique_towns; try (by vm_compute). by eexists.
  - split; [|split; [by vm_compute|]].
    + split; [by vm_compute|]. apply towns_whole. by right.
    + repeat constructor; by vm_compute.
Defined.

(** The ids an answer shows. *)
Definition answer_ids (a : exn + items_answer) : string :=
  match a with
  | inr (PageAnswer p) => ids_of p
  | inr (CachedBody ids) => "kept: " +:+ ids
  | inr (BoxAnswer _ _) => "box"
  | inl e => exn_str e
  end.

(** The key of a kept list leaves out the filters by the name of a property: the second
    of two requests asks for other features and gets the list of the first. *)
Theorem kept_list_ignores_name_filters :
  let ask name := list_demo default_settings "towns" (with_name name no_query) (Some ana) in
  let first := ask "north" towns_world in
  answer_ids first.1 = "a" /\ answer_ids (ask "south" first.2).1 = "kept: a"
  /\ answer_ids (ask "south" towns_world).1 = "b".
Proof. split_and!; by vm_compute. Qed.

(** A kept list outlives the features it shows: after [b] is deleted it is still listed. *)
Theorem kept_list_shows_deleted :
  let ask := list_demo default_settings "towns" no_query (Some ana) in
  let first := ask towns_world in
  let deleted := @delete_item reference_server demo_server "towns" "b" (Some ana) first.2 in
  answer_ids first.1 = "a b" /\ deleted.1 = inr tt /\ answer_ids (ask deleted.2).1 = "kept: a b".
Proof. split_and!; by vm_compute. Qed.

(** The members of a composite collection are not checked against the caller: [bo], who
    may not see the collections of [ana], reads their features through his own one. *)
Theorem composite_shows_hidden_members :
  let q := mkItemsQuery None 0 None None None false None [] None false None (Some true) [] in
  let ask c := list_demo default_settings c q (Some bo) members_world in
  answer_ids (ask "towns").1 = "404: Collection not found"
  /\ answer_ids (ask "merged").1 = "towns:a towns:b hamlets:a".
Proof. split; by vm_compute. Qed.

(** A list with filters by equality is cut to the ids resolved ahead of it, at most
    fifty for a small page: of fifty-one features the last page shows none, while the
    same condition by the name of the property shows the last one. *)
Definition many_towns : database :=
  Db ∅ ∅ (map (fun i => town (pad 2 (Z.of_nat i) "") 0 "north" [(1, 2)]) (seq 0 51))
    {[ "towns" := CollRow 51 None ]}.
Definition by_name_eq : ItemsQuery :=
  mkItemsQuery (Some 10) 50 None None None false None ["name:eq:north"] None false None None [].
Definition by_name : ItemsQuery :=
  mkItemsQuery (Some 10) 50 None None None false None [] None false None None [("name", "north")].

Theorem equality_filter_cuts_list :
  let w := with_db towns_world many_towns in
  answer_ids (list_demo no_caches "towns" by_name_eq (Some ana) w).1 = ""
  /\ answer_ids (list_demo no_caches "towns" by_name (Some ana) w).1 = "50".
Proof. split; by vm_compute. Qed.

(** The links of a page are made of the last value of each parameter: a list with two
    filters has a next page with one. *)
Theorem next_link_loses_filters :
  page_href [("filter", "kind:eq:town"); ("filter", "name:eq:north")] 10 10
  = [("filter", "name:eq:north"); ("limit", "10"); ("offset", "10")].
Proof. by vm_compute. Qed.
